(* ===== verification/_CoqProject ===== *)
-Q . S2P
Prelude.v
Floats.v
Lex.v
Errors.v
Domain.v
Batch.v
LatentBatch.v
Feedback.v
Config.v
AccumulatorTrait.v
Scalar.v
Stratification.v
Vector.v
FullVector.v
Gammaloop.v
Stratified.v
AccumulatorState.v
Extraction.v
Evaluation.v
Havana.v
Generation.v
Raster.v
BatchIds.v
ParameterGrid.v
Metrics.v
WorkQueue.v
Recovery.v
CampaignBudget.v
Assignments.v
ControlPlane.v
ControllerLoop.v
Queue.v
Tasks.v
Runner.v
RunnerLaws.v
RunnerIngest.v
RunnerProgress.v
RunnerExamples.v
TaskStore.v
TaskQueue.v
StageContext.v
StageResolution.v
TaskExamples.v
TaskControl.v
TaskControlLaws.v
Evaluator.v
EvaluatorLaws.v
EvaluatorDrain.v
EvaluatorInstance.v
EvaluatorExamples.v
NodeRunner.v
NodeLaws.v
RoleRunners.v
RoleLaws.v
NodeInstance.v
NodeExamples.v
RoleExamples.v
QueueProtocol.v
QueueInstance.v
QueueDelivery.v
Json.v
ChildResults.v
ControllerLaws.v
Campaign.v
CampaignLaws.v
CampaignInstance.v
CampaignExamples.v
ParameterScan.v
ScanLaws.v
Tuning.v
TuningTick.v
TuningLaws.v
TuningExamples.v
ControlInstance.v
NaiveMonteCarlo.v
NaiveLaws.v
HavanaGrid.v
HavanaTraining.v
HavanaLaws.v
HavanaGridLaws.v
