(* ===== verification/Prelude.v ===== *)
(** * GammaBoard: a verification library of the sampling pipeline

    GammaBoard integrates a function by adaptive Monte Carlo sampling on a pool of
    worker processes. A _sampler_ draws points and cuts them into batches, a
    PostgreSQL queue hands the batches to _evaluators_, their results come back to
    the sampler in order, train it and are merged into an accumulator. A run is a
    queue of _tasks_ (stages); what a finished stage leaves is the input of later
    ones. _Controllers_ are tasks that create child runs and share a pool of worker
    nodes between them. This library models that pipeline, from machine integers
    to whole runners, as executable definitions, and proves what makes it correct.

    ** Foundations

    - [Prelude]: integers with their widths, list and error-monad lemmas, the
      state-and-error monad [SE] of methods on [&mut self], its triples and the
      stability calculus with the hint database [stable].
    - [Floats] (binary64 with the operations of Rust's standard library), [Lex]
      (coordinate tuples and their order), [Errors] (src/core/errors.rs).

    ** Data and accumulators

    - [Domain] (src/utils/domain.rs), [Batch] (src/evaluation/batch.rs),
      [LatentBatch] (src/sampling/latent_batch.rs), [Feedback]
      (src/sampling/feedback.rs), [Config] (src/core/run_spec.rs),
      [Tasks] (src/core/tasks.rs).
    - Accumulators of src/evaluation/accumulator/: the class [Accumulator] of
      [AccumulatorTrait] is what merging promises to everyone; [Scalar], [Vector],
      [FullVector], [Stratified] and [Gammaloop] implement it, [AccumulatorState]
      is the tagged union with its dispatch, [Extraction] reads metrics off it.
      The histogram bundle of the gammalooprs package is the class [Observables].
    - [Stratification] (src/core/stratification.rs) and [Evaluation]
      (src/evaluation/stratification.rs, traits.rs): plans, classification, and
      the results an evaluator builds under a plan.

    ** Sampling

    - [Generation] (src/sampling/generation.rs, sampler.rs): a draw, dispatched in
      chunks and reassembled. [Raster] (raster.rs, a permuted scan of a grid).
    - [NaiveMonteCarlo], [NaiveLaws] (naive_monte_carlo.rs, synthetic_timing.rs):
      uniform points of a domain, drawn in training windows; the generator is the class
      [McRng].
    - [Havana] (reading the samples of a grid, the replay of frozen draws), [HavanaGrid]
      (havana_grid.rs and the queries of havana.rs), [HavanaTraining] (havana.rs). The
      Symbolica grid is the class [SymbolicaGrid]. [HavanaLaws] compares training with a
      reference that trains sample by sample, [HavanaGridLaws] follows the nesting of a
      grid from its domain to its points and ends with a grid that has all the laws.

    ** The store

    Each SQL statement or transaction is one atomic function on the tables it
    touches, at one database time; an error rolls it back. Interleaving is then
    that of whole transactions, as a step relation.

    - [WorkQueue] (stores/queries/work_queue.rs): batches, claims, results.
    - [Recovery] (stores/recovery.rs): rolling back to a saved checkpoint.
    - [TaskStore], [TaskQueue] (queries/tasks.rs, aggregation.rs): the tasks of a
      run and the snapshots of its stages.
    - [ControlPlane] (queries/control_plane.rs, connection_budget.rs): nodes, their
      leases, desired and current assignments. [CampaignBudget]
      (queries/campaign_budget.rs): grants of samples to the children of a campaign.

    ** Runners

    - [Queue] (runners/queue.rs): the sampler's side of the work queue with its
      background tasks. A spawned task is a function of the world that has not run
      yet. [QueueProtocol] states what it relies on in a store (class
      [QueueStore]), [QueueInstance] shows that [WorkQueue] and [BatchIds] provide
      it, and [QueueDelivery] proves ordered, exactly-once delivery.
    - [Runner] (runners/sampler_aggregator.rs) over the classes [RunnerWorld] and
      [SamplerOps]; [RunnerLaws] (budgets, checkpoints), [RunnerIngest]
      (refinement of a reference ingestion), [RunnerProgress] (liveness),
      [RunnerExamples] (a concrete life of a task).
    - [Evaluator] (runners/evaluator.rs) over [EvaluatorWorld] and the engines of a
      task; [EvaluatorLaws] and [EvaluatorDrain] against the class [ClaimLedger],
      [EvaluatorInstance] which derives that class from [WorkQueue] with lost
      requests and lost answers, [EvaluatorExamples].
    - [NodeRunner] (runners/node_runner/mod.rs and the supervision half of
      reconcile.rs): a worker process, over the class [NodeWorld] and the class
      [RoleRunner] of the source's trait. [NodeLaws] proves what holds in every
      world; [NodeInstance] is the world of the deployment's tables, with lost
      requests and answers. [RoleRunners] (role_runner.rs and the activation half of
      reconcile.rs) makes the two runners above the roles of a node and builds them
      from the tables; [RoleLaws] is what activation guarantees. [NodeExamples] and
      [RoleExamples] run both on concrete tables.
    - [StageContext], [StageResolution] (runners/stage_context.rs): what a stage
      inherits. [TaskControl], [TaskControlLaws]
      (runners/task_control.rs): the control loop over [TaskStore], [ControlPlane]
      and [WorkQueue], for any controllers; [ControlInstance] gives it those of the
      program. [TaskExamples]: a run from creation to end.
    - [Assignments] (runners/controller_child.rs) and [ControllerLoop]: sharing the
      pool between the children and publishing it on [ControlPlane]. [Json]
      (services/results.rs and the TOML of parameters), [ChildResults] (the rest of
      controller_child.rs, services/measurement.rs) and [Campaign]
      (runners/integration_campaign.rs): the tick of an integration campaign over
      the requests [ControllerStore]. [ControllerLaws] and [CampaignLaws] hold over
      any store; [CampaignInstance] is the store of the deployment's tables, with lost
      requests and answers, [CampaignExamples] a campaign from its first tick to its
      end. [ParameterScan], [ScanLaws] (runners/parameter_scan.rs) and [Tuning],
      [TuningTick], [TuningLaws] (runners/hyperparameter_tuning.rs: plans and points,
      the tick, its laws) are the other two controllers; [TuningExamples] runs both.
      [ParameterGrid], [Metrics] (window, rolling and rate statistics).

    ** How the parts meet

    A node runs what its assignment names. The sampler runner talks to the store
    through [Queue] and [RunnerWorld], the evaluator through [EvaluatorWorld]; both
    meet in [WorkQueue]: the evaluator's transactions are the outside steps the
    queue's protocol allows (QueueInstance), and the other workers' transactions
    are those the evaluator's ledger allows (EvaluatorInstance). The control loop
    moves the tasks of [TaskStore] that both runners read, and releases the nodes
    of [ControlPlane]. JSON and TOML are interfaces ([TaskCodec], [SavedStates],
    [TomlValues]); platform floating-point functions are [Libm].

    ** The theorems

    - Delivery and budgets: [queue_delivers_in_order], [never_overdraws],
      [produce_within_budgets], [campaign_cap_respected].
    - Refinement and round trips: [ingestion_refines], [resumes_where_it_stopped],
      [latent_roundtrip], [havana_slice_replay], [restore_reaches_boundary].
    - Progress and termination: [draw_is_handed_out], [stop_drains],
      [control_step_starts_or_finishes], [havana_source_is_the_latest].
    - Invariants and safety of the shared tables: [work_queue_invariant],
      [accepted_result_is_final], [claims_are_never_lost], [tasks_run_in_sequence],
      [ended_tasks_are_final], [samplers_stay_exclusive], [desired_batch_atomic].
    - Controllers: [pool_shared_fairly], [controller_tick_converges]; campaigns:
      [campaign_completes_drained], [granted_work_goes_on], [slots_go_to_the_best],
      [budgets_one_window_ahead]; scans and searches: [scan_completes_measured],
      [tuning_completes_measured], and [lost_trial_blocks_egobox], a search that
      cannot end.
    - Samplers: [draws_are_valid_points], [training_windows_hold],
      [training_ignores_the_schedule], [training_draws_until_its_budget].
    - Data: [merge_all_or_nothing], [scalar_counts_every_sample],
      [dispatch_covers_points], [validate_point_fixed_shape], [batch_ids_overflow].
    - Worker processes: [start_attempts_are_limited], [poll_follows_the_assignment],
      [exhausted_start_pauses_the_run], [activation_resumes_its_checkpoint], and the
      ends the code has not foreseen: [tick_failures_do_not_accumulate],
      [sampler_handover_ends_the_process], [completion_errors_fail_the_task],
      [missing_handoff_is_not_recognized].
    - Stages: [stage_depends_on_finished_stages], [handoff_keeps_the_partition],
      [set_accumulator_reaches_later_stages], [control_step_waits_for_the_stage].

    ** Bounds and fuel

    Loops whose end is not structural take fuel, and a theorem shows how much is
    enough: [start_tasks] (TaskControl) ends within the pending tasks of the run
    plus one, since no controller adds tasks to the queue of its own run; [havana_search] within the sequence number of its stage plus one
    rounds; the drain of a stopped evaluator within two ticks, and a call to
    [drain_ready] within two passes; the coprime stride of [Raster] below the number
    of cells. Other loops are structural folds over what they consume. Integers
    are Z with the checks and wrap-around of the source at the widths it uses.

    ** What is not modelled

    The HTTP server and its panels, the command line, deployment and process
    spawning are presentation or operating-system calls. Evaluators, external
    processes and batch transforms are adapters around third-party code, known
    here through their interfaces. The bincode and JSON encodings are those of
    serde. A sampler that is restored from its snapshot is given what the snapshot
    function returned: the JSON text in between is taken to lose nothing, also of
    floats. Retry counts are unbounded integers, not INT columns. Busy-time
    accounting, activity labels, log records and CPU accounting (database triggers)
    decide nothing. Read models of the dashboard are plain
    queries. *)
From stdpp Require Export base tactics option list list_numbers numbers sorting.
From stdpp Require Export strings gmap.
From Stdlib Require Export ZArith Lia.


(** ** Machine integers

    [usize], [u64] and [i64] values are [Z]; the operations of the source that
    test their width ([checked_add], [saturating_sub], casts) are written out
    here with the bounds of a 64-bit target. *)

Open Scope Z_scope.

Abbreviation usize := Z (only parsing).
Abbreviation u64 := Z (only parsing).
Abbreviation i64 := Z (only parsing).
Abbreviation i32 := Z (only parsing).

Definition usize_max : Z := 2 ^ 64 - 1.
Definition i64_max : Z := 2 ^ 63 - 1.
Definition i64_min : Z := - 2 ^ 63.
Definition i32_max : Z := 2 ^ 31 - 1.

(** Two's complement reading of the low 64 bits: what [x as i64] and a
    wrapping [<<] leave. *)
Definition wrap_i64 (z : Z) : Z := (z + 2 ^ 63) mod 2 ^ 64 - 2 ^ 63.

Definition usize_checked_add (a b : Z) : option Z :=
  if a + b <=? usize_max then Some (a + b) else None.
Definition usize_checked_mul (a b : Z) : option Z :=
  if a * b <=? usize_max then Some (a * b) else None.
Definition usize_saturating_add (a b : Z) : Z := Z.min usize_max (a + b).
Definition usize_saturating_sub (a b : Z) : Z := Z.max 0 (a - b).
Definition usize_saturating_mul (a b : Z) : Z := Z.min usize_max (a * b).
Definition i64_saturating_add (a b : Z) : Z := Z.max i64_min (Z.min i64_max (a + b)).
Definition i64_saturating_sub (a b : Z) : Z := Z.max i64_min (Z.min i64_max (a - b)).
Definition i32_saturating_add (a b : Z) : Z := Z.max (- 2 ^ 31) (Z.min i32_max (a + b)).
Definition i32_saturating_sub (a b : Z) : Z := Z.max (- 2 ^ 31) (Z.min i32_max (a - b)).
Definition i64_checked_add (a b : Z) : option Z :=
  if (i64_min <=? a + b) && (a + b <=? i64_max) then Some (a + b) else None.
Definition u64_checked_add (a b : Z) : option Z := usize_checked_add a b.

(** [a.div_ceil(b)] on unsigned integers, [b > 0]. *)
Definition div_ceil (a b : Z) : Z := (a + b - 1) / b.

(** [x.clamp(lo, hi)] of [Ord]. *)
Definition clamp (lo hi x : Z) : Z := Z.max lo (Z.min hi x).

Definition zlen {A} (l : list A) : Z := Z.of_nat (length l).
Definition zsum (l : list Z) : Z := foldr Z.add 0 l.
Definition ztake {A} (n : Z) (l : list A) : list A := take (Z.to_nat n) l.
Definition zdrop {A} (n : Z) (l : list A) : list A := drop (Z.to_nat n) l.

Arguments ztake : simpl never.
Arguments zdrop : simpl never.

(** [l.get(a..b)]: [None] when the range is decreasing or leaves the slice. *)
Definition get_range {A} (a b : Z) (l : list A) : option (list A) :=
  if (0 <=? a) && (a <=? b) && (b <=? zlen l) then Some (ztake (b - a) (zdrop a l)) else None.

(** [l.get(i)] *)
Definition zget {A} (l : list A) (i : Z) : option A :=
  if 0 <=? i then l !! Z.to_nat i else None.

(** ** Fallible code: [Result<A, E>] *)

Inductive result (E A : Type) : Type :=
| Ok (a : A)
| Err (e : E).
Arguments Ok {E A} a.
Arguments Err {E A} e.

Definition result_bind {E A B} (m : result E A) (k : A -> result E B) : result E B :=
  match m with Ok a => k a | Err e => Err e end.
Definition map_err {E F A} (f : E -> F) (m : result E A) : result F A :=
  match m with Ok a => Ok a | Err e => Err (f e) end.
Definition ok_or {E A} (e : E) (o : option A) : result E A :=
  match o with Some a => Ok a | None => Err e end.
Definition is_ok {E A} (m : result E A) : bool :=
  match m with Ok _ => true | Err _ => false end.
Definition result_ok {E A} (m : result E A) : option A :=
  match m with Ok a => Some a | Err _ => None end.

Declare Scope gb_scope.
Delimit Scope gb_scope with gb.
Open Scope gb_scope.

(** The [?] operator. *)
Notation "'let?' x ':=' m 'in' k" := (result_bind m (fun x => k))
  (at level 10, x pattern, m at level 100, k at level 200,
   format "'[v' 'let?'  x  ':='  m  'in' '/' k ']'") : gb_scope.

(** [iter.map(f).collect::<Result<Vec<_>, _>>()] and [try_fold]. *)
Fixpoint try_map {E A B} (f : A -> result E B) (l : list A) : result E (list B) :=
  match l with
  | [] => Ok []
  | x :: l => let? y := f x in let? ys := try_map f l in Ok (y :: ys)
  end.
Fixpoint try_fold {E A B} (f : B -> A -> result E B) (acc : B) (l : list A) : result E B :=
  match l with
  | [] => Ok acc
  | x :: l => let? acc := f acc x in try_fold f acc l
  end.

(** ** Stateful fallible code

    A method on [&mut self] that returns a [Result]: the state it leaves is
    kept on the error path too. *)
Definition SE (S E A : Type) : Type := S -> S * result E A.

Definition se_ret {S E A} (a : A) : SE S E A := fun s => (s, Ok a).
Definition se_fail {S E A} (e : E) : SE S E A := fun s => (s, Err e).
Definition se_bind {S E A B} (m : SE S E A) (k : A -> SE S E B) : SE S E B :=
  fun s => match m s with
           | (s', Ok a) => k a s'
           | (s', Err e) => (s', Err e)
           end.
Definition se_get {S E A} (f : S -> A) : SE S E A := fun s => (s, Ok (f s)).
Definition se_modify {S E} (f : S -> S) : SE S E unit := fun s => (f s, Ok tt).
Definition se_lift {S E A} (m : result E A) : SE S E A := fun s => (s, m).
Definition se_when {S E} (b : bool) (m : SE S E unit) : SE S E unit :=
  if b then m else se_ret tt.
(** [let _ = fallible();]: the outcome is discarded, the effects stay. *)
Definition se_ignore {S E A} (m : SE S E A) : SE S E unit :=
  fun s => (fst (m s), Ok tt).

Notation "'let!' x ':=' m 'in' k" := (se_bind m (fun x => k))
  (at level 10, x pattern, m at level 100, k at level 200,
   format "'[v' 'let!'  x  ':='  m  'in' '/' k ']'") : gb_scope.
Notation "m ';!' k" := (se_bind m (fun _ => k))
  (at level 199, right associativity,
   format "'[v' m  ';!' '/' k ']'") : gb_scope.

(** *** Invariants of methods

    [upholds P m]: whatever [m] meets in the world and however it ends, it leaves
    a component that satisfied [P] satisfying [P]. *)
Definition upholds {X W E A} (P : X -> Prop) (m : SE (X * W) E A) : Prop :=
  forall s s' r, m s = (s', r) -> P s.1 -> P s'.1.

Section upholds.
Context {X W E : Type} (P : X -> Prop).

Lemma upholds_ret {A} (a : A) : upholds P (se_ret (S:=X * W) (E:=E) a).
Proof. intros s s' r [= <- _]. done. Qed.
Lemma upholds_fail {A} (e : E) : upholds P (se_fail (S:=X * W) (A:=A) e).
Proof. intros s s' r [= <- _]. done. Qed.
Lemma upholds_get {A} (f : X * W -> A) : upholds P (se_get (E:=E) f).
Proof. intros s s' r [= <- _]. done. Qed.
Lemma upholds_lift {A} (m : result E A) : upholds P (se_lift (S:=X * W) m).
Proof. intros s s' r [= <- _]. done. Qed.
Lemma upholds_modify (f : X * W -> X * W) :
  (forall s, P s.1 -> P (f s).1) -> upholds P (se_modify (E:=E) f).
Proof. intros Hf s s' r [= <- _]. apply Hf. Qed.
Lemma upholds_bind {A B} (m : SE (X * W) E A) (k : A -> SE (X * W) E B) :
  upholds P m -> (forall a, upholds P (k a)) -> upholds P (se_bind m k).
Proof.
  intros Hm Hk s s' r. unfold se_bind. destruct (m s) as [s1 [a|e]] eqn:Em.
  - intros Hs HP. eapply Hk; [exact Hs|]. by eapply Hm.
  - intros [= <- _]. by eapply Hm.
Qed.
Lemma upholds_when (b : bool) (m : SE (X * W) E unit) : upholds P m -> upholds P (se_when b m).
Proof. intros Hm. unfold se_when. destruct b; [done|apply upholds_ret]. Qed.
Lemma upholds_ignore {A} (m : SE (X * W) E A) : upholds P m -> upholds P (se_ignore m).
Proof. intros Hm s s' r [= <- _] HP. destruct (m s) as [s1 r1] eqn:Em. by eapply Hm. Qed.
End upholds.

Create HintDb uphold.
#[export] Hint Resolve upholds_ret upholds_fail upholds_get upholds_lift : uphold.

(** Follow the structure of a method down to its primitive steps. *)
Ltac upholds_step :=
  match goal with
  | |- upholds _ (se_bind _ _) => apply upholds_bind; [|intros ?]
  | |- upholds _ (se_when _ _) => apply upholds_when
  | |- upholds _ (se_ignore _) => apply upholds_ignore
  | |- upholds _ (match ?x with _ => _ end) => destruct x
  | |- upholds _ _ => solve [eauto 2 with uphold]
  end.
Ltac upholds_auto := repeat (cbv zeta; upholds_step).

(** *** Triples

    [triple P m Q R]: from a state with [P] the method [m] returns with [Q] of its
    value, or fails with [R]. *)
Definition triple {S E A} (P : S -> Prop) (m : SE S E A) (Q : A -> S -> Prop) (R : S -> Prop) : Prop :=
  forall s, P s -> match m s with (s', Ok a) => Q a s' | (s', Err _) => R s' end.

Section triples.
Context {S E : Type}.
Implicit Types (P R : S -> Prop).

Lemma triple_bind {A B} (m : SE S E A) (k : A -> SE S E B) P Q Q' R :
  triple P m Q R -> (forall a, triple (Q a) (k a) Q' R) -> triple P (se_bind m k) Q' R.
Proof.
  intros Hm Hk s HP. unfold se_bind. specialize (Hm s HP). destruct (m s) as [s' [a|e]]; [|done].
  by apply Hk.
Qed.
Lemma triple_weaken {A} P P' (m : SE S E A) (Q Q' : A -> S -> Prop) R R' :
  triple P' m Q' R' -> (forall s, P s -> P' s) -> (forall a s, Q' a s -> Q a s) -> (forall s, R' s -> R s) -> triple P m Q R.
Proof. intros Hm HP HQ HR s Hs. specialize (Hm s (HP s Hs)). destruct (m s) as [s' [a|e]]; auto. Qed.

(** A method keeps [I] however it ends. *)
Definition stable (I : S -> Prop) {A} (m : SE S E A) : Prop := triple I m (fun _ => I) I.
Lemma stable_seq {A B} (m : SE S E A) (k : A -> SE S E B) P Q R :
  triple P m (fun _ => P) R -> (forall a, triple P (k a) Q R) -> triple P (se_bind m k) Q R.
Proof. apply triple_bind. Qed.

Variable I : S -> Prop.
Lemma stable_ret {A} (a : A) : stable I (se_ret (E:=E) a).
Proof. by intros s HI. Qed.
Lemma stable_fail {A} (e : E) : stable I (se_fail (A:=A) e).
Proof. by intros s HI. Qed.
Lemma stable_get {A} (f : S -> A) : stable I (se_get (E:=E) f).
Proof. by intros s HI. Qed.
Lemma stable_lift {A} (m : result E A) : stable I (se_lift m).
Proof. intros s HI. by destruct m. Qed.
Lemma stable_bind {A B} (m : SE S E A) (k : A -> SE S E B) :
  stable I m -> (forall a, stable I (k a)) -> stable I (se_bind m k).
Proof. intros Hm Hk. by eapply triple_bind. Qed.
Lemma stable_when b (m : SE S E unit) : stable I m -> stable I (se_when b m).
Proof. destruct b; [done|]. intros _. apply stable_ret. Qed.
Lemma stable_modify (f : S -> S) : (forall s, I s -> I (f s)) -> stable I (se_modify (E:=E) f).
Proof. intros Hf s HI. by apply Hf. Qed.
End triples.

Create HintDb stable.
#[export] Hint Resolve stable_ret stable_fail stable_get stable_lift : stable.

Ltac stable_step :=
  match goal with
  | |- stable _ (se_bind _ _) => apply stable_bind; [|intros ?]
  | |- stable _ (se_when _ _) => apply stable_when
  | |- stable _ (match ?x with _ => _ end) => destruct x
  | |- stable _ _ => solve [eauto 3 with stable]
  end.
Ltac stable_auto := repeat (cbv zeta; stable_step).

(** ** Shared tactics *)

(** Case analysis on the scrutinee of a [match] or [if] in the goal or in the
    hypotheses, then substitution. *)
Ltac case_match_eqn :=
  match goal with
  | H : context [ match ?x with _ => _ end ] |- _ => destruct x eqn:?; simplify_eq/=
  | |- context [ match ?x with _ => _ end ] => destruct x eqn:?; simplify_eq/=
  end.
Ltac break := repeat case_match_eqn.

(** Turn boolean comparisons on [Z] and boolean connectives into
    propositions. *)
Ltac zbool :=
  repeat match goal with
  | H : (_ && _)%bool = true |- _ => apply andb_true_iff in H as [? ?]
  | H : (_ || _)%bool = false |- _ => apply orb_false_iff in H as [? ?]
  | H : negb _ = true |- _ => apply negb_true_iff in H
  | H : negb _ = false |- _ => apply negb_false_iff in H
  | H : (_ <=? _) = true |- _ => apply Z.leb_le in H
  | H : (_ <=? _) = false |- _ => apply Z.leb_gt in H
  | H : (_ <? _) = true |- _ => apply Z.ltb_lt in H
  | H : (_ <? _) = false |- _ => apply Z.ltb_ge in H
  | H : (_ =? _) = true |- _ => apply Z.eqb_eq in H
  | H : (_ =? _) = false |- _ => apply Z.eqb_neq in H
  | H : (_ >=? _) = true |- _ => rewrite Z.geb_leb in H
  | H : (_ >=? _) = false |- _ => rewrite Z.geb_leb in H
  | H : (_ >? _) = true |- _ => rewrite Z.gtb_ltb in H
  | H : (_ >? _) = false |- _ => rewrite Z.gtb_ltb in H
  | H : bool_decide _ = true |- _ => apply bool_decide_eq_true in H
  | H : bool_decide _ = false |- _ => apply bool_decide_eq_false in H
  end.

(** Invert an equation [(let? ... in ...) = Ok _]. *)
Lemma result_bind_ok {E A B} (m : result E A) (k : A -> result E B) b :
  result_bind m k = Ok b <-> exists a, m = Ok a /\ k a = Ok b.
Proof. destruct m; simpl; naive_solver. Qed.

Ltac inv_ok :=
  repeat match goal with
  | H : result_bind _ _ = Ok _ |- _ =>
      apply result_bind_ok in H as (? & ? & ?); simplify_eq/=
  | H : map_err _ ?m = Ok _ |- _ => destruct m eqn:?; simplify_eq/=
  | H : ok_or _ ?m = Ok _ |- _ => destruct m eqn:?; simplify_eq/=
  end.

(** ** Generic lemmas *)

Create HintDb gb.

Lemma zlen_nil {A} : zlen (@nil A) = 0.
Proof. done. Qed.
Lemma zlen_cons {A} (x : A) l : zlen (x :: l) = zlen l + 1.
Proof. unfold zlen; simpl; lia. Qed.
Lemma zlen_app {A} (l k : list A) : zlen (l ++ k) = zlen l + zlen k.
Proof. unfold zlen; rewrite length_app; lia. Qed.
Lemma zlen_map {A B} (f : A -> B) l : zlen (f <$> l) = zlen l.
Proof. unfold zlen; by rewrite length_fmap. Qed.
Lemma zlen_lmap {A B} (f : A -> B) l : zlen (map f l) = zlen l.
Proof. apply zlen_map. Qed.
Lemma zlen_replicate {A} n (x : A) : zlen (replicate n x) = Z.of_nat n.
Proof. unfold zlen; by rewrite length_replicate. Qed.
Lemma zlen_nonneg {A} (l : list A) : 0 <= zlen l.
Proof. unfold zlen; lia. Qed.
Lemma zlen_zero {A} (l : list A) : zlen l = 0 -> l = [].
Proof. destruct l; [done|]. rewrite zlen_cons. pose proof (zlen_nonneg l). lia. Qed.
Lemma zlen_ztake {A} n (l : list A) : 0 <= n <= zlen l -> zlen (ztake n l) = n.
Proof. unfold zlen, ztake; intros; rewrite length_take; lia. Qed.
Lemma zlen_zdrop {A} n (l : list A) : 0 <= n <= zlen l -> zlen (zdrop n l) = zlen l - n.
Proof. unfold zlen, zdrop; intros; rewrite length_drop; lia. Qed.
Lemma ztake_zdrop {A} n (l : list A) : ztake n l ++ zdrop n l = l.
Proof. apply take_drop. Qed.
Lemma elem_of_ztake {A} n (l : list A) x : x ∈ ztake n l -> x ∈ l.
Proof. intros H. rewrite <- (ztake_zdrop n l). apply elem_of_app. by left. Qed.
Lemma ztake_all {A} n (l : list A) : zlen l <= n -> ztake n l = l.
Proof. unfold zlen, ztake; intros; apply take_ge; lia. Qed.
Lemma zdrop_zdrop {A} n m (l : list A) : 0 <= n -> 0 <= m -> zdrop n (zdrop m l) = zdrop (m + n) l.
Proof. unfold zdrop; intros; rewrite drop_drop; f_equal; lia. Qed.
Lemma zdrop_0 {A} (l : list A) : zdrop 0 l = l.
Proof. done. Qed.
Lemma ztake_0 {A} (l : list A) : ztake 0 l = [].
Proof. done. Qed.
Lemma zdrop_all {A} n (l : list A) : zlen l <= n -> zdrop n l = [].
Proof. unfold zlen, zdrop; intros; apply drop_ge; lia. Qed.

Lemma zsum_nil : zsum [] = 0.
Proof. done. Qed.
Lemma zsum_cons x l : zsum (x :: l) = x + zsum l.
Proof. done. Qed.
Lemma zsum_app l k : zsum (l ++ k) = zsum l + zsum k.
Proof. unfold zsum. induction l; simpl; [done|lia]. Qed.
Lemma zsum_nonneg l : Forall (fun x => 0 <= x) l -> 0 <= zsum l.
Proof. unfold zsum. induction 1; simpl; lia. Qed.

Lemma zsum_elem x l : Forall (fun x => 0 <= x) l -> x ∈ l -> x <= zsum l.
Proof.
  induction 1 as [|y l Hy Hl IH]; simpl; [by intros ?%elem_of_nil|].
  pose proof (zsum_nonneg l Hl). intros [->|?%IH]%elem_of_cons; lia.
Qed.

Lemma zsum_bounded n m l :
  0 <= n -> zlen l <= n -> Forall (fun x => 0 <= x /\ x * n <= m) l -> 0 <= m -> zsum l <= m.
Proof.
  intros Hn Hlen Hl Hm. destruct (decide (n = 0)) as [->|].
  { destruct l; [done|]. unfold zlen in Hlen. simpl in Hlen. lia. }
  enough (zsum l * n <= zlen l * m) as Hsum.
  { apply (Z.mul_le_mono_pos_r _ _ n); [lia|].
    pose proof (Z.mul_le_mono_nonneg_r _ _ m Hm Hlen). lia. }
  clear Hlen. induction Hl as [|x l [? ?] _ IH]; [done|].
  rewrite zlen_cons, zsum_cons, !Z.mul_add_distr_r. lia.
Qed.

#[export] Hint Rewrite @zlen_nil @zlen_cons @zlen_app @zlen_map @zlen_lmap @zlen_replicate
  zsum_nil zsum_cons zsum_app : gb.
#[export] Hint Resolve zlen_nonneg zsum_nonneg : gb.

Lemma get_range_Some {A} a b (l k : list A) :
  get_range a b l = Some k <-> 0 <= a <= b /\ b <= zlen l /\ k = ztake (b - a) (zdrop a l).
Proof.
  unfold get_range. split.
  - intros. break; zbool. split_and!; [lia..|done].
  - intros ([? ?] & ? & ->). rewrite !(proj2 (Z.leb_le _ _)) by lia. done.
Qed.

Lemma get_range_middle {A} (l1 l2 l3 : list A) a b :
  a = zlen l1 -> b = a + zlen l2 -> get_range a b (l1 ++ l2 ++ l3) = Some l2.
Proof.
  intros -> ->. apply get_range_Some. rewrite !zlen_app.
  pose proof (zlen_nonneg l1). pose proof (zlen_nonneg l2). pose proof (zlen_nonneg l3).
  split_and!; try lia. unfold ztake, zdrop, zlen.
  rewrite Z.add_simpl_l, !Nat2Z.id, drop_app_length, take_app_length. done.
Qed.

Lemma ztake_zdrop_app {A} a b c (l : list A) :
  0 <= a <= b -> b <= c -> ztake (b - a) (zdrop a l) ++ ztake (c - b) (zdrop b l) = ztake (c - a) (zdrop a l).
Proof.
  intros. unfold ztake, zdrop.
  replace (Z.to_nat (c - a)) with (Z.to_nat (b - a) + Z.to_nat (c - b))%nat by lia.
  rewrite <- (take_take_drop (drop (Z.to_nat a) l)), drop_drop. do 3 f_equal. lia.
Qed.

Lemma ztake_add {A} k n (l : list A) :
  0 <= k -> 0 <= n -> ztake (k + n) l = ztake k l ++ ztake n (zdrop k l).
Proof.
  intros. pose proof (ztake_zdrop_app 0 k (k + n) l) as E. rewrite zdrop_0, !Z.sub_0_r in E.
  rewrite <- E by lia. do 2 f_equal. lia.
Qed.

Lemma zget_app_l {A} (l k : list A) i x : zget l i = Some x -> zget (l ++ k) i = Some x.
Proof. unfold zget. destruct (0 <=? i); [|done]. apply lookup_app_l_Some. Qed.
Lemma zget_elem {A} (l : list A) i x : zget l i = Some x -> x ∈ l.
Proof. unfold zget. destruct (0 <=? i); [|done]. apply list_elem_of_lookup_2. Qed.
Lemma zget_snoc {A} (l : list A) x : zget (l ++ [x]) (zlen l) = Some x.
Proof.
  unfold zget, zlen. rewrite (proj2 (Z.leb_le _ _)), Nat2Z.id by lia.
  by rewrite list_lookup_middle.
Qed.

Lemma lookup_map_middle {A B} (f : A -> B) l x k : map f (l ++ x :: k) !! length l = Some (f x).
Proof.
  change (map f) with (fmap (M:=list) f). by rewrite list_lookup_fmap, list_lookup_middle.
Qed.

Lemma Forall2_ztake {A B} (R : A -> B -> Prop) l k n :
  Forall2 R l k -> Forall2 R (ztake n l) (ztake n k).
Proof. intros. by apply Forall2_take. Qed.
Lemma Forall2_zdrop {A B} (R : A -> B -> Prop) l k n :
  Forall2 R l k -> Forall2 R (zdrop n l) (zdrop n k).
Proof. intros. by apply Forall2_drop. Qed.
Lemma map_ztake {A B} (f : A -> B) n l : map f (ztake n l) = ztake n (map f l).
Proof. symmetry. apply firstn_map. Qed.
Lemma map_zdrop {A B} (f : A -> B) n l : map f (zdrop n l) = zdrop n (map f l).
Proof. symmetry. apply skipn_map. Qed.
Lemma zlen_concat {A} (ls : list (list A)) : zlen (concat ls) = zsum (map zlen ls).
Proof. induction ls; simpl; [done|]. by rewrite zlen_app, IHls. Qed.
Lemma zlen_Forall2 {A B} (R : A -> B -> Prop) l k : Forall2 R l k -> zlen l = zlen k.
Proof. intros H. unfold zlen. by rewrite (Forall2_length _ _ _ H). Qed.

Lemma Forall2_map_r {A B C} (f : B -> C) (P : A -> C -> Prop) l k :
  Forall2 P l (map f k) <-> Forall2 (fun x y => P x (f y)) l k.
Proof.
  split.
  - revert l. induction k; simpl; inversion 1; simplify_eq; constructor; auto.
  - induction 1; simpl; constructor; auto.
Qed.

Lemma try_map_Forall2 {E A B} (f : A -> result E B) l k :
  try_map f l = Ok k <-> Forall2 (fun x y => f x = Ok y) l k.
Proof.
  revert k. induction l as [|x l IH]; intros k; simpl.
  - split; [intros; simplify_eq; constructor | inversion 1; done].
  - rewrite result_bind_ok. split.
    + intros (y & ? & ?). inv_ok. constructor; [done|]. by apply IH.
    + inversion 1 as [|? y ? k' ? Hk]; simplify_eq. exists y; split; [done|].
      apply IH in Hk. by rewrite Hk.
Qed.

Lemma try_map_length {E A B} (f : A -> result E B) l k :
  try_map f l = Ok k -> length k = length l.
Proof. intros H%try_map_Forall2. symmetry. by eapply Forall2_length. Qed.

Lemma try_map_app {E A B} (f : A -> result E B) l1 l2 k1 k2 :
  try_map f l1 = Ok k1 -> try_map f l2 = Ok k2 -> try_map f (l1 ++ l2) = Ok (k1 ++ k2).
Proof. rewrite !try_map_Forall2. apply Forall2_app. Qed.

Lemma try_fold_app {E A B} (f : B -> A -> result E B) acc l1 l2 :
  try_fold f acc (l1 ++ l2) = (let? acc := try_fold f acc l1 in try_fold f acc l2).
Proof. revert acc. induction l1; intros; simpl; [done|]. destruct (f acc a); simpl; auto. Qed.

(** A loop invariant indexed by the number of elements consumed. *)
Lemma try_fold_count {E A B} (f : B -> A -> result E B) (I : Z -> B -> Prop) l k n acc acc' :
  (forall k x b b', k + 1 <= n -> x ∈ l -> I k b -> f b x = Ok b' -> I (k + 1) b') ->
  k + zlen l <= n -> I k acc -> try_fold f acc l = Ok acc' -> I (k + zlen l) acc'.
Proof.
  revert k acc. induction l as [|x l IH]; intros k acc Hstep Hn HI; cbn [try_fold].
  - intros [= <-]. by rewrite zlen_nil, Z.add_0_r.
  - rewrite zlen_cons in *. pose proof (zlen_nonneg l). intros (b & Hb & Hf)%result_bind_ok.
    replace (k + (zlen l + 1)) with (k + 1 + zlen l) by lia. eapply IH; [|lia| |exact Hf].
    + intros. eapply Hstep; [done|apply elem_of_cons; by right|done|done].
    + eapply Hstep; [lia|apply elem_of_cons; by left|done|done].
Qed.

Lemma Forall_ext {A} (P Q : A -> Prop) l : (forall x, P x <-> Q x) -> Forall P l <-> Forall Q l.
Proof. intros H. apply Forall_iff, H. Qed.

Lemma forallb_True_iff {A} (f : A -> bool) l : forallb f l = true <-> Forall (fun x => f x = true) l.
Proof. induction l; simpl; [naive_solver|]. rewrite andb_true_iff, Forall_cons. naive_solver. Qed.

Lemma existsb_false {A} (f : A -> bool) l :
  existsb f l = false <-> Forall (fun x => f x = false) l.
Proof.
  induction l as [|x l IH]; simpl; [naive_solver|].
  rewrite orb_false_iff, IH, Forall_cons. done.
Qed.

(** [iter.take_while(p)] *)
Fixpoint take_while {A} (p : A -> bool) (l : list A) : list A :=
  match l with
  | x :: l => if p x then x :: take_while p l else []
  | [] => []
  end.

Lemma take_while_prefix {A} (p : A -> bool) l : exists k, l = take_while p l ++ k.
Proof.
  induction l as [|x l [k IH]]; simpl; [by exists []|]. destruct (p x); [|by exists (x :: l)].
  exists k. simpl. by rewrite <- IH.
Qed.

Lemma take_while_Forall {A} (p : A -> bool) l : Forall (fun x => p x = true) (take_while p l).
Proof. induction l as [|x l IH]; simpl; [constructor|]. destruct (p x) eqn:E; by constructor. Qed.

Lemma filter_none {A} (P : A -> Prop) `{forall x, Decision (P x)} l : Forall (fun x => ~ P x) l -> filter P l = [].
Proof. induction 1 as [|x l Hx _ IH]; [done|]. by rewrite filter_cons_False. Qed.

(** Filtering a strictly increasing list by its first failure keeps the
    maximal prefix. *)
Lemma take_while_filter {A} (p : A -> bool) (key : A -> Z) l :
  StronglySorted (fun a b => key a < key b) l ->
  filter (fun x => (p x && match option_map key (find (fun y => negb (p y)) l) with
                            | None => true | Some f => key x <? f end) = true) l = take_while p l.
Proof.
  induction 1 as [|x l Hs IH Hf]; [done|]. cbn [find take_while]. destruct (p x) eqn:E; cbn [negb].
  - rewrite filter_cons_True.
    + f_equal. exact IH.
    + rewrite E. simpl. destruct (find _ l) as [y|] eqn:Ef; [|done]. simpl.
      apply find_some in Ef as [Hin _]. rewrite Forall_forall in Hf.
      apply Z.ltb_lt, Hf. by apply list_elem_of_In.
  - rewrite filter_cons_False by (rewrite E; done). cbn [option_map].
    apply filter_none. eapply Forall_impl; [exact Hf|]. intros y Hy. simpl in Hy.
    rewrite (proj2 (Z.ltb_ge _ _)) by lia. by rewrite andb_false_r.
Qed.

(** ** Tables in key order *)

Definition key_le {A} (a b : Z * A) : Prop := a.1 <= b.1.
#[export] Instance key_le_dec {A} : RelDecision (@key_le A).
Proof. intros a b. unfold Decision, key_le. apply Z_le_dec. Defined.

(** [SELECT ... ORDER BY id] *)
Definition by_key {A} (m : gmap Z A) : list (Z * A) := merge_sort key_le (map_to_list m).

Lemma by_key_perm {A} (m : gmap Z A) : by_key m ≡ₚ map_to_list m.
Proof. apply merge_sort_Permutation. Qed.

Lemma elem_of_by_key {A} (m : gmap Z A) k x : (k, x) ∈ by_key m <-> m !! k = Some x.
Proof. rewrite by_key_perm. apply elem_of_map_to_list. Qed.

Definition key_lt {A} (a b : Z * A) : Prop := a.1 < b.1.

Lemma by_key_sorted {A} (m : gmap Z A) : StronglySorted key_lt (by_key m).
Proof.
  assert (StronglySorted key_le (by_key m)) as Hs.
  { apply StronglySorted_merge_sort; [intros x y z; unfold key_le; lia|intros x y; unfold key_le; lia]. }
  assert (NoDup (map fst (by_key m))) as Hnd.
  { change (map fst (by_key m)) with (fst <$> by_key m). rewrite by_key_perm. apply NoDup_fst_map_to_list. }
  induction Hs as [|a l Hs IH Hf]; constructor; simpl in Hnd; apply NoDup_cons in Hnd as [Hn Hnd]; [auto|].
  rewrite Forall_forall in Hf |- *. intros b Hb. specialize (Hf b Hb). unfold key_le, key_lt in *.
  enough (a.1 <> b.1) by lia. intros Heq. apply Hn. rewrite Heq. by apply (list_elem_of_fmap_2 fst).
Qed.

Lemma StronglySorted_filter {A} (R : A -> A -> Prop) (P : A -> Prop) `{forall x, Decision (P x)} l :
  StronglySorted R l -> StronglySorted R (filter P l).
Proof.
  induction 1 as [|x l Hs IH Hf]; [constructor|]. rewrite filter_cons. case_decide; [|done].
  constructor; [done|]. rewrite Forall_forall in Hf |- *. intros y [_ Hy]%list_elem_of_filter. auto.
Qed.

Lemma StronglySorted_take {A} (R : A -> A -> Prop) n l : StronglySorted R l -> StronglySorted R (take n l).
Proof. intros Hs. rewrite <- (take_drop n l) in Hs. by apply StronglySorted_app_1_l in Hs. Qed.

(** Reachability for step relations. *)
Inductive steps {S : Type} (step : S -> S -> Prop) : S -> S -> Prop :=
| steps_refl s : steps step s s
| steps_step s t u : steps step s t -> step t u -> steps step s u.

Lemma steps_invariant {S} (step : S -> S -> Prop) (I : S -> Prop) s t :
  (forall x y, I x -> step x y -> I y) -> I s -> steps step s t -> I t.
Proof. intros Hpres HI. induction 1; eauto. Qed.
