(* ===== verification/Floats.v ===== *)
(** The [f64] operations of the Rust language and standard library, over the
    kernel's binary64 numbers: casts to and from integers, [round], [min],
    [max], [clamp], the truth of [is_finite], and the order on finite values.
    Functions whose result Rust leaves to the platform ([hypot], [powf]) are
    operations of the class [Libm]. *)
From Stdlib Require Export PrimFloat.
From Stdlib Require Import Floats SpecFloat FloatOps FloatAxioms FloatLemmas.
From S2P Require Export Prelude.

Notation f64 := PrimFloat.float (only parsing).

Open Scope Z_scope.

(** Platform functions: the standard library does not fix their last bits. *)
Class Libm := {
  hypot : f64 -> f64 -> f64;
  powf : f64 -> f64 -> f64;
  powi : f64 -> Z -> f64
}.

(** [z as f64]: round to nearest, ties to even. *)
Definition f64_of_Z (z : Z) : f64 := SF2Prim (binary_normalize prec emax z 0 false).

(** The integer part of [x], towards zero; [None] for NaN and infinities. *)
Definition f64_trunc (x : f64) : option Z :=
  match Prim2SF x with
  | S754_zero _ => Some 0
  | S754_finite s m e =>
      let a := if 0 <=? e then Z.pos m * 2 ^ e else Z.pos m / 2 ^ (- e) in
      Some (if s then - a else a)
  | _ => None
  end.

(** [x as usize]: saturating, NaN is 0. *)
Definition f64_as_usize (x : f64) : Z :=
  match Prim2SF x with
  | S754_nan => 0
  | S754_infinity s => if s then 0 else usize_max
  | _ => match f64_trunc x with Some z => clamp 0 usize_max z | None => 0 end
  end.

(** [x.round()]: half-way cases away from zero. *)
Definition f64_round (x : f64) : f64 :=
  match Prim2SF x with
  | S754_finite s m e =>
      if 0 <=? e then x
      else let d := 2 ^ (- e) in
           let q := (2 * Z.pos m + d) / (2 * d) in
           if q =? 0 then (if s then (-0)%float else 0%float)
           else f64_of_Z (if s then - q else q)
  | _ => x
  end.

(** [x.floor()] *)
Definition f64_floor (x : f64) : f64 :=
  match Prim2SF x with
  | S754_finite s m e =>
      if 0 <=? e then x
      else let d := 2 ^ (- e) in
           let q := if s then (Z.pos m + d - 1) / d else Z.pos m / d in
           if q =? 0 then (if s then (-0)%float else 0%float)
           else f64_of_Z (if s then - q else q)
  | _ => x
  end.

(** [a.max(b)], [a.min(b)]: the other operand when one is NaN. *)
Definition f64_max (a b : f64) : f64 :=
  if PrimFloat.is_nan a then b else if PrimFloat.is_nan b then a
  else if PrimFloat.ltb a b then b else a.
Definition f64_min (a b : f64) : f64 :=
  if PrimFloat.is_nan a then b else if PrimFloat.is_nan b then a
  else if PrimFloat.ltb b a then b else a.

(** [x.clamp(lo, hi)]: NaN passes through. *)
Definition f64_clamp (lo hi x : f64) : f64 :=
  let x := if PrimFloat.ltb x lo then lo else x in
  if PrimFloat.ltb hi x then hi else x.

Definition f64_sum (l : list f64) : f64 := fold_left PrimFloat.add l (-0)%float.
Definition f64_product (l : list f64) : f64 := fold_left PrimFloat.mul l 1%float.

(** Derived [PartialEq] on vectors of [f64]. *)
Fixpoint f64_list_eqb (l k : list f64) : bool :=
  match l, k with
  | [], [] => true
  | x :: l, y :: k => PrimFloat.eqb x y && f64_list_eqb l k
  | _, _ => false
  end.

Definition all_finite (l : list f64) : bool := forallb PrimFloat.is_finite l.

(** ** The order on binary64 values *)

Lemma SFltb_trans a b c : SFltb a b = true -> SFltb b c = true -> SFltb a c = true.
Proof.
  unfold SFltb, SFcompare.
  destruct a as [[]|[]| |[] ma ea], b as [[]|[]| |[] mb eb], c as [[]|[]| |[] mc ec];
    try (simpl; congruence);
    repeat change (Pos.compare_cont Eq ?x ?y) with (Pos.compare x y);
    destruct (Z.compare_spec ea eb), (Z.compare_spec eb ec), (Z.compare_spec ea ec);
    try lia; try congruence; subst;
    destruct (Pos.compare_spec ma mb), (Pos.compare_spec mb mc), (Pos.compare_spec ma mc);
    simpl; try congruence; try lia.
Qed.

Lemma ltb_trans a b c :
  PrimFloat.ltb a b = true -> PrimFloat.ltb b c = true -> PrimFloat.ltb a c = true.
Proof. rewrite !ltb_spec. apply SFltb_trans. Qed.

Lemma SFltb_irrefl a : SFltb a a = false.
Proof.
  unfold SFltb, SFcompare. destruct a as [[]|[]| |[] m e]; auto;
    rewrite Z.compare_refl, Pos.compare_refl; auto.
Qed.

Lemma ltb_irrefl a : PrimFloat.ltb a a = false.
Proof. rewrite ltb_spec. apply SFltb_irrefl. Qed.

Lemma ltb_asym a b : PrimFloat.ltb a b = true -> PrimFloat.ltb b a = false.
Proof.
  intros H. destruct (PrimFloat.ltb b a) eqn:E; [|done].
  pose proof (ltb_trans _ _ _ H E). by rewrite ltb_irrefl in *.
Qed.

(** A finite value is below positive infinity. *)
Lemma finite_ltb_infinity x :
  PrimFloat.is_finite x = true -> PrimFloat.ltb x PrimFloat.infinity = true.
Proof.
  intros H. rewrite ltb_spec.
  unfold PrimFloat.is_finite, PrimFloat.is_nan, PrimFloat.is_infinity in H.
  rewrite !FloatAxioms.eqb_spec, FloatAxioms.abs_spec in H.
  change (Prim2SF PrimFloat.infinity) with (S754_infinity false) in *.
  destruct (Prim2SF x) as [[]|[]| |[] m e]; simpl in *; try done.
Qed.

(** The order is total away from NaN. *)
Lemma SFltb_cotrans a b c :
  c <> S754_nan -> SFltb a b = true -> SFltb c b = false -> SFltb a c = true.
Proof.
  unfold SFltb, SFcompare.
  destruct a as [[]|[]| |[] ma ea], b as [[]|[]| |[] mb eb], c as [[]|[]| |[] mc ec];
    try (simpl; congruence);
    repeat change (Pos.compare_cont Eq ?x ?y) with (Pos.compare x y);
    destruct (Z.compare_spec ea eb), (Z.compare_spec ec eb), (Z.compare_spec ea ec);
    try lia; try congruence; subst;
    destruct (Pos.compare_spec ma mb), (Pos.compare_spec mc mb), (Pos.compare_spec ma mc);
    simpl; try congruence; try lia.
Qed.

Lemma ltb_cotrans a b c :
  PrimFloat.is_finite c = true -> PrimFloat.ltb a b = true -> PrimFloat.ltb c b = false ->
  PrimFloat.ltb a c = true.
Proof.
  rewrite !ltb_spec. intros Hc. apply SFltb_cotrans. intros E.
  unfold PrimFloat.is_finite, PrimFloat.is_nan in Hc. by rewrite FloatAxioms.eqb_spec, E in Hc.
Qed.

(** Adding to zero keeps a finite value finite. *)
Lemma is_finite_spec x :
  PrimFloat.is_finite x = match Prim2SF x with S754_zero _ | S754_finite _ _ _ => true | _ => false end.
Proof.
  unfold PrimFloat.is_finite, PrimFloat.is_nan, PrimFloat.is_infinity.
  rewrite !FloatAxioms.eqb_spec, FloatAxioms.abs_spec.
  change (Prim2SF PrimFloat.infinity) with (S754_infinity false).
  destruct (Prim2SF x) as [[]|[]| |[] m e]; simpl; try done;
    unfold SFeqb, SFcompare; rewrite Z.compare_refl; change (Pos.compare_cont Eq m m) with (Pos.compare m m);
    by rewrite Pos.compare_refl.
Qed.

Lemma finite_zero : PrimFloat.is_finite 0%float = true.
Proof. done. Qed.

Lemma finite_add_zero x : PrimFloat.is_finite x = true -> PrimFloat.is_finite (0 + x)%float = true.
Proof.
  rewrite !is_finite_spec, FloatAxioms.add_spec. change (Prim2SF 0%float) with (S754_zero false).
  destruct (Prim2SF x) as [[]|[]| |[] m e]; done.
Qed.

Lemma all_finite_app l k : all_finite (l ++ k) = all_finite l && all_finite k.
Proof. apply forallb_app. Qed.

Lemma all_finite_Forall l : all_finite l = true <-> Forall (fun x => PrimFloat.is_finite x = true) l.
Proof. unfold all_finite. rewrite forallb_forall, Forall_forall. by setoid_rewrite list_elem_of_In. Qed.

Lemma f64_list_eqb_length l k : f64_list_eqb l k = true -> length l = length k.
Proof.
  revert k. induction l as [|x l IH]; intros [|y k]; simpl; try done.
  intros H. zbool. by erewrite IH.
Qed.

Lemma f64_as_usize_range x : 0 <= f64_as_usize x <= usize_max.
Proof.
  assert (0 <= usize_max) by (unfold usize_max; lia).
  unfold f64_as_usize, clamp. break; lia.
Qed.

Example f64_round_cases :
  map f64_as_usize (map f64_round [2.5%float; 2.4999%float; 0.5%float; (-3.7)%float; 1e300%float]) =
  [3; 2; 1; 0; usize_max].
Proof. vm_compute. reflexivity. Qed.
