(* ===== verification/Lex.v ===== *)
(** Coordinate tuples [Vec<i64>]: the lexicographic order of Rust's [Ord] on
    vectors, [starts_with], [windows(2)], and tables of tuples that are
    strictly increasing and free of proper prefixes. *)
From S2P Require Export Prelude.

Fixpoint lex_ltb (a b : list Z) : bool :=
  match a, b with
  | _, [] => false
  | [], _ :: _ => true
  | x :: a, y :: b => (x <? y) || ((x =? y) && lex_ltb a b)
  end.

Definition lex_geb (a b : list Z) : bool := negb (lex_ltb a b).

(** [l.starts_with(p)] *)
Fixpoint starts_with (l p : list Z) {struct p} : bool :=
  match p, l with
  | [], _ => true
  | x :: p, y :: l => (x =? y) && starts_with l p
  | _ :: _, [] => false
  end.

(** [l.windows(2)] *)
Definition windows2 {A} (l : list A) : list (A * A) := zip l (tail l).

Fixpoint zlist_eqb (a b : list Z) : bool :=
  match a, b with
  | [], [] => true
  | x :: a, y :: b => (x =? y) && zlist_eqb a b
  | _, _ => false
  end.

(** The order in which both tables of prefixes are kept: strictly increasing,
    and no tuple extends another one. *)
Definition prefix_lt (p q : list Z) : Prop := lex_ltb p q = true /\ starts_with q p = false.
Definition prefix_table (t : list (list Z)) : Prop := StronglySorted prefix_lt t.

Lemma starts_with_spec l p : starts_with l p = true <-> exists q, l = p ++ q.
Proof.
  revert l. induction p as [|x p IH]; intros l; simpl.
  - split; intros; [by eexists | done].
  - destruct l as [|y l].
    + split; [done | intros [? ?]; done].
    + rewrite andb_true_iff, Z.eqb_eq, IH. naive_solver.
Qed.

Lemma starts_with_app p q : starts_with (p ++ q) p = true.
Proof. apply starts_with_spec. eauto. Qed.

Lemma zlist_eqb_eq a b : zlist_eqb a b = true <-> a = b.
Proof.
  revert b. induction a as [|x a IH]; intros [|y b]; simpl; try (clear; intuition congruence).
  rewrite andb_true_iff, Z.eqb_eq, IH. naive_solver.
Qed.

Lemma lex_ltb_irrefl a : lex_ltb a a = false.
Proof. induction a as [|x a IH]; simpl; [done|]. by rewrite Z.ltb_irrefl, IH, andb_false_r. Qed.

Lemma lex_ltb_trans a b c : lex_ltb a b = true -> lex_ltb b c = true -> lex_ltb a c = true.
Proof.
  revert b c. induction a as [|x a IH]; intros [|y b] [|z c]; simpl; try done.
  rewrite !orb_true_iff, !andb_true_iff, !Z.ltb_lt, !Z.eqb_eq.
  intros [?|[? ?]] [?|[? ?]]; subst; [left; lia..|]. right. eauto.
Qed.

(** Comparing two tuples of which neither extends the other is decided by the
    first coordinate on which they differ, so extensions keep the order. *)
Lemma prefix_lt_extend p q p' q' : prefix_lt p q -> prefix_lt (p ++ p') (q ++ q').
Proof.
  unfold prefix_lt. revert q. induction p as [|x p IH]; intros [|y q]; simpl; try (clear; intuition congruence).
  rewrite orb_true_iff, andb_true_iff, Z.ltb_lt, Z.eqb_eq.
  intros [[?|[-> ?]] Hs].
  - split; [apply orb_true_iff; left; by apply Z.ltb_lt|].
    by rewrite (proj2 (Z.eqb_neq x y)) by lia.
  - rewrite Z.eqb_refl in *; simpl in *. destruct (IH q) as [-> ->]; [done|].
    by rewrite Z.ltb_irrefl.
Qed.

Lemma prefix_lt_cons_same x p q : prefix_lt p q -> prefix_lt (x :: p) (x :: q).
Proof. unfold prefix_lt; simpl. rewrite Z.ltb_irrefl, Z.eqb_refl. done. Qed.

Lemma prefix_lt_cons_lt x y p q : (x < y)%Z -> prefix_lt (x :: p) (y :: q).
Proof.
  intros. unfold prefix_lt; simpl.
  rewrite (proj2 (Z.ltb_lt x y)), (proj2 (Z.eqb_neq x y)) by lia. done.
Qed.

Lemma prefix_lt_trans p q r : prefix_lt p q -> prefix_lt q r -> prefix_lt p r.
Proof.
  unfold prefix_lt. revert q r. induction p as [|x p IH]; intros [|y q] [|z r]; simpl; try (clear; intuition congruence).
  rewrite !orb_true_iff, !andb_true_iff, !Z.ltb_lt, !Z.eqb_eq.
  intros [[?|[-> ?]] H1] [[?|[-> ?]] H2].
  - split; [left; lia|]. by rewrite (proj2 (Z.eqb_neq x z)) by lia.
  - split; [left; lia|]. by rewrite (proj2 (Z.eqb_neq x z)) by lia.
  - split; [left; lia|]. by rewrite (proj2 (Z.eqb_neq y z)) by lia.
  - rewrite Z.eqb_refl in *; simpl in *. destruct (IH q r) as [? ->]; [done..|]. auto.
Qed.

Lemma prefix_lt_irrefl p : ~ prefix_lt p p.
Proof. intros [H _]. by rewrite lex_ltb_irrefl in H. Qed.

Lemma prefix_lt_not_extends p q : prefix_lt p q -> starts_with p q = false.
Proof.
  unfold prefix_lt. revert q. induction p as [|x p IH]; intros [|y q]; simpl; try (clear; intuition congruence).
  rewrite orb_true_iff, andb_true_iff, Z.ltb_lt, Z.eqb_eq.
  intros [[?|[-> ?]] H1].
  - by rewrite (proj2 (Z.eqb_neq y x)) by lia.
  - rewrite Z.eqb_refl in *. simpl in *. auto.
Qed.

(** The pairwise test of the source on consecutive tuples decides the table
    property. *)
Lemma prefix_table_windows t :
  prefix_table t <->
  forallb (fun '(p, q) => negb (lex_geb p q || starts_with q p)) (windows2 t) = true.
Proof.
  unfold prefix_table, windows2, lex_geb. induction t as [|p t IH]; simpl.
  { split; [done | constructor]. }
  destruct t as [|q t]; simpl in *.
  { split; [done | intros _; repeat constructor]. }
  rewrite andb_true_iff, <- IH, negb_true_iff, orb_false_iff, negb_false_iff. split.
  - inversion 1 as [|? ? ? Hf]; simplify_eq. inversion Hf; simplify_eq.
    unfold prefix_lt in *. naive_solver.
  - intros [[? ?] Hs]. constructor; [done|]. constructor; [done|].
    apply StronglySorted_inv in Hs as [_ Hs]. rewrite Forall_forall in *.
    intros r Hr. eapply prefix_lt_trans; [done|]. by apply Hs.
Qed.

Lemma prefix_table_NoDup t : prefix_table t -> NoDup t.
Proof.
  unfold prefix_table. induction 1 as [|p t Hs IH Hf]; constructor; [|done].
  intros Hin. rewrite Forall_forall in Hf. by apply Hf, prefix_lt_irrefl in Hin.
Qed.

(** In a table at most one entry is a prefix of a given tuple. *)
Lemma prefix_table_unique t p q l :
  prefix_table t -> p ∈ t -> q ∈ t ->
  starts_with l p = true -> starts_with l q = true -> p = q.
Proof.
  intros Ht Hp Hq Hsp Hsq.
  assert (forall a b, prefix_lt a b -> starts_with l a = true -> starts_with l b = true -> False) as Hno.
  { clear. intros a b [Hlt Hno] [x ->]%starts_with_spec [y E]%starts_with_spec.
    revert b Hlt Hno E. induction a as [|c a IH]; intros [|d b]; simpl; try (clear; intuition congruence).
    intros Hlt Hno E. simplify_eq. rewrite Z.ltb_irrefl, Z.eqb_refl in *; simpl in *. eauto. }
  induction Ht as [|r t Ht IH Hf]; [set_solver|].
  rewrite Forall_forall in Hf.
  apply elem_of_cons in Hp as [->|Hp]; apply elem_of_cons in Hq as [->|Hq]; auto.
  - exfalso. eauto.
  - exfalso. eauto.
Qed.

(** Concatenating tables whose entries are ordered blockwise. *)
Lemma prefix_table_app t u :
  prefix_table t -> prefix_table u -> (forall p q, p ∈ t -> q ∈ u -> prefix_lt p q) ->
  prefix_table (t ++ u).
Proof.
  unfold prefix_table. induction 1 as [|p t Hs IH Hf]; simpl; [done|]. intros Hu Hx.
  constructor.
  - apply IH; [done|]. set_solver.
  - apply Forall_app. split; [done|]. rewrite Forall_forall. set_solver.
Qed.

Lemma prefix_table_map_cons x t : prefix_table t -> prefix_table (cons x <$> t).
Proof.
  unfold prefix_table. induction 1 as [|p t Hs IH Hf]; simpl; constructor; [done|].
  rewrite Forall_forall in *. intros q (r & -> & Hr)%list_elem_of_fmap.
  apply prefix_lt_cons_same. auto.
Qed.

Lemma prefix_table_eqb_spec (t u : list (list Z)) :
  forallb (fun '(a, b) => zlist_eqb a b) (zip t u) && (length t =? length u)%nat = true <-> t = u.
Proof.
  revert u. induction t as [|p t IH]; intros [|q u]; simpl; try (clear; intuition congruence).
  rewrite <- andb_assoc, andb_true_iff, IH, zlist_eqb_eq. naive_solver.
Qed.

(** Tables under strictly increasing first coordinates. *)
Lemma prefix_table_blocks {B} (ix : B -> Z) (tb : B -> list (list Z)) (bs : list B) :
  StronglySorted (fun a b => ix a < ix b) bs ->
  Forall (fun b => prefix_table (tb b)) bs ->
  prefix_table (concat (map (fun b => cons (ix b) <$> tb b) bs)).
Proof.
  induction 1 as [|b bs Hs IH Hf]; simpl; [constructor|].
  rewrite Forall_cons. intros [Hb Hbs]. apply prefix_table_app; [by apply prefix_table_map_cons|auto|].
  intros p q (p' & -> & _)%list_elem_of_fmap Hq.
  apply list_elem_of_In, in_concat in Hq as (t & (c & <- & Hc)%in_map_iff & Hq).
  apply list_elem_of_In, list_elem_of_fmap in Hq as (q' & -> & _).
  apply prefix_lt_cons_lt. rewrite Forall_forall in Hf. apply Hf. by apply list_elem_of_In.
Qed.
