(* ===== verification/Errors.v ===== *)
(** Errors of src/core/errors.rs. A [format!]ted message is represented by its
    fixed text; the variant and the control flow that depends on it are exact. *)
From S2P Require Import Prelude.

Inductive StoreError : Type :=
| Internal (msg : string)
| InvalidInput (msg : string)
| NotFound (msg : string)
| Database (msg : string)
| RetryActivation (msg : string)
| Serialization (msg : string)
| BatchOwnershipLost (batch_id : Z) (node_uuid : string).

Definition is_retry_activation (e : StoreError) : bool :=
  match e with RetryActivation _ => true | _ => false end.
Definition is_batch_ownership_lost (e : StoreError) : bool :=
  match e with BatchOwnershipLost _ _ => true | _ => false end.
Definition is_database_error (e : StoreError) : bool :=
  match e with Database _ => true | _ => false end.

#[export] Instance StoreError_eq_dec : EqDecision StoreError.
Proof. solve_decision. Defined.

Module Engine.
Inductive EngineError : Type :=
| Eval (msg : string)
| Build (msg : string)
| EngineE (msg : string)
| InvalidInputE (msg : string)
| Incompatible (msg : string)
| Io (msg : string)
| SerializationE (msg : string).

#[export] Instance EngineError_eq_dec : EqDecision EngineError.
Proof. solve_decision. Defined.
End Engine.
Export Engine.

(** [RunnerError] of src/runners/sampler_aggregator.rs: either source. *)
Inductive RunnerError : Type :=
| RunnerEngine (e : EngineError)
| RunnerStore (e : StoreError).
