(* ===== verification/Domain.v ===== *)
(** src/utils/domain.rs: the tree of coordinate layouts, its strata, and the
    composition of a stratum-only prefix with an integrand domain. *)
From S2P Require Import Prelude Lex Floats.

Inductive DiscreteAxisRole := Integrand | Stratum.

Inductive Domain : Type :=
| Discrete (axis_label : option string) (axis_role : DiscreteAxisRole)
    (branches : list DomainBranch)
| Rectangular (strata_dims : usize) (discrete_cardinalities : list usize)
    (continuous_dims : usize)
with DomainBranch : Type :=
| mkDomainBranch (index : usize) (domain : Domain).

Definition branch_index (b : DomainBranch) : usize := match b with mkDomainBranch i _ => i end.
Definition branch_domain (b : DomainBranch) : Domain := match b with mkDomainBranch _ d => d end.

Definition is_stratum (r : DiscreteAxisRole) : bool :=
  match r with Stratum => true | Integrand => false end.

Definition domain_rectangular_with_cardinalities (continuous_dims : usize) (cards : list usize) : Domain :=
  Rectangular 0 cards continuous_dims.
Definition domain_rectangular (continuous_dims discrete_dims : usize) : Domain :=
  domain_rectangular_with_cardinalities continuous_dims (replicate (Z.to_nat discrete_dims) 1).
Definition domain_continuous (dims : usize) : Domain := domain_rectangular dims 0.
Definition domain_discrete (axis_label : option string) (branches : list DomainBranch) : Domain :=
  Discrete axis_label Integrand branches.
Definition domain_strata (cardinalities : list usize) : Domain :=
  Rectangular (zlen cardinalities) cardinalities 0.

(** *** [validate] *)

Definition left_bound_error : string :=
  "stratum dimensions must be left-bound, before integrand dimensions".

Definition branches_malformed (branches : list DomainBranch) : bool :=
  (match branches with [] => true | _ => false end)
  || existsb (fun b => branch_index b >? i64_max) branches
  || existsb (fun '(a, b) => branch_index a >=? branch_index b) (windows2 branches).

Fixpoint validate_visit (d : Domain) (integrand_seen : bool) : result string unit :=
  match d with
  | Rectangular strata_dims cards _ =>
      if existsb (fun c => c =? 0) cards || (strata_dims >? zlen cards)
      then Err "invalid rectangular cardinalities or strata_dims"%string
      else if integrand_seen && negb (strata_dims =? 0) then Err left_bound_error
      else Ok tt
  | Discrete _ axis_role branches =>
      if branches_malformed branches
      then Err "domain branches must be nonempty with strictly increasing labels"%string
      else if integrand_seen && is_stratum axis_role then Err left_bound_error
      else
        (fix each (bs : list DomainBranch) : result string unit :=
           match bs with
           | [] => Ok tt
           | mkDomainBranch _ d :: bs =>
               let? _ := validate_visit d (integrand_seen || negb (is_stratum axis_role)) in
               each bs
           end) branches
  end.

Definition domain_validate (d : Domain) : result string unit := validate_visit d false.

(** *** [stratum_prefixes] *)

(** [product(dims, prefix, out)] *)
Fixpoint prefix_product (dims : list usize) (prefix : list Z) : list (list Z) :=
  match dims with
  | n :: tail => concat (map (fun i => prefix_product tail (prefix ++ [i])) (seqZ 0 n))
  | [] => [prefix]
  end.

Fixpoint prefixes_visit (d : Domain) (prefix : list Z) : list (list Z) :=
  match d with
  | Discrete _ Stratum branches =>
      (fix each (bs : list DomainBranch) : list (list Z) :=
         match bs with
         | [] => []
         | mkDomainBranch i d :: bs => prefixes_visit d (prefix ++ [i]) ++ each bs
         end) branches
  | Discrete _ Integrand _ => [prefix]
  | Rectangular strata_dims cards _ => prefix_product (ztake strata_dims cards) prefix
  end.

Definition stratum_prefixes (d : Domain) : result string (list (list Z)) :=
  let? _ := domain_validate d in Ok (prefixes_visit d []).

(** *** [with_integrand] *)

Definition stratum_only_error : string :=
  "stratification domain must contain only stratum dimensions and zero continuous dimensions".

Fixpoint domain_append (prefix integrand : Domain) : result string Domain :=
  match prefix with
  | Discrete axis_label Stratum branches =>
      let? branches :=
        (fix each (bs : list DomainBranch) : result string (list DomainBranch) :=
           match bs with
           | [] => Ok []
           | mkDomainBranch i d :: bs =>
               let? d := domain_append d integrand in
               let? bs := each bs in
               Ok (mkDomainBranch i d :: bs)
           end) branches in
      Ok (Discrete axis_label Stratum branches)
  | Rectangular strata_dims cards 0 =>
      if strata_dims =? zlen cards then
        match integrand with
        | Rectangular _ tail continuous_dims =>
            Ok (Rectangular strata_dims (cards ++ tail) continuous_dims)
        | Discrete _ _ _ =>
            Ok (fold_left
                  (fun result n =>
                     Discrete None Stratum (map (fun i => mkDomainBranch i result) (seqZ 0 n)))
                  (rev cards) integrand)
        end
      else Err stratum_only_error
  | _ => Err stratum_only_error
  end.

Definition prefixes_are_root (l : list (list Z)) : bool :=
  match l with [[]] => true | _ => false end.
Definition list_is_nil {A} (l : list A) : bool := match l with [] => true | _ => false end.

Definition with_integrand (self integrand : Domain) : result string Domain :=
  let wrong := "expected a stratum-only prefix and an unstratified integrand domain"%string in
  let? ip := stratum_prefixes integrand in
  if negb (prefixes_are_root ip) then Err wrong
  else
    let? sp := stratum_prefixes self in
    if existsb list_is_nil sp then Err wrong
    else domain_append self integrand.

(** *** Fixed shapes *)

Fixpoint fixed_continuous_dims (d : Domain) : option usize :=
  match d with
  | Rectangular _ _ continuous_dims => Some continuous_dims
  | Discrete _ _ branches =>
      match branches with
      | [] => None
      | b :: _ =>
          match fixed_continuous_dims (branch_domain b) with
          | None => None
          | Some first =>
              if forallb (fun b => bool_decide (fixed_continuous_dims (branch_domain b) = Some first)) branches
              then Some first else None
          end
      end
  end.

Fixpoint fixed_discrete_depth (d : Domain) : option usize :=
  match d with
  | Rectangular _ cards _ => Some (zlen cards)
  | Discrete _ _ branches =>
      match branches with
      | [] => Some 1
      | b :: _ =>
          match fixed_discrete_depth (branch_domain b) with
          | None => None
          | Some first =>
              if forallb (fun b => bool_decide (fixed_discrete_depth (branch_domain b) = Some first)) branches
              then Some (first + 1) else None
          end
      end
  end.

Definition fixed_rectangular_dims (d : Domain) : option (usize * usize) :=
  c ← fixed_continuous_dims d; k ← fixed_discrete_depth d; Some (c, k).

Fixpoint fixed_discrete_cardinalities (d : Domain) : option (list usize) :=
  match d with
  | Rectangular _ cards _ => Some cards
  | Discrete _ _ branches =>
      match branches with
      | [] => None
      | b :: _ =>
          match fixed_discrete_cardinalities (branch_domain b) with
          | None => None
          | Some first_tail =>
              if forallb (fun b => bool_decide (fixed_discrete_cardinalities (branch_domain b) = Some first_tail)) branches
              then Some (zlen branches :: first_tail) else None
          end
      end
  end.

(** *** Paths *)

(** The loop over the zipped path and cardinalities of a rectangular node. *)
Fixpoint rectangular_path_ok (discrete : list Z) (cards : list usize) : result string unit :=
  match discrete, cards with
  | branch :: discrete, cardinality :: cards =>
      if branch <? 0 then
        Err "discrete branch index is negative and cannot select a domain branch"%string
      else if branch >=? cardinality then
        Err "discrete branch index is outside rectangular cardinality"%string
      else rectangular_path_ok discrete cards
  | _, _ => Ok tt
  end.

Definition branch_negative_error : string :=
  "discrete branch index is negative and cannot select a domain branch".
Definition branch_missing_error : string := "discrete branch index does not exist in domain".

Fixpoint continuous_dims_at_discrete_path (d : Domain) (discrete : list Z) : result string usize :=
  match discrete with
  | [] =>
      ok_or "discrete path does not determine a unique continuous dimensionality"%string
        (fixed_continuous_dims d)
  | head :: tail =>
      match d with
      | Rectangular _ cards continuous_dims =>
          if zlen discrete >? zlen cards then
            Err "discrete path continues beyond rectangular domain depth"%string
          else
            let? _ := rectangular_path_ok discrete cards in Ok continuous_dims
      | Discrete _ _ branches =>
          if head <? 0 then Err branch_negative_error
          else
            (fix find (bs : list DomainBranch) : result string usize :=
               match bs with
               | [] => Err branch_missing_error
               | mkDomainBranch i d :: bs =>
                   if i =? head then continuous_dims_at_discrete_path d tail else find bs
               end) branches
      end
  end.

Fixpoint continuous_dims_at_leaf_path (d : Domain) (discrete : list Z) : result string usize :=
  match d with
  | Rectangular _ cards continuous_dims =>
      if negb (zlen discrete =? zlen cards) then
        Err "discrete path must have the rectangular domain depth"%string
      else
        let? _ := continuous_dims_at_discrete_path d discrete in Ok continuous_dims
  | Discrete _ _ branches =>
      match discrete with
      | [] => Err "discrete path does not reach a concrete discrete domain branch"%string
      | head :: tail =>
          if head <? 0 then Err branch_negative_error
          else
            (fix find (bs : list DomainBranch) : result string usize :=
               match bs with
               | [] => Err branch_missing_error
               | mkDomainBranch i d :: bs =>
                   if i =? head then continuous_dims_at_leaf_path d tail else find bs
               end) branches
      end
  end.

Definition validate_point_parts (d : Domain) (discrete : list Z) (continuous : list f64)
  : result string unit :=
  let? expected := continuous_dims_at_leaf_path d discrete in
  if negb (zlen continuous =? expected)
  then Err "discrete path expects another number of continuous coordinates"%string
  else Ok tt.

(** ** Induction and the equations of the loops over branches *)

Lemma Domain_ind' (P : Domain -> Prop) :
  (forall l r bs, Forall (fun b => P (branch_domain b)) bs -> P (Discrete l r bs)) ->
  (forall s cs c, P (Rectangular s cs c)) ->
  forall d, P d.
Proof.
  intros HD HR. fix IH 1. intros [l r bs|s cs c]; [|apply HR].
  apply HD. induction bs as [|[i d] bs IHbs]; constructor; [apply IH | exact IHbs].
Qed.

Lemma validate_visit_discrete l r bs seen :
  validate_visit (Discrete l r bs) seen = Ok tt <->
  branches_malformed bs = false /\ seen && is_stratum r = false /\
  Forall (fun b => validate_visit (branch_domain b) (seen || negb (is_stratum r)) = Ok tt) bs.
Proof.
  simpl. destruct (branches_malformed bs); [naive_solver|].
  destruct (seen && is_stratum r); [naive_solver|].
  transitivity (Forall (fun b => validate_visit (branch_domain b) (seen || negb (is_stratum r)) = Ok tt) bs);
    [|naive_solver].
  induction bs as [|[i d] bs IH]; [naive_solver|].
  rewrite Forall_cons, <- IH, result_bind_ok. simpl. split; [intros ([] & ? & ?); auto | intros [? ?]; eauto].
Qed.

Lemma prefixes_visit_discrete l bs p :
  prefixes_visit (Discrete l Stratum bs) p =
  concat (map (fun b => prefixes_visit (branch_domain b) (p ++ [branch_index b])) bs).
Proof. simpl. induction bs as [|[i d] bs IH]; simpl; [done|]. by rewrite IH. Qed.

Lemma domain_append_discrete l bs i d' :
  domain_append (Discrete l Stratum bs) i = Ok d' <->
  exists bs', d' = Discrete l Stratum bs' /\
    Forall2 (fun b b' => branch_index b' = branch_index b /\
                         domain_append (branch_domain b) i = Ok (branch_domain b')) bs bs'.
Proof.
  simpl. rewrite result_bind_ok.
  assert (forall bs', (fix each (bs : list DomainBranch) : result string (list DomainBranch) :=
           match bs with
           | [] => Ok []
           | mkDomainBranch j d :: bs =>
               let? d := domain_append d i in
               let? bs := each bs in
               Ok (mkDomainBranch j d :: bs)
           end) bs = Ok bs' <->
     Forall2 (fun b b' => branch_index b' = branch_index b /\
                         domain_append (branch_domain b) i = Ok (branch_domain b')) bs bs') as Heach.
  { induction bs as [|[j d] bs IH]; intros bs'.
    { split; [intros; simplify_eq; constructor | by inversion 1]. }
    rewrite result_bind_ok. split.
    - intros (dd & Hd & H). apply result_bind_ok in H as (bs0 & Hb & H). simplify_eq.
      constructor; [done|]. by apply IH.
    - inversion 1 as [|? [j' dd] ? bs0 [Hi Hd] Hb]; simplify_eq/=.
      exists dd. split; [done|]. apply IH in Hb. by rewrite Hb. }
  split.
  - intros (bs' & Hb & ?). simplify_eq. exists bs'. split; [done|]. by apply Heach.
  - intros (bs' & -> & Hb). exists bs'. split; [|done]. by apply Heach.
Qed.

Lemma leaf_path_discrete l r bs h t :
  continuous_dims_at_leaf_path (Discrete l r bs) (h :: t) =
  if h <? 0 then Err branch_negative_error
  else match find (fun b => branch_index b =? h) bs with
       | Some b => continuous_dims_at_leaf_path (branch_domain b) t
       | None => Err branch_missing_error
       end.
Proof.
  simpl. destruct (h <? 0); [done|]. induction bs as [|[i d] bs IH]; simpl; [done|].
  destruct (i =? h); [done|]. apply IH.
Qed.

Lemma discrete_path_discrete l r bs h t :
  continuous_dims_at_discrete_path (Discrete l r bs) (h :: t) =
  if h <? 0 then Err branch_negative_error
  else match find (fun b => branch_index b =? h) bs with
       | Some b => continuous_dims_at_discrete_path (branch_domain b) t
       | None => Err branch_missing_error
       end.
Proof.
  simpl. destruct (h <? 0); [done|]. induction bs as [|[i d] bs IH]; simpl; [done|].
  destruct (i =? h); [done|]. apply IH.
Qed.

(** ** Well-formed branch lists *)

Definition increasing (bs : list DomainBranch) : Prop :=
  StronglySorted (fun a b => branch_index a < branch_index b) bs.

Lemma windows_increasing bs :
  existsb (fun '(a, b) => branch_index a >=? branch_index b) (windows2 bs) = false <-> increasing bs.
Proof.
  unfold increasing, windows2. induction bs as [|a bs IH]; simpl; [split; [constructor|done]|].
  destruct bs as [|b bs]; simpl in *; [split; [repeat constructor|done]|].
  rewrite orb_false_iff, IH, Z.geb_leb, Z.leb_gt. split.
  - intros [Hlt Hs]. constructor; [done|]. constructor; [done|].
    apply StronglySorted_inv in Hs as [_ Hs]. eapply Forall_impl; [exact Hs|]. simpl. lia.
  - inversion 1 as [|? ? Hs Hf]; simplify_eq. inversion Hf; simplify_eq. done.
Qed.

Lemma branches_malformed_spec bs :
  branches_malformed bs = false <->
  bs <> [] /\ Forall (fun b => branch_index b <= i64_max) bs /\ increasing bs.
Proof.
  unfold branches_malformed. rewrite !orb_false_iff, windows_increasing, existsb_false.
  rewrite (Forall_ext _ (fun b => branch_index b <= i64_max)).
  2:{ intros b. rewrite Z.gtb_ltb. apply Z.ltb_ge. }
  destruct bs; intuition congruence.
Qed.

Lemma increasing_ext bs bs' :
  map branch_index bs' = map branch_index bs -> increasing bs -> increasing bs'.
Proof.
  unfold increasing. revert bs. induction bs' as [|b' bs' IH]; intros [|b bs] Hix Hinc; simplify_eq/=.
  { constructor. }
  apply StronglySorted_inv in Hinc as [Hs Hf]. constructor; [eauto|].
  apply (Forall_map branch_index (fun z => branch_index b' < z)).
  rewrite H0, H. by apply Forall_map.
Qed.

Lemma find_increasing bs b :
  increasing bs -> b ∈ bs -> find (fun c => branch_index c =? branch_index b) bs = Some b.
Proof.
  unfold increasing. induction 1 as [|a bs Hs IH Hf]; [set_solver|].
  intros [->|Hin]%elem_of_cons; simpl; [by rewrite Z.eqb_refl|].
  rewrite Forall_forall in Hf. specialize (Hf _ Hin).
  rewrite (proj2 (Z.eqb_neq _ _)) by lia. auto.
Qed.

(** ** The table of stratum prefixes *)

Lemma prefix_product_app dims p : prefix_product dims p = app p <$> prefix_product dims [].
Proof.
  revert p. induction dims as [|n dims IH]; intros p; simpl; [by rewrite app_nil_r|].
  generalize (seqZ 0 n). intros l. induction l as [|i l IHl]; simpl; [done|].
  rewrite fmap_app, <- IHl. f_equal. rewrite (IH (p ++ [i])), (IH [i]), <- list_fmap_compose.
  apply list_fmap_ext. intros. simpl. by rewrite <- app_assoc.
Qed.

Lemma prefixes_visit_app d p : prefixes_visit d p = app p <$> prefixes_visit d [].
Proof.
  revert p. induction d as [l [] bs IH|s cs c] using Domain_ind'; intros p.
  - simpl. by rewrite app_nil_r.
  - rewrite !prefixes_visit_discrete. simpl. induction IH as [|b bs Hb Hbs IHbs]; simpl; [done|].
    rewrite fmap_app, <- IHbs. f_equal. rewrite (Hb (p ++ _)), (Hb [_]), <- list_fmap_compose.
    apply list_fmap_ext. intros. simpl. by rewrite <- app_assoc.
  - apply prefix_product_app.
Qed.

Lemma seqZ_sorted n : StronglySorted Z.lt (seqZ 0 n).
Proof.
  unfold seqZ. generalize (Z.to_nat n). intros k.
  enough (forall m, StronglySorted Z.lt ((fun i : nat => Z.of_nat i + 0) <$> seq m k)) by done.
  induction k as [|k IH]; intros m; simpl; constructor; [apply IH|].
  apply Forall_forall. intros x (y & -> & Hy%elem_of_seq)%list_elem_of_fmap. lia.
Qed.

Lemma prefix_product_table dims : prefix_table (prefix_product dims []).
Proof.
  induction dims as [|n dims IH]; simpl; [repeat constructor|].
  erewrite (map_ext _ (fun i => cons i <$> prefix_product dims [])).
  2:{ intros i. by rewrite prefix_product_app. }
  apply (prefix_table_blocks (fun i => i) (fun _ => prefix_product dims [])); [apply seqZ_sorted|].
  by apply Forall_true.
Qed.

Lemma prefixes_visit_blocks l bs :
  prefixes_visit (Discrete l Stratum bs) [] =
  concat (map (fun b => cons (branch_index b) <$> prefixes_visit (branch_domain b) []) bs).
Proof.
  rewrite prefixes_visit_discrete. f_equal. apply map_ext. intros b.
  by rewrite prefixes_visit_app.
Qed.

Lemma prefixes_visit_table d seen :
  validate_visit d seen = Ok tt -> prefix_table (prefixes_visit d []).
Proof.
  revert seen. induction d as [l [] bs IH|s cs c] using Domain_ind'; intros seen Hv.
  - repeat constructor.
  - apply validate_visit_discrete in Hv as ((_ & _ & Hinc)%branches_malformed_spec & _ & Hbs).
    rewrite prefixes_visit_blocks. apply prefix_table_blocks; [done|].
    eapply Forall_impl; [apply Forall_and; split; [exact IH | exact Hbs]|].
    intros b [Hb ?]; simpl in *. eauto.
  - apply prefix_product_table.
Qed.

(** ** Sized domains

    The fields are [usize] and every axis fits a vector (at most [isize::MAX]
    branches): what the Rust types and allocation limits guarantee. *)
Fixpoint domain_sized (d : Domain) : bool :=
  match d with
  | Rectangular s cs c =>
      (0 <=? s) && forallb (fun n => (0 <=? n) && (n <=? i64_max)) cs && (0 <=? c)
  | Discrete _ _ bs => forallb (fun b => (0 <=? branch_index b) && domain_sized (branch_domain b)) bs
  end.

Lemma domain_sized_discrete l r bs :
  domain_sized (Discrete l r bs) = true <->
  Forall (fun b => 0 <= branch_index b /\ domain_sized (branch_domain b) = true) bs.
Proof.
  cbn [domain_sized]. rewrite forallb_True_iff. apply Forall_ext. intros b.
  by rewrite andb_true_iff, Z.leb_le.
Qed.

(** *** Rectangular paths *)

Lemma rectangular_path_ok_spec p cs :
  zlen p = zlen cs ->
  rectangular_path_ok p cs = Ok tt <-> Forall2 (fun x n => 0 <= x < n) p cs.
Proof.
  revert cs. induction p as [|x p IH]; intros [|n cs]; rewrite ?zlen_nil, ?zlen_cons; intros Hl; simpl.
  - split; [constructor|done].
  - pose proof (zlen_nonneg cs). lia.
  - pose proof (zlen_nonneg p). lia.
  - rewrite Z.geb_leb. destruct (Z.ltb_spec x 0), (Z.leb_spec n x);
      try (split; [done | inversion 1; lia]).
    rewrite IH by lia. split; [constructor; [lia|done] | by inversion 1].
Qed.

Lemma leaf_path_rectangular s cs c p n :
  continuous_dims_at_leaf_path (Rectangular s cs c) p = Ok n <->
  n = c /\ Forall2 (fun x m => 0 <= x < m) p cs.
Proof.
  cbn [continuous_dims_at_leaf_path]. destruct (Z.eqb_spec (zlen p) (zlen cs)) as [Hl|Hl]; cbn [negb].
  - destruct p as [|x p]; cbn [continuous_dims_at_discrete_path fixed_continuous_dims ok_or result_bind].
    { symmetry in Hl. apply zlen_zero in Hl as ->. split; [intros; simplify_eq; auto | intros [-> _]; done]. }
    rewrite Z.gtb_ltb, (proj2 (Z.ltb_ge _ _)) by lia. rewrite !result_bind_ok.
    rewrite <- rectangular_path_ok_spec by done. split.
    + intros (m & Hm & ?). apply result_bind_ok in Hm as ([] & ? & ?). simplify_eq. auto.
    + intros [-> Hp]. exists c. split; [|done]. by rewrite Hp.
  - split; [done|]. intros [_ Hf]. apply Forall2_length in Hf. unfold zlen in Hl. lia.
Qed.

Lemma prefix_product_elem dims p :
  p ∈ prefix_product dims [] <-> Forall2 (fun x n => 0 <= x < n) p dims.
Proof.
  revert p. induction dims as [|n dims IH]; intros p; simpl.
  { rewrite list_elem_of_singleton. split; [intros ->; constructor | by inversion 1]. }
  rewrite list_elem_of_In, in_concat. split.
  - intros (t & (i & <- & Hi%list_elem_of_In%elem_of_seqZ)%in_map_iff & Hp%list_elem_of_In).
    rewrite prefix_product_app in Hp. apply list_elem_of_fmap in Hp as (q & -> & Hq).
    constructor; [lia|]. by apply IH.
  - inversion 1 as [|x ? q ? Hx Hq]; simplify_eq. exists (prefix_product dims [x]). split.
    + apply in_map_iff. exists x. split; [done|]. apply list_elem_of_In, elem_of_seqZ. lia.
    + apply list_elem_of_In. rewrite prefix_product_app. apply list_elem_of_fmap.
      exists q. split; [done|]. by apply IH.
Qed.

(** *** The nest of stratum axes over a branching integrand *)

Definition nest_axis (n : usize) (d : Domain) : Domain :=
  Discrete None Stratum (map (fun i => mkDomainBranch i d) (seqZ 0 n)).

Lemma nest_fold cards i :
  fold_left (fun result n =>
     Discrete None Stratum (map (fun i => mkDomainBranch i result) (seqZ 0 n))) (rev cards) i =
  foldr nest_axis i cards.
Proof. rewrite <- fold_left_rev_right, rev_involutive. done. Qed.

Lemma nest_prefixes cards i :
  prefixes_visit i [] = [[]] ->
  prefixes_visit (foldr nest_axis i cards) [] = prefix_product cards [].
Proof.
  intros Hi. induction cards as [|n cards IH]; [done|]. simpl foldr. unfold nest_axis at 1.
  rewrite prefixes_visit_discrete, map_map. simpl. f_equal. apply map_ext. intros j.
  by rewrite prefixes_visit_app, IH, <- prefix_product_app.
Qed.

Lemma nest_increasing n (d : Domain) : increasing (map (fun i => mkDomainBranch i d) (seqZ 0 n)).
Proof.
  unfold increasing. pose proof (seqZ_sorted n) as H. induction H as [|x l Hs IH Hf]; simpl; constructor; [done|].
  rewrite Forall_forall in Hf. apply Forall_forall.
  intros b (y & -> & Hy)%list_elem_of_fmap. simpl. by apply Hf.
Qed.

Lemma nest_validate cards i :
  validate_visit i false = Ok tt ->
  Forall (fun n => n <> 0 /\ 0 <= n <= i64_max) cards ->
  validate_visit (foldr nest_axis i cards) false = Ok tt.
Proof.
  intros Hi. induction 1 as [|n cards [Hn0 Hn] _ IH]; [done|]. simpl foldr. unfold nest_axis at 1.
  apply validate_visit_discrete. split_and!; [|done|].
  - apply branches_malformed_spec. split_and!; [|apply Forall_map; simpl|apply nest_increasing].
    + intros E%map_eq_nil. apply (f_equal length) in E. rewrite length_seqZ in E. simpl in E. lia.
    + apply Forall_forall. intros j ?%elem_of_seqZ. lia.
  - apply Forall_map, Forall_forall. intros j _. simpl. done.
Qed.

Lemma nest_leaf cards i p q n :
  Forall2 (fun x m => 0 <= x < m) p cards ->
  continuous_dims_at_leaf_path (foldr nest_axis i cards) (p ++ q) = Ok n <->
  continuous_dims_at_leaf_path i q = Ok n.
Proof.
  induction 1 as [|x m p cards Hx _ IH]; [done|]. simpl foldr. unfold nest_axis at 1.
  simpl app. rewrite leaf_path_discrete, (proj2 (Z.ltb_ge _ _)) by lia.
  pose proof (find_increasing _ (mkDomainBranch x (foldr nest_axis i cards)) (nest_increasing m (foldr nest_axis i cards))) as Hf.
  simpl in Hf. rewrite Hf; [done|]. apply list_elem_of_fmap. exists x. split; [done|].
  apply elem_of_seqZ. lia.
Qed.

(** *** Appending an integrand *)

Lemma append_prefixes d i d' :
  prefixes_visit i [] = [[]] -> domain_append d i = Ok d' ->
  prefixes_visit d' [] = prefixes_visit d [].
Proof.
  intros Hi. revert d'. induction d as [l [] bs IH|s cs c] using Domain_ind'; intros d' H; [done| |].
  - apply domain_append_discrete in H as (bs' & -> & H). rewrite !prefixes_visit_blocks. f_equal.
    induction H as [|b b' bs bs' [Hx Ha] _ IHbs]; simpl; [done|].
    apply Forall_cons in IH as [Hb IH]. by rewrite (Hb _ Ha), Hx, IHbs.
  - simpl in H. destruct c; try done. destruct (Z.eqb_spec s (zlen cs)) as [->|]; [|done].
    rewrite nest_fold in H. simpl. rewrite ztake_all by lia. destruct i as [l r bs|si tail ci]; simplify_eq.
    + by apply nest_prefixes.
    + simpl. unfold ztake, zlen. by rewrite Nat2Z.id, take_app_length.
Qed.

Lemma append_validate d i d' seen :
  domain_sized d = true -> validate_visit d false = Ok tt -> validate_visit i false = Ok tt ->
  domain_append d i = Ok d' -> seen = false -> validate_visit d' seen = Ok tt.
Proof.
  intros Hsz Hd Hi H ->. revert d' Hsz Hd H.
  induction d as [l [] bs IH|s cs c] using Domain_ind'; intros d' Hsz Hd H; [done| |].
  - apply domain_append_discrete in H as (bs' & -> & H).
    apply validate_visit_discrete in Hd as ((Hne & Hmax & Hinc)%branches_malformed_spec & _ & Hbs).
    apply domain_sized_discrete in Hsz. simpl in Hbs.
    apply validate_visit_discrete. simpl.
    assert (map branch_index bs' = map branch_index bs) as Hix.
    { clear -H. induction H as [|??? ? [? ?]]; simpl; congruence. }
    split_and!; [|done|].
    + apply branches_malformed_spec. split_and!.
      * intros ->. inversion H; simplify_eq.
      * apply (Forall_map branch_index (fun z => z <= i64_max)). rewrite Hix. by apply Forall_map.
      * by eapply increasing_ext.
    + clear -IH H Hsz Hbs. induction H as [|b b' bs bs' [Hx Ha] _ IHbs]; constructor.
      * apply Forall_cons in IH as [Hb _], Hsz as [[_ ?] _], Hbs as [? _]. eauto.
      * apply Forall_cons in IH as [_ ?], Hsz as [_ ?], Hbs as [_ ?]. auto.
  - simpl in H. destruct c; try done. destruct (Z.eqb_spec s (zlen cs)) as [->|]; [|done].
    rewrite nest_fold in H. simpl in Hd, Hsz. rewrite andb_true_r in Hsz.
    destruct (existsb _ cs) eqn:E; [done|]. apply existsb_false in E. zbool.
    apply forallb_True_iff in H1.
    assert (Forall (fun n => n <> 0 /\ 0 <= n <= i64_max) cs).
    { apply Forall_forall. intros n Hn. rewrite Forall_forall in E, H1.
      specialize (E _ Hn). specialize (H1 _ Hn). simpl in *. zbool. lia. }
    destruct i as [l r bs|si tail ci]; simplify_eq; [by apply nest_validate|].
    simpl in Hi |- *. rewrite existsb_app. destruct (existsb _ tail); [done|].
    rewrite orb_false_r, (proj2 (existsb_false _ cs)) by done. simpl.
    rewrite zlen_app, Z.gtb_ltb, (proj2 (Z.ltb_ge _ _)); [done|]. pose proof (zlen_nonneg tail). lia.
Qed.

Lemma append_leaf d i d' p q n :
  domain_sized d = true -> validate_visit d false = Ok tt ->
  domain_append d i = Ok d' -> p ∈ prefixes_visit d [] ->
  continuous_dims_at_leaf_path d' (p ++ q) = Ok n <->
  continuous_dims_at_leaf_path i q = Ok n.
Proof.
  revert d' p. induction d as [l [] bs IH|s cs c] using Domain_ind'; intros d' p Hsz Hd H Hp; [done| |].
  - apply domain_append_discrete in H as (bs' & -> & H).
    apply validate_visit_discrete in Hd as ((_ & _ & Hinc)%branches_malformed_spec & _ & Hbs).
    apply domain_sized_discrete in Hsz. simpl in Hbs. rewrite prefixes_visit_blocks in Hp.
    apply list_elem_of_In, in_concat in Hp as (t & (b & <- & Hb)%in_map_iff & Hp).
    apply list_elem_of_In, list_elem_of_fmap in Hp as (p' & -> & Hp).
    apply list_elem_of_In in Hb.
    assert (exists b', b' ∈ bs' /\ branch_index b' = branch_index b /\
                       domain_append (branch_domain b) i = Ok (branch_domain b')) as (b' & Hb' & Hx & Ha).
    { apply list_elem_of_lookup in Hb as [k Hk]. destruct (Forall2_lookup_l _ _ _ _ _ H Hk) as (b' & Hk' & ?).
      exists b'. split; [by eapply list_elem_of_lookup_2 | done]. }
    assert (increasing bs') as Hinc'.
    { eapply increasing_ext; [|exact Hinc]. clear -H. induction H as [|??? ? [? ?]]; simpl; congruence. }
    rewrite Forall_forall in IH, Hsz, Hbs. destruct (Hsz _ Hb).
    simpl app. rewrite leaf_path_discrete, (proj2 (Z.ltb_ge _ _)), <- Hx, find_increasing by done.
    by apply (IH b Hb); [..| apply Hbs | |].
  - simpl in H. destruct c; try done. destruct (Z.eqb_spec s (zlen cs)) as [->|]; [|done].
    rewrite nest_fold in H. simpl in Hp. rewrite ztake_all, prefix_product_elem in Hp by lia.
    destruct i as [l r bs|si tail ci]; simplify_eq; [by apply nest_leaf|].
    rewrite !leaf_path_rectangular. split.
    + intros [-> Hf]. split; [done|]. pose proof (Forall2_length _ _ _ Hp).
      apply Forall2_app_inv in Hf as [_ ?]; done.
    + intros [-> Hf]. split; [done|]. by apply Forall2_app.
Qed.

Lemma fixed_continuous_sound d n p m :
  fixed_continuous_dims d = Some n -> continuous_dims_at_leaf_path d p = Ok m -> m = n.
Proof.
  revert n p. induction d as [l r bs IH|s cs c] using Domain_ind'; intros n p Hf Hp.
  - destruct p as [|h t]; [done|]. rewrite leaf_path_discrete in Hp. destruct (h <? 0); [done|].
    destruct (find _ bs) as [b|] eqn:E; [|done]. apply find_some in E as [Hin _].
    cbn [fixed_continuous_dims] in Hf. destruct bs as [|b0 bs]; [done|].
    destruct (fixed_continuous_dims (branch_domain b0)) as [first|]; [|done].
    destruct (forallb _ _) eqn:Ea in Hf; [|done]. simplify_eq.
    rewrite forallb_forall in Ea. specialize (Ea _ Hin). apply bool_decide_eq_true in Ea.
    rewrite Forall_forall in IH. eapply IH; [by apply list_elem_of_In|done..].
  - apply leaf_path_rectangular in Hp as [-> _]. simpl in Hf. by simplify_eq.
Qed.

Lemma fixed_depth_sound d k p m :
  fixed_discrete_depth d = Some k -> continuous_dims_at_leaf_path d p = Ok m -> zlen p = k.
Proof.
  revert k p. induction d as [l r bs IH|s cs c] using Domain_ind'; intros n p Hf Hp.
  - destruct p as [|h t]; [done|]. rewrite leaf_path_discrete in Hp. destruct (h <? 0); [done|].
    destruct (find _ bs) as [b|] eqn:E; [|done]. apply find_some in E as [Hin _].
    cbn [fixed_discrete_depth] in Hf. destruct bs as [|b0 bs]; [done|].
    destruct (fixed_discrete_depth (branch_domain b0)) as [first|]; [|done].
    destruct (forallb _ _) eqn:Ea in Hf; [|done]. simplify_eq.
    rewrite forallb_forall in Ea. specialize (Ea _ Hin). apply bool_decide_eq_true in Ea.
    rewrite Forall_forall in IH. rewrite zlen_cons. f_equal.
    eapply IH; [by apply list_elem_of_In|done..].
  - apply leaf_path_rectangular in Hp as [_ Hf2]. simpl in Hf. simplify_eq.
    unfold zlen. by rewrite (Forall2_length _ _ _ Hf2).
Qed.

Lemma leaf_path_discrete_path d p n :
  continuous_dims_at_leaf_path d p = Ok n -> p <> [] -> continuous_dims_at_discrete_path d p = Ok n.
Proof.
  revert p. induction d as [l r bs IH|s cs c] using Domain_ind'; intros p Hp Hne.
  - destruct p as [|h t]; [done|]. rewrite leaf_path_discrete in Hp. rewrite discrete_path_discrete.
    destruct (h <? 0); [done|].
    destruct (find _ bs) as [b|] eqn:E; [|done]. apply find_some in E as [Hin _].
    rewrite Forall_forall in IH. destruct t as [|h' t].
    + destruct (branch_domain b) as [|sb cb nb]; [done|].
      apply leaf_path_rectangular in Hp as [-> _]. done.
    + eapply IH; [by apply list_elem_of_In|done..].
  - cbn [continuous_dims_at_leaf_path] in Hp. destruct (negb _); [done|].
    apply result_bind_ok in Hp as (c' & Hc & ?). simplify_eq. rewrite Hc. destruct p; [done|].
    simpl in Hc. destruct (_ >? _); [done|]. apply result_bind_ok in Hc as ([] & _ & ?). by simplify_eq.
Qed.

(** ** Properties *)

Lemma prefixes_visit_nonneg d p :
  domain_sized d = true -> p ∈ prefixes_visit d [] -> Forall (fun x => 0 <= x) p.
Proof.
  revert p. induction d as [l [] bs IH|s cs c] using Domain_ind'; intros p Hsz Hp.
  - apply list_elem_of_singleton in Hp as ->. constructor.
  - rewrite prefixes_visit_blocks in Hp. apply domain_sized_discrete in Hsz.
    apply list_elem_of_In, in_concat in Hp as (t & (b & <- & Hb%list_elem_of_In)%in_map_iff & Hp).
    apply list_elem_of_In, list_elem_of_fmap in Hp as (p' & -> & Hp).
    rewrite Forall_forall in IH, Hsz. destruct (Hsz _ Hb). constructor; [done|]. eauto.
  - apply prefix_product_elem in Hp. clear -Hp. induction Hp; constructor; [lia|done].
Qed.

(** a domain that [validate] accepts has a table of complete stratum
    prefixes that is strictly increasing in the lexicographic order of
    [Vec<i64>] (the key order of the [BTreeMap] of Voronoi centres and the
    order [Feedback::validate] demands), in which no complete prefix extends
    another one, and whose coordinates are branch labels, never negative. *)
Theorem stratum_prefixes_table d t :
  domain_sized d = true -> stratum_prefixes d = Ok t ->
  prefix_table t /\ Forall (Forall (fun x => 0 <= x)) t.
Proof.
  unfold stratum_prefixes. intros Hsz ([] & Hv & ?)%result_bind_ok. simplify_eq. split.
  - by eapply prefixes_visit_table.
  - apply Forall_forall. intros p Hp. by eapply prefixes_visit_nonneg.
Qed.

(** The ragged strata of docs/execution-model.md: (0), (1,0), (1,1), (1,3). *)
Definition ragged_strata : Domain :=
  Discrete None Stratum
    [mkDomainBranch 0 (domain_continuous 0);
     mkDomainBranch 1 (Discrete None Stratum
       [mkDomainBranch 0 (domain_continuous 0); mkDomainBranch 1 (domain_continuous 0);
        mkDomainBranch 3 (domain_continuous 0)])].
Definition ragged_integrand : Domain :=
  Discrete None Integrand
    [mkDomainBranch 0 (domain_continuous 3); mkDomainBranch 2 (domain_rectangular_with_cardinalities 1 [2])].

Lemma stratum_prefixes_table_witness :
  exists t, stratum_prefixes ragged_strata = Ok t /\ t = [[0]; [1; 0]; [1; 1]; [1; 3]] /\ prefix_table t.
Proof.
  eexists. split; [reflexivity|]. split; [reflexivity|].
  apply (stratum_prefixes_table ragged_strata); reflexivity.
Defined.

(** attaching an integrand domain to a stratum-only domain yields a domain
    that validates and has exactly the strata of the prefix domain, so the
    sampling domain, the Voronoi centres and the feedback tables index the
    same prefixes. *)
Theorem with_integrand_prefixes self integrand d :
  domain_sized self = true -> with_integrand self integrand = Ok d ->
  domain_validate d = Ok tt /\ stratum_prefixes d = stratum_prefixes self.
Proof.
  unfold with_integrand, stratum_prefixes, domain_validate.
  intros Hsz (ip & ([] & Hi & Hip)%result_bind_ok & H)%result_bind_ok. simplify_eq.
  destruct (prefixes_visit integrand []) as [|[] []] eqn:Ei; try done. simpl in H.
  apply result_bind_ok in H as (sp & ([] & Hs & Hsp)%result_bind_ok & H). simplify_eq.
  destruct (existsb _ _); [done|].
  assert (validate_visit d false = Ok tt) as Hd by by apply (append_validate self integrand d).
  split; [done|]. rewrite Hd, Hs. simpl. f_equal. by apply (append_prefixes self integrand).
Qed.

Lemma with_integrand_prefixes_witness :
  exists d, with_integrand ragged_strata ragged_integrand = Ok d /\
            stratum_prefixes d = stratum_prefixes ragged_strata.
Proof.
  eexists. split; [reflexivity|].
  apply (with_integrand_prefixes ragged_strata ragged_integrand); reflexivity.
Defined.

(** a sampling point whose discrete path starts with a complete stratum
    prefix is accepted by the sampling domain, with a number of continuous
    coordinates, exactly when the remaining path is accepted by the integrand
    domain with that number: removing the runtime-owned prefix before
    evaluation neither loses nor invents a layout. *)
Theorem with_integrand_leaf self integrand d p q n t :
  domain_sized self = true -> with_integrand self integrand = Ok d ->
  stratum_prefixes self = Ok t -> p ∈ t ->
  continuous_dims_at_leaf_path d (p ++ q) = Ok n <->
  continuous_dims_at_leaf_path integrand q = Ok n.
Proof.
  unfold with_integrand, stratum_prefixes, domain_validate.
  intros Hsz (ip & _ & H)%result_bind_ok ([] & Hs & Ht)%result_bind_ok. simplify_eq.
  destruct (negb _); [done|]. apply result_bind_ok in H as (? & _ & H).
  destruct (existsb _ _); [done|]. by apply append_leaf.
Qed.

Lemma with_integrand_leaf_witness :
  exists d, with_integrand ragged_strata ragged_integrand = Ok d /\
    (continuous_dims_at_leaf_path d ([1; 3] ++ [2; 1]) = Ok 1 <->
     continuous_dims_at_leaf_path ragged_integrand [2; 1] = Ok 1).
Proof.
  eexists. split; [reflexivity|].
  apply (with_integrand_leaf ragged_strata ragged_integrand _ [1; 3] [2; 1] 1
           [[0]; [1; 0]; [1; 1]; [1; 3]]); [reflexivity..|].
  apply list_elem_of_In. simpl. tauto.
Defined.

(** every point the domain accepts has the fixed shape the domain reports:
    [fixed_rectangular_dims] gives the length of both coordinate blocks, and
    for a nonempty discrete path [continuous_dims_at_discrete_path] agrees
    with it. *)
Theorem validate_point_fixed_shape d discrete continuous c k :
  fixed_rectangular_dims d = Some (c, k) ->
  validate_point_parts d discrete continuous = Ok tt ->
  zlen continuous = c /\ zlen discrete = k /\
  (discrete <> [] -> continuous_dims_at_discrete_path d discrete = Ok c).
Proof.
  unfold fixed_rectangular_dims, validate_point_parts.
  intros (c' & Hc & (k' & Hk & Hck)%bind_Some)%bind_Some (m & Hm & Hl)%result_bind_ok. simplify_eq.
  pose proof (fixed_continuous_sound _ _ _ _ Hc Hm) as ->.
  destruct (Z.eqb_spec (zlen continuous) c) as [->|]; [|done].
  split_and!; [done | by eapply fixed_depth_sound | intros; by apply leaf_path_discrete_path].
Qed.

Lemma validate_point_fixed_shape_witness :
  let d := domain_discrete None
             [mkDomainBranch 0 (domain_rectangular_with_cardinalities 2 [3]);
              mkDomainBranch 4 (domain_rectangular_with_cardinalities 2 [1])] in
  zlen [0.5%float; 0.25%float] = 2 /\ zlen [4; 0] = 2 /\
  ([4; 0] <> [] -> continuous_dims_at_discrete_path d [4; 0] = Ok 2).
Proof. intros d. apply (validate_point_fixed_shape d); reflexivity. Defined.
