(* ===== verification/Batch.v ===== *)
(** src/evaluation/batch.rs: weighted points, batches, and the diagnostic
    samples kept with extreme contributions. *)
From S2P Require Import Prelude Floats Errors.

Record WeightFactor := mkWeightFactor { label : string; value : f64 }.

Record Point := mkPoint {
  continuous : list f64;
  discrete : list Z;
  weight_factors : list WeightFactor
}.

Record SampleEvaluation := mkSampleEvaluation {
  integrand_value_re : f64;
  integrand_value_im : f64;
  parameterization_jacobian : option f64
}.

Record DiagnosticStratum := mkDiagnosticStratum {
  ds_requested : list Z;
  ds_actual : list Z
}.

Abbreviation StratumPair := (list Z * list Z)%type.

Record DiagnosticSample := mkDiagnosticSample {
  sample_point : Point;
  sample_evaluation : option SampleEvaluation;
  sample_stratum : option DiagnosticStratum
}.

Definition diagnostic_sample_new (point : Point) (evaluation : option SampleEvaluation)
    (stratum : option StratumPair) : DiagnosticSample :=
  mkDiagnosticSample point evaluation
    (option_map (fun '(requested, actual) => mkDiagnosticStratum requested actual) stratum).

(** *** Extreme contributions *)

Record ContributionExtrema := mkContributionExtrema {
  positive : option (f64 * DiagnosticSample);
  negative : option (f64 * DiagnosticSample)
}.
Definition extrema_default : ContributionExtrema := mkContributionExtrema None None.

(** [slot.as_ref().is_none_or(|(previous, _)| value.abs() > previous.abs())] *)
Definition exceeds (v : f64) (slot : option (f64 * DiagnosticSample)) : bool :=
  match slot with
  | None => true
  | Some (previous, _) => PrimFloat.ltb (PrimFloat.abs previous) (PrimFloat.abs v)
  end.

Definition extrema_observe (self : ContributionExtrema) (v : f64) (point : Point)
    (stratum : StratumPair) : ContributionExtrema :=
  let kept slot :=
    if exceeds v slot then Some (v, diagnostic_sample_new point None (Some stratum)) else slot in
  if PrimFloat.leb 0%float v
  then mkContributionExtrema (kept (positive self)) (negative self)
  else mkContributionExtrema (positive self) (kept (negative self)).

Definition merge_slot (left right : option (f64 * DiagnosticSample)) : option (f64 * DiagnosticSample) :=
  match right with
  | Some (v, sample) => if exceeds v left then Some (v, sample) else left
  | None => left
  end.

Definition extrema_merge (self other : ContributionExtrema) : ContributionExtrema :=
  mkContributionExtrema (merge_slot (positive self) (positive other))
    (merge_slot (negative self) (negative other)).

(** *** Points *)

Definition sampler_weight_label : string := "sampler_weight".

Definition point_new (continuous : list f64) (discrete : list Z) (sampler_weight : f64) : Point :=
  mkPoint continuous discrete [mkWeightFactor sampler_weight_label sampler_weight].

Definition total_weight (p : Point) : f64 := f64_product (map value (weight_factors p)).

Definition add_weight_factor (p : Point) (l : string) (v : f64) : Point :=
  mkPoint (continuous p) (discrete p) (weight_factors p ++ [mkWeightFactor l v]).

Definition factor_value (p : Point) (l : string) : option f64 :=
  option_map value (find (fun factor => String.eqb (label factor) l) (weight_factors p)).

Definition factor_product_matching (p : Point) (predicate : string -> bool) : option f64 :=
  let '(product, matched) :=
    fold_left (fun '(product, matched) factor =>
      if predicate (label factor) then (PrimFloat.mul product (value factor), true)
      else (product, matched))
      (weight_factors p) (1%float, false) in
  if matched then Some product else None.

Definition batch_weights (points : list Point) : list f64 := map total_weight points.

(** Errors of the batch layout: [BatchError]. *)
Inductive BatchError := layout (message : string).

Lemma factor_value_new c d w : factor_value (point_new c d w) sampler_weight_label = Some w.
Proof. done. Qed.
