(* ===== verification/LatentBatch.v ===== *)
(** src/sampling/latent_batch.rs: the sampler-to-queue payload, its builder,
    its decoder and its slices, with the rows an indexed payload stands for as
    the specification; and the replay of frozen-grid draws of
    src/sampling/materializer/frozen_havana_inference.rs. *)
From S2P Require Import Prelude Floats Errors Batch.

Definition RNG_CHECKPOINT_STRIDE : usize := 1024.

Section latent.
(** [SerializableMonteCarloRng]: a generator of the rand_xoshiro crate. *)
Context {Rng : Type}.

Inductive LatentBatchPayload : Type :=
| IndexedBatch (discrete_signatures : list (list Z)) (discrete_map : list usize)
    (continuous_layouts : list usize) (continuous_values : list f64) (weights : list f64)
| HavanaInference (rng_states : list Rng) (offset : usize).

Record LatentBatch := mkLatentBatch {
  nr_samples : usize;
  payload : LatentBatchPayload
}.

(** *** [IndexedBatchBuilder] *)

Record IndexedBatchBuilder := mkBuilder {
  b_signatures : list (list Z);
  b_index : gmap (list Z) usize;
  b_empty_signature : option usize;
  b_map : list usize;
  b_layouts : list usize;
  b_values : list f64;
  b_weights : list f64
}.

Definition builder_new : IndexedBatchBuilder := mkBuilder [] ∅ None [] [] [] [].

Definition push_discrete (b : IndexedBatchBuilder) (discrete : list Z) : IndexedBatchBuilder :=
  let idx := zlen (b_signatures b) in
  match discrete with
  | [] =>
      match b_empty_signature b with
      | Some i =>
          mkBuilder (b_signatures b) (b_index b) (Some i) (b_map b ++ [i])
            (b_layouts b) (b_values b) (b_weights b)
      | None =>
          mkBuilder (b_signatures b ++ [[]]) (b_index b) (Some idx) (b_map b ++ [idx])
            (b_layouts b) (b_values b) (b_weights b)
      end
  | _ :: _ =>
      match b_index b !! discrete with
      | Some i =>
          mkBuilder (b_signatures b) (b_index b) (b_empty_signature b) (b_map b ++ [i])
            (b_layouts b) (b_values b) (b_weights b)
      | None =>
          mkBuilder (b_signatures b ++ [discrete]) (<[discrete := idx]> (b_index b))
            (b_empty_signature b) (b_map b ++ [idx]) (b_layouts b) (b_values b) (b_weights b)
      end
  end.

Definition builder_push (b : IndexedBatchBuilder) (discrete : list Z) (continuous : list f64)
    (weight : f64) : IndexedBatchBuilder :=
  let b := push_discrete b discrete in
  mkBuilder (b_signatures b) (b_index b) (b_empty_signature b) (b_map b)
    (b_layouts b ++ [zlen continuous]) (b_values b ++ continuous) (b_weights b ++ [weight]).

Definition builder_finish (b : IndexedBatchBuilder) : LatentBatchPayload :=
  IndexedBatch (b_signatures b) (b_map b) (b_layouts b) (b_values b) (b_weights b).

(** [discrete.chunks_exact(n)], [n > 0]: the rows of a flat array. *)
Fixpoint chunks_exact {A} (fuel : nat) (n : usize) (l : list A) : list (list A) :=
  match fuel with
  | O => []
  | S fuel => if zlen l <? n then [] else ztake n l :: chunks_exact fuel n (zdrop n l)
  end.

Definition from_homogeneous (discrete : list Z) (discrete_dims : usize)
    (continuous_values : list f64) (continuous_dims : usize) (weights : list f64)
    : LatentBatchPayload :=
  let nr_samples := length weights in
  let layouts := replicate nr_samples continuous_dims in
  if discrete_dims =? 0 then
    IndexedBatch [[]] (replicate nr_samples 0) layouts continuous_values weights
  else
    let b := mkBuilder [] ∅ None [] layouts continuous_values weights in
    builder_finish
      (fold_left push_discrete (chunks_exact (length discrete) discrete_dims discrete) b).

(** [from_batch]: [None] is the panic of [expect] on a point that has no
    [sampler_weight] factor. *)
Fixpoint builder_push_points (b : IndexedBatchBuilder) (points : list Point)
    : option IndexedBatchBuilder :=
  match points with
  | [] => Some b
  | point :: points =>
      match factor_value point sampler_weight_label with
      | None => None
      | Some w => builder_push_points (builder_push b (discrete point) (continuous point) w) points
      end
  end.

Definition payload_from_batch (points : list Point) : option LatentBatchPayload :=
  option_map builder_finish (builder_push_points builder_new points).

Definition latent_from_batch (points : list Point) : option LatentBatch :=
  option_map (mkLatentBatch (zlen points)) (payload_from_batch points).

(** *** [decode_indexed_batch] *)

Fixpoint decode_loop (signatures : list (list Z)) (dmap layouts : list usize)
    (values weights : list f64) (offset : usize) (n : nat) (sample_idx : nat)
    : result BatchError (list Point * usize) :=
  match n with
  | O => Ok ([], offset)
  | S n =>
      let signature_idx := default 0 (dmap !! sample_idx) in
      let? discrete := ok_or (layout "indexed latent batch points to missing signature")
                         (zget signatures signature_idx) in
      let continuous_len := default 0 (layouts !! sample_idx) in
      let? next := ok_or (layout "indexed latent batch continuous offset overflow")
                     (usize_checked_add offset continuous_len) in
      let? continuous := ok_or (layout "indexed latent batch continuous values too short")
                           (get_range offset next values) in
      let point := point_new continuous discrete (default 0%float (weights !! sample_idx)) in
      let? r := decode_loop signatures dmap layouts values weights next n (S sample_idx) in
      Ok (point :: fst r, snd r)
  end.

Definition decode_indexed_batch (signatures : list (list Z)) (dmap layouts : list usize)
    (values weights : list f64) : result BatchError (list Point) :=
  let nr_samples := zlen weights in
  if negb (zlen dmap =? nr_samples) || negb (zlen layouts =? nr_samples) then
    Err (layout "indexed latent batch shape mismatch")
  else
    let? r := decode_loop signatures dmap layouts values weights 0 (length weights) 0 in
    if negb (snd r =? zlen values) then
      Err (layout "indexed latent batch continuous values have trailing data")
    else Ok (fst r).

Definition as_batch (p : LatentBatchPayload) : result BatchError (list Point) :=
  match p with
  | IndexedBatch signatures dmap layouts values weights =>
      decode_indexed_batch signatures dmap layouts values weights
  | HavanaInference _ _ =>
      Err (layout "havana_inference latent payload must be materialized by a materializer")
  end.

(** *** [validate_nr_samples] *)

Definition validate_nr_samples (l : LatentBatch) : result BatchError unit :=
  if nr_samples l =? 0 then
    Err (layout "latent batch nr_samples must be greater than zero")
  else
    match payload l with
    | IndexedBatch _ dmap layouts values weights =>
        if negb (zlen weights =? nr_samples l) then
          Err (layout "latent batch nr_samples mismatch")
        else if negb (zlen dmap =? nr_samples l) || negb (zlen layouts =? nr_samples l) then
          Err (layout "latent batch indexed shape mismatch")
        else if negb (zlen values =? zsum layouts) then
          Err (layout "latent batch continuous payload mismatch")
        else Ok tt
    | HavanaInference rng_states offset =>
        if RNG_CHECKPOINT_STRIDE <=? offset then
          Err (layout "invalid RNG checkpoints or sample offset")
        else
          let? total := ok_or (layout "RNG sample count overflow")
                          (usize_checked_add (nr_samples l) offset) in
          if negb (zlen rng_states =? div_ceil total RNG_CHECKPOINT_STRIDE) then
            Err (layout "invalid RNG checkpoints or sample offset")
          else Ok tt
    end.

(** *** [slice_at]

    The outer [None] is the panic of an out-of-range slice [v[a..b]]. *)

Definition remap_entry (signatures : list (list Z)) (signature : list Z)
    (remap : gmap usize usize) (index : usize) : list (list Z) * gmap usize usize * usize :=
  match remap !! index with
  | Some i => (signatures, remap, i)
  | None =>
      let i := zlen signatures in
      (signatures ++ [signature], <[index := i]> remap, i)
  end.

Fixpoint remap_loop (source : list (list Z)) (indices : list usize)
    (signatures : list (list Z)) (remap : gmap usize usize) (maps : list usize)
    : result BatchError (list (list Z) * list usize) :=
  match indices with
  | [] => Ok (signatures, maps)
  | index :: indices =>
      let? signature := ok_or (layout "generated batch references a missing discrete signature")
                          (zget source index) in
      let '(signatures, remap, i) := remap_entry signatures signature remap index in
      remap_loop source indices signatures remap (maps ++ [i])
  end.

Definition slice_at (l : LatentBatch) (start samples coordinate_start : usize)
    : option (result BatchError LatentBatch) :=
  match usize_checked_add start samples with
  | None => Some (Err (layout "generated batch slice out of bounds"))
  | Some end_ =>
      if negb (end_ <=? nr_samples l) then Some (Err (layout "generated batch slice out of bounds"))
      else if samples =? 0 then Some (Err (layout "generated batch slice is empty"))
      else
        match payload l with
        | HavanaInference rng_states offset =>
            let first := (offset + start) / RNG_CHECKPOINT_STRIDE in
            let last := (offset + end_ - 1) / RNG_CHECKPOINT_STRIDE in
            Some (let? states := ok_or (layout "missing RNG checkpoint")
                                   (get_range first (last + 1) rng_states) in
                  Ok (mkLatentBatch samples
                        (HavanaInference states ((offset + start) mod RNG_CHECKPOINT_STRIDE))))
        | IndexedBatch source dmap layouts values weights =>
            indices ← get_range start end_ dmap;
            match remap_loop source indices [] ∅ [] with
            | Err e => Some (Err e)
            | Ok (signatures, maps) =>
                layouts ← get_range start end_ layouts;
                let coordinate_end := coordinate_start + zsum layouts in
                values ← get_range coordinate_start coordinate_end values;
                weights ← get_range start end_ weights;
                Some (Ok (mkLatentBatch samples
                            (IndexedBatch signatures maps layouts values weights)))
            end
        end
  end.

(** [slice]: the coordinate cursor from the start of the batch. *)
Definition latent_slice (l : LatentBatch) (start samples : usize)
    : option (result BatchError LatentBatch) :=
  match payload l with
  | IndexedBatch _ _ layouts _ _ =>
      match get_range 0 start layouts with
      | None => Some (Err (layout "generated batch slice out of bounds"))
      | Some prefix => slice_at l start samples (zsum prefix)
      end
  | HavanaInference _ _ => slice_at l start samples 0
  end.
End latent.
Arguments LatentBatchPayload : clear implicits.
Arguments LatentBatch : clear implicits.

(** ** The rows of an indexed payload

    The specification of the representation: sample [i] has the discrete tuple
    the dictionary entry [discrete_map[i]] holds, the [continuous_layouts[i]]
    next coordinates and the weight [weights[i]]. *)
Definition row : Type := list Z * list f64 * f64.
Definition row_discrete (r : row) : list Z := r.1.1.
Definition row_continuous (r : row) : list f64 := r.1.2.
Definition row_weight (r : row) : f64 := r.2.
Definition row_point (r : row) : Point := point_new (row_continuous r) (row_discrete r) (row_weight r).

Record encodes (signatures : list (list Z)) (dmap layouts : list Z) (values weights : list f64)
    (rows : list row) : Prop := {
  enc_map : Forall2 (fun i r => zget signatures i = Some (row_discrete r)) dmap rows;
  enc_layouts : layouts = map (fun r => zlen (row_continuous r)) rows;
  enc_values : values = concat (map row_continuous rows);
  enc_weights : weights = map row_weight rows
}.

Section rows.
Context {Rng : Type}.
Implicit Types (p : LatentBatchPayload Rng) (l : LatentBatch Rng).

Definition payload_rows p (rows : list row) : Prop :=
  match p with
  | IndexedBatch signatures dmap layouts values weights =>
      encodes signatures dmap layouts values weights rows
  | HavanaInference _ _ => False
  end.

Definition latent_rows l (rows : list row) : Prop :=
  payload_rows (payload l) rows /\ nr_samples l = zlen rows.

Lemma encodes_snoc signatures dmap layouts values weights rows i d c w :
  encodes signatures dmap layouts values weights rows -> zget signatures i = Some d ->
  encodes signatures (dmap ++ [i]) (layouts ++ [zlen c]) (values ++ c) (weights ++ [w])
    (rows ++ [(d, c, w)]).
Proof.
  intros [Hm -> -> ->] Hi. constructor; rewrite ?map_app, ?concat_app; simpl; rewrite ?app_nil_r; [|done..].
  apply Forall2_app; [done|]. by constructor.
Qed.

Lemma encodes_grow signatures more dmap layouts values weights rows :
  encodes signatures dmap layouts values weights rows ->
  encodes (signatures ++ more) dmap layouts values weights rows.
Proof.
  intros [Hm -> -> ->]. constructor; [|done..].
  eapply Forall2_impl; [exact Hm|]. intros. by apply zget_app_l.
Qed.

(** *** Decoding *)

Lemma decode_loop_rows signatures (done rest : list row) dmap layouts values weights :
  encodes signatures dmap layouts values weights (done ++ rest) ->
  zlen values <= usize_max ->
  decode_loop signatures dmap layouts values weights (zlen (concat (map row_continuous done)))
    (length rest) (length done) = Ok (map row_point rest, zlen values).
Proof.
  intros Henc Hmax. revert done Henc. induction rest as [|r rest IH]; intros done Henc; simpl.
  { destruct Henc as [_ _ -> _]. by rewrite app_nil_r. }
  pose proof Henc as [Hm Hl Hv Hw]. rewrite cons_middle, app_assoc in Henc.
  destruct (Forall2_lookup_r _ _ _ _ r Hm (list_lookup_middle _ _ _ _ eq_refl)) as (i & Hi & Hs).
  rewrite Hi. simpl. rewrite Hs. simpl.
  rewrite Hl, lookup_map_middle. simpl.
  set (off := zlen (concat (map row_continuous done))).
  assert (values = concat (map row_continuous done) ++ row_continuous r ++ concat (map row_continuous rest)) as Hv'.
  { by rewrite Hv, map_app, concat_app. }
  assert (off + zlen (row_continuous r) <= zlen values).
  { rewrite Hv', !zlen_app. pose proof (zlen_nonneg (concat (map row_continuous rest))). subst off. lia. }
  unfold usize_checked_add. rewrite (proj2 (Z.leb_le _ _)) by lia. simpl.
  rewrite Hv' at 1. rewrite (get_range_middle _ (row_continuous r)) by done. simpl.
  rewrite Hw, lookup_map_middle. simpl.
  specialize (IH (done ++ [r]) Henc).
  rewrite map_app, concat_app, zlen_app, length_app in IH. simpl in IH.
  rewrite app_nil_r, Nat.add_1_r in IH. rewrite <- Hw, <- Hl. fold off in IH. by rewrite IH.
Qed.

Lemma as_batch_rows p rows :
  payload_rows p rows -> zlen (concat (map row_continuous rows)) <= usize_max ->
  as_batch p = Ok (map row_point rows).
Proof.
  destruct p as [signatures dmap layouts values weights|]; [|done].
  intros Henc Hmax. pose proof Henc as [Hm Hl Hv Hw].
  simpl. unfold decode_indexed_batch.
  rewrite (zlen_Forall2 _ _ _ Hm), Hl, Hw, !zlen_lmap, !Z.eqb_refl, <- Hl, <- Hw. simpl.
  pose proof (decode_loop_rows signatures [] rows dmap layouts values weights Henc) as E.
  rewrite Hv in E at 1. specialize (E Hmax). simpl in E.
  assert (length weights = length rows) as -> by (by rewrite Hw, length_map).
  rewrite zlen_nil in E. rewrite E. simpl. by rewrite Z.eqb_refl.
Qed.

(** *** Building *)

Record builder_inv (b : IndexedBatchBuilder) (ds : list (list Z)) : Prop := {
  binv_map : Forall2 (fun i d => zget (b_signatures b) i = Some d) (b_map b) ds;
  binv_index : forall d i, b_index b !! d = Some i -> zget (b_signatures b) i = Some d;
  binv_empty : forall i, b_empty_signature b = Some i -> zget (b_signatures b) i = Some []
}.

Lemma push_discrete_inv b ds d :
  builder_inv b ds ->
  builder_inv (push_discrete b d) (ds ++ [d]) /\
  (b_layouts (push_discrete b d), b_values (push_discrete b d), b_weights (push_discrete b d)) =
  (b_layouts b, b_values b, b_weights b).
Proof.
  intros [Hm Hi He]. unfold push_discrete.
  assert (forall s, Forall2 (fun i d => zget (b_signatures b ++ s) i = Some d) (b_map b) ds) as Hgrow.
  { intros s. eapply Forall2_impl; [exact Hm|]. intros; by apply zget_app_l. }
  destruct d as [|x d].
  - destruct (b_empty_signature b) as [i|] eqn:E; (split; [|done]); constructor; simpl; eauto.
    + apply Forall2_app; [done|]. repeat constructor. eauto.
    + apply Forall2_app; [done|]. repeat constructor. apply zget_snoc.
    + intros. apply zget_app_l. eauto.
    + intros i ?. simplify_eq. apply zget_snoc.
  - destruct (b_index b !! (x :: d)) as [i|] eqn:E; (split; [|done]); constructor; simpl; eauto.
    + apply Forall2_app; [done|]. repeat constructor. eauto.
    + apply Forall2_app; [done|]. repeat constructor. apply zget_snoc.
    + intros d' i'. rewrite lookup_insert. case_decide; intros; simplify_eq.
      * apply zget_snoc.
      * apply zget_app_l. eauto.
    + intros. apply zget_app_l. eauto.
Qed.

(** A builder and the rows it holds. *)
Definition builds (b : IndexedBatchBuilder) (rows : list row) : Prop :=
  builder_inv b (map row_discrete rows) /\ encodes (b_signatures b) (b_map b) (b_layouts b) (b_values b) (b_weights b) rows.

Lemma builds_new : builds builder_new [].
Proof. split; constructor; (constructor || done). Qed.

Lemma builds_push b rows r :
  builds b rows -> builds (builder_push b (row_discrete r) (row_continuous r) (row_weight r)) (rows ++ [r]).
Proof.
  intros [Hinv [Hm Hl Hv Hw]]. destruct (push_discrete_inv b _ (row_discrete r) Hinv) as [Hinv' Heq]. injection Heq as El Ev Ew.
  destruct Hinv' as [Hm' Hi' He']. split.
  - rewrite map_app. by constructor.
  - cbn. rewrite El, Ev, Ew, Hl, Hv, Hw. constructor; rewrite ?map_app, ?concat_app; cbn; rewrite ?app_nil_r; [|done..].
    apply (Forall2_map_r row_discrete (fun i d => zget _ i = Some d)). by rewrite map_app.
Qed.

Lemma builder_push_points_rows b (rows : list row) points b' :
  builder_inv b (map row_discrete rows) ->
  encodes (b_signatures b) (b_map b) (b_layouts b) (b_values b) (b_weights b) rows ->
  builder_push_points b points = Some b' ->
  exists rows',
    encodes (b_signatures b') (b_map b') (b_layouts b') (b_values b') (b_weights b') (rows ++ rows') /\
    Forall2 (fun pt r => row_discrete r = discrete pt /\ row_continuous r = continuous pt /\
                         factor_value pt sampler_weight_label = Some (row_weight r)) points rows'.
Proof.
  revert b rows. induction points as [|pt points IH]; intros b rows Hinv Henc H; simpl in H.
  { simplify_eq. exists []. rewrite app_nil_r. split; [done|constructor]. }
  destruct (factor_value pt sampler_weight_label) as [w|] eqn:Ew; [|done].
  destruct (push_discrete_inv b _ (discrete pt) Hinv) as [Hinv' Heq].
  destruct (IH (builder_push b (discrete pt) (continuous pt) w)
              (rows ++ [(discrete pt, continuous pt, w)])) as (rows' & Henc' & Hf); [| |done|].
  - destruct Hinv' as [Hm' Hi' He']. rewrite map_app. constructor; simpl; auto.
  - simplify_eq. destruct Hinv' as [Hm' _ _]. unfold builder_push; simpl.
    destruct Henc as [_ Hl Hv Hw]. rewrite H0, H1, H2, Hl, Hv, Hw.
    constructor; rewrite ?map_app, ?concat_app; simpl; rewrite ?app_nil_r; [|done..].
    apply (Forall2_map_r row_discrete (fun i d => zget _ i = Some d)). by rewrite map_app.
  - exists ((discrete pt, continuous pt, w) :: rows'). rewrite cons_middle, app_assoc.
    split; [done|]. by constructor.
Qed.

Lemma latent_from_batch_rows points l :
  latent_from_batch points = Some l ->
  exists rows, latent_rows l rows /\
    Forall2 (fun pt r => row_discrete r = discrete pt /\ row_continuous r = continuous pt /\
                         factor_value pt sampler_weight_label = Some (row_weight r)) points rows.
Proof.
  unfold latent_from_batch, payload_from_batch.
  destruct (builder_push_points builder_new points) as [b|] eqn:E; [|done].
  intros ?. simplify_eq/=. eapply (builder_push_points_rows builder_new []) in E as (rows & Henc & Hf).
  - exists rows. split; [|done]. split; [done|]. simpl. by apply zlen_Forall2 in Hf.
  - constructor; simpl; [constructor | done | done].
  - constructor; [constructor | done..].
Qed.

Lemma builder_push_points_Some b points :
  Forall (fun pt => factor_value pt sampler_weight_label <> None) points ->
  exists b', builder_push_points b points = Some b'.
Proof.
  intros H. revert b. induction H as [|pt points Hpt _ IH]; intros b; simpl; [eauto|].
  destruct (factor_value pt sampler_weight_label); [apply IH|done].
Qed.

Lemma latent_from_batch_Some points :
  Forall (fun pt => factor_value pt sampler_weight_label <> None) points ->
  exists l, latent_from_batch points = Some l.
Proof.
  intros (b & Hb)%(builder_push_points_Some builder_new).
  unfold latent_from_batch, payload_from_batch. rewrite Hb. simpl. eauto.
Qed.

Lemma latent_rows_validate l rows :
  latent_rows l rows -> rows <> [] -> validate_nr_samples l = Ok tt.
Proof.
  intros [Hp Hn] Hne. unfold validate_nr_samples.
  destruct (payload l) as [s m ls vs ws|]; [|done]. destruct Hp as [Hm -> -> ->].
  rewrite Hn. destruct (zlen rows =? 0) eqn:E; zbool; [by apply zlen_zero in E|].
  rewrite (zlen_Forall2 _ _ _ Hm), !zlen_lmap, !Z.eqb_refl. simpl.
  rewrite zlen_concat, map_map. by rewrite Z.eqb_refl.
Qed.

(** *** What a successful decoding says about the payload *)

Lemma decode_loop_inv signatures dmap layouts values weights n i off pts off' :
  decode_loop signatures dmap layouts values weights off n i = Ok (pts, off') ->
  zlen dmap = zlen weights -> zlen layouts = zlen weights ->
  (n + i = length weights)%nat -> 0 <= off <= zlen values ->
  exists rows, pts = map row_point rows /\ off <= off' <= zlen values /\
    encodes signatures (drop i dmap) (drop i layouts) (ztake (off' - off) (zdrop off values))
      (drop i weights) rows.
Proof.
  revert i off pts off'. induction n as [|n IH]; intros i off pts off' H Hm Hl Hi Hoff; simpl in H.
  - simplify_eq. exists []. rewrite Z.sub_diag, ztake_0. unfold zlen in *.
    rewrite !drop_ge by lia. split_and!; try done; lia.
  - apply result_bind_ok in H as (d & Hd & H). apply result_bind_ok in H as (next & Hnext & H).
    apply result_bind_ok in H as (c & Hc & H). apply result_bind_ok in H as ([rest off''] & Hr & H).
    simplify_eq/=. inv_ok. unfold zlen in Hm, Hl.
    destruct (lookup_lt_is_Some_2 dmap i ltac:(lia)) as [m Em].
    destruct (lookup_lt_is_Some_2 layouts i ltac:(lia)) as [k Ek].
    destruct (lookup_lt_is_Some_2 weights i ltac:(lia)) as [w Ew].
    rewrite ?Em, ?Ek, ?Ew in *. simpl in *.
    unfold usize_checked_add in *. case_match_eqn.
    match goal with G : get_range _ _ _ = Some _ |- _ => apply get_range_Some in G as ([? ?] & ? & ->) end.
    apply IH in Hr as (rows & -> & ? & [Hem Hel Hev Hew]); [|unfold zlen in *; lia..].
    exists ((d, ztake (off + k - off) (zdrop off values), w) :: rows). split; [done|]. split; [lia|].
    rewrite (drop_S _ _ _ Em), (drop_S _ _ _ Ek), (drop_S _ _ _ Ew).
    constructor; simpl.
    + by constructor.
    + rewrite Hel. f_equal. unfold row_continuous. simpl. rewrite zlen_ztake; [lia|]. rewrite zlen_zdrop; lia.
    + rewrite <- Hev. symmetry. apply ztake_zdrop_app; lia.
    + by rewrite Hew.
Qed.

Lemma as_batch_inv p pts :
  as_batch p = Ok pts -> exists rows, payload_rows p rows /\ pts = map row_point rows.
Proof.
  destruct p as [s m ls vs ws|]; [|done]. simpl. unfold decode_indexed_batch.
  destruct (_ || _)%bool eqn:E; [done|]. intros H. zbool.
  apply result_bind_ok in H as ([pts' off] & Hd & H). simpl in H. case_match_eqn. zbool. subst off.
  apply decode_loop_inv in Hd as (rows & -> & ? & Henc); [|done|done|lia|pose proof (zlen_nonneg vs); lia].
  exists rows. split; [|done]. rewrite Z.sub_0_r, zdrop_0, ztake_all in Henc by lia. done.
Qed.

(** *** Slicing *)

Definition remap_sound (source signatures : list (list Z)) (remap : gmap Z Z) : Prop :=
  forall k i, remap !! k = Some i -> exists d, zget source k = Some d /\ zget signatures i = Some d.

Lemma remap_loop_spec source indices ds signatures remap maps done :
  Forall2 (fun i d => zget source i = Some d) indices ds ->
  Forall2 (fun i d => zget signatures i = Some d) maps done ->
  remap_sound source signatures remap ->
  exists signatures' maps',
    remap_loop source indices signatures remap maps = Ok (signatures', maps') /\
    Forall2 (fun i d => zget signatures' i = Some d) maps' (done ++ ds).
Proof.
  intros H. revert signatures remap maps done.
  induction H as [|k d indices ds Hk _ IH]; intros signatures remap maps done Hm Hr; simpl.
  { rewrite app_nil_r. eauto. }
  rewrite Hk. simpl. unfold remap_entry. rewrite (cons_middle d done ds), app_assoc.
  destruct (remap !! k) as [i|] eqn:E.
  - apply IH; [|done]. apply Forall2_app; [done|]. repeat constructor.
    destruct (Hr _ _ E) as (d' & ? & ?). congruence.
  - apply IH.
    + apply Forall2_app; [|repeat constructor; apply zget_snoc].
      eapply Forall2_impl; [exact Hm|]. intros. by apply zget_app_l.
    + intros k' i'. rewrite lookup_insert. case_decide; intros; simplify_eq.
      * exists d. split; [done|]. apply zget_snoc.
      * destruct (Hr k' i') as (d' & ? & ?); [done|]. exists d'. split; [done|]. by apply zget_app_l.
Qed.

Definition coordinate_cursor (rows : list row) (start : Z) : Z :=
  zlen (concat (map row_continuous (ztake start rows))).

Lemma slice_rows_split (rows : list row) start n :
  0 <= start -> 0 <= n ->
  rows = ztake start rows ++ ztake n (zdrop start rows) ++ zdrop n (zdrop start rows).
Proof. intros. by rewrite ztake_zdrop, ztake_zdrop. Qed.

Lemma slice_at_rows l rows start n :
  latent_rows l rows -> 0 <= start -> 0 < n -> start + n <= zlen rows -> zlen rows <= usize_max ->
  exists l', slice_at l start n (coordinate_cursor rows start) = Some (Ok l') /\
    latent_rows l' (ztake n (zdrop start rows)).
Proof.
  intros [Hp Hn] Hs Hpos Hend Hmax. unfold slice_at, usize_checked_add.
  rewrite (proj2 (Z.leb_le _ _)) by lia. rewrite (proj2 (Z.leb_le _ _)) by lia. simpl.
  rewrite (proj2 (Z.eqb_neq _ _)) by lia.
  destruct (payload l) as [s m ls vs ws|]; [|done]. destruct Hp as [Hm -> -> ->].
  set (part := ztake n (zdrop start rows)).
  assert (forall A (f : row -> A), get_range start (start + n) (map f rows) = Some (map f part)) as Hmap.
  { intros. apply get_range_Some. rewrite zlen_lmap. split_and!; try lia. subst part.
    rewrite <- map_zdrop, <- map_ztake. do 2 f_equal. lia. }
  rewrite (proj2 (get_range_Some start (start + n) m (ztake n (zdrop start m)))).
  2:{ rewrite (zlen_Forall2 _ _ _ Hm). split_and!; try lia. f_equal. lia. }
  simpl. assert (Forall2 (fun i r => zget s i = Some (row_discrete r)) (ztake n (zdrop start m)) part) as Hm'.
  { by apply Forall2_ztake, Forall2_zdrop. }
  destruct (remap_loop_spec s (ztake n (zdrop start m)) (map row_discrete part) [] ∅ [] [])
    as (s' & m' & -> & Hrem); [by apply Forall2_map_r | constructor | done |].
  rewrite Hmap. simpl. rewrite Hmap.
  assert (concat (map row_continuous rows) =
    concat (map row_continuous (ztake start rows)) ++ concat (map row_continuous part) ++
    concat (map row_continuous (zdrop n (zdrop start rows)))) as ->.
  { rewrite (slice_rows_split rows start n) at 1 by lia. by rewrite !map_app, !concat_app. }
  simpl.
  rewrite (get_range_middle _ (concat (map row_continuous part)));
    [|done|unfold coordinate_cursor; by rewrite (zlen_concat (map row_continuous part)), map_map].
  simpl. eexists; split; [done|]. split; [|simpl; subst part; rewrite zlen_ztake; [done|rewrite zlen_zdrop; lia]].
  constructor; try done. simpl in Hrem. by apply Forall2_map_r in Hrem.
Qed.

(** The point as the queue carries it: its weight factors reduced to the
    sampler weight. *)
Definition normalise (pt : Point) : Point :=
  point_new (continuous pt) (discrete pt) (default 0%float (factor_value pt sampler_weight_label)).

Lemma latent_rows_bound l (rows : list row) start :
  latent_rows l rows -> 0 <= start -> coordinate_cursor rows start <= zlen (concat (map row_continuous rows)).
Proof.
  intros _ ?. unfold coordinate_cursor. rewrite <- (ztake_zdrop start rows) at 2.
  rewrite map_app, concat_app, zlen_app. pose proof (zlen_nonneg (concat (map row_continuous (zdrop start rows)))). lia.
Qed.

(** *** Homogeneous arrays *)

Lemma push_discrete_fold b ds ds' :
  builder_inv b ds ->
  let b' := fold_left push_discrete ds' b in
  builder_inv b' (ds ++ ds') /\
  (b_layouts b', b_values b', b_weights b') = (b_layouts b, b_values b, b_weights b).
Proof.
  revert b ds. induction ds' as [|d ds' IH]; intros b ds Hb; simpl.
  - by rewrite app_nil_r.
  - destruct (push_discrete_inv b ds d Hb) as [Hb' Heq].
    destruct (IH _ _ Hb') as [? Heq']. rewrite (cons_middle d ds ds'), app_assoc. split; [done|].
    by rewrite Heq', Heq.
Qed.

Lemma chunks_exact_concat {A} fuel n (ls : list (list A)) :
  0 < n -> Forall (fun d => zlen d = n) ls -> (length (concat ls) <= fuel)%nat ->
  chunks_exact fuel n (concat ls) = ls.
Proof.
  intros Hn H. revert fuel. induction H as [|d ls Hd _ IH]; intros fuel Hf; simpl in *.
  - destruct fuel; [done|]. simpl. rewrite zlen_nil, (proj2 (Z.ltb_lt _ _)) by lia. done.
  - rewrite length_app in Hf. destruct fuel as [|fuel].
    { unfold zlen in Hd. lia. }
    simpl. rewrite zlen_app, Hd. pose proof (zlen_nonneg (concat ls)).
    rewrite (proj2 (Z.ltb_ge _ _)) by lia.
    unfold ztake, zdrop. rewrite <- Hd. unfold zlen at 1 3. rewrite Nat2Z.id, take_app_length, drop_app_length.
    rewrite Hd, IH; [done|]. unfold zlen in Hd. lia.
Qed.

Lemma from_homogeneous_rows ddims cdims (rows : list row) :
  0 <= ddims -> Forall (fun r => zlen (row_discrete r) = ddims /\ zlen (row_continuous r) = cdims) rows ->
  payload_rows (from_homogeneous (concat (map row_discrete rows)) ddims
                  (concat (map row_continuous rows)) cdims (map row_weight rows)) rows.
Proof.
  intros Hd Hrows. unfold from_homogeneous. rewrite length_map.
  assert (replicate (length rows) cdims = map (fun r => zlen (row_continuous r)) rows) as ->.
  { clear Hd. induction Hrows as [|r rows [_ <-] _ IH]; simpl; [done|]. by rewrite IH. }
  destruct (ddims =? 0) eqn:E; zbool; simpl.
  - constructor; [|done..]. clear Hd. induction Hrows as [|r rows [Hz _] _ IH]; simpl; constructor; [|done].
    rewrite (zlen_zero (row_discrete r)) by lia. done.
  - rewrite chunks_exact_concat; [|lia| |done].
    + edestruct (push_discrete_fold (mkBuilder [] ∅ None [] (map (fun r => zlen (row_continuous r)) rows)
                (concat (map row_continuous rows)) (map row_weight rows)) [] (map row_discrete rows))
        as [[Hm _ _] Heq]; [by constructor|].
      simpl in *. injection Heq as -> -> ->. constructor; [|done..]. by apply Forall2_map_r in Hm.
    + apply Forall_map. eapply Forall_impl; [exact Hrows|]. by intros ? [? _].
Qed.

(** *** Properties *)

(** Building gives rows that read as the normalised points. *)
Lemma latent_roundtrip_rows l points :
  latent_from_batch points = Some l ->
  zsum (map (fun pt => zlen (continuous pt)) points) <= usize_max ->
  exists rows, latent_rows l rows /\ map row_point rows = map normalise points /\
    zlen (concat (map row_continuous rows)) <= usize_max.
Proof.
  intros Hl Hsize. destruct (latent_from_batch_rows points l Hl) as (rows & Hr & Hf).
  exists rows. split; [done|]. split.
  - clear -Hf. induction Hf as [|pt r pts rows (Hd & Hc & Hw) _ IH]; simpl; [done|].
    unfold row_point at 1, normalise at 1. by rewrite Hd, Hc, Hw, IH.
  - rewrite zlen_concat, map_map. enough
      (map (fun r => zlen (row_continuous r)) rows = map (fun pt => zlen (continuous pt)) points) as -> by done.
    clear -Hf. induction Hf as [|pt r pts rows (Hd & Hc & Hw) _ IH]; simpl; [done|]. by rewrite Hc, IH.
Qed.

(** C38: a batch built from points that all carry a sampler weight decodes to
    the same points in the same order, each with its weight factors reduced
    to the sampler weight; it has their number and passes validation. *)
Theorem latent_roundtrip (points : list Point)
    (Hweight : Forall (fun pt => factor_value pt sampler_weight_label <> None) points)
    (Hsize : zsum (map (fun pt => zlen (continuous pt)) points) <= usize_max) :
  exists l, latent_from_batch points = Some l /\
    as_batch (payload l) = Ok (map normalise points) /\
    nr_samples l = zlen points /\
    (points <> [] -> validate_nr_samples l = Ok tt).
Proof.
  destruct (latent_from_batch_Some points Hweight) as [l Hl]. exists l. split; [done|].
  destruct (latent_roundtrip_rows l points Hl Hsize) as (rows & Hr & Hpts & Hbound).
  assert (zlen rows = zlen points) as Hn by (apply (f_equal zlen) in Hpts; by rewrite !zlen_lmap in Hpts).
  split_and!.
  - rewrite <- Hpts. apply as_batch_rows; [by destruct Hr|done].
  - destruct Hr as [_ ->]. done.
  - intros Hne. apply (latent_rows_validate l rows Hr). intros ->. by apply eq_sym, zlen_zero in Hn.
Qed.

(** slicing a decodable batch with the coordinate cursor of the rows
    before it yields, without panicking, a batch that decodes to exactly
    those rows: generated batches can be cut at any point. *)
Theorem slice_at_decodes l pts start samples
    (Hdec : as_batch (payload l) = Ok pts) (Hn : nr_samples l = zlen pts)
    (Hstart : 0 <= start) (Hsamples : 0 < samples) (Hend : start + samples <= zlen pts)
    (Hmax : zlen pts <= usize_max)
    (Hcoords : zsum (map (fun pt => zlen (continuous pt)) pts) <= usize_max) :
  exists l',
    slice_at l start samples (zsum (map (fun pt => zlen (continuous pt)) (ztake start pts))) = Some (Ok l') /\
    nr_samples l' = samples /\
    as_batch (payload l') = Ok (ztake samples (zdrop start pts)) /\
    validate_nr_samples l' = Ok tt.
Proof.
  apply as_batch_inv in Hdec as (rows & Hrows & ->). rewrite zlen_lmap in *.
  assert (forall k, map (fun pt => zlen (continuous pt)) (ztake k (map row_point rows)) =
                    map (fun r => zlen (row_continuous r)) (ztake k rows)) as Hmap.
  { intros k. by rewrite <- map_ztake, map_map. }
  destruct (slice_at_rows l rows start samples) as (l' & Hs & Hl'); [by split|done..|].
  unfold coordinate_cursor in Hs. rewrite zlen_concat, map_map in Hs.
  rewrite Hmap. exists l'. split; [done|].
  assert (zlen (ztake samples (zdrop start rows)) = samples) as Hlen.
  { rewrite zlen_ztake; [done|]. rewrite zlen_zdrop; lia. }
  split_and!.
  - destruct Hl' as [_ ->]. done.
  - rewrite <- map_zdrop, <- map_ztake. apply as_batch_rows; [by destruct Hl'|].
    rewrite map_map in Hcoords. rewrite <- (map_map row_continuous zlen), <- zlen_concat in Hcoords.
    rewrite (slice_rows_split rows start samples), !map_app, !concat_app, !zlen_app in Hcoords by lia.
    pose proof (zlen_nonneg (concat (map row_continuous (ztake start rows)))).
    pose proof (zlen_nonneg (concat (map row_continuous (zdrop samples (zdrop start rows))))). lia.
  - eapply latent_rows_validate; [done|]. intros Hnil. rewrite Hnil, zlen_nil in Hlen. lia.
Qed.

(** the bulk constructor for fixed-width arrays decodes to the rows of
    the arrays: row [i] has the [i]-th chunk of discrete indices, the [i]-th
    chunk of coordinates and the [i]-th weight. *)
Theorem from_homogeneous_decodes ddims cdims (rows : list row)
    (Hd : 0 <= ddims)
    (Hrows : Forall (fun r => zlen (row_discrete r) = ddims /\ zlen (row_continuous r) = cdims) rows)
    (Hsize : zlen (concat (map row_continuous rows)) <= usize_max) :
  as_batch (from_homogeneous (Rng := Rng) (concat (map row_discrete rows)) ddims
              (concat (map row_continuous rows)) cdims (map row_weight rows))
  = Ok (map row_point rows).
Proof. apply as_batch_rows; [by apply from_homogeneous_rows|done]. Qed.
End rows.

Definition example_points : list Point :=
  [point_new [0.5%float] [1] 2%float; point_new [] [] 1%float; point_new [0.25%float; 0.75%float] [1] 3%float].

Lemma latent_roundtrip_witness :
  exists l : LatentBatch unit, latent_from_batch example_points = Some l /\
    as_batch (payload l) = Ok (map normalise example_points) /\
    nr_samples l = 3 /\ (example_points <> [] -> validate_nr_samples l = Ok tt).
Proof. apply latent_roundtrip; [repeat constructor; by vm_compute|by vm_compute]. Defined.

Lemma slice_at_decodes_witness :
  exists l', slice_at (Rng := unit)
      (mkLatentBatch 3 (IndexedBatch [[1]; []] [0; 1; 0] [1; 0; 2] [0.5; 0.25; 0.75]%float [2; 1; 3]%float))
      1 2 1 = Some (Ok l') /\
    nr_samples l' = 2 /\ as_batch (payload l') = Ok (ztake 2 (zdrop 1 example_points)) /\
    validate_nr_samples l' = Ok tt.
Proof. by apply (slice_at_decodes _ example_points 1 2). Defined.

Lemma from_homogeneous_decodes_witness :
  as_batch (from_homogeneous (Rng := unit) [4; 4] 1 [0.5; 0.25]%float 1 [1; 2]%float)
  = Ok [point_new [0.5%float] [4] 1%float; point_new [0.25%float] [4] 2%float].
Proof.
  apply (from_homogeneous_decodes 1 1 [([4], [0.5%float], 1%float); ([4], [0.25%float], 2%float)]);
    [done|repeat constructor|by vm_compute].
Defined.
