(* ===== verification/Feedback.v ===== *)
(** src/sampling/feedback.rs: the training feedback of one draw, its masked
    view, and the assembly of evaluator fragments. *)
From S2P Require Import Prelude Lex Floats Errors.

Record StratumAssignments := mkStratumAssignments {
  prefixes : list (list Z);
  requested : list usize;
  actual : list usize
}.

Record Feedback := mkFeedback {
  unmasked_values : list f64;
  strata : option StratumAssignments
}.

Definition feedback_default : Feedback := mkFeedback [] None.
Definition feedback_new (values : list f64) : Feedback := mkFeedback values None.
Definition feedback_len (f : Feedback) : usize := zlen (unmasked_values f).
Definition feedback_is_empty (f : Feedback) : bool := feedback_len f =? 0.

(** [values]: misses become zero. *)
Definition feedback_values (f : Feedback) : list f64 :=
  match strata f with
  | None => unmasked_values f
  | Some s =>
      map (fun '(value, requested, actual) => if requested =? actual then value else 0%float)
          (zip (zip (unmasked_values f) (requested s)) (actual s))
  end.

(** The condition under which [validate] rejects the stratum metadata of a
    draw of [len] samples. *)
Definition strata_invalid (len : usize) (s : StratumAssignments) : bool :=
  (match prefixes s with [] => true | _ => false end)
  || existsb (fun p => (match p with [] => true | _ => false end) || existsb (fun v => v <? 0) p)
             (prefixes s)
  || existsb (fun '(p, q) => lex_geb p q || starts_with q p) (windows2 (prefixes s))
  || negb (zlen (requested s) =? len)
  || negb (zlen (actual s) =? len)
  || existsb (fun k => k >=? zlen (prefixes s)) (requested s ++ actual s).

Definition feedback_validate (f : Feedback) : result EngineError unit :=
  if existsb (fun value => negb (PrimFloat.is_finite value)) (unmasked_values f) then
    Err (Eval "non-finite training feedback")
  else if match strata f with Some s => strata_invalid (feedback_len f) s | None => false end then
    Err (Eval "invalid feedback stratum assignments")
  else Ok tt.

Definition prefixes_eqb (a b : list (list Z)) : bool := bool_decide (a = b).

(** [append]: the draw assembled so far is returned unchanged with the error. *)
Definition feedback_append (self other : Feedback) : result EngineError Feedback :=
  let? _ := feedback_validate other in
  if feedback_is_empty self then Ok other
  else
    let? s :=
      match strata self, strata other with
      | None, None => Ok None
      | Some a, Some b =>
          if prefixes_eqb (prefixes a) (prefixes b) then
            Ok (Some (mkStratumAssignments (prefixes a) (requested a ++ requested b)
                        (actual a ++ actual b)))
          else Err (Eval "inconsistent feedback stratum layout within a draw")
      | _, _ => Err (Eval "inconsistent feedback stratum layout within a draw")
      end in
    Ok (mkFeedback (unmasked_values self ++ unmasked_values other) s).

(** [requested_prefixes], [actual_prefixes]: the tuples the indices stand for. *)
Definition requested_prefixes (s : StratumAssignments) : option (list (list Z)) :=
  mapM (zget (prefixes s)) (requested s).
Definition actual_prefixes (s : StratumAssignments) : option (list (list Z)) :=
  mapM (zget (prefixes s)) (actual s).

(** ** Lemmas *)

(** What [validate] accepts, as a proposition. *)
Definition valid_strata (len : Z) (s : StratumAssignments) : Prop :=
  prefixes s <> [] /\
  Forall (fun p => p <> [] /\ Forall (fun v => 0 <= v) p) (prefixes s) /\
  prefix_table (prefixes s) /\
  zlen (requested s) = len /\ zlen (actual s) = len /\
  Forall (fun k => k < zlen (prefixes s)) (requested s ++ actual s).

Definition valid_feedback (f : Feedback) : Prop :=
  Forall (fun v => PrimFloat.is_finite v = true) (unmasked_values f) /\
  match strata f with Some s => valid_strata (feedback_len f) s | None => True end.

Lemma strata_invalid_spec len s : strata_invalid len s = false <-> valid_strata len s.
Proof.
  unfold strata_invalid, valid_strata.
  rewrite !orb_false_iff, !existsb_false, !negb_false_iff, !Z.eqb_eq, prefix_table_windows, forallb_True_iff.
  rewrite (Forall_ext _ (fun p : list Z => p <> [] /\ Forall (fun v => 0 <= v) p) (prefixes s)).
  2:{ intros p. rewrite orb_false_iff, existsb_false.
      rewrite (Forall_ext _ (fun v => 0 <= v) p) by (intros; apply Z.ltb_ge).
      destruct p; intuition congruence. }
  rewrite (Forall_ext _ (fun k => k < zlen (prefixes s)) (requested s ++ actual s)).
  2:{ intros k. rewrite Z.geb_leb. apply Z.leb_gt. }
  rewrite (Forall_ext _ (fun x : list Z * list Z =>
      (let '(p, q) := x in negb (lex_geb p q || starts_with q p)) = true) (windows2 (prefixes s))).
  2:{ intros [p q]. by rewrite negb_true_iff. }
  destruct (prefixes s); intuition congruence.
Qed.

Lemma feedback_validate_spec f : feedback_validate f = Ok tt <-> valid_feedback f.
Proof.
  unfold feedback_validate, valid_feedback.
  destruct (existsb _ (unmasked_values f)) eqn:E.
  - split; [done|]. intros [Hv _]. exfalso.
    apply existsb_exists in E as (v & Hin & Hfin). rewrite Forall_forall in Hv.
    rewrite Hv in Hfin; [done|]. by apply list_elem_of_In.
  - rewrite existsb_false in E.
    assert (Forall (fun v => PrimFloat.is_finite v = true) (unmasked_values f)).
    { eapply Forall_impl; [exact E|]. intros v. apply negb_false_iff. }
    destruct (strata f) as [s|]; [|naive_solver].
    destruct (strata_invalid (feedback_len f) s) eqn:Es.
    + split; [done|]. intros [_ Hs]. apply strata_invalid_spec in Hs. congruence.
    + apply strata_invalid_spec in Es. naive_solver.
Qed.

(** Both operands' metadata, when both are present, concatenate. *)
Lemma feedback_append_valid self other f :
  (valid_feedback self \/ unmasked_values self = []) ->
  feedback_append self other = Ok f -> valid_feedback f.
Proof.
  unfold feedback_append. intros Hself H.
  apply result_bind_ok in H as ([] & Ho%feedback_validate_spec & H).
  unfold feedback_is_empty, feedback_len in H. destruct (zlen _ =? 0) eqn:E; [by simplify_eq|].
  destruct Hself as [[Hf Hs]|Hnil]; [|by rewrite Hnil in E].
  destruct Ho as [Hf' Hs']. apply result_bind_ok in H as (s & Hs0 & ?). simplify_eq.
  split; simpl; [by apply Forall_app|].
  destruct (strata self) as [a|], (strata other) as [b|]; simplify_eq; simpl; [|done].
  unfold prefixes_eqb in Hs0. case_bool_decide as Hp; simplify_eq. unfold feedback_len in *. simpl in *.
  unfold valid_strata in *. simpl. rewrite !zlen_app. rewrite Hp in *.
  rewrite !Forall_app in *. intuition lia.
Qed.
