(* ===== verification/Config.v ===== *)
(** src/core/run_spec.rs and the projection part of src/core/tasks.rs: the
    accumulator configuration and its validation. Strings are their UTF-8
    bytes; [trim] removes Unicode white space, as [str::trim] does. *)
From S2P Require Import Prelude.
From Stdlib Require Import Ascii.
From Stdlib Require Strings.String.

(** ** [str::trim] *)

Definition code (a : ascii) : Z := Z.of_N (N_of_ascii a).

(** The one-, two- and three-byte encodings of the code points with the
    property White_Space. *)
Definition white1 (a : ascii) : bool := ((9 <=? code a) && (code a <=? 13)) || (code a =? 32).
Definition white2 (a b : ascii) : bool := (code a =? 194) && ((code b =? 133) || (code b =? 160)).
Definition white3 (a b c : ascii) : bool :=
  ((code a =? 225) && (code b =? 154) && (code c =? 128))
  || ((code a =? 226) && (code b =? 128)
      && (((128 <=? code c) && (code c <=? 138)) || (code c =? 168) || (code c =? 169) || (code c =? 175)))
  || ((code a =? 226) && (code b =? 129) && (code c =? 159))
  || ((code a =? 227) && (code b =? 128) && (code c =? 128)).

Fixpoint trim_front (reversed : bool) (l : list ascii) : list ascii :=
  match l with
  | [] => []
  | a :: l1 =>
      if white1 a then trim_front reversed l1
      else match l1 with
           | [] => l
           | b :: l2 =>
               if (if reversed then white2 b a else white2 a b) then trim_front reversed l2
               else match l2 with
                    | [] => l
                    | c :: l3 =>
                        if (if reversed then white3 c b a else white3 a b c) then trim_front reversed l3 else l
                    end
           end
  end.

Definition trim (s : string) : string :=
  Strings.String.string_of_list_ascii (rev (trim_front true (rev (trim_front false (Strings.String.list_ascii_of_string s))))).

Definition is_empty (s : string) : bool := match s with EmptyString => true | _ => false end.

(** [str::parse::<usize>]: an optional plus sign, then digits. *)
Definition digit (a : ascii) : option Z :=
  if (48 <=? code a) && (code a <=? 57) then Some (code a - 48) else None.
Fixpoint digits_value (acc : Z) (s : string) : option Z :=
  match s with
  | EmptyString => Some acc
  | String a s =>
      d ← digit a;
      let acc := acc * 10 + d in
      if acc <=? usize_max then digits_value acc s else None
  end.
Definition parse_usize (s : string) : option usize :=
  match s with
  | EmptyString => None
  | String a rest =>
      if code a =? 43 then (if is_empty rest then None else digits_value 0 rest) else digits_value 0 s
  end.

Example trim_cases : map trim ["  a b	"; " "; ""; "x"]%string = ["a b"; ""; ""; "x"]%string.
Proof. vm_compute. reflexivity. Qed.
Example parse_usize_cases :
  map parse_usize ["7"; "+12"; "-1"; "+"; ""; "18446744073709551616"; "1a"]%string
  = [Some 7; Some 12; None; None; None; None; None].
Proof. vm_compute. reflexivity. Qed.

(** ** Discrete projections *)

Definition DEFAULT_DISCRETE_PROJECTION_MAX_TOTAL_BINS : usize := 4096.

Inductive DiscreteProjectionNormalization := Contribution | ConditionalMean.

(** [fixed_dims]: the entries of the map in key order. *)
Record NamedDiscreteProjection := mkNamedDiscreteProjection {
  ndp_name : string;
  ndp_dims : list usize;
  fixed_dims : list (string * i64)
}.

Record DiscreteProjectionConfig := mkDiscreteProjectionConfig {
  normalization : DiscreteProjectionNormalization;
  streams : list string;
  items : list NamedDiscreteProjection
}.

#[export] Instance Normalization_eq_dec : EqDecision DiscreteProjectionNormalization.
Proof. solve_decision. Defined.
#[export] Instance NamedDiscreteProjection_eq_dec : EqDecision NamedDiscreteProjection.
Proof. solve_decision. Defined.
#[export] Instance DiscreteProjectionConfig_eq_dec : EqDecision DiscreteProjectionConfig.
Proof. solve_decision. Defined.

(** The loops over a [BTreeSet] that stop at the first repeated entry. *)
Fixpoint first_duplicate {A} `{EqDecision A} (seen l : list A) : option A :=
  match l with
  | [] => None
  | x :: l => if bool_decide (x ∈ seen) then Some x else first_duplicate (x :: seen) l
  end.

Fixpoint fixed_dims_validate (dims : list usize) (l : list (string * i64)) : result string unit :=
  match l with
  | [] => Ok tt
  | (raw_dim, _) :: l =>
      let? dim := ok_or "fixed_dims key is not a non-negative integer dimension index"%string
                    (parse_usize raw_dim) in
      if bool_decide (dim ∈ dims) then Err "dimension used in both dims and fixed_dims"%string
      else fixed_dims_validate dims l
  end.

Definition named_projection_validate (p : NamedDiscreteProjection) : result string unit :=
  let trimmed := trim (ndp_name p) in
  if is_empty trimmed then Err "items.name must be non-empty"%string
  else if negb (String.eqb trimmed (ndp_name p)) then Err "items.name cannot have leading/trailing whitespace"%string
  else match ndp_dims p with
       | [] => Err "items.dims must contain at least one dimension"%string
       | dims =>
           match first_duplicate [] dims with
           | Some _ => Err "repeated dims entry"%string
           | None => fixed_dims_validate dims (fixed_dims p)
           end
       end.

Fixpoint streams_validate (seen l : list string) : result string unit :=
  match l with
  | [] => Ok tt
  | stream :: l =>
      let trimmed := trim stream in
      if is_empty trimmed then Err "streams must not contain empty names"%string
      else if negb (String.eqb trimmed stream) then Err "streams entries cannot have leading/trailing whitespace"%string
      else if bool_decide (stream ∈ seen) then Err "streams contains duplicate name"%string
      else streams_validate (stream :: seen) l
  end.

Fixpoint items_validate (names : list string) (l : list NamedDiscreteProjection) : result string unit :=
  match l with
  | [] => Ok tt
  | item :: l =>
      let? _ := named_projection_validate item in
      if bool_decide (ndp_name item ∈ names) then Err "items contains duplicate name"%string
      else items_validate (ndp_name item :: names) l
  end.

Definition projections_validate (c : DiscreteProjectionConfig) : result string unit :=
  match items c with
  | [] => Err "items must contain at least one entry"%string
  | items => let? _ := streams_validate [] (streams c) in items_validate [] items
  end.

(** ** Accumulators *)

Inductive AccumulatorMomentConfig := MaxOrder2 | MaxOrder4.
#[export] Instance Moment_eq_dec : EqDecision AccumulatorMomentConfig.
Proof. solve_decision. Defined.
Definition max_order (m : AccumulatorMomentConfig) : Z := match m with MaxOrder2 => 2 | MaxOrder4 => 4 end.
Definition moment_try_from (value : Z) : result string AccumulatorMomentConfig :=
  if value =? 2 then Ok MaxOrder2 else if value =? 4 then Ok MaxOrder4
  else Err "accumulator moments must be 2 or 4"%string.

Inductive TrainingProjection := Component (name : string) | Norm.
#[export] Instance TrainingProjection_eq_dec : EqDecision TrainingProjection.
Proof. solve_decision. Defined.

Inductive AccumulatorConfig :=
| CEmpty
| CVector (components : list string) (training_projection : TrainingProjection)
    (discrete_projections : option DiscreteProjectionConfig) (moments : AccumulatorMomentConfig)
| CGammaloop
| CFullVector (components : list string).
#[export] Instance AccumulatorConfig_eq_dec : EqDecision AccumulatorConfig.
Proof. solve_decision. Defined.

Definition scalar_components : list string := ["value"%string].
Definition config_vector (components : list string) (projection : TrainingProjection) : AccumulatorConfig :=
  CVector components projection None MaxOrder2.
Definition config_scalar : AccumulatorConfig := config_vector scalar_components (Component "value").

Definition config_components (c : AccumulatorConfig) : option (list string) :=
  match c with CVector components _ _ _ | CFullVector components => Some components | _ => None end.
Definition is_scalar (c : AccumulatorConfig) : bool :=
  match config_components c with Some cs => bool_decide (cs = scalar_components) | None => false end.
Definition config_discrete_projections (c : AccumulatorConfig) : option DiscreteProjectionConfig :=
  match c with CVector _ _ p _ => p | _ => None end.
Definition config_moments (c : AccumulatorConfig) : AccumulatorMomentConfig :=
  match c with CVector _ _ _ m => m | _ => MaxOrder2 end.

Definition training_projection_name : string := "training_projection".

Fixpoint component_names_ok (seen l : list string) : bool :=
  match l with
  | [] => true
  | name :: l =>
      negb (is_empty (trim name) || String.eqb name training_projection_name || bool_decide (name ∈ seen))
      && component_names_ok (name :: seen) l
  end.

Definition names_error : string :=
  "accumulator component names must be non-empty, unique, and not 'training_projection'".

Definition config_validate (c : AccumulatorConfig) : result string unit :=
  let? _ :=
    match config_components c with
    | Some [] => Err "accumulator components must not be empty"%string
    | Some components => if component_names_ok [] components then Ok tt else Err names_error
    | None => Ok tt
    end in
  match c with
  | CVector components projection projections _ =>
      let? _ :=
        match projection with
        | Component name =>
            if bool_decide (name ∈ components) then Ok tt
            else Err "training projection references unknown component"%string
        | Norm => Ok tt
        end in
      match projections with
      | None => Ok tt
      | Some config =>
          let? _ := projections_validate config in
          if forallb (fun stream => String.eqb stream training_projection_name || bool_decide (stream ∈ components))
               (streams config)
          then Ok tt
          else Err "discrete_projections.streams references unknown vector stream"%string
      end
  | _ => Ok tt
  end.

(** ** Lemmas *)

Lemma component_names_ok_spec seen l :
  component_names_ok seen l = true <->
  Forall (fun n => is_empty (trim n) = false /\ n <> training_projection_name) l /\
  NoDup l /\ (forall n, n ∈ seen -> n ∉ l).
Proof.
  revert seen. induction l as [|n l IH]; intros seen; simpl.
  - split; [intros _|done]. split_and!; [constructor..|]. intros; apply not_elem_of_nil.
  - rewrite andb_true_iff, negb_true_iff, !orb_false_iff, bool_decide_eq_false, String.eqb_neq, IH,
      Forall_cons, NoDup_cons.
    setoid_rewrite not_elem_of_cons. setoid_rewrite elem_of_cons. naive_solver.
Qed.

(** What [validate] accepts of the layout: at least one component, distinct
    names, and a projection on an existing one. *)
Definition layout_ok (components : list string) (projection : TrainingProjection) : Prop :=
  components <> [] /\ NoDup components /\
  Forall (fun n => is_empty (trim n) = false /\ n <> training_projection_name) components /\
  match projection with Component name => name ∈ components | Norm => True end.

Lemma config_vector_validate components projection :
  config_validate (config_vector components projection) = Ok tt <-> layout_ok components projection.
Proof.
  unfold config_validate, layout_ok. simpl. destruct components as [|c cs]; [naive_solver|].
  pose proof (component_names_ok_spec [] (c :: cs)) as Hspec.
  destruct (component_names_ok _ _).
  - destruct (proj1 Hspec eq_refl) as (? & ? & _).
    destruct projection; simpl; [case_bool_decide|]; naive_solver.
  - simpl. split; [done|]. intros (_ & ? & ? & _). exfalso.
    enough (false = true) by done. apply Hspec. split_and!; [done..|set_solver].
Qed.

Lemma config_validate_layout components projection projections moments :
  config_validate (CVector components projection projections moments) = Ok tt ->
  layout_ok components projection.
Proof.
  intros H. apply config_vector_validate. unfold config_validate in *. simpl in *.
  destruct (match components with [] => _ | _ => _ end) as [[]|]; [|done]. simpl in *.
  apply result_bind_ok in H as ([] & -> & _). done.
Qed.
