(* ===== verification/AccumulatorTrait.v ===== *)
(** The trait [Accumulator] of src/evaluation/accumulator/mod.rs as a class,
    and what its clients rely on: accepted operands merge into an accepted
    accumulator whose sample count is the sum, and a failing merge leaves the
    destination as it was. *)
From S2P Require Import Prelude Errors.

Class Accumulator (S : Type) := {
  sample_count : S -> i64;
  merge : S -> SE S EngineError unit
}.

Class AccumulatorLaws (S : Type) `{Accumulator S} := {
  accepted : S -> Prop;
  sample_count_nonneg a : accepted a -> 0 <= sample_count a;
  merge_accepted a b c :
    accepted a -> accepted b -> merge b a = (c, Ok tt) ->
    accepted c /\ sample_count c = sample_count a + sample_count b;
  merge_atomic a b c e :
    accepted a -> accepted b -> merge b a = (c, Err e) -> c = a
}.

(** The loop of the sampler runner over the results of one fetch:
    [for batch in batches { state.merge(batch.result.accumulator)?; }] *)
Fixpoint merge_all {S} `{Accumulator S} (l : list S) : SE S EngineError unit :=
  match l with
  | [] => se_ret tt
  | b :: l => merge b ;! merge_all l
  end.

Lemma merge_all_accepted {S} `{AccumulatorLaws S} (l : list S) (a c : S) :
  accepted a -> Forall accepted l -> merge_all l a = (c, Ok tt) ->
  accepted c /\ sample_count c = sample_count a + zsum (map sample_count l).
Proof.
  intros Ha Hl. revert a Ha. induction Hl as [|b l Hb Hl IH]; intros a Ha Hm; cbn [merge_all map] in *; rewrite ?zsum_nil, ?zsum_cons.
  - unfold se_ret in Hm. simplify_eq. split; [done|lia].
  - unfold se_bind in Hm. destruct (merge b a) as [a' [[]|e]] eqn:E; [|done].
    destruct (merge_accepted a b a' Ha Hb E) as [Ha' Hc].
    destruct (IH a' Ha' Hm) as [Hok Hc']. split; [done|lia].
Qed.
