(* ===== verification/Scalar.v ===== *)
(** src/evaluation/accumulator/scalar.rs and discrete_bins.rs: moment sums of
    weighted contributions with their extreme samples, the per-bin statistics,
    validated merging, and the estimates read off the sums.

    A bin's state is built by [plain] and fed by [add_plain_sample], so it has
    no bins of its own: [ScalarCore] is the state without the bin table, and
    [ScalarAccumulatorState] adds it. Methods on [&mut self] are [SE] actions,
    so the state left behind by a failing call is part of the model. The order
    in which a [BTreeMap] of bins is visited decides only which of two
    messages an invalid table reports. *)
From S2P Require Import Prelude Floats Errors Batch Config AccumulatorTrait.

(** ** State *)

(** The five running sums, [sums]. *)
Record Sums := mkSums {
  sum_weighted_value : f64;
  sum_abs : f64;
  sum_sq : f64;
  sum_cu : f64;
  sum_four : f64
}.
Definition sums_zero : Sums := mkSums 0 0 0 0 0.

Record ScalarCore := mkScalarCore {
  sc_projections : option DiscreteProjectionConfig;
  sc_moments : AccumulatorMomentConfig;
  count : i64;
  sums : Sums;
  max_weighted_positive : f64;
  max_weighted_negative : f64;
  max_weighted_positive_sample : option DiagnosticSample;
  max_weighted_negative_sample : option DiagnosticSample
}.

Record DiscreteProjectionBinState := mkBin {
  bin_discrete : list i64;
  bin_state : ScalarCore
}.

Record ScalarAccumulatorState := mkScalar {
  core : ScalarCore;
  discrete_bins : gmap string DiscreteProjectionBinState;
  discrete_bins_overflow_count : usize
}.

Definition core_from_config (projections : option DiscreteProjectionConfig) (moments : AccumulatorMomentConfig)
    : ScalarCore :=
  mkScalarCore projections moments 0 sums_zero 0 0 None None.
Definition core_plain : ScalarCore := core_from_config None MaxOrder2.
Definition scalar_from_config (projections : option DiscreteProjectionConfig)
    (moments : AccumulatorMomentConfig) : ScalarAccumulatorState :=
  mkScalar (core_from_config projections moments) ∅ 0.
Definition scalar_plain : ScalarAccumulatorState := scalar_from_config None MaxOrder2.

(** ** Sums *)

Definition finite_sum_error : string := "non-finite contribution or accumulated sum".

Definition checked_add (left right : f64) : result EngineError f64 :=
  let sum := PrimFloat.add left right in
  if negb (PrimFloat.is_finite left) || negb (PrimFloat.is_finite right) || negb (PrimFloat.is_finite sum)
  then Err (Eval finite_sum_error) else Ok sum.

Definition checked_sums (left right : Sums) : result EngineError Sums :=
  let? w := checked_add (sum_weighted_value left) (sum_weighted_value right) in
  let? a := checked_add (sum_abs left) (sum_abs right) in
  let? s := checked_add (sum_sq left) (sum_sq right) in
  let? c := checked_add (sum_cu left) (sum_cu right) in
  let? f := checked_add (sum_four left) (sum_four right) in
  Ok (mkSums w a s c f).

Definition count_error : EngineError := Engine.Eval "sample count overflow".

Definition weighted_value (value : f64) (point : Point) : f64 :=
  PrimFloat.mul value (PrimFloat.abs (total_weight point)).

Definition sums_with_sample (self : ScalarCore) (value : f64) (point : Point) : result EngineError Sums :=
  let? _ := ok_or count_error (i64_checked_add (count self) 1) in
  let weighted := weighted_value value point in
  let square := PrimFloat.mul weighted weighted in
  let '(cube, fourth) :=
    match sc_moments self with
    | MaxOrder4 => (PrimFloat.mul square weighted, PrimFloat.mul square square)
    | MaxOrder2 => (0%float, 0%float)
    end in
  checked_sums (sums self) (mkSums weighted (PrimFloat.abs weighted) square cube fourth).

(** ** Extreme contributions *)

Definition is_none {A} (o : option A) : bool := match o with None => true | Some _ => false end.

Definition update_extrema (weighted : f64) (point : Point) (evaluation : option SampleEvaluation)
    (stratum : option StratumPair) (c : ScalarCore) : ScalarCore :=
  let sample := Some (diagnostic_sample_new point evaluation stratum) in
  let '(pos, pos_sample) :=
    if PrimFloat.leb 0 weighted
       && (is_none (max_weighted_positive_sample c) || PrimFloat.ltb (max_weighted_positive c) weighted)
    then (weighted, sample) else (max_weighted_positive c, max_weighted_positive_sample c) in
  let '(neg, neg_sample) :=
    if PrimFloat.ltb weighted 0
       && (is_none (max_weighted_negative_sample c) || PrimFloat.ltb weighted (max_weighted_negative c))
    then (weighted, sample) else (max_weighted_negative c, max_weighted_negative_sample c) in
  mkScalarCore (sc_projections c) (sc_moments c) (count c) (sums c) pos neg pos_sample neg_sample.

Definition merge_positive_extrema (target_value : f64) (target_point : option DiagnosticSample)
    (candidate_value : f64) (candidate_point : option DiagnosticSample) : f64 * option DiagnosticSample :=
  let has_candidate := negb (is_none candidate_point) || negb (PrimFloat.eqb candidate_value 0) in
  if has_candidate && (is_none target_point || PrimFloat.ltb target_value candidate_value)
  then (candidate_value, candidate_point) else (target_value, target_point).

Definition merge_negative_extrema (target_value : f64) (target_point : option DiagnosticSample)
    (candidate_value : f64) (candidate_point : option DiagnosticSample) : f64 * option DiagnosticSample :=
  let has_candidate := negb (is_none candidate_point) || negb (PrimFloat.eqb candidate_value 0) in
  if has_candidate && (is_none target_point || PrimFloat.ltb candidate_value target_value)
  then (candidate_value, candidate_point) else (target_value, target_point).

(** ** Ingestion *)

Definition accept_sample (value : f64) (point : Point) (evaluation : option SampleEvaluation)
    (stratum : option StratumPair) (s : Sums) (c : ScalarCore) : ScalarCore :=
  update_extrema (weighted_value value point) point evaluation stratum
    (mkScalarCore (sc_projections c) (sc_moments c) (count c + 1) s
       (max_weighted_positive c) (max_weighted_negative c)
       (max_weighted_positive_sample c) (max_weighted_negative_sample c)).

Definition add_plain_sample (value : f64) (point : Point) (evaluation : option SampleEvaluation)
    (stratum : option StratumPair) : SE ScalarCore EngineError unit :=
  let! self := se_get id in
  let! s := se_lift (sums_with_sample self value point) in
  se_modify (accept_sample value point evaluation stratum s).

(** [discrete_bin_key]: the decimal coordinates joined by commas. *)
Definition show_digit (d : Z) : string := String (Ascii.ascii_of_N (Z.to_N (48 + d))) EmptyString.
Fixpoint show_nonneg (fuel : nat) (z : Z) (acc : string) : string :=
  match fuel with
  | O => acc
  | S fuel =>
      let acc := String.append (show_digit (z mod 10)) acc in
      if z <? 10 then acc else show_nonneg fuel (z / 10) acc
  end.
Definition show_i64 (z : i64) : string :=
  if z <? 0 then String.append "-" (show_nonneg 20 (- z) "") else show_nonneg 20 z "".
Definition discrete_bin_key (discrete : list i64) : string :=
  match map show_i64 discrete with
  | [] => ""
  | s :: ss => fold_left (fun acc x => String.append acc (String.append "," x)) ss s
  end.

Definition set_bin (key : string) (b : DiscreteProjectionBinState) (s : ScalarAccumulatorState)
    : ScalarAccumulatorState :=
  mkScalar (core s) (<[key := b]> (discrete_bins s)) (discrete_bins_overflow_count s).
Definition count_overflow (s : ScalarAccumulatorState) : ScalarAccumulatorState :=
  mkScalar (core s) (discrete_bins s) (discrete_bins_overflow_count s + 1).
Definition set_core (c : ScalarCore) (s : ScalarAccumulatorState) : ScalarAccumulatorState :=
  mkScalar c (discrete_bins s) (discrete_bins_overflow_count s).

Definition upsert_scalar_discrete_bin (discrete : list i64) (value : f64) (point : Point)
    (evaluation : option SampleEvaluation) (stratum : option StratumPair)
    : SE ScalarAccumulatorState EngineError unit :=
  fun s =>
    let key := discrete_bin_key discrete in
    let bins := discrete_bins s in
    if is_none (bins !! key) && (DEFAULT_DISCRETE_PROJECTION_MAX_TOTAL_BINS <=? Z.of_nat (size bins))
    then (count_overflow s, Ok tt)
    else
      let entry := default (mkBin discrete core_plain) (bins !! key) in
      let '(c, r) := add_plain_sample value point evaluation stratum (bin_state entry) in
      (set_bin key (mkBin (bin_discrete entry) c) s, r).

(** [if !point.discrete.is_empty() { upsert_scalar_discrete_bin(..)? }] *)
Definition project_point (value : f64) (point : Point)
    (evaluation : option SampleEvaluation) (stratum : option StratumPair)
    : SE ScalarAccumulatorState EngineError unit :=
  match discrete point with
  | [] => se_ret tt
  | d => upsert_scalar_discrete_bin d value point evaluation stratum
  end.

Definition add_sample_with_details (value : f64) (point : Point) (evaluation : option SampleEvaluation)
    (stratum : option StratumPair) : SE ScalarAccumulatorState EngineError unit :=
  let! self := se_get core in
  let! s := se_lift (sums_with_sample self value point) in
  project_point value point evaluation stratum ;!
  se_modify (fun st => set_core (accept_sample value point evaluation stratum s (core st)) st).

Definition add_sample (value : f64) (point : Point) : SE ScalarAccumulatorState EngineError unit :=
  add_sample_with_details value point None None.

(** ** Validation *)

Definition core_validate (c : ScalarCore) : result EngineError unit :=
  let? _ := checked_sums sums_zero (sums c) in
  if count c <? 0 then Err (Eval "negative accumulator sample count") else Ok tt.

Definition bins_validate (bins : gmap string DiscreteProjectionBinState) : result EngineError unit :=
  try_fold (fun _ b => core_validate (bin_state b)) tt (map snd (map_to_list bins)).

Definition scalar_validate (s : ScalarAccumulatorState) : result EngineError unit :=
  let? _ := core_validate (core s) in
  bins_validate (discrete_bins s).

Definition core_validate_merge (self other : ScalarCore) : result EngineError unit :=
  if negb (bool_decide (sc_projections self = sc_projections other))
     || negb (max_order (sc_moments self) =? max_order (sc_moments other)) then
    Err (EngineE "incompatible scalar accumulator configuration")
  else
    let? _ := core_validate self in
    let? _ := core_validate other in
    let? _ := checked_sums (sums self) (sums other) in
    let? _ := ok_or count_error (i64_checked_add (count self) (count other)) in
    Ok tt.

Definition bins_validate_merge (self other : gmap string DiscreteProjectionBinState) : result EngineError unit :=
  try_fold (fun _ '(key, bin) =>
    match self !! key with
    | Some current => core_validate_merge (bin_state current) (bin_state bin)
    | None => Ok tt
    end) tt (map_to_list other).

Definition scalar_validate_merge (self other : ScalarAccumulatorState) : result EngineError unit :=
  if negb (bool_decide (sc_projections (core self) = sc_projections (core other)))
     || negb (max_order (sc_moments (core self)) =? max_order (sc_moments (core other))) then
    Err (EngineE "incompatible scalar accumulator configuration")
  else
    let? _ := scalar_validate self in
    let? _ := scalar_validate other in
    let? _ := checked_sums (sums (core self)) (sums (core other)) in
    let? _ := ok_or count_error (i64_checked_add (count (core self)) (count (core other))) in
    bins_validate_merge (discrete_bins self) (discrete_bins other).

(** ** Merging *)

Definition add_sums (a b : Sums) : Sums :=
  mkSums (PrimFloat.add (sum_weighted_value a) (sum_weighted_value b)) (PrimFloat.add (sum_abs a) (sum_abs b))
    (PrimFloat.add (sum_sq a) (sum_sq b)) (PrimFloat.add (sum_cu a) (sum_cu b))
    (PrimFloat.add (sum_four a) (sum_four b)).

Definition merge_plain (self other : ScalarCore) : ScalarCore :=
  let '(pos, pos_sample) :=
    merge_positive_extrema (max_weighted_positive self) (max_weighted_positive_sample self)
      (max_weighted_positive other) (max_weighted_positive_sample other) in
  let '(neg, neg_sample) :=
    merge_negative_extrema (max_weighted_negative self) (max_weighted_negative_sample self)
      (max_weighted_negative other) (max_weighted_negative_sample other) in
  mkScalarCore (sc_projections self) (sc_moments self) (count self + count other)
    (add_sums (sums self) (sums other)) pos neg pos_sample neg_sample.

Definition bin_merge_in_place (self other : DiscreteProjectionBinState) : DiscreteProjectionBinState :=
  mkBin (bin_discrete self) (merge_plain (bin_state self) (bin_state other)).

Definition merge_bins (self other : gmap string DiscreteProjectionBinState)
    : gmap string DiscreteProjectionBinState :=
  union_with (fun current candidate => Some (bin_merge_in_place current candidate)) self other.

Definition scalar_merge_plain (other : ScalarAccumulatorState) (self : ScalarAccumulatorState)
    : ScalarAccumulatorState :=
  mkScalar (merge_plain (core self) (core other)) (merge_bins (discrete_bins self) (discrete_bins other))
    (discrete_bins_overflow_count self + discrete_bins_overflow_count other).

Definition scalar_merge (other : ScalarAccumulatorState) : SE ScalarAccumulatorState EngineError unit :=
  let! self := se_get id in
  let! _ := se_lift (scalar_validate_merge self other) in
  se_modify (scalar_merge_plain other).

(** ** Estimates *)

Section estimates.
Context `{Libm}.

Definition mean_from_sums (sum : f64) (count : i64) : f64 :=
  if count <=? 0 then 0%float else PrimFloat.div sum (f64_of_Z count).

Definition variance_from_sums (sum sum_sq : f64) (count : i64) : f64 :=
  if count <=? 0 then 0%float
  else
    let count_f := f64_of_Z count in
    let mean := PrimFloat.div sum count_f in
    let second_moment := PrimFloat.div sum_sq count_f in
    if count <? 2 then 0%float
    else PrimFloat.div (PrimFloat.mul (f64_max (PrimFloat.sub second_moment (PrimFloat.mul mean mean)) 0) count_f)
           (PrimFloat.sub count_f 1).

Definition stderr_from_sums (sum sum_sq : f64) (count : i64) : option f64 :=
  if count >=? 2
  then Some (PrimFloat.sqrt (PrimFloat.div (variance_from_sums sum sum_sq count) (f64_of_Z count))) else None.

Definition finite_some (x : f64) : option f64 := if PrimFloat.is_finite x then Some x else None.

Definition variance_stderr_from_sums (s : Sums) (count : i64) : option f64 :=
  if (count <=? 1) || PrimFloat.eqb (sum_four s) 0 then None
  else
    let count_f := f64_of_Z count in
    let mean := PrimFloat.div (sum_weighted_value s) count_f in
    let second := PrimFloat.div (sum_sq s) count_f in
    let third := PrimFloat.div (sum_cu s) count_f in
    let fourth := PrimFloat.div (sum_four s) count_f in
    let variance := f64_max (second - mean * mean)%float 0 in
    let centered_fourth :=
      (fourth - 4 * mean * third + 6 * mean * mean * second - 3 * powi mean 4)%float in
    let variance_of_variance := (f64_max (centered_fourth - variance * variance) 0 / count_f)%float in
    finite_some (PrimFloat.sqrt variance_of_variance * count_f / (count_f - 1))%float.

Definition signal_to_noise_ratio (mean_abs abs_err : f64) : f64 :=
  if PrimFloat.eqb abs_err 0 && PrimFloat.ltb 0 mean_abs then PrimFloat.infinity
  else if PrimFloat.leb abs_err 0 then PrimFloat.nan
  else (mean_abs * mean_abs / (abs_err * abs_err))%float.

Definition reduced_square_deviation (variance mean_abs : f64) : f64 :=
  if PrimFloat.eqb mean_abs 0 then 0%float else (PrimFloat.sqrt (f64_max variance 0) / mean_abs)%float.

Definition reduced_square_deviation_stderr (variance : f64) (variance_stderr : option f64)
    (mean_abs mean_stderr : f64) : option f64 :=
  variance_stderr ← variance_stderr;
  if negb (PrimFloat.ltb 0 variance) || negb (PrimFloat.ltb 0 mean_abs) then None
  else
    let rsd := (PrimFloat.sqrt variance / mean_abs)%float in
    let relative_variance := (variance_stderr / (2 * variance))%float in
    let relative_mean := (mean_stderr / mean_abs)%float in
    finite_some (rsd * PrimFloat.sqrt (relative_variance * relative_variance + relative_mean * relative_mean))%float.

Definition mean (c : ScalarCore) : f64 := mean_from_sums (sum_weighted_value (sums c)) (count c).
Definition mean_abs (c : ScalarCore) : f64 := mean_from_sums (sum_abs (sums c)) (count c).
Definition mean_abs_stderr (c : ScalarCore) : option f64 :=
  stderr_from_sums (sum_abs (sums c)) (sum_sq (sums c)) (count c).
Definition variance (c : ScalarCore) : f64 :=
  variance_from_sums (sum_weighted_value (sums c)) (sum_sq (sums c)) (count c).
Definition stderr (c : ScalarCore) : option f64 :=
  stderr_from_sums (sum_weighted_value (sums c)) (sum_sq (sums c)) (count c).
Definition variance_stderr (c : ScalarCore) : option f64 := variance_stderr_from_sums (sums c) (count c).
Definition signal_to_noise (c : ScalarCore) : f64 :=
  match stderr c with Some error => signal_to_noise_ratio (mean_abs c) error | None => 0%float end.
Definition rsd (c : ScalarCore) : f64 := reduced_square_deviation (variance c) (mean_abs c).
Definition rsd_stderr (c : ScalarCore) : option f64 :=
  e ← stderr c; reduced_square_deviation_stderr (variance c) (variance_stderr c) (mean_abs c) e.

Definition ess (c : ScalarCore) : f64 :=
  let s := sums c in
  if (count c <=? 0) || PrimFloat.leb (sum_abs s) 0 || PrimFloat.leb (sum_sq s) 0
     || negb (PrimFloat.is_finite (sum_abs s)) || negb (PrimFloat.is_finite (sum_sq s))
  then 0%float
  else
    let normalized := (sum_abs s / PrimFloat.sqrt (sum_sq s) / PrimFloat.sqrt (f64_of_Z (count c)))%float in
    f64_clamp 0 1 (powi normalized 2).

Definition max_weight_impact (c : ScalarCore) : f64 :=
  if count c <=? 0 then 0%float
  else
    let denom := (PrimFloat.abs (mean c) * f64_of_Z (count c))%float in
    if negb (PrimFloat.is_finite denom) || PrimFloat.leb denom 0 then 0%float
    else
      let numer := f64_max (PrimFloat.abs (max_weighted_positive c)) (PrimFloat.abs (max_weighted_negative c)) in
      if negb (PrimFloat.is_finite numer) then 0%float else (numer / denom)%float.

Definition contribution_mean (b : DiscreteProjectionBinState) (total_count : i64) : f64 :=
  if total_count <=? 0 then 0%float
  else PrimFloat.div (sum_weighted_value (sums (bin_state b))) (f64_of_Z total_count).
Definition contribution_stderr (b : DiscreteProjectionBinState) (total_count : i64) : option f64 :=
  if total_count <? 2 then None
  else
    let n := f64_of_Z total_count in
    let mean := (sum_weighted_value (sums (bin_state b)) / n)%float in
    let variance := f64_max (sum_sq (sums (bin_state b)) / n - mean * mean)%float 0 in
    Some (PrimFloat.sqrt (variance / (n - 1)))%float.

End estimates.

(** ** Invariants *)

Definition sums_finite (s : Sums) : Prop :=
  PrimFloat.is_finite (sum_weighted_value s) = true /\ PrimFloat.is_finite (sum_abs s) = true /\
  PrimFloat.is_finite (sum_sq s) = true /\ PrimFloat.is_finite (sum_cu s) = true /\
  PrimFloat.is_finite (sum_four s) = true.

Definition core_ok (c : ScalarCore) : Prop := sums_finite (sums c) /\ 0 <= count c <= i64_max.

Definition scalar_ok (s : ScalarAccumulatorState) : Prop :=
  core_ok (core s) /\ map_Forall (fun _ b => core_ok (bin_state b)) (discrete_bins s).

(** The configuration an operation never changes. *)
Definition same_config (c d : ScalarCore) : Prop :=
  sc_projections c = sc_projections d /\ sc_moments c = sc_moments d.

Lemma checked_add_ok l r s :
  checked_add l r = Ok s <->
  s = PrimFloat.add l r /\ PrimFloat.is_finite l = true /\ PrimFloat.is_finite r = true /\
  PrimFloat.is_finite s = true.
Proof.
  unfold checked_add. split.
  - intros H. destruct (_ || _ || _) eqn:E; [done|]. injection H as <-.
    zbool. split_and!; congruence.
  - intros (-> & -> & -> & ->). done.
Qed.

Lemma checked_add_finite l r :
  PrimFloat.is_finite l = true -> PrimFloat.is_finite r = true -> PrimFloat.is_finite (PrimFloat.add l r) = true ->
  checked_add l r = Ok (PrimFloat.add l r).
Proof. intros. by apply checked_add_ok. Qed.

Lemma checked_sums_ok l r s :
  checked_sums l r = Ok s <-> s = add_sums l r /\ sums_finite l /\ sums_finite r /\ sums_finite s.
Proof.
  unfold checked_sums, sums_finite, add_sums. split.
  - intros H. inv_ok.
    repeat match goal with H : checked_add _ _ = Ok _ |- _ => apply checked_add_ok in H as (-> & ? & ? & ?) end.
    done.
  - intros (-> & (? & ? & ? & ? & ?) & (? & ? & ? & ? & ?) & (? & ? & ? & ? & ?)). cbn [sum_weighted_value sum_abs sum_sq sum_cu sum_four] in *.
    by rewrite !checked_add_finite.
Qed.

Lemma checked_sums_zero s : checked_sums sums_zero s = Ok (add_sums sums_zero s) <-> sums_finite s.
Proof.
  rewrite checked_sums_ok. split; [tauto|]. intros H. split; [done|]. split; [done|]. split; [done|].
  unfold sums_finite in *. simpl. destruct_and?. split_and!; by apply finite_add_zero.
Qed.

Lemma core_validate_spec c : core_validate c = Ok tt <-> sums_finite (sums c) /\ 0 <= count c.
Proof.
  unfold core_validate. rewrite result_bind_ok. split.
  - intros (s & Hs & Hc). apply checked_sums_ok in Hs as (_ & _ & ? & _).
    destruct (count c <? 0) eqn:E; zbool; [done|]. split; [done|lia].
  - intros [Hf Hc]. exists (add_sums sums_zero (sums c)). split; [by apply checked_sums_zero|].
    by rewrite (proj2 (Z.ltb_ge _ _)).
Qed.

Lemma try_fold_unit {E A} (f : unit -> A -> result E unit) l :
  try_fold f tt l = Ok tt <-> Forall (fun x => f tt x = Ok tt) l.
Proof.
  induction l as [|x l IH]; simpl; [naive_solver|].
  rewrite Forall_cons, <- IH, result_bind_ok. split.
  - by intros ([] & ? & ?).
  - intros []. by exists tt.
Qed.

Lemma bins_validate_spec bins :
  bins_validate bins = Ok tt <-> map_Forall (fun _ b => core_validate (bin_state b) = Ok tt) bins.
Proof.
  unfold bins_validate. rewrite try_fold_unit, map_Forall_to_list.
  change (map snd (map_to_list bins)) with (snd <$> map_to_list bins). rewrite Forall_fmap.
  apply Forall_ext. by intros [].
Qed.

Lemma scalar_validate_ok s : scalar_ok s -> scalar_validate s = Ok tt.
Proof.
  intros [[Hf Hc] Hb]. unfold scalar_validate. rewrite (proj2 (core_validate_spec (core s))) by (split; [done|lia]).
  simpl. apply bins_validate_spec. intros k b Hk. apply core_validate_spec.
  destruct (Hb k b Hk). split; [done|lia].
Qed.

Lemma i64_checked_add_ok a b n :
  i64_checked_add a b = Some n <-> n = a + b /\ i64_min <= n <= i64_max.
Proof.
  unfold i64_checked_add. split.
  - intros. break; zbool. split; [done|lia].
  - intros [-> [? ?]]. by rewrite !(proj2 (Z.leb_le _ _)).
Qed.

(** *** Ingestion *)

Lemma update_extrema_keeps w p e st c :
  sums (update_extrema w p e st c) = sums c /\ count (update_extrema w p e st c) = count c /\
  same_config (update_extrema w p e st c) c.
Proof. unfold update_extrema. by break. Qed.

Lemma sums_with_sample_ok c v p s :
  sums_with_sample c v p = Ok s -> sums_finite s /\ i64_min <= count c + 1 <= i64_max.
Proof.
  unfold sums_with_sample. intros H. inv_ok.
  match goal with H : i64_checked_add _ _ = Some _ |- _ => apply i64_checked_add_ok in H as [-> ?] end.
  destruct (sc_moments c); match goal with H : checked_sums _ _ = Ok _ |- _ => apply checked_sums_ok in H end; tauto.
Qed.

Lemma accept_sample_ok v p e st s c :
  sums_with_sample c v p = Ok s -> 0 <= count c ->
  core_ok (accept_sample v p e st s c) /\ count (accept_sample v p e st s c) = count c + 1 /\
  same_config (accept_sample v p e st s c) c.
Proof.
  intros [Hs Hc]%sums_with_sample_ok H0. unfold accept_sample.
  match goal with |- context [update_extrema ?w ?p ?e ?st ?c] =>
    destruct (update_extrema_keeps w p e st c) as (E1 & E2 & E3) end.
  unfold core_ok. rewrite E1, E2. split_and!; simpl; try done; lia.
Qed.

Lemma add_plain_sample_ok v p e st c c' r :
  core_ok c -> add_plain_sample v p e st c = (c', r) ->
  core_ok c' /\ same_config c' c /\
  match r with Ok _ => count c' = count c + 1 | Err _ => c' = c end.
Proof.
  intros Hc. unfold add_plain_sample, se_bind, se_get, se_lift, se_modify. cbn.
  destruct (sums_with_sample c v p) as [s|] eqn:E; intros; simplify_eq.
  - destruct (accept_sample_ok v p e st s c E) as (? & ? & ?); [apply Hc|]. done.
  - done.
Qed.

Lemma core_plain_ok : core_ok core_plain.
Proof. done. Qed.

Lemma upsert_ok d v p e st s s' r :
  map_Forall (fun _ b => core_ok (bin_state b)) (discrete_bins s) ->
  upsert_scalar_discrete_bin d v p e st s = (s', r) ->
  map_Forall (fun _ b => core_ok (bin_state b)) (discrete_bins s') /\ core s' = core s.
Proof.
  intros Hb. unfold upsert_scalar_discrete_bin. destruct (_ && _).
  { intros. simplify_eq. done. }
  destruct (add_plain_sample _ _ _ _ _) as [c r'] eqn:E. intros. simplify_eq. split; [|done].
  simpl. apply map_Forall_insert_2; [|done]. simpl.
  eapply add_plain_sample_ok in E as (? & _ & _); [done|].
  destruct (discrete_bins s !! _) as [b|] eqn:Eb; [by eapply Hb|apply core_plain_ok].
Qed.

Lemma project_point_ok v p e st s s' r :
  map_Forall (fun _ b => core_ok (bin_state b)) (discrete_bins s) ->
  project_point v p e st s = (s', r) ->
  map_Forall (fun _ b => core_ok (bin_state b)) (discrete_bins s') /\ core s' = core s.
Proof.
  unfold project_point. destruct (discrete p); [unfold se_ret; intros; by simplify_eq|apply upsert_ok].
Qed.

Lemma add_sample_with_details_ok v p e st s s' r :
  scalar_ok s -> add_sample_with_details v p e st s = (s', r) ->
  scalar_ok s' /\ same_config (core s') (core s) /\
  match r with Ok _ => count (core s') = count (core s) + 1 | Err _ => core s' = core s end.
Proof.
  intros [Hc Hb]. unfold add_sample_with_details, se_bind, se_get, se_lift, se_modify. cbn.
  destruct (sums_with_sample (core s) v p) as [m|] eqn:E; [|intros; simplify_eq; done].
  destruct (project_point v p e st s) as [s1 [[]|]] eqn:E1; intros; simplify_eq;
    apply project_point_ok in E1 as [Hb1 Hc1]; [|done| |done].
  - simpl. rewrite Hc1. destruct (accept_sample_ok v p e st m (core s) E) as (? & ? & ?); [apply Hc|]. done.
  - unfold scalar_ok. rewrite Hc1. done.
Qed.

(** *** Merging *)

Lemma merge_plain_keeps a b :
  sums (merge_plain a b) = add_sums (sums a) (sums b) /\ count (merge_plain a b) = count a + count b /\
  same_config (merge_plain a b) a.
Proof. unfold merge_plain. by destruct (merge_positive_extrema _ _ _ _), (merge_negative_extrema _ _ _ _). Qed.

Definition mergeable (a b : ScalarCore) : Prop :=
  sc_projections a = sc_projections b /\ sc_moments a = sc_moments b /\
  sums_finite (add_sums (sums a) (sums b)) /\ count a + count b <= i64_max.

Lemma max_order_inj a b : max_order a = max_order b <-> a = b.
Proof. by destruct a, b. Qed.

Lemma core_validate_merge_ok a b :
  core_ok a -> core_ok b -> core_validate_merge a b = Ok tt <-> mergeable a b.
Proof.
  intros [Ha Hca] [Hb Hcb]. unfold core_validate_merge, mergeable.
  rewrite (proj2 (core_validate_spec a)), (proj2 (core_validate_spec b)) by (split; [done|lia]). simpl.
  case_bool_decide; simpl; [|naive_solver].
  destruct (Z.eqb_spec (max_order (sc_moments a)) (max_order (sc_moments b))) as [E|E]; rewrite max_order_inj in E;
    simpl; [|naive_solver].
  rewrite result_bind_ok. setoid_rewrite checked_sums_ok. split.
  - intros (s & (-> & _ & _ & ?) & H'). inv_ok. apply i64_checked_add_ok in Heqo. naive_solver lia.
  - intros (_ & _ & ? & ?). eexists. split; [done|].
    rewrite (proj2 (i64_checked_add_ok (count a) (count b) (count a + count b))); [done|].
    unfold i64_min, i64_max in *. lia.
Qed.

Lemma merge_plain_ok a b : core_ok a -> core_ok b -> mergeable a b -> core_ok (merge_plain a b).
Proof.
  intros [_ ?] [_ ?] (_ & _ & ? & ?). destruct (merge_plain_keeps a b) as (E1 & E2 & _).
  unfold core_ok. rewrite E1, E2. split; [done|lia].
Qed.

(** Two accumulators whose merge the validation lets through. *)
Definition scalar_mergeable (a b : ScalarAccumulatorState) : Prop :=
  mergeable (core a) (core b) /\
  forall key x y, discrete_bins a !! key = Some x -> discrete_bins b !! key = Some y ->
    mergeable (bin_state x) (bin_state y).

Lemma bins_validate_merge_ok a b :
  map_Forall (fun _ x => core_ok (bin_state x)) a -> map_Forall (fun _ x => core_ok (bin_state x)) b ->
  bins_validate_merge a b = Ok tt <->
  forall key x y, a !! key = Some x -> b !! key = Some y -> mergeable (bin_state x) (bin_state y).
Proof.
  intros Ha Hb. unfold bins_validate_merge. rewrite try_fold_unit.
  rewrite (Forall_ext _ (uncurry (fun key bin => forall x, a !! key = Some x ->
             core_validate_merge (bin_state x) (bin_state bin) = Ok tt)) (map_to_list b)).
  2:{ intros [key y]. simpl. destruct (a !! key); naive_solver. }
  change (Forall (uncurry ?P) _) with (Forall (uncurry P) (map_to_list b)).
  rewrite <- map_Forall_to_list. unfold map_Forall. split.
  - intros H key x y Hx Hy. apply core_validate_merge_ok; eauto.
  - intros H key y Hy x Hx. apply core_validate_merge_ok; eauto.
Qed.

Lemma scalar_validate_merge_ok a b :
  scalar_ok a -> scalar_ok b -> scalar_validate_merge a b = Ok tt <-> scalar_mergeable a b.
Proof.
  intros Ha Hb. pose proof (core_validate_merge_ok (core a) (core b) (proj1 Ha) (proj1 Hb)) as Hcore.
  pose proof (bins_validate_merge_ok _ _ (proj2 Ha) (proj2 Hb)) as Hbins.
  unfold scalar_mergeable. rewrite <- Hcore, <- Hbins. clear Hcore Hbins.
  unfold scalar_validate_merge, core_validate_merge.
  rewrite !scalar_validate_ok by done.
  rewrite !(proj2 (core_validate_spec _)) by (split; [apply Ha || apply Hb | destruct Ha as [[??]?], Hb as [[??]?]; lia]).
  destruct (_ || _); simpl; [naive_solver|].
  destruct (checked_sums _ _); simpl; [|naive_solver].
  destruct (ok_or _ _); simpl; naive_solver.
Qed.

Lemma scalar_merge_valid a b :
  scalar_validate_merge a b = Ok tt -> scalar_merge b a = (scalar_merge_plain b a, Ok tt).
Proof. intros H. unfold scalar_merge, se_bind, se_get, se_lift, se_modify. simpl. by rewrite H. Qed.

Lemma scalar_merge_plain_ok a b :
  scalar_ok a -> scalar_ok b -> scalar_mergeable a b ->
  scalar_ok (scalar_merge_plain b a) /\
  count (core (scalar_merge_plain b a)) = count (core a) + count (core b) /\
  same_config (core (scalar_merge_plain b a)) (core a).
Proof.
  intros [Hca Hba] [Hcb Hbb] [Hm Hbins]. split_and!.
  - split; [by apply merge_plain_ok|]. simpl. intros key x. unfold merge_bins. rewrite lookup_union_with.
    destruct (discrete_bins a !! key) as [u|] eqn:Eu, (discrete_bins b !! key) as [v|] eqn:Ev; simpl;
      intros; simplify_eq; simpl; eauto.
    apply merge_plain_ok; eauto.
  - apply merge_plain_keeps.
  - apply merge_plain_keeps.
Qed.

Lemma scalar_merge_error a b c e : scalar_merge b a = (c, Err e) -> c = a.
Proof.
  unfold scalar_merge, se_bind, se_get, se_lift, se_modify. simpl.
  destruct (scalar_validate_merge a b); intros; by simplify_eq.
Qed.

#[export] Instance scalar_accumulator : Accumulator ScalarAccumulatorState := {
  sample_count s := count (core s);
  merge := scalar_merge
}.

Lemma scalar_merge_inv a b c :
  scalar_merge b a = (c, Ok tt) -> scalar_validate_merge a b = Ok tt /\ c = scalar_merge_plain b a.
Proof.
  unfold scalar_merge, se_bind, se_get, se_lift, se_modify. simpl.
  destruct (scalar_validate_merge a b) as [[]|]; intros; by simplify_eq.
Qed.

Lemma scalar_merge_ok a b c :
  scalar_ok a -> scalar_ok b -> scalar_merge b a = (c, Ok tt) ->
  scalar_ok c /\ count (core c) = count (core a) + count (core b) /\ same_config (core c) (core a).
Proof.
  intros Ha Hb [Hv ->]%scalar_merge_inv. apply scalar_merge_plain_ok; [done..|].
  by apply scalar_validate_merge_ok.
Qed.

#[export] Program Instance scalar_laws : AccumulatorLaws ScalarAccumulatorState := {
  accepted := scalar_ok
}.
Next Obligation. intros a [[_ ?] _]. cbn. lia. Qed.
Next Obligation. intros a b c Ha Hb Hm. pose proof (scalar_merge_ok a b c Ha Hb Hm) as (? & ? & _). by split. Qed.
Next Obligation. intros a b c e _ _. apply scalar_merge_error. Qed.

(** *** Accounting of the discrete bins *)

Definition bin_total (bins : gmap string DiscreteProjectionBinState) : Z :=
  map_fold (fun _ b acc => count (bin_state b) + acc) 0 bins.

Lemma bin_total_insert bins key b :
  bin_total (<[key := b]> bins) =
  bin_total bins + count (bin_state b) - match bins !! key with Some x => count (bin_state x) | None => 0 end.
Proof.
  assert (forall m : gmap string DiscreteProjectionBinState, forall k x, m !! k = None ->
            bin_total (<[k := x]> m) = count (bin_state x) + bin_total m) as Hnew.
  { intros m k x Hk. unfold bin_total. rewrite map_fold_insert_L; [done|intros; lia|done]. }
  destruct (bins !! key) as [x|] eqn:E; [|rewrite Hnew by done; lia].
  rewrite <- insert_delete_eq, Hnew by apply lookup_delete_eq.
  pose proof (Hnew (delete key bins) key x (lookup_delete_eq _ _)) as Hx.
  rewrite insert_delete_id in Hx by done. lia.
Qed.

Lemma bin_total_merge a b : bin_total (merge_bins a b) = bin_total a + bin_total b.
Proof.
  unfold merge_bins. induction b as [|key y b Hy IH] using map_ind.
  { rewrite (right_id_L ∅ (union_with _)). unfold bin_total. rewrite map_fold_empty. lia. }
  rewrite bin_total_insert, Hy.
  destruct (a !! key) as [x|] eqn:Ex.
  - rewrite <- (insert_id a key x Ex) at 1.
    rewrite <- (insert_union_with _ a b key x y (bin_merge_in_place x y)) by done.
    rewrite bin_total_insert, IH, lookup_union_with, Ex, Hy. simpl.
    destruct (merge_plain_keeps (bin_state x) (bin_state y)) as (_ & -> & _). lia.
  - rewrite <- insert_union_with_r by done.
    rewrite bin_total_insert, IH, lookup_union_with, Ex, Hy. simpl. lia.
Qed.

Lemma upsert_accounts d v p e st s s' :
  upsert_scalar_discrete_bin d v p e st s = (s', Ok tt) ->
  bin_total (discrete_bins s') + discrete_bins_overflow_count s' =
  bin_total (discrete_bins s) + discrete_bins_overflow_count s + 1.
Proof.
  unfold upsert_scalar_discrete_bin. destruct (_ && _).
  { intros. simplify_eq. simpl. lia. }
  destruct (add_plain_sample _ _ _ _ _) as [c r] eqn:E. intros. simplify_eq. simpl.
  rewrite bin_total_insert. simpl.
  unfold add_plain_sample, se_bind, se_get, se_lift, se_modify in E. cbn in E.
  destruct (sums_with_sample _ _ _); simplify_eq. unfold accept_sample.
  match goal with |- context [update_extrema ?w ?p ?e ?st ?c] =>
    destruct (update_extrema_keeps w p e st c) as (_ & -> & _) end. simpl.
  destruct (discrete_bins s !! _); simpl; lia.
Qed.

(** Accumulators built from an empty one by accepted samples and merges; the
    indices count the samples and those with discrete coordinates. *)
Inductive built : Z -> Z -> ScalarAccumulatorState -> Prop :=
| built_new projections moments : built 0 0 (scalar_from_config projections moments)
| built_add n k s v p e st s' :
    built n k s -> add_sample_with_details v p e st s = (s', Ok tt) ->
    built (n + 1) (k + match discrete p with [] => 0 | _ => 1 end) s'
| built_merge n1 k1 n2 k2 a b c :
    built n1 k1 a -> built n2 k2 b -> scalar_merge b a = (c, Ok tt) -> built (n1 + n2) (k1 + k2) c.

Lemma add_sample_accounts v p e st s s' :
  add_sample_with_details v p e st s = (s', Ok tt) ->
  bin_total (discrete_bins s') + discrete_bins_overflow_count s' =
  bin_total (discrete_bins s) + discrete_bins_overflow_count s + match discrete p with [] => 0 | _ => 1 end.
Proof.
  unfold add_sample_with_details, project_point, se_bind, se_get, se_lift, se_modify, se_ret. cbn.
  destruct (sums_with_sample _ _ _) as [m|]; [|done]. destruct (discrete p) as [|d ds].
  { intros. simplify_eq. simpl. lia. }
  destruct (upsert_scalar_discrete_bin _ _ _ _ _ _) as [s1 [[]|]] eqn:E; intros; simplify_eq. simpl.
  apply upsert_accounts in E. lia.
Qed.

(** accumulated statistics. However samples are ingested and accumulators
    merged, the state stays valid (finite sums, a count in range, valid bins),
    counts every sample once, and accounts for every sample with discrete
    coordinates exactly once: in a bin or in the overflow counter. *)
Theorem scalar_counts_every_sample n k s (Hb : built n k s) :
  scalar_validate s = Ok tt /\ 0 <= n <= i64_max /\ count (core s) = n /\
  bin_total (discrete_bins s) + discrete_bins_overflow_count s = k.
Proof.
  enough (scalar_ok s /\ count (core s) = n /\ bin_total (discrete_bins s) + discrete_bins_overflow_count s = k)
    as (Hok & Hn & Hk).
  { pose proof Hok as [[_ ?] _]. split_and!; [by apply scalar_validate_ok|lia..|done|done]. }
  induction Hb as [projections moments|n k s v p e st s' Hb (Hok & Hn & Hk) Hadd
                  |n1 k1 n2 k2 a b c _ (Ha & Hna & Hka) _ (Hb & Hnb & Hkb) Hm].
  - split_and!; done.
  - pose proof (add_sample_accounts _ _ _ _ _ _ Hadd).
    apply add_sample_with_details_ok in Hadd as (? & _ & ?); [|done]. split_and!; [done|lia..].
  - pose proof (scalar_merge_ok _ _ _ Ha Hb Hm) as (? & ? & _).
    apply scalar_merge_inv in Hm as [_ ->]. split_and!; [done|lia|].
    simpl. rewrite bin_total_merge. lia.
Qed.

(** Two samples in one state, one in another, merged. *)
Definition ex_point : Point := mkPoint [0.5%float] [1; 2] [mkWeightFactor "jacobian" 2].
Definition ex_state (values : list f64) : ScalarAccumulatorState :=
  fold_left (fun s v => (add_sample v ex_point s).1) values scalar_plain.

Lemma scalar_counts_every_sample_witness :
  count (core (scalar_merge (ex_state [3%float]) (ex_state [1; -2]%float)).1) = 3 /\
  scalar_validate (scalar_merge (ex_state [3%float]) (ex_state [1; -2]%float)).1 = Ok tt.
Proof.
  assert (built 2 2 (ex_state [1; -2]%float)) as Ha.
  { refine (built_add 1 1 (ex_state [1%float]) (-2)%float ex_point None None _ _ _); [|vm_compute; reflexivity].
    refine (built_add 0 0 scalar_plain 1%float ex_point None None _ _ _); [apply built_new|vm_compute; reflexivity]. }
  assert (built 1 1 (ex_state [3%float])) as Hb.
  { refine (built_add 0 0 scalar_plain 3%float ex_point None None _ _ _); [apply built_new|vm_compute; reflexivity]. }
  destruct (scalar_counts_every_sample 3 3 (scalar_merge (ex_state [3%float]) (ex_state [1; -2]%float)).1) as (H1 & _ & H2 & _).
  { refine (built_merge 2 2 1 1 _ _ _ Ha Hb _). vm_compute. reflexivity. }
  exact (conj H2 H1).
Defined.
