(* ===== verification/Stratification.v ===== *)
(** src/core/stratification.rs: the Voronoi partition of an evaluator's output,
    its validation and classification, and the immutable plan shared by both
    worker roles. The map of centers is the list of its entries in key order. *)
From S2P Require Import Prelude Lex Floats Errors Domain Config.

(** ** Equality of configurations ([derive(PartialEq)]) *)

#[export] Instance DiscreteAxisRole_eq_dec : EqDecision DiscreteAxisRole.
Proof. solve_decision. Defined.

Fixpoint domain_eqb (a b : Domain) : bool :=
  match a, b with
  | Rectangular s cs c, Rectangular s' cs' c' => (s =? s') && zlist_eqb cs cs' && (c =? c')
  | Discrete l r bs, Discrete l' r' bs' =>
      bool_decide (l = l') && bool_decide (r = r')
      && (fix each (bs bs' : list DomainBranch) : bool :=
            match bs, bs' with
            | [], [] => true
            | mkDomainBranch i d :: bs, mkDomainBranch i' d' :: bs' => (i =? i') && domain_eqb d d' && each bs bs'
            | _, _ => false
            end) bs bs'
  | _, _ => false
  end.

Lemma domain_eqb_eq a b : domain_eqb a b = true <-> a = b.
Proof.
  revert b. induction a as [label role branches IH|strata cardinalities continuous] using Domain_ind'; intros [label' role' branches'|s' c' k'];
    try (cbn; by split).
  - assert (forall l', (fix each (bs bs' : list DomainBranch) : bool :=
            match bs, bs' with
            | [], [] => true
            | mkDomainBranch i d :: bs, mkDomainBranch i' d' :: bs' => (i =? i') && domain_eqb d d' && each bs bs'
            | _, _ => false
            end) branches l' = true <-> branches = l') as Hb.
    { clear branches'. induction IH as [|[i d] l Hd _ IHl]; intros [|[i' d'] l']; try by split.
      cbn in Hd. rewrite !andb_true_iff, Z.eqb_eq, Hd, IHl. naive_solver. }
    cbn. rewrite !andb_true_iff, !bool_decide_eq_true, Hb. naive_solver.
  - cbn. rewrite !andb_true_iff, zlist_eqb_eq, !Z.eqb_eq. naive_solver.
Qed.

Inductive Estimator := Pooled | StratifiedEstimator.

Record StratificationConfig := Voronoi {
  vor_domain : Domain;
  centers : list (list i64 * list f64);
  scales : option (list f64)
}.

Definition scales_eqb (a b : option (list f64)) : bool :=
  match a, b with Some a, Some b => f64_list_eqb a b | None, None => true | _, _ => false end.

Fixpoint centers_eqb (a b : list (list i64 * list f64)) : bool :=
  match a, b with
  | [], [] => true
  | (k, c) :: a, (k', c') :: b => zlist_eqb k k' && f64_list_eqb c c' && centers_eqb a b
  | _, _ => false
  end.

Definition partition_eqb (a b : StratificationConfig) : bool :=
  domain_eqb (vor_domain a) (vor_domain b) && centers_eqb (centers a) (centers b)
  && scales_eqb (scales a) (scales b).

(** ** The partition *)

Section partition.
Context `{Libm}.

Definition partition_prefixes (self : StratificationConfig) : list (list i64) := map fst (centers self).

(** [centers.values().next().map_or(0, Vec::len)] *)
Definition output_width (self : StratificationConfig) : usize :=
  match centers self with (_, c) :: _ => zlen c | [] => 0 end.

Fixpoint repeated_center (seen : list (list f64)) (l : list (list i64 * list f64)) : bool :=
  match l with
  | [] => false
  | (_, c) :: l => existsb (fun old => f64_list_eqb old c) seen || repeated_center (seen ++ [c]) l
  end.

Definition positive_finite (v : f64) : bool := PrimFloat.is_finite v && negb (PrimFloat.leb v 0).

Definition partition_validate (self : StratificationConfig) : result EngineError unit :=
  let? prefixes := map_err InvalidInputE (stratum_prefixes (vor_domain self)) in
  let? _ := map_err InvalidInputE (with_integrand (vor_domain self) (domain_continuous 0)) in
  if negb (bool_decide (partition_prefixes self = prefixes)) then
    Err (InvalidInputE "Voronoi centers must exactly cover all complete stratum prefixes in the domain")
  else
    let width := output_width self in
    if (width =? 0)
       || existsb (fun '(_, c) => negb (zlen c =? width) || negb (all_finite c)) (centers self) then
      Err (InvalidInputE "Voronoi centers must be nonempty finite vectors of equal width")
    else if repeated_center [] (centers self) then
      Err (InvalidInputE "Voronoi centers must be distinct")
    else if match scales self with
            | Some s => negb (zlen s =? width) || negb (forallb positive_finite s)
            | None => false
            end then
      Err (InvalidInputE "Voronoi scales must match the output width and be finite and positive")
    else Ok tt.

Definition partition_components (config : AccumulatorConfig) : result EngineError (list string) :=
  match config with
  | CVector components _ _ _ => Ok components
  | CGammaloop => Ok ["real"; "imag"]%string
  | _ => Err (InvalidInputE "stratification requires a statistical scalar/vector or GammaLoop accumulator")
  end.

Definition validate_accumulator (self : StratificationConfig) (config : AccumulatorConfig)
    : result EngineError unit :=
  let? _ := partition_validate self in
  let? components := partition_components config in
  if negb (zlen components =? output_width self) then
    Err (InvalidInputE "Voronoi center width must match the evaluator output components")
  else Ok tt.

(** [prefix(label)]: [None] is the panic on a label past the last stratum. *)
Definition partition_prefix (self : StratificationConfig) (label : usize) : option (list i64) :=
  zget (partition_prefixes self) label.

Fixpoint position_from {A} (p : A -> bool) (l : list A) (i : usize) : option usize :=
  match l with
  | [] => None
  | x :: l => if p x then Some i else position_from p l (i + 1)
  end.

Definition partition_label (self : StratificationConfig) (prefix : list i64) : result EngineError usize :=
  ok_or (Eval "unknown stratum prefix") (position_from (zlist_eqb prefix) (partition_prefixes self) 0).

Definition sampling_domain (self : StratificationConfig) (integrand : Domain) : result EngineError Domain :=
  let? _ := partition_validate self in
  map_err InvalidInputE (with_integrand (vor_domain self) integrand).

Definition distance_overflow : EngineError := Engine.Eval "Voronoi distance overflow".

(** The scaled Euclidean distance, one [hypot] per coordinate. [scales] is
    empty when the configuration has none; [s[j]] is in range on a validated
    configuration. *)
Fixpoint center_distance (norm : f64) (scaling values center : list f64) : result EngineError f64 :=
  match values, center with
  | v :: values, c :: center =>
      let s := match scaling with s :: _ => s | [] => 1%float end in
      let delta := PrimFloat.div (PrimFloat.sub v c) s in
      if negb (PrimFloat.is_finite delta) then Err distance_overflow
      else center_distance (hypot norm delta) (tail scaling) values center
  | _, _ => Ok norm
  end.

Fixpoint nearest (scaling values : list f64) (l : list (list i64 * list f64)) (k : usize)
    (best : usize * f64) : result EngineError (usize * f64) :=
  match l with
  | [] => Ok best
  | (_, center) :: l =>
      let? distance := center_distance 0 scaling values center in
      if negb (PrimFloat.is_finite distance) then Err distance_overflow
      else nearest scaling values l (k + 1)
             (if PrimFloat.ltb distance best.2 then (k, distance) else best)
  end.

Definition classify (self : StratificationConfig) (values : list f64) : result EngineError usize :=
  if negb (zlen values =? output_width self) || negb (all_finite values) then
    Err (Eval "invalid Voronoi classification values")
  else
    let? best := nearest (default [] (scales self)) values (centers self) 0 (0, PrimFloat.infinity) in
    Ok best.1.

(** ** The plan *)

Record StratificationPlan := mkPlan {
  proposal_id : string;
  partition : StratificationConfig;
  probabilities : option (list f64);
  plan_components : list string
}.

Definition probability_ok (p : f64) : bool :=
  PrimFloat.is_finite p && negb (PrimFloat.leb p 0) && negb (PrimFloat.ltb 1 p).

Definition plan_validate (self : StratificationPlan) : result EngineError unit :=
  if is_empty (proposal_id self) then Err (InvalidInputE "stratification plan requires a proposal identity")
  else
    let? _ := partition_validate (partition self) in
    if negb (zlen (plan_components self) =? output_width (partition self)) then
      Err (InvalidInputE "stratification plan component layout mismatch")
    else if match probabilities self with
            | Some p =>
                negb (zlen p =? zlen (centers (partition self))) || negb (forallb probability_ok p)
                || PrimFloat.ltb 0x1.19799812dea11p-40 (PrimFloat.abs (PrimFloat.sub (f64_sum p) 1))
            | None => false
            end then
      Err (InvalidInputE "stratum probabilities must be finite, positive, complete and normalized")
    else Ok tt.

Definition plan_matches (self : StratificationPlan) (label : usize) (values : list f64)
    : result EngineError bool :=
  if label >=? zlen (centers (partition self)) then Err (Eval "invalid stratum label")
  else let? actual := classify (partition self) values in Ok (actual =? label).

Definition plan_eqb (a b : StratificationPlan) : bool :=
  String.eqb (proposal_id a) (proposal_id b) && partition_eqb (partition a) (partition b)
  && scales_eqb (probabilities a) (probabilities b)
  && bool_decide (plan_components a = plan_components b).

End partition.

(** ** Lemmas *)

Lemma position_from_spec {A} (p : A -> bool) l i k :
  position_from p l i = Some k ->
  i <= k < i + zlen l /\ exists x, l !! Z.to_nat (k - i) = Some x /\ p x = true.
Proof.
  revert i. induction l as [|x l IH]; intros i; simpl; [done|].
  rewrite zlen_cons. pose proof (zlen_nonneg l). destruct (p x) eqn:E; intros H'; simplify_eq.
  - split; [lia|]. exists x. by rewrite Z.sub_diag.
  - apply IH in H' as [? (y & Hy & ?)]. split; [lia|]. exists y.
    by replace (Z.to_nat (k - i)) with (S (Z.to_nat (k - (i + 1)))) by lia.
Qed.

Section lemmas.
Context `{Libm}.

(** A validated partition has one center per complete stratum prefix, in the
    order of the prefixes. *)
Lemma partition_validate_ok p :
  partition_validate p = Ok tt ->
  stratum_prefixes (vor_domain p) = Ok (partition_prefixes p) /\
  (exists d, with_integrand (vor_domain p) (domain_continuous 0) = Ok d) /\
  output_width p <> 0 /\
  Forall (fun '(_, c) => zlen c = output_width p /\ all_finite c = true) (centers p) /\
  (forall s, scales p = Some s -> zlen s = output_width p /\ Forall (fun v => positive_finite v = true) s).
Proof.
  unfold partition_validate. intros H0.
  apply result_bind_ok in H0 as (t & Ht & H0). destruct (stratum_prefixes _) as [t'|] eqn:Es; simplify_eq/=.
  apply result_bind_ok in H0 as (d & Hd & H0). destruct (with_integrand _ _) as [d'|] eqn:Ed; simplify_eq/=.
  case_bool_decide as Hp; simpl in H0; [|done].
  destruct (_ || _) eqn:Ew in H0; [done|]. destruct (repeated_center _ _); [done|].
  zbool.
  split_and!; [by rewrite Hp|by eexists|done| |].
  - rewrite existsb_false in *. eapply Forall_impl; [eassumption|]. intros [q c]. simpl. intros. zbool. done.
  - intros s Hs. rewrite Hs in H0. destruct (_ || _) eqn:Esc in H0; [done|]. zbool.
    split; [done|]. by apply forallb_True_iff.
Qed.

Lemma partition_centers_nonempty p : output_width p <> 0 -> centers p <> [].
Proof. unfold output_width. by destruct (centers p). Qed.

Lemma nearest_range scaling values l k best r :
  nearest scaling values l k best = Ok r -> r.1 = best.1 \/ k <= r.1 < k + zlen l.
Proof.
  revert k best. induction l as [|[q c] l IH]; intros k best; simpl.
  { intros. simplify_eq. by left. }
  rewrite zlen_cons. pose proof (zlen_nonneg l). intros Hn. apply result_bind_ok in Hn as (distance & _ & Hn).
  destruct (negb _); [done|]. apply IH in Hn as [E|]; [|lia].
  destruct (PrimFloat.ltb _ _); simpl in E; [right; lia|by left].
Qed.

Lemma classify_range p values k :
  centers p <> [] -> classify p values = Ok k -> 0 <= k < zlen (centers p).
Proof.
  intros Hne. unfold classify. destruct (_ || _); [done|]. intros Hc. inv_ok.
  destruct (centers p) as [|c cs] eqn:E; [done|]. pose proof (zlen_nonneg cs).
  match goal with H : nearest _ _ _ _ _ = Ok _ |- _ => apply nearest_range in H as [Hr|Hr] end;
    cbn in Hr; rewrite ?zlen_cons in *; lia.
Qed.

(** What a scan of the remaining centers keeps: the best distance so far,
    beaten strictly by no center seen, and by earlier ones not even tied. *)
Lemma nearest_spec scaling values l k best r :
  best.1 <= k -> nearest scaling values l k best = Ok r ->
  (r = best \/ exists j q c, l !! j = Some (q, c) /\ r.1 = k + Z.of_nat j /\
     center_distance 0 scaling values c = Ok r.2 /\ PrimFloat.ltb r.2 best.2 = true) /\
  forall j q c, l !! j = Some (q, c) -> exists dj,
    center_distance 0 scaling values c = Ok dj /\ PrimFloat.is_finite dj = true /\
    PrimFloat.ltb dj r.2 = false /\ (k + Z.of_nat j < r.1 -> PrimFloat.ltb r.2 dj = true).
Proof.
  revert k best. induction l as [|[q c] l IH]; intros k best Hk; simpl.
  { intros. simplify_eq. split; [by left|]. intros []; done. }
  intros Hn. apply result_bind_ok in Hn as (distance & Hd & Hn).
  destruct (PrimFloat.is_finite distance) eqn:Hf; simpl in Hn; [|done].
  destruct (PrimFloat.ltb distance best.2) eqn:Hlt;
    (edestruct IH as [Hr Hall]; [|exact Hn|]; [simpl; lia|]); split.
  - right. destruct Hr as [->|(j & q' & c' & Hj & E & Hc & Hl)].
    + exists 0%nat, q, c. simpl. split_and!; [done|lia|done|done].
    + exists (S j), q', c'. simpl in *. split_and!; [done|lia|done|by eapply ltb_trans].
  - assert (PrimFloat.ltb distance r.2 = false /\ (k < r.1 -> PrimFloat.ltb r.2 distance = true)) as [H1 H2].
    { destruct Hr as [->|(j & q' & c' & _ & E & _ & Hl)]; simpl in *.
      - split; [apply ltb_irrefl|lia].
      - split; [by apply ltb_asym|done]. }
    intros [|j] q' c' Hj; simpl in Hj; simplify_eq.
    + exists distance. split_and!; [done..|]. intros. apply H2. lia.
    + destruct (Hall j q' c' Hj) as (dj & ? & ? & ? & Hlt'). exists dj. split_and!; [done..|].
      intros. apply Hlt'. lia.
  - destruct Hr as [->|(j & q' & c' & Hj & E & Hc & Hl)]; [by left|right].
    exists (S j), q', c'. simpl in *. split_and!; [done|lia|done|done].
  - assert (PrimFloat.ltb distance r.2 = false /\ (k < r.1 -> PrimFloat.ltb r.2 distance = true)) as [H1 H2].
    { destruct Hr as [->|(j & q' & c' & _ & E & _ & Hl)]; [split; [done|lia]|].
      assert (PrimFloat.ltb r.2 distance = true) as Ht by (by eapply ltb_cotrans).
      split; [by apply ltb_asym|done]. }
    intros [|j] q' c' Hj; simpl in Hj; simplify_eq.
    + exists distance. split_and!; [done..|]. intros. apply H2. lia.
    + destruct (Hall j q' c' Hj) as (dj & ? & ? & ? & Hlt'). exists dj. split_and!; [done..|].
      intros. apply Hlt'. lia.
Qed.

(** classification. The label of an output is the nearest center under
    the scaled distance, and among equally near ones the first in key order:
    every center has a finite distance, none is nearer, and those before it
    are strictly farther. *)
Theorem classify_nearest p values k
    (Hne : centers p <> []) (Hclass : classify p values = Ok k) :
  exists q c d, centers p !! Z.to_nat k = Some (q, c) /\ 0 <= k /\
    center_distance 0 (default [] (scales p)) values c = Ok d /\
    forall j q' c', centers p !! j = Some (q', c') -> exists d',
      center_distance 0 (default [] (scales p)) values c' = Ok d' /\ PrimFloat.is_finite d' = true /\
      PrimFloat.ltb d' d = false /\ (Z.of_nat j < k -> PrimFloat.ltb d d' = true).
Proof.
  unfold classify in Hclass. destruct (_ || _) in Hclass; [done|].
  apply result_bind_ok in Hclass as (r & Hn & Hk). simplify_eq.
  apply nearest_spec in Hn as [Hr Hall]; [|done].
  destruct Hr as [->|(j & q & c & Hj & E & Hd & _)].
  - destruct (centers p) as [|[q c] l]; [done|].
    destruct (Hall 0%nat q c eq_refl) as (d & _ & Hf & Hlt & _).
    apply finite_ltb_infinity in Hf. simpl in Hlt. congruence.
  - exists q, c, r.2. rewrite E, Z.add_0_l, Nat2Z.id. split_and!; [done|lia|done|].
    intros j' q' c' Hj'. destruct (Hall j' q' c' Hj') as (d' & ? & ? & ? & Hlt). exists d'.
    split_and!; [done..|]. intros. apply Hlt. lia.
Qed.

End lemmas.

(** Two strata on a line; the output is nearer to the second center. *)
#[local] Instance ex_libm : Libm := {|
  hypot a b := PrimFloat.sqrt (a * a + b * b)%float;
  powf a _ := a;
  powi a _ := a
|}.

Definition ex_partition : StratificationConfig :=
  Voronoi (domain_strata [2]) [([0], [(-1)%float]); ([1], [1%float])] None.

Lemma classify_nearest_witness :
  classify ex_partition [0.5%float] = Ok 1 /\
  exists d, center_distance 0 [] [0.5%float] [1%float] = Ok d /\
    PrimFloat.ltb d 1.5 = true.
Proof.
  assert (classify ex_partition [0.5%float] = Ok 1) as H by (vm_compute; reflexivity).
  split; [exact H|].
  destruct (classify_nearest ex_partition [0.5%float] 1 ltac:(discriminate) H)
    as (q & c & d & Hc & _ & Hd & Hall).
  exists d. change (Some ([1], [1%float]) = Some (q, c)) in Hc. injection Hc as <- <-. split; [exact Hd|].
  destruct (Hall 0%nat [0] [(-1)%float] eq_refl) as (d' & Hd' & _ & _ & Hlt).
  specialize (Hlt ltac:(vm_compute; reflexivity)). vm_compute in Hd'. injection Hd' as <-. exact Hlt.
Defined.
