(* ===== verification/Vector.v ===== *)
(** src/evaluation/accumulator/vector.rs and partition_diagnostics.rs: named
    component statistics with a training projection, the per-stratum counts of
    partitioned training, and their validated merge.

    [expect("validated projection component")] unwinds when the projection
    names no component; [projection_panic] stands for that outcome. *)
From S2P Require Import Prelude Lex Floats Errors Batch Config AccumulatorTrait Scalar Stratification.

(** ** Partition diagnostics *)

Record PartitionDiagnostics := mkDiagnostics {
  pd_partition : StratificationConfig;
  attempts : list u64;
  matches : list u64;
  feedback_samples : u64
}.

Definition total_attempts (l : list u64) : option u64 :=
  fold_left (fun acc b => a ← acc; u64_checked_add a b) l (Some 0).

(** [for (a, b) in self.iter_mut().zip(other) { *a = a.checked_add(b)?; }]:
    the entries before an overflow are already updated. *)
Fixpoint add_counts (self other : list u64) : list u64 * result EngineError unit :=
  match self, other with
  | a :: self, b :: other =>
      match u64_checked_add a b with
      | None => (a :: self, Err (Eval "partition count overflow"))
      | Some c => let '(self, r) := add_counts self other in (c :: self, r)
      end
  | _, _ => (self, Ok tt)
  end.

Section vector.
Context `{Libm}.

Definition diagnostics_validate (samples : i64) (self : PartitionDiagnostics) : result EngineError unit :=
  let? _ := partition_validate (pd_partition self) in
  let n := zlen (centers (pd_partition self)) in
  let total := total_attempts (attempts self) in
  if negb (zlen (attempts self) =? n) || negb (zlen (matches self) =? n)
     || existsb (fun '(m, n) => m >? n) (zip (matches self) (attempts self))
     || negb (bool_decide (total = if samples <? 0 then None else Some samples))
     || (feedback_samples self >? default 0 total)
  then Err (Eval "invalid partition diagnostic counts") else Ok tt.

Definition diagnostics_merge (other : PartitionDiagnostics) : SE PartitionDiagnostics EngineError unit :=
  fun self =>
    if negb (partition_eqb (pd_partition self) (pd_partition other)) then
      (self, Err (Eval "partition diagnostics cannot merge different partitions"))
    else
      let '(a, r) := add_counts (attempts self) (attempts other) in
      let self := mkDiagnostics (pd_partition self) a (matches self) (feedback_samples self) in
      match r with
      | Err e => (self, Err e)
      | Ok _ =>
          let '(m, r) := add_counts (matches self) (matches other) in
          let self := mkDiagnostics (pd_partition self) (attempts self) m (feedback_samples self) in
          match r with
          | Err e => (self, Err e)
          | Ok _ =>
              match u64_checked_add (feedback_samples self) (feedback_samples other) with
              | None => (self, Err (Eval "feedback count overflow"))
              | Some f => (mkDiagnostics (pd_partition self) (attempts self) (matches self) f, Ok tt)
              end
          end
      end.

(** ** Vector accumulators *)

Record NamedScalarAccumulator := mkNamed {
  named_name : string;
  named_state : ScalarAccumulatorState
}.

Inductive ProjectionState :=
| ProjectionComponent (name : string)
| ProjectionNorm (state : NamedScalarAccumulator).

Record VectorAccumulatorState := mkVector {
  components : list NamedScalarAccumulator;
  vec_partition : option PartitionDiagnostics;
  projection_state : ProjectionState
}.

Definition vector_from_config (components : list string) (projection_spec : TrainingProjection)
    (discrete_projections : option DiscreteProjectionConfig) (moments : AccumulatorMomentConfig)
    : VectorAccumulatorState :=
  mkVector (map (fun name => mkNamed name (scalar_from_config discrete_projections moments)) components) None
    (match projection_spec with
     | Component name => ProjectionComponent name
     | Norm => ProjectionNorm (mkNamed "training_projection" (scalar_from_config discrete_projections moments))
     end).

Definition component_names (self : VectorAccumulatorState) : list string := map named_name (components self).

Definition component (self : VectorAccumulatorState) (name : string) : option NamedScalarAccumulator :=
  find (fun c => String.eqb (named_name c) name) (components self).

Definition projection (self : VectorAccumulatorState) : option NamedScalarAccumulator :=
  match projection_state self with
  | ProjectionComponent name => component self name
  | ProjectionNorm state => Some state
  end.

Definition projection_panic : EngineError := EngineE "panicked: validated projection component".

Definition projection_spec (self : VectorAccumulatorState) : TrainingProjection :=
  match projection_state self with
  | ProjectionComponent name => Component name
  | ProjectionNorm _ => Norm
  end.

Definition vector_sample_count (self : VectorAccumulatorState) : i64 :=
  match projection self with Some p => count (core (named_state p)) | None => 0 end.

Definition hypot_norm (values : list f64) : f64 := fold_left hypot values 0%float.

Definition project (self : VectorAccumulatorState) (values : list f64) : result EngineError f64 :=
  if negb (zlen values =? zlen (components self)) then Err (Eval "vector observable value count mismatch")
  else
    match projection_state self with
    | ProjectionComponent name =>
        let? index := ok_or (Eval "training projection references unknown component")
                        (position_from (fun c => String.eqb (named_name c) name) (components self) 0) in
        Ok (default 0%float (zget values index))
    | ProjectionNorm _ => Ok (hypot_norm values)
    end.

(** *** Ingestion *)

Definition add_named (value : f64) (point : Point) (evaluation : option SampleEvaluation)
    (stratum : option StratumPair) : SE NamedScalarAccumulator EngineError unit :=
  fun c =>
    let '(s, r) := add_sample_with_details value point evaluation stratum (named_state c) in
    (mkNamed (named_name c) s, r).

Fixpoint ingest_components (values : list f64) (point : Point) (evaluation : option SampleEvaluation)
    (stratum : option StratumPair) (cs : list NamedScalarAccumulator)
    : list NamedScalarAccumulator * result EngineError unit :=
  match cs, values with
  | c :: cs, v :: values =>
      let '(c, r) := add_named v point evaluation stratum c in
      match r with
      | Err e => (c :: cs, Err (Eval "component failed"))
      | Ok _ => let '(cs, r) := ingest_components values point evaluation stratum cs in (c :: cs, r)
      end
  | _, _ => (cs, Ok tt)
  end.

Definition ingest_vector_with_details (values : list f64) (point : Point)
    (evaluation : option SampleEvaluation) (stratum : option StratumPair)
    : SE VectorAccumulatorState EngineError f64 :=
  fun self =>
    match project self values with
    | Err e => (self, Err e)
    | Ok projected =>
        let '(cs, r) := ingest_components values point evaluation stratum (components self) in
        let self := mkVector cs (vec_partition self) (projection_state self) in
        match r with
        | Err e => (self, Err e)
        | Ok _ =>
            match projection_state self with
            | ProjectionComponent _ => (self, Ok projected)
            | ProjectionNorm state =>
                let '(state, r) := add_named projected point evaluation stratum state in
                let self := mkVector (components self) (vec_partition self) (ProjectionNorm state) in
                match r with
                | Err e => (self, Err (Eval "training projection failed"))
                | Ok _ => (self, Ok projected)
                end
            end
        end
    end.

Definition ingest_vector (values : list f64) (point : Point) : SE VectorAccumulatorState EngineError f64 :=
  ingest_vector_with_details values point None None.

(** *** Validation *)

Definition vector_validate (self : VectorAccumulatorState) : result EngineError unit :=
  let? _ :=
    match vec_partition self with
    | Some p =>
        let? projection := ok_or projection_panic (projection self) in
        diagnostics_validate (count (core (named_state projection))) p
    | None => Ok tt
    end in
  let? _ := map_err Eval (config_validate (config_vector (component_names self) (projection_spec self))) in
  let? projection := ok_or projection_panic (projection self) in
  let? _ := scalar_validate (named_state projection) in
  try_fold (fun _ c =>
    let? _ := scalar_validate (named_state c) in
    if negb (count (core (named_state c)) =? count (core (named_state projection)))
    then Err (Eval "vector components have inconsistent sample counts") else Ok tt) tt (components self).

Definition partitions_differ (a b : option PartitionDiagnostics) : bool :=
  match a, b with
  | Some a, Some b => negb (partition_eqb (pd_partition a) (pd_partition b))
  | None, None => false
  | _, _ => true
  end.

Definition vector_validate_merge (self other : VectorAccumulatorState) : result EngineError unit :=
  if (vector_sample_count self >? 0) && (vector_sample_count other >? 0)
     && partitions_differ (vec_partition self) (vec_partition other) then
    Err (Eval "cannot mix different sampling partitions; start a fresh accumulator")
  else
    let? _ := vector_validate self in
    let? _ := vector_validate other in
    if negb (bool_decide (component_names self = component_names other))
       || negb (bool_decide (projection_spec self = projection_spec other)) then
      Err (EngineE "incompatible vector accumulator layout or projection")
    else
      let? _ := try_fold (fun _ '(lhs, rhs) => scalar_validate_merge (named_state lhs) (named_state rhs))
                  tt (zip (components self) (components other)) in
      let? lhs := ok_or projection_panic (projection self) in
      let? rhs := ok_or projection_panic (projection other) in
      scalar_validate_merge (named_state lhs) (named_state rhs).

(** *** Merging *)

Definition merge_named (other : NamedScalarAccumulator) : SE NamedScalarAccumulator EngineError unit :=
  fun c => let '(s, r) := scalar_merge (named_state other) (named_state c) in (mkNamed (named_name c) s, r).

Fixpoint merge_components (cs others : list NamedScalarAccumulator)
    : list NamedScalarAccumulator * result EngineError unit :=
  match cs, others with
  | c :: cs, o :: others =>
      let '(c, r) := merge_named o c in
      match r with
      | Err e => (c :: cs, Err e)
      | Ok _ => let '(cs, r) := merge_components cs others in (c :: cs, r)
      end
  | _, _ => (cs, Ok tt)
  end.

Definition merge_partition (other : option PartitionDiagnostics)
    : SE (option PartitionDiagnostics) EngineError unit :=
  fun self =>
    match other, self with
    | Some other, Some p => let '(p, r) := diagnostics_merge other p in (Some p, r)
    | Some other, None => (Some other, Ok tt)
    | None, _ => (self, Ok tt)
    end.

Definition vector_merge (other : VectorAccumulatorState) : SE VectorAccumulatorState EngineError unit :=
  fun self =>
    match vector_validate_merge self other with
    | Err e => (self, Err e)
    | Ok _ =>
        let '(p, r) := merge_partition (vec_partition other) (vec_partition self) in
        let self := mkVector (components self) p (projection_state self) in
        match r with
        | Err e => (self, Err e)
        | Ok _ =>
            let '(cs, r) := merge_components (components self) (components other) in
            let self := mkVector cs (vec_partition self) (projection_state self) in
            match r with
            | Err e => (self, Err e)
            | Ok _ =>
                match projection_state self, projection_state other with
                | ProjectionNorm lhs, ProjectionNorm rhs =>
                    let '(lhs, r) := merge_named rhs lhs in
                    (mkVector (components self) (vec_partition self) (ProjectionNorm lhs), r)
                | _, _ => (self, Ok tt)
                end
            end
        end
    end.

End vector.

(** ** Invariants *)

Section invariants.
Context `{Libm}.

(** Counts that cover exactly [n] attempts, one entry per stratum. *)
Definition diag_ok (n : Z) (p : PartitionDiagnostics) : Prop :=
  partition_validate (pd_partition p) = Ok tt /\
  zlen (attempts p) = zlen (centers (pd_partition p)) /\
  Forall2 (fun m a => 0 <= m <= a) (matches p) (attempts p) /\
  zsum (attempts p) = n /\ 0 <= feedback_samples p <= n.

(** A vector accumulator of [n] samples: a valid layout, valid statistics that
    all count [n] samples, and partition counts for exactly those samples. An
    empty accumulator carries no partition: only batches bring one. *)
Definition vector_inv (n : Z) (v : VectorAccumulatorState) : Prop :=
  0 <= n <= i64_max /\
  layout_ok (component_names v) (projection_spec v) /\
  Forall (fun c => scalar_ok (named_state c) /\ count (core (named_state c)) = n) (components v) /\
  match projection_state v with
  | ProjectionNorm c => scalar_ok (named_state c) /\ count (core (named_state c)) = n
  | ProjectionComponent _ => True
  end /\
  match vec_partition v with Some p => n <> 0 /\ diag_ok n p | None => True end.

Lemma total_attempts_sum l :
  Forall (fun x => 0 <= x) l -> zsum l <= usize_max -> total_attempts l = Some (zsum l).
Proof.
  intros Hl. unfold total_attempts.
  enough (forall acc, 0 <= acc -> acc + zsum l <= usize_max ->
            fold_left (fun acc b => a ← acc; u64_checked_add a b) l (Some acc) = Some (acc + zsum l)) as Hall.
  { intros. rewrite Hall by lia. done. }
  induction Hl as [|x l Hx Hl IH]; intros acc Hacc Hsum; cbn [fold_left] in *.
  { rewrite zsum_nil. f_equal. lia. }
  rewrite zsum_cons in *. pose proof (zsum_nonneg l Hl). cbn [mbind option_bind].
  unfold u64_checked_add, usize_checked_add. rewrite (proj2 (Z.leb_le _ _)) by lia.
  rewrite IH by lia. f_equal. lia.
Qed.

Lemma diag_nonneg n p : diag_ok n p -> Forall (fun x => 0 <= x) (attempts p).
Proof.
  intros (_ & _ & Hm & _). eapply Forall2_Forall_r; [exact Hm|]. apply Forall_true. intros; lia.
Qed.

Lemma diagnostics_validate_ok n p :
  0 <= n <= i64_max -> diag_ok n p -> diagnostics_validate n p = Ok tt.
Proof.
  intros Hn Hd. pose proof (diag_nonneg n p Hd). destruct Hd as (Hv & Hla & Hm & Hs & Hf).
  unfold diagnostics_validate. rewrite Hv. simpl.
  rewrite total_attempts_sum by (try done; unfold usize_max, i64_max in *; lia).
  pose proof (zlen_Forall2 _ _ _ Hm) as Hlm. rewrite Hs, Hlm, Hla, Z.eqb_refl.
  rewrite (proj2 (Z.ltb_ge n 0)), bool_decide_true by (try done; lia). simpl.
  rewrite Z.gtb_ltb, (proj2 (Z.ltb_ge _ _)), orb_false_r by lia.
  rewrite (proj2 (existsb_false _ _)); [done|].
  clear -Hm. induction Hm; simpl; constructor; [|done]. rewrite Z.gtb_ltb. apply Z.ltb_ge. lia.
Qed.

Lemma find_component v name :
  name ∈ component_names v -> exists c, component v name = Some c /\ c ∈ components v.
Proof.
  unfold component_names, component. intros Hin.
  destruct (find _ (components v)) as [c|] eqn:E.
  - exists c. split; [done|]. apply find_some in E as [? _]. by apply list_elem_of_In.
  - exfalso. apply list_elem_of_In, in_map_iff in Hin as (c & <- & Hc).
    eapply find_none in E; [|exact Hc]. by rewrite String.eqb_refl in E.
Qed.

Lemma projection_inv n v :
  vector_inv n v ->
  exists p, projection v = Some p /\ scalar_ok (named_state p) /\ count (core (named_state p)) = n.
Proof.
  intros (_ & (_ & _ & _ & Hp) & Hc & Hn & _). unfold projection, projection_spec in *.
  destruct (projection_state v) as [name|c]; [|eauto].
  apply find_component in Hp as (c & -> & Hin). rewrite Forall_forall in Hc.
  exists c. split; [done|]. by apply Hc.
Qed.

Lemma vector_inv_count n v : vector_inv n v -> vector_sample_count v = n.
Proof. intros (p & Hp & _ & Hn)%projection_inv. unfold vector_sample_count. by rewrite Hp. Qed.

Lemma vector_validate_ok n v : vector_inv n v -> vector_validate v = Ok tt.
Proof.
  intros Hv. destruct (projection_inv n v Hv) as (p & Hp & Hok & Hcount).
  destruct Hv as (Hn & Hl & Hc & _ & Hpart). unfold vector_validate. rewrite Hp. simpl.
  assert (match vec_partition v with
          | Some q => diagnostics_validate (count (core (named_state p))) q
          | None => Ok tt
          end = Ok tt) as ->.
  { destruct (vec_partition v); [|done]. rewrite Hcount. apply diagnostics_validate_ok; [done|apply Hpart]. }
  simpl. rewrite (proj2 (config_vector_validate _ _) Hl). simpl.
  rewrite scalar_validate_ok by done. simpl. apply try_fold_unit.
  eapply Forall_impl; [exact Hc|]. intros c [Hcok Hcn]. simpl.
  rewrite scalar_validate_ok by done. simpl. by rewrite Hcn, Hcount, Z.eqb_refl.
Qed.

(** *** Ingestion *)

Lemma add_named_ok n v p e st c c' r :
  scalar_ok (named_state c) -> count (core (named_state c)) = n -> add_named v p e st c = (c', Ok r) ->
  scalar_ok (named_state c') /\ count (core (named_state c')) = n + 1 /\ named_name c' = named_name c.
Proof.
  unfold add_named. intros Hc Hn. destruct (add_sample_with_details _ _ _ _ _) as [s r'] eqn:E.
  intros. simplify_eq. simpl. apply add_sample_with_details_ok in E as (? & _ & ?); [|done].
  split_and!; [done|lia|done].
Qed.

Lemma ingest_components_ok n values p e st cs cs' r :
  Forall (fun c => scalar_ok (named_state c) /\ count (core (named_state c)) = n) cs ->
  zlen values = zlen cs -> ingest_components values p e st cs = (cs', Ok r) ->
  Forall (fun c => scalar_ok (named_state c) /\ count (core (named_state c)) = n + 1) cs' /\
  map named_name cs' = map named_name cs.
Proof.
  intros Hcs. revert values cs' r.
  induction Hcs as [|c cs [Hok Hn] _ IH]; intros [|v values] cs' r Hlen; simpl;
    try (unfold zlen in Hlen; simpl in Hlen; lia).
  { intros. simplify_eq. by split. }
  destruct (add_named v p e st c) as [c1 [[]|]] eqn:E; [|done].
  destruct (add_named_ok n _ _ _ _ _ _ _ Hok Hn E) as (? & ? & Hname).
  destruct (ingest_components values p e st cs) as [cs1 r1] eqn:E1. intros [= <- ->].
  destruct (IH values cs1 r) as [Hf Hm]; [rewrite !zlen_cons in Hlen; lia|done|]. simpl. rewrite Hname, Hm. by split; [constructor|].
Qed.

(** A sample that is accepted is counted in every stream. *)
Lemma ingest_vector_ok n values p e st v v' x :
  vector_inv n v -> vec_partition v = None -> ingest_vector_with_details values p e st v = (v', Ok x) ->
  vector_inv (n + 1) v' /\ vec_partition v' = None /\ component_names v' = component_names v /\
  projection_spec v' = projection_spec v.
Proof.
  intros (Hn & Hl & Hc & Hp & _) Hpart. unfold ingest_vector_with_details.
  destruct (project v values) as [y|] eqn:Ep; [|done].
  assert (zlen values = zlen (components v)) as Hlen.
  { unfold project in Ep. destruct (_ =? _) eqn:E in Ep; [by zbool|done]. }
  destruct (ingest_components _ _ _ _ _) as [cs [[]|]] eqn:Ec; [|done].
  apply (ingest_components_ok n) in Ec as [Hcs Hnames]; [|done..]. cbn [projection_state].
  assert (0 <= n + 1 <= i64_max) as Hn1.
  { destruct cs as [|c cs].
    - destruct Hl as [Hl _]. exfalso. apply Hl. unfold component_names. by rewrite <- Hnames.
    - apply Forall_cons in Hcs as [[[[_ ?] _] <-] _]. done. }
  unfold vector_inv, component_names, projection_spec in *.
  destruct (projection_state v) as [name|st'] eqn:Eps; [|destruct (add_named _ _ _ _ _) as [c [[]|]] eqn:E; [|done]];
    intros [= <- _]; simpl; rewrite Hnames, Hpart.
  - done.
  - destruct Hp as [Hok Hcount]. destruct (add_named_ok n _ _ _ _ _ _ _ Hok Hcount E) as (? & ? & _). done.
Qed.

Lemma vector_from_config_inv cs projection projections moments :
  layout_ok cs projection -> vector_inv 0 (vector_from_config cs projection projections moments).
Proof.
  intros Hl. unfold vector_inv, component_names, projection_spec, vector_from_config. simpl.
  rewrite map_map, map_id. split_and!; try done.
  - by destruct projection.
  - clear. induction cs; simpl; constructor; [done|done].
  - by destruct projection.
Qed.

(** *** Merging *)

Lemma f64_list_eqb_forall_length l k : f64_list_eqb l k = true -> zlen l = zlen k.
Proof. intros H'%f64_list_eqb_length. unfold zlen. by rewrite H'. Qed.

Lemma centers_eqb_length a b : centers_eqb a b = true -> zlen a = zlen b.
Proof.
  revert b. induction a as [|[k c] a IH]; intros [|[k' c'] b]; simpl; try done.
  intros. zbool. rewrite !zlen_cons. by erewrite IH.
Qed.

Lemma partition_eqb_strata p q : partition_eqb p q = true -> zlen (centers p) = zlen (centers q).
Proof. unfold partition_eqb. intros. zbool. by apply centers_eqb_length. Qed.

Lemma add_counts_ok l k :
  Forall (fun x => 0 <= x) l -> Forall (fun x => 0 <= x) k -> zlen l = zlen k ->
  zsum l + zsum k <= usize_max ->
  add_counts l k = (zip_with Z.add l k, Ok tt) /\ zsum (zip_with Z.add l k) = zsum l + zsum k.
Proof.
  intros Hl. revert k. induction Hl as [|a l Ha Hl IH]; intros k Hk Hlen Hsum; destruct Hk as [|b k Hb Hk];
    rewrite ?zlen_cons in Hlen; try (unfold zlen in Hlen; simpl in Hlen; lia); [done|].
  rewrite !zsum_cons in *. pose proof (zsum_nonneg l Hl). pose proof (zsum_nonneg k Hk).
  cbn [add_counts zip_with]. unfold u64_checked_add, usize_checked_add. rewrite (proj2 (Z.leb_le _ _)) by lia.
  destruct (IH k) as [-> E]; [done|lia|lia|]. rewrite zsum_cons, E. split; [done|lia].
Qed.

Lemma diagnostics_merge_ok n m p q :
  diag_ok n p -> diag_ok m q -> n + m <= i64_max ->
  partition_eqb (pd_partition p) (pd_partition q) = true ->
  exists r, diagnostics_merge q p = (r, Ok tt) /\ diag_ok (n + m) r.
Proof.
  intros Hp Hq Hnm Heq. pose proof (diag_nonneg _ _ Hp) as Hpa. pose proof (diag_nonneg _ _ Hq) as Hqa.
  destruct Hp as (Hv & Hla & Hma & Hsa & Hfa), Hq as (_ & Hlb & Hmb & Hsb & Hfb).
  apply partition_eqb_strata in Heq as Hstrata.
  assert (forall ms ats, Forall2 (fun m a => 0 <= m <= a) ms ats ->
            Forall (fun x => 0 <= x) ms /\ zsum ms <= zsum ats) as Hms.
  { clear. induction 1 as [|m a ms ats ? _ [? ?]]; [by split|]. rewrite !zsum_cons. split; [constructor; lia || done|lia]. }
  destruct (Hms _ _ Hma) as [Hpm Hsm], (Hms _ _ Hmb) as [Hqm Hsm'].
  pose proof (zlen_Forall2 _ _ _ Hma) as El. pose proof (zlen_Forall2 _ _ _ Hmb) as El'.
  unfold diagnostics_merge. rewrite Heq. simpl.
  destruct (add_counts_ok (attempts p) (attempts q)) as [-> Ea]; [done|done|lia|unfold usize_max, i64_max in *; lia|].
  destruct (add_counts_ok (matches p) (matches q)) as [-> Em]; [done|done|lia|unfold usize_max, i64_max in *; lia|].
  simpl. unfold u64_checked_add, usize_checked_add.
  rewrite (proj2 (Z.leb_le _ _)) by (unfold usize_max, i64_max in *; lia).
  eexists. split; [done|]. unfold diag_ok. simpl. split_and!; [done| | |lia|lia|lia].
  - rewrite <- Hla. unfold zlen in *. rewrite length_zip_with_l_eq; [done|lia].
  - clear -Hma Hmb Hla Hlb Hstrata. revert Hmb Hla. rewrite <- Hstrata in Hlb.
    intros Hmb Hla. assert (zlen (attempts p) = zlen (attempts q)) as Hl by lia. clear Hla Hlb Hstrata.
    revert Hl. generalize dependent (attempts q). generalize (matches q).
    induction Hma as [|m a ms ats ? _ IH]; intros ms' ats' Hmb Hl; destruct Hmb as [|m' a' ms' ats'];
      rewrite ?zlen_cons in Hl; try (unfold zlen in Hl; simpl in Hl; lia); simpl; [constructor|].
    constructor; [lia|]. apply IH; [done|lia].
Qed.

Lemma merge_named_ok n m a b :
  scalar_ok (named_state a) -> scalar_ok (named_state b) ->
  count (core (named_state a)) = n -> count (core (named_state b)) = m ->
  scalar_validate_merge (named_state a) (named_state b) = Ok tt ->
  exists c, merge_named b a = (c, Ok tt) /\ scalar_ok (named_state c) /\
    count (core (named_state c)) = n + m /\ named_name c = named_name a.
Proof.
  intros Ha Hb <- <- Hv. unfold merge_named. rewrite scalar_merge_valid by done.
  apply scalar_validate_merge_ok in Hv; [|done..].
  destruct (scalar_merge_plain_ok _ _ Ha Hb Hv) as (? & ? & _). by eexists.
Qed.

Lemma merge_components_ok n m cs os :
  Forall (fun c => scalar_ok (named_state c) /\ count (core (named_state c)) = n) cs ->
  Forall (fun c => scalar_ok (named_state c) /\ count (core (named_state c)) = m) os ->
  map named_name cs = map named_name os ->
  Forall (fun '(a, b) => scalar_validate_merge (named_state a) (named_state b) = Ok tt) (zip cs os) ->
  exists cs', merge_components cs os = (cs', Ok tt) /\
    Forall (fun c => scalar_ok (named_state c) /\ count (core (named_state c)) = n + m) cs' /\
    map named_name cs' = map named_name cs.
Proof.
  intros Hcs. revert os. induction Hcs as [|c cs [Hc Hcn] _ IH]; intros os Hos Hnames Hv;
    destruct Hos as [|o os [Ho Hon] Hos]; simpl in *; try done.
  { by eexists. }
  apply Forall_cons in Hv as [Hv1 Hv]. injection Hnames as Hname Hnames.
  destruct (merge_named_ok n m c o) as (c' & -> & Hc' & Hcount & Hn'); [done..|].
  destruct (IH os Hos Hnames Hv) as (cs' & -> & Hcs' & Hnames').
  eexists. split; [done|]. split; [by constructor|]. simpl. by rewrite Hn', Hnames'.
Qed.

(** Once the validation of a merge has succeeded nothing in it fails. *)
Lemma vector_merge_valid n m a b :
  vector_inv n a -> vector_inv m b -> vector_validate_merge a b = Ok tt ->
  exists c, vector_merge b a = (c, Ok tt) /\ vector_inv (n + m) c /\
    component_names c = component_names a /\ projection_spec c = projection_spec a.
Proof.
  intros Ha Hb Hv. unfold vector_merge. rewrite Hv. unfold vector_validate_merge in Hv.
  pose proof (vector_inv_count n a Ha) as Hna. pose proof (vector_inv_count m b Hb) as Hnb.
  destruct (projection_inv n a Ha) as (pa & Hpa & Hpaok & Hpan).
  destruct (projection_inv m b Hb) as (pb & Hpb & Hpbok & Hpbn).
  rewrite Hna, Hnb, (vector_validate_ok n a), (vector_validate_ok m b), Hpa, Hpb in Hv by done. simpl in Hv.
  destruct ((n >? 0) && (m >? 0) && partitions_differ _ _) eqn:Hdiff; [done|].
  destruct (negb _ || negb _) eqn:Hlay in Hv; [done|]. zbool.
  apply result_bind_ok in Hv as ([] & Hzip & Hproj). apply try_fold_unit in Hzip.
  destruct Ha as (Hn & Hla & Hca & Hspa & Hparta), Hb as (Hm & Hlb & Hcb & Hspb & Hpartb).
  assert (n + m <= i64_max) as Hsum.
  { apply scalar_validate_merge_ok in Hproj as [(_ & _ & _ & ?) _]; [lia|done..]. }
  assert (exists p, merge_partition (vec_partition b) (vec_partition a) = (p, Ok tt) /\
            match p with Some p => n + m <> 0 /\ diag_ok (n + m) p | None => True end) as (p & -> & Hp).
  { destruct (vec_partition a) as [qa|] eqn:Eqa, (vec_partition b) as [qb|] eqn:Eqb; cbn [merge_partition].
    - destruct Hparta as [Hn0 Hqa], Hpartb as [Hm0 Hqb].
      rewrite !Z.gtb_ltb, !(proj2 (Z.ltb_lt _ _)) in Hdiff by lia. simpl in Hdiff. zbool.
      destruct (diagnostics_merge_ok n m qa qb) as (r & -> & ?); [done..|]. eexists. split; [done|]. split; [lia|done].
    - destruct Hparta as [Hn0 Hqa].
      assert (m = 0) as ->.
      { destruct (Z.eq_dec m 0); [done|]. rewrite !Z.gtb_ltb, !(proj2 (Z.ltb_lt _ _)) in Hdiff by lia. done. }
      rewrite Z.add_0_r. by eexists.
    - destruct Hpartb as [Hm0 Hqb].
      assert (n = 0) as ->.
      { destruct (Z.eq_dec n 0); [done|]. rewrite !Z.gtb_ltb, !(proj2 (Z.ltb_lt _ _)) in Hdiff by lia. done. }
      by eexists.
    - by eexists. }
  cbn [components vec_partition projection_state].
  destruct (merge_components_ok n m (components a) (components b)) as (cs & -> & Hcs & Hnames);
    [done..|by unfold component_names in *|eapply Forall_impl; [exact Hzip|]; by intros []|].
  assert (projection_spec a = projection_spec b) as Hspec by done.
  unfold vector_inv, component_names, projection, projection_spec in *. rewrite <- Hnames in Hla |- *.
  destruct (projection_state a) as [name|sa], (projection_state b) as [name'|sb]; try done; cbn [components projection_state].
  - eexists. split; [done|]. cbn. split_and!; try done; lia.
  - injection Hpa as ->. injection Hpb as ->. destruct Hspa as [Hsa Hsan], Hspb as [Hsb Hsbn].
    destruct (merge_named_ok n m pa pb) as (c & -> & Hc & Hcn & _); [done..|].
    eexists. split; [done|]. cbn. split_and!; try done; lia.
Qed.

End invariants.

#[export] Instance vector_accumulator : Accumulator VectorAccumulatorState := {
  sample_count := vector_sample_count;
  merge := vector_merge
}.

(** Accumulators as the pipeline publishes them. *)
Definition vector_ok (v : VectorAccumulatorState) : Prop := vector_inv (vector_sample_count v) v.

Lemma vector_inv_ok n v : vector_inv n v -> vector_ok v.
Proof. intros Hv. unfold vector_ok. by rewrite (vector_inv_count n v Hv). Qed.

Lemma vector_merge_inv a b c r :
  vector_merge b a = (c, r) ->
  (vector_validate_merge a b = Ok tt) \/ (c = a /\ exists e, vector_validate_merge a b = Err e /\ r = Err e).
Proof. unfold vector_merge. destruct (vector_validate_merge a b) as [[]|e]; intros; simplify_eq; eauto. Qed.

#[export] Program Instance vector_laws : AccumulatorLaws VectorAccumulatorState := {
  accepted := vector_ok
}.
Next Obligation. intros v [Hn _]. cbn. lia. Qed.
Next Obligation.
  intros a b c Ha Hb Hm. cbn in *. destruct (vector_merge_inv a b c _ Hm) as [Hv|(_ & e & _ & ?)]; [|done].
  destruct (vector_merge_valid _ _ a b Ha Hb Hv) as (c' & Hm' & Hc & _). rewrite Hm in Hm'. injection Hm' as <-.
  split; [by eapply vector_inv_ok|]. by apply vector_inv_count.
Qed.
Next Obligation.
  intros a b c e Ha Hb Hm. cbn in *. destruct (vector_merge_inv a b c _ Hm) as [Hv|(-> & _)]; [|done].
  destruct (vector_merge_valid _ _ a b Ha Hb Hv) as (c' & Hm' & _). congruence.
Qed.
