(* ===== verification/FullVector.v ===== *)
(** src/evaluation/accumulator/full.rs and empty.rs: the accumulator that keeps
    every row of weighted outputs, and the one that keeps nothing. Vector
    lengths fit [i64], as every Rust allocation does. *)
From S2P Require Import Prelude Floats Errors Batch Config AccumulatorTrait Stratification.

Record FullVectorAccumulatorState := mkFull {
  full_components : list string;
  values_row_major : list f64
}.

Definition full_from_components (components : list string) : FullVectorAccumulatorState :=
  mkFull components [].

Definition push_vector (values : list f64) : SE FullVectorAccumulatorState EngineError unit :=
  fun self =>
    if negb (zlen values =? zlen (full_components self)) then
      (self, Err (Eval "full-vector component count mismatch"))
    else if negb (all_finite values) then (self, Err (Eval "non-finite component"))
    else (mkFull (full_components self) (values_row_major self ++ values), Ok tt).

Definition component_index (self : FullVectorAccumulatorState) (name : string) : option usize :=
  position_from (String.eqb name) (full_components self) 0.

(** [chunks(width)], with fuel for the rows. *)
Fixpoint chunks {A} (fuel : nat) (width : usize) (l : list A) : list (list A) :=
  match fuel, l with
  | S fuel, _ :: _ => ztake width l :: chunks fuel width (zdrop width l)
  | _, _ => []
  end.

Definition component_values (self : FullVectorAccumulatorState) (name : string) : option (list f64) :=
  index ← component_index self name;
  Some (omap (fun row => zget row index)
          (chunks (length (values_row_major self)) (zlen (full_components self)) (values_row_major self))).

Definition full_ingest_scalar (value : f64) (point : Point) : SE FullVectorAccumulatorState EngineError unit :=
  push_vector [PrimFloat.mul value (PrimFloat.abs (total_weight point))].

Definition full_sample_count (self : FullVectorAccumulatorState) : i64 :=
  match full_components self with
  | [] => 0
  | _ => zlen (values_row_major self) / zlen (full_components self)
  end.

(** [len.is_multiple_of(width)] *)
Definition is_multiple_of (n m : usize) : bool := if m =? 0 then n =? 0 else n mod m =? 0.

Definition full_merge (other : FullVectorAccumulatorState) : SE FullVectorAccumulatorState EngineError unit :=
  fun self =>
    let width := zlen (full_components self) in
    if negb (bool_decide (full_components self = full_components other)) || (width =? 0)
       || negb (is_multiple_of (zlen (values_row_major self)) width)
       || negb (is_multiple_of (zlen (values_row_major other)) width)
       || negb (all_finite (values_row_major self ++ values_row_major other))
    then (self, Err (EngineE "incompatible or malformed full-vector accumulator"))
    else (mkFull (full_components self) (values_row_major self ++ values_row_major other), Ok tt).

(** [validate_values] of the variant. *)
Definition full_validate (self : FullVectorAccumulatorState) : result EngineError unit :=
  let width := zlen (full_components self) in
  if (width =? 0) || negb (is_multiple_of (zlen (values_row_major self)) width) then
    Err (Eval "invalid full-vector row layout")
  else if negb (all_finite (values_row_major self)) then Err (Eval "non-finite contribution")
  else Ok tt.

Definition full_persistent (self : FullVectorAccumulatorState) : usize := full_sample_count self.

(** ** The empty accumulator *)

Record EmptyAccumulatorState := mkEmpty {}.

Definition empty_ingest_scalar (value : f64) (point : Point) : SE EmptyAccumulatorState EngineError unit :=
  fun self =>
    if negb (PrimFloat.is_finite (PrimFloat.mul value (total_weight point)))
    then (self, Err (Eval "non-finite weighted contribution")) else (self, Ok tt).

#[export] Instance empty_accumulator : Accumulator EmptyAccumulatorState := {
  sample_count _ := 0;
  merge _ := se_ret tt
}.

#[export] Program Instance empty_laws : AccumulatorLaws EmptyAccumulatorState := {
  accepted _ := True
}.
Next Obligation. done. Qed.
Next Obligation. done. Qed.
Next Obligation. done. Qed.

(** ** Laws of the full accumulator *)

(** [n] complete rows of finite values. *)
Definition full_inv (n : Z) (s : FullVectorAccumulatorState) : Prop :=
  full_components s <> [] /\ 0 <= n /\ zlen (values_row_major s) = n * zlen (full_components s) /\
  all_finite (values_row_major s) = true.

Lemma zlen_pos {A} (l : list A) : l <> [] -> 0 < zlen l.
Proof. destruct l; [done|]. rewrite zlen_cons. pose proof (zlen_nonneg l). lia. Qed.

Lemma full_inv_count n s : full_inv n s -> full_sample_count s = n.
Proof.
  intros (Hne & _ & Hlen & _). unfold full_sample_count. pose proof (zlen_pos _ Hne).
  rewrite Hlen, Z.div_mul by lia. by destruct (full_components s).
Qed.

Lemma is_multiple_of_spec n m : 0 < m -> is_multiple_of n m = true <-> n = n / m * m.
Proof.
  intros Hm. unfold is_multiple_of. rewrite (proj2 (Z.eqb_neq m 0)), Z.eqb_eq by lia.
  pose proof (Z.div_mod n m). lia.
Qed.

Lemma full_validate_spec s :
  full_validate s = Ok tt <-> full_inv (full_sample_count s) s.
Proof.
  unfold full_validate, full_inv. pose proof (zlen_nonneg (values_row_major s)). cbv zeta. split.
  - intros Hv. destruct (_ || _) eqn:E in Hv; [done|]. destruct (negb _) eqn:E' in Hv; [done|]. zbool.
    assert (full_components s <> []) as Hne by (intros Hn; by rewrite Hn in *).
    pose proof (zlen_pos _ Hne) as Hpos. apply is_multiple_of_spec in H1; [|done].
    assert (full_sample_count s = zlen (values_row_major s) / zlen (full_components s)) as ->.
    { unfold full_sample_count. by destruct (full_components s). }
    split_and!; [done|by apply Z.div_pos|done|done].
  - intros (Hne & Hn & Hlen & ->). pose proof (zlen_pos _ Hne) as Hpos.
    rewrite (proj2 (Z.eqb_neq _ _)), (proj2 (is_multiple_of_spec _ _ Hpos)) by (rewrite ?Hlen, ?Z.div_mul by lia; lia).
    done.
Qed.

Lemma push_vector_ok n values s s' :
  full_inv n s -> push_vector values s = (s', Ok tt) ->
  full_inv (n + 1) s' /\ full_components s' = full_components s /\
  values_row_major s' = values_row_major s ++ values.
Proof.
  intros (Hne & Hn & Hlen & Hfin). unfold push_vector.
  destruct (negb _) eqn:E; [done|]. destruct (negb _) eqn:E' in |- *; [done|]. zbool. intros. simplify_eq.
  split; [|done]. unfold full_inv. simpl. rewrite zlen_app, all_finite_app, Hfin, E'.
  split_and!; [done|lia|lia|done].
Qed.

Lemma full_merge_ok a b c :
  full_merge b a = (c, Ok tt) ->
  full_components c = full_components a /\ full_components b = full_components a /\
  values_row_major c = values_row_major a ++ values_row_major b /\ all_finite (values_row_major c) = true.
Proof.
  unfold full_merge. destruct (_ || _) eqn:E; intros; simplify_eq. zbool. done.
Qed.

#[export] Instance full_accumulator : Accumulator FullVectorAccumulatorState := {
  sample_count := full_sample_count;
  merge := full_merge
}.

#[export] Program Instance full_laws : AccumulatorLaws FullVectorAccumulatorState := {
  accepted s := full_validate s = Ok tt
}.
Next Obligation. intros s Hs. apply full_validate_spec in Hs as (_ & ? & _). done. Qed.
Next Obligation.
  intros a b c Ha Hb Hm. cbn in *. apply full_validate_spec in Ha, Hb.
  apply full_merge_ok in Hm as (Hc & Hcb & Hv & Hf).
  assert (full_inv (full_sample_count a + full_sample_count b) c) as Hinv.
  { destruct Ha as (Hne & Hna & Hla & _), Hb as (_ & Hnb & Hlb & _). unfold full_inv.
    rewrite Hc, Hv, zlen_app, Hla, Hlb, Hcb. split_and!; [done|lia|lia|by rewrite <- Hv]. }
  rewrite full_validate_spec, (full_inv_count _ _ Hinv). done.
Qed.
Next Obligation.
  intros a b c e _ _. cbn. unfold full_merge. destruct (_ || _); intros; by simplify_eq.
Qed.
