(* ===== verification/Gammaloop.v ===== *)
(** src/evaluation/accumulator/gammaloop.rs, gammaloop_statistics.rs and
    gammaloop_diagnostics.rs: the native observable accumulator. The histogram
    bundle belongs to the gammalooprs package: the class [Observables] is its
    interface, with the fields of a histogram this code reads. *)
From S2P Require Import Prelude Floats Errors Batch Config AccumulatorTrait Scalar Stratification Vector.

(** ** Diagnostics *)

Record GammaLoopDiagnostics := mkGLDiagnostics {
  count_total : i64;
  count_double_precision : i64;
  count_quad_precision : i64;
  count_arb_precision : i64;
  count_nan : i64;
  count_nan_or_unstable : i64;
  count_loop_momenta_escalated : i64;
  total_eval_time_ms : f64;
  total_integrand_eval_time_ms : f64;
  total_evaluator_eval_time_ms : f64;
  total_parameterization_time_ms : f64;
  total_event_processing_time_ms : f64;
  canonical_sampling_preparation_ms : option f64;
  canonical_physical_preparation_ms : option f64;
  total_generated_events : i64;
  total_accepted_events : i64
}.

Definition gl_diagnostics_default : GammaLoopDiagnostics :=
  mkGLDiagnostics 0 0 0 0 0 0 0 0 0 0 0 0 None None 0 0.

(** One timing that older records lack: it covers every sample or is absent. *)
Definition merge_timing (self_count other_count : i64) (total incoming : option f64) : option f64 :=
  if other_count >? 0 then
    if self_count =? 0 then incoming
    else match total, incoming with Some a, Some b => Some (PrimFloat.add a b) | _, _ => None end
  else total.

Definition gl_diagnostics_merge (self other : GammaLoopDiagnostics) : GammaLoopDiagnostics :=
  let timing := merge_timing (count_total self) (count_total other) in
  mkGLDiagnostics
    (count_total self + count_total other)
    (count_double_precision self + count_double_precision other)
    (count_quad_precision self + count_quad_precision other)
    (count_arb_precision self + count_arb_precision other)
    (count_nan self + count_nan other)
    (count_nan_or_unstable self + count_nan_or_unstable other)
    (count_loop_momenta_escalated self + count_loop_momenta_escalated other)
    (PrimFloat.add (total_eval_time_ms self) (total_eval_time_ms other))
    (PrimFloat.add (total_integrand_eval_time_ms self) (total_integrand_eval_time_ms other))
    (PrimFloat.add (total_evaluator_eval_time_ms self) (total_evaluator_eval_time_ms other))
    (PrimFloat.add (total_parameterization_time_ms self) (total_parameterization_time_ms other))
    (PrimFloat.add (total_event_processing_time_ms self) (total_event_processing_time_ms other))
    (timing (canonical_sampling_preparation_ms self) (canonical_sampling_preparation_ms other))
    (timing (canonical_physical_preparation_ms self) (canonical_physical_preparation_ms other))
    (total_generated_events self + total_generated_events other)
    (total_accepted_events self + total_accepted_events other).

Definition safe_ratio (numerator : f64) (denominator : i64) : f64 :=
  if denominator >? 0 then PrimFloat.div numerator (f64_of_Z denominator) else 0%float.

(** ** State *)

Class Observables := {
  bundle : Type;
  histogram : Type;
  bundle_default : bundle;
  histograms : bundle -> list (string * histogram);
  (** weights and squared weights of the bins, underflow and overflow last *)
  histogram_bins : histogram -> list (f64 * f64);
  histogram_sample_count : histogram -> usize;
  bundle_merge_in_place : bundle -> bundle -> result string bundle
}.

Inductive GammaTrainingProjection := PReal | PImag | PAbs | PAbsSq.
#[export] Instance GammaTrainingProjection_eq_dec : EqDecision GammaTrainingProjection.
Proof. solve_decision. Defined.

Section gammaloop.
Context {OB : Observables}.

Record GammaLoopAccumulatorState := mkGamma {
  gl_bundle : bundle;
  estimate : VectorAccumulatorState;
  training_projection : option GammaTrainingProjection;
  training_norm_sqr : option ScalarAccumulatorState;
  diagnostics : GammaLoopDiagnostics
}.

Definition gamma_default : GammaLoopAccumulatorState :=
  mkGamma bundle_default (vector_from_config ["real"; "imag"]%string Norm None MaxOrder4) None None
    gl_diagnostics_default.

Definition gamma_sample_count (self : GammaLoopAccumulatorState) : i64 := vector_sample_count (estimate self).

Definition validate_histogram_bundle (b : bundle) : result EngineError unit :=
  if forallb (fun '(_, h) =>
       forallb (fun '(w, w2) => PrimFloat.is_finite w && PrimFloat.is_finite w2) (histogram_bins h)) (histograms b)
  then Ok tt else Err (Eval "histogram: non-finite contribution or second moment").

(** [self.estimate.projection().state.count] *)
Definition estimate_count (self : GammaLoopAccumulatorState) : result EngineError i64 :=
  let? p := ok_or projection_panic (projection (estimate self)) in
  Ok (count (core (named_state p))).

Definition validate_stratified_samples (self : GammaLoopAccumulatorState) (expected : i64)
    : result EngineError unit :=
  if negb (gamma_sample_count self =? expected) then
    Err (Eval "GammaLoop estimate must count every stratified attempt")
  else if existsb (fun '(_, h) => negb (histogram_sample_count h =? expected)) (histograms (gl_bundle self)) then
    Err (Eval "GammaLoop histograms must count every stratified attempt, including misses")
  else Ok tt.

Definition gamma_validate (self : GammaLoopAccumulatorState) : result EngineError unit :=
  let? _ := validate_histogram_bundle (gl_bundle self) in
  let? _ := vector_validate (estimate self) in
  match training_norm_sqr self with
  | None => Ok tt
  | Some state =>
      let? _ := scalar_validate state in
      let? n := estimate_count self in
      if negb (count (core state) =? n) then Err (Eval "inconsistent GammaLoop training sample count") else Ok tt
  end.

Definition validate_training_statistics (self other : GammaLoopAccumulatorState) : result EngineError unit :=
  if negb (bool_decide (training_projection self = training_projection other))
     || negb (Bool.eqb (is_none (training_norm_sqr self)) (is_none (training_norm_sqr other))) then
    Err (EngineE "incompatible GammaLoop training statistics")
  else
    match training_norm_sqr self, training_norm_sqr other with
    | Some lhs, Some rhs => scalar_validate_merge lhs rhs
    | _, _ => Ok tt
    end.

(** [merge_plain] of the whole state: the bins are not merged. *)
Definition merge_training_statistics (self other : GammaLoopAccumulatorState) : GammaLoopAccumulatorState :=
  let merged :=
    match training_norm_sqr other, training_norm_sqr self with
    | Some incoming, Some current => Some (set_core (merge_plain (core current) (core incoming)) current)
    | Some incoming, None => Some incoming
    | None, current => current
    end in
  mkGamma (gl_bundle self) (estimate self) (training_projection self) merged (diagnostics self).

Definition gamma_merge (other : GammaLoopAccumulatorState) : SE GammaLoopAccumulatorState EngineError unit :=
  fun self =>
    match
      (let? _ := gamma_validate self in
       let? _ := gamma_validate other in
       estimate_count self)
    with
    | Err e => (self, Err e)
    | Ok n =>
        if (match histograms (gl_bundle self) with [] => true | _ => false end) && (n =? 0) then (other, Ok tt)
        else
          match
            (let? _ := vector_validate_merge (estimate self) (estimate other) in
             let? _ := validate_training_statistics self other in
             let? b := map_err (fun _ => EngineE "failed to merge gammaloop accumulator bundle")
                         (bundle_merge_in_place (gl_bundle self) (gl_bundle other)) in
             let? _ := validate_histogram_bundle b in
             Ok b)
          with
          | Err e => (self, Err e)
          | Ok b =>
              let self := merge_training_statistics self other in
              let '(v, r) := vector_merge (estimate other) (estimate self) in
              let self := mkGamma b v (training_projection self) (training_norm_sqr self) (diagnostics self) in
              match r with
              | Err e => (self, Err e)
              | Ok _ =>
                  (mkGamma (gl_bundle self) (estimate self) (training_projection self) (training_norm_sqr self)
                     (gl_diagnostics_merge (diagnostics self) (diagnostics other)), Ok tt)
              end
          end
    end.

(** *** Estimates *)

Definition norm_statistics (self : GammaLoopAccumulatorState) : option ScalarCore :=
  option_map (fun c => core (named_state c)) (projection (estimate self)).

Definition named_core (v : VectorAccumulatorState) (name : string) : option ScalarCore :=
  option_map (fun c => core (named_state c)) (component v name).

Definition training_statistics (self : GammaLoopAccumulatorState) : option ScalarCore :=
  match training_projection self with
  | Some PReal => named_core (estimate self) "real"
  | Some PImag => named_core (estimate self) "imag"
  | Some PAbsSq =>
      s ← training_norm_sqr self;
      n ← norm_statistics self;
      if count (core s) =? count n then Some (core s) else None
  | Some PAbs | None => norm_statistics self
  end.

(** ** Laws *)

Definition gamma_inv (n : Z) (g : GammaLoopAccumulatorState) : Prop :=
  validate_histogram_bundle (gl_bundle g) = Ok tt /\ vector_inv n (estimate g) /\
  match training_norm_sqr g with Some s => scalar_ok s /\ count (core s) = n | None => True end.

Lemma gamma_inv_count n g : gamma_inv n g -> gamma_sample_count g = n.
Proof. intros (_ & Hv & _). by apply vector_inv_count. Qed.

Lemma estimate_count_inv n g : gamma_inv n g -> estimate_count g = Ok n.
Proof. intros (_ & (p & Hp & _ & <-)%projection_inv & _). unfold estimate_count. by rewrite Hp. Qed.

Lemma gamma_validate_ok n g : gamma_inv n g -> gamma_validate g = Ok tt.
Proof.
  intros Hg. pose proof (estimate_count_inv n g Hg) as Hc. destruct Hg as (Hb & Hv & Ht).
  unfold gamma_validate. rewrite Hb, (vector_validate_ok n) by done. simpl.
  destruct (training_norm_sqr g) as [s|]; [|done]. destruct Ht as [Hs Hn].
  rewrite scalar_validate_ok, Hc by done. simpl. by rewrite Hn, Z.eqb_refl.
Qed.

(** The merge either succeeds and keeps the invariant, or changes nothing. *)
Lemma gamma_merge_spec n m a b :
  gamma_inv n a -> gamma_inv m b ->
  (exists c, gamma_merge b a = (c, Ok tt) /\ gamma_inv (n + m) c) \/
  (exists e, gamma_merge b a = (a, Err e)).
Proof.
  intros Ha Hb. unfold gamma_merge.
  rewrite (gamma_validate_ok n a), (gamma_validate_ok m b), (estimate_count_inv n a) by done. cbn [result_bind].
  destruct (_ && _) eqn:E.
  { zbool. left. exists b. split; [done|]. subst n. done. }
  destruct (let? _ := vector_validate_merge _ _ in _) as [bu|e] eqn:Ev; [|by right; eexists].
  apply result_bind_ok in Ev as ([] & Hv & Ev). apply result_bind_ok in Ev as ([] & Ht & Ev).
  apply result_bind_ok in Ev as (bu' & _ & Ev). apply result_bind_ok in Ev as ([] & Hbu & Ev).
  injection Ev as ->. destruct Ha as (_ & Hva & Hta), Hb as (_ & Hvb & Htb).
  destruct (vector_merge_valid n m _ _ Hva Hvb Hv) as (v & Hm & Hinv & _).
  left. unfold merge_training_statistics. cbn [estimate]. rewrite Hm. eexists. split; [done|].
  unfold gamma_inv. cbn. split_and!; [done|done|].
  unfold validate_training_statistics in Ht. destruct (_ || _) eqn:E' in Ht; [done|]. zbool.
  destruct (training_norm_sqr a) as [s|], (training_norm_sqr b) as [t|]; cbn; try done.
  - destruct Hta as [Hs <-], Htb as [Ht' <-]. apply scalar_validate_merge_ok in Ht as [Hmg _]; [|done..].
    destruct (merge_plain_keeps (core s) (core t)) as (_ & ? & _).
    split; [|done]. split; [|apply Hs]. apply merge_plain_ok; [apply Hs|apply Ht'|done].
Qed.

#[export] Instance gamma_accumulator : Accumulator GammaLoopAccumulatorState := {
  sample_count := gamma_sample_count;
  merge := gamma_merge
}.

Definition gamma_ok (g : GammaLoopAccumulatorState) : Prop := gamma_inv (gamma_sample_count g) g.

Lemma gamma_inv_ok n g : gamma_inv n g -> gamma_ok g.
Proof. intros Hg. unfold gamma_ok. by rewrite (gamma_inv_count n g Hg). Qed.

#[export] Program Instance gamma_laws : AccumulatorLaws GammaLoopAccumulatorState := {
  accepted := gamma_ok
}.
Next Obligation. intros g (_ & [Hn _] & _). cbn. lia. Qed.
Next Obligation.
  intros a b c Ha Hb Hm. cbn in *. destruct (gamma_merge_spec _ _ a b Ha Hb) as [(c' & Hm' & Hc)|(e & Hm')];
    rewrite Hm in Hm'; [|done]. injection Hm' as <-. split; [by eapply gamma_inv_ok|by apply gamma_inv_count].
Qed.
Next Obligation.
  intros a b c e Ha Hb Hm. cbn in *. destruct (gamma_merge_spec _ _ a b Ha Hb) as [(c' & Hm' & Hc)|(e' & Hm')];
    rewrite Hm in Hm'; [done|]. by injection Hm' as ->.
Qed.

End gammaloop.
