(* ===== verification/Stratified.v ===== *)
(** src/evaluation/accumulator/stratified.rs: one covariance accumulator per
    stratum under a frozen plan, its pooled reference, and its metrics.
    [m2] is the row-major square matrix of co-moments. *)
From S2P Require Import Prelude Lex Floats Errors Batch Config AccumulatorTrait Scalar Stratification Vector Gammaloop.

(** ** Strata *)

Record StratumMoments := mkMoments {
  st_attempts : u64;
  st_matches : u64;
  st_mean : list f64;
  st_m2 : list f64;
  st_extrema : list ContributionExtrema
}.

Definition moments_new (width : usize) : StratumMoments :=
  mkMoments 0 0 (replicate (Z.to_nat width) 0%float) (replicate (Z.to_nat (width * width)) 0%float)
    (replicate (Z.to_nat width) extrema_default).

Definition moments_ready (s : StratumMoments) : bool := (st_attempts s >=? 32) && (st_matches s >=? 2).

Definition standard_error (s : StratumMoments) (index : usize) : option f64 :=
  if negb (moments_ready s) || (index >=? zlen (st_mean s)) then None
  else
    m2 ← zget (st_m2 s) (index * zlen (st_mean s) + index);
    Some (PrimFloat.sqrt (PrimFloat.div (f64_max m2 0)
            (PrimFloat.mul (f64_of_Z (st_attempts s)) (f64_of_Z (st_attempts s - 1))))).

(** [for i in 0..width { for j in 0..width { m2[i * width + j] += term(i, j) } }] *)
Definition add_outer (m2 : list f64) (rows cols : list f64) (term : f64 -> f64 -> f64) : list f64 :=
  let terms := concat (map (fun r => map (term r) cols) rows) in
  zip_with PrimFloat.add m2 terms ++ drop (length terms) m2.

Definition moments_push (values : list f64) (matched : bool) : SE StratumMoments EngineError unit :=
  fun s =>
    if negb (zlen values =? zlen (st_mean s)) || negb (all_finite values) then
      (s, Err (Eval "invalid stratified contribution"))
    else
      match u64_checked_add (st_attempts s) 1 with
      | None => (s, Err (Eval "stratum count overflow"))
      | Some n =>
          let delta := zip_with PrimFloat.sub values (st_mean s) in
          let next := zip_with (fun m d => PrimFloat.add m (PrimFloat.div d (f64_of_Z n))) (st_mean s) delta in
          let m2 := add_outer (st_m2 s) delta (zip_with PrimFloat.sub values next) PrimFloat.mul in
          if negb (all_finite (next ++ m2)) then (s, Err (Eval "stratified moment overflow"))
          else (mkMoments n (st_matches s + Z.b2z matched) next m2 (st_extrema s), Ok tt)
      end.

(** [left.merge(right)] over the zipped extrema. *)
Fixpoint merge_extrema (ls rs : list ContributionExtrema) : list ContributionExtrema :=
  match ls, rs with l :: ls, r :: rs => extrema_merge l r :: merge_extrema ls rs | _, _ => ls end.

Definition moments_merge (other : StratumMoments) : SE StratumMoments EngineError unit :=
  fun s =>
    if st_attempts other =? 0 then (s, Ok tt)
    else if st_attempts s =? 0 then (other, Ok tt)
    else
      match u64_checked_add (st_attempts s) (st_attempts other) with
      | None => (s, Err (Eval "stratum count overflow"))
      | Some n =>
          let a := f64_of_Z (st_attempts s) in
          let b := f64_of_Z (st_attempts other) in
          let nf := f64_of_Z n in
          let delta := zip_with PrimFloat.sub (st_mean other) (st_mean s) in
          let mean := zip_with (fun m d => PrimFloat.add m (PrimFloat.div (PrimFloat.mul d b) nf)) (st_mean s) delta in
          let cross := concat (map (fun di =>
                         map (fun dj => PrimFloat.mul (PrimFloat.mul (PrimFloat.mul di dj) (PrimFloat.div a nf)) b) delta)
                         delta) in
          let m2 := zip_with PrimFloat.add (st_m2 s) (zip_with PrimFloat.add (st_m2 other) cross) in
          (mkMoments n (st_matches s + st_matches other) mean m2
             (merge_extrema (st_extrema s) (st_extrema other)), Ok tt)
      end.

(** ** The accumulator *)

Section stratified.
Context `{Libm} {OB : Observables}.

Record StratifiedAccumulatorState := mkStratified {
  st_plan : StratificationPlan;
  st_config : AccumulatorConfig;
  strata : list StratumMoments;
  pooled : option GammaLoopAccumulatorState
}.

Definition is_gammaloop (c : AccumulatorConfig) : bool := match c with CGammaloop => true | _ => false end.
Definition is_norm_vector (c : AccumulatorConfig) : bool :=
  match c with CVector _ Norm _ _ => true | _ => false end.

Definition validated_width (plan : StratificationPlan) (config : AccumulatorConfig) : result EngineError usize :=
  let? _ := plan_validate plan in
  let? _ := map_err InvalidInputE (config_validate config) in
  let? _ := validate_accumulator (partition plan) config in
  match probabilities plan with
  | None => Err (InvalidInputE "stratified accumulator needs frozen probabilities")
  | Some _ =>
      let layout_matches :=
        if is_gammaloop config then bool_decide (plan_components plan = ["real"; "imag"]%string)
        else bool_decide (config_components config = Some (plan_components plan)) in
      if negb layout_matches then Err (InvalidInputE "stratification component mismatch")
      else Ok (if is_gammaloop config then 4
               else zlen (plan_components plan) + Z.b2z (is_norm_vector config))
  end.

Definition stratified_new (plan : StratificationPlan) (config : AccumulatorConfig)
    : result EngineError StratifiedAccumulatorState :=
  let? width := validated_width plan config in
  Ok (mkStratified plan config
        (replicate (length (centers (partition plan))) (moments_new width))
        (if is_gammaloop config then Some gamma_default else None)).

(** The weighted contribution of one draw, with the derived components. *)
Definition contribution (self : StratifiedAccumulatorState) (values : list f64) (scale : f64) : list f64 :=
  let norm := hypot_norm values in
  let extended :=
    values ++ (if is_gammaloop (st_config self) then [norm; PrimFloat.mul norm norm] else [])
           ++ (if is_norm_vector (st_config self) then [norm] else []) in
  map (fun x => PrimFloat.mul x scale) extended.

Definition probability_panic : EngineError := EngineE "panicked: validated inference plan".

Definition observe_all (contribution : list f64) (point : Point) (assignment : StratumPair)
    (l : list ContributionExtrema) : list ContributionExtrema :=
  zip_with (fun e v => extrema_observe e v point assignment) l contribution
    ++ drop (length contribution) l.

Definition push_with_diagnostics (label : usize) (values : list f64) (weight : f64) (matched : bool)
    (diagnostic : option (Point * StratumPair)) : SE StratifiedAccumulatorState EngineError unit :=
  fun self =>
    if negb (zlen values =? zlen (plan_components (st_plan self))) || (label >=? zlen (strata self))
       || negb (PrimFloat.is_finite weight) || PrimFloat.leb weight 0 then
      (self, Err (Eval "invalid stratum label, weight or output width"))
    else
      match (p ← probabilities (st_plan self); zget p label), strata self !! Z.to_nat label with
      | Some p, Some s =>
          let c := contribution self values (PrimFloat.mul weight p) in
          let '(s, r) := moments_push c matched s in
          let s :=
            match r, diagnostic with
            | Ok _, Some (point, assignment) =>
                mkMoments (st_attempts s) (st_matches s) (st_mean s) (st_m2 s)
                  (observe_all c point assignment (st_extrema s))
            | _, _ => s
            end in
          (mkStratified (st_plan self) (st_config self) (<[Z.to_nat label := s]> (strata self)) (pooled self), r)
      | _, _ => (self, Err probability_panic)
      end.

Definition stratified_push (label : usize) (values : list f64) (weight : f64) (matched : bool)
    : SE StratifiedAccumulatorState EngineError unit :=
  push_with_diagnostics label values weight matched None.

Definition attempts_total (l : list StratumMoments) : Z := zsum (map st_attempts l).

Definition stratified_sample_count (self : StratifiedAccumulatorState) : i64 := attempts_total (strata self).

Definition stratum_invalid (width : usize) (s : StratumMoments) : bool :=
  negb (zlen (st_mean s) =? width) || negb (zlen (st_m2 s) =? width * width)
  || negb (zlen (st_extrema s) =? width) || (st_matches s >? st_attempts s)
  || negb (all_finite (st_mean s ++ st_m2 s)).

Fixpoint strata_validate (width : usize) (count : u64) (l : list StratumMoments) : result EngineError u64 :=
  match l with
  | [] => Ok count
  | s :: l =>
      if stratum_invalid width s then Err (Eval "invalid stratum moments")
      else
        match u64_checked_add count (st_attempts s) with
        | Some n =>
            if n <=? i64_max then strata_validate width n l else Err (Eval "stratum count overflow")
        | None => Err (Eval "stratum count overflow")
        end
  end.

Definition stratified_validate (self : StratifiedAccumulatorState) : result EngineError unit :=
  let? width := validated_width (st_plan self) (st_config self) in
  if negb (zlen (strata self) =? zlen (centers (partition (st_plan self)))) then
    Err (Eval "incomplete stratum state")
  else
    let? count := strata_validate width 0 (strata self) in
    match pooled self, is_gammaloop (st_config self) with
    | Some g, true =>
        let? _ := gamma_validate g in
        validate_stratified_samples g count
    | None, false => Ok tt
    | _, _ => Err (Eval "incompatible pooled observable state")
    end.

Fixpoint merge_strata (ls rs : list StratumMoments) : list StratumMoments * result EngineError unit :=
  match ls, rs with
  | l :: ls, r :: rs =>
      let '(l, res) := moments_merge r l in
      match res with
      | Err e => (l :: ls, Err e)
      | Ok _ => let '(ls, res) := merge_strata ls rs in (l :: ls, res)
      end
  | _, _ => (ls, Ok tt)
  end.

(** The merge works on a clone and publishes it after validating it. *)
Definition stratified_merge (other : StratifiedAccumulatorState)
    : SE StratifiedAccumulatorState EngineError unit :=
  fun self =>
    let merged :=
      let? _ := stratified_validate self in
      let? _ := stratified_validate other in
      if negb (plan_eqb (st_plan self) (st_plan other))
         || negb (bool_decide (st_config self = st_config other)) then
        Err (Eval "incompatible stratification plans")
      else
        let '(ls, r) := merge_strata (strata self) (strata other) in
        let? _ := r in
        let? p :=
          match pooled self, pooled other with
          | Some lhs, Some rhs => let '(g, r) := gamma_merge rhs lhs in let? _ := r in Ok (Some g)
          | p, _ => Ok p
          end in
        let merged := mkStratified (st_plan self) (st_config self) ls p in
        let? _ := stratified_validate merged in
        Ok merged in
    match merged with Ok m => (m, Ok tt) | Err e => (self, Err e) end.

(** ** Estimates *)

Definition stratified_ready (self : StratifiedAccumulatorState) : bool := forallb moments_ready (strata self).

(** [for (a, b) in acc.iter_mut().zip(l) { *a += b }] *)
Definition add_into (acc l : list f64) : list f64 := zip_with PrimFloat.add acc l ++ drop (length l) acc.

Definition stratified_mean (self : StratifiedAccumulatorState) : option (list f64) :=
  if existsb (fun s => st_attempts s =? 0) (strata self) then None
  else
    s0 ← head (strata self);
    Some (fold_left (fun acc s => add_into acc (st_mean s)) (strata self)
            (replicate (length (st_mean s0)) 0%float)).

Definition covariance (self : StratifiedAccumulatorState) : option (list f64) :=
  if negb (stratified_ready self) then None
  else
    s0 ← head (strata self);
    Some (fold_left (fun acc s =>
            let divisor := PrimFloat.mul (f64_of_Z (st_attempts s)) (f64_of_Z (st_attempts s - 1)) in
            add_into acc (map (fun b => PrimFloat.div b divisor) (st_m2 s)))
            (strata self) (replicate (length (st_m2 s0)) 0%float)).

Record BasicEstimate := mkBasicEstimate { be_mean : f64; be_error : option f64 }.

(** One group scaled back by its probability and merged into the pool. *)
Definition pool_group (acc : option StratumMoments) (x : StratumMoments * f64) : option StratumMoments :=
  acc ← acc;
  let '(s, p) := x in
  let width := zlen (st_mean s) in
  let group := mkMoments (st_attempts s) 0 (map (fun v => PrimFloat.div v p) (st_mean s))
                 (map (fun v => PrimFloat.div (PrimFloat.div v p) p) (st_m2 s))
                 (st_extrema (moments_new width)) in
  if negb (all_finite (st_mean group ++ st_m2 group)) then None
  else
    match moments_merge group acc with
    | (merged, Ok _) => if all_finite (st_mean merged ++ st_m2 merged) then Some merged else None
    | (_, Err _) => None
    end.

Definition basic_estimates (self : StratifiedAccumulatorState) : option (list BasicEstimate) :=
  s0 ← head (strata self);
  p ← probabilities (st_plan self);
  let width := zlen (st_mean s0) in
  pool ← fold_left pool_group (zip (strata self) p) (Some (moments_new width));
  let n := st_attempts pool in
  if n =? 0 then None
  else
    Some (imap (fun j mean =>
            mkBasicEstimate mean
              (if n >=? 2 then
                 Some (PrimFloat.sqrt (PrimFloat.div
                   (f64_max (default 0%float (zget (st_m2 pool) (Z.of_nat j * width + Z.of_nat j))) 0)
                   (PrimFloat.mul (f64_of_Z n) (f64_of_Z (n - 1)))))
               else None)) (st_mean pool)).

End stratified.

(** ** Laws *)

Lemma zlen_zip_with {A B C} (f : A -> B -> C) l k : zlen l = zlen k -> zlen (zip_with f l k) = zlen l.
Proof. unfold zlen. intros Hl. rewrite length_zip_with_l_eq; [done|lia]. Qed.

Lemma zlen_drop_all {A} (l : list A) n : zlen l = Z.of_nat n -> drop n l = [].
Proof. unfold zlen. intros. apply drop_ge. lia. Qed.

Lemma zlen_outer (rows cols : list f64) (term : f64 -> f64 -> f64) :
  zlen (concat (map (fun r => map (term r) cols) rows)) = zlen rows * zlen cols.
Proof.
  induction rows as [|r rows IH]; simpl; [done|]. rewrite zlen_app, zlen_lmap, IH, zlen_cons. lia.
Qed.

Lemma add_outer_length m2 rows cols term :
  zlen m2 = zlen rows * zlen cols -> zlen (add_outer m2 rows cols term) = zlen m2.
Proof.
  intros Hl. unfold add_outer. rewrite zlen_app, zlen_zip_with by (by rewrite zlen_outer).
  rewrite zlen_drop_all; [rewrite zlen_nil; lia|]. rewrite <- (zlen_outer rows cols term) in Hl. exact Hl.
Qed.

(** What a validated stratum satisfies. *)
Definition stratum_ok (width : Z) (s : StratumMoments) : Prop :=
  0 <= st_attempts s /\ stratum_invalid width s = false.

Lemma stratum_invalid_spec width s :
  stratum_invalid width s = false <->
  zlen (st_mean s) = width /\ zlen (st_m2 s) = width * width /\ zlen (st_extrema s) = width /\
  st_matches s <= st_attempts s /\ all_finite (st_mean s ++ st_m2 s) = true.
Proof.
  unfold stratum_invalid. rewrite !orb_false_iff, !negb_false_iff, !Z.eqb_eq, Z.gtb_ltb, Z.ltb_ge. tauto.
Qed.

Lemma moments_new_ok width : 0 <= width -> stratum_ok width (moments_new width).
Proof.
  intros Hw. split; [done|]. apply stratum_invalid_spec. simpl. rewrite !zlen_replicate.
  split_and!; [lia|lia|lia|done|]. rewrite all_finite_app.
  assert (forall n, all_finite (replicate n 0%float) = true) as Hz by (intros n; by induction n).
  by rewrite !Hz.
Qed.

Lemma moments_push_ok width values matched s s' :
  stratum_ok width s -> moments_push values matched s = (s', Ok tt) ->
  stratum_ok width s' /\ st_attempts s' = st_attempts s + 1 /\ st_extrema s' = st_extrema s.
Proof.
  intros [Hn (Hm & Hm2 & He & Hle & Hf)%stratum_invalid_spec]. unfold moments_push.
  destruct (_ || _) eqn:E; [done|]. zbool.
  unfold u64_checked_add, usize_checked_add. destruct (_ <=? _); [|done]. cbv zeta.
  destruct (negb _) eqn:Ef; [done|]. apply negb_false_iff in Ef. intros. simplify_eq. cbn.
  split; [|done]. split; [cbn; lia|]. apply stratum_invalid_spec. cbn.
  assert (zlen (zip_with PrimFloat.sub values (st_mean s)) = zlen (st_mean s)) as Hd by (rewrite zlen_zip_with; lia).
  assert (forall f : f64 -> f64 -> f64, zlen (zip_with f (st_mean s) (zip_with PrimFloat.sub values (st_mean s))) = zlen (st_mean s)) as Hx.
  { intros f. apply zlen_zip_with. lia. }
  split_and!; [by rewrite Hx| |done| |done].
  - rewrite add_outer_length; [lia|]. rewrite Hd, zlen_zip_with; rewrite ?Hx; lia.
  - destruct matched; simpl; lia.
Qed.

Lemma observe_all_length c p a l : zlen c = zlen l -> zlen (observe_all c p a l) = zlen l.
Proof.
  intros Hl. unfold observe_all. rewrite zlen_app, zlen_zip_with by lia.
  rewrite zlen_drop_all; [rewrite zlen_nil; lia|]. rewrite <- Hl. done.
Qed.

Lemma attempts_total_insert l i (s s' : StratumMoments) :
  l !! i = Some s -> attempts_total (<[i := s']> l) = attempts_total l - st_attempts s + st_attempts s'.
Proof.
  unfold attempts_total. revert i. induction l as [|x l IH]; intros [|i] Hi; [done|done| |].
  - injection Hi as ->. change (<[0%nat:=s']> (s :: l)) with (s' :: l). cbn [map]. rewrite !zsum_cons. lia.
  - change (<[S i:=s']> (x :: l)) with (x :: <[i:=s']> l). cbn [map]. rewrite !zsum_cons, (IH i Hi). lia.
Qed.

Lemma strata_nonneg width l : Forall (stratum_ok width) l -> 0 <= attempts_total l.
Proof.
  intros Hl. apply zsum_nonneg. apply Forall_fmap. eapply Forall_impl; [exact Hl|]. by intros s [? _].
Qed.

Lemma strata_validate_ok width l count :
  Forall (stratum_ok width) l -> 0 <= count -> count + attempts_total l <= i64_max ->
  strata_validate width count l = Ok (count + attempts_total l).
Proof.
  intros Hl. revert count. induction Hl as [|s l [Hn Hs] Hl IH]; intros count Hc Hsum; cbn [strata_validate].
  { unfold attempts_total. cbn [map]. rewrite zsum_nil. f_equal. lia. }
  pose proof (strata_nonneg width l Hl).
  unfold attempts_total in *. cbn [map] in *. rewrite zsum_cons in *.
  rewrite Hs. unfold u64_checked_add, usize_checked_add.
  rewrite (proj2 (Z.leb_le (count + st_attempts s) usize_max)) by (unfold usize_max, i64_max in *; lia).
  rewrite (proj2 (Z.leb_le _ _)) by lia. rewrite IH by lia. f_equal. lia.
Qed.

Lemma strata_validate_inv width l count n :
  Forall (fun s => 0 <= st_attempts s) l -> strata_validate width count l = Ok n ->
  Forall (stratum_ok width) l /\ n = count + attempts_total l /\ (count <= i64_max -> n <= i64_max).
Proof.
  intros Hl. revert count. induction Hl as [|s l Hs Hl IH]; intros count; cbn [strata_validate].
  { intros. simplify_eq. unfold attempts_total. cbn [map]. rewrite zsum_nil. split; [constructor|lia]. }
  destruct (stratum_invalid width s) eqn:E; [done|].
  unfold u64_checked_add, usize_checked_add. destruct (_ <=? usize_max); [|done].
  destruct (_ <=? i64_max) eqn:Ei; [|done]. zbool. intros Hv. destruct (IH _ Hv) as (Hf & -> & Hle).
  unfold attempts_total in *. cbn [map]. rewrite zsum_cons. split; [by constructor|]. split; [lia|]. intros _. by apply Hle.
Qed.

Section laws.
Context `{Libm} {OB : Observables}.

(** A validated accumulator of [n] draws. *)
Definition stratified_inv (n : Z) (s : StratifiedAccumulatorState) : Prop :=
  n <= i64_max /\ attempts_total (strata s) = n /\
  (exists width, validated_width (st_plan s) (st_config s) = Ok width /\ Forall (stratum_ok width) (strata s)) /\
  zlen (strata s) = zlen (centers (partition (st_plan s))) /\
  match pooled s, is_gammaloop (st_config s) with
  | Some g, true => gamma_validate g = Ok tt /\ validate_stratified_samples g n = Ok tt
  | None, false => True
  | _, _ => False
  end.

Lemma stratified_validate_ok n s : stratified_inv n s -> stratified_validate s = Ok tt.
Proof.
  intros (Hn & Htotal & (width & Hw & Hs) & Hlen & Hp). unfold stratified_validate.
  rewrite Hw. cbn [result_bind]. rewrite Hlen, Z.eqb_refl. cbn [negb].
  rewrite strata_validate_ok by (try done; lia). cbn [result_bind]. rewrite Z.add_0_l, Htotal.
  destruct (pooled s), (is_gammaloop (st_config s)); try done. by destruct Hp as [-> ?].
Qed.

Lemma stratified_validate_inv s :
  Forall (fun s => 0 <= st_attempts s) (strata s) -> stratified_validate s = Ok tt ->
  stratified_inv (stratified_sample_count s) s.
Proof.
  intros Hnn. unfold stratified_validate. intros Hv.
  apply result_bind_ok in Hv as (width & Hw & Hv). destruct (negb _) eqn:Hlen in Hv; [done|]. zbool.
  apply result_bind_ok in Hv as (n & Hn & Hv). apply strata_validate_inv in Hn as (Hs & -> & Hle); [|done].
  rewrite Z.add_0_l in *. unfold stratified_inv, stratified_sample_count.
  split_and!; [by apply Hle|done|by exists width|done|].
  destruct (pooled s), (is_gammaloop (st_config s)); try done.
  apply result_bind_ok in Hv as ([] & ? & ?). done.
Qed.

Lemma stratified_new_inv plan config s :
  stratified_new plan config = Ok s -> is_gammaloop config = false ->
  stratified_inv 0 s /\ st_plan s = plan /\ st_config s = config.
Proof.
  intros Hs Hg. unfold stratified_new in Hs. apply result_bind_ok in Hs as (width & Hw & Hs). simplify_eq.
  split; [|done]. unfold stratified_inv. cbn. rewrite Hg. split_and!; [done| |exists width; split; [done|]| |done].
  - unfold attempts_total. by induction (length _).
  - apply Forall_replicate, moments_new_ok. unfold validated_width in Hw. inv_ok.
    destruct (probabilities plan); [|done]. destruct (negb _) in H3; [done|]. simplify_eq.
    rewrite Hg. pose proof (zlen_nonneg (plan_components plan)). destruct (is_norm_vector config); simpl; lia.
  - by rewrite zlen_replicate.
Qed.

(** A draw that is accepted is counted in its stratum. *)
Lemma stratified_push_inv n label values weight matched diagnostic s s' :
  0 <= label -> stratified_inv n s -> n + 1 <= i64_max -> is_gammaloop (st_config s) = false ->
  push_with_diagnostics label values weight matched diagnostic s = (s', Ok tt) ->
  stratified_inv (n + 1) s' /\ st_plan s' = st_plan s /\ st_config s' = st_config s.
Proof.
  intros Hlabel (_ & Htotal & (width & Hw & Hs) & Hlen & Hp) Hn Hg. unfold push_with_diagnostics.
  destruct (_ || _); [done|]. destruct (p ← _; _) as [p|]; [|done].
  destruct (strata s !! Z.to_nat label) as [m|] eqn:Hm; [|done].
  set (c := contribution s values (PrimFloat.mul weight p)).
  destruct (moments_push c matched m) as [m' r] eqn:Epush. intros Heq. simplify_eq.
  assert (stratum_ok width m) as Hmok by (by eapply Forall_lookup_1 in Hs).
  destruct (moments_push_ok width _ _ _ _ Hmok Epush) as (Hm' & Hatt & Hext).
  set (m'' := match diagnostic with Some (point, assignment) => _ | None => m' end).
  assert (stratum_ok width m'' /\ st_attempts m'' = st_attempts m + 1) as [Hok'' Hatt''].
  { unfold m''. destruct diagnostic as [[point assignment]|]; [|done].
    destruct Hm' as [Hnn (H1 & H2 & H3 & H4 & H5)%stratum_invalid_spec]. split; [|done]. split; [done|].
    apply stratum_invalid_spec. cbn. split_and!; try done.
    rewrite observe_all_length; [done|].
    assert (zlen c = zlen (st_mean m)) as ->.
    { unfold moments_push in Epush. destruct (negb (zlen c =? _)) eqn:Ec in Epush; [done|]. by zbool. }
    destruct Hmok as [_ (Hmean & _)%stratum_invalid_spec]. lia. }
  unfold stratified_inv. cbn [strata st_plan st_config pooled]. rewrite Hg in *. split_and!; try done.
  - rewrite (attempts_total_insert _ _ _ _ Hm), Hatt''. lia.
  - exists width. split; [done|]. by apply Forall_insert.
  - unfold zlen in *. by rewrite length_insert.
Qed.

(** *** Merging *)

Lemma moments_merge_attempts a b c :
  0 <= st_attempts a -> 0 <= st_attempts b -> moments_merge b a = (c, Ok tt) ->
  st_attempts c = st_attempts a + st_attempts b.
Proof.
  intros Ha Hb. unfold moments_merge. destruct (_ =? 0) eqn:E1; zbool; [intros; simplify_eq; lia|].
  destruct (st_attempts a =? 0) eqn:E2; zbool; [intros; simplify_eq; lia|].
  unfold u64_checked_add, usize_checked_add. destruct (_ <=? _); [|done]. intros. by simplify_eq.
Qed.

Lemma merge_strata_attempts ls rs ls' :
  Forall (fun s => 0 <= st_attempts s) ls -> Forall (fun s => 0 <= st_attempts s) rs -> zlen ls = zlen rs ->
  merge_strata ls rs = (ls', Ok tt) ->
  Forall (fun s => 0 <= st_attempts s) ls' /\ attempts_total ls' = attempts_total ls + attempts_total rs.
Proof.
  unfold attempts_total. intros Hl. revert rs ls'.
  induction Hl as [|l ls Hl0 Hl IH]; intros rs ls' Hr Hlen; destruct Hr as [|r rs Hr0 Hr];
    try (unfold zlen in Hlen; simpl in Hlen; lia); cbn [merge_strata].
  { intros. by simplify_eq. }
  rewrite !zlen_cons in Hlen. destruct (moments_merge r l) as [m [[]|]] eqn:E; [|done].
  destruct (merge_strata ls rs) as [ms res] eqn:Em. intros. simplify_eq.
  apply moments_merge_attempts in E; [|done..]. destruct (IH rs ms Hr) as [Hf Ht]; [lia|done|].
  cbn [map]. rewrite !zsum_cons, Ht, E. split; [constructor; [lia|done]|lia].
Qed.

Definition stratified_ok (s : StratifiedAccumulatorState) : Prop :=
  Forall (fun s => 0 <= st_attempts s) (strata s) /\ stratified_validate s = Ok tt.

Lemma plan_eqb_strata p q : plan_eqb p q = true -> zlen (centers (partition p)) = zlen (centers (partition q)).
Proof. unfold plan_eqb. intros. zbool. by apply partition_eqb_strata. Qed.

Lemma stratified_merge_ok a b c :
  stratified_ok a -> stratified_ok b -> stratified_merge b a = (c, Ok tt) ->
  stratified_ok c /\ stratified_sample_count c = stratified_sample_count a + stratified_sample_count b /\
  st_plan c = st_plan a /\ st_config c = st_config a.
Proof.
  intros [Hna Hva] [Hnb Hvb]. unfold stratified_merge. rewrite Hva, Hvb. cbn [result_bind].
  destruct (negb _ || negb _) eqn:Hcompat; [done|]. apply orb_false_iff in Hcompat as [Hplan%negb_false_iff _].
  destruct (merge_strata _ _) as [ls [[]|]] eqn:Em; [|done]. cbn [result_bind].
  set (res := let? p := _ in _). destruct res as [m|] eqn:Eres; [|done]. intros [= <-].
  apply result_bind_ok in Eres as (p & _ & Eres). apply result_bind_ok in Eres as ([] & Hv & [= <-]).
  apply stratified_validate_inv in Hva as (_ & _ & _ & Hla & _); [|done].
  apply stratified_validate_inv in Hvb as (_ & _ & _ & Hlb & _); [|done].
  apply plan_eqb_strata in Hplan.
  apply merge_strata_attempts in Em as [Hf Ht]; [|done|done|lia]. done.
Qed.

#[export] Instance stratified_accumulator : Accumulator StratifiedAccumulatorState := {
  sample_count := stratified_sample_count;
  merge := stratified_merge
}.

#[export] Program Instance stratified_laws : AccumulatorLaws StratifiedAccumulatorState := {
  accepted := stratified_ok
}.
Next Obligation. intros s [Hs _]. cbn. apply zsum_nonneg. by apply Forall_fmap. Qed.
Next Obligation.
  intros a b c Ha Hb Hm. cbn in *. destruct (stratified_merge_ok a b c Ha Hb Hm) as (? & ? & _). by split.
Qed.
Next Obligation.
  intros a b c e _ _ Hm. cbn in Hm. unfold stratified_merge in Hm. by repeat case_match; simplify_eq.
Qed.

End laws.
