(* ===== verification/AccumulatorState.v ===== *)
(** src/evaluation/accumulator/mod.rs and metrics.rs: the tagged union of the
    accumulators, its dispatch, and the extraction of metrics. *)
From S2P Require Import Prelude Lex Floats Errors Batch Config AccumulatorTrait Scalar Stratification Vector FullVector Gammaloop Stratified.

Section state.
Context `{LM : Libm} {OB : Observables}.

Inductive AccumulatorState :=
| AStratified (s : StratifiedAccumulatorState)
| AEmpty (s : EmptyAccumulatorState)
| AVector (s : VectorAccumulatorState)
| AGammaloop (s : GammaLoopAccumulatorState)
| AFullVector (s : FullVectorAccumulatorState).

Definition projection_count (v : VectorAccumulatorState) : i64 :=
  match projection v with Some p => count (core (named_state p)) | None => 0 end.

Definition uncertainty_ready (a : AccumulatorState) : bool :=
  match a with
  | AStratified s => stratified_ready s
  | AVector s => projection_count s >=? 2
  | AGammaloop s => projection_count (estimate s) >=? 2
  | AEmpty _ | AFullVector _ => false
  end.

Definition state_gammaloop (a : AccumulatorState) : option GammaLoopAccumulatorState :=
  match a with AGammaloop s => Some s | AStratified s => pooled s | _ => None end.

Definition pooled_vector (a : AccumulatorState) : option VectorAccumulatorState :=
  match a with AVector s => Some s | _ => option_map estimate (state_gammaloop a) end.

Definition state_from_config (config : AccumulatorConfig) : AccumulatorState :=
  match config with
  | CEmpty => AEmpty mkEmpty
  | CVector components projection projections moments =>
      AVector (vector_from_config components projection projections moments)
  | CGammaloop => AGammaloop gamma_default
  | CFullVector components => AFullVector (full_from_components components)
  end.

Definition kind_str (a : AccumulatorState) : string :=
  match a with
  | AStratified _ => "stratified"
  | AEmpty _ => "empty"
  | AVector _ => "vector"
  | AGammaloop _ => "gammaloop"
  | AFullVector _ => "full_vector"
  end.

Definition state_config (a : AccumulatorState) : result EngineError AccumulatorConfig :=
  match a with
  | AStratified s => Ok (st_config s)
  | AEmpty _ => Ok CEmpty
  | AVector s =>
      let? p := ok_or projection_panic (projection s) in
      Ok (CVector (component_names s) (projection_spec s)
            (c ← head (components s); sc_projections (core (named_state c)))
            (sc_moments (core (named_state p))))
  | AGammaloop _ => Ok CGammaloop
  | AFullVector s => Ok (CFullVector (full_components s))
  end.

Definition validate_values (a : AccumulatorState) : result EngineError unit :=
  match a with
  | AStratified s => stratified_validate s
  | AEmpty _ => Ok tt
  | AVector s => vector_validate s
  | AGammaloop s => gamma_validate s
  | AFullVector s => full_validate s
  end.

(** Run a merge of one variant inside the union. *)
Definition within {S} (wrap : S -> AccumulatorState) (m : SE S EngineError unit) (s : S)
    : AccumulatorState * result EngineError unit :=
  let '(s, r) := m s in (wrap s, r).

Definition state_merge (other : AccumulatorState) : SE AccumulatorState EngineError unit :=
  fun self =>
    match self, other with
    | AStratified l, AStratified r => within AStratified (stratified_merge r) l
    | AEmpty l, AEmpty r => within AEmpty (merge r) l
    | AVector l, AVector r => within AVector (vector_merge r) l
    | AGammaloop l, AGammaloop r => within AGammaloop (gamma_merge r) l
    | AFullVector l, AFullVector r => within AFullVector (full_merge r) l
    | _, _ => (self, Err (EngineE "cannot merge accumulators of different kinds"))
    end.

Definition state_sample_count (a : AccumulatorState) : i64 :=
  match a with
  | AStratified s => stratified_sample_count s
  | AEmpty s => sample_count s
  | AVector s => vector_sample_count s
  | AGammaloop s => gamma_sample_count s
  | AFullVector s => full_sample_count s
  end.

(** ** Laws of the union *)

Definition state_ok (a : AccumulatorState) : Prop :=
  match a with
  | AStratified s => accepted s
  | AEmpty s => accepted s
  | AVector s => accepted s
  | AGammaloop s => accepted s
  | AFullVector s => accepted s
  end.

#[export] Instance state_accumulator : Accumulator AccumulatorState := {
  sample_count := state_sample_count;
  merge := state_merge
}.

Lemma within_cases {S} `{AccumulatorLaws S} (wrap : S -> AccumulatorState) (a b : S) c r :
  accepted a -> accepted b -> within wrap (merge b) a = (c, r) ->
  (exists e, r = Err e /\ c = wrap a) \/
  (r = Ok tt /\ exists c', c = wrap c' /\ accepted c' /\ sample_count c' = sample_count a + sample_count b).
Proof.
  intros Ha Hb. unfold within. destruct (merge b a) as [c' r'] eqn:E. intros [= <- <-].
  destruct r' as [[]|e].
  - right. split; [done|]. exists c'. split; [done|]. by apply merge_accepted.
  - left. exists e. split; [done|]. f_equal. by eapply merge_atomic.
Qed.

Lemma state_merge_cases a b c r :
  state_ok a -> state_ok b -> state_merge b a = (c, r) ->
  (exists e, r = Err e /\ c = a) \/
  (r = Ok tt /\ state_ok c /\ kind_str c = kind_str a /\ kind_str b = kind_str a /\
   state_sample_count c = state_sample_count a + state_sample_count b).
Proof.
  intros Ha Hb Hm.
  destruct a as [a|a|a|a|a], b as [b|b|b|b|b]; try (cbn in Hm; simplify_eq; left; eauto; fail).
  - destruct (within_cases AStratified a b c r Ha Hb Hm) as [|(-> & c' & -> & Hc)]; [by left|].
    right. split_and!; try done; apply Hc.
  - destruct (within_cases AEmpty a b c r Ha Hb Hm) as [|(-> & c' & -> & Hc)]; [by left|].
    right. split_and!; try done; apply Hc.
  - destruct (within_cases AVector a b c r Ha Hb Hm) as [|(-> & c' & -> & Hc)]; [by left|].
    right. split_and!; try done; apply Hc.
  - destruct (within_cases AGammaloop a b c r Ha Hb Hm) as [|(-> & c' & -> & Hc)]; [by left|].
    right. split_and!; try done; apply Hc.
  - destruct (within_cases AFullVector a b c r Ha Hb Hm) as [|(-> & c' & -> & Hc)]; [by left|].
    right. split_and!; try done; apply Hc.
Qed.

#[export] Program Instance state_laws : AccumulatorLaws AccumulatorState := {
  accepted := state_ok
}.
Next Obligation. intros [] Ha; by apply sample_count_nonneg in Ha. Qed.
Next Obligation.
  intros a b c Ha Hb Hm. destruct (state_merge_cases a b c _ Ha Hb Hm) as [(e & ? & _)|(_ & ? & _ & _ & ?)]; done.
Qed.
Next Obligation.
  intros a b c e Ha Hb Hm. by destruct (state_merge_cases a b c _ Ha Hb Hm) as [(? & _ & ?)|(? & _)].
Qed.

(** C37: merging worker results. For every kind of accumulator, merging two
    accumulators that publication accepts either succeeds, and then the result
    is accepted, keeps its kind and counts the samples of both, or fails, and
    then the destination is unchanged: no error leaves a partial merge. *)
Theorem merge_all_or_nothing a b c r
    (Ha : state_ok a) (Hb : state_ok b) (Hmerge : state_merge b a = (c, r)) :
  match r with
  | Ok _ => state_ok c /\ kind_str c = kind_str a /\ kind_str b = kind_str a /\
            state_sample_count c = state_sample_count a + state_sample_count b
  | Err _ => c = a
  end.
Proof.
  by destruct (state_merge_cases a b c r Ha Hb Hmerge) as [(e & -> & ->)|(-> & Hc)].
Qed.

End state.

(** An empty accumulator absorbs another; a vector refuses it. *)
#[local] Instance ex_libm : Libm := {|
  hypot a b := PrimFloat.sqrt (a * a + b * b)%float;
  powf a _ := a;
  powi a _ := a
|}.
#[local] Instance ex_observables : Observables := {|
  bundle := unit;
  histogram := unit;
  bundle_default := tt;
  histograms _ := [];
  histogram_bins _ := [];
  histogram_sample_count _ := 0;
  bundle_merge_in_place _ _ := Ok tt
|}.

Definition ex_add (v : f64) (s : VectorAccumulatorState) : VectorAccumulatorState :=
  (ingest_vector_with_details [v] (mkPoint [v] [] []) None None s).1.
Definition ex_fresh : VectorAccumulatorState :=
  vector_from_config ["value"%string] (Component "value") None MaxOrder2.
Definition ex_one : VectorAccumulatorState := ex_add 3 ex_fresh.
Definition ex_two : VectorAccumulatorState := ex_add (-2) (ex_add 1 ex_fresh).

Lemma ex_add_inv n v s :
  is_ok (ingest_vector_with_details [v] (mkPoint [v] [] []) None None s).2 = true ->
  vector_inv n s /\ vec_partition s = None -> vector_inv (n + 1) (ex_add v s) /\ vec_partition (ex_add v s) = None.
Proof.
  unfold ex_add. destruct (ingest_vector_with_details _ _ _ _ s) as [s' [r|]] eqn:E; [|done]. intros _ [Hs Hp].
  by destruct (ingest_vector_ok n _ _ _ _ _ _ _ Hs Hp E) as (? & ? & _).
Qed.

Lemma ex_fresh_inv : vector_inv 0 ex_fresh /\ vec_partition ex_fresh = None.
Proof. split; [|done]. apply vector_from_config_inv, config_vector_validate. vm_compute. reflexivity. Qed.

Lemma merge_all_or_nothing_witness :
  state_sample_count (state_merge (AVector ex_one) (AVector ex_two)).1 = 3 /\
  (state_merge (AEmpty mkEmpty) (AVector ex_two)).1 = AVector ex_two.
Proof.
  assert (state_ok (AVector ex_two)) as H2.
  { apply (vector_inv_ok 2). apply (ex_add_inv 1); [vm_compute; reflexivity|].
    apply (ex_add_inv 0); [vm_compute; reflexivity|exact ex_fresh_inv]. }
  assert (state_ok (AVector ex_one)) as H1.
  { apply (vector_inv_ok 1). apply (ex_add_inv 0); [vm_compute; reflexivity|exact ex_fresh_inv]. }
  split.
  - pose proof (merge_all_or_nothing (AVector ex_two) (AVector ex_one)
      (state_merge (AVector ex_one) (AVector ex_two)).1 (Ok tt) H2 H1 ltac:(vm_compute; reflexivity))
      as (_ & _ & _ & H).
    rewrite H. vm_compute. reflexivity.
  - destruct (state_merge (AEmpty mkEmpty) (AVector ex_two)) as [c r] eqn:E. cbn [fst].
    assert (r = Err (EngineE "cannot merge accumulators of different kinds")) as -> by (cbn in E; congruence).
    exact (merge_all_or_nothing (AVector ex_two) (AEmpty mkEmpty) c _ H2 I E).
Defined.
