(* ===== verification/Extraction.v ===== *)
(** src/evaluation/accumulator/metrics.rs and the metric of
    src/evaluation/accumulator/stratified.rs: reading a named metric off an
    accumulator, with and without the throughput of the run. *)
From S2P Require Import Prelude Lex Floats Errors Batch Config AccumulatorTrait Scalar Stratification Vector FullVector Gammaloop Stratified AccumulatorState.

Inductive AccumulatorMetricName :=
| MMean | MAbsMean | MError | MRelativeError | MVariance | MRelativeVarianceError | MRsd | MEss
| MTimeNormalizedVariance.
#[export] Instance MetricName_eq_dec : EqDecision AccumulatorMetricName.
Proof. solve_decision. Defined.

Record AccumulatorMetricSelector := mkSelector {
  sel_name : AccumulatorMetricName;
  sel_component : option string
}.

Inductive EstimateKind := EPooled | EStratified | ECombined.

Record MeasurementResult := mkMeasurement {
  mr_estimator : EstimateKind;
  mr_basic : option BasicEstimate;
  mr_name : AccumulatorMetricName;
  mr_component : option string;
  mr_value : f64;
  mr_uncertainty : option f64;
  mr_sample_count : i64
}.

Definition relative_error (value abs_error : f64) : f64 :=
  let denominator := PrimFloat.abs value in
  if PrimFloat.eqb denominator 0 then (if PrimFloat.eqb abs_error 0 then 0%float else PrimFloat.infinity)
  else PrimFloat.div (PrimFloat.abs abs_error) denominator.

Section extraction.
Context `{LM : Libm} {OB : Observables}.

(** [metric_for_scalar]. The time-normalised variance is handled before
    ([unreachable!] in the source). *)
Definition scalar_metric_value (state : ScalarCore) (name : AccumulatorMetricName) : option f64 :=
  match name with
  | MMean => Some (mean state)
  | MAbsMean => Some (mean_abs state)
  | MError => stderr state
  | MRelativeError => e ← stderr state; Some (relative_error (mean state) e)
  | MVariance => Some (variance state)
  | MRelativeVarianceError =>
      Some (match variance_stderr state with
            | Some error => relative_error (variance state) error
            | None => PrimFloat.infinity
            end)
  | MRsd => Some (rsd state)
  | MEss => Some (ess state)
  | MTimeNormalizedVariance => None
  end.

Definition scalar_metric_uncertainty (state : ScalarCore) (name : AccumulatorMetricName) : option f64 :=
  match name with
  | MMean => stderr state
  | MAbsMean => mean_abs_stderr state
  | MVariance => variance_stderr state
  | MRsd => rsd_stderr state
  | _ => None
  end.

Definition needs_two_samples (name : AccumulatorMetricName) : bool :=
  match name with MVariance | MRelativeVarianceError | MRsd => true | _ => false end.

Definition metric_for_scalar (state : ScalarCore) (name : AccumulatorMetricName) (component : option string)
    : option MeasurementResult :=
  if count state =? 0 then None
  else if (count state <? 2) && needs_two_samples name then None
  else
    value ← scalar_metric_value state name;
    if negb (PrimFloat.is_finite value) then None
    else Some (mkMeasurement EPooled None name component value (scalar_metric_uncertainty state name) (count state)).

Definition is_training (component : option string) : bool :=
  match component with None => true | Some c => String.eqb c training_projection_name end.

Definition metric_for_vector (vector : VectorAccumulatorState) (selector : AccumulatorMetricSelector)
    : option MeasurementResult :=
  if is_training (sel_component selector) then
    p ← projection vector;
    metric_for_scalar (core (named_state p)) (sel_name selector) (Some training_projection_name)
  else
    name ← sel_component selector;
    c ← component vector name;
    metric_for_scalar (core (named_state c)) (sel_name selector) (Some (named_name c)).

Definition metric_for_gammaloop (gammaloop : GammaLoopAccumulatorState) (selector : AccumulatorMetricSelector)
    : option MeasurementResult :=
  if bool_decide (sel_component selector = Some "norm"%string) then
    s ← norm_statistics gammaloop;
    metric_for_scalar s (sel_name selector) (Some "norm"%string)
  else if is_training (sel_component selector) then
    s ← training_statistics gammaloop;
    metric_for_scalar s (sel_name selector) (Some training_projection_name)
  else metric_for_vector (estimate gammaloop) selector.

(** *** The stratified metric *)

Definition stratified_component (self : StratifiedAccumulatorState) (component : option string)
    : option string :=
  match pooled self with
  | Some g =>
      if is_training component then
        Some (match training_projection g with
              | Some PReal => "real"
              | Some PImag => "imag"
              | Some PAbsSq => "norm_squared"
              | _ => "norm"
              end)%string
      else component
  | None => component
  end.

Definition named_index (self : StratifiedAccumulatorState) (name : string) : option usize :=
  position_from (String.eqb name) (plan_components (st_plan self)) 0.

Definition stratified_index (self : StratifiedAccumulatorState) (component : option string) : option usize :=
  let has_pool := match pooled self with Some _ => true | None => false end in
  if has_pool && bool_decide (component = Some "norm"%string) then Some 2
  else if has_pool && bool_decide (component = Some "norm_squared"%string) then Some 3
  else if is_training component then
    match st_config self with
    | CVector _ Norm _ _ => Some (zlen (plan_components (st_plan self)))
    | CVector _ (Component name) _ _ => named_index self name
    | _ => None
    end
  else name ← component; named_index self name.

(** Pooled sample variance, ESS and absolute moments do not describe this
    estimator. *)
Definition stratified_metric_value (name : AccumulatorMetricName) (mean : f64) (error : option f64) : option f64 :=
  match name with
  | MMean => Some mean
  | MError => error
  | MRelativeError => e ← error; Some (relative_error mean e)
  | _ => None
  end.

Definition stratified_metric (self : StratifiedAccumulatorState) (selector : AccumulatorMetricSelector)
    : option MeasurementResult :=
  index ← stratified_index self (stratified_component self (sel_component selector));
  means ← stratified_mean self;
  mean ← zget means index;
  let width := match strata self with s :: _ => zlen (st_mean s) | [] => 0 end in
  let error := c ← covariance self; d ← zget c (index * width + index); Some (PrimFloat.sqrt (f64_max d 0)) in
  value ← stratified_metric_value (sel_name selector) mean error;
  if negb (PrimFloat.is_finite value) then None
  else
    let is_mean := bool_decide (sel_name selector = MMean) in
    Some (mkMeasurement EStratified
            (if is_mean then (v ← basic_estimates self; zget v index) else None)
            (sel_name selector)
            (Some (default training_projection_name (sel_component selector)))
            value (if is_mean then error else None) (stratified_sample_count self)).

(** *** Dispatch *)

Definition extract_accumulator_metric (state : AccumulatorState) (selector : AccumulatorMetricSelector)
    : option MeasurementResult :=
  if bool_decide (sel_name selector = MTimeNormalizedVariance) then None
  else
    match state with
    | AStratified s => stratified_metric s selector
    | AVector v => metric_for_vector v selector
    | AGammaloop g => metric_for_gammaloop g selector
    | AEmpty _ | AFullVector _ => None
    end.

Definition extract_accumulator_metric_with_runtime (state : AccumulatorState)
    (selector : AccumulatorMetricSelector) (completed_samples_per_second : option f64)
    : option MeasurementResult :=
  if negb (bool_decide (sel_name selector = MTimeNormalizedVariance)) then
    extract_accumulator_metric state selector
  else
    rate ← completed_samples_per_second;
    if negb (PrimFloat.is_finite rate && PrimFloat.ltb 0 rate) then None
    else
      variance ← extract_accumulator_metric state (mkSelector MVariance (sel_component selector));
      Some (mkMeasurement (mr_estimator variance) None MTimeNormalizedVariance (mr_component variance)
              (PrimFloat.div (mr_value variance) rate)
              (option_map (fun u => PrimFloat.div u rate) (mr_uncertainty variance))
              (mr_sample_count variance)).

Record ProjectedEstimate := mkEstimate { pe_value : f64; pe_error : f64 }.

Definition default_selector (state : AccumulatorState) : AccumulatorMetricSelector :=
  mkSelector MMean (match state_gammaloop state with Some _ => Some "norm"%string | None => None end).

Definition estimate_for_stop (state : AccumulatorState) (selector : option AccumulatorMetricSelector)
    (rate : option f64) : option ProjectedEstimate :=
  metric ← extract_accumulator_metric_with_runtime state (default (default_selector state) selector) rate;
  error ← mr_uncertainty metric;
  Some (mkEstimate (mr_value metric) error).

(** ** What a reported metric satisfies *)

Lemma metric_for_scalar_ok s name c r :
  metric_for_scalar s name c = Some r ->
  PrimFloat.is_finite (mr_value r) = true /\ mr_name r = name /\ mr_sample_count r = count s /\
  mr_sample_count r <> 0.
Proof.
  unfold metric_for_scalar. destruct (count s =? 0) eqn:E; [done|]. destruct (_ && _); [done|].
  destruct (scalar_metric_value s name) as [v|]; [|done]. cbn [mbind option_bind].
  destruct (PrimFloat.is_finite v) eqn:Ef; [|done]. cbn [negb]. intros [= <-]. zbool. done.
Qed.

Lemma stratified_metric_ok s selector r :
  stratified_metric s selector = Some r ->
  PrimFloat.is_finite (mr_value r) = true /\ mr_name r = sel_name selector /\
  mr_sample_count r = stratified_sample_count s /\ Forall (fun m => st_attempts m <> 0) (strata s).
Proof.
  unfold stratified_metric, stratified_mean.
  destruct (stratified_index _ _) as [i|]; [|done]. cbn [mbind option_bind].
  destruct (existsb _ _) eqn:Ex; [done|]. destruct (head (strata s)) as [s0|]; [|done].
  cbn [mbind option_bind]. destruct (zget _ i) as [m|]; [|done]. cbn [mbind option_bind].
  destruct (stratified_metric_value _ _ _) as [v|]; [|done]. cbn [mbind option_bind].
  destruct (PrimFloat.is_finite v) eqn:Ef; [|done]. cbn [negb]. intros [= <-]. split_and!; [exact Ef|done..|].
  apply existsb_false in Ex. eapply Forall_impl; [exact Ex|]. intros x Hx. by apply Z.eqb_neq.
Qed.

End extraction.
