(* ===== verification/Evaluation.v ===== *)
(** src/evaluation/stratification.rs, the options of src/evaluation/traits.rs
    and the results of src/evaluation/batch.rs: stripping the stratum prefix
    off a batch, accumulating its evaluated rows under a plan, and the
    checks a result passes before it is published.

    A panic on an index (a stratum label past the last center) is the error
    [label_panic]. *)
From S2P Require Import Prelude Lex Floats Errors Domain Batch Config LatentBatch Feedback AccumulatorTrait Scalar Stratification Vector FullVector Gammaloop Stratified AccumulatorState.

Section evaluation.
Context `{LM : Libm} {OB : Observables}.

Definition label_panic : EngineError := EngineE "panicked: validated stratum label".

(** ** [EvalBatchOptions] *)

Record EvalBatchOptions := mkOptions {
  require_training_values : bool;
  stratification : option (StratificationPlan * list usize)
}.

(** [raw.chunks_exact(width)] *)
Definition rows (width : usize) (raw : list f64) : list (list f64) := chunks_exact (length raw) width raw.

Definition stratum_assignment (o : EvalBatchOptions) (index : usize) (values : list f64)
    : result EngineError (option StratumPair) :=
  match stratification o with
  | None => Ok None
  | Some (plan, labels) =>
      let? requested := ok_or (Eval "missing stratum assignment") (zget labels index) in
      let? actual := classify (partition plan) values in
      let? p := ok_or label_panic (partition_prefix (partition plan) requested) in
      let? q := ok_or label_panic (partition_prefix (partition plan) actual) in
      Ok (Some (p, q))
  end.

Definition options_matches (o : EvalBatchOptions) (index : usize) (values : list f64) : result EngineError bool :=
  match stratification o with
  | Some (plan, labels) =>
      let? label := ok_or (Eval "missing stratum label") (zget labels index) in
      plan_matches plan label values
  | None => Ok true
  end.

(** [counts[label] += by] *)
Definition bump (counts : list u64) (label : usize) (by_ : Z) : option (list u64) :=
  if (0 <=? label) && (label <? zlen counts)
  then Some (alter (fun n => n + by_) (Z.to_nat label) counts) else None.

Definition diagnostics_new (plan : StratificationPlan) (feedback : u64) : PartitionDiagnostics :=
  let n := length (centers (partition plan)) in
  mkDiagnostics (partition plan) (replicate n 0) (replicate n 0) feedback.

Definition count_draw (requested actual : usize) (d : PartitionDiagnostics) : result EngineError PartitionDiagnostics :=
  let? a := ok_or label_panic (bump (attempts d) requested 1) in
  let? m := ok_or label_panic (bump (matches d) requested (Z.b2z (requested =? actual))) in
  Ok (mkDiagnostics (pd_partition d) a m (feedback_samples d)).

Definition partition_diagnostics (o : EvalBatchOptions) (raw : list f64) (width : usize)
    : result EngineError (option PartitionDiagnostics) :=
  match stratification o with
  | None => Ok None
  | Some (plan, labels) =>
      if (width =? 0) || negb (zlen raw =? width * zlen labels) then
        Err (Eval "partition diagnostic layout mismatch")
      else
        let? d :=
          try_fold (fun d '(requested, values) =>
            let? actual := classify (partition plan) values in count_draw requested actual d)
            (diagnostics_new plan (if require_training_values o then zlen labels else 0))
            (zip labels (rows width raw)) in
        let? _ := diagnostics_validate (zlen labels) d in
        Ok (Some d)
  end.

Definition options_feedback (o : EvalBatchOptions) (unmasked : option (list f64)) (raw : list f64) (width : usize)
    : result EngineError (option Feedback) :=
  match unmasked with
  | None => Ok None
  | Some values =>
      let feedback := feedback_new values in
      let? feedback :=
        match stratification o with
        | None => Ok feedback
        | Some (plan, labels) =>
            if (width =? 0) || negb (zlen raw =? zlen labels * width)
               || negb (feedback_len feedback =? zlen labels) then
              Err (Eval "training feedback/stratum sample count mismatch")
            else
              let? actual := try_map (classify (partition plan)) (rows width raw) in
              Ok (mkFeedback values (Some (mkStratumAssignments (partition_prefixes (partition plan)) labels actual)))
        end in
      let? _ := feedback_validate feedback in
      Ok (Some feedback)
  end.

Definition options_validate (o : EvalBatchOptions) (samples : usize) (components : list string)
    : result EngineError unit :=
  match stratification o with
  | None => Ok tt
  | Some (plan, labels) =>
      let? _ := plan_validate plan in
      if negb (zlen labels =? samples) || negb (bool_decide (plan_components plan = components))
         || existsb (fun k => k >=? zlen (centers (partition plan))) labels then
        Err (Eval "stratification batch layout mismatch")
      else Ok tt
  end.

(** ** Results *)

Record BatchResult := mkBatchResult {
  feedback : option Feedback;
  accumulator : AccumulatorState
}.

Definition result_validate_values (r : BatchResult) : result EngineError unit :=
  let? _ := match feedback r with Some f => feedback_validate f | None => Ok tt end in
  validate_values (accumulator r).

Definition counts_rows (a : AccumulatorState) : bool :=
  match a with AVector _ | AFullVector _ | AStratified _ => true | _ => false end.

Definition validate_for_batch (r : BatchResult) (nr_samples : usize) (require_training_values : bool)
    : result EngineError unit :=
  let? _ := result_validate_values r in
  if negb (Bool.eqb (negb (is_none (feedback r))) require_training_values) then
    Err (Eval "feedback presence does not match the batch request")
  else if match feedback r with Some f => negb (feedback_len f =? nr_samples) | None => false end then
    Err (Eval "training feedback length does not match batch sample count")
  else if counts_rows (accumulator r) && negb (state_sample_count (accumulator r) =? nr_samples) then
    Err (Eval "accumulator count does not match the batch")
  else Ok tt.

(** ** [integrand_batch] *)

Definition strip_point (plan : StratificationPlan) (p : Point) : result EngineError (Point * usize) :=
  let? label := ok_or (Eval "missing or invalid stratum prefix")
                  (position_from (starts_with (discrete p)) (partition_prefixes (partition plan)) 0) in
  let? prefix := ok_or label_panic (partition_prefix (partition plan) label) in
  Ok (mkPoint (continuous p) (drop (length prefix) (discrete p)) (weight_factors p), label).

Definition integrand_batch (batch : list Point) (plan : StratificationPlan)
    : result EngineError (list Point * list usize) :=
  let? _ := plan_validate plan in
  let? l := try_map (strip_point plan) batch in
  Ok (map fst l, map snd l).

(** ** [accumulate_values] *)

Record Accumulation := mkAccumulation {
  ac_state : AccumulatorState;
  ac_diagnostics : option PartitionDiagnostics;
  ac_feedback : option (list f64)
}.

(** The run of one fallible method on local state. *)
Definition run {S A} (m : SE S EngineError A) (s : S) : result EngineError S :=
  let '(s, r) := m s in let? _ := r in Ok s.

(** The stratum requested for row [i] and the one it fell in. *)
Definition row_labels (o : EvalBatchOptions) (i : usize) (raw : list f64)
    : result EngineError (option (StratificationPlan * usize * usize)) :=
  match stratification o with
  | None => Ok None
  | Some (plan, labels) =>
      let? actual := classify (partition plan) raw in
      let? requested := ok_or label_panic (zget labels i) in
      Ok (Some (plan, requested, actual))
  end.

Definition assignment_of (l : option (StratificationPlan * usize * usize)) : result EngineError (option StratumPair) :=
  match l with
  | None => Ok None
  | Some (plan, requested, actual) =>
      let? p := ok_or label_panic (partition_prefix (partition plan) requested) in
      let? q := ok_or label_panic (partition_prefix (partition plan) actual) in
      Ok (Some (p, q))
  end.

Definition assignment_matches (a : option StratumPair) : bool :=
  match a with Some (requested, actual) => zlist_eqb requested actual | None => true end.

Definition ingest_row (label : option usize) (gated : list f64) (point : Point) (matched : bool)
    (assignment : option StratumPair) (state : AccumulatorState) : result EngineError AccumulatorState :=
  match state with
  | AVector v => let? v := run (ingest_vector_with_details gated point None assignment) v in Ok (AVector v)
  | AStratified s =>
      let? label := ok_or label_panic label in
      let? s := run (push_with_diagnostics label gated (total_weight point) matched
                       (option_map (fun a => (point, a)) assignment)) s in
      Ok (AStratified s)
  | AFullVector f =>
      let? f := run (push_vector (map (fun x => PrimFloat.mul x (total_weight point)) gated)) f in
      Ok (AFullVector f)
  | AEmpty e => let? e := run (empty_ingest_scalar (default 0%float (head gated)) point) e in Ok (AEmpty e)
  | AGammaloop _ => Err (InvalidInputE "aggregate observable output cannot be gated after accumulation")
  end.

Definition projected_value (config : AccumulatorConfig) (components : list string) (raw : list f64)
    : result EngineError f64 :=
  match config with
  | CVector _ (Component name) _ _ =>
      let? i := ok_or projection_panic (position_from (fun n => String.eqb n name) components 0) in
      Ok (default 0%float (zget raw i))
  | CVector _ Norm _ _ | CGammaloop => Ok (hypot_norm raw)
  | _ => Ok (default 0%float (head raw))
  end.

Definition accumulate_row (o : EvalBatchOptions) (config : AccumulatorConfig) (components : list string)
    (acc : Accumulation) (x : usize * (Point * list f64)) : result EngineError Accumulation :=
  let '(i, (point, raw)) := x in
  let? labels := row_labels o i raw in
  let? d :=
    match ac_diagnostics acc, labels with
    | Some d, Some (_, requested, actual) => let? d := count_draw requested actual d in Ok (Some d)
    | d, _ => Ok d
    end in
  let? assignment := assignment_of labels in
  let matched := assignment_matches assignment in
  let gated := if matched then raw else map (fun _ => 0%float) raw in
  let? state := ingest_row (option_map (fun l => l.1.2) labels) gated point matched assignment (ac_state acc) in
  let? f :=
    match ac_feedback acc with
    | None => Ok None
    | Some f =>
        let? projected := projected_value config components raw in
        Ok (Some (f ++ [PrimFloat.mul projected (total_weight point)]))
    end in
  Ok (mkAccumulation state d f).

Definition initial_state (o : EvalBatchOptions) (batch : list Point) (components : list string)
    (config : AccumulatorConfig) : result EngineError AccumulatorState :=
  match stratification o with
  | None => Ok (state_from_config config)
  | Some (plan, labels) =>
      let? _ := plan_validate plan in
      let? _ := validate_accumulator (partition plan) config in
      if negb (zlen labels =? zlen batch) || negb (bool_decide (components = plan_components plan)) then
        Err (Eval "stratification batch layout mismatch")
      else
        match probabilities plan with
        | Some _ => let? s := stratified_new plan config in Ok (AStratified s)
        | None => Ok (state_from_config config)
        end
  end.

Definition is_full (c : AccumulatorConfig) : bool := match c with CFullVector _ => true | _ => false end.

(** [vector.partition = diagnostics] *)
Definition attach (d : option PartitionDiagnostics) (a : AccumulatorState) : AccumulatorState :=
  match a with
  | AVector v => AVector (mkVector (Vector.components v) d (projection_state v))
  | a => a
  end.

Definition indexed {A} (l : list A) : list (Z * A) := imap (fun i x => (Z.of_nat i, x)) l.

Definition accumulate_values (batch : list Point) (components : list string) (values : list f64)
    (config : AccumulatorConfig) (o : EvalBatchOptions) : result EngineError BatchResult :=
  let width := zlen components in
  if (width =? 0) || negb (zlen values =? zlen batch * width) || negb (all_finite values) then
    Err (Eval "invalid per-sample evaluator values")
  else if require_training_values o && is_full config && negb (width =? 1) then
    Err (InvalidInputE "full_vector training feedback requires a scalar output")
  else
    let? state := initial_state o batch components config in
    let d :=
      match state, stratification o with
      | AVector _, Some (plan, _) =>
          Some (diagnostics_new plan (if require_training_values o then zlen batch else 0))
      | _, _ => None
      end in
    let f := if require_training_values o then Some [] else None in
    let? acc := try_fold (accumulate_row o config components) (mkAccumulation state d f)
                  (indexed (zip batch (rows width values))) in
    let? f := options_feedback o (ac_feedback acc) values width in
    Ok (mkBatchResult f (attach (ac_diagnostics acc) (ac_state acc))).

(** ** [prepare_estimator]

    [stratified] and [explicit_accumulator] are the two tests on the task (a
    sample task with the stratified estimator; with an accumulator given by
    configuration); [discrete_mass_batch] is the sampler's method and
    [new_id] the fresh identifier. *)

Definition prepare_estimator (stratified explicit_accumulator : bool)
    (stratification : option StratificationConfig)
    (discrete_mass_batch : list (list i64) -> result EngineError (list (option f64)))
    (new_id : string) (state : AccumulatorState) (restoring : bool)
    : AccumulatorState * result EngineError (option StratificationPlan) :=
  let is_stratified := match state with AStratified _ => true | _ => false end in
  match stratification with
  | None =>
      (state, if stratified || is_stratified
              then Err (InvalidInputE "stratified estimation requires a matching sampling partition")
              else Ok None)
  | Some partition =>
      let plan :=
        let? config := state_config state in
        let? _ := validate_accumulator partition config in
        match state with
        | AStratified saved =>
            if negb stratified || negb restoring
               || negb (partition_eqb (Stratification.partition (st_plan saved)) partition) then
              Err (InvalidInputE "incompatible stratification accumulator handoff")
            else
              let? _ := stratified_validate saved in
              Ok (state, st_plan saved)
        | _ =>
            if stratified && (restoring || negb (state_sample_count state =? 0) || negb explicit_accumulator) then
              Err (InvalidInputE "stratified inference requires an explicit fresh accumulator")
            else
              let? probabilities :=
                if stratified then
                  let? masses := discrete_mass_batch (partition_prefixes partition) in
                  let? p := ok_or (InvalidInputE "sampler must provide exact discrete probabilities for stratification")
                              (mapM id masses) in
                  Ok (Some p)
                else Ok None in
              let? components := partition_components config in
              let plan := mkPlan new_id partition probabilities components in
              let? _ := plan_validate plan in
              if stratified then
                let? s := stratified_new plan config in
                Ok (AStratified s, plan)
              else Ok (state, plan)
        end in
      match plan with
      | Ok (state, plan) => (state, Ok (Some plan))
      | Err e => (state, Err e)
      end
  end.

(** ** [finish_gammaloop] *)

Definition option_first {A} (a b : option A) : option A := match a with Some _ => a | None => b end.

(** The loop of [update]: the extrema of the batch, with the evaluation of the
    sample previously saved for the same point. *)
Fixpoint update_observable_extrema (o : EvalBatchOptions) (project : list f64 -> f64)
    (saved : Point -> option SampleEvaluation) (i : usize) (batch : list Point) (values : list (list f64))
    (state : ScalarCore) : result EngineError ScalarCore :=
  match batch, values with
  | point :: batch, raw :: values =>
      let? assignment := stratum_assignment o i raw in
      let value :=
        if assignment_matches assignment then PrimFloat.mul (project raw) (total_weight point) else 0%float in
      if negb (PrimFloat.is_finite value) then Err (Eval "non-finite observable diagnostic contribution")
      else update_observable_extrema o project saved (i + 1) batch values
             (update_extrema value point (saved point) assignment state)
  | _, _ => Ok state
  end.

Definition clear_extrema (c : ScalarCore) : ScalarCore :=
  mkScalarCore (sc_projections c) (sc_moments c) (count c) (sums c) 0 0 None None.

Definition same_weights (a b : list WeightFactor) : bool :=
  f64_list_eqb (map value a) (map value b) && bool_decide (map label a = map label b).
Definition point_eqb (a b : Point) : bool :=
  f64_list_eqb (continuous a) (continuous b) && zlist_eqb (discrete a) (discrete b)
  && same_weights (weight_factors a) (weight_factors b).

Definition saved_evaluation (c : ScalarCore) (point : Point) : option SampleEvaluation :=
  let previous := omap id [max_weighted_positive_sample c; max_weighted_negative_sample c] in
  s ← find (fun saved => point_eqb (sample_point saved) point) previous;
  sample_evaluation s.

Definition annotate_scalar (o : EvalBatchOptions) (batch : list Point) (values : list (list f64))
    (project : list f64 -> f64) (s : ScalarAccumulatorState) : result EngineError ScalarAccumulatorState :=
  let? c := update_observable_extrema o project (saved_evaluation (core s)) 0 batch values (clear_extrema (core s)) in
  Ok (set_core c s).

Definition annotate_named (o : EvalBatchOptions) (batch : list Point) (values : list (list f64))
    (project : list f64 -> f64) (c : NamedScalarAccumulator) : result EngineError NamedScalarAccumulator :=
  let? s := annotate_scalar o batch values project (named_state c) in
  Ok (mkNamed (named_name c) s).

(** [raw[0].hypot(raw[1])] *)
Definition row_norm (raw : list f64) : f64 := hypot (nth 0 raw 0%float) (nth 1 raw 0%float).

Fixpoint annotate_components (o : EvalBatchOptions) (batch : list Point) (values : list (list f64)) (j : nat)
    (cs : list NamedScalarAccumulator) : result EngineError (list NamedScalarAccumulator) :=
  match cs with
  | [] => Ok []
  | c :: cs =>
      let? c := annotate_named o batch values (fun raw => nth j raw 0%float) c in
      let? cs := annotate_components o batch values (S j) cs in
      Ok (c :: cs)
  end.

Definition annotate_observable_extrema (state : GammaLoopAccumulatorState) (batch : list Point) (values : list f64)
    (o : EvalBatchOptions) : result EngineError GammaLoopAccumulatorState :=
  let rows := rows 2 values in
  let? cs := annotate_components o batch rows 0 (Vector.components (estimate state)) in
  let? p :=
    match projection_state (estimate state) with
    | ProjectionNorm c => let? c := annotate_named o batch rows row_norm c in Ok (ProjectionNorm c)
    | p => Ok p
    end in
  let? auxiliary :=
    match training_norm_sqr state with
    | Some s => let? s := annotate_scalar o batch rows (fun raw => powi (row_norm raw) 2) s in Ok (Some s)
    | None => Ok None
    end in
  Ok (mkGamma (gl_bundle state) (mkVector cs (vec_partition (estimate state)) p) (training_projection state)
        auxiliary (diagnostics state)).

Definition gammaloop_components : list string := ["real"; "imag"]%string.

Definition set_partition (d : option PartitionDiagnostics) (g : GammaLoopAccumulatorState) : GammaLoopAccumulatorState :=
  mkGamma (gl_bundle g) (mkVector (Vector.components (estimate g)) d (projection_state (estimate g)))
    (training_projection g) (training_norm_sqr g) (diagnostics g).

Definition finish_gammaloop (batch : list Point) (values : option (list f64)) (state : GammaLoopAccumulatorState)
    (training_values : option (list f64)) (o : EvalBatchOptions) : result EngineError BatchResult :=
  let raw := default [] values in
  let? d := partition_diagnostics o raw 2 in
  let state := set_partition d state in
  let? _ := gamma_validate state in
  let? _ := options_validate o (zlen batch) gammaloop_components in
  let? accumulator :=
    match stratification o with
    | None => Ok (AGammaloop state)
    | Some (plan, _) =>
        let? _ := validate_stratified_samples state (zlen batch) in
        let? values := ok_or (Eval "GammaLoop stratification requires per-sample real/imag values") values in
        if negb (zlen values =? zlen batch * 2) || negb (all_finite values) then
          Err (Eval "invalid GammaLoop stratification values")
        else
          let? state := annotate_observable_extrema state batch values o in
          match probabilities plan with
          | None => Ok (AGammaloop state)
          | Some _ =>
              let? result := accumulate_values batch gammaloop_components values CGammaloop
                               (mkOptions false (stratification o)) in
              match accumulator result with
              | AStratified s =>
                  let s := mkStratified (st_plan s) (st_config s) (strata s) (Some state) in
                  let? _ := stratified_validate s in
                  Ok (AStratified s)
              | _ => Err (EngineE "panicked: unreachable")
              end
          end
    end in
  let? f := options_feedback o training_values raw 2 in
  Ok (mkBatchResult f accumulator).

End evaluation.

(** ** Lemmas *)

Section lemmas.
Context `{LM : Libm} {OB : Observables}.

Lemma chunks_exact_length {A} fuel n (l : list A) k :
  0 < n -> zlen l = Z.of_nat k * n -> (k <= fuel)%nat -> length (chunks_exact fuel n l) = k.
Proof.
  intros Hn. revert k l. induction fuel as [|fuel IH]; intros k l Hl Hk; cbn [chunks_exact]; [cbn; lia|].
  destruct (zlen l <? n) eqn:E; zbool.
  - destruct k; [done|]. nia.
  - destruct k as [|k]; [lia|]. cbn [length]. f_equal. apply IH; [|lia]. rewrite zlen_zdrop by lia. lia.
Qed.

Lemma zlen_rows width (values : list f64) n :
  0 < width -> 0 <= n -> zlen values = n * width -> zlen (rows width values) = n.
Proof.
  intros Hw Hn Hl. unfold rows, zlen at 1.
  rewrite (chunks_exact_length _ _ _ (Z.to_nat n)); [lia|lia|lia|]. unfold zlen in Hl. nia.
Qed.

Lemma zlen_indexed {A} (l : list A) : zlen (indexed l) = zlen l.
Proof. unfold zlen, indexed. by rewrite length_imap. Qed.

Lemma bump_ok counts label b c :
  bump counts label b = Some c ->
  c = alter (fun n => n + b) (Z.to_nat label) counts /\ zsum c = zsum counts + b.
Proof.
  unfold bump. destruct (_ && _) eqn:E; [|done]. intros [= <-]. split; [done|]. zbool.
  assert (Z.to_nat label < length counts)%nat as Hi by (unfold zlen in *; lia). clear H H0.
  generalize dependent (Z.to_nat label). induction counts as [|x counts IH]; intros [|i] Hi; simpl in Hi; [lia|lia| |].
  - change (alter (fun n => n + b) 0%nat (x :: counts)) with ((x + b) :: counts). rewrite !zsum_cons. lia.
  - change (alter (fun n => n + b) (S i) (x :: counts)) with (x :: alter (fun n => n + b) i counts).
    rewrite !zsum_cons, IH by lia. lia.
Qed.

(** Counts under construction: they cover [k] draws. *)
Definition counting (plan : StratificationPlan) (fb k : Z) (d : PartitionDiagnostics) : Prop :=
  pd_partition d = partition plan /\ feedback_samples d = fb /\
  zlen (attempts d) = zlen (centers (partition plan)) /\
  Forall2 (fun m a => 0 <= m <= a) (matches d) (attempts d) /\ zsum (attempts d) = k.

Lemma diagnostics_new_counting plan fb : counting plan fb 0 (diagnostics_new plan fb).
Proof.
  unfold counting, diagnostics_new. cbn. split_and!; try done.
  - by rewrite zlen_replicate.
  - apply Forall2_replicate. lia.
  - by induction (length _).
Qed.

Lemma count_draw_counting plan fb k requested actual d d' :
  counting plan fb k d -> count_draw requested actual d = Ok d' -> counting plan fb (k + 1) d'.
Proof.
  intros (Hp & Hf & Hl & Hm & Hs). unfold count_draw. intros Hd.
  apply result_bind_ok in Hd as (a & Ha & Hd). apply result_bind_ok in Hd as (m & Hm' & [= <-]).
  destruct (bump (attempts d) requested 1) as [a'|] eqn:Ea; [|done]. injection Ha as ->.
  destruct (bump (matches d) _ _) as [m'|] eqn:Em; [|done]. injection Hm' as ->.
  apply bump_ok in Ea as [-> Hsum], Em as [-> _]. unfold counting. cbn [pd_partition feedback_samples attempts matches]. split_and!; [done|done| | |lia].
  - unfold zlen in *. by rewrite length_alter.
  - eapply Forall2_alter; [exact Hm|]. intros x y _ _ ?. destruct (requested =? actual); simpl; lia.
Qed.

Lemma counting_diag_ok plan n fb d :
  plan_validate plan = Ok tt -> 0 <= fb <= n -> counting plan fb n d -> diag_ok n d.
Proof.
  intros Hp Hfb (Hpd & Hf & Hl & Hm & Hs). unfold diag_ok. rewrite Hpd, Hf. split_and!; try done; try lia.
  unfold plan_validate in Hp. destruct (is_empty _); [done|]. by apply result_bind_ok in Hp as ([] & ? & _).
Qed.

(** The state of the loop after [k] rows. *)
Definition state_counts (k : Z) (a : AccumulatorState) : Prop :=
  match a with
  | AVector v => vector_inv k v /\ vec_partition v = None
  | AStratified s => stratified_inv k s /\ is_gammaloop (st_config s) = false
  | AFullVector f => full_inv k f
  | AEmpty _ => True
  | AGammaloop _ => False
  end.

Definition loop_inv (o : EvalBatchOptions) (fb k : Z) (acc : Accumulation) : Prop :=
  state_counts k (ac_state acc) /\
  match ac_diagnostics acc with
  | Some d => exists plan labels, stratification o = Some (plan, labels) /\ plan_validate plan = Ok tt /\ counting plan fb k d
  | None => True
  end /\
  match ac_feedback acc with
  | Some f => require_training_values o = true /\ zlen f = k
  | None => require_training_values o = false
  end.

Lemma run_ok {S A} (m : SE S EngineError A) s s' :
  run m s = Ok s' -> exists a, m s = (s', Ok a).
Proof. unfold run. destruct (m s) as [t [a|]]; simpl; [|done]. intros [= <-]. by exists a. Qed.

Lemma ingest_row_counts k label gated point matched assignment a a' :
  state_counts k a -> k + 1 <= i64_max -> (forall l, label = Some l -> 0 <= l) ->
  ingest_row label gated point matched assignment a = Ok a' -> state_counts (k + 1) a'.
Proof.
  intros Ha Hk Hlabel. unfold ingest_row. destruct a as [s|e|v|g|f]; intros Hi; [| | |done|].
  - apply result_bind_ok in Hi as (l & Hl & Hi). destruct label as [l'|]; [|done]. injection Hl as ->.
    apply result_bind_ok in Hi as (s' & Hs%run_ok & [= <-]). destruct Hs as ([] & Hs).
    destruct Ha as [Ha Hg]. eapply stratified_push_inv in Hs as (? & _ & Hc); eauto. split; [done|]. by rewrite Hc.
  - by apply result_bind_ok in Hi as (e' & _ & [= <-]).
  - apply result_bind_ok in Hi as (v' & Hv%run_ok & [= <-]). destruct Hv as (x & Hv).
    destruct Ha as [Ha Hp]. by eapply ingest_vector_ok in Hv as (? & ? & _).
  - apply result_bind_ok in Hi as (f' & Hf%run_ok & [= <-]). destruct Hf as ([] & Hf).
    by eapply push_vector_ok in Hf as (? & _).
Qed.

Lemma row_labels_elem o i raw plan requested actual labels :
  stratification o = Some (plan, labels) -> row_labels o i raw = Ok (Some (plan, requested, actual)) ->
  requested ∈ labels.
Proof.
  intros Ho. unfold row_labels. rewrite Ho. intros H'.
  apply result_bind_ok in H' as (a & _ & H'). apply result_bind_ok in H' as (r & Hr & [= <- _]).
  destruct (zget labels i) as [x|] eqn:E; [|done]. injection Hr as ->. by eapply zget_elem.
Qed.

Lemma row_labels_some o i raw l :
  row_labels o i raw = Ok l ->
  match stratification o with
  | None => l = None
  | Some (plan, labels) => exists requested actual, l = Some (plan, requested, actual) /\ requested ∈ labels
  end.
Proof.
  intros Hl. destruct (stratification o) as [[plan labels]|] eqn:Ho.
  - pose proof Hl as Hl'. unfold row_labels in Hl. rewrite Ho in Hl.
    apply result_bind_ok in Hl as (a & _ & Hl). apply result_bind_ok in Hl as (r & _ & [= <-]).
    exists r, a. split; [done|]. by eapply row_labels_elem.
  - unfold row_labels in Hl. rewrite Ho in Hl. by injection Hl as <-.
Qed.

Lemma accumulate_row_inv o config components fb k acc x acc' :
  (forall plan labels, stratification o = Some (plan, labels) -> Forall (fun l => 0 <= l) labels) ->
  loop_inv o fb k acc -> k + 1 <= i64_max -> accumulate_row o config components acc x = Ok acc' ->
  loop_inv o fb (k + 1) acc'.
Proof.
  intros Hlabels (Hs & Hd & Hf) Hk. unfold accumulate_row. destruct x as [i [point raw]]. intros Ha.
  apply result_bind_ok in Ha as (l & Hl%row_labels_some & Ha).
  apply result_bind_ok in Ha as (d & Hd' & Ha). apply result_bind_ok in Ha as (assignment & _ & Ha).
  apply result_bind_ok in Ha as (state & Hst & Ha). apply result_bind_ok in Ha as (f & Hf' & [= <-]).
  unfold loop_inv. cbn. split_and!.
  - eapply ingest_row_counts; [done|done| |exact Hst].
    destruct (stratification o) as [[plan labels]|] eqn:Ho; [|subst l; done].
    destruct Hl as (r & a & -> & Hr). cbn. intros ? [= <-].
    specialize (Hlabels _ _ eq_refl). rewrite Forall_forall in Hlabels. by apply Hlabels.
  - destruct (ac_diagnostics acc) as [d0|]; [|by destruct l as [[[? ?] ?]|]; injection Hd' as <-].
    destruct Hd as (plan & labels & Ho & Hp & Hc). rewrite Ho in Hl. destruct Hl as (r & a & -> & _).
    apply result_bind_ok in Hd' as (d' & Hd' & [= <-]). exists plan, labels. split_and!; [done|done|].
    by eapply count_draw_counting.
  - destruct (ac_feedback acc) as [f0|]; [|by injection Hf' as <-].
    apply result_bind_ok in Hf' as (p & _ & [= <-]). destruct Hf as [? <-]. split; [done|].
    rewrite zlen_app. done.
Qed.

Lemma state_from_config_counts config :
  config_validate config = Ok tt -> is_gammaloop config = false -> state_counts 0 (state_from_config config).
Proof.
  intros Hv Hg. destruct config as [|cs p ps m| |cs]; cbn; [done| |done|].
  - split; [|done]. apply vector_from_config_inv. by eapply config_validate_layout.
  - unfold full_inv, full_from_components. cbn. split_and!; try done. intros ->. done.
Qed.

Lemma initial_state_counts o batch components config a :
  config_validate config = Ok tt -> is_gammaloop config = false ->
  initial_state o batch components config = Ok a ->
  state_counts 0 a /\
  match stratification o with Some (plan, _) => plan_validate plan = Ok tt | None => True end.
Proof.
  intros Hv Hg. unfold initial_state. destruct (stratification o) as [[plan labels]|].
  - intros Hi. apply result_bind_ok in Hi as ([] & Hp & Hi). apply result_bind_ok in Hi as ([] & _ & Hi).
    destruct (_ || _) in Hi; [done|]. split; [|done]. destruct (probabilities plan).
    + apply result_bind_ok in Hi as (s & Hs & [= <-]). destruct (stratified_new_inv _ _ _ Hs Hg) as (? & _ & Hc).
      cbn. by rewrite Hc.
    + injection Hi as <-. by apply state_from_config_counts.
  - intros [= <-]. split; [by apply state_from_config_counts|done].
Qed.

Lemma options_feedback_ok o unmasked raw width f :
  options_feedback o unmasked raw width = Ok f ->
  match unmasked, f with
  | Some values, Some f => feedback_validate f = Ok tt /\ feedback_len f = zlen values
  | None, None => True
  | _, _ => False
  end.
Proof.
  unfold options_feedback. destruct unmasked as [values|]; [|by intros [= <-]].
  intros Hf. apply result_bind_ok in Hf as (g & Hg & Hf). apply result_bind_ok in Hf as ([] & Hv & [= <-]).
  split; [done|]. destruct (stratification o) as [[plan labels]|]; [|by injection Hg as <-].
  destruct (_ || _) in Hg; [done|]. by apply result_bind_ok in Hg as (a & _ & [= <-]).
Qed.

(** The published state of a nonempty batch is accepted by every merge. *)
Lemma attach_ok o fb n acc :
  0 < n -> 0 <= fb <= n -> loop_inv o fb n acc ->
  state_ok (attach (ac_diagnostics acc) (ac_state acc)) /\
  validate_values (attach (ac_diagnostics acc) (ac_state acc)) = Ok tt /\
  (counts_rows (attach (ac_diagnostics acc) (ac_state acc)) = true ->
   state_sample_count (attach (ac_diagnostics acc) (ac_state acc)) = n).
Proof.
  intros Hn Hfb (Hs & Hd & _). destruct (ac_state acc) as [s|e|v|g|f]; cbn in Hs |- *.
  - destruct Hs as [Hs _]. pose proof (stratified_validate_ok n s Hs) as Hv.
    destruct Hs as (_ & Ht & (w & _ & Hf) & _). split_and!; [split|done|done]; [|done].
    eapply Forall_impl; [exact Hf|]. by intros m [? _].
  - done.
  - destruct Hs as [Hv Hp].
    assert (vector_inv n (mkVector (Vector.components v) (ac_diagnostics acc) (projection_state v))) as Hinv.
    { destruct Hv as (H1 & H2 & H3 & H4 & _). refine (conj H1 (conj H2 (conj H3 (conj H4 _)))). cbn.
      destruct (ac_diagnostics acc) as [d|]; [|done]. destruct Hd as (plan & labels & _ & Hpl & Hc).
      split; [lia|]. by eapply counting_diag_ok. }
    split_and!; [by eapply vector_inv_ok|by eapply vector_validate_ok|]. intros _. by eapply vector_inv_count.
  - done.
  - pose proof (full_inv_count n f Hs) as Hc. split_and!; [..|done]; by rewrite full_validate_spec, Hc.
Qed.

(** evaluation publishes valid results. Whenever rows of evaluated values
    are accumulated for a nonempty batch, under any sampling plan, the result
    passes every check made before it is stored: its feedback is valid and has
    one value per draw exactly when it was requested, its accumulator is valid
    and counts each draw once, misses included, and it can be merged. *)
Theorem accumulated_results_are_valid batch components values config o r
    (Hconfig : config_validate config = Ok tt) (Hkind : is_gammaloop config = false)
    (Hbatch : batch <> []) (Hsize : zlen batch <= i64_max)
    (Hlabels : forall plan labels, stratification o = Some (plan, labels) -> Forall (fun l => 0 <= l) labels)
    (Hrun : accumulate_values batch components values config o = Ok r) :
  validate_for_batch r (zlen batch) (require_training_values o) = Ok tt /\
  state_ok (accumulator r).
Proof.
  unfold accumulate_values in Hrun. destruct (_ || _) eqn:Hshape in Hrun; [done|].
  destruct (_ && _) in Hrun; [done|]. zbool. apply negb_false_iff in H0.
  apply result_bind_ok in Hrun as (a & Ha & Hrun). apply result_bind_ok in Hrun as (acc & Hacc & Hrun).
  apply result_bind_ok in Hrun as (f & Hf & [= <-]).
  destruct (initial_state_counts _ _ _ _ _ Hconfig Hkind Ha) as [Hs0 Hplan].
  pose proof (zlen_nonneg components). pose proof (zlen_pos batch Hbatch).
  set (fb := if require_training_values o then zlen batch else 0) in *.
  assert (zlen (indexed (zip batch (rows (zlen components) values))) = zlen batch) as Hlen.
  { rewrite zlen_indexed. unfold zlen at 1. rewrite length_zip_with_l_eq; [done|].
    pose proof (zlen_rows (zlen components) values (zlen batch)) as Hr. unfold zlen in *. lia. }
  assert (loop_inv o fb (zlen batch) acc) as Hinv.
  { rewrite <- Hlen. match goal with |- loop_inv _ _ ?n _ => rewrite <- (Z.add_0_l n) end. eapply (try_fold_count _ (loop_inv o fb) _ _ i64_max); [| | |exact Hacc].
    - intros. by eapply accumulate_row_inv.
    - lia.
    - unfold loop_inv. cbn. split_and!; [done| |by destruct (require_training_values o)].
      destruct a; try done. destruct (stratification o) as [[plan labels]|] eqn:Ho; [|done].
      exists plan, labels. split_and!; [done|done|apply diagnostics_new_counting]. }
  assert (0 <= fb <= zlen batch) as Hfb by (unfold fb; destruct (require_training_values o); lia).
  destruct (attach_ok o fb (zlen batch) acc ltac:(lia) Hfb Hinv) as (Hok & Hv & Hcount).
  split; [|done]. apply options_feedback_ok in Hf. destruct Hinv as (_ & _ & Hfeed).
  unfold validate_for_batch, result_validate_values. cbn [feedback accumulator].
  destruct (ac_feedback acc) as [l|], f as [f|]; try done.
  - destruct Hf as [Hfv Hfl], Hfeed as [Hreq Hfn]. rewrite Hfv, Hreq, Hfl, Hfn, Z.eqb_refl. cbn [result_bind].
    rewrite Hv. cbn. destruct (counts_rows _); [|done]. by rewrite Hcount, Z.eqb_refl.
  - cbn [result_bind]. rewrite Hv, Hfeed. cbn. destruct (counts_rows _); [|done]. by rewrite Hcount, Z.eqb_refl.
Qed.

(** *** Stratum prefixes *)

Lemma plan_prefixes plan :
  plan_validate plan = Ok tt ->
  prefix_table (partition_prefixes (partition plan)) /\ Forall (fun p => p <> []) (partition_prefixes (partition plan)).
Proof.
  unfold plan_validate. destruct (is_empty _); [done|]. intros ([] & Hv & _)%result_bind_ok.
  apply partition_validate_ok in Hv as (Ht & (d & Hd) & _).
  unfold stratum_prefixes in Ht. apply result_bind_ok in Ht as ([] & Hv & [= Ht]).
  unfold domain_validate in Hv. rewrite <- Ht. split; [by eapply prefixes_visit_table|].
  unfold with_integrand in Hd. apply result_bind_ok in Hd as (ip & _ & Hd). destruct (negb _) in Hd; [done|].
  apply result_bind_ok in Hd as (sp & Hsp & Hd). destruct (existsb _ sp) eqn:E in Hd; [done|].
  unfold stratum_prefixes in Hsp. apply result_bind_ok in Hsp as (? & _ & [= <-]).
  apply existsb_false in E. eapply Forall_impl; [exact E|]. by intros [].
Qed.

Lemma position_from_none {A} (p : A -> bool) l i :
  position_from p l i = None -> Forall (fun x => p x = false) l.
Proof.
  revert i. induction l as [|x l IH]; intros i; simpl; [constructor|].
  destruct (p x) eqn:E; [done|]. constructor; [done|by eapply IH].
Qed.

Lemma zget_spec {A} (l : list A) i x : zget l i = Some x <-> 0 <= i /\ l !! Z.to_nat i = Some x.
Proof. unfold zget. destruct (Z.leb_spec 0 i); [tauto|]. split; [done|]. lia. Qed.

(** In a table a tuple determines the only label whose prefix it extends. *)
Lemma prefix_label_unique t l k k' p p' :
  prefix_table t -> zget t k = Some p -> zget t k' = Some p' ->
  starts_with l p = true -> starts_with l p' = true -> k = k'.
Proof.
  intros Ht Hk Hk' Hp Hp'. pose proof (zget_elem _ _ _ Hk). pose proof (zget_elem _ _ _ Hk').
  assert (p = p') as -> by (by eapply prefix_table_unique).
  apply zget_spec in Hk as [? Hk], Hk' as [? Hk'].
  pose proof (NoDup_lookup t _ _ p' (prefix_table_NoDup t Ht) Hk Hk'). lia.
Qed.

(** [q] is [p] with its stratum prefix, that of label [k], removed. *)
Definition stripped (plan : StratificationPlan) (p : Point) (x : Point * usize) : Prop :=
  exists prefix, zget (partition_prefixes (partition plan)) x.2 = Some prefix /\ prefix <> [] /\
    discrete p = prefix ++ discrete x.1 /\ continuous x.1 = continuous p /\
    weight_factors x.1 = weight_factors p.

Lemma strip_point_ok plan p x :
  Forall (fun p => p <> []) (partition_prefixes (partition plan)) ->
  strip_point plan p = Ok x -> stripped plan p x.
Proof.
  intros Hne. unfold strip_point. intros (k & Hk & (prefix & Hp & [= <-])%result_bind_ok)%result_bind_ok.
  destruct (position_from _ _ _) as [k'|] eqn:E; [|done]. injection Hk as ->.
  unfold partition_prefix in Hp. destruct (zget _ k) as [q|] eqn:Eq; [|done]. injection Hp as ->.
  apply position_from_spec in E as [? (y & Hy & Hs)]. rewrite Z.sub_0_r in Hy.
  assert (y = prefix) as -> by (apply zget_spec in Eq as [_ Eq]; congruence).
  exists prefix. cbn. split_and!; [done| | |done|done].
  - rewrite Forall_forall in Hne. eapply Hne, zget_elem, Eq.
  - apply starts_with_spec in Hs as [q Hq]. by rewrite Hq, drop_app_length.
Qed.

Lemma strip_point_err plan p e :
  strip_point plan p = Err e ->
  Forall (fun prefix => starts_with (discrete p) prefix = false) (partition_prefixes (partition plan)).
Proof.
  unfold strip_point. destruct (position_from _ _ _) as [k|] eqn:E; [|intros _; by eapply position_from_none].
  cbn. apply position_from_spec in E as [? (y & Hy & _)]. rewrite Z.sub_0_r in Hy.
  unfold partition_prefix. rewrite (proj2 (zget_spec _ _ y)) by (split; [lia|done]). done.
Qed.

(** stratified batches reach the integrand. Every point loses exactly its
    stratum prefix, and keeps its coordinates and weights; the label kept for
    it is the only stratum whose prefix it carries, so nothing of the
    assignment is lost. The batch is refused only if some point carries no
    stratum prefix at all. *)
Theorem integrand_batch_strips plan batch (Hplan : plan_validate plan = Ok tt) :
  match integrand_batch batch plan with
  | Ok (points, labels) =>
      Forall2 (stripped plan) batch (zip points labels) /\
      length points = length batch /\ length labels = length batch /\
      Forall2 (fun p k => forall k' prefix, zget (partition_prefixes (partition plan)) k' = Some prefix ->
                 starts_with (discrete p) prefix = true -> k' = k) batch labels
  | Err _ =>
      Exists (fun p => Forall (fun prefix => starts_with (discrete p) prefix = false)
                         (partition_prefixes (partition plan))) batch
  end.
Proof.
  destruct (plan_prefixes plan Hplan) as [Htable Hne]. unfold integrand_batch. rewrite Hplan. cbn [result_bind].
  destruct (try_map (strip_point plan) batch) as [l|e] eqn:E; cbn [result_bind].
  - apply try_map_Forall2 in E.
    assert (Forall2 (stripped plan) batch l) as Hl.
    { eapply Forall2_impl; [exact E|]. intros. by apply strip_point_ok. }
    pose proof (Forall2_length _ _ _ E) as Hlen. rewrite !length_map.
    assert (zip (map fst l) (map snd l) = l) as -> by (clear; induction l as [|[] l IH]; simpl; by rewrite ?IH).
    split_and!; [done|done|done|]. apply Forall2_map_r. eapply Forall2_impl; [exact Hl|].
    intros p x (q & Hq & _ & Hd & _) k' prefix Hk' Hs.
    eapply (prefix_label_unique _ (discrete p) k' x.2 prefix q); [done|done|done|done|].
    rewrite Hd. apply starts_with_app.
  - clear Hne Htable. induction batch as [|p batch IH]; cbn [try_map] in E; [done|].
    destruct (strip_point plan p) as [x|e'] eqn:Ep; [|left; by eapply strip_point_err].
    cbn [result_bind] in E. right. apply IH. destruct (try_map _ batch); [done|]. cbn in E. by injection E as ->.
Qed.

End lemmas.

(** Two strata on a line, one draw in each; the second misses its stratum. *)
#[local] Instance ex_libm : Libm := {|
  hypot a b := PrimFloat.sqrt (a * a + b * b)%float;
  powf a _ := a;
  powi a _ := a
|}.
#[local] Instance ex_observables : Observables := {|
  bundle := unit;
  histogram := unit;
  bundle_default := tt;
  histograms _ := [];
  histogram_bins _ := [];
  histogram_sample_count _ := 0;
  bundle_merge_in_place _ _ := Ok tt
|}.

Definition ex_plan : StratificationPlan :=
  mkPlan "proposal" (Voronoi (domain_strata [2]) [([0], [(-1)%float]); ([1], [1%float])] None)
    (Some [0.5; 0.5]%float) ["value"%string].
Definition ex_batch : list Point :=
  [mkPoint [0.25%float] [0; 7] []; mkPoint [0.75%float] [1] [mkWeightFactor "jacobian" 2]].
Definition ex_points : list Point := [mkPoint [0.25%float] [7] []; mkPoint [0.75%float] [] [mkWeightFactor "jacobian" 2]].
Definition ex_options : EvalBatchOptions := mkOptions true (Some (ex_plan, [0; 1])).

Lemma integrand_batch_strips_witness :
  integrand_batch ex_batch ex_plan = Ok (ex_points, [0; 1]) /\
  Forall2 (stripped ex_plan) ex_batch (zip ex_points [0; 1]).
Proof.
  assert (integrand_batch ex_batch ex_plan = Ok (ex_points, [0; 1])) as H by (vm_compute; reflexivity).
  split; [exact H|].
  pose proof (integrand_batch_strips ex_plan ex_batch ltac:(vm_compute; reflexivity)) as Hs.
  rewrite H in Hs. exact (proj1 Hs).
Defined.

Lemma accumulated_results_are_valid_witness :
  match accumulate_values ex_points ["value"%string] [-2; -3]%float config_scalar ex_options with
  | Ok r => validate_for_batch r 2 true = Ok tt
  | Err _ => False
  end.
Proof.
  destruct (accumulate_values ex_points ["value"%string] [-2; -3]%float config_scalar ex_options) as [r|e] eqn:E.
  - refine (proj1 (accumulated_results_are_valid ex_points ["value"%string] [-2; -3]%float config_scalar
      ex_options r _ _ _ _ _ E)); try discriminate; try (vm_compute; reflexivity).
    intros plan labels [= <- <-]. repeat constructor; lia.
  - vm_compute in E. discriminate E.
Defined.
