(* ===== verification/Havana.v ===== *)
(** src/sampling/havana_grid.rs (reading a grid sample, renaming discrete
    paths), the generation of src/sampling/sampler_aggregator/havana.rs
    ([HavanaInferenceSampler::generate]) and its replay by
    src/sampling/materializer/frozen_havana_inference.rs.

    The grid and its samples are Symbolica's: the sampling step, the empty
    sample and the sample's weight are parameters. *)
From S2P Require Import Prelude Floats Lex Errors Domain Batch LatentBatch.

(** ** Discrete paths *)

Definition incomplete_path : EngineError := InvalidInputE "incomplete discrete path".
Definition unknown_branch : EngineError := InvalidInputE "unknown discrete branch".
Definition invalid_path : EngineError := InvalidInputE "invalid rectangular discrete path".

(** [branches.iter().position(p)] *)
Fixpoint position {A} (p : A -> bool) (l : list A) : option usize :=
  match l with
  | [] => None
  | x :: l => if p x then Some 0 else option_map (Z.add 1) (position p l)
  end.

Definition label_of (b : DomainBranch) : Z := wrap_i64 (branch_index b).

Definition branch_position (branches : list DomainBranch) (to_labels : bool) (head : Z) : option usize :=
  match (if to_labels then if 0 <=? head then Some head else None
         else position (fun b => label_of b =? head) branches) with
  | Some i => if i <? zlen branches then Some i else None
  | None => None
  end.

(** The path is rewritten in place; on an error the caller drops it. *)
Fixpoint map_discrete_path (domain : Domain) (path : list Z) (to_labels : bool) {struct path}
    : result EngineError (list Z) :=
  match domain with
  | Discrete _ _ branches =>
      match path with
      | [] => Err incomplete_path
      | head :: tail =>
          let? index := ok_or unknown_branch (branch_position branches to_labels head) in
          let? branch := ok_or unknown_branch (zget branches index) in
          let? tail := map_discrete_path (branch_domain branch) tail to_labels in
          Ok ((if to_labels then label_of branch else index) :: tail)
      end
  | Rectangular _ cards _ =>
      if negb (zlen path =? zlen cards)
         || existsb (fun '(v, n) => (v <? 0) || (v >=? n)) (zip path cards)
      then Err invalid_path
      else Ok path
  end.

(** ** Samples of the grid *)

(** The shape of Symbolica's [Sample] the code matches on. *)
Inductive Sample : Type :=
| SContinuous (weight : f64) (xs : list f64)
| SDiscrete (weight : f64) (index : usize) (child : option Sample)
| SUniform (weight : f64) (bin_indices : list usize) (xs : list f64).

Definition discrete_index (index : usize) : result EngineError i64 :=
  if index <=? i64_max then Ok index else Err (EngineE "discrete index does not fit in i64").

(** The loop of [sample_components] down the nested samples. *)
Fixpoint sample_path (sample : Sample) (discrete : list Z)
    : result EngineError (list Z * list f64) :=
  match sample with
  | SContinuous _ xs => Ok (discrete, xs)
  | SDiscrete _ index child =>
      let? i := discrete_index index in
      match child with
      | None => Err (EngineE "havana sampler expected nested continuous samples")
      | Some child => sample_path child (discrete ++ [i])
      end
  | SUniform _ bin_indices xs =>
      let? bins := try_map discrete_index bin_indices in
      Ok (discrete ++ bins, xs)
  end.

(** The checkpoints a window of a replayed batch needs. *)
Lemma checkpoint_window offset start n total :
  0 <= offset -> 0 <= start -> 0 < n -> start + n <= total ->
  let first := (offset + start) / RNG_CHECKPOINT_STRIDE in
  let last := (offset + (start + n) - 1) / RNG_CHECKPOINT_STRIDE in
  let offset' := (offset + start) mod RNG_CHECKPOINT_STRIDE in
  0 <= first <= last + 1 /\ last + 1 <= div_ceil (total + offset) RNG_CHECKPOINT_STRIDE /\
  last + 1 - first = div_ceil (n + offset') RNG_CHECKPOINT_STRIDE /\
  0 <= offset' < RNG_CHECKPOINT_STRIDE /\ offset + start = first * RNG_CHECKPOINT_STRIDE + offset'.
Proof. unfold div_ceil, RNG_CHECKPOINT_STRIDE. intros. Z.div_mod_to_equations. lia. Qed.

Section grid.
Context {Rng : Type}.
(** [Grid::sample(&mut rng, &mut sample)], [Sample::new()] and
    [Sample::get_weight()]. *)
Variable grid_sample : Rng -> Sample -> Rng * Sample.
Variable sample_new : Sample.
Variable get_weight : Sample -> f64.

Definition sample_components (sample : Sample)
    : result EngineError (list Z * list f64 * f64) :=
  let? p := sample_path sample [] in Ok (p.1, p.2, get_weight sample).

Definition sample_to_point (sample : Sample) : result EngineError Point :=
  let? c := sample_components sample in Ok (point_new c.1.2 c.1.1 c.2).

(** *** [HavanaInferenceMaterializer::materialize_batch] *)

(** [for _ in 0..n { grid.sample(&mut rng, &mut sample) }] *)
Fixpoint advance (n : nat) (rng : Rng) (sample : Sample) : Rng * Sample :=
  match n with
  | O => (rng, sample)
  | S n => let '(rng, sample) := grid_sample rng sample in advance n rng sample
  end.

Definition materialize_point (domain : Domain) (sample : Sample) : result EngineError Point :=
  let? point := sample_to_point sample in
  let? path := map_discrete_path domain (discrete point) true in
  Ok (mkPoint (continuous point) path (weight_factors point)).

Fixpoint materialize_loop (domain : Domain) (n : nat) (rng : Rng) (sample : Sample)
    : result EngineError (list Point) :=
  match n with
  | O => Ok []
  | S n =>
      let '(rng, sample) := grid_sample rng sample in
      let? point := materialize_point domain sample in
      let? points := materialize_loop domain n rng sample in
      Ok (point :: points)
  end.

Definition engine_err {A} (m : result BatchError A) : result EngineError A :=
  map_err (fun '(layout msg) => EngineE msg) m.

(** [rng_states[0]] panics on an empty list: the outer option. *)
Definition materialize_batch (domain : Domain) (latent : LatentBatch Rng)
    : option (result EngineError (list Point)) :=
  match payload latent with
  | HavanaInference rng_states offset =>
      match engine_err (validate_nr_samples latent) with
      | Err e => Some (Err e)
      | Ok _ =>
          state ← zget rng_states 0;
          let '(rng, sample) := advance (Z.to_nat offset) state sample_new in
          Some (materialize_loop domain (Z.to_nat (nr_samples latent)) rng sample)
      end
  | IndexedBatch _ _ _ _ _ => Some (engine_err (as_batch (payload latent)))
  end.

(** *** [HavanaInferenceSampler::generate] *)

Record HavanaInferenceSampler := mkHavanaInferenceSampler {
  his_rng : Rng;
  batches_produced : usize;
  samples_produced : usize
}.

Fixpoint checkpoint_loop (n : nat) (index : usize) (rng : Rng) (sample : Sample)
    (rng_states : list Rng) : list Rng * Rng :=
  match n with
  | O => (rng_states, rng)
  | S n =>
      let rng_states :=
        if index mod RNG_CHECKPOINT_STRIDE =? 0 then rng_states ++ [rng] else rng_states in
      let '(rng, sample) := grid_sample rng sample in
      checkpoint_loop n (index + 1) rng sample rng_states
  end.

Definition havana_generate (max_samples : usize)
    : SE HavanaInferenceSampler EngineError (LatentBatch Rng) :=
  if max_samples =? 0 then se_fail (InvalidInputE "max_samples must be positive")
  else
    let! rng := se_get his_rng in
    let '(rng_states, rng) := checkpoint_loop (Z.to_nat max_samples) 0 rng sample_new [] in
    se_modify (fun s => mkHavanaInferenceSampler rng (batches_produced s + 1)
                          (samples_produced s + max_samples)) ;!
    se_ret (mkLatentBatch max_samples (HavanaInference rng_states 0)).

(** *** The stream of draws *)

(** A sampling step overwrites the sample buffer it is given. *)
Definition overwrites : Prop := forall r s s', grid_sample r s = grid_sample r s'.

Definition rng_next (r : Rng) : Rng := fst (grid_sample r sample_new).
Definition draw (r : Rng) : Sample := snd (grid_sample r sample_new).
Definition rng_at (r : Rng) (k : Z) : Rng := Nat.iter (Z.to_nat k) rng_next r.
(** The first [n] samples of the stream that starts in state [r]. *)
Fixpoint stream (r : Rng) (n : nat) : list Sample :=
  match n with O => [] | S n => draw r :: stream (rng_next r) n end.
Definition draws (r : Rng) (n : Z) : list Sample := stream r (Z.to_nat n).

(** [l] is a valid replay payload whose checkpoints are those of the stream
    [r], which its offset skips into. *)
Definition checkpointed (r : Rng) (l : LatentBatch Rng) : Prop :=
  validate_nr_samples l = Ok tt /\ 0 <= nr_samples l /\
  match payload l with
  | HavanaInference rng_states offset =>
      0 <= offset /\
      forall i, 0 <= i < zlen rng_states -> zget rng_states i = Some (rng_at r (i * RNG_CHECKPOINT_STRIDE))
  | IndexedBatch _ _ _ _ _ => False
  end.

Definition payload_offset (l : LatentBatch Rng) : Z :=
  match payload l with HavanaInference _ offset => offset | _ => 0 end.

Hypothesis Hover : overwrites.

Lemma grid_sample_eq r s : grid_sample r s = (rng_next r, draw r).
Proof. rewrite (Hover r s sample_new). apply surjective_pairing. Qed.

Lemma rng_at_add r a b : 0 <= a -> 0 <= b -> rng_at (rng_at r a) b = rng_at r (a + b).
Proof.
  intros. unfold rng_at. rewrite <- Nat.iter_add. f_equal. lia.
Qed.

Lemma rng_at_succ r k : 0 <= k -> rng_next (rng_at r k) = rng_at r (k + 1).
Proof. intros. unfold rng_at. rewrite Z2Nat.inj_add, Nat.add_1_r by lia. done. Qed.

Lemma rng_at_0 r : rng_at r 0 = r.
Proof. done. Qed.

Lemma rng_at_next r k : 0 <= k -> rng_at (rng_next r) k = rng_at r (k + 1).
Proof.
  intros. change (rng_next r) with (rng_at r 1). rewrite rng_at_add by lia. f_equal. lia.
Qed.

Lemma advance_rng n r s : fst (advance n r s) = rng_at r (Z.of_nat n).
Proof.
  revert r s. induction n as [|n IH]; intros r s; simpl advance; [done|].
  rewrite grid_sample_eq, IH, rng_at_next by lia. f_equal. lia.
Qed.

Lemma stream_drop r a n : drop a (stream r n) = stream (rng_at r (Z.of_nat a)) (n - a).
Proof.
  revert r n. induction a as [|a IH]; intros r n.
  - by rewrite Nat.sub_0_r.
  - destruct n as [|n]; [done|]. simpl drop. rewrite IH, rng_at_next by lia.
    f_equal. f_equal. lia.
Qed.

Lemma stream_take r a n : (a <= n)%nat -> take a (stream r n) = stream r a.
Proof.
  revert r n. induction a as [|a IH]; intros r n Hle; [done|].
  destruct n as [|n]; [lia|]. simpl. by rewrite IH by lia.
Qed.

Lemma stream_length r n : length (stream r n) = n.
Proof. revert r. induction n; intros r; simpl; [done|]. by rewrite IHn. Qed.

Lemma draws_sub r m a n :
  0 <= a -> 0 <= n -> a + n <= m -> ztake n (zdrop a (draws r m)) = draws (rng_at r a) n.
Proof.
  intros. unfold draws, ztake, zdrop. rewrite stream_drop, stream_take by lia.
  by rewrite Z2Nat.id by lia.
Qed.

Lemma materialize_loop_draws d n r s :
  materialize_loop d n r s = try_map (materialize_point d) (stream r n).
Proof.
  revert r s. induction n as [|n IH]; intros r s; simpl; [done|].
  rewrite grid_sample_eq. destruct (materialize_point d (draw r)); simpl; [|done]. by rewrite IH.
Qed.

Lemma checkpointed_head (rng_states : list Rng) offset n :
  validate_nr_samples (mkLatentBatch n (HavanaInference rng_states offset)) = Ok tt ->
  0 <= n -> 0 <= offset -> 0 < zlen rng_states.
Proof.
  unfold validate_nr_samples, usize_checked_add, RNG_CHECKPOINT_STRIDE, div_ceil. cbn -[usize_max].
  intros. break; zbool. simpl in *. break; zbool.
  assert (1 <= (n + offset + 1024 - 1) / 1024) by (apply Z.div_le_lower_bound; lia). lia.
Qed.

(** Replaying a checkpointed payload draws the samples its offset starts at. *)
Lemma materialize_checkpointed d r l :
  checkpointed r l ->
  materialize_batch d l =
  Some (try_map (materialize_point d) (draws (rng_at r (payload_offset l)) (nr_samples l))).
Proof.
  intros (Hv & Hn & Hp). unfold materialize_batch, payload_offset. rewrite Hv. simpl.
  destruct l as [n [|states offset]]; simpl in *; [done|]. destruct Hp as [Ho Hc].
  rewrite Hc; [|split; [done|by eapply checkpointed_head]]. simpl.
  rewrite Z.mul_0_l, rng_at_0. pose proof (advance_rng (Z.to_nat offset) r sample_new) as Hadv.
  destruct (advance (Z.to_nat offset) r sample_new) as [rng s]. simpl in Hadv. subst rng.
  rewrite Z2Nat.id by lia. by rewrite materialize_loop_draws.
Qed.

(** *** Slicing the stream *)


Lemma slice_checkpointed r l start n c :
  checkpointed r l -> 0 <= start -> 0 < n -> start + n <= nr_samples l ->
  exists l' k, slice_at l start n c = Some (Ok l') /\ checkpointed (rng_at r k) l' /\ 0 <= k /\
    nr_samples l' = n /\ k + payload_offset l' = payload_offset l + start.
Proof. clear get_weight.
  intros (Hv & Hn & Hp) Hs Hpos Hend. destruct l as [total [|states offset]]; simpl in *; [done|].
  destruct Hp as [Ho Hc]. unfold validate_nr_samples in Hv. cbn -[usize_checked_add] in Hv.
  destruct (total =? 0); [done|]. destruct (RNG_CHECKPOINT_STRIDE <=? offset) eqn:Eo; [done|].
  unfold usize_checked_add in Hv. destruct (total + offset <=? usize_max) eqn:Emax; [|done].
  simpl in Hv. destruct (zlen states =? _) eqn:El; [|done]. zbool.
  destruct (checkpoint_window offset start n total) as ([? ?] & ? & ? & ? & Heq); [done..|].
  set (first := (offset + start) / RNG_CHECKPOINT_STRIDE) in *.
  set (last := (offset + (start + n) - 1) / RNG_CHECKPOINT_STRIDE) in *.
  set (offset' := (offset + start) mod RNG_CHECKPOINT_STRIDE) in *.
  unfold slice_at, usize_checked_add. simpl.
  rewrite (proj2 (Z.leb_le (start + n) usize_max)), (proj2 (Z.leb_le (start + n) total)) by lia.
  rewrite (proj2 (Z.eqb_neq n 0)) by lia. simpl. fold first last offset'.
  rewrite (proj2 (get_range_Some first (last + 1) states _)) by (split_and!; [lia..|reflexivity]). simpl.
  eexists _, (first * RNG_CHECKPOINT_STRIDE). split; [reflexivity|].
  assert (zlen (ztake (last + 1 - first) (zdrop first states)) = last + 1 - first) as Hlen.
  { rewrite zlen_ztake; [done|]. rewrite zlen_zdrop; lia. }
  split; [|split; [unfold RNG_CHECKPOINT_STRIDE; lia|split; [done|cbn [payload_offset payload]; symmetry; exact Heq]]].
  split; [|split; [simpl; lia|]]; [|split; [lia|]].
  - unfold validate_nr_samples, usize_checked_add. simpl. rewrite (proj2 (Z.eqb_neq n 0)) by lia.
    rewrite (proj2 (Z.leb_gt RNG_CHECKPOINT_STRIDE offset')) by lia.
    rewrite (proj2 (Z.leb_le (n + offset') usize_max)) by (unfold RNG_CHECKPOINT_STRIDE in *; lia).
    simpl. rewrite Hlen. by rewrite (proj2 (Z.eqb_eq _ _)).
  - intros i Hi. rewrite Hlen in Hi. rewrite rng_at_add by (unfold RNG_CHECKPOINT_STRIDE; lia).
    rewrite <- Z.mul_add_distr_r, <- (Hc (first + i)) by lia.
    unfold zget, ztake, zdrop. rewrite (proj2 (Z.leb_le 0 i)), (proj2 (Z.leb_le 0 (first + i))) by lia.
    rewrite lookup_take_lt by lia. rewrite lookup_drop. f_equal. lia.
Qed.

Lemma try_map_sub {A B} (f : A -> result EngineError B) l k a n :
  try_map f l = Ok k -> try_map f (ztake n (zdrop a l)) = Ok (ztake n (zdrop a k)).
Proof. rewrite !try_map_Forall2. intros. by apply Forall2_ztake, Forall2_zdrop. Qed.

(** *** Generation *)

Lemma checkpoint_loop_spec n index r states s :
  0 <= index ->
  zlen states = div_ceil index RNG_CHECKPOINT_STRIDE ->
  (forall i, 0 <= i < zlen states -> zget states i = Some (rng_at r (i * RNG_CHECKPOINT_STRIDE))) ->
  exists states', checkpoint_loop n index (rng_at r index) s states = (states', rng_at r (index + Z.of_nat n)) /\
    zlen states' = div_ceil (index + Z.of_nat n) RNG_CHECKPOINT_STRIDE /\
    (forall i, 0 <= i < zlen states' -> zget states' i = Some (rng_at r (i * RNG_CHECKPOINT_STRIDE))).
Proof. clear get_weight.
  revert index states s. induction n as [|n IH]; intros index states s Hi Hlen Hst; simpl checkpoint_loop.
  { rewrite Z.add_0_r. eauto. }
  rewrite grid_sample_eq, rng_at_succ by done.
  replace (index + Z.of_nat (S n)) with (index + 1 + Z.of_nat n) by lia.
  destruct (index mod RNG_CHECKPOINT_STRIDE =? 0) eqn:E; zbool; apply IH; try lia.
  - rewrite zlen_app, Hlen. unfold zlen, div_ceil, RNG_CHECKPOINT_STRIDE in *. simpl.
    Z.div_mod_to_equations. lia.
  - intros i [? Hlt]. rewrite zlen_app in Hlt. change (zlen [rng_at r index]) with 1 in Hlt.
    destruct (decide (i = zlen states)) as [->|]; [|apply zget_app_l, Hst; lia].
    rewrite zget_snoc. do 2 f_equal. rewrite Hlen. unfold div_ceil, RNG_CHECKPOINT_STRIDE in *.
    Z.div_mod_to_equations. lia.
  - rewrite Hlen. unfold div_ceil, RNG_CHECKPOINT_STRIDE in *. Z.div_mod_to_equations. lia.
  - done.
Qed.
End grid.

(** ** Renaming discrete paths *)

Lemma label_of_id b : 0 <= branch_index b <= i64_max -> label_of b = branch_index b.
Proof.
  unfold label_of, wrap_i64, i64_max. intros. rewrite Z.mod_small by lia. lia.
Qed.

Lemma position_spec {A} (p : A -> bool) l i :
  position p l = Some i -> exists x, zget l i = Some x /\ p x = true /\ 0 <= i < zlen l.
Proof.
  revert i. induction l as [|x l IH]; intros i H; simpl in H; [done|]. rewrite zlen_cons.
  destruct (p x) eqn:E; simplify_eq.
  - exists x. pose proof (zlen_nonneg l). split_and!; [done|done|lia|lia].
  - destruct (position p l) as [j|]; simplify_eq/=. destruct (IH j eq_refl) as (y & Hy & Hp & ?).
    exists y. split_and!; [|done|lia|lia]. unfold zget in *.
    rewrite (proj2 (Z.leb_le 0 j)) in Hy by lia. rewrite (proj2 (Z.leb_le _ _)) by lia.
    by replace (Z.to_nat (1 + j)) with (S (Z.to_nat j)) by lia.
Qed.

Lemma increasing_lookup bs b i :
  increasing bs -> zget bs i = Some b ->
  position (fun c => branch_index c =? branch_index b) bs = Some i.
Proof.
  unfold increasing. intros H. revert i. induction H as [|a bs Hs IH Hf]; intros i Hi; [by unfold zget in Hi; case_match|].
  unfold zget in *. destruct (0 <=? i) eqn:E; [|done]. zbool. simpl.
  destruct (decide (i = 0)) as [->|].
  - simpl in Hi. simplify_eq. by rewrite Z.eqb_refl.
  - replace (Z.to_nat i) with (S (Z.to_nat (i - 1))) in Hi by lia. simpl in Hi.
    pose proof (list_elem_of_lookup_2 _ _ _ Hi) as Hin. rewrite Forall_forall in Hf. specialize (Hf _ Hin).
    rewrite (proj2 (Z.eqb_neq _ _)) by lia. rewrite (IH (i - 1)).
    + simpl. f_equal. lia.
    + by rewrite (proj2 (Z.leb_le _ _)) by lia.
Qed.

Lemma position_ext {A} (p q : A -> bool) l :
  Forall (fun x => p x = q x) l -> position p l = position q l.
Proof. induction 1 as [|x l Hx _ IH]; simpl; [done|]. by rewrite Hx, IH. Qed.

(** Positions and labels determine each other. *)
Lemma branch_position_inverse bs to_labels h i b :
  increasing bs -> Forall (fun b => 0 <= branch_index b <= i64_max) bs ->
  branch_position bs to_labels h = Some i -> zget bs i = Some b ->
  let h' := if to_labels then label_of b else i in
  branch_position bs (negb to_labels) h' = Some i /\
  (if to_labels then i = h else label_of b = h).
Proof.
  intros Hinc Hsz Hp Hb.
  assert (0 <= branch_index b <= i64_max) as Hbi.
  { rewrite Forall_forall in Hsz. apply Hsz. by eapply zget_elem. }
  unfold branch_position in *. destruct to_labels; simpl.
  - destruct (0 <=? h) eqn:Eh; [|done]. destruct (h <? zlen bs) eqn:El; simplify_eq. split; [|done].
    rewrite (position_ext _ (fun c => branch_index c =? branch_index b)).
    + by rewrite (increasing_lookup bs b i), El.
    + eapply Forall_impl; [exact Hsz|]. intros c Hc. simpl. by rewrite !label_of_id.
  - destruct (position _ bs) as [j|] eqn:Ep; [|done]. destruct (j <? zlen bs) eqn:El; simplify_eq.
    apply position_spec in Ep as (c & Hc & Heq & [? ?]). simplify_eq. zbool.
    rewrite (proj2 (Z.leb_le 0 i)), (proj2 (Z.ltb_lt i (zlen bs))) by lia. done.
Qed.

(** over a validated domain, renaming a discrete path from grid bins to
    branch labels and back (or from labels to bins and back) is the
    identity. *)
Theorem map_discrete_path_roundtrip domain seen path to_labels renamed
    (Hvalid : validate_visit domain seen = Ok tt) (Hsized : domain_sized domain = true)
    (Hmap : map_discrete_path domain path to_labels = Ok renamed) :
  map_discrete_path domain renamed (negb to_labels) = Ok path.
Proof.
  revert domain seen renamed Hvalid Hsized Hmap.
  induction path as [|h t IH]; intros [l r bs|s cs c] seen renamed Hvalid Hsized Hmap; try done.
  - simpl in *. destruct (_ || _)%bool eqn:E in Hmap; [done|]. simplify_eq. simpl. by rewrite E.
  - simpl in Hmap. apply result_bind_ok in Hmap as (index & Hindex & Hmap).
    apply result_bind_ok in Hmap as (branch & Hbranch & Hmap).
    apply result_bind_ok in Hmap as (tail & Htail & Hmap). simplify_eq.
    destruct (branch_position bs to_labels h) as [i|] eqn:Ei; simplify_eq/=.
    destruct (zget bs index) as [b|] eqn:Eb; simplify_eq/=.
    apply (validate_visit_discrete l r bs seen) in Hvalid as (Hbs & _ & Hsub).
    apply branches_malformed_spec in Hbs as (_ & Hmax & Hinc).
    apply (domain_sized_discrete l r bs) in Hsized. rewrite Forall_forall in Hmax, Hsub, Hsized.
    destruct (branch_position_inverse bs to_labels h index branch Hinc) as [Hpos Hback]; [|done..|].
    { apply Forall_forall. intros b Hb. specialize (Hmax b Hb). destruct (Hsized b Hb). lia. }
    pose proof (zget_elem _ _ _ Eb) as Hin. destruct (Hsized _ Hin) as [_ Hsz].
    rewrite Hpos. simpl. rewrite Eb. simpl.
    rewrite (IH (branch_domain branch) _ tail (Hsub _ Hin) Hsz Htail). simpl. by destruct to_labels; subst.
  - simpl in Hmap. destruct (_ || _)%bool eqn:E in Hmap; [done|]. simplify_eq. simpl. simpl in E. by rewrite E.
Qed.

Lemma map_discrete_path_roundtrip_witness :
  map_discrete_path (Discrete None Integrand [mkDomainBranch 3 (Rectangular 0 [2] 1); mkDomainBranch 7 (Rectangular 0 [] 2)])
    [3; 1] false = Ok [0; 1].
Proof.
  apply (map_discrete_path_roundtrip _ false [0; 1] true); by vm_compute.
Defined.

(** ** Replay *)

(** C39: cutting a frozen-grid batch anywhere and materializing the piece gives
    exactly the corresponding points of the materialized whole: the replay
    from the checkpoint before the cut skips to the right draw. *)
Theorem havana_slice_replay {Rng} grid_sample sample_new get_weight domain (r : Rng) l pts start samples c
    (Hover : overwrites grid_sample)
    (Hl : checkpointed grid_sample sample_new r l)
    (Hpts : materialize_batch grid_sample sample_new get_weight domain l = Some (Ok pts))
    (Hstart : 0 <= start) (Hsamples : 0 < samples) (Hend : start + samples <= nr_samples l) :
  exists l', slice_at l start samples c = Some (Ok l') /\
    materialize_batch grid_sample sample_new get_weight domain l' = Some (Ok (ztake samples (zdrop start pts))) /\
    exists k, checkpointed grid_sample sample_new (rng_at grid_sample sample_new r k) l'.
Proof.
  destruct (slice_checkpointed grid_sample sample_new r l start samples c) as (l' & k & Hs & Hc & Hk & Hn & Ho);
    [done..|].
  exists l'. split; [done|]. split; [|by exists k].
  rewrite (materialize_checkpointed _ _ get_weight Hover domain _ _ Hl) in Hpts. injection Hpts as Hpts.
  apply (try_map_sub _ _ _ start samples) in Hpts.
  destruct Hl as (_ & Hnn & Hp), Hc as (Hc1 & Hc2 & Hp') .
  assert (0 <= payload_offset l /\ 0 <= payload_offset l') as [? ?].
  { unfold payload_offset. destruct (payload l), (payload l'); naive_solver. }
  rewrite draws_sub, rng_at_add in Hpts by lia.
  rewrite (materialize_checkpointed _ _ get_weight Hover domain (rng_at grid_sample sample_new r k) l') by done.
  by rewrite rng_at_add, Ho, Hn, Hpts by lia.
Qed.

(** [generate] returns a checkpointed batch of the stream at the sampler's
    generator state and leaves the state advanced by exactly that many draws,
    so consecutive generations replay consecutive parts of one stream. *)
Theorem havana_generate_stream {Rng} grid_sample sample_new s n
    (Hover : overwrites grid_sample) (Hn : 0 < n <= usize_max) :
  exists l s', havana_generate grid_sample sample_new n s = (s', Ok l) /\
    checkpointed grid_sample sample_new (his_rng s) l /\ payload_offset l = 0 /\ nr_samples l = n /\
    his_rng s' = rng_at grid_sample sample_new (his_rng (Rng := Rng) s) n /\
    samples_produced s' = samples_produced s + n.
Proof.
  unfold havana_generate. rewrite (proj2 (Z.eqb_neq n 0)) by lia.
  destruct (checkpoint_loop_spec grid_sample sample_new Hover (Z.to_nat n) 0 (his_rng s) [] sample_new)
    as (states & Hloop & Hlen & Hst); [done|done|intros i Hi; unfold zlen in Hi; simpl in Hi; lia|].
  rewrite Z2Nat.id, Z.add_0_l in Hloop, Hlen by lia. rewrite rng_at_0 in Hloop.
  unfold se_bind, se_get. rewrite Hloop. eexists _, _. split; [done|].
  split_and!; try done. split; [|split; [simpl; lia|split; [simpl; lia|done]]].
  unfold validate_nr_samples, usize_checked_add. simpl. rewrite (proj2 (Z.eqb_neq n 0)), Z.add_0_r by lia.
  rewrite (proj2 (Z.leb_le n usize_max)) by lia. simpl. by rewrite Hlen, Z.eqb_refl.
Qed.

(** A counter as generator, whose samples are their own index. *)
Definition counting_sample (r : Z) (_ : Sample) : Z * Sample := (r + 1, SUniform 1%float [r] [f64_of_Z r]).

Lemma havana_slice_replay_witness :
  exists l', slice_at (mkLatentBatch 5 (HavanaInference [0] 0)) 2 2 0 = Some (Ok l') /\
    materialize_batch counting_sample (SContinuous 1%float []) (fun _ => 1%float) (Rectangular 0 [9] 1) l' =
      Some (Ok [point_new [2%float] [2] 1%float; point_new [3%float] [3] 1%float]) /\
    exists k, checkpointed counting_sample (SContinuous 1%float []) (rng_at counting_sample (SContinuous 1%float []) 0 k) l'.
Proof.
  apply (havana_slice_replay counting_sample (SContinuous 1%float []) (fun _ => 1%float) (Rectangular 0 [9] 1) 0
           (mkLatentBatch 5 (HavanaInference [0] 0))
           (map (fun i => point_new [f64_of_Z i] [i] 1%float) [0; 1; 2; 3; 4])); try done.
  split; [done|]. split; [done|]. split; [done|].
  intros i Hi. assert (i = 0) as -> by (simpl in Hi; unfold zlen in Hi; simpl in Hi; lia). done.
Defined.

Lemma havana_generate_stream_witness :
  exists l s', havana_generate counting_sample (SContinuous 1%float []) 3 (mkHavanaInferenceSampler 7 0 0) = (s', Ok l) /\
    checkpointed counting_sample (SContinuous 1%float []) 7 l /\ payload_offset l = 0 /\ nr_samples l = 3 /\
    his_rng s' = rng_at counting_sample (SContinuous 1%float []) 7 3 /\ samples_produced s' = 0 + 3.
Proof. by apply (havana_generate_stream counting_sample _ (mkHavanaInferenceSampler 7 0 0) 3). Defined.
