(* ===== verification/Generation.v ===== *)
(** src/sampling/generation.rs: the buffer between sampler calls and evaluator
    work units. The payload of a draw is known through an interface: what
    cutting it at a cursor yields. *)
From S2P Require Import Prelude Floats Lex Errors Domain Batch LatentBatch Feedback Havana.

(** ** src/sampling/sampler.rs: what a sampler's draw returns, and what the
    runtime may rely on in it. *)

Inductive Generation (Rng : Type) : Type :=
| GBatch (batch : LatentBatch Rng) (training_remaining : option usize)
| Waiting
| Finished.
Arguments GBatch {Rng}.
Arguments Waiting {Rng}.
Arguments Finished {Rng}.

Definition generation_into_batch {Rng} (g : Generation Rng) : result EngineError (LatentBatch Rng) :=
  match g with
  | GBatch batch _ => Ok batch
  | Waiting => Err (EngineE "sampler is waiting for feedback")
  | Finished => Err (EngineE "sampler has finished")
  end.

(** ** What a payload promises to the buffer *)

Definition slice_coordinates {Rng} (l : LatentBatch Rng) : Z :=
  match payload l with
  | IndexedBatch _ _ _ values _ => zlen values
  | HavanaInference _ _ => 0
  end.

(** The coordinate cursor [take_batches] recomputes for a restored draw. *)
Definition restored_coordinate {Rng} (l : LatentBatch Rng) (next_sample : usize) : result EngineError usize :=
  match payload l with
  | IndexedBatch _ _ layouts _ _ =>
      let? prefix := ok_or (EngineE "invalid buffered generation cursor") (get_range 0 next_sample layouts) in
      Ok (zsum prefix)
  | HavanaInference _ _ => Ok 0
  end.

(** [denotes l xs]: the batch stands for the items [xs]; [at_cursor l xs k c]:
    [c] is a coordinate cursor for its item [k]. *)
Class Denotation (Rng A : Type) := {
  denotes : LatentBatch Rng -> list A -> Prop;
  at_cursor : LatentBatch Rng -> list A -> Z -> Z -> Prop;
  denotes_length l xs : denotes l xs -> nr_samples l = zlen xs /\ zlen xs <= usize_max;
  denotes_valid l xs : denotes l xs -> xs <> [] -> validate_nr_samples l = Ok tt;
  at_cursor_start l xs : denotes l xs -> at_cursor l xs 0 0;
  at_cursor_restored l xs k : denotes l xs -> 0 <= k <= zlen xs ->
    exists c, restored_coordinate l k = Ok c /\ at_cursor l xs k c;
  denotes_slice l xs k c n : denotes l xs -> at_cursor l xs k c -> 0 <= k -> 0 < n -> k + n <= zlen xs ->
    exists l', slice_at l k n c = Some (Ok l') /\ denotes l' (ztake n (zdrop k xs)) /\
      at_cursor l xs (k + n) (c + slice_coordinates l')
}.

(** An indexed payload stands for its rows. *)
#[export] Program Instance rows_denotation (Rng : Type) : Denotation Rng row := {|
  denotes l rows := latent_rows l rows /\ zlen rows <= usize_max;
  at_cursor l rows k c := c = coordinate_cursor rows k
|}.
Next Obligation. intros Rng l rows [[_ Hn] Hmax]. done. Qed.
Next Obligation. intros Rng l rows [Hl _] Hne. by eapply latent_rows_validate. Qed.
Next Obligation. done. Qed.
Next Obligation.
  intros Rng l rows k [[Hp Hn] _] Hk. unfold restored_coordinate.
  destruct (payload l) as [s m ls vs ws|]; [|done]. destruct Hp as [_ -> _ _].
  rewrite (proj2 (get_range_Some 0 k _ _)) by (rewrite zlen_lmap; split_and!; [lia..|reflexivity]).
  simpl. eexists. split; [done|]. unfold coordinate_cursor. rewrite zlen_concat, map_map, Z.sub_0_r, zdrop_0.
  by rewrite map_ztake.
Qed.
Next Obligation.
  intros Rng l rows k c n [Hl Hmax] -> Hk Hn Hend.
  destruct (slice_at_rows l rows k n) as (l' & Hs & Hl'); [done..|].
  exists l'. split; [done|]. split.
  - split; [done|]. rewrite zlen_ztake; [lia|]. rewrite zlen_zdrop; lia.
  - unfold slice_coordinates. destruct Hl' as [Hp _]. destruct (payload l') as [s m ls vs ws|]; [|done].
    destruct Hp as [_ _ -> _]. unfold coordinate_cursor.
    rewrite <- zlen_app, <- concat_app, <- map_app. do 3 f_equal. symmetry. by rewrite ztake_add by lia.
Qed.

(** A frozen-grid payload stands for the draws it replays. *)
Section havana.
Context {Rng : Type} (grid_sample : Rng -> Sample -> Rng * Sample) (sample_new : Sample).

Program Definition havana_denotation : Denotation Rng Sample := {|
  denotes l xs := exists r, checkpointed grid_sample sample_new r l /\ nr_samples l <= usize_max /\
    xs = draws grid_sample sample_new (rng_at grid_sample sample_new r (payload_offset l)) (nr_samples l);
  at_cursor _ _ _ _ := True
|}.
Next Obligation.
  intros l xs (r & (_ & Hn & _) & Hmax & ->). unfold draws, zlen. rewrite stream_length. lia.
Qed.
Next Obligation. intros l xs (r & (Hv & _) & _) _. done. Qed.
Next Obligation. done. Qed.
Next Obligation.
  intros l xs k (r & (_ & _ & Hp) & _ & _) Hk. unfold restored_coordinate.
  destruct (payload l); [done|]. by exists 0.
Qed.
Next Obligation.
  intros l xs k c n (r & Hc & Hmax & ->) _ Hk Hn Hend.
  assert (zlen (draws grid_sample sample_new (rng_at grid_sample sample_new r (payload_offset l)) (nr_samples l)) = nr_samples l) as Hlen.
  { destruct Hc as (_ & ? & _). unfold draws, zlen. rewrite stream_length. lia. }
  rewrite Hlen in Hend.
  destruct (slice_checkpointed grid_sample sample_new r l k n c Hc) as (l' & j & Hs & Hc' & Hj & Hn' & Ho); [done..|].
  exists l'. split; [done|]. split; [|done]. exists (rng_at grid_sample sample_new r j).
  assert (0 <= payload_offset l /\ 0 <= payload_offset l') as [? ?].
  { destruct Hc as (_ & _ & Hp), Hc' as (_ & _ & Hp'). unfold payload_offset.
    destruct (payload l), (payload l'); naive_solver. }
  split; [done|]. split; [lia|]. rewrite Hn', draws_sub, !rng_at_add by lia. by rewrite Ho.
Qed.
End havana.

(** ** The buffer *)

Record BufferedDraw (Rng : Type) := mkBufferedDraw {
  bd_batch : LatentBatch Rng;
  next_sample : usize;
  next_coordinate : option usize;
  training_remaining_of : option usize
}.
Arguments mkBufferedDraw {Rng}.
Arguments bd_batch {Rng}.
Arguments next_sample {Rng}.
Arguments next_coordinate {Rng}.
Arguments training_remaining_of {Rng}.

Record TrainingGroup := mkTrainingGroup {
  tg_samples : usize;
  tg_feedback : Feedback
}.

Record GenerationBuffer (Rng : Type) := mkGenerationBuffer {
  pending : option (BufferedDraw Rng);
  training_groups : list TrainingGroup;
  finished : bool
}.
Arguments mkGenerationBuffer {Rng}.
Arguments pending {Rng}.
Arguments training_groups {Rng}.
Arguments finished {Rng}.

Section buffer.
Context {Rng : Type}.
Implicit Types b : GenerationBuffer Rng.

Definition generation_default : GenerationBuffer Rng := mkGenerationBuffer None [] false.

Definition set_pending (p : option (BufferedDraw Rng)) b : GenerationBuffer Rng :=
  mkGenerationBuffer p (training_groups b) (finished b).
Definition set_groups (gs : list TrainingGroup) b : GenerationBuffer Rng :=
  mkGenerationBuffer (pending b) gs (finished b).

Definition has_pending b : bool := match pending b with Some _ => true | None => false end.

Definition training_remaining b : option usize :=
  match pending b with
  | Some draw => option_map (fun remaining => usize_saturating_sub remaining (next_sample draw))
                   (training_remaining_of draw)
  | None => None
  end.

Definition requires_feedback b : bool :=
  match pending b with
  | Some draw => match training_remaining_of draw with Some _ => true | None => false end
  | None => false
  end.

Definition engine_error_of {A} (m : result BatchError A) : result EngineError A :=
  map_err (fun '(layout msg) => EngineE msg) m.

Definition buffer_draw (batch : LatentBatch Rng) (training_remaining : option usize)
    : SE (GenerationBuffer Rng) EngineError unit :=
  let! busy := se_get has_pending in
  if busy : bool then se_fail (EngineE "cannot overwrite an undispatched draw")
  else
    se_lift (engine_error_of (validate_nr_samples batch)) ;!
    se_modify (set_pending (Some (mkBufferedDraw batch 0 (Some 0) training_remaining))).

(** The cursor of a restored draw, computed once. *)
Definition ensure_coordinate (draw : BufferedDraw Rng) : result EngineError (BufferedDraw Rng) :=
  match next_coordinate draw with
  | Some _ => Ok draw
  | None =>
      let? _ := engine_error_of (validate_nr_samples (bd_batch draw)) in
      let? c := restored_coordinate (bd_batch draw) (next_sample draw) in
      Ok (mkBufferedDraw (bd_batch draw) (next_sample draw) (Some c) (training_remaining_of draw))
  end.

(** [for _ in 0..slots]: the draw keeps the cursor of the batches already
    cut when a later slice fails; [None] is a panic of [slice_at]. *)
Fixpoint take_loop (slots : nat) (chunk_size : usize) (draw : BufferedDraw Rng)
    (batches : list (LatentBatch Rng))
    : option (BufferedDraw Rng * result EngineError (list (LatentBatch Rng))) :=
  match slots with
  | O => Some (draw, Ok batches)
  | S slots =>
      let size := Z.min chunk_size (nr_samples (bd_batch draw) - next_sample draw) in
      if size =? 0 then Some (draw, Ok batches)
      else
        sliced ← slice_at (bd_batch draw) (next_sample draw) size (default 0 (next_coordinate draw));
        match engine_error_of sliced with
        | Err e => Some (draw, Err e)
        | Ok batch =>
            let draw :=
              mkBufferedDraw (bd_batch draw) (next_sample draw + size)
                (option_map (fun c => c + slice_coordinates batch) (next_coordinate draw))
                (training_remaining_of draw) in
            take_loop slots chunk_size draw (batches ++ [batch])
        end
  end.

Definition take_batches (slots chunk_size : usize) b
    : option (GenerationBuffer Rng * result EngineError (list (LatentBatch Rng))) :=
  if chunk_size =? 0 then Some (b, Err (EngineE "evaluator chunk size is zero"))
  else
    match pending b with
    | None => Some (b, Ok [])
    | Some draw =>
        match ensure_coordinate draw with
        | Err e => Some (b, Err e)
        | Ok draw =>
            let n := nr_samples (bd_batch draw) in
            if (0 <? slots) && (next_sample draw =? 0) && (chunk_size >=? n) then
              Some (set_pending None b, Ok [bd_batch draw])
            else if next_sample draw >=? n then
              Some (set_pending (Some draw) b, Err (EngineE "invalid buffered generation cursor"))
            else
              taken ← take_loop (Z.to_nat slots) chunk_size draw [];
              match taken with
              | (draw, Err e) => Some (set_pending (Some draw) b, Err e)
              | (draw, Ok batches) =>
                  Some (set_pending (if next_sample draw =? n then None else Some draw) b, Ok batches)
              end
        end
    end.

Definition pending_samples b : usize :=
  match pending b with
  | Some draw => usize_saturating_sub (nr_samples (bd_batch draw)) (next_sample draw)
  | None => 0
  end.

Definition has_outstanding b : bool :=
  has_pending b || negb (match training_groups b with [] => true | _ => false end).

Definition generation_is_empty b : bool := negb (finished b) && negb (has_outstanding b).

Definition record_draw (samples : usize) b : GenerationBuffer Rng :=
  set_groups (training_groups b ++ [mkTrainingGroup samples feedback_default]) b.

Definition accept_feedback (values : Feedback)
    : SE (GenerationBuffer Rng) EngineError (option Feedback) :=
  let! groups := se_get training_groups in
  match groups with
  | [] => se_fail (EngineE "training result has no matching generated batch")
  | group :: groups =>
      if feedback_len values >? tg_samples group - feedback_len (tg_feedback group) then
        se_fail (EngineE "training result crosses a generation boundary")
      else
        let! feedback := se_lift (feedback_append (tg_feedback group) values) in
        if feedback_len feedback =? tg_samples group then
          se_modify (set_groups groups) ;! se_ret (Some feedback)
        else
          se_modify (set_groups (mkTrainingGroup (tg_samples group) feedback :: groups)) ;!
          se_ret None
  end.
End buffer.

(** ** Taking work units *)

(** The work units a list of items is cut into: at most [slots] pieces of
    [chunk] items, the last one shorter. *)
Fixpoint chunks {A} (slots : nat) (chunk : Z) (xs : list A) : list (list A) :=
  match slots, xs with
  | S slots, _ :: _ => ztake chunk xs :: chunks slots chunk (zdrop chunk xs)
  | _, _ => []
  end.

Lemma chunks_concat {A} slots chunk (xs : list A) :
  0 <= chunk -> concat (chunks slots chunk xs) = ztake (Z.of_nat slots * chunk) xs.
Proof.
  intros Hc. revert xs. induction slots as [|slots IH]; intros [|x xs]; simpl; try done.
  - unfold ztake. by rewrite take_nil.
  - rewrite IH. replace (Z.of_nat (S slots) * chunk) with (chunk + Z.of_nat slots * chunk) by lia.
    symmetry. apply ztake_add; lia.
Qed.

Section taking.
Context {Rng A : Type} {D : Denotation Rng A}.
Implicit Types (b : GenerationBuffer Rng) (xs : list A).

(** The items a buffer still has to hand out. *)
Definition buffer_items b xs : Prop :=
  match pending b with
  | None => xs = []
  | Some draw =>
      exists items, denotes (bd_batch draw) items /\ 0 <= next_sample draw < zlen items /\
        (forall c, next_coordinate draw = Some c -> at_cursor (bd_batch draw) items (next_sample draw) c) /\
        xs = zdrop (next_sample draw) items
  end.

(** Serialising the buffer drops the coordinate cursor. *)
Definition snapshot_restore b : GenerationBuffer Rng :=
  set_pending (option_map (fun d => mkBufferedDraw (bd_batch d) (next_sample d) None (training_remaining_of d))
                 (pending b)) b.

Lemma snapshot_restore_items b xs : buffer_items b xs -> buffer_items (snapshot_restore b) xs.
Proof.
  unfold buffer_items, snapshot_restore, set_pending. simpl. destruct (pending b); simpl; [|done].
  intros (items & ? & ? & _ & ?). by exists items.
Qed.

Lemma ensure_coordinate_ok draw items :
  denotes (bd_batch draw) items -> 0 <= next_sample draw < zlen items ->
  (forall c, next_coordinate draw = Some c -> at_cursor (bd_batch draw) items (next_sample draw) c) ->
  exists c, ensure_coordinate draw =
      Ok (mkBufferedDraw (bd_batch draw) (next_sample draw) (Some c) (training_remaining_of draw)) /\
    at_cursor (bd_batch draw) items (next_sample draw) c.
Proof.
  intros Hd Hk Hc. unfold ensure_coordinate. destruct draw as [l k [c|] t]; simpl in *; [eauto|].
  rewrite (denotes_valid l items) by (done || (intros ->; unfold zlen in Hk; simpl in Hk; lia)). simpl.
  destruct (at_cursor_restored l items k) as (c & -> & ?); [done|lia|]. simpl. eauto.
Qed.

Lemma take_loop_chunks slots chunk l k c t items batches :
  denotes l items -> 0 <= k <= zlen items -> at_cursor l items k c -> 0 < chunk ->
  exists batches' c',
    take_loop slots chunk (mkBufferedDraw l k (Some c) t) batches =
      Some (mkBufferedDraw l (Z.min (zlen items) (k + Z.of_nat slots * chunk)) (Some c') t,
            Ok (batches ++ batches')) /\
    Forall2 denotes batches' (chunks slots chunk (zdrop k items)) /\
    at_cursor l items (Z.min (zlen items) (k + Z.of_nat slots * chunk)) c'.
Proof.
  intros Hd. destruct (denotes_length _ _ Hd) as [Hn Hmax].
  revert k c batches. induction slots as [|slots IH]; intros k c batches Hk Hc Hchunk.
  { exists [], c. simpl. rewrite app_nil_r, Z.add_0_r, Z.min_r by lia. repeat split; [constructor|done]. }
  simpl take_loop. rewrite Hn. destruct (Z.min chunk (zlen items - k) =? 0) eqn:E; zbool.
  - exists [], c. rewrite app_nil_r, Z.min_l by lia. assert (k = zlen items) as -> by lia.
    split; [done|]. split; [|done]. rewrite zdrop_all by lia. constructor.
  - set (size := Z.min chunk (zlen items - k)) in *.
    destruct (denotes_slice l items k c size) as (l' & Hs & Hl' & Hc'); [done|done|lia|lia|lia|].
    simpl. rewrite Hs. simpl.
    destruct (IH (k + size) (c + slice_coordinates l') (batches ++ [l'])) as (bs & c'' & Hloop & Hf & Hcur);
      [lia|done|done|].
    assert (Z.min (zlen items) (k + size + Z.of_nat slots * chunk) =
            Z.min (zlen items) (k + Z.of_nat (S slots) * chunk)) as Hmin by nia.
    rewrite Hmin in *. exists (l' :: bs), c''.
    split; [rewrite (cons_middle l' batches bs), app_assoc; exact Hloop|]. split; [|done].
    destruct (zdrop k items) as [|x rest] eqn:Ed.
    { apply (f_equal zlen) in Ed. rewrite zlen_zdrop, zlen_nil in Ed by lia. lia. }
    simpl. rewrite <- Ed in *. constructor.
    + destruct (decide (chunk <= zlen items - k)).
      * by replace chunk with size by lia.
      * rewrite ztake_all by (rewrite zlen_zdrop; lia). rewrite ztake_all in Hl' by (rewrite zlen_zdrop; lia). done.
    + destruct (decide (chunk <= zlen items - k)).
      * rewrite zdrop_zdrop by lia. assert (size = chunk) as Hsz by lia. by rewrite Hsz in Hf.
      * rewrite (zdrop_all chunk) by (rewrite zlen_zdrop; lia). rewrite zdrop_all in Hf by lia. done.
Qed.

Lemma take_batches_spec b xs slots chunk :
  buffer_items b xs -> 0 <= slots -> 0 < chunk ->
  exists b' batches, take_batches slots chunk b = Some (b', Ok batches) /\
    Forall2 denotes batches (chunks (Z.to_nat slots) chunk xs) /\
    buffer_items b' (zdrop (slots * chunk) xs) /\
    training_groups b' = training_groups b /\ finished b' = finished b.
Proof.
  intros Hb Hslots Hchunk. unfold take_batches. rewrite (proj2 (Z.eqb_neq chunk 0)) by lia.
  unfold buffer_items in Hb. destruct (pending b) as [draw|] eqn:Ep.
  2:{ subst xs. exists b, []. split; [done|]. split_and!; try done.
      - destruct (Z.to_nat slots); constructor.
      - unfold buffer_items. by rewrite Ep, zdrop_all by (rewrite zlen_nil; nia). }
  destruct Hb as (items & Hd & Hk & Hcur & ->). destruct (denotes_length _ _ Hd) as [Hn Hmax].
  destruct (ensure_coordinate_ok draw items Hd Hk Hcur) as (c & -> & Hc). cbn [bd_batch next_sample].
  rewrite Hn. destruct ((0 <? slots) && (next_sample draw =? 0) && (chunk >=? zlen items)) eqn:Ewhole.
  - zbool. rename H1 into Hz, H0 into Hge. exists (set_pending None b), [bd_batch draw]. rewrite Hz, zdrop_0.
    split; [done|]. split; [|split; [|done]].
    + destruct (Z.to_nat slots) as [|s] eqn:Es; [lia|]. destruct items as [|x items]; [unfold zlen in Hk; simpl in Hk; lia|].
      simpl. rewrite ztake_all, zdrop_all by lia. constructor; [done|]. destruct s; constructor.
    + unfold buffer_items. simpl. by rewrite zdrop_all by nia.
  - rewrite Z.geb_leb, (proj2 (Z.leb_gt _ _)) by lia.
    destruct (take_loop_chunks (Z.to_nat slots) chunk (bd_batch draw) (next_sample draw) c
                (training_remaining_of draw) items []) as (bs & c' & -> & Hf & Hc'); [done|lia|done|done|].
    simpl. eexists _, bs. split; [reflexivity|]. split; [done|]. split; [|done].
    rewrite Z2Nat.id in * by lia. unfold buffer_items. simpl.
    destruct (_ =? zlen items) eqn:Eend; zbool; simpl.
    + rewrite zdrop_zdrop by nia. by rewrite zdrop_all by lia.
    + exists items. split; [done|]. split; [nia|]. split.
      * intros c'' ?. by simplify_eq.
      * rewrite zdrop_zdrop by nia. f_equal. nia.
Qed.
End taking.

(** ** Schedules of work units, with restarts *)

Inductive Dispatch := Take (slots chunk_size : Z) | Reload.

Definition dispatch_ok (op : Dispatch) : Prop :=
  match op with Take slots chunk => 0 <= slots /\ 0 < chunk | Reload => True end.

Definition demand (ops : list Dispatch) : Z :=
  zsum (map (fun op => match op with Take slots chunk => slots * chunk | Reload => 0 end) ops).

(** [None]: a call panics or fails. *)
Fixpoint run_dispatch {Rng} (ops : list Dispatch) (b : GenerationBuffer Rng)
    : option (GenerationBuffer Rng * list (LatentBatch Rng)) :=
  match ops with
  | [] => Some (b, [])
  | Reload :: ops => run_dispatch ops (snapshot_restore b)
  | Take slots chunk :: ops =>
      match take_batches slots chunk b with
      | Some (b, Ok batches) =>
          option_map (fun '(b, more) => (b, batches ++ more)) (run_dispatch ops b)
      | _ => None
      end
  end.

Lemma demand_nonneg ops : Forall dispatch_ok ops -> 0 <= demand ops.
Proof.
  unfold demand. induction 1 as [|[slots chunk|] ops Hop _ IH]; simpl; [done| |lia].
  destruct Hop. nia.
Qed.

Lemma run_dispatch_spec {Rng A} {D : Denotation Rng A} ops b xs :
  buffer_items b xs -> Forall dispatch_ok ops ->
  exists b' batches parts, run_dispatch ops b = Some (b', batches) /\
    Forall2 denotes batches parts /\ concat parts = ztake (demand ops) xs /\
    buffer_items b' (zdrop (demand ops) xs).
Proof.
  intros Hb Hops. revert b xs Hb. induction Hops as [|op ops Hop Hops IH]; intros b xs Hb.
  { exists b, [], []. done. }
  pose proof (demand_nonneg ops Hops) as Hpos. destruct op as [slots chunk|]; simpl in Hop |- *.
  - destruct Hop as [Hs Hc].
    destruct (take_batches_spec b xs slots chunk) as (b1 & bs & -> & Hf & Hb1 & _); [done..|].
    destruct (IH _ _ Hb1) as (b2 & more & parts & -> & Hf2 & Hcat & Hb2).
    exists b2, (bs ++ more), (chunks (Z.to_nat slots) chunk xs ++ parts). split; [done|].
    unfold demand. simpl. fold (demand ops). split; [by apply Forall2_app|].
    rewrite concat_app, chunks_concat, Hcat, Z2Nat.id by lia. split; [by rewrite ztake_add by nia|].
    by rewrite <- (zdrop_zdrop (demand ops) (slots * chunk)) by nia.
  - apply (IH (snapshot_restore b) xs). by apply snapshot_restore_items.
Qed.

(** ** Assembling feedback *)

Definition group_ok (g : TrainingGroup) : Prop :=
  (valid_feedback (tg_feedback g) \/ unmasked_values (tg_feedback g) = []) /\
  0 <= feedback_len (tg_feedback g) < tg_samples g.

Definition groups_ok {Rng} (b : GenerationBuffer Rng) : Prop := Forall group_ok (training_groups b).

Lemma feedback_append_len self other f :
  feedback_append self other = Ok f -> feedback_len f = feedback_len self + feedback_len other.
Proof.
  unfold feedback_append. intros H. apply result_bind_ok in H as ([] & _ & H).
  unfold feedback_is_empty, feedback_len in *. destruct (_ =? 0) eqn:E; zbool; [simplify_eq; lia|].
  apply result_bind_ok in H as (s & _ & H). simplify_eq/=. by rewrite zlen_app.
Qed.

Lemma feedback_append_values self other f :
  feedback_append self other = Ok f -> unmasked_values f = unmasked_values self ++ unmasked_values other.
Proof.
  unfold feedback_append. intros H. apply result_bind_ok in H as ([] & _ & H).
  unfold feedback_is_empty, feedback_len in *. destruct (_ =? 0) eqn:E; zbool.
  - simplify_eq. by rewrite (zlen_zero (unmasked_values self)).
  - apply result_bind_ok in H as (s & _ & H). by simplify_eq/=.
Qed.

Section feedback.
Context {Rng : Type}.
Implicit Types b : GenerationBuffer Rng.

Lemma accept_feedback_ok b b' values out :
  accept_feedback values b = (b', Ok out) ->
  exists g gs f, training_groups b = g :: gs /\
    feedback_len values <= tg_samples g - feedback_len (tg_feedback g) /\
    feedback_append (tg_feedback g) values = Ok f /\ pending b' = pending b /\
    ((feedback_len f = tg_samples g /\ out = Some f /\ training_groups b' = gs) \/
     (feedback_len f <> tg_samples g /\ out = None /\
      training_groups b' = mkTrainingGroup (tg_samples g) f :: gs)).
Proof.
  unfold accept_feedback, se_bind, se_get, se_lift, se_modify, se_ret, se_fail.
  destruct (training_groups b) as [|g gs] eqn:Eg; [done|].
  rewrite Z.gtb_ltb. destruct (_ <? _) eqn:E; [done|]. zbool.
  destruct (feedback_append (tg_feedback g) values) as [f|] eqn:Ef; [|done].
  exists g, gs, f. destruct (feedback_len f =? tg_samples g) eqn:El; zbool; simplify_eq/=; eauto 12.
Qed.

Lemma accept_feedback_groups b b' values r :
  groups_ok b -> accept_feedback values b = (b', r) -> groups_ok b'.
Proof.
  intros Hok H. destruct r as [out|e].
  - apply accept_feedback_ok in H as (g & gs & f & Hg & Hle & Hf & _ & Hout).
    unfold groups_ok in *. rewrite Hg in Hok. apply Forall_cons in Hok as [[Hv Hn] Hgs].
    pose proof (feedback_append_len _ _ _ Hf) as Hlen.
    destruct Hout as [(_ & _ & ->)|(Hne & _ & ->)]; [done|]. constructor; [|done].
    pose proof (feedback_append_valid _ _ _ Hv Hf). unfold group_ok. simpl.
    pose proof (zlen_nonneg (unmasked_values values)). unfold feedback_len in *. split; [by left|lia].
  - unfold accept_feedback, se_bind, se_get, se_lift, se_modify, se_ret, se_fail in H.
    break; simplify_eq; done.
Qed.

(** Feeding fragments one after the other. *)
Fixpoint accept_all (fragments : list Feedback) b : option (GenerationBuffer Rng * list (option Feedback)) :=
  match fragments with
  | [] => Some (b, [])
  | values :: fragments =>
      match accept_feedback values b with
      | (b, Ok out) => option_map (fun '(b, outs) => (b, out :: outs)) (accept_all fragments b)
      | (_, Err _) => None
      end
  end.

Lemma accept_all_app fs1 fs2 b :
  accept_all (fs1 ++ fs2) b =
  match accept_all fs1 b with
  | Some (b, outs) => option_map (fun '(b, outs') => (b, outs ++ outs')) (accept_all fs2 b)
  | None => None
  end.
Proof.
  revert b. induction fs1 as [|v fs1 IH]; intros b; simpl.
  - by destruct (accept_all fs2 b) as [[]|].
  - destruct (accept_feedback v b) as [b1 [out|]]; [|done]. rewrite IH.
    destruct (accept_all fs1 b1) as [[b2 o]|]; simpl; [|done]. by destruct (accept_all fs2 b2) as [[]|].
Qed.

Lemma try_fold_append_len f0 fs f :
  try_fold feedback_append f0 fs = Ok f ->
  feedback_len f = feedback_len f0 + zsum (map feedback_len fs).
Proof.
  revert f0. induction fs as [|v fs IH]; intros f0 H; simpl in *; [simplify_eq; lia|].
  apply result_bind_ok in H as (f1 & H1 & H). apply IH in H. rewrite H, (feedback_append_len _ _ _ H1). lia.
Qed.

(** The fragments of one draw: the last one completes it. *)
Lemma accept_one_draw b n f0 gs fs v f :
  training_groups b = mkTrainingGroup n f0 :: gs ->
  Forall (fun v => 0 < feedback_len v) (fs ++ [v]) ->
  try_fold feedback_append f0 (fs ++ [v]) = Ok f -> feedback_len f = n ->
  accept_all (fs ++ [v]) b = Some (set_groups gs b, replicate (length fs) None ++ [Some f]).
Proof.
  revert b f0. induction fs as [|w fs IH]; intros b f0 Hg Hpos Hf Hn; pose proof (try_fold_append_len _ _ _ Hf) as Hlen.
  - simpl in *. apply result_bind_ok in Hf as (f1 & H1 & Hf). simplify_eq.
    unfold accept_feedback, se_bind, se_get, se_lift, se_modify, se_ret. rewrite Hg. simpl.
    rewrite Z.gtb_ltb, (proj2 (Z.ltb_ge _ _)) by lia. rewrite H1, Z.eqb_refl. done.
  - simpl in Hf, Hpos, Hlen. apply result_bind_ok in Hf as (f1 & H1 & Hf).
    apply Forall_cons in Hpos as [Hw Hpos]. pose proof (feedback_append_len _ _ _ H1).
    assert (0 < zsum (map feedback_len (fs ++ [v]))) as Hmore.
    { clear -Hpos. rewrite map_app, zsum_app. apply Forall_app in Hpos as [Hfs Hv].
      inversion Hv; simplify_eq. simpl. pose proof (zsum_nonneg (map feedback_len fs)) as Hz.
      rewrite Forall_map in Hz. specialize (Hz ltac:(eapply Forall_impl; [exact Hfs|]; simpl; lia)). lia. }
    simpl. unfold accept_feedback at 1, se_bind, se_get, se_lift, se_modify, se_ret. rewrite Hg. simpl.
    rewrite Z.gtb_ltb, (proj2 (Z.ltb_ge _ _)) by lia. rewrite H1, (proj2 (Z.eqb_neq _ _)) by lia.
    rewrite (IH _ f1); [done|done|done|done|done].
Qed.

(** results are handed back draw by draw. When the evaluator fragments
    of the outstanding draws arrive in order and none crosses a draw, the
    buffer returns, at the last fragment of each draw and not before,
    exactly that draw's feedback, and every outstanding draw is used up. *)
Theorem accept_feedback_assembles b (draws : list (list Feedback * Feedback * Feedback))
    (Hgroups : training_groups b = map (fun d => mkTrainingGroup (feedback_len d.2) feedback_default) draws)
    (Hdraws : Forall (fun d => Forall (fun v => 0 < feedback_len v) (d.1.1 ++ [d.1.2]) /\
                               try_fold feedback_append feedback_default (d.1.1 ++ [d.1.2]) = Ok d.2) draws) :
  accept_all (concat (map (fun d => d.1.1 ++ [d.1.2]) draws)) b =
  Some (set_groups [] b, concat (map (fun d => replicate (length d.1.1) None ++ [Some d.2]) draws)).
Proof.
  revert b Hgroups. induction Hdraws as [|[[fs v] f] draws [Hpos Hf] _ IH]; intros b Hgroups; simpl in *.
  { unfold set_groups. rewrite <- Hgroups. by destruct b. }
  rewrite accept_all_app, (accept_one_draw b _ _ _ _ _ _ Hgroups Hpos Hf eq_refl).
  by rewrite (IH (set_groups _ b)).
Qed.

(** a fragment never mixes draws. Whatever is fed, a returned feedback
    has exactly the samples of the oldest outstanding draw, is valid and is
    what was collected for it followed by the fragment; a fragment that
    would cross the boundary is refused and changes nothing. *)
Theorem accept_feedback_boundary b b' values r
    (Hok : groups_ok b) (Hrun : accept_feedback values b = (b', r)) :
  groups_ok b' /\ pending b' = pending b /\
  match r with
  | Ok (Some f) => exists g gs, training_groups b = g :: gs /\ training_groups b' = gs /\
      feedback_len f = tg_samples g /\ valid_feedback f /\
      unmasked_values f = unmasked_values (tg_feedback g) ++ unmasked_values values
  | Ok None => exists g gs f, training_groups b = g :: gs /\
      training_groups b' = mkTrainingGroup (tg_samples g) f :: gs /\
      unmasked_values f = unmasked_values (tg_feedback g) ++ unmasked_values values
  | Err _ => b' = b
  end.
Proof.
  split; [by eapply accept_feedback_groups|]. destruct r as [out|e].
  - apply accept_feedback_ok in Hrun as (g & gs & f & Hg & Hle & Hf & Hp & Hout).
    split; [done|]. pose proof (feedback_append_values _ _ _ Hf).
    unfold groups_ok in Hok. rewrite Hg in Hok. apply Forall_cons in Hok as [[Hv _] _].
    destruct Hout as [(? & -> & ?)|(? & -> & ?)]; [|by exists g, gs, f].
    exists g, gs. split_and!; try done. by eapply feedback_append_valid.
  - unfold accept_feedback, se_bind, se_get, se_lift, se_modify, se_ret, se_fail in Hrun.
    break; simplify_eq; done.
Qed.
End feedback.

(** a buffered draw is dispatched exactly once. Whatever the numbers of
    slots and the chunk sizes asked for, and wherever the buffer is saved and
    restored in between, no call fails or panics, and once enough has been
    asked for the work units decode, in order, to the points of the draw. *)
Theorem dispatch_covers_points {Rng} (b b1 : GenerationBuffer Rng) l points training ops
    (Hl : latent_from_batch points = Some l)
    (Hsize : zsum (map (fun pt => zlen (continuous pt)) points) <= usize_max)
    (Hlen : zlen points <= usize_max)
    (Hbuf : buffer_draw l training b = (b1, Ok tt))
    (Hops : Forall dispatch_ok ops) (Henough : zlen points <= demand ops) :
  exists b2 batches pieces, run_dispatch ops b1 = Some (b2, batches) /\ pending b2 = None /\
    try_map (fun batch => as_batch (payload batch)) batches = Ok pieces /\
    concat pieces = map normalise points.
Proof.
  unfold buffer_draw, se_bind, se_get, se_lift, se_modify, se_fail in Hbuf.
  destruct (has_pending b); [done|]. destruct (validate_nr_samples l) as [[]|[msg]] eqn:Hv; [|done].
  simpl in Hbuf. injection Hbuf as <-.
  destruct (latent_roundtrip_rows l points Hl Hsize) as (rows & [Hrows Hn] & Hpts & Hcoords).
  assert (zlen rows = zlen points) as Hrl by (apply (f_equal zlen) in Hpts; by rewrite !zlen_lmap in Hpts).
  assert (0 < zlen rows) as Hpos.
  { pose proof (zlen_nonneg rows). unfold validate_nr_samples in Hv. destruct (nr_samples l =? 0) eqn:E; [done|]. zbool. lia. }
  destruct (run_dispatch_spec (D := rows_denotation Rng) ops
    (set_pending (Some (mkBufferedDraw l 0 (Some 0) training)) b) rows) as (b2 & batches & parts & Hrun & Hf & Hcat & Hb2);
    [|done|].
  { unfold buffer_items. simpl. exists rows. split; [split; [done|lia]|]. split; [lia|]. split; [|done].
    intros c ?. simplify_eq. done. }
  rewrite ztake_all in Hcat by lia. rewrite zdrop_all in Hb2 by lia.
  exists b2, batches, (map (map row_point) parts). split; [done|]. split; [|split].
  - unfold buffer_items in Hb2. destruct (pending b2) as [d|]; [|done].
    destruct Hb2 as (items & _ & Hk & _ & Hnil). apply (f_equal zlen) in Hnil.
    rewrite zlen_zdrop, zlen_nil in Hnil by lia. lia.
  - apply try_map_Forall2, Forall2_map_r. rewrite <- Hcat in Hcoords. clear -Hf Hcoords.
    induction Hf as [|batch part batches parts [[Hp _] _] _ IH]; constructor; simpl in Hcoords;
      rewrite map_app, concat_app, zlen_app in Hcoords.
    + apply as_batch_rows; [done|]. pose proof (zlen_nonneg (concat (map row_continuous (concat parts)))). lia.
    + apply IH. pose proof (zlen_nonneg (concat (map row_continuous part))). lia.
  - rewrite <- Hpts, <- Hcat. symmetry. apply concat_map.
Qed.

(** ** Witnesses *)

Definition example_fragment (v : f64) : Feedback := feedback_new [v].

Lemma accept_feedback_assembles_witness :
  accept_all (Rng := unit) [example_fragment 1; example_fragment 2; example_fragment 3]
    (mkGenerationBuffer None [mkTrainingGroup 2 feedback_default; mkTrainingGroup 1 feedback_default] false) =
  Some (generation_default, [None; Some (feedback_new [1; 2]%float); Some (feedback_new [3%float])]).
Proof.
  apply (accept_feedback_assembles
    (mkGenerationBuffer None [mkTrainingGroup 2 feedback_default; mkTrainingGroup 1 feedback_default] false)
    [([example_fragment 1], example_fragment 2, feedback_new [1; 2]%float);
     ([], example_fragment 3, feedback_new [3%float])]); [done|].
  repeat constructor.
Defined.

Lemma accept_feedback_boundary_witness :
  let b := mkGenerationBuffer (Rng := unit) None [mkTrainingGroup 1 feedback_default] false in
  groups_ok b /\ pending b = None /\ b = b.
Proof.
  apply (accept_feedback_boundary (mkGenerationBuffer None [mkTrainingGroup 1 feedback_default] false)
           (mkGenerationBuffer None [mkTrainingGroup 1 feedback_default] false)
           (feedback_new [1; 2]%float) (Err (EngineE "training result crosses a generation boundary"))); [|done].
  constructor; [|constructor]. split; [by right|done].
Defined.

Definition example_latent : LatentBatch unit :=
  mkLatentBatch 3 (IndexedBatch [[1]; []] [0; 1; 0] [1; 0; 2] [0.5; 0.25; 0.75]%float [2; 1; 3]%float).

Lemma dispatch_covers_points_witness :
  exists b2 batches pieces,
    run_dispatch [Take 1 2; Reload; Take 2 1]
      (mkGenerationBuffer (Some (mkBufferedDraw example_latent 0 (Some 0) None)) [] false) = Some (b2, batches) /\
    pending b2 = None /\
    try_map (fun batch => as_batch (payload batch)) batches = Ok pieces /\
    concat pieces = map normalise example_points.
Proof.
  apply (dispatch_covers_points generation_default _ example_latent example_points None);
    [by vm_compute..|repeat constructor; by vm_compute|by vm_compute].
Defined.
