(* ===== verification/Raster.v ===== *)
(** src/sampling/sampler_aggregator/raster.rs (the permuted scan, the raster
    sampler, the ingestion of PDF-adaptation values) over the raster geometries
    of src/core/tasks.rs. *)
From S2P Require Import Prelude Floats Lex Errors Domain Batch LatentBatch Generation.
From Stdlib Require Import Znumtheory.

(** ** Geometries *)

Record Linspace := mkLinspace { ls_start : f64; ls_stop : f64; ls_count : usize }.

Definition linspace_validate (l : Linspace) : result string unit :=
  if ls_count l =? 0 then Err "count must be > 0"%string
  else if negb (PrimFloat.is_finite (ls_start l)) || negb (PrimFloat.is_finite (ls_stop l)) then
    Err "bounds must be finite"%string
  else Ok tt.

Definition linspace_value_at (l : Linspace) (index : usize) : f64 :=
  if ls_count l <=? 1 then ls_start l
  else
    let clamped_index := Z.min index (ls_count l - 1) in
    let t := (f64_of_Z clamped_index / f64_of_Z (ls_count l - 1))%float in
    (ls_start l + t * (ls_stop l - ls_start l))%float.

Definition linspace_values (l : Linspace) : list f64 := map (linspace_value_at l) (seqZ 0 (ls_count l)).

Record PlaneRasterGeometry := mkPlane {
  pl_offset : list f64;
  u_vector : list f64;
  v_vector : list f64;
  u_linspace : Linspace;
  v_linspace : Linspace;
  pl_discrete : list Z
}.

Record LineRasterGeometry := mkLine {
  li_offset : list f64;
  direction : list f64;
  linspace : Linspace;
  li_discrete : list Z
}.

Definition vector_norm_sq (values : list f64) : f64 := f64_sum (map (fun v => v * v)%float values).

Definition vectors_are_independent (left right : list f64) : bool :=
  let left_norm := PrimFloat.sqrt (vector_norm_sq left) in
  let right_norm := PrimFloat.sqrt (vector_norm_sq right) in
  if PrimFloat.eqb left_norm 0%float || PrimFloat.eqb right_norm 0%float then false
  else
    let cosine :=
      (f64_sum (map (fun '(l, r) => l * r)%float (zip left right)) / (left_norm * right_norm))%float in
    PrimFloat.ltb 1e-9%float (1 - PrimFloat.abs cosine)%float.

Definition plane_validate (g : PlaneRasterGeometry) : result string unit :=
  let? _ := linspace_validate (u_linspace g) in
  let? _ := linspace_validate (v_linspace g) in
  let dims := zlen (pl_offset g) in
  if dims =? 0 then Err "plane geometry offset must have at least one continuous dimension"%string
  else if negb (zlen (u_vector g) =? dims) || negb (zlen (v_vector g) =? dims) then
    Err "plane geometry vectors must match offset dimensionality"%string
  else if PrimFloat.eqb (vector_norm_sq (u_vector g)) 0%float
          || PrimFloat.eqb (vector_norm_sq (v_vector g)) 0%float then
    Err "plane geometry vectors must be non-zero"%string
  else if negb (vectors_are_independent (u_vector g) (v_vector g)) then
    Err "plane geometry vectors must not be parallel"%string
  else Ok tt.

Definition plane_nr_points (g : PlaneRasterGeometry) : usize :=
  usize_saturating_mul (ls_count (u_linspace g)) (ls_count (v_linspace g)).

Definition point_at_indices (g : PlaneRasterGeometry) (u_idx v_idx : usize) : list f64 :=
  let u := linspace_value_at (u_linspace g) u_idx in
  let v := linspace_value_at (v_linspace g) v_idx in
  map (fun '(offset, basis_u, basis_v) => (offset + u * basis_u + v * basis_v)%float)
    (zip (zip (pl_offset g) (u_vector g)) (v_vector g)).

Definition plane_point_at (g : PlaneRasterGeometry) (index : usize) : list f64 :=
  let width := Z.max (ls_count (u_linspace g)) 1 in
  point_at_indices g (index mod width) (index / width).

Definition line_validate (g : LineRasterGeometry) : result string unit :=
  let? _ := linspace_validate (linspace g) in
  let dims := zlen (li_offset g) in
  if dims =? 0 then Err "line geometry offset must have at least one continuous dimension"%string
  else if negb (zlen (direction g) =? dims) then
    Err "line geometry direction must match offset dimensionality"%string
  else if PrimFloat.eqb (vector_norm_sq (direction g)) 0%float then
    Err "line geometry direction must be non-zero"%string
  else Ok tt.

Definition line_nr_points (g : LineRasterGeometry) : usize := ls_count (linspace g).
Definition parameter_at (g : LineRasterGeometry) (index : usize) : f64 := linspace_value_at (linspace g) index.
Definition line_point_at (g : LineRasterGeometry) (index : usize) : list f64 :=
  let t := parameter_at g index in
  map (fun '(offset, direction) => (offset + t * direction)%float) (zip (li_offset g) (direction g)).

(** [validate_plane_geometry], [validate_line_geometry]: the two bodies differ
    in the geometry and the messages only. *)
Definition validate_geometry (validated : result string unit) (discrete : list Z) (offset : list f64)
    (domain : Domain) : result EngineError unit :=
  let? _ := map_err InvalidInputE validated in
  let? continuous_dims :=
    map_err (fun _ => Incompatible "line geometry discrete path is not valid for domain")
      (continuous_dims_at_discrete_path domain discrete) in
  if negb (zlen offset =? continuous_dims) then
    Err (Incompatible "line geometry continuous dimension mismatch")
  else Ok tt.

(** ** The trait [RasterGeometry] *)

Class RasterGeometry (G : Type) := {
  rg_validate_domain : G -> Domain -> result EngineError unit;
  rg_nr_points : G -> usize;
  rg_point_at : G -> usize -> list f64;
  rg_discrete : G -> list Z;
  rg_with_discrete : G -> list Z -> G;
  rg_line : G -> option LineRasterGeometry
}.

#[export] Instance plane_raster : RasterGeometry PlaneRasterGeometry := {|
  rg_validate_domain g := validate_geometry (plane_validate g) (pl_discrete g) (pl_offset g);
  rg_nr_points := plane_nr_points;
  rg_point_at := plane_point_at;
  rg_discrete := pl_discrete;
  rg_with_discrete g d := mkPlane (pl_offset g) (u_vector g) (v_vector g) (u_linspace g) (v_linspace g) d;
  rg_line _ := None
|}.

#[export] Instance line_raster : RasterGeometry LineRasterGeometry := {|
  rg_validate_domain g := validate_geometry (line_validate g) (li_discrete g) (li_offset g);
  rg_nr_points := line_nr_points;
  rg_point_at := line_point_at;
  rg_discrete := li_discrete;
  rg_with_discrete g d := mkLine (li_offset g) (direction g) (linspace g) d;
  rg_line g := Some g
|}.

(** ** The permuted scan *)

(** [index * stride] wraps at 64 bits. *)
Definition permuted_raster_index (index total_samples stride : usize) : usize :=
  if total_samples <=? 1 then Z.min index (usize_saturating_sub total_samples 1)
  else ((index * stride) mod 2 ^ 64) mod total_samples.

(** The [while] loop, with the number of iterations as fuel. *)
Fixpoint coprime_search (fuel : nat) (candidate total_samples : usize) : option usize :=
  match fuel with
  | O => None
  | S fuel =>
      if Z.gcd candidate total_samples =? 1 then Some candidate
      else
        let candidate := candidate + 1 in
        coprime_search fuel (if candidate >=? total_samples then 1 else candidate) total_samples
  end.

Definition phi_minus_one : f64 := 0.6180339887498949%float.

Definition stride_start (total_samples : usize) : usize :=
  clamp 1 (total_samples - 1) (f64_as_usize (f64_floor (f64_of_Z total_samples * phi_minus_one)%float)).

Definition coprime_stride (total_samples : usize) : option usize :=
  if total_samples <=? 1 then Some 1
  else coprime_search (Z.to_nat total_samples) (stride_start total_samples) total_samples.

(** ** The sampler *)

Section raster.
Context {Rng G : Type} `{RasterGeometry G}.

Record RasterSampler := mkRasterSampler {
  rs_geometry : G;
  rs_next_index : usize;
  rs_stride : usize
}.

Definition raster_from_params_and_domain (geometry : G) (domain : Domain)
    : option (result EngineError RasterSampler) :=
  match rg_validate_domain geometry domain with
  | Err e => Some (Err e)
  | Ok _ => option_map (fun stride => Ok (mkRasterSampler geometry 0 stride))
              (coprime_stride (rg_nr_points geometry))
  end.

(** A snapshot holds [next_index] and [stride]. *)
Definition raster_from_snapshot (geometry : G) (snapshot : usize * usize) (domain : Domain)
    : option (result EngineError RasterSampler) :=
  option_map (fun r => let? sampler := r in
                       Ok (mkRasterSampler (rs_geometry sampler) snapshot.1 snapshot.2))
    (raster_from_params_and_domain geometry domain).

(** The points of a batch and the index after it. *)
Definition produce_raster_points (next_index total_samples stride : usize) (discrete : list Z)
    (point_at : usize -> list f64) (requested_samples : usize) : result EngineError (list Point * usize) :=
  let nr_samples := Z.min requested_samples (usize_saturating_sub total_samples next_index) in
  if nr_samples =? 0 then Err (EngineE "sampler cannot produce an empty batch")
  else
    Ok (map (fun row_idx =>
               point_new (point_at (permuted_raster_index (next_index + row_idx) total_samples stride))
                 discrete 1%float)
          (seqZ 0 nr_samples), next_index + nr_samples).

(** [LatentBatch::from_batch] cannot panic here: every point has its sampler
    weight. *)
Definition produce_raster_batch (next_index total_samples stride : usize) (discrete : list Z)
    (point_at : usize -> list f64) (requested_samples : usize)
    : result EngineError (option (LatentBatch Rng) * usize) :=
  let? p := produce_raster_points next_index total_samples stride discrete point_at requested_samples in
  Ok (latent_from_batch p.1, p.2).

Definition raster_generate (max_samples : usize)
    : SE RasterSampler EngineError (option (Generation Rng)) :=
  if max_samples =? 0 then se_fail (InvalidInputE "max_samples must be positive")
  else
    let! self := se_get id in
    let geometry := rs_geometry self in
    if rs_next_index self =? rg_nr_points geometry then se_ret (Some Finished)
    else
      let! r := se_lift (produce_raster_batch (rs_next_index self) (rg_nr_points geometry) (rs_stride self)
                           (rg_discrete geometry) (rg_point_at geometry) max_samples) in
      se_modify (fun s => mkRasterSampler (rs_geometry s) r.2 (rs_stride s)) ;!
      se_ret (option_map (fun batch => GBatch batch None) r.1).
End raster.
Arguments RasterSampler : clear implicits.

(** ** The scan is a permutation of the grid *)

Lemma coprime_search_finds n fuel c :
  1 < n -> 1 <= c < n -> n - c < Z.of_nat fuel ->
  exists s, coprime_search fuel c n = Some s /\ 1 <= s < n /\ Z.gcd s n = 1.
Proof.
  intros Hn. revert c. induction fuel as [|fuel IH]; intros c Hc Hf; [lia|].
  simpl. destruct (Z.gcd c n =? 1) eqn:E; zbool; [eauto|].
  rewrite Z.geb_leb. destruct (n <=? c + 1) eqn:El; zbool; [|apply IH; lia].
  destruct fuel as [|fuel]; [lia|]. exists 1. simpl. rewrite Z.gcd_1_l. simpl. split_and!; [done|lia..].
Qed.

Lemma coprime_search_total n :
  0 <= n -> exists s, coprime_stride n = Some s /\ 1 <= s /\ (1 < n -> s < n /\ Z.gcd s n = 1).
Proof.
  intros Hn. unfold coprime_stride. destruct (n <=? 1) eqn:E; zbool.
  - exists 1. split; [done|]. lia.
  - assert (1 <= stride_start n < n) as Hstart by (unfold stride_start, clamp; lia).
    destruct (coprime_search_finds n (Z.to_nat n) (stride_start n)) as (s & Hs & Hr & Hg); [lia|done|lia|].
    exists s. split; [done|]. split; [lia|]. intros _. split; [lia|done].
Qed.

(** the stride search terminates for every grid size, within as many steps
    as the grid has points, and its result is coprime to the size. *)
Theorem coprime_stride_terminates n (Hn : 0 <= n) :
  exists s, coprime_stride n = Some s /\ 1 <= s /\ (1 < n -> s < n /\ Z.gcd s n = 1).
Proof. by apply coprime_search_total. Qed.

Lemma coprime_stride_terminates_witness :
  exists s, coprime_stride 12 = Some s /\ 1 <= s /\ (1 < 12 -> s < 12 /\ Z.gcd s 12 = 1).
Proof. apply (coprime_stride_terminates 12). lia. Defined.

(** A stride that scans every index of an [n]-point grid. *)
Definition good_stride (n s : Z) : Prop := 1 <= s /\ (1 < n -> s < n /\ Z.gcd s n = 1).

Lemma permuted_index_range n s i :
  0 <= i < n -> good_stride n s -> 0 <= permuted_raster_index i n s < n.
Proof.
  intros Hi _. unfold permuted_raster_index, usize_saturating_sub. destruct (n <=? 1) eqn:E; zbool; [lia|].
  apply Z.mod_pos_bound. lia.
Qed.

Lemma permuted_index_inj n s i j :
  n <= 2 ^ 32 -> good_stride n s -> 0 <= i < n -> 0 <= j < n ->
  permuted_raster_index i n s = permuted_raster_index j n s -> i = j.
Proof.
  intros Hmax [Hs Hg] Hi Hj. unfold permuted_raster_index, usize_saturating_sub.
  destruct (n <=? 1) eqn:E; zbool; [lia|]. destruct (Hg E) as [Hsn Hgcd].
  rewrite (Z.mod_small (i * s)), (Z.mod_small (j * s)) by nia. intros Heq.
  assert (n | s * (i - j)) as Hdiv.
  { apply Z.mod_divide; [lia|]. replace (s * (i - j)) with (i * s - j * s) by ring.
    rewrite Zminus_mod, Heq. by rewrite Z.sub_diag. }
  apply Z.gauss in Hdiv; [|by rewrite Z.gcd_comm].
  destruct Hdiv as [q Hq]. assert (q = 0) by nia. lia.
Qed.

Definition scan_order (n s : Z) : list Z := map (fun i => permuted_raster_index i n s) (seqZ 0 n).

Lemma seqZ_zlen m n : 0 <= n -> zlen (seqZ m n) = n.
Proof. intros. unfold zlen. rewrite length_seqZ. lia. Qed.

Lemma scan_order_permutation n s :
  0 <= n <= 2 ^ 32 -> good_stride n s -> scan_order n s ≡ₚ seqZ 0 n.
Proof.
  intros Hn Hs. unfold scan_order.
  change (map ?f ?l) with (f <$> l). apply submseteq_length_Permutation.
  - apply NoDup_submseteq.
    + apply NoDup_fmap_2_strong; [|apply NoDup_seqZ].
      intros i j Hi%elem_of_seqZ Hj%elem_of_seqZ. apply permuted_index_inj; [lia|done|lia|lia].
    + intros x (i & -> & Hi%elem_of_seqZ)%list_elem_of_fmap. apply elem_of_seqZ.
      pose proof (permuted_index_range n s i ltac:(lia) Hs). lia.
  - rewrite length_fmap. lia.
Qed.

Section covering.
Context {Rng G : Type} `{RasterGeometry G}.

Definition raster_point (g : G) (i : Z) : Point := point_new (rg_point_at g i) (rg_discrete g) 1%float.

(** Consecutive draws with the given limits, up to the end of the scan. *)
Fixpoint raster_run (requests : list usize) (self : RasterSampler G)
    : option (RasterSampler G * list (LatentBatch Rng)) :=
  match requests with
  | [] => Some (self, [])
  | request :: requests =>
      match raster_generate request self with
      | (self, Ok (Some (GBatch batch _))) =>
          option_map (fun '(self, batches) => (self, batch :: batches)) (raster_run requests self)
      | (self, Ok (Some Finished)) => raster_run requests self
      | _ => None
      end
  end.

Lemma raster_generate_spec (self : RasterSampler G) request :
  0 < request -> 0 <= rs_next_index self <= rg_nr_points (rs_geometry self) ->
  (forall i, zlen (rg_point_at (rs_geometry self) i) * rg_nr_points (rs_geometry self) <= usize_max) ->
  let n := rg_nr_points (rs_geometry self) in
  let k := Z.min request (n - rs_next_index self) in
  let self' := mkRasterSampler (rs_geometry self) (rs_next_index self + k) (rs_stride self) in
  exists batches : list (LatentBatch Rng),
    (forall requests, raster_run (request :: requests) self =
      option_map (fun '(self, more) => (self, batches ++ more)) (raster_run requests self')) /\
    exists pieces, try_map (fun b => as_batch (payload b)) batches = Ok pieces /\
      concat pieces = map (fun i => raster_point (rs_geometry self) (permuted_raster_index i n (rs_stride self)))
                        (seqZ (rs_next_index self) k).
Proof.
  intros Hreq Hnext Hdims. cbv zeta. set (n := rg_nr_points (rs_geometry self)) in *.
  set (k := Z.min request (n - rs_next_index self)).
  destruct (decide (rs_next_index self = n)) as [Heq|Hne].
  - assert (k = 0) as -> by lia. exists []. split.
    + intros requests. simpl. unfold raster_generate, se_bind, se_get, se_ret.
      rewrite (proj2 (Z.eqb_neq request 0)) by lia. simpl. fold n. rewrite Heq, Z.eqb_refl, Z.add_0_r.
      rewrite <- Heq. destruct self. simpl. by destruct (raster_run requests _) as [[]|].
    + exists []. split; [done|]. by rewrite seqZ_nil by lia.
  - set (points := map (fun row_idx => point_new
        (rg_point_at (rs_geometry self) (permuted_raster_index (rs_next_index self + row_idx) n (rs_stride self)))
        (rg_discrete (rs_geometry self)) 1%float) (seqZ 0 k)).
    assert (zlen (seqZ 0 k) = k) as Hk by (apply seqZ_zlen; lia).
    destruct (latent_roundtrip (Rng := Rng) points) as (l & Hl & Hdec & _).
    { unfold points. apply Forall_map, Forall_forall. intros i _. done. }
    { unfold points. rewrite map_map. simpl.
      transitivity (zsum (map (fun i => zlen (rg_point_at (rs_geometry self)
        (permuted_raster_index (rs_next_index self + i) n (rs_stride self)))) (seqZ 0 k))); [done|].
      apply (zsum_bounded n); [lia|rewrite zlen_lmap; lia| |done].
      apply Forall_map, Forall_forall. intros i _. split; [apply zlen_nonneg|apply Hdims]. }
    exists [l]. split.
    + intros requests. simpl. unfold raster_generate, produce_raster_batch, produce_raster_points, se_bind, se_get,
        se_ret, se_lift, se_modify, usize_saturating_sub.
      rewrite (proj2 (Z.eqb_neq request 0)) by lia. simpl. fold n. rewrite (proj2 (Z.eqb_neq _ n)) by done.
      rewrite (Z.max_r 0 (n - rs_next_index self)) by lia. fold k.
      rewrite (proj2 (Z.eqb_neq k 0)) by lia. simpl. fold points. rewrite Hl. simpl.
      by destruct (raster_run requests _) as [[]|].
    + simpl. rewrite Hdec. simpl. eexists; split; [done|]. simpl. rewrite app_nil_r.
      unfold points. rewrite map_map.
      assert (seqZ (rs_next_index self) k = map (Z.add (rs_next_index self)) (seqZ 0 k)) as ->.
      { change (map ?f ?l) with (f <$> l). rewrite fmap_add_seqZ. f_equal. lia. }
      by rewrite map_map.
Qed.

Lemma raster_run_spec requests (self : RasterSampler G) :
  Forall (fun r => 0 < r) requests -> 0 <= rs_next_index self <= rg_nr_points (rs_geometry self) ->
  (forall i, zlen (rg_point_at (rs_geometry self) i) * rg_nr_points (rs_geometry self) <= usize_max) ->
  let n := rg_nr_points (rs_geometry self) in
  let k := Z.min (zsum requests) (n - rs_next_index self) in
  exists batches pieces,
    raster_run requests self =
      Some (mkRasterSampler (rs_geometry self) (rs_next_index self + k) (rs_stride self), batches) /\
    try_map (fun b => as_batch (payload b)) batches = Ok pieces /\
    concat pieces = map (fun i => raster_point (rs_geometry self) (permuted_raster_index i n (rs_stride self)))
                      (seqZ (rs_next_index self) k).
Proof.
  intros Hreq Hnext Hdims. revert self Hnext Hdims.
  induction Hreq as [|request requests Hr Hreq IH]; intros self Hnext Hdims; cbv zeta.
  - exists [], []. simpl. rewrite Z.min_l, Z.add_0_r by lia. by destruct self.
  - destruct (raster_generate_spec self request Hr Hnext Hdims) as (bs & Hrun & ps & Hps & Hcat).
    assert (0 <= zsum requests) by (apply zsum_nonneg; eapply Forall_impl; [exact Hreq|simpl; lia]).
    set (n := rg_nr_points (rs_geometry self)) in *. set (k := Z.min request (n - rs_next_index self)) in *.
    destruct (IH (mkRasterSampler (rs_geometry self) (rs_next_index self + k) (rs_stride self)))
      as (bs' & ps' & Hrun' & Hps' & Hcat'); [simpl; fold n; lia|done|].
    simpl in Hrun', Hcat'. fold n in Hrun', Hcat'.
    set (k' := Z.min (zsum requests) (n - (rs_next_index self + k))) in *.
    rewrite zsum_cons. replace (Z.min (request + zsum requests) (n - rs_next_index self)) with (k + k') by lia.
    exists (bs ++ bs'), (ps ++ ps'). split; [|split].
    + rewrite Hrun, Hrun'. simpl. do 3 f_equal. lia.
    + by apply try_map_app.
    + rewrite concat_app, Hcat, Hcat', seqZ_app by lia. by rewrite map_app.
Qed.
End covering.

(** a raster scan visits every grid point exactly once. Whatever positive
    limits the runtime passes to [generate], no call fails or panics; once they
    add up to the size of the grid, the decoded batches are a permutation of
    the grid's points and the sampler reports that it has finished. *)
Theorem raster_covers_grid {Rng G} {HG : RasterGeometry G} (g : G) domain requests
    (Hdomain : rg_validate_domain g domain = Ok tt)
    (Hn : 0 <= rg_nr_points g <= 2 ^ 32)
    (Hdims : forall i, zlen (rg_point_at g i) * rg_nr_points g <= usize_max)
    (Hreq : Forall (fun r => 0 < r) requests) (Henough : rg_nr_points g <= zsum requests) :
  exists s0 s1 batches pieces,
    raster_from_params_and_domain g domain = Some (Ok s0) /\
    raster_run (Rng := Rng) requests s0 = Some (s1, batches) /\
    try_map (fun b => as_batch (payload b)) batches = Ok pieces /\
    concat pieces ≡ₚ map (raster_point g) (seqZ 0 (rg_nr_points g)) /\
    forall k, 0 < k -> raster_generate (Rng := Rng) k s1 = (s1, Ok (Some Finished)).
Proof.
  unfold raster_from_params_and_domain. rewrite Hdomain.
  destruct (coprime_search_total (rg_nr_points g)) as (s & -> & Hs); [lia|]. simpl.
  destruct (raster_run_spec (Rng := Rng) requests (mkRasterSampler g 0 s)) as (bs & ps & Hrun & Hps & Hcat);
    [done|simpl; lia|done|].
  simpl in *. rewrite Z.sub_0_r, Z.min_r in Hrun, Hcat by lia. eexists _, _, bs, ps.
  split; [done|]. split; [exact Hrun|]. split; [done|]. split.
  - rewrite Hcat, <- (map_map (fun i => permuted_raster_index i (rg_nr_points g) s) (raster_point g)).
    by apply Permutation_map, scan_order_permutation.
  - intros k Hk. unfold raster_generate, se_bind, se_get, se_ret.
    rewrite (proj2 (Z.eqb_neq k 0)) by lia. simpl. by rewrite Z.add_0_l, Z.eqb_refl.
Qed.

Definition example_line : LineRasterGeometry :=
  mkLine [0.25%float] [1%float] (mkLinspace 0 1 5) [].

Lemma raster_covers_grid_witness :
  exists s0 s1 batches pieces,
    raster_from_params_and_domain example_line (Rectangular 0 [] 1) = Some (Ok s0) /\
    raster_run (Rng := unit) [2; 9] s0 = Some (s1, batches) /\
    try_map (fun b => as_batch (payload b)) batches = Ok pieces /\
    concat pieces ≡ₚ map (raster_point example_line) (seqZ 0 (rg_nr_points example_line)) /\
    forall k, 0 < k -> raster_generate (Rng := unit) k s1 = (s1, Ok (Some Finished)).
Proof.
  apply (raster_covers_grid (Rng := unit) example_line (Rectangular 0 [] 1) [2; 9]);
    [by vm_compute|split; by vm_compute|intros i; by vm_compute|repeat constructor|by vm_compute].
Defined.
