(* ===== verification/BatchIds.v ===== *)
(** src/core/batch_ids.rs: the process-wide generator of batch identifiers. The
    clock readings of a call are its input. *)
From S2P Require Import Prelude.

Definition BATCH_ID_COUNTER_BITS : Z := 6.
Definition BATCH_ID_PROCESS_ENTROPY_BITS : Z := 16.
Definition BATCH_ID_SUFFIX_BITS : Z := BATCH_ID_COUNTER_BITS + BATCH_ID_PROCESS_ENTROPY_BITS.
Definition BATCH_ID_COUNTER_MASK : Z := Z.shiftl 1 BATCH_ID_COUNTER_BITS - 1.

Record BatchIdGenerator := mkBatchIdGenerator {
  last_millis : u64;
  counter : Z;
  process_entropy : Z
}.

Definition generator_new (entropy : Z) : BatchIdGenerator := mkBatchIdGenerator 0 0 entropy.

Definition u64_saturating_succ (z : u64) : u64 := Z.min usize_max (z + 1).
Definition u16_saturating_succ (z : Z) : Z := Z.min 65535 (z + 1).

(** The choice of the millisecond and the counter of the next identifier. *)
Definition advance_clock (self : BatchIdGenerator) (now_millis : u64) : BatchIdGenerator :=
  if now_millis >? last_millis self then mkBatchIdGenerator now_millis 0 (process_entropy self)
  else if counter self >=? BATCH_ID_COUNTER_MASK then
    mkBatchIdGenerator (u64_saturating_succ (last_millis self)) 0 (process_entropy self)
  else self.

(** [i64] shifts drop the bits shifted out. *)
Definition batch_id (self : BatchIdGenerator) : i64 :=
  Z.lor (Z.lor (wrap_i64 (Z.shiftl (wrap_i64 (last_millis self)) BATCH_ID_SUFFIX_BITS))
               (Z.shiftl (process_entropy self) BATCH_ID_COUNTER_BITS))
    (counter self).

Definition next_id (self : BatchIdGenerator) (now_millis : u64) : BatchIdGenerator * i64 :=
  let self := advance_clock self now_millis in
  (mkBatchIdGenerator (last_millis self) (u16_saturating_succ (counter self)) (process_entropy self),
   batch_id self).

(** [next_ids(count)], with one clock reading per identifier. *)
Fixpoint next_ids (self : BatchIdGenerator) (clock : list u64) : BatchIdGenerator * list i64 :=
  match clock with
  | [] => (self, [])
  | now :: clock =>
      let '(self, id) := next_id self now in
      let '(self, ids) := next_ids self clock in
      (self, id :: ids)
  end.

(** ** Identifiers are increasing *)

Definition generator_ok (self : BatchIdGenerator) : Prop :=
  0 <= last_millis self /\ 0 <= counter self <= BATCH_ID_COUNTER_MASK /\ 0 <= process_entropy self < 2 ^ 16.

(** Every identifier the generator hands out next is at least this. *)
Definition next_floor (self : BatchIdGenerator) : Z :=
  (last_millis self * 2 ^ 16 + process_entropy self) * 2 ^ 6 + counter self.

Lemma lor_disjoint a b n : 0 <= n -> 0 <= b < 2 ^ n -> Z.lor (a * 2 ^ n) b = a * 2 ^ n + b.
Proof.
  intros Hn Hb. rewrite <- Z.add_lor_land. enough (Z.land (a * 2 ^ n) b = 0) as -> by lia.
  apply Z.bits_inj'. intros k Hk. rewrite Z.land_spec, Z.bits_0.
  destruct (decide (k < n)).
  - by rewrite Z.mul_pow2_bits_low.
  - destruct (decide (b = 0)) as [->|]; [by rewrite Z.bits_0, andb_false_r|].
    rewrite (Z.bits_above_log2 b k), andb_false_r; [done|lia|].
    apply Z.lt_le_trans with n; [|lia]. apply Z.log2_lt_pow2; lia.
Qed.

(** The identifiers wrap around every 2^42 milliseconds: the clock readings of
    window [k] are those from [2^42 * k - 2^41] to [2^42 * k + 2^41]. The second
    half of window [0] is the time from 1970 to September 2039, the first half
    of window [1] the time from then to 2109. *)
Definition window_start (k : Z) : Z := 2 ^ 42 * k - 2 ^ 41.
Definition window_end (k : Z) : Z := 2 ^ 42 * k + 2 ^ 41.

Lemma wrap_i64_period z m : - 2 ^ 63 <= z - m * 2 ^ 64 < 2 ^ 63 -> wrap_i64 z = z - m * 2 ^ 64.
Proof.
  intros Hz. unfold wrap_i64.
  replace (z + 2 ^ 63) with (z - m * 2 ^ 64 + 2 ^ 63 + m * 2 ^ 64) by lia.
  rewrite Z_mod_plus_full, Z.mod_small; lia.
Qed.

Lemma batch_id_value k self :
  generator_ok self -> window_start k <= last_millis self < window_end k -> last_millis self < 2 ^ 63 ->
  batch_id self = next_floor self - k * 2 ^ 64.
Proof.
  intros (Hl & Hc & He) Hk Hmax. unfold batch_id, next_floor, window_start, window_end in *.
  change BATCH_ID_COUNTER_MASK with 63 in Hc.
  rewrite !Z.shiftl_mul_pow2 by done. unfold BATCH_ID_SUFFIX_BITS, BATCH_ID_COUNTER_BITS, BATCH_ID_PROCESS_ENTROPY_BITS.
  rewrite (wrap_i64_period (last_millis self) 0), (wrap_i64_period _ k) by lia.
  replace ((last_millis self - 0 * 2 ^ 64) * 2 ^ (6 + 16) - k * 2 ^ 64)
    with ((last_millis self - 2 ^ 42 * k) * 2 ^ (6 + 16)) by lia.
  rewrite (lor_disjoint _ (process_entropy self * 2 ^ 6) (6 + 16)) by lia.
  replace ((last_millis self - 2 ^ 42 * k) * 2 ^ (6 + 16) + process_entropy self * 2 ^ 6)
    with (((last_millis self - 2 ^ 42 * k) * 2 ^ 16 + process_entropy self) * 2 ^ 6) by lia.
  rewrite lor_disjoint; lia.
Qed.

Lemma advance_clock_ok self now :
  generator_ok self -> 0 <= now ->
  let self' := advance_clock self now in
  generator_ok self' /\ counter self' < BATCH_ID_COUNTER_MASK /\
  process_entropy self' = process_entropy self /\
  (last_millis self' < usize_max -> next_floor self <= next_floor self' /\ last_millis self <= last_millis self').
Proof.
  intros (Hl & Hc & He) Hnow. unfold advance_clock. change BATCH_ID_COUNTER_MASK with 63 in *.
  rewrite Z.gtb_ltb, Z.geb_leb. destruct (last_millis self <? now) eqn:E1; [|destruct (63 <=? counter self) eqn:E2];
    zbool; unfold generator_ok, next_floor, u64_saturating_succ, usize_max; simpl;
    change BATCH_ID_COUNTER_MASK with 63; split_and!; try done; try lia; intros; split; lia.
Qed.

Lemma advance_clock_reaches self now :
  generator_ok self -> last_millis (advance_clock self now) < usize_max ->
  now <= last_millis (advance_clock self now).
Proof.
  intros (Hl & Hc & He). unfold advance_clock.
  rewrite Z.gtb_ltb, Z.geb_leb. destruct (last_millis self <? now) eqn:E1; [|destruct (_ <=? counter self) eqn:E2];
    zbool; unfold u64_saturating_succ, usize_max; simpl; lia.
Qed.

Lemma next_id_value k self now self' id :
  generator_ok self -> 0 <= now -> window_start k <= now -> next_id self now = (self', id) ->
  last_millis self' < window_end k -> last_millis self' < 2 ^ 63 ->
  next_floor self <= id + k * 2 ^ 64 < next_floor self' /\ - 2 ^ 63 <= id < 2 ^ 63 /\
  last_millis self <= last_millis self'.
Proof.
  intros Hok Hnow Hk Heq Hend Hmax. unfold next_id in Heq. simplify_eq/=. simpl in Hend, Hmax.
  destruct (advance_clock_ok self now Hok Hnow) as ((Hl & Hc & He) & Hlt & Hent & Hmono).
  assert (2 ^ 63 < usize_max) by done.
  assert (now <= last_millis (advance_clock self now)) as Hnow'.
  { apply advance_clock_reaches; [done|lia]. }
  rewrite (batch_id_value k); [|unfold generator_ok; tauto|lia|done].
  change BATCH_ID_COUNTER_MASK with 63 in *.
  unfold next_floor, u16_saturating_succ, window_start, window_end in *. simpl. lia.
Qed.

Lemma next_id_generator_ok self now self' id :
  generator_ok self -> 0 <= now -> next_id self now = (self', id) -> generator_ok self'.
Proof.
  intros Hok Hnow E1. unfold next_id in E1. simplify_eq/=.
  destruct (advance_clock_ok self now Hok Hnow) as ((? & ? & ?) & ? & _).
  change BATCH_ID_COUNTER_MASK with 63 in *. unfold generator_ok, u16_saturating_succ. simpl.
  change BATCH_ID_COUNTER_MASK with 63. lia.
Qed.

(** The identifiers of a run of the clock through one window, up to the
    multiple of 2^64 the window has wrapped by. *)
Lemma next_ids_window k clock self self' ids :
  generator_ok self -> Forall (fun now => 0 <= now /\ window_start k <= now) clock ->
  next_ids self clock = (self', ids) -> last_millis self' < window_end k -> last_millis self' < 2 ^ 63 ->
  generator_ok self' /\ StronglySorted Z.lt ids /\ length ids = length clock /\
  Forall (fun id => next_floor self <= id + k * 2 ^ 64 < next_floor self' /\ - 2 ^ 63 <= id < 2 ^ 63) ids /\
  next_floor self <= next_floor self' /\ last_millis self <= last_millis self'.
Proof.
  revert self self' ids.
  induction clock as [|now clock IH]; intros self self' ids Hok Hclock Heq Hend Hmax; cbn [next_ids] in Heq.
  { simplify_eq. split_and!; try done; try lia; constructor. }
  apply Forall_cons in Hclock as [[Hnow Hk] Hclock].
  destruct (next_id self now) as [self1 id] eqn:E1. destruct (next_ids self1 clock) as [self2 ids'] eqn:E2.
  simplify_eq.
  pose proof (next_id_generator_ok _ _ _ _ Hok Hnow E1) as Hok1.
  destruct (IH _ _ _ Hok1 Hclock E2 Hend Hmax) as (Hok2 & Hs & Hlen & Hf & Hfl & Hml).
  destruct (next_id_value k self now self1 id Hok Hnow Hk E1) as (Hid & Hrange & Hm); [lia|lia|].
  split_and!; [done| |simpl; lia| |lia|lia].
  - constructor; [done|]. eapply Forall_impl; [exact Hf|]. simpl. lia.
  - constructor; [lia|]. eapply Forall_impl; [exact Hf|]. simpl. lia.
Qed.

Lemma next_ids_ok clock self self' ids :
  generator_ok self -> Forall (fun now => 0 <= now) clock -> next_ids self clock = (self', ids) ->
  last_millis self' < 2 ^ 41 ->
  generator_ok self' /\ StronglySorted Z.lt ids /\ length ids = length clock /\
  Forall (fun id => next_floor self <= id < next_floor self') ids /\
  next_floor self <= next_floor self' /\ last_millis self <= last_millis self'.
Proof.
  intros Hok Hclock Heq Hmax.
  destruct (next_ids_window 0 clock self self' ids) as (? & ? & ? & Hf & ? & ?); [done| |done|done|lia|].
  { eapply Forall_impl; [exact Hclock|]. intros now. unfold window_start. simpl. lia. }
  split_and!; try done. eapply Forall_impl; [exact Hf|]. simpl. lia.
Qed.

Lemma next_ids_generator_ok clock self self' ids :
  generator_ok self -> Forall (fun now => 0 <= now) clock -> next_ids self clock = (self', ids) ->
  generator_ok self'.
Proof.
  revert self self' ids. induction clock as [|now clock IH]; intros self self' ids Hok Hclock Heq; cbn [next_ids] in Heq.
  { by simplify_eq. }
  apply Forall_cons in Hclock as [Hnow Hclock].
  destruct (next_id self now) as [self1 id] eqn:E1. destruct (next_ids self1 clock) as [self2 ids'] eqn:E2.
  simplify_eq. eapply IH; [|done|exact E2]. by eapply next_id_generator_ok.
Qed.

(** while the clock is before 2^41 milliseconds (September 2039), the
    identifiers of consecutive calls are strictly increasing, hence distinct,
    whatever the clock reads, even when it stands still or goes back. *)
Theorem batch_ids_increasing self self1 self2 clock1 clock2 ids1 ids2
    (Hok : generator_ok self)
    (Hclock : Forall (fun now => 0 <= now) (clock1 ++ clock2))
    (H1 : next_ids self clock1 = (self1, ids1)) (H2 : next_ids self1 clock2 = (self2, ids2))
    (Hmax : last_millis self2 < 2 ^ 41) :
  StronglySorted Z.lt (ids1 ++ ids2) /\
  length ids1 = length clock1 /\ length ids2 = length clock2 /\
  Forall (fun id => 0 <= id) (ids1 ++ ids2).
Proof.
  apply Forall_app in Hclock as [Hc1 Hc2].
  assert (generator_ok self1) as Hok1 by exact (next_ids_generator_ok clock1 self self1 ids1 Hok Hc1 H1).
  destruct (next_ids_ok clock2 self1 self2 ids2) as (_ & Hs2 & Hl2 & Hf2 & _ & Hm2); [done..|].
  destruct (next_ids_ok clock1 self self1 ids1) as (_ & Hs1 & Hl1 & Hf1 & _ & _); [done|done|done|lia|].
  destruct Hok as (? & ? & ?). split_and!; [|done|done|].
  - apply StronglySorted_app_2; [|done|done]. intros x y Hx Hy.
    rewrite Forall_forall in Hf1, Hf2. specialize (Hf1 x Hx). specialize (Hf2 y Hy). lia.
  - assert (0 <= next_floor self) by (unfold next_floor; lia). apply Forall_app.
    split; [eapply Forall_impl; [exact Hf1|]|eapply Forall_impl; [exact Hf2|]]; simpl; [lia|].
    destruct Hok1 as (? & ? & ?). unfold next_floor in *. lia.
Qed.

Lemma batch_ids_increasing_witness :
  let self := generator_new 7 in
  StronglySorted Z.lt ((next_ids self [5; 5; 4]).2 ++ (next_ids (next_ids self [5; 5; 4]).1 [1]).2) /\
  length (next_ids self [5; 5; 4]).2 = 3%nat /\ length (next_ids (next_ids self [5; 5; 4]).1 [1]).2 = 1%nat /\
  Forall (fun id => 0 <= id) ((next_ids self [5; 5; 4]).2 ++ (next_ids (next_ids self [5; 5; 4]).1 [1]).2).
Proof.
  apply (batch_ids_increasing (generator_new 7) (next_ids (generator_new 7) [5; 5; 4]).1
           (next_ids (next_ids (generator_new 7) [5; 5; 4]).1 [1]).1 [5; 5; 4] [1]);
    [by vm_compute|repeat constructor; by vm_compute|by vm_compute..].
Defined.

(** C40: in 2039 the identifiers wrap around. Those handed out while the
    generator's millisecond is below 2^41 are nonnegative; those handed out for
    clock readings from 2^41 on, while it is below 2^42, are negative, so each
    of them precedes every earlier identifier, although both runs are strictly
    increasing. *)
Theorem batch_ids_overflow self self1 self2 clock1 clock2 ids1 ids2
    (Hok : generator_ok self)
    (Hbefore : Forall (fun now => 0 <= now) clock1) (Hafter : Forall (fun now => 2 ^ 41 <= now) clock2)
    (H1 : next_ids self clock1 = (self1, ids1)) (H2 : next_ids self1 clock2 = (self2, ids2))
    (Hmax1 : last_millis self1 < 2 ^ 41) (Hmax2 : last_millis self2 < 2 ^ 42) :
  (StronglySorted Z.lt ids1 /\ length ids1 = length clock1 /\ Forall (fun id => 0 <= id < 2 ^ 63) ids1) /\
  (StronglySorted Z.lt ids2 /\ length ids2 = length clock2 /\ Forall (fun id => - 2 ^ 63 <= id < 0) ids2) /\
  forall earlier later, earlier ∈ ids1 -> later ∈ ids2 -> later < earlier.
Proof.
  destruct (next_ids_window 0 clock1 self self1 ids1) as (Hok1 & Hs1 & Hl1 & Hf1 & _ & _);
    [done| |done|by unfold window_end; lia|lia|].
  { eapply Forall_impl; [exact Hbefore|]. intros now. unfold window_start. simpl. lia. }
  assert (Forall (fun id => 0 <= id < 2 ^ 63) ids1) as Hpos.
  { destruct Hok as (? & ? & ?). eapply Forall_impl; [exact Hf1|]. unfold next_floor. simpl. lia. }
  destruct (next_ids_window 1 clock2 self1 self2 ids2) as (Hok2 & Hs2 & Hl2 & Hf2 & _ & Hm2); [done| |done|by unfold window_end; lia|lia|].
  { eapply Forall_impl; [exact Hafter|]. intros now. unfold window_start. simpl. lia. }
  assert (Forall (fun id => - 2 ^ 63 <= id < 0) ids2) as Hneg.
  { destruct Hok2 as (? & Hc & ?). change BATCH_ID_COUNTER_MASK with 63 in Hc.
    eapply Forall_impl; [exact Hf2|]. unfold next_floor. simpl. lia. }
  split_and!; try done. rewrite Forall_forall in Hpos, Hneg.
  intros x y Hx Hy. specialize (Hpos x Hx). specialize (Hneg y Hy). lia.
Qed.

Lemma batch_ids_overflow_witness :
  exists self1 self2 ids1 ids2,
    next_ids (generator_new 7) [2 ^ 41 - 1; 5] = (self1, ids1) /\
    next_ids self1 [2 ^ 41; 2 ^ 41 + 3; 2 ^ 41] = (self2, ids2) /\
    ((StronglySorted Z.lt ids1 /\ length ids1 = 2%nat /\ Forall (fun id => 0 <= id < 2 ^ 63) ids1) /\
     (StronglySorted Z.lt ids2 /\ length ids2 = 3%nat /\ Forall (fun id => - 2 ^ 63 <= id < 0) ids2) /\
     forall earlier later, earlier ∈ ids1 -> later ∈ ids2 -> later < earlier).
Proof.
  do 4 eexists. split; [vm_compute; reflexivity|]. split; [vm_compute; reflexivity|].
  eapply (batch_ids_overflow (generator_new 7) _ _ [2 ^ 41 - 1; 5] [2 ^ 41; 2 ^ 41 + 3; 2 ^ 41]);
    [by vm_compute|repeat constructor; by vm_compute|repeat constructor; by vm_compute
    |vm_compute; reflexivity|vm_compute; reflexivity|by vm_compute|by vm_compute].
Defined.
