(* ===== verification/ParameterGrid.v ===== *)
(** src/runners/parameter_grid.rs: the points of a Cartesian parameter grid by
    index. The values are TOML values: a parameter type. *)
From S2P Require Import Prelude Errors.

Section grid.
Context {V : Type}.

Record ParameterGridItem := mkParameterGridItem { item_name : string; item_values : list V }.

Definition cartesian_grid_len (items : list ParameterGridItem) : result StoreError usize :=
  try_fold (fun size item =>
    ok_or (Internal "parameter grid size overflow") (usize_checked_mul size (zlen (item_values item))))
    1 items.

(** The loop over [items.iter().rev()]; [values[value_index]] is in range. *)
Fixpoint grid_loop (reversed : list ParameterGridItem) (index : usize) (selected : gmap string V)
    : result StoreError (usize * gmap string V) :=
  match reversed with
  | [] => Ok (index, selected)
  | item :: reversed =>
      let n := zlen (item_values item) in
      if n =? 0 then Err (Internal "parameter grid item has no values")
      else
        let? value := ok_or (Internal "index out of bounds") (zget (item_values item) (index mod n)) in
        grid_loop reversed (index / n) (<[item_name item := value]> selected)
  end.

Definition cartesian_grid_point (items : list ParameterGridItem) (index : usize)
    : result StoreError (gmap string V) :=
  let? r := grid_loop (rev items) index ∅ in
  if negb (r.1 =? 0) then Err (Internal "parameter grid index exceeds grid size")
  else Ok r.2.

(** ** Reference: the product in lexicographic order, last item fastest *)

Fixpoint grid_product (items : list ParameterGridItem) : list (gmap string V) :=
  match items with
  | [] => [∅]
  | item :: items =>
      concat (map (fun v => map (<[item_name item := v]>) (grid_product items)) (item_values item))
  end.

Lemma grid_loop_app l1 l2 index selected :
  grid_loop (l1 ++ l2) index selected =
  (let? r := grid_loop l1 index selected in grid_loop l2 r.1 r.2).
Proof.
  revert index selected. induction l1 as [|item l1 IH]; intros index selected; simpl; [done|].
  destruct (_ =? 0); [done|]. destruct (zget _ _); simpl; [apply IH|done].
Qed.

Lemma grid_product_length item items :
  zlen (grid_product (item :: items)) = zlen (item_values item) * zlen (grid_product items).
Proof.
  simpl. rewrite zlen_concat. induction (item_values item) as [|v vs IH]; [done|].
  cbn [map]. rewrite zsum_cons, IH, zlen_cons, zlen_lmap. lia.
Qed.

(** Entry [i] of a concatenation of blocks of one length. *)
Lemma lookup_blocks {A B} (f : A -> list B) m vs i :
  0 < m -> (forall v, zlen (f v) = m) -> 0 <= i < zlen vs * m ->
  exists v, zget vs (i / m) = Some v /\ zget (concat (map f vs)) i = zget (f v) (i mod m).
Proof.
  intros Hm Hf. revert i. induction vs as [|v vs IH]; intros i Hi; [unfold zlen in Hi; simpl in Hi; lia|].
  rewrite zlen_cons in Hi. simpl. unfold zget at 2. rewrite (proj2 (Z.leb_le 0 i)) by lia.
  destruct (decide (i < m)).
  - exists v. rewrite Z.div_small, Z.mod_small by lia. split; [done|].
    unfold zget. rewrite (proj2 (Z.leb_le 0 i)) by lia. apply lookup_app_l.
    specialize (Hf v). unfold zlen in Hf. lia.
  - destruct (IH (i - m)) as (w & Hw & Hl); [lia|]. exists w.
    replace (i / m) with ((i - m) / m + 1) by (rewrite <- Z.div_add by lia; f_equal; lia).
    replace (i mod m) with ((i - m) mod m)
      by (rewrite <- (Z.mod_add (i - m) 1 m) by lia; f_equal; lia).
    pose proof (Z.div_pos (i - m) m ltac:(lia) Hm).
    split.
    + unfold zget in Hw |- *. rewrite (proj2 (Z.leb_le _ _)) in Hw by lia.
      rewrite (proj2 (Z.leb_le _ _)) by lia. by rewrite Z2Nat.inj_add, Nat.add_1_r by lia.
    + rewrite <- Hl. unfold zget. rewrite (proj2 (Z.leb_le 0 (i - m))) by lia.
      rewrite lookup_app_r by (specialize (Hf v); unfold zlen in Hf; lia).
      f_equal. specialize (Hf v). unfold zlen in Hf. lia.
Qed.

Lemma grid_loop_product items index :
  0 <= index -> Forall (fun item => item_values item <> []) items ->
  exists m, grid_loop (rev items) index ∅ = Ok (index / zlen (grid_product items), m) /\
    zget (grid_product items) (index mod zlen (grid_product items)) = Some m /\
    0 < zlen (grid_product items).
Proof.
  intros Hi Hne. induction Hne as [|item items Hv _ IH].
  { exists ∅. change (zlen (grid_product [])) with 1. simpl. by rewrite Z.div_1_r, Z.mod_1_r. }
  destruct IH as (m & Hloop & Hm & Hpos). rewrite grid_product_length. simpl rev.
  rewrite grid_loop_app, Hloop. cbn [result_bind fst snd grid_loop].
  set (p := zlen (grid_product items)) in *. set (n := zlen (item_values item)).
  assert (0 < n) as Hn.
  { subst n. destruct (item_values item); [done|]. rewrite zlen_cons. pose proof (zlen_nonneg l). lia. }
  rewrite (proj2 (Z.eqb_neq n 0)) by lia.
  assert (0 <= index mod (n * p) < n * p) as Hr by (apply Z.mod_pos_bound; nia).
  destruct (lookup_blocks (fun v => map (<[item_name item := v]>) (grid_product items)) p
              (item_values item) (index mod (n * p))) as (v & Hv' & Hl); [done|intros; by rewrite zlen_lmap|done|].
  rewrite (Z.mul_comm n p), Z.rem_mul_r in Hv' by lia.
  rewrite (Z.mul_comm p (_ mod n)), Z.div_add, (Z.div_small (index mod p)), Z.add_0_l in Hv'
    by (apply Z.mod_pos_bound || lia; lia).
  rewrite Hv'. cbn [ok_or result_bind grid_loop].
  exists (<[item_name item := v]> m). split; [|split; [|nia]].
  - by rewrite Z.div_div, (Z.mul_comm p n) by lia.
  - cbn [grid_product]. rewrite Hl. rewrite (Z.mul_comm n p), Z.rem_mul_r, (Z.mul_comm p (_ mod n)), Z.mod_add, Z.mod_mod by lia.
    unfold zget in Hm |- *. rewrite (proj2 (Z.leb_le _ _)) in Hm by (apply Z.mod_pos_bound; lia).
    rewrite (proj2 (Z.leb_le _ _)) by (apply Z.mod_pos_bound; lia).
    change (map ?f ?l) with (f <$> l). by rewrite list_lookup_fmap, Hm.
Qed.

Lemma grid_len_product items size n :
  try_fold (fun size item =>
    ok_or (Internal "parameter grid size overflow") (usize_checked_mul size (zlen (item_values item))))
    size items = Ok n -> n = size * zlen (grid_product items).
Proof.
  revert size. induction items as [|item items IH]; intros size H.
  - simpl in H. simplify_eq. change (zlen (grid_product [])) with 1. lia.
  - rewrite grid_product_length. cbn [try_fold] in H. apply result_bind_ok in H as (s & Hs & H).
    unfold usize_checked_mul in Hs. case_match_eqn. simplify_eq/=.
    apply IH in H. lia.
Qed.

Lemma grid_loop_empty items index selected :
  Exists (fun item => item_values item = []) items -> exists e, grid_loop items index selected = Err e.
Proof.
  intros H. revert index selected. induction H as [item items H|item items H IH]; intros index selected; simpl.
  - rewrite H. simpl. eauto.
  - destruct (_ =? 0); [eauto|]. destruct (zget _ _); simpl; eauto.
Qed.

(** the grid has as many points as [cartesian_grid_len] says, and
    [cartesian_grid_point] enumerates the Cartesian product in lexicographic
    order with the last parameter fastest: every combination at exactly one
    index, and an error at every other index. *)
Theorem cartesian_grid_enumerates items n (Hlen : cartesian_grid_len items = Ok n) :
  n = zlen (grid_product items) /\
  (forall i, 0 <= i < n -> exists m, cartesian_grid_point items i = Ok m /\ zget (grid_product items) i = Some m) /\
  (forall i, n <= i -> is_ok (cartesian_grid_point items i) = false).
Proof.
  apply grid_len_product in Hlen. rewrite Z.mul_1_l in Hlen. subst n. split; [done|].
  destruct (decide (Forall (fun item => item_values item <> []) items)) as [Hne|Hex].
  - split; intros i Hi.
    + destruct (grid_loop_product items i) as (m & Hloop & Hm & Hpos); [lia|done|].
      exists m. unfold cartesian_grid_point. rewrite Hloop. simpl.
      rewrite Z.div_small by lia. rewrite Z.mod_small in Hm by lia. done.
    + destruct (grid_loop_product items i) as (m & Hloop & Hm & Hpos);
        [pose proof (zlen_nonneg (grid_product items)); lia|done|].
      unfold cartesian_grid_point. rewrite Hloop. simpl.
      assert (1 <= i / zlen (grid_product items)) by (apply Z.div_le_lower_bound; lia).
      by rewrite (proj2 (Z.eqb_neq _ 0)) by lia.
  - apply not_Forall_Exists in Hex; [|intros ?; apply _].
    assert (Exists (fun item => item_values item = []) items) as Hemp.
    { eapply Exists_impl; [exact Hex|]. simpl. intros item. destruct (item_values item); [done|]. intros H. by destruct H. }
    assert (forall i, is_ok (cartesian_grid_point items i) = false) as Herr.
    { intros i. unfold cartesian_grid_point.
      destruct (grid_loop_empty (rev items) i ∅) as [e ->]; [|done].
      apply Exists_exists in Hemp as (item & Hin & He). apply Exists_exists. exists item. split; [|done].
      apply list_elem_of_In. rewrite <- in_rev. by apply list_elem_of_In. }
    assert (zlen (grid_product items) = 0) as Hz.
    { clear -Hemp. induction Hemp as [item items He|item items _ IH]; rewrite grid_product_length.
      - by rewrite He.
      - by rewrite IH, Z.mul_0_r. }
    rewrite Hz. split; intros i Hi; [lia|done].
Qed.
End grid.
Arguments ParameterGridItem : clear implicits.

Lemma cartesian_grid_enumerates_witness :
  let items := [mkParameterGridItem "a" [1; 2]; mkParameterGridItem "b" [3; 4; 5]] in
  6 = zlen (grid_product items) /\
  (forall i, 0 <= i < 6 -> exists m, cartesian_grid_point items i = Ok m /\ zget (grid_product items) i = Some m) /\
  (forall i, 6 <= i -> is_ok (cartesian_grid_point items i) = false).
Proof. by apply cartesian_grid_enumerates. Defined.
