(* ===== verification/Metrics.v ===== *)
(** src/runners/window_metric.rs, src/runners/rolling_metric.rs and
    src/runners/wall_time_rate.rs: the timing statistics of the runners.
    Durations and instants are numbers of nanoseconds. *)
From S2P Require Import Prelude Floats.

Definition nanos_per_sec : Z := 10 ^ 9.

(** [Duration::as_secs_f64] *)
Definition as_secs_f64 (d : Z) : f64 :=
  (f64_of_Z (d / nanos_per_sec) + f64_of_Z (d mod nanos_per_sec) / f64_of_Z nanos_per_sec)%float.

(** ** [WindowMetric] *)

Record WindowMetric := mkWindowMetric {
  wm_count : u64;
  wm_sum : f64;
  wm_mean : f64;
  wm_m2 : f64;
  wm_max : option f64
}.

Record RollingMetricSnapshot := mkRollingMetricSnapshot {
  snap_count : u64;
  snap_mean : option f64;
  snap_total : option f64;
  snap_max : option f64;
  snap_std_dev : f64
}.
Definition snapshot_default : RollingMetricSnapshot := mkRollingMetricSnapshot 0 None None None 0.

Definition window_default : WindowMetric := mkWindowMetric 0 0 0 0 None.

(** Observations that are ignored. *)
Definition observation_ignored (observation : f64) (weight : usize) : bool :=
  negb (PrimFloat.is_finite observation) || PrimFloat.ltb observation 0%float || (weight =? 0).

Definition observe_weighted (observation : f64) (weight : usize) (self : WindowMetric) : WindowMetric :=
  if observation_ignored observation weight then self
  else
    let w := f64_of_Z weight in
    let count := wm_count self + weight in
    let sum := (wm_sum self + observation * w)%float in
    let delta := (observation - wm_mean self)%float in
    let mean := (wm_mean self + delta * w / f64_of_Z count)%float in
    let delta2 := (observation - mean)%float in
    let m2 := (wm_m2 self + delta * delta2 * w)%float in
    mkWindowMetric count sum mean m2
      (Some (match wm_max self with None => observation | Some current => f64_max current observation end)).

Definition window_observe (observation : f64) (self : WindowMetric) : WindowMetric :=
  observe_weighted observation 1 self.
Definition observe_duration (duration : Z) (self : WindowMetric) : WindowMetric :=
  window_observe (as_secs_f64 duration * 1000)%float self.

Definition window_snapshot (self : WindowMetric) : RollingMetricSnapshot :=
  if wm_count self =? 0 then snapshot_default
  else
    let variance := if 1 <? wm_count self then (wm_m2 self / f64_of_Z (wm_count self))%float else 0%float in
    mkRollingMetricSnapshot (wm_count self) (Some (wm_mean self)) (Some (wm_sum self)) (wm_max self)
      (PrimFloat.sqrt (f64_max variance 0%float)).

Definition snapshot_and_reset (self : WindowMetric) : WindowMetric * RollingMetricSnapshot :=
  (window_default, window_snapshot self).

(** ** [RollingMetric] *)

Record RollingMetric := mkRollingMetric { rm_mean : option f64; rm_variance : f64 }.
Definition rolling_default : RollingMetric := mkRollingMetric None 0.

Section rolling.
Context `{Libm}.

Definition observe_batch (total_ms : f64) (samples : usize) (self : RollingMetric) : RollingMetric :=
  if samples =? 0 then self
  else
    let observation := (total_ms / f64_of_Z samples)%float in
    if negb (PrimFloat.is_finite observation) || PrimFloat.ltb observation 0%float then self
    else
      let alpha :=
        f64_clamp 0%float 1%float (1 - powf 0.8 (f64_of_Z samples / 1000))%float in
      match rm_mean self with
      | Some current_mean =>
          let delta := (observation - current_mean)%float in
          let next_mean := (current_mean + alpha * delta)%float in
          let next_variance := ((1 - alpha) * (rm_variance self + alpha * delta * delta))%float in
          mkRollingMetric (Some next_mean) (f64_max next_variance 0%float)
      | None => mkRollingMetric (Some observation) 0
      end.

Definition rolling_value (self : RollingMetric) : option f64 := rm_mean self.
Definition rolling_std_dev (self : RollingMetric) : f64 :=
  PrimFloat.sqrt (f64_max (rm_variance self) 0%float).
End rolling.

(** ** [WallTimeRate] *)

Record WallTimeRate := mkWallTimeRate {
  last_observed_at : Z;
  intervals : list (Z * f64);
  elapsed : Z
}.

Definition WINDOW : Z := 60 * nanos_per_sec.

Definition rate_new (now : Z) : WallTimeRate := mkWallTimeRate now [] 0.

(** The [while] loop: every iteration but the last drops an interval, so the
    intervals themselves are the fuel; [None] is the failing [expect]. *)
Fixpoint expire (ivs : list (Z * f64)) (elapsed : Z) : option (list (Z * f64) * Z) :=
  if WINDOW <? elapsed then
    match ivs with
    | [] => None
    | (seconds, value) :: ivs =>
        let excess := elapsed - WINDOW in
        if seconds <=? excess then expire ivs (elapsed - seconds)
        else
          let retained_seconds := seconds - excess in
          let retained_value := (value * as_secs_f64 retained_seconds / as_secs_f64 seconds)%float in
          Some ((retained_seconds, retained_value) :: ivs, WINDOW)
    end
  else Some (ivs, elapsed).

Definition rate (self : WallTimeRate) : f64 :=
  if negb (elapsed self =? 0) then (f64_sum (map snd (intervals self)) / as_secs_f64 (elapsed self))%float
  else 0%float.

(** [now.duration_since(earlier)] is zero when [now] is earlier. *)
Definition rate_observe (now : Z) (value : f64) (self : WallTimeRate) : option (WallTimeRate * f64) :=
  let dt := Z.max 0 (now - last_observed_at self) in
  let value := if PrimFloat.is_finite value then f64_max value 0%float else 0%float in
  r ← expire (intervals self ++ [(dt, value)]) (elapsed self + dt);
  let self := mkWallTimeRate now r.1 r.2 in
  Some (self, rate self).

(** ** Lemmas *)

Definition rate_ok (self : WallTimeRate) : Prop :=
  elapsed self = zsum (map fst (intervals self)) /\ Forall (fun iv => 0 <= iv.1) (intervals self) /\
  elapsed self <= WINDOW.

Lemma expire_ok ivs e :
  e = zsum (map fst ivs) -> Forall (fun iv : Z * f64 => 0 <= iv.1) ivs ->
  exists ivs' , expire ivs e = Some (ivs', Z.min WINDOW e) /\
    zsum (map fst ivs') = Z.min WINDOW e /\ Forall (fun iv => 0 <= iv.1) ivs' /\ (length ivs' <= length ivs)%nat.
Proof.
  intros He H. revert e He. induction H as [|[s v] ivs Hs H IH]; intros e He; simpl in *.
  - subst e. exists []. done.
  - destruct (WINDOW <? e) eqn:Ew; zbool.
    + destruct (s <=? e - WINDOW) eqn:Es; zbool.
      * destruct (IH (e - s)) as (ivs' & -> & Hsum & Hf & Hlen); [lia|].
        exists ivs'. rewrite !Z.min_l in * by lia. split_and!; [done|done|done|lia].
      * eexists. rewrite Z.min_l by lia. split; [done|]. simpl. split_and!; [lia| |lia].
        constructor; [simpl; lia|done].
    + exists ((s, v) :: ivs). rewrite Z.min_r by lia. simpl. split_and!; [done|lia| |lia]. by constructor.
Qed.

(** the rate window always covers the last minute of wall time, or all of
    it when less has passed: an observation never fails, its loop drops
    expired intervals and terminates, and what remains has durations that add
    up to the smaller of the window and the time covered before plus the time
    since. *)
Theorem wall_time_rate_window self now value (Hok : rate_ok self) :
  exists self' r, rate_observe now value self = Some (self', r) /\ rate_ok self' /\
    elapsed self' = Z.min WINDOW (elapsed self + Z.max 0 (now - last_observed_at self)) /\
    (length (intervals self') <= S (length (intervals self)))%nat /\ last_observed_at self' = now.
Proof.
  destruct Hok as (He & Hf & Hw). unfold rate_observe.
  edestruct (expire_ok (intervals self ++ [(Z.max 0 (now - last_observed_at self),
    if PrimFloat.is_finite value then f64_max value 0%float else 0%float)])
    (elapsed self + Z.max 0 (now - last_observed_at self))) as (ivs' & -> & Hsum & Hf' & Hlen).
  - rewrite map_app, zsum_app, He. simpl. lia.
  - apply Forall_app. split; [done|]. repeat constructor. simpl. lia.
  - simpl. eexists _, _. split; [reflexivity|]. simpl. unfold rate_ok. simpl.
    rewrite length_app in Hlen. simpl in Hlen. split_and!; try done; lia.
Qed.

Lemma wall_time_rate_window_witness :
  let self := mkWallTimeRate 50 [(50, 2%float)] 50 in
  exists self' r, rate_observe 90 1%float self = Some (self', r) /\ rate_ok self' /\
    elapsed self' = Z.min WINDOW (elapsed self + Z.max 0 (90 - last_observed_at self)) /\
    (length (intervals self') <= S (length (intervals self)))%nat /\ last_observed_at self' = 90.
Proof.
  apply (wall_time_rate_window (mkWallTimeRate 50 [(50, 2%float)] 50)).
  split; [done|]. split; [by repeat constructor|by vm_compute].
Defined.

(** The observations a window metric accepts. *)
Definition accepted (obs : list (f64 * Z)) : list (f64 * Z) :=
  filter (fun o => observation_ignored o.1 o.2 = false) obs.

Definition observe_all (obs : list (f64 * Z)) : WindowMetric :=
  fold_left (fun m o => observe_weighted o.1 o.2 m) obs window_default.

Lemma f64_max_cases a b :
  PrimFloat.is_finite a = true -> PrimFloat.is_finite b = true ->
  (f64_max a b = b /\ PrimFloat.ltb a b = true) \/ (f64_max a b = a /\ PrimFloat.ltb a b = false).
Proof.
  intros Ha Hb. unfold f64_max.
  assert (PrimFloat.is_nan a = false /\ PrimFloat.is_nan b = false) as [-> ->].
  { unfold PrimFloat.is_finite in *. destruct (PrimFloat.is_nan a), (PrimFloat.is_nan b); done. }
  destruct (PrimFloat.ltb a b); auto.
Qed.

Lemma accepted_finite o obs : o ∈ accepted obs -> PrimFloat.is_finite o.1 = true.
Proof.
  unfold accepted. intros [Ho _]%list_elem_of_filter. unfold observation_ignored in Ho. zbool.
  done.
Qed.

(** A window metric summarises exactly the observations it accepts (finite,
    nonnegative, of positive weight): its count is their total weight, it has
    a maximum as soon as there is one, and that maximum is one of them which
    none exceeds. *)
Theorem window_metric_summary obs :
  let m := observe_all obs in
  wm_count m = zsum (map snd (accepted obs)) /\
  (wm_max m = None <-> accepted obs = []) /\
  (forall x, wm_max m = Some x ->
    x ∈ map fst (accepted obs) /\ Forall (fun o => PrimFloat.ltb x o.1 = false) (accepted obs)).
Proof.
  cbv zeta. unfold observe_all. induction obs as [|[x w] obs IH] using rev_ind; [done|].
  rewrite fold_left_app. simpl. set (m := fold_left _ obs window_default) in *.
  unfold accepted in *. rewrite filter_app. unfold observe_weighted.
  destruct (observation_ignored x w) eqn:Ei.
  - rewrite (filter_cons_False _ (x, w)) by (simpl; congruence). rewrite filter_nil, app_nil_r. exact IH.
  - rewrite (filter_cons_True _ (x, w)) by done. rewrite filter_nil. simpl. destruct IH as (Hc & Hn & Hm).
    rewrite !map_app, zsum_app. simpl. split; [lia|]. split; [by destruct (filter _ obs)|].
    intros y Hy. injection Hy as <-.
    destruct (wm_max m) as [cur|].
    2:{ destruct Hn as [Hn _]. rewrite (Hn eq_refl). simpl. split; [set_solver|]. repeat constructor. apply ltb_irrefl. }
    destruct (Hm cur eq_refl) as [Hin Hall].
    assert (PrimFloat.is_finite cur = true) as Hfc.
    { apply list_elem_of_fmap in Hin as (o & -> & Ho). by eapply accepted_finite. }
    assert (PrimFloat.is_finite x = true) as Hfx.
    { unfold observation_ignored in Ei. zbool. done. }
    destruct (f64_max_cases cur x Hfc Hfx) as [[-> Hlt]|[-> Hge]].
    + split; [set_solver|]. apply Forall_app. split; [|repeat constructor; apply ltb_irrefl].
      eapply Forall_impl; [exact Hall|]. intros o Ho. simpl in Ho.
      destruct (PrimFloat.ltb x o.1) eqn:E; [|done]. pose proof (ltb_trans _ _ _ Hlt E). congruence.
    + split; [set_solver|]. apply Forall_app. split; [done|by repeat constructor].
Qed.
