(* ===== verification/WorkQueue.v ===== *)
(** src/stores/queries/work_queue.rs (with the queue methods of
    src/stores/pg_store.rs): the batch table as a state machine. A SQL statement
    or transaction is one atomic function on the tables; [now()] is the clock
    of the transaction. *)
From S2P Require Import Prelude Floats Errors.

(** ** Tables *)

Inductive BatchStatus := Pending | Claimed | Completed | Failed.
#[export] Instance BatchStatus_eq_dec : EqDecision BatchStatus.
Proof. solve_decision. Defined.

Inductive WorkerRole := Evaluator | SamplerAggregator.
#[export] Instance WorkerRole_eq_dec : EqDecision WorkerRole.
Proof. solve_decision. Defined.

Record BatchRow := mkBatchRow {
  run_id : i32;
  task_id : i64;
  requires_training_values : bool;
  batch_size : i32;
  status : BatchStatus;
  claimed_by_node_name : option string;
  claimed_by_node_uuid : option string;
  claim_token : option string;
  claimed_at : option Z;
  completed_at : option Z;
  created_at : Z;
  retry_count : option i32;
  last_error : option string
}.

Record Node := mkNode {
  node_uuid : string;
  lease_expires_at : Z;
  active_run_id : option i32;
  active_role : option WorkerRole
}.

(** [SamplerQueueCheckpoint] *)
Record SamplerQueueCheckpoint := mkQueueCheckpoint {
  last_completed_batch_id : option i64;
  last_produced_batch_id : option i64;
  batch_size_current : usize
}.

(** What the queries read of a saved checkpoint: its queue cursors, and
    whether the key [last_produced_batch_id] is present (older ones lack it). *)
Record CheckpointCursors := mkCheckpointCursors {
  ck_queue : SamplerQueueCheckpoint;
  ck_has_last_produced : bool
}.

Record ResultRow (V J : Type) := mkResultRow {
  r_values : option V;
  r_observable : J;
  r_total_eval_time_ms : option f64;
  r_completed_at : Z
}.
Arguments mkResultRow {V J}.
Arguments r_values {V J}.
Arguments r_observable {V J}.
Arguments r_total_eval_time_ms {V J}.
Arguments r_completed_at {V J}.

Record DB (B V J : Type) := mkDB {
  batches : gmap Z BatchRow;
  batch_inputs : gmap Z B;
  batch_results : gmap Z (ResultRow V J);
  nodes : gmap string Node;
  checkpoints : gmap Z CheckpointCursors;
  now : Z
}.
Arguments mkDB {B V J}.
Arguments batches {B V J}.
Arguments batch_inputs {B V J}.
Arguments batch_results {B V J}.
Arguments nodes {B V J}.
Arguments checkpoints {B V J}.
Arguments now {B V J}.

Record BatchQueueCounts := mkBatchQueueCounts {
  qc_pending : i64;
  qc_claimed : i64;
  qc_completed : i64;
  qc_failed : i64
}.
Definition counts_open (c : BatchQueueCounts) : i64 := qc_pending c + qc_claimed c + qc_completed c.

Inductive BatchFailOutcome :=
| Requeued (task_id : i64) (retry_count : i32)
| PermanentlyFailed (task_id : i64) (retry_count : i32).

Record QueueBlocker := mkQueueBlocker {
  qb_batch_id : i64;
  qb_status : BatchStatus;
  qb_node_name : option string;
  qb_claimed_at : option Z
}.

Definition with_claim (r : BatchRow) (s : BatchStatus) (name uuid token : option string) (at_ : option Z)
    (retries : option i32) (error : option string) : BatchRow :=
  mkBatchRow (run_id r) (task_id r) (requires_training_values r) (batch_size r) s name uuid token at_
    (completed_at r) (created_at r) retries error.

Definition db_error : StoreError := Database "sqlx error".
Definition protocol_error (msg : string) : StoreError := Database msg.

(** [completed_at] and [retry_count] of a new row take the table's defaults. *)
Definition new_row (run : i32) (task : i64) (training : bool) (size : i32) (at_ : Z) : BatchRow :=
  mkBatchRow run task training size Pending None None None None None at_ (Some 0) None.

(** [batch.samples.nr_samples as i32] *)
Definition as_i32 (z : Z) : i32 := (z + 2 ^ 31) mod 2 ^ 32 - 2 ^ 31.

(** [COALESCE(retry_count, 0)] *)
Definition retries (r : BatchRow) : i32 := default 0 (retry_count r).

Section queue.
Context {Eb B V J : Type}.
(** Serialisation of evaluator batches and results (bincode, JSON). *)
Variable encode_input : Eb -> result string B.
Variable decode_input : B -> result string Eb.
Variable nr_samples_of : Eb -> usize.

Notation db := (DB B V J).
Implicit Types d : db.

Definition set_batches (bs : gmap Z BatchRow) d : db :=
  mkDB bs (batch_inputs d) (batch_results d) (nodes d) (checkpoints d) (now d).

(** [UPDATE batches SET ... WHERE cond]: the new table and the number of
    rows affected. *)
Definition update_where (cond : Z -> BatchRow -> bool) (f : BatchRow -> BatchRow) d : db * Z :=
  (set_batches (map_imap (fun id r => Some (if cond id r then f r else r)) (batches d)) d,
   zlen (filter (fun '(id, r) => cond id r = true) (map_to_list (batches d)))).

(** [DELETE FROM batches]: inputs and results cascade. *)
Definition delete_ids (ids : list Z) d : db :=
  let drop {A} (m : gmap Z A) := foldr delete m ids in
  mkDB (drop (batches d)) (drop (batch_inputs d)) (drop (batch_results d)) (nodes d) (checkpoints d) (now d).

(** *** [insert_batches] *)

(** One row of the two tables; an existing key aborts the transaction. *)
Definition insert_row (run : i32) (task : i64) (training : bool) d (p : Z * Eb * B) : result StoreError db :=
  let '(id, b, bytes) := p in
  match batches d !! id with
  | Some _ => Err db_error
  | None =>
      Ok (mkDB (<[id := new_row run task training (as_i32 (nr_samples_of b)) (now d)]> (batches d))
            (<[id := bytes]> (batch_inputs d)) (batch_results d) (nodes d) (checkpoints d) (now d))
  end.

Definition insert_batches (run : i32) (task : i64) (training : bool) (ids : list i64) (bs : list Eb) d
    : db * result StoreError (list i64) :=
  match bs with
  | [] => (d, Ok [])
  | _ =>
      if negb (zlen ids =? zlen bs) then (d, Err (protocol_error "batch id count mismatch"))
      else
        match try_map encode_input bs with
        | Err e => (d, Err (protocol_error e))
        | Ok payload =>
            match try_fold (insert_row run task training) d (zip (zip ids bs) payload) with
            | Err e => (d, Err e)
            | Ok d' => (d', Ok ids)
            end
        end
  end.

(** *** [get_batch_queue_counts] of one task *)

Definition count_where (cond : Z -> BatchRow -> bool) d : i64 :=
  zlen (filter (fun '(id, r) => cond id r = true) (map_to_list (batches d))).

Definition has_status (s : BatchStatus) (r : BatchRow) : bool := bool_decide (status r = s).
Definition of_task (run : i32) (task : i64) (r : BatchRow) : bool := (run_id r =? run) && (task_id r =? task).

Definition get_batch_queue_counts (run : i32) (task : i64) (completed_after : option i64) d : BatchQueueCounts :=
  let after := default 0 completed_after in
  mkBatchQueueCounts
    (count_where (fun _ r => of_task run task r && has_status Pending r) d)
    (count_where (fun _ r => of_task run task r && has_status Claimed r) d)
    (count_where (fun id r => of_task run task r && has_status Completed r && (id >? after)) d)
    (count_where (fun _ r => of_task run task r && has_status Failed r) d).

Definition get_queue_blocker (run : i32) (task : i64) (after : option i64) d : option QueueBlocker :=
  match filter (fun '(id, r) => (of_task run task r && (id >? default 0 after)
                                 && negb (has_status Completed r)) = true) (by_key (batches d)) with
  | [] => None
  | (id, r) :: _ =>
      Some (mkQueueBlocker id (status r) (if has_status Claimed r then claimed_by_node_name r else None)
              (claimed_at r))
  end.

Definition evaluates_run (run : i32) (t : Z) (n : Node) : bool :=
  bool_decide (active_run_id n = Some run) && bool_decide (active_role n = Some Evaluator)
  && (lease_expires_at n >? t).

Definition count_active_evaluator_nodes (run : i32) d : i64 :=
  zlen (filter (fun '(_, n) => evaluates_run run (now d) n = true) (map_to_list (nodes d))).

(** *** [claim_batch] *)

(** [locked] are the rows other transactions hold ([SKIP LOCKED]). *)
Definition claimable (run : i32) (locked : gset Z) (id : Z) (r : BatchRow) : bool :=
  (run_id r =? run) && has_status Pending r && bool_decide (id ∉ locked).

Definition earlier (a b : Z * BatchRow) : bool :=
  (created_at a.2 <? created_at b.2) || ((created_at a.2 =? created_at b.2) && (a.1 <? b.1)).

(** [ORDER BY created_at, id LIMIT 1] *)
Definition first_row (l : list (Z * BatchRow)) : option (Z * BatchRow) :=
  foldr (fun x acc => match acc with Some y => if earlier y x then Some y else Some x | None => Some x end)
    None l.

Definition token_in_use (token : string) d : bool :=
  existsb (fun '(_, r) => bool_decide (claim_token r = Some token)) (map_to_list (batches d)).

Definition evaluator_leased (run : i32) (uuid : string) d : bool :=
  existsb (fun '(_, n) => bool_decide (node_uuid n = uuid) && evaluates_run run (now d) n) (map_to_list (nodes d)).

Definition node_name (uuid : string) d : option string :=
  option_map fst (find (fun '(_, n) => bool_decide (node_uuid n = uuid)) (map_to_list (nodes d))).

Definition existing_claim (run : i32) (uuid token : string) d : option (Z * BatchRow) :=
  find (fun '(_, r) => bool_decide (claim_token r = Some token) && bool_decide (claimed_by_node_uuid r = Some uuid)
                       && (run_id r =? run) && has_status Claimed r) (map_to_list (batches d)).

Definition next_batch (run : i32) (uuid token : string) (locked : gset Z) d : option (Z * BatchRow) :=
  if token_in_use token d || negb (evaluator_leased run uuid d) then None
  else first_row (filter (fun '(id, r) => claimable run locked id r = true) (map_to_list (batches d))).

Definition claim_row (uuid token : string) d (r : BatchRow) : BatchRow :=
  with_claim r Claimed (node_name uuid d) (Some uuid) (Some token) (Some (now d)) (retry_count r) (last_error r).

(** A claim: batch, task, whether training values are required, payload. *)
Definition batch_claim : Type := Z * Z * bool * Eb.

Definition read_claim d (id : Z) (r : BatchRow) : result StoreError (option batch_claim) :=
  match batch_inputs d !! id with
  | None => Ok None
  | Some bytes =>
      match decode_input bytes with
      | Ok b => Ok (Some (id, task_id r, requires_training_values r, b))
      | Err e => Err (protocol_error e)
      end
  end.

Definition claim_batch (run : i32) (uuid token : string) (locked : gset Z) d
    : db * result StoreError (option batch_claim) :=
  match existing_claim run uuid token d with
  | Some (id, r) => (d, read_claim d id r)
  | None =>
      match next_batch run uuid token locked d with
      | None => (d, Ok None)
      | Some (id, r) =>
          let d' := set_batches (<[id := claim_row uuid token d r]> (batches d)) d in
          (d', read_claim d' id r)
      end
  end.

(** *** Releasing claims *)

Definition release (r : BatchRow) : BatchRow :=
  with_claim r Pending None None None None (retry_count r) (last_error r).
Definition release_counted (error : string) (r : BatchRow) : BatchRow :=
  with_claim r Pending None None None None (Some (retries r + 1)) (Some error).

Definition release_claimed_batches_for_worker (run : i32) (uuid : string) d : db * Z :=
  update_where (fun _ r => (run_id r =? run) && has_status Claimed r
                           && bool_decide (claimed_by_node_uuid r = Some uuid)) release d.

Definition release_untracked_claims (run : i32) (uuid : string) (tracked_tokens : list string) d : db * Z :=
  update_where (fun _ r => (run_id r =? run) && bool_decide (claimed_by_node_uuid r = Some uuid)
                           && has_status Claimed r
                           && match claim_token r with None => true | Some t => bool_decide (t ∉ tracked_tokens) end)
    (release_counted "untracked evaluator claim reclaimed") d.

(** The claim's node, by name and uuid, still evaluates the run. *)
Definition claim_alive d (r : BatchRow) : bool :=
  existsb (fun '(name, n) => bool_decide (claimed_by_node_name r = Some name)
                             && bool_decide (claimed_by_node_uuid r = Some (node_uuid n))
                             && evaluates_run (run_id r) (now d) n) (map_to_list (nodes d)).

Definition reclaim_abandoned_batches (run : i32) d : db * Z :=
  update_where (fun _ r => (run_id r =? run) && has_status Claimed r && negb (claim_alive d r))
    (release_counted "abandoned evaluator claim reclaimed") d.

(** *** [submit_batch_results] *)

Definition owned (uuid token : string) (r : BatchRow) : bool :=
  bool_decide (claimed_by_node_uuid r = Some uuid) && bool_decide (claim_token r = Some token).

Definition complete_row (t : Z) (r : BatchRow) : BatchRow :=
  mkBatchRow (run_id r) (task_id r) (requires_training_values r) (batch_size r) Completed
    (claimed_by_node_name r) (claimed_by_node_uuid r) (claim_token r) (claimed_at r) (Some t)
    (created_at r) (retry_count r) (last_error r).

Definition submit_batch_results (id : i64) (uuid token : string)
    (encoded : result StoreError (option V * J)) (eval_time_ms : f64) d : db * result StoreError unit :=
  match encoded with
  | Err e => (d, Err e)
  | Ok (values, accumulator) =>
      match batches d !! id with
      | None => (d, Err (BatchOwnershipLost id uuid))
      | Some r =>
          if negb (owned uuid token r) then (d, Err (BatchOwnershipLost id uuid))
          else
            match status r with
            | Completed =>
                match batch_results d !! id with
                | None => (d, Err (Internal "completed batch has no result"))
                | Some _ => (d, Ok tt)
                end
            | Claimed =>
                match batch_results d !! id with
                | Some _ => (d, Err db_error)
                | None =>
                    (mkDB (<[id := complete_row (now d) r]> (batches d)) (batch_inputs d)
                       (<[id := mkResultRow values accumulator (Some eval_time_ms) (now d)]> (batch_results d))
                       (nodes d) (checkpoints d) (now d), Ok tt)
                end
            | _ => (d, Err (BatchOwnershipLost id uuid))
            end
      end
  end.

(** *** [fail_batch] *)

Definition fail_row (s : BatchStatus) (n : i32) (error : string) (r : BatchRow) : BatchRow :=
  mkBatchRow (run_id r) (task_id r) (requires_training_values r) (batch_size r) s
    (claimed_by_node_name r) (claimed_by_node_uuid r) (claim_token r) None None
    (created_at r) (Some n) (Some error).

Definition fail_outcome (s : BatchStatus) (task : i64) (n : i32) : BatchFailOutcome :=
  match s with Failed => PermanentlyFailed task n | _ => Requeued task n end.

Definition fail_batch (id : i64) (uuid token error : string) (max_batch_retries : i32) d
    : db * result StoreError BatchFailOutcome :=
  match batches d !! id with
  | None => (d, Err (BatchOwnershipLost id uuid))
  | Some r =>
      if negb (owned uuid token r) then (d, Err (BatchOwnershipLost id uuid))
      else
        match status r with
        | Claimed =>
            let n := retries r + 1 in
            let s := if n >=? max_batch_retries then Failed else Pending in
            (set_batches (<[id := fail_row s n error r]> (batches d)) d, Ok (fail_outcome s (task_id r) n))
        | Completed => (d, Err (BatchOwnershipLost id uuid))
        | s => (d, Ok (fail_outcome s (task_id r) (retries r)))
        end
  end.

(** *** [fetch_completed_batches] *)

Record CompletedRow := mkCompletedRow {
  cr_batch_id : i64;
  cr_task_id : i64;
  cr_requires_training_values : bool;
  cr_batch_size : i32;
  cr_result : ResultRow V J
}.

(** [JOIN batch_results]: rows without a result are dropped. *)
Definition join_result d (p : Z * BatchRow) : option CompletedRow :=
  option_map (mkCompletedRow p.1 (task_id p.2) (requires_training_values p.2) (batch_size p.2))
    (batch_results d !! p.1).

Definition candidates (run : i32) (task : i64) (after : i64) d : list (Z * BatchRow) :=
  filter (fun '(id, r) => (of_task run task r && (id >? after)) = true) (by_key (batches d)).

Definition first_incomplete (l : list (Z * BatchRow)) : option Z :=
  option_map fst (find (fun p => negb (has_status Completed p.2)) l).

Definition fetch_completed_batches (run : i32) (task : i64) (limit : usize) (strict_ordering : bool)
    (after : option i64) d : list CompletedRow :=
  let after := default 0 after in
  if strict_ordering then
    let candidate_batches := ztake limit (candidates run task after d) in
    let completed_prefix :=
      filter (fun '(id, r) => (has_status Completed r
                && match first_incomplete candidate_batches with None => true | Some f => id <? f end) = true)
        candidate_batches in
    omap (join_result d) completed_prefix
  else
    ztake limit (omap (join_result d)
      (filter (fun '(_, r) => has_status Completed r = true) (candidates run task after d))).

(** *** [cleanup_consumed_completed_batches] *)

(** The checkpoint will not need batch [id] any more. *)
Definition beyond_checkpoint (c : CheckpointCursors) (id : Z) : bool :=
  match last_completed_batch_id (ck_queue c) with Some l => id <=? l | None => false end
  || (ck_has_last_produced c && (id >? default 0 (last_produced_batch_id (ck_queue c)))).

Definition cleanup_candidate (run up_to : Z) d (id : Z) (r : BatchRow) : bool :=
  (run_id r =? run) && has_status Completed r && (retries r =? 0) && (id <=? up_to)
  && match checkpoints d !! run with Some c => beyond_checkpoint c id | None => false end.

Definition cleanup_ids (run : i32) (up_to : i64) (limit : usize) d : list Z :=
  map fst (ztake limit (filter (fun '(id, r) => cleanup_candidate run up_to d id r = true) (by_key (batches d)))).

Definition cleanup_consumed_completed_batches (run : i32) (up_to : i64) (limit : usize) d : db * Z :=
  if (up_to <=? 0) || (limit =? 0) then (d, 0)
  else (delete_ids (cleanup_ids run up_to limit d) d, zlen (cleanup_ids run up_to limit d)).
End queue.

(** ** Lemmas *)

Section tables.
Context {Eb B V J : Type}.
Variable nr_samples_of : Eb -> usize.
Implicit Types d : DB B V J.

Lemma update_where_lookup cond f d id :
  batches (update_where cond f d).1 !! id =
  (fun r => if cond id r : bool then f r else r) <$> batches d !! id.
Proof. unfold update_where. simpl. rewrite map_lookup_imap. by destruct (batches d !! id). Qed.

Lemma foldr_delete_lookup {A} (m : gmap Z A) ids id :
  foldr delete m ids !! id = if bool_decide (id ∈ ids) then None else m !! id.
Proof.
  induction ids as [|i ids IH]; simpl; [done|]. destruct (decide (i = id)) as [->|Hne].
  - rewrite lookup_delete_eq, bool_decide_true; [done|set_solver].
  - rewrite lookup_delete_ne, IH by done. by rewrite (bool_decide_ext (id ∈ i :: ids) (id ∈ ids)) by set_solver.
Qed.

(** *** Insertion *)

Lemma insert_row_ok run task training d id b bytes d' :
  insert_row nr_samples_of run task training d (id, b, bytes) = Ok d' ->
  batches d !! id = None /\
  d' = mkDB (<[id := new_row run task training (as_i32 (nr_samples_of b)) (now d)]> (batches d))
         (<[id := bytes]> (batch_inputs d)) (batch_results d) (nodes d) (checkpoints d) (now d).
Proof. unfold insert_row. destruct (batches d !! id); intros; simplify_eq; done. Qed.

(** What a committed bundle adds. *)
Lemma insert_rows_spec run task training l d d' :
  try_fold (insert_row nr_samples_of run task training) d l = Ok d' ->
  (forall id, id ∈ map (fun p => p.1.1) l -> batches d !! id = None) /\ NoDup (map (fun p => p.1.1) l) /\
  (forall id, id ∉ map (fun p => p.1.1) l ->
     batches d' !! id = batches d !! id /\ batch_inputs d' !! id = batch_inputs d !! id) /\
  (forall id b bytes, (id, b, bytes) ∈ l ->
     batches d' !! id = Some (new_row run task training (as_i32 (nr_samples_of b)) (now d)) /\
     batch_inputs d' !! id = Some bytes) /\
  batch_results d' = batch_results d /\ nodes d' = nodes d /\ checkpoints d' = checkpoints d /\ now d' = now d.
Proof.
  revert d. induction l as [|[[id b] bytes] l IH]; intros d H; simpl in H.
  { simplify_eq. split_and!; try done; try (intros * ?%elem_of_nil; done). constructor. }
  apply result_bind_ok in H as (d1 & H1 & H). apply insert_row_ok in H1 as (Hnone & ->).
  apply IH in H as (Hfresh & Hnd & Hother & Hin & ? & ? & ? & ?). simpl in *.
  assert (id ∉ map (fun p => p.1.1) l) as Hid.
  { intros Hid. specialize (Hfresh _ Hid). by rewrite lookup_insert_eq in Hfresh. }
  split_and!; try done.
  - intros id' [->|Hid']%elem_of_cons; [done|]. specialize (Hfresh _ Hid').
    by rewrite lookup_insert_ne in Hfresh by set_solver.
  - by constructor.
  - intros id' [Hne Hid']%not_elem_of_cons. destruct (Hother id' Hid') as [-> ->].
    by rewrite !lookup_insert_ne by done.
  - intros id' b' bytes' [Heq|Hl]%elem_of_cons.
    + simplify_eq. destruct (Hother id Hid) as [-> ->]. by rewrite !lookup_insert_eq.
    + by apply Hin.
Qed.

Lemma zip_ids {A C} (ids : list Z) (bs : list A) (ps : list C) :
  zlen ids = zlen bs -> length ps = length bs -> map (fun p => p.1.1) (zip (zip ids bs) ps) = ids.
Proof.
  revert bs ps. induction ids as [|i ids IH]; intros [|b bs] [|p ps]; unfold zlen in *; simpl; try done; try lia.
  intros. f_equal. apply IH; lia.
Qed.
End tables.

Section lemmas.
Context {Eb B V J : Type}.
Variable encode_input : Eb -> result string B.
Variable decode_input : B -> result string Eb.
Variable nr_samples_of : Eb -> usize.

Notation db := (DB B V J).
Implicit Types d : db.

Lemma insert_batches_cases run task training ids bs d d' r :
  insert_batches encode_input nr_samples_of run task training ids bs d = (d', r) ->
  (d' = d /\ (r = Ok [] /\ bs = [] \/ exists e, r = Err e)) \/
  (r = Ok ids /\ zlen ids = zlen bs /\ exists payload, try_map encode_input bs = Ok payload /\
     try_fold (insert_row nr_samples_of run task training) d (zip (zip ids bs) payload) = Ok d').
Proof.
  unfold insert_batches. intros H. destruct bs as [|b bs]; [simplify_eq; left; eauto|].
  destruct (negb _) eqn:E; [simplify_eq; left; eauto|].
  destruct (try_map encode_input (b :: bs)) as [payload|e] eqn:Em; [|simplify_eq; left; eauto].
  destruct (try_fold _ d _) as [d1|e] eqn:Ef; simplify_eq; [|left; eauto].
  right. zbool. split_and!; [done|done|]. exists payload. done.
Qed.

(** *** The invariant *)

Record wq_ok d : Prop := {
  ok_claimed : forall id r, batches d !! id = Some r -> status r = Claimed ->
    is_Some (claimed_by_node_name r) /\ is_Some (claimed_by_node_uuid r) /\ is_Some (claim_token r) /\
    is_Some (claimed_at r);
  ok_completed : forall id r, batches d !! id = Some r -> status r = Completed ->
    is_Some (batch_results d !! id) /\ is_Some (claim_token r) /\ is_Some (completed_at r);
  ok_result : forall id x, batch_results d !! id = Some x ->
    exists r, batches d !! id = Some r /\ status r = Completed;
  ok_inputs : forall id, is_Some (batches d !! id) <-> is_Some (batch_inputs d !! id);
  ok_token : forall id1 id2 r1 r2 t, batches d !! id1 = Some r1 -> batches d !! id2 = Some r2 ->
    claim_token r1 = Some t -> claim_token r2 = Some t -> id1 = id2
}.

(** One transaction of any worker, or a change of the other tables. *)
Inductive wq_step : db -> db -> Prop :=
| step_insert d run task training ids bs :
    wq_step d (insert_batches encode_input nr_samples_of run task training ids bs d).1
| step_claim d run uuid token locked : wq_step d (claim_batch decode_input run uuid token locked d).1
| step_release d run uuid : wq_step d (release_claimed_batches_for_worker run uuid d).1
| step_untracked d run uuid tokens : wq_step d (release_untracked_claims run uuid tokens d).1
| step_reclaim d run : wq_step d (reclaim_abandoned_batches run d).1
| step_submit d id uuid token encoded ms : wq_step d (submit_batch_results id uuid token encoded ms d).1
| step_fail d id uuid token error m : wq_step d (fail_batch id uuid token error m d).1
| step_cleanup d run up_to limit : wq_step d (cleanup_consumed_completed_batches run up_to limit d).1
| step_env d ns cks t : wq_step d (mkDB (batches d) (batch_inputs d) (batch_results d) ns cks t).

Definition empty_db : db := mkDB ∅ ∅ ∅ ∅ ∅ 0.

Lemma empty_db_ok : wq_ok empty_db.
Proof. constructor; intros *; simpl; rewrite ?lookup_empty; try done; split; intros [? ?]; done. Qed.

(** A change of rows that keeps ids, tokens or drops them, and never touches
    a completed row. *)
Lemma rows_changed_ok d bs :
  wq_ok d ->
  (forall id r', bs !! id = Some r' -> exists r, batches d !! id = Some r /\
     (r' = r \/ status r <> Completed /\ status r' <> Completed /\
                (claim_token r' = claim_token r \/ claim_token r' = None) /\
                (status r' = Claimed -> False))) ->
  (forall id, is_Some (batches d !! id) -> is_Some (bs !! id)) ->
  wq_ok (set_batches bs d).
Proof.
  intros [Hcl Hco Hre Hin Htok] Hchange Hkeys. constructor; simpl.
  - intros id r' Hr' Hs. destruct (Hchange _ _ Hr') as (r & Hr & [->|(_ & _ & _ & Hn)]); [eauto|by apply Hn in Hs].
  - intros id r' Hr' Hs. destruct (Hchange _ _ Hr') as (r & Hr & [->|(_ & Hn & _)]); [eauto|done].
  - intros id x Hx. destruct (Hre _ _ Hx) as (r & Hr & Hs). destruct (Hkeys id) as [r' Hr']; [by exists r|].
    destruct (Hchange _ _ Hr') as (r0 & Hr0 & [->|(Hn & _)]); simplify_eq; by eauto.
  - intros id. rewrite <- Hin. split; [intros [r' Hr']|apply Hkeys].
    destruct (Hchange _ _ Hr') as (r & Hr & _). eauto.
  - intros id1 id2 r1' r2' t H1 H2 Ht1 Ht2.
    destruct (Hchange _ _ H1) as (r1 & Hr1 & Hc1), (Hchange _ _ H2) as (r2 & Hr2 & Hc2).
    eapply (Htok id1 id2 r1 r2 t); try done.
    + destruct Hc1 as [->|(_ & _ & [<-|?] & _)]; congruence.
    + destruct Hc2 as [->|(_ & _ & [<-|?] & _)]; congruence.
Qed.

Lemma update_where_ok cond f d :
  wq_ok d -> (forall id r, cond id r = true -> status r = Claimed) ->
  (forall r, status (f r) = Pending /\ claim_token (f r) = None) ->
  wq_ok (update_where cond f d).1.
Proof.
  intros Hok Hcond Hf. apply rows_changed_ok; [done|..].
  - intros id r'. rewrite map_lookup_imap. destruct (batches d !! id) as [r|] eqn:E; simpl; [|done].
    intros Heq. injection Heq as <-. exists r. split; [done|]. destruct (cond id r) eqn:Ec; [right|by left].
    apply Hcond in Ec. destruct (Hf r) as [Hs Ht]. rewrite Ec, Hs. split_and!; try done. by right.
  - intros id. rewrite map_lookup_imap. intros [r ->]. simpl. eauto.
Qed.

Lemma delete_ids_ok ids d : wq_ok d -> wq_ok (delete_ids ids d).
Proof.
  intros [Hcl Hco Hre Hin Htok]. constructor; simpl.
  - intros id r. rewrite foldr_delete_lookup. case_bool_decide; [done|eauto].
  - intros id r. rewrite !foldr_delete_lookup. case_bool_decide; [done|eauto].
  - intros id x. rewrite !foldr_delete_lookup. case_bool_decide; [done|eauto].
  - intros id. rewrite !foldr_delete_lookup. case_bool_decide; [|done]. split; intros [? ?]; done.
  - intros id1 id2 r1 r2 t. rewrite !foldr_delete_lookup. do 2 case_bool_decide; [done..|eauto].
Qed.

Lemma insert_batches_ok run task training ids bs d :
  wq_ok d -> wq_ok (insert_batches encode_input nr_samples_of run task training ids bs d).1.
Proof.
  intros [Hcl Hco Hre Hin Htok].
  destruct (insert_batches encode_input nr_samples_of run task training ids bs d) as [d' r] eqn:E.
  apply insert_batches_cases in E as [[-> _]|(_ & Hlen & payload & Hp & H)]; [by constructor|]. simpl.
  apply insert_rows_spec in H as (Hfresh & Hnd & Hother & Hnew & Hr & Hn & Hc & Ht).
  set (l := zip (zip ids bs) payload) in *.
  assert (forall id r, batches d' !! id = Some r ->
    batches d !! id = Some r \/ (exists run task training size t, r = new_row run task training size t)) as Hcase.
  { intros id r' Hr'. destruct (decide (id ∈ map (fun p => p.1.1) l)) as [Hl|Hl].
    - apply list_elem_of_fmap in Hl as ([[id' b] bytes] & -> & Hl). simpl in *.
      destruct (Hnew _ _ _ Hl) as [Heq _]. right. rewrite Heq in Hr'. simplify_eq. eauto 10.
    - destruct (Hother id Hl) as [Heq _]. left. by rewrite <- Heq. }
  constructor.
  - intros id r' Hr' Hs. destruct (Hcase _ _ Hr') as [|(?&?&?&?&?&->)]; [eauto|done].
  - intros id r' Hr' Hs. rewrite Hr. destruct (Hcase _ _ Hr') as [|(?&?&?&?&?&->)]; [eauto|done].
  - intros id x. rewrite Hr. intros Hx. destruct (Hre _ _ Hx) as (r' & Hr' & Hs). exists r'.
    destruct (Hother id) as [-> _]; [|done]. intros Hl. by rewrite (Hfresh id Hl) in Hr'.
  - intros id. destruct (decide (id ∈ map (fun p => p.1.1) l)) as [Hl|Hl].
    + apply list_elem_of_fmap in Hl as ([[id' b] bytes] & -> & Hl). simpl.
      destruct (Hnew _ _ _ Hl) as [-> ->]. split; eauto.
    + destruct (Hother id Hl) as [-> ->]. apply Hin.
  - intros id1 id2 r1 r2 t H1 H2 Ht1 Ht2.
    destruct (Hcase _ _ H1) as [H1'|(?&?&?&?&?&->)]; [|done].
    destruct (Hcase _ _ H2) as [H2'|(?&?&?&?&?&->)]; [|done]. eauto.
Qed.

(** *** Claims *)

Lemma find_map_list {A} (p : Z * A -> bool) (m : gmap Z A) x :
  find p (map_to_list m) = Some x -> m !! x.1 = Some x.2 /\ p x = true.
Proof.
  intros [Hin Hp]%find_some. split; [|done]. apply elem_of_map_to_list. destruct x. by apply list_elem_of_In.
Qed.

Lemma first_row_elem l x : first_row l = Some x -> x ∈ l.
Proof.
  revert x. induction l as [|y l IH]; intros x; simpl; [done|].
  destruct (first_row l) as [z|]; [|intros; simplify_eq; set_solver].
  destruct (earlier z y); intros; simplify_eq; [|set_solver]. apply elem_of_cons. right. by apply IH.
Qed.

Lemma earlier_trans a b c : earlier a b = true -> earlier b c = true -> earlier a c = true.
Proof.
  unfold earlier. rewrite !orb_true_iff, !andb_true_iff, !Z.ltb_lt, !Z.eqb_eq. lia.
Qed.

Lemma first_row_min l x y : first_row l = Some x -> y ∈ l -> earlier y x = false.
Proof.
  revert x. induction l as [|z l IH]; intros x; simpl; [done|].
  assert (forall w, earlier w w = false) as Hirr.
  { intros w. unfold earlier. by rewrite !Z.ltb_irrefl, andb_false_r. }
  destruct (first_row l) as [w|] eqn:Ef.
  - destruct (earlier w z) eqn:E; intros Heq Hy; simplify_eq; apply elem_of_cons in Hy as [->|Hy].
    + destruct (earlier z x) eqn:E2; [|done]. by rewrite (earlier_trans _ _ _ E E2) in Hirr || (specialize (Hirr x);
        rewrite (earlier_trans _ _ _ E E2) in Hirr).
    + by apply IH.
    + done.
    + specialize (IH w eq_refl Hy). destruct (earlier y x) eqn:E2; [|done]. exfalso.
      clear -E IH E2. unfold earlier in *. zbool. apply orb_true_iff in E2.
      rewrite andb_true_iff, Z.ltb_lt, Z.ltb_lt, Z.eqb_eq in E2.
      destruct (created_at w.2 =? created_at x.2) eqn:?, (created_at y.2 =? created_at w.2) eqn:?; zbool;
        simpl in *; zbool; lia.
  - intros Heq Hy. simplify_eq. destruct l as [|w l]; [|simpl in Ef; by destruct (first_row l) as [?|]; [destruct (earlier _ _)|]].
    apply list_elem_of_singleton in Hy. by subst.
Qed.

Lemma next_batch_some run uuid token locked d id r :
  next_batch run uuid token locked d = Some (id, r) ->
  batches d !! id = Some r /\ run_id r = run /\ status r = Pending /\ id ∉ locked /\
  token_in_use token d = false /\ evaluator_leased run uuid d = true /\
  (forall id' r', batches d !! id' = Some r' -> run_id r' = run -> status r' = Pending -> id' ∉ locked ->
     earlier (id', r') (id, r) = false).
Proof.
  unfold next_batch. destruct (_ || _)%bool eqn:E; [done|]. zbool. intros Hf.
  pose proof (first_row_elem _ _ Hf) as Hin. apply list_elem_of_filter in Hin as [Hc Hin].
  apply elem_of_map_to_list in Hin. unfold claimable, has_status in Hc. zbool.
  split_and!; try done.
  intros id' r' Hr' Hrun Hs Hl. eapply first_row_min; [exact Hf|]. apply list_elem_of_filter.
  split; [|by apply elem_of_map_to_list]. unfold claimable, has_status.
  rewrite Hrun, Z.eqb_refl, !bool_decide_true by done. done.
Qed.

Lemma token_in_use_spec token d :
  token_in_use token d = true <-> exists id r, batches d !! id = Some r /\ claim_token r = Some token.
Proof.
  unfold token_in_use. rewrite existsb_exists. split.
  - intros ([id r] & Hin & Hb). apply list_elem_of_In, elem_of_map_to_list in Hin.
    zbool. eauto.
  - intros (id & r & Hr & Ht). exists (id, r). rewrite <- list_elem_of_In, elem_of_map_to_list.
    split; [done|]. by apply bool_decide_eq_true.
Qed.

Lemma node_name_leased run uuid d :
  evaluator_leased run uuid d = true -> is_Some (node_name uuid d).
Proof.
  unfold evaluator_leased, node_name. rewrite existsb_exists. intros ([name n] & Hin & Hb). zbool.
  destruct (find _ (map_to_list (nodes d))) as [p|] eqn:E; [eauto|].
  exfalso. eapply find_none in E; [|exact Hin]. simpl in E. by rewrite bool_decide_true in E.
Qed.

Lemma claim_batch_ok run uuid token locked d :
  wq_ok d -> wq_ok (claim_batch decode_input run uuid token locked d).1.
Proof.
  intros Hok. pose proof Hok as [Hcl Hco Hre Hin Htok]. unfold claim_batch.
  destruct (existing_claim run uuid token d) as [[id r]|]; [done|].
  destruct (next_batch run uuid token locked d) as [[id r]|] eqn:E; [|done].
  apply next_batch_some in E as (Hr & _ & Hs & _ & Htk & Hleased & _).
  assert (forall id' r', batches d !! id' = Some r' -> claim_token r' <> Some token) as Hfree.
  { intros id' r' Hr' Ht. enough (token_in_use token d = true) by congruence. apply token_in_use_spec. eauto. }
  constructor; simpl.
  - intros id' r'. rewrite lookup_insert. case_decide; [|eauto]. intros; simplify_eq. simpl.
    split_and!; eauto using node_name_leased.
  - intros id' r'. rewrite lookup_insert. case_decide; [|eauto]. intros; simplify_eq.
  - intros id' x Hx. destruct (Hre _ _ Hx) as (r' & Hr' & Hs'). exists r'.
    rewrite lookup_insert_ne; [done|]. intros ->. congruence.
  - intros id'. rewrite <- Hin, lookup_insert. case_decide; [|done]. subst. split; eauto.
  - intros id1 id2 r1 r2 t. rewrite !lookup_insert. do 2 case_decide; intros H1 H2 Ht1 Ht2; simplify_eq/=; eauto;
      exfalso; eapply Hfree; eauto.
Qed.

(** *** Results and failures *)

Lemma owned_spec uuid token r :
  owned uuid token r = true <-> claimed_by_node_uuid r = Some uuid /\ claim_token r = Some token.
Proof. unfold owned. by rewrite andb_true_iff, !bool_decide_eq_true. Qed.

(** The branches of a submission. *)
Lemma submit_cases id uuid token encoded ms d d' r :
  submit_batch_results id uuid token encoded ms d = (d', r) ->
  (d' = d /\ exists e, r = Err e) \/
  (exists row values accumulator, batches d !! id = Some row /\ encoded = Ok (values, accumulator) /\
     owned uuid token row = true /\ r = Ok tt /\
     ((status row = Completed /\ is_Some (batch_results d !! id) /\ d' = d) \/
      (status row = Claimed /\ batch_results d !! id = None /\
       d' = mkDB (<[id := complete_row (now d) row]> (batches d)) (batch_inputs d)
              (<[id := mkResultRow values accumulator (Some ms) (now d)]> (batch_results d))
              (nodes d) (checkpoints d) (now d)))).
Proof.
  unfold submit_batch_results. intros H.
  destruct encoded as [[values accumulator]|e]; [|simplify_eq; left; eauto].
  destruct (batches d !! id) as [row|] eqn:Er; [|simplify_eq; left; eauto].
  destruct (owned uuid token row) eqn:Eo; simpl in H; [|simplify_eq; left; eauto].
  destruct (status row) eqn:Es, (batch_results d !! id) eqn:Ex; simplify_eq; try (left; by eauto);
    right; exists row, values, accumulator; split_and!; try done; [right|left]; eauto.
Qed.

Lemma submit_ok id uuid token encoded ms d :
  wq_ok d -> wq_ok (submit_batch_results id uuid token encoded ms d).1.
Proof.
  intros Hok. pose proof Hok as [Hcl Hco Hre Hin Htok].
  destruct (submit_batch_results id uuid token encoded ms d) as [d' r] eqn:E.
  apply submit_cases in E as [[-> _]|(row & vs & acc & Hr & _ & Ho & _ & [(_ & _ & ->)|(Hs & Hx & ->)])]; [done..|].
  apply owned_spec in Ho as [Hu Ht]. constructor; simpl.
  - intros id' r'. rewrite lookup_insert. case_decide; [|eauto]. intros; simplify_eq.
  - intros id' r'. rewrite !lookup_insert. case_decide; [|eauto]. intros; simplify_eq. simpl. rewrite Ht. eauto.
  - intros id' x. rewrite !lookup_insert. case_decide; [|eauto]. subst. intros _. eauto.
  - intros id'. rewrite <- Hin, lookup_insert. case_decide; [|done]. subst. split; eauto.
  - intros id1 id2 r1 r2 t. rewrite !lookup_insert. do 2 case_decide; intros; simplify_eq/=; eauto.
Qed.

Lemma fail_ok id uuid token error m d : wq_ok d -> wq_ok (fail_batch id uuid token error m d).1.
Proof.
  intros Hok. unfold fail_batch. destruct (batches d !! id) as [r|] eqn:Er; [|done].
  destruct (negb _); [done|]. destruct (status r) eqn:Es; try done.
  apply rows_changed_ok; [done|..].
  - intros id' r'. rewrite lookup_insert. case_decide; [|eauto]. subst. intros; simplify_eq.
    exists r. split; [done|]. right. rewrite Es. simpl. destruct (_ >=? m); split_and!; try done; by left.
  - intros id' H. rewrite lookup_insert. case_decide; eauto.
Qed.

Lemma wq_step_ok d d' : wq_ok d -> wq_step d d' -> wq_ok d'.
Proof.
  intros Hok Hs. destruct Hs.
  - by apply insert_batches_ok.
  - by apply claim_batch_ok.
  - apply update_where_ok; [done|intros ? r H; unfold has_status in H; by zbool|done].
  - apply update_where_ok; [done|intros ? r H; unfold has_status in H; by zbool|done].
  - apply update_where_ok; [done|intros ? r H; unfold has_status in H; by zbool|done].
  - by apply submit_ok.
  - by apply fail_ok.
  - unfold cleanup_consumed_completed_batches. destruct (_ || _)%bool; [done|]. by apply delete_ids_ok.
  - destruct Hok. by constructor.
Qed.

(** *** Properties *)

(** C36: every state of the batch tables that any interleaving of the workers'
    transactions can reach is consistent: a claimed batch has an owner and a
    token, a batch has a stored result exactly when it is completed, every
    batch has its input, and no two batches share a claim token. *)
Theorem work_queue_invariant d (Hsteps : steps wq_step empty_db d) : wq_ok d.
Proof. eapply steps_invariant; [|apply empty_db_ok|exact Hsteps]. intros x y. apply wq_step_ok. Qed.

(** C33: an accepted result is final. No transaction of any worker replaces the
    result of a batch or takes its completed status back: the batch keeps
    both, or is deleted with its result. *)
Theorem accepted_result_is_final d d' id x
    (Hok : wq_ok d) (Hstep : wq_step d d') (Hx : batch_results d !! id = Some x) :
  (batch_results d' !! id = Some x /\ exists r, batches d' !! id = Some r /\ status r = Completed) \/
  (batches d' !! id = None /\ batch_results d' !! id = None).
Proof.
  pose proof (wq_step_ok _ _ Hok Hstep) as Hok'.
  assert (batch_results d' !! id = Some x -> exists r, batches d' !! id = Some r /\ status r = Completed) as Hc.
  { intros H. by apply (ok_result _ Hok' id x). }
  destruct (ok_result _ Hok id x Hx) as (r & Hr & Hs).
  destruct Hstep; try (left; split; [exact Hx|by apply Hc]).
  - left. destruct (insert_batches encode_input nr_samples_of run task training ids bs d) as [d' res] eqn:E.
    apply insert_batches_cases in E as [[-> _]|(_ & _ & payload & _ & H)]; [split; [done|by apply Hc]|].
    apply insert_rows_spec in H as (_ & _ & _ & _ & Hres & _). simpl in *.
    rewrite <- Hres in Hx. split; [done|by apply Hc].
  - left. unfold claim_batch in *. destruct (existing_claim run uuid token d) as [[? ?]|]; [split; [done|by apply Hc]|].
    destruct (next_batch run uuid token locked d) as [[? ?]|]; split; try done; by apply Hc.
  - left. destruct (submit_batch_results id0 uuid token encoded ms d) as [d' res] eqn:E.
    apply submit_cases in E as [[-> _]|(row & vs & acc & Hrow & _ & _ & _ & [(_ & _ & ->)|(Hs' & Hn & ->)])];
      [split; [done|by apply Hc]..|].
    simpl in *. assert (id0 <> id) as Hne by congruence.
    rewrite lookup_insert_ne in Hc |- * by done. split; [done|by apply Hc].
  - left. unfold fail_batch in *. destruct (batches d !! id0) as [row|]; [|split; [done|by apply Hc]].
    destruct (negb _); [split; [done|by apply Hc]|].
    destruct (status row); split; try done; by apply Hc.
  - unfold cleanup_consumed_completed_batches in *. destruct (_ || _)%bool; [left; split; [done|by apply Hc]|].
    simpl in *. rewrite !foldr_delete_lookup in *. case_bool_decide; [by right|left; split; [done|by apply Hc]].
Qed.

(** a submission is accepted from the holder of the claim only, and at
    most once. From anyone else, or when the claim has been taken back, it
    fails and changes nothing; repeated by the holder after a lost
    acknowledgement it succeeds again and changes nothing. *)
Theorem submit_once_by_owner d id uuid token values accumulator ms d' r
    (Hok : wq_ok d)
    (Hsubmit : submit_batch_results id uuid token (Ok (values, accumulator)) ms d = (d', r)) :
  match r with
  | Ok _ => exists row, batches d !! id = Some row /\ owned uuid token row = true /\
      (status row = Completed /\ d' = d \/
       status row = Claimed /\ batch_results d' !! id = Some (mkResultRow values accumulator (Some ms) (now d)) /\
       batches d' = <[id := complete_row (now d) row]> (batches d)) /\
      forall values2 accumulator2 ms2,
        submit_batch_results id uuid token (Ok (values2, accumulator2)) ms2 d' = (d', Ok tt)
  | Err e => d' = d /\ e = BatchOwnershipLost id uuid /\
      forall row, batches d !! id = Some row ->
        owned uuid token row = false \/ status row = Pending \/ status row = Failed
  end.
Proof.
  pose proof Hok as [Hcl Hco Hre Hin Htok]. unfold submit_batch_results in Hsubmit.
  destruct (batches d !! id) as [row|] eqn:Er; [|simplify_eq; split_and!; done].
  destruct (owned uuid token row) eqn:Eo; simpl in Hsubmit;
    [|simplify_eq; split_and!; try done; intros ? ?; simplify_eq; by left].
  destruct (status row) eqn:Es.
  - simplify_eq. split_and!; try done. intros ? ?. simplify_eq. auto.
  - destruct (batch_results d !! id) eqn:Ex.
    { destruct (Hre _ _ Ex) as (row0 & Hrow0 & Hs0). congruence. }
    simplify_eq. exists row. split_and!; try done.
    + right. simpl. by rewrite lookup_insert_eq.
    + intros. unfold submit_batch_results. simpl. rewrite lookup_insert_eq.
      unfold owned in *. simpl. rewrite Eo. simpl. by rewrite lookup_insert_eq.
  - destruct (Hco _ _ Er Es) as ([x Hx] & _). rewrite Hx in Hsubmit. simplify_eq.
    exists row. split_and!; try done; [by left|].
    intros. unfold submit_batch_results. by rewrite Er, Eo, Es, Hx.
  - simplify_eq. split_and!; try done. intros ? ?. simplify_eq. auto.
Qed.

Lemma existing_claim_spec run uuid token d id r :
  wq_ok d ->
  existing_claim run uuid token d = Some (id, r) <->
  batches d !! id = Some r /\ run_id r = run /\ status r = Claimed /\
  claimed_by_node_uuid r = Some uuid /\ claim_token r = Some token.
Proof.
  intros Hok. unfold existing_claim. split.
  - intros [Hr Hp]%find_map_list. unfold has_status in Hp. simpl in *. zbool. done.
  - intros (Hr & Hrun & Hs & Hu & Ht). destruct (find _ _) as [[id' r']|] eqn:E.
    + apply find_map_list in E as [Hr' Hp]. simpl in *. zbool.
      assert (id' = id) as -> by (eapply (ok_token d Hok); eauto). congruence.
    + exfalso. eapply find_none in E; [|apply list_elem_of_In, elem_of_map_to_list; exact Hr].
      simpl in E. unfold has_status in E. rewrite !bool_decide_true, Hrun, Z.eqb_refl in E by done. done.
Qed.

(** claiming. A granted batch belongs to the run, is now claimed by the
    caller under its token, and comes with its stored payload. Either the
    caller already held it (a repeated request), or it was the oldest
    pending batch of the run that no other transaction held, and no other
    row changed. Repeating the request grants the same batch and changes
    nothing, so a lost answer does not leak a claim. *)
Theorem claim_batch_grants d run uuid token locked d' id task training b
    (Hok : wq_ok d)
    (Hclaim : claim_batch decode_input run uuid token locked d = (d', Ok (Some (id, task, training, b)))) :
  (exists r bytes, batches d' !! id = Some r /\ run_id r = run /\ status r = Claimed /\
     owned uuid token r = true /\ task_id r = task /\ requires_training_values r = training /\
     batch_inputs d !! id = Some bytes /\ decode_input bytes = Ok b) /\
  (d' = d \/
   exists r, batches d !! id = Some r /\ status r = Pending /\ id ∉ locked /\
     evaluator_leased run uuid d = true /\
     (forall id' r', batches d !! id' = Some r' -> run_id r' = run -> status r' = Pending -> id' ∉ locked ->
        earlier (id', r') (id, r) = false) /\
     (forall id', id' <> id -> batches d' !! id' = batches d !! id')) /\
  forall locked', claim_batch decode_input run uuid token locked' d' = (d', Ok (Some (id, task, training, b))).
Proof.
  pose proof (claim_batch_ok run uuid token locked d Hok) as Hok'. rewrite Hclaim in Hok'. simpl in Hok'.
  assert (exists r, existing_claim run uuid token d' = Some (id, r) /\
            read_claim decode_input d' id r = Ok (Some (id, task, training, b)) /\ batch_inputs d' = batch_inputs d /\
            (d' = d \/ exists r0, next_batch run uuid token locked d = Some (id, r0) /\
               batches d' = <[id := claim_row uuid token d r0]> (batches d))) as (r & Hex & Hread & Hin & Hfrom).
  { unfold claim_batch in Hclaim. destruct (existing_claim run uuid token d) as [[i r]|] eqn:Ee.
    - injection Hclaim as <- Hread. assert (i = id) as ->.
      { unfold read_claim in Hread. destruct (batch_inputs d !! i); [|done]. destruct (decode_input _); simplify_eq. done. }
      exists r. auto.
    - destruct (next_batch run uuid token locked d) as [[i r]|] eqn:En; [|done].
      injection Hclaim as <- Hread. assert (i = id) as ->.
      { unfold read_claim in Hread. simpl in Hread. destruct (batch_inputs d !! i); [|done].
        destruct (decode_input _); simplify_eq. done. }
      pose proof (next_batch_some _ _ _ _ _ _ _ En) as (Hr & Hrun & _).
      exists (claim_row uuid token d r). split_and!; [|exact Hread|done|right; eauto].
      apply existing_claim_spec; [done|]. simpl. rewrite lookup_insert_eq. done. }
  pose proof Hex as (Hr & Hrun & Hs & Hu & Ht)%existing_claim_spec; [|done].
  split; [|split].
  - unfold read_claim in Hread. rewrite Hin in Hread. destruct (batch_inputs d !! id) as [bytes|]; [|done].
    destruct (decode_input bytes) as [b'|] eqn:Edec; simplify_eq.
    exists r, bytes. split_and!; try done. by apply owned_spec.
  - destruct Hfrom as [->|(r0 & Hn & Hb)]; [by left|right].
    apply next_batch_some in Hn as (Hr0 & Hrun0 & Hs0 & Hl0 & _ & Hle & Hmin).
    exists r0. split_and!; try done. intros id' Hne. by rewrite Hb, lookup_insert_ne.
  - intros locked'. unfold claim_batch. rewrite Hex. by rewrite Hread.
Qed.

(** failures are counted once and bounded. The owner's notification for a
    claimed batch adds one to its retry count, and makes the failure
    permanent exactly when the count reaches the limit; repeating the
    notification reports the same outcome and changes nothing; nobody else
    can fail the batch. *)
Theorem fail_batch_counts_once d id uuid token error limit d' r
    (Hfail : fail_batch id uuid token error limit d = (d', r)) :
  match r with
  | Err e => d' = d /\ e = BatchOwnershipLost id uuid
  | Ok outcome => exists row row', batches d !! id = Some row /\ owned uuid token row = true /\
      batches d' !! id = Some row' /\ owned uuid token row' = true /\
      (status row = Claimed ->
         retries row' = retries row + 1 /\
         (limit <= retries row + 1 -> status row' = Failed /\ outcome = PermanentlyFailed (task_id row) (retries row + 1)) /\
         (retries row + 1 < limit -> status row' = Pending /\ outcome = Requeued (task_id row) (retries row + 1))) /\
      (status row <> Claimed -> d' = d) /\
      forall error2, fail_batch id uuid token error2 limit d' = (d', Ok outcome)
  end.
Proof.
  unfold fail_batch in Hfail. destruct (batches d !! id) as [row|] eqn:Er; [|by simplify_eq].
  destruct (owned uuid token row) eqn:Eo; simpl in Hfail; [|by simplify_eq].
  destruct (status row) eqn:Es; simplify_eq.
  - exists row, row. split_and!; try done; [congruence|]. intros. unfold fail_batch. by rewrite Er, Eo, Es.
  - set (s := if retries row + 1 >=? limit then Failed else Pending).
    exists row, (fail_row s (retries row + 1) error row). simpl. rewrite lookup_insert_eq.
    split_and!; try done; try congruence.
    + intros _. split; [done|]. subst s. rewrite Z.geb_leb. destruct (limit <=? retries row + 1) eqn:E; zbool; split; intros; lia || done.
    + intros error2. unfold fail_batch. simpl. rewrite lookup_insert_eq.
      unfold owned in *. simpl. rewrite Eo. simpl. subst s. by destruct (_ >=? limit).
  - done.
  - exists row, row. split_and!; try done; [congruence|]. intros. unfold fail_batch. by rewrite Er, Eo, Es.
Qed.

(** reclaiming revokes dead claims only. A claimed batch whose node no
    longer evaluates the run becomes pending again with one more retry, and
    no late submission for it is accepted; the claim of a live node, and
    every other batch, is untouched. *)
Theorem reclaim_revokes_dead_claims d run id r (Hr : batches d !! id = Some r) :
  let d' := (reclaim_abandoned_batches run d).1 in
  if (run_id r =? run) && has_status Claimed r && negb (claim_alive d r) then
    (exists r', batches d' !! id = Some r' /\ status r' = Pending /\ retries r' = retries r + 1) /\
    forall uuid token encoded ms, exists e, submit_batch_results id uuid token encoded ms d' = (d', Err e)
  else batches d' !! id = Some r.
Proof.
  cbv zeta. unfold reclaim_abandoned_batches.
  set (cond := fun (_ : Z) r => (run_id r =? run) && has_status Claimed r && negb (claim_alive d r)).
  set (d' := (update_where cond (release_counted "abandoned evaluator claim reclaimed") d).1).
  assert (batches d' !! id = Some (if cond id r then release_counted "abandoned evaluator claim reclaimed" r else r))
    as Hl by (subst d'; rewrite update_where_lookup, Hr; done).
  fold (cond id r). destruct (cond id r); [|done].
  split; [eexists; split; [exact Hl|]; split; done|].
  intros uuid token encoded ms. unfold submit_batch_results.
  destruct encoded as [[values accumulator]|e]; [|eauto]. rewrite Hl.
  unfold owned. simpl. eauto.
Qed.

(** *** Reading results in order *)

Lemma candidates_sorted run task after d : StronglySorted key_lt (candidates run task after d).
Proof. apply StronglySorted_filter, by_key_sorted. Qed.

Lemma candidates_elem run task after d id r :
  (id, r) ∈ candidates run task after d <->
  batches d !! id = Some r /\ run_id r = run /\ task_id r = task /\ after < id.
Proof.
  unfold candidates. rewrite list_elem_of_filter, elem_of_by_key. unfold of_task.
  rewrite !andb_true_iff, !Z.eqb_eq, Z.gtb_ltb, Z.ltb_lt. tauto.
Qed.

Lemma omap_join_ids d l :
  wq_ok d -> Forall (fun p => batches d !! p.1 = Some p.2 /\ has_status Completed p.2 = true) l ->
  map cr_batch_id (omap (join_result d) l) = map fst l.
Proof.
  intros Hok. induction 1 as [|[id r] l [Hr Hs] _ IH]; [done|]. simpl in *. unfold has_status in Hs. zbool.
  destruct (ok_completed d Hok _ _ Hr Hs) as ([x Hx] & _). unfold join_result at 1. simpl. rewrite Hx. simpl.
  f_equal. exact IH.
Qed.

(** The completed rows at the front of the task's rows after a cursor. *)
Definition completed_prefix (run : i32) (task : i64) (limit : usize) (after : i64) d : list (Z * BatchRow) :=
  take_while (fun p => has_status Completed p.2) (ztake limit (candidates run task after d)).

Lemma fetch_strict_eq d run task limit after :
  fetch_completed_batches run task limit true after d =
  omap (join_result d) (completed_prefix run task limit (default 0 after) d).
Proof.
  unfold fetch_completed_batches, completed_prefix, first_incomplete. f_equal.
  set (l := ztake limit (candidates run task (default 0 after) d)).
  rewrite <- (take_while_filter (fun p : Z * BatchRow => has_status Completed p.2) fst l).
  - apply list_filter_iff. intros [id r]. simpl. done.
  - unfold l, ztake. apply (StronglySorted_take key_lt), candidates_sorted.
Qed.

Lemma completed_prefix_elem run task limit after d p :
  p ∈ completed_prefix run task limit after d ->
  batches d !! p.1 = Some p.2 /\ has_status Completed p.2 = true /\ run_id p.2 = run /\ task_id p.2 = task /\
  after < p.1.
Proof.
  intros Hp. assert (p ∈ candidates run task after d) as Hc.
  { destruct (take_while_prefix (fun q => has_status Completed q.2) (ztake limit (candidates run task after d))) as [k Hk].
    unfold completed_prefix in Hp. rewrite <- (ztake_zdrop limit (candidates run task after d)), Hk. set_solver. }
  pose proof (take_while_Forall (fun q : Z * BatchRow => has_status Completed q.2) (ztake limit (candidates run task after d))) as Hf.
  rewrite Forall_forall in Hf. specialize (Hf p Hp). destruct p as [id r].
  apply candidates_elem in Hc as (? & ? & ? & ?). done.
Qed.

(** ordered fetching delivers exactly the completed prefix. The batches
    returned are those of the task right after the cursor, in increasing
    order, up to the first one that is not completed (or the limit): none
    completed is skipped, and none behind a gap is delivered early. *)
Theorem fetch_completed_in_order d run task limit after (Hok : wq_ok d) :
  let fetched := map cr_batch_id (fetch_completed_batches run task limit true after d) in
  fetched = map fst (completed_prefix run task limit (default 0 after) d) /\
  StronglySorted Z.lt fetched /\
  (forall id, id ∈ fetched -> default 0 after < id /\
     exists r, batches d !! id = Some r /\ run_id r = run /\ task_id r = task /\ status r = Completed) /\
  (forall id r last, last ∈ fetched -> batches d !! id = Some r -> run_id r = run -> task_id r = task ->
     default 0 after < id <= last -> id ∈ fetched).
Proof.
  cbv zeta. assert (map cr_batch_id (fetch_completed_batches run task limit true after d) =
                    map fst (completed_prefix run task limit (default 0 after) d)) as ->.
  { rewrite fetch_strict_eq. apply omap_join_ids; [done|].
    apply Forall_forall. intros p Hp. apply completed_prefix_elem in Hp as (? & ? & _). done. }
  destruct (take_while_prefix (fun q : Z * BatchRow => has_status Completed q.2)
              (ztake limit (candidates run task (default 0 after) d))) as [k Hk].
  fold (completed_prefix run task limit (default 0 after) d) in Hk.
  set (pre := completed_prefix run task limit (default 0 after) d) in *.
  assert (StronglySorted key_lt (pre ++ k ++ zdrop limit (candidates run task (default 0 after) d))) as Hsort.
  { rewrite app_assoc, <- Hk, ztake_zdrop. apply candidates_sorted. }
  split; [done|]. split; [|split].
  - apply StronglySorted_app_1_l in Hsort. clear Hk. induction Hsort as [|a l Hs IH Hf]; simpl; constructor; [done|].
    apply Forall_map. exact Hf.
  - intros id ([id' r] & -> & Hp)%list_elem_of_fmap. apply completed_prefix_elem in Hp as (Hr & Hc & ? & ? & ?).
    unfold has_status in Hc. zbool. simpl in *. eauto 10.
  - intros id r last (p & -> & Hp)%list_elem_of_fmap Hr Hrun Htask [Hlo Hhi].
    assert ((id, r) ∈ pre ++ k ++ zdrop limit (candidates run task (default 0 after) d)) as Hin.
    { rewrite app_assoc, <- Hk, ztake_zdrop. by apply candidates_elem. }
    apply elem_of_app in Hin as [Hin|Hin]; [by apply (list_elem_of_fmap_2 fst) in Hin|].
    pose proof (StronglySorted_app_1_elem_of _ _ _ _ _ Hsort Hp Hin) as Hlt.
    unfold key_lt in Hlt. simpl in Hlt. lia.
Qed.
End lemmas.

(** ** Witnesses: two batches of run 1, one evaluator *)

Definition ex_encode (z : Z) : result string Z := Ok z.
Abbreviation ex_db := (DB Z unit unit).

Definition ex0 : ex_db :=
  mkDB ∅ ∅ ∅ {["n1"%string := mkNode "u1" 100 (Some 1) (Some Evaluator)]} ∅ 10.
Definition ex1 : ex_db := (insert_batches ex_encode (fun _ => 16) 1 2 false [5; 6] [50; 60] ex0).1.
Definition ex2 : ex_db := (claim_batch ex_encode 1 "u1" "t1" ∅ ex1).1.
Definition ex3 : ex_db := (submit_batch_results 5 "u1" "t1" (Ok (None, tt)) 1%float ex2).1.

Lemma ex_reachable : steps (wq_step ex_encode ex_encode (fun _ => 16)) empty_db ex3.
Proof.
  eapply steps_step; [eapply steps_step; [eapply steps_step; [eapply steps_step|]|]|].
  - apply steps_refl.
  - apply (step_env _ _ _ empty_db {["n1"%string := mkNode "u1" 100 (Some 1) (Some Evaluator)]} ∅ 10).
  - apply (step_insert _ _ _ ex0).
  - apply (step_claim _ _ _ ex1).
  - apply (step_submit _ _ _ ex2).
Qed.

Lemma ex_ok0 : wq_ok ex0.
Proof. destruct (@empty_db_ok Z unit unit). by constructor. Qed.
Lemma ex_ok1 : wq_ok ex1.
Proof. apply insert_batches_ok, ex_ok0. Qed.
Lemma ex_ok2 : wq_ok ex2.
Proof. apply claim_batch_ok, ex_ok1. Qed.
Lemma ex_ok3 : wq_ok ex3.
Proof. apply submit_ok, ex_ok2. Qed.

Lemma work_queue_invariant_witness : wq_ok ex3.
Proof. exact (work_queue_invariant ex_encode ex_encode (fun _ => 16) ex3 ex_reachable). Defined.

Lemma accepted_result_is_final_witness :
  let d' := (reclaim_abandoned_batches 1 ex3).1 in
  (batch_results d' !! 5 = Some (mkResultRow None tt (Some 1%float) 10) /\
     exists r, batches d' !! 5 = Some r /\ status r = Completed) \/
  (batches d' !! 5 = None /\ batch_results d' !! 5 = None).
Proof.
  apply (accepted_result_is_final ex_encode ex_encode (fun _ => 16) ex3 _ 5
           (mkResultRow None tt (Some 1%float) 10) ex_ok3 (step_reclaim _ _ _ ex3 1)).
  by vm_compute.
Defined.

Lemma submit_once_by_owner_witness :
  exists row, batches ex2 !! 5 = Some row /\ owned "u1" "t1" row = true /\
    (status row = Completed /\ ex3 = ex2 \/
     status row = Claimed /\ batch_results ex3 !! 5 = Some (mkResultRow None tt (Some 1%float) (now ex2)) /\
     batches ex3 = <[5 := complete_row (now ex2) row]> (batches ex2)) /\
    forall values2 accumulator2 ms2,
      submit_batch_results 5 "u1" "t1" (Ok (values2, accumulator2)) ms2 ex3 = (ex3, Ok tt).
Proof.
  apply (submit_once_by_owner ex2 5 "u1" "t1" None tt 1%float ex3 (Ok tt) ex_ok2). by vm_compute.
Defined.

Lemma claim_batch_grants_witness :
  (exists r bytes, batches ex2 !! 5 = Some r /\ run_id r = 1 /\ status r = Claimed /\
     owned "u1" "t1" r = true /\ task_id r = 2 /\ requires_training_values r = false /\
     batch_inputs ex1 !! 5 = Some bytes /\ ex_encode bytes = Ok 50) /\
  (ex2 = ex1 \/
   exists r, batches ex1 !! 5 = Some r /\ status r = Pending /\ 5 ∉ (∅ : gset Z) /\
     evaluator_leased 1 "u1" ex1 = true /\
     (forall id' r', batches ex1 !! id' = Some r' -> run_id r' = 1 -> status r' = Pending -> id' ∉ (∅ : gset Z) ->
        earlier (id', r') (5, r) = false) /\
     (forall id', id' <> 5 -> batches ex2 !! id' = batches ex1 !! id')) /\
  forall locked', claim_batch ex_encode 1 "u1" "t1" locked' ex2 = (ex2, Ok (Some (5, 2, false, 50))).
Proof. apply (claim_batch_grants ex_encode ex1 1 "u1" "t1" ∅ ex2 5 2 false 50 ex_ok1). by vm_compute. Defined.

Lemma fail_batch_counts_once_witness :
  let d' := (fail_batch 5 "u1" "t1" "boom" 3 ex2).1 in
  exists row row', batches ex2 !! 5 = Some row /\ owned "u1" "t1" row = true /\
    batches d' !! 5 = Some row' /\ owned "u1" "t1" row' = true /\
    (status row = Claimed ->
       retries row' = retries row + 1 /\
       (3 <= retries row + 1 -> status row' = Failed /\ Requeued 2 1 = PermanentlyFailed (task_id row) (retries row + 1)) /\
       (retries row + 1 < 3 -> status row' = Pending /\ Requeued 2 1 = Requeued (task_id row) (retries row + 1))) /\
    (status row <> Claimed -> d' = ex2) /\
    forall error2, fail_batch 5 "u1" "t1" error2 3 d' = (d', Ok (Requeued 2 1)).
Proof. apply (fail_batch_counts_once ex2 5 "u1" "t1" "boom" 3 _ (Ok (Requeued 2 1))). by vm_compute. Defined.

Lemma reclaim_revokes_dead_claims_witness :
  let d := mkDB (batches ex2) (batch_inputs ex2) (batch_results ex2) (nodes ex2) (checkpoints ex2) 200 in
  exists r, batches d !! 5 = Some r /\
    let d' := (reclaim_abandoned_batches 1 d).1 in
    if (run_id r =? 1) && has_status Claimed r && negb (claim_alive d r) then
      (exists r', batches d' !! 5 = Some r' /\ status r' = Pending /\ retries r' = retries r + 1) /\
      forall uuid token encoded ms, exists e, submit_batch_results 5 uuid token encoded ms d' = (d', Err e)
    else batches d' !! 5 = Some r.
Proof.
  eexists. split; [|eapply (reclaim_revokes_dead_claims
    (mkDB (batches ex2) (batch_inputs ex2) (batch_results ex2) (nodes ex2) (checkpoints ex2) 200) 1 5)];
    by vm_compute.
Defined.

Lemma fetch_completed_in_order_witness :
  let fetched := map cr_batch_id (fetch_completed_batches 1 2 8 true None ex3) in
  fetched = map fst (completed_prefix 1 2 8 0 ex3) /\
  StronglySorted Z.lt fetched /\
  (forall id, id ∈ fetched -> 0 < id /\
     exists r, batches ex3 !! id = Some r /\ run_id r = 1 /\ task_id r = 2 /\ status r = Completed) /\
  (forall id r last, last ∈ fetched -> batches ex3 !! id = Some r -> run_id r = 1 -> task_id r = 2 ->
     0 < id <= last -> id ∈ fetched).
Proof. exact (fetch_completed_in_order ex3 1 2 8 None ex_ok3). Defined.
