(* ===== verification/Recovery.v ===== *)
(** src/stores/recovery.rs: rolling live progress and queued work back to a
    saved sampler checkpoint, and why the workers' transactions leave that
    possible. *)
From S2P Require Import Prelude Floats Errors WorkQueue.

Record TaskRow := mkTaskRow {
  t_run_id : i32;
  t_active : bool;
  t_produced : i64;
  t_completed : i64
}.

Record RunRow (O : Type) := mkRunRow {
  run_batches_completed : i32;
  run_produced : i64;
  run_completed : i64;
  run_observable : option O
}.
Arguments mkRunRow {O}.
Arguments run_batches_completed {O}.
Arguments run_produced {O}.
Arguments run_completed {O}.
Arguments run_observable {O}.

(** [SamplerAggregatorCheckpoint]; [ck_rest] is what recovery only compares:
    the format version, the sampler snapshot and the runtime progress. *)
Record SamplerAggregatorCheckpoint (O R : Type) := mkCheckpoint {
  ck_completed_samples : i64;
  ck_task_id : i64;
  ck_output_snapshot_id : option i64;
  ck_batches_completed : i32;
  ck_observable_state : O;
  ck_produced_samples : i64;
  ck_queue_checkpoint : SamplerQueueCheckpoint;
  ck_rest : R
}.
Arguments mkCheckpoint {O R}.
Arguments ck_completed_samples {O R}.
Arguments ck_task_id {O R}.
Arguments ck_output_snapshot_id {O R}.
Arguments ck_batches_completed {O R}.
Arguments ck_observable_state {O R}.
Arguments ck_produced_samples {O R}.
Arguments ck_queue_checkpoint {O R}.
Arguments ck_rest {O R}.

#[export] Instance SamplerQueueCheckpoint_eq_dec : EqDecision SamplerQueueCheckpoint.
Proof. solve_decision. Defined.
#[export] Instance SamplerAggregatorCheckpoint_eq_dec {O R} `{EqDecision O, EqDecision R} :
  EqDecision (SamplerAggregatorCheckpoint O R).
Proof. solve_decision. Defined.

(** The tables recovery touches. *)
Record Store (B V J O R : Type) := mkStore {
  queue : DB B V J;
  run_sampler_checkpoints : gmap Z (SamplerAggregatorCheckpoint O R);
  run_tasks : gmap Z TaskRow;
  observable_snapshots : gmap Z (i32 * i64);
  runs : gmap Z (RunRow O)
}.
Arguments mkStore {B V J O R}.
Arguments queue {B V J O R}.
Arguments run_sampler_checkpoints {B V J O R}.
Arguments run_tasks {B V J O R}.
Arguments observable_snapshots {B V J O R}.
Arguments runs {B V J O R}.

(** [WHERE run_id=$1 AND task_id=$2 AND id>$3 AND id<=$4], as sizes by id. *)
Definition batch_window {B V J} (run : i32) (task lo hi : i64) (d : DB B V J) : gmap Z Z :=
  map_imap (fun id r => if of_task run task r && (id >? lo) && (id <=? hi) then Some (batch_size r) else None)
    (batches d).

(** [COALESCE(sum(batch_size),0)] *)
Definition window_samples {B V J} (run : i32) (task lo hi : i64) (d : DB B V J) : i64 :=
  zsum (map snd (by_key (batch_window run task lo hi d))).

Definition task_batches_after {B V J} (run : i32) (task lo : i64) (d : DB B V J) : list Z :=
  map fst (filter (fun '(id, r) => (of_task run task r && (id >? lo)) = true) (by_key (batches d))).

Definition sum_tasks (f : TaskRow -> i64) (run : i32) (tasks : gmap Z TaskRow) : i64 :=
  zsum (map (fun p => f p.2) (filter (fun '(_, t) => (t_run_id t =? run) = true) (by_key tasks))).

Section recovery.
Context {B V J O R : Type} `{EqDecision O, EqDecision R}.
Notation store := (Store B V J O R).
Notation checkpoint := (SamplerAggregatorCheckpoint O R).
Implicit Types (s : store) (c : checkpoint).

Definition restore_tx (run : i32) c s : result StoreError store :=
  let last_produced := last_produced_batch_id (ck_queue_checkpoint c) in
  let? saved := ok_or db_error (run_sampler_checkpoints s !! run) in
  if negb (bool_decide (saved = c)) then
    Err (RetryActivation "recovery checkpoint changed during runtime initialization")
  else
    let retained :=
      window_samples run (ck_task_id c) (default 0 (last_completed_batch_id (ck_queue_checkpoint c)))
        (default 0 last_produced) (queue s) in
    let expected := ck_produced_samples c - ck_completed_samples c in
    if negb (retained =? expected) then
      Err (Internal "checkpoint needs more queued work than remains; refusing inconsistent recovery")
    else
      let queue' := delete_ids (task_batches_after run (ck_task_id c) (default 0 last_produced) (queue s)) (queue s) in
      match run_tasks s !! ck_task_id c with
      | Some t =>
          if negb ((t_run_id t =? run) && t_active t) then Err (Internal "checkpoint task is no longer active")
          else
            let tasks :=
              <[ck_task_id c := mkTaskRow (t_run_id t) (t_active t) (ck_produced_samples c) (ck_completed_samples c)]>
                (run_tasks s) in
            let snapshots :=
              filter (fun '(id, (r, t)) => ((r =? run) && (t =? ck_task_id c)
                                            && (id >? default 0 (ck_output_snapshot_id c))) = false)
                (observable_snapshots s) in
            let runs' :=
              alter (fun _ => mkRunRow (ck_batches_completed c) (sum_tasks t_produced run tasks)
                                (sum_tasks t_completed run tasks) (Some (ck_observable_state c))) run (runs s) in
            Ok (mkStore queue' (run_sampler_checkpoints s) tasks snapshots runs')
      | None => Err (Internal "checkpoint task is no longer active")
      end.

(** An error rolls the transaction back. *)
Definition restore_sampler_checkpoint (run : i32) c s : store * result StoreError unit :=
  if (ck_produced_samples c >? 0)
     && match last_produced_batch_id (ck_queue_checkpoint c) with None => true | Some _ => false end then
    (s, Err (Internal "checkpoint has no production boundary; cannot safely recover queued work"))
  else
    match restore_tx run c s with
    | Ok s' => (s', Ok tt)
    | Err e => (s, Err e)
    end.

(** ** What recovery leaves *)

Lemma task_batches_after_elem run task lo (d : DB B V J) id :
  id ∈ task_batches_after run task lo d <->
  exists r, batches d !! id = Some r /\ run_id r = run /\ task_id r = task /\ lo < id.
Proof.
  unfold task_batches_after. rewrite list_elem_of_fmap. split.
  - intros ([id' r] & -> & [Hc Hin]%list_elem_of_filter). apply elem_of_by_key in Hin.
    unfold of_task in Hc. zbool. simpl. eauto.
  - intros (r & Hr & Hrun & Ht & Hlo). exists (id, r). split; [done|]. apply list_elem_of_filter.
    split; [|by apply elem_of_by_key]. unfold of_task. rewrite Hrun, Ht, !Z.eqb_refl. simpl.
    rewrite Z.gtb_ltb. by apply Z.ltb_lt.
Qed.

Lemma batch_window_lookup run task lo hi (d : DB B V J) id :
  batch_window run task lo hi d !! id =
  (r ← batches d !! id; if of_task run task r && (id >? lo) && (id <=? hi) then Some (batch_size r) else None).
Proof. unfold batch_window. by rewrite map_lookup_imap. Qed.

(** C34: recovery rolls back to the checkpoint's boundary and no further. When
    it succeeds, the task's progress is the checkpoint's, the task's queued
    batches behind the completion cursor hold exactly the samples produced
    but not yet ingested, none of them or of any other task was lost, and
    every batch after the boundary is gone, so that a late result for it is
    refused. When it fails, nothing has changed. *)
Theorem restore_reaches_boundary run c s s' r
    (Hrun : restore_sampler_checkpoint run c s = (s', r)) :
  let lo := default 0 (last_completed_batch_id (ck_queue_checkpoint c)) in
  let hi := default 0 (last_produced_batch_id (ck_queue_checkpoint c)) in
  match r with
  | Err _ => s' = s
  | Ok _ =>
      (exists t, run_tasks s' !! ck_task_id c = Some t /\ t_active t = true /\
         t_produced t = ck_produced_samples c /\ t_completed t = ck_completed_samples c) /\
      window_samples run (ck_task_id c) lo hi (queue s') = ck_produced_samples c - ck_completed_samples c /\
      (forall id row, batches (queue s') !! id = Some row <->
         batches (queue s) !! id = Some row /\ ~ (run_id row = run /\ task_id row = ck_task_id c /\ hi < id)) /\
      (forall id uuid token encoded ms row, batches (queue s) !! id = Some row ->
         run_id row = run -> task_id row = ck_task_id c -> hi < id ->
         exists e, submit_batch_results id uuid token encoded ms (queue s') = (queue s', Err e))
  end.
Proof.
  cbv zeta. unfold restore_sampler_checkpoint in Hrun. destruct (_ && _)%bool; [by simplify_eq|].
  destruct (restore_tx run c s) as [s1|e] eqn:E; simplify_eq; [|done].
  unfold restore_tx in E. apply result_bind_ok in E as (saved & _ & E).
  destruct (negb (bool_decide _)); [done|]. destruct (negb (_ =? _)) eqn:Eret; [done|].
  destruct (run_tasks s !! ck_task_id c) as [t|] eqn:Et; [|done].
  destruct (negb (_ && _)) eqn:Eact; [done|]. apply negb_false_iff in Eact, Eret. zbool. simplify_eq. simpl.
  set (lo := default 0 (last_completed_batch_id (ck_queue_checkpoint c))) in *.
  set (hi := default 0 (last_produced_batch_id (ck_queue_checkpoint c))) in *.
  set (ids := task_batches_after (t_run_id t) (ck_task_id c) hi (queue s)).
  assert (forall id row, foldr delete (batches (queue s)) ids !! id = Some row <->
     batches (queue s) !! id = Some row /\ ~ (run_id row = t_run_id t /\ task_id row = ck_task_id c /\ hi < id)) as Hrows.
  { intros id row. rewrite foldr_delete_lookup. case_bool_decide as Hid.
    - subst ids. apply task_batches_after_elem in Hid as (row' & Hr & ? & ? & ?). split; [done|].
      intros [Hr' Hn]. rewrite Hr in Hr'. simplify_eq. destruct Hn. done.
    - split; [|by intros [? _]]. intros Hr. split; [done|]. intros (? & ? & ?). apply Hid.
      apply task_batches_after_elem. eauto. }
  split_and!.
  - eexists. by rewrite lookup_insert_eq.
  - rewrite <- Eret. unfold window_samples. f_equal. f_equal. f_equal. apply map_eq. intros id.
    rewrite !batch_window_lookup. simpl. rewrite foldr_delete_lookup. case_bool_decide as Hid; [|done].
    subst ids. apply task_batches_after_elem in Hid as (row & -> & ? & ? & ?). simpl.
    rewrite (proj2 (Z.leb_gt id hi)), andb_false_r by lia. done.
  - exact Hrows.
  - intros id uuid token encoded ms row Hr Hrun Ht Hhi. unfold submit_batch_results. simpl.
    destruct encoded as [[vs acc]|e]; [|eauto]. destruct (foldr delete (batches (queue s)) ids !! id) as [row'|] eqn:Ed; [|eauto].
    apply Hrows in Ed as [Hr' Hn]. rewrite Hr in Hr'. simplify_eq. destruct Hn. done.
Qed.
End recovery.

(** ** Workers cannot make a checkpoint unrecoverable *)

Definition same_batch (r r' : BatchRow) : Prop :=
  run_id r' = run_id r /\ task_id r' = task_id r /\ batch_size r' = batch_size r.

Section steps.
Context {Eb B V J : Type}.
Variable encode_input : Eb -> result string B.
Variable decode_input : B -> result string Eb.
Variable nr_samples_of : Eb -> usize.
Implicit Types d : DB B V J.

(** What one transaction may do to a row: keep its batch, delete it when the
    checkpoint of its run is past it, or create it. *)
Definition row_step d (id : Z) (before after : option BatchRow) : Prop :=
  match before, after with
  | Some r, Some r' => same_batch r r'
  | Some r, None => exists c, checkpoints d !! run_id r = Some c /\ beyond_checkpoint c id = true
  | None, _ => True
  end.

Lemma row_step_refl d id o : row_step d id o o.
Proof. by destruct o. Qed.

Lemma update_where_rows cond f d id :
  (forall r, same_batch r (f r)) ->
  row_step d id (batches d !! id) (batches (update_where cond f d).1 !! id).
Proof.
  intros Hf. rewrite update_where_lookup. destruct (batches d !! id) as [r|]; simpl; [|done].
  destruct (cond id r); [apply Hf|done].
Qed.

Lemma set_row_rows d id id' r r' :
  batches d !! id' = Some r -> same_batch r r' ->
  row_step d id (batches d !! id) (<[id' := r']> (batches d) !! id).
Proof.
  intros Hr Hs. rewrite lookup_insert. case_decide; [subst; by rewrite Hr|apply row_step_refl].
Qed.

Lemma wq_step_rows d d' id :
  wq_step encode_input decode_input nr_samples_of d d' ->
  row_step d id (batches d !! id) (batches d' !! id).
Proof.
  intros Hs. destruct Hs.
  - destruct (insert_batches encode_input nr_samples_of run task training ids bs d) as [d' r] eqn:E. simpl.
    apply insert_batches_cases in E as [[-> _]|(_ & _ & payload & _ & H)]; [apply row_step_refl|].
    apply insert_rows_spec in H as (Hfresh & _ & Hother & _).
    destruct (decide (id ∈ map (fun p => p.1.1) (zip (zip ids bs) payload))) as [Hin|Hin].
    + by rewrite (Hfresh id Hin).
    + destruct (Hother id Hin) as [-> _]. apply row_step_refl.
  - unfold claim_batch. destruct (existing_claim run uuid token d) as [[? ?]|]; [apply row_step_refl|].
    destruct (next_batch run uuid token locked d) as [[i r]|] eqn:En; [|apply row_step_refl].
    apply next_batch_some in En as (Hr & _). by apply (set_row_rows d id i r).
  - by apply update_where_rows.
  - by apply update_where_rows.
  - by apply update_where_rows.
  - destruct (submit_batch_results id0 uuid token encoded ms d) as [d' r] eqn:E. simpl.
    apply submit_cases in E as [[-> _]|(row & vs & acc & Hr & _ & _ & _ & [(_ & _ & ->)|(_ & _ & ->)])];
      [apply row_step_refl..|]. by apply (set_row_rows d id id0 row).
  - unfold fail_batch. destruct (batches d !! id0) as [row|] eqn:Hr; [|apply row_step_refl].
    destruct (negb _); [apply row_step_refl|].
    destruct (status row); simpl; try apply row_step_refl. by apply (set_row_rows d id id0 row).
  - unfold cleanup_consumed_completed_batches. destruct (_ || _)%bool; [apply row_step_refl|]. simpl.
    rewrite foldr_delete_lookup. case_bool_decide as Hid; [|apply row_step_refl].
    destruct (batches d !! id) as [r|] eqn:Hr; [|done]. simpl.
    unfold cleanup_ids in Hid. apply list_elem_of_fmap in Hid as ([id' r'] & -> & Hid). simpl in *.
    assert ((id', r') ∈ filter (fun '(id, r) => cleanup_candidate run up_to d id r = true) (by_key (batches d))) as Hin.
    { rewrite <- (ztake_zdrop limit (filter _ _)). apply elem_of_app. by left. }
    apply list_elem_of_filter in Hin as [Hc Hin]. apply elem_of_by_key in Hin. simplify_eq.
    unfold cleanup_candidate in Hc. zbool. subst.
    destruct (checkpoints d !! run_id r) as [c|]; [eauto|done].
  - apply row_step_refl.
Qed.

(** while a checkpoint is the saved one, no transaction of any worker
    (claiming, submitting, failing, reclaiming, cleaning up, inserting
    batches produced after it) changes the queued samples its recovery
    requires: a checkpoint that can be restored stays restorable. *)
Theorem checkpoint_stays_recoverable d d' run task cursors
    (Hstep : wq_step encode_input decode_input nr_samples_of d d')
    (Hsaved : checkpoints d !! run = Some cursors)
    (Hnew : forall id, batches d !! id = None -> is_Some (batches d' !! id) ->
              default 0 (last_produced_batch_id (ck_queue cursors)) < id)
    (Hpos : forall l, last_completed_batch_id (ck_queue cursors) = Some l -> 0 <= l) :
  let lo := default 0 (last_completed_batch_id (ck_queue cursors)) in
  let hi := default 0 (last_produced_batch_id (ck_queue cursors)) in
  batch_window run task lo hi d' = batch_window run task lo hi d /\
  window_samples run task lo hi d' = window_samples run task lo hi d.
Proof.
  cbv zeta. set (lo := default 0 (last_completed_batch_id (ck_queue cursors))).
  set (hi := default 0 (last_produced_batch_id (ck_queue cursors))) in *.
  enough (batch_window run task lo hi d' = batch_window run task lo hi d) as Heq.
  { split; [done|]. unfold window_samples. by rewrite Heq. }
  apply map_eq. intros id. rewrite !batch_window_lookup.
  pose proof (wq_step_rows d d' id Hstep) as Hrow. pose proof (Hnew id) as Hid.
  destruct (batches d !! id) as [r|], (batches d' !! id) as [r'|]; simpl in *; try done.
  - destruct Hrow as (Hr & Ht & Hb). unfold of_task. by rewrite Hr, Ht, Hb.
  - destruct Hrow as (c & Hc & Hbeyond). unfold of_task. destruct (run_id r =? run) eqn:Erun; [|done].
    zbool. subst run. rewrite Hsaved in Hc. simplify_eq. destruct (task_id r =? task); [|done]. simpl.
    unfold beyond_checkpoint in Hbeyond. rewrite !Z.gtb_ltb in *. apply orb_true_iff in Hbeyond as [Hb|Hb].
    + subst lo. destruct (last_completed_batch_id (ck_queue c)) as [l|]; [|done]. zbool. simpl.
      by rewrite (proj2 (Z.ltb_ge l id)) by lia.
    + apply andb_true_iff in Hb as [_ Hb]. zbool. fold hi in Hb.
      by rewrite (proj2 (Z.leb_gt id hi)), andb_false_r by lia.
  - specialize (Hid eq_refl ltac:(eauto)). rewrite (proj2 (Z.leb_gt id hi)), andb_false_r by lia. done.
Qed.
End steps.

(** ** Witnesses *)

Definition ex_queue : SamplerQueueCheckpoint := mkQueueCheckpoint (Some 5) (Some 6) 16.
Definition ex_checkpoint : SamplerAggregatorCheckpoint unit unit := mkCheckpoint 16 2 None 1 tt 32 ex_queue tt.
Definition ex_saved_db : DB Z unit unit :=
  mkDB (batches ex3) (batch_inputs ex3) (batch_results ex3) (nodes ex3) {[1 := mkCheckpointCursors ex_queue true]} (now ex3).
Definition ex_store : Store Z unit unit unit unit :=
  mkStore ex_saved_db {[1 := ex_checkpoint]} {[2 := mkTaskRow 1 true 48 32]} ∅ {[1 := mkRunRow 2 48 32 None]}.

Lemma restore_reaches_boundary_witness :
  let s' := (restore_sampler_checkpoint 1 ex_checkpoint ex_store).1 in
  (exists t, run_tasks s' !! 2 = Some t /\ t_active t = true /\ t_produced t = 32 /\ t_completed t = 16) /\
  window_samples 1 2 5 6 (queue s') = 32 - 16 /\
  (forall id row, batches (queue s') !! id = Some row <->
     batches (queue ex_store) !! id = Some row /\ ~ (run_id row = 1 /\ task_id row = 2 /\ 6 < id)) /\
  (forall id uuid token encoded ms row, batches (queue ex_store) !! id = Some row ->
     run_id row = 1 -> task_id row = 2 -> 6 < id ->
     exists e, submit_batch_results id uuid token encoded ms (queue s') = (queue s', Err e)).
Proof.
  apply (restore_reaches_boundary 1 ex_checkpoint ex_store (restore_sampler_checkpoint 1 ex_checkpoint ex_store).1 (Ok tt)).
  by vm_compute.
Defined.

Lemma checkpoint_stays_recoverable_witness :
  let d' := (cleanup_consumed_completed_batches 1 9 10 ex_saved_db).1 in
  batch_window 1 2 5 6 d' = batch_window 1 2 5 6 ex_saved_db /\
  window_samples 1 2 5 6 d' = window_samples 1 2 5 6 ex_saved_db.
Proof.
  apply (checkpoint_stays_recoverable ex_encode ex_encode (fun _ => 16) ex_saved_db
           (cleanup_consumed_completed_batches 1 9 10 ex_saved_db).1 1 2
           (mkCheckpointCursors ex_queue true) (step_cleanup _ _ _ ex_saved_db 1 9 10)); [by vm_compute| |].
  - intros id Hn [r Hr]. exfalso. simpl in Hr. rewrite foldr_delete_lookup in Hr.
    case_bool_decide; [done|]. simpl in Hn. congruence.
  - intros l Hl. simpl in Hl. simplify_eq. lia.
Defined.
