(* ===== verification/CampaignBudget.v ===== *)
(** src/stores/queries/campaign_budget.rs: the sample budgets of an integration
    campaign. Each child run holds a grant; the sampler of a child may produce up
    to its grant, and the grants of a campaign never add up to more than its cap.

    A call is one transaction over the tables run_tasks, runs and
    campaign_sample_budgets: an error rolls it back. Counts in the database lag
    behind the counts of the running samplers, which the state machine at the end
    keeps apart. *)
From S2P Require Import Prelude Errors.

(** ** Tables *)

(** The columns of run_tasks the budgets read; a campaign's own row is in
    [campaigns]. *)
Record TaskCount := mkTaskCount {
  tc_run : i32;
  tc_produced : i64;
  tc_completed : bool
}.
Record BudgetDB := mkBudgetDB {
  (** [max_total_samples], and whether the campaign task is active *)
  campaigns : gmap i64 (option i64 * bool);
  (** runs.parent_task_id *)
  parents : gmap i32 i64;
  tasks : gmap i64 TaskCount;
  (** child_run_id -> (campaign_task_id, granted_samples) *)
  budgets : gmap i32 (i64 * i64)
}.
Definition set_budgets (x : gmap i32 (i64 * i64)) (d : BudgetDB) : BudgetDB :=
  mkBudgetDB (campaigns d) (parents d) (tasks d) x.

(** Sums over the rows of a table; the casts to bigint are taken to succeed. *)
Definition map_total `{Countable K} {V} (f : K -> V -> Z) (m : gmap K V) : Z :=
  map_fold (fun k v sum => f k v + sum) 0 m.

Definition tasks_of (run : i32) (d : BudgetDB) : gmap i64 TaskCount := filter (fun p => tc_run p.2 = run) (tasks d).

(** [COALESCE(sum(nr_produced_samples), 0)] of a run. *)
Definition produced_of (run : i32) (d : BudgetDB) : i64 := map_total (fun _ t => tc_produced t) (tasks_of run d).

Definition children (campaign : i64) (d : BudgetDB) : gmap i32 i64 := filter (fun p => p.2 = campaign) (parents d).

(** ** Allocation *)

(** INSERT .. ON CONFLICT DO NOTHING: a child without a budget is granted what
    it has produced already. *)
Definition seed_budgets (campaign : i64) (d : BudgetDB) : BudgetDB :=
  set_budgets (budgets d ∪ map_imap (fun run _ => Some (campaign, produced_of run d)) (children campaign d)) d.

Definition all_completed (run : i32) (d : BudgetDB) : bool :=
  bool_decide (map_Forall (fun _ t => tc_completed t = true) (tasks_of run d)).

(** The unused allowance of a completed queue is taken back. *)
Definition reclaim_budgets (campaign : i64) (d : BudgetDB) : BudgetDB :=
  set_budgets
    (map_imap (fun run '(c, granted) =>
       Some (c, if bool_decide (c = campaign) && all_completed run d then produced_of run d else granted)) (budgets d)) d.

Definition grants_of (campaign : i64) (d : BudgetDB) : gmap i32 i64 :=
  omap (fun '(c, granted) => if bool_decide (c = campaign) then Some granted else None) (budgets d).

(** [requests] in order, each up to what is left. *)
Fixpoint grant_requests (requests : list (i32 * i64)) (grants : gmap i32 i64) (remaining : i64) (d : BudgetDB)
    : BudgetDB * result string (gmap i32 i64) :=
  match requests with
  | [] => (d, Ok grants)
  | (child, requested_total) :: requests =>
      match grants !! child with
      | None => (d, Err "budget request is not for a campaign child"%string)
      | Some grant =>
          let extra := Z.min (Z.max 0 (i64_saturating_sub requested_total grant)) remaining in
          if extra =? 0 then grant_requests requests grants remaining d
          else
            let update := fun row : i64 * i64 => (row.1, grant + extra) in
            grant_requests requests (<[child := grant + extra]> grants) (remaining - extra)
              (set_budgets (alter update child (budgets d)) d)
      end
  end.

Definition checked_total (grants : gmap i32 i64) : option i64 :=
  foldl (fun (total : option i64) (p : Z * i64) => total ≫= fun total => i64_checked_add total p.2) (Some 0) (by_key grants).

Definition allocate_tx (campaign : i64) (requests : list (i32 * i64)) (d : BudgetDB)
    : BudgetDB * result string (gmap i32 i64) :=
  match (campaigns d !! campaign : option (option i64 * bool)) with
  | None => (d, Err "no rows returned"%string)
  | Some (limit, active) =>
      let limit : i64 := default i64_max limit in
      let d := reclaim_budgets campaign (seed_budgets campaign d) in
      let grants := grants_of campaign d in
      match checked_total grants with
      | None => (d, Err "campaign sample accounting overflow"%string)
      | Some total =>
          if limit <? total then (d, Err "campaign has already produced more than its sample cap"%string)
          else if active then grant_requests requests grants (limit - total) d
          else (d, Ok grants)
      end
  end.

Definition allocate_campaign_samples (campaign : i64) (requests : list (i32 * i64)) (d : BudgetDB)
    : BudgetDB * result string (gmap i32 i64) :=
  match allocate_tx campaign requests d with
  | (d', Ok grants) => (d', Ok grants)
  | (_, Err e) => (d, Err e)
  end.

(** What the other tasks of the run produced. *)
Definition produced_elsewhere (run : i32) (task : i64) (d : BudgetDB) : i64 :=
  map_total (fun _ t => tc_produced t) (delete task (tasks_of run d)).

Definition granted (run : i32) (d : BudgetDB) : i64 :=
  match budgets d !! run with Some (_, granted) => granted | None => 0 end.

(** What the sampler of [task] may bring its own count to: the grant of the run
    less what its other tasks produced. [None]: not the child of a campaign. *)
Definition campaign_sample_allowance (run : i32) (task : i64) (d : BudgetDB) : option i64 :=
  parent ← parents d !! run;
  _ ← campaigns d !! parent;
  Some (granted run d - produced_elsewhere run task d).

(** ** Sums *)

Section totals.
Context `{Countable K} {V : Type}.
Implicit Types (f g : K -> V -> Z) (m : gmap K V).

Lemma map_total_insert f m k v : m !! k = None -> map_total f (<[k := v]> m) = f k v + map_total f m.
Proof. intros Hk. unfold map_total. rewrite map_fold_insert_L; [done|intros; lia|done]. Qed.

Lemma map_total_delete f m k v : m !! k = Some v -> map_total f m = f k v + map_total f (delete k m).
Proof. intros Hk. rewrite <- map_total_insert by apply lookup_delete_eq. by rewrite insert_delete_id. Qed.

Lemma map_total_alter f m k v v' :
  m !! k = Some v -> map_total f (<[k := v']> m) = map_total f m - f k v + f k v'.
Proof.
  intros Hk. rewrite (map_total_delete f m k v) by done.
  rewrite (map_total_delete f (<[k := v']> m) k v') by apply lookup_insert_eq.
  rewrite delete_insert_eq. lia.
Qed.

Lemma map_total_le f g m : (forall k v, m !! k = Some v -> f k v <= g k v) -> map_total f m <= map_total g m.
Proof.
  induction m as [|k v m Hk IH] using map_ind; intros Hle; [done|]. rewrite !map_total_insert by done.
  pose proof (Hle k v (lookup_insert_eq _ _ _)). assert (map_total f m <= map_total g m); [|lia].
  apply IH. intros k' v' Hk'. apply Hle. rewrite lookup_insert_ne; [done|]. intros ->. by rewrite Hk in Hk'.
Qed.

Lemma map_total_ext f g m : (forall k v, m !! k = Some v -> f k v = g k v) -> map_total f m = map_total g m.
Proof.
  intros Heq. apply Z.le_antisymm; apply map_total_le; intros k v Hk; rewrite (Heq k v Hk); lia.
Qed.

Lemma map_total_nonneg f m : (forall k v, m !! k = Some v -> 0 <= f k v) -> 0 <= map_total f m.
Proof.
  intros Hf. transitivity (map_total (fun _ _ => 0) m).
  - induction m as [|k v m Hk IH] using map_ind; [done|]. rewrite map_total_insert by done.
    assert (0 <= map_total (fun _ _ => 0) m); [|lia]. apply IH. intros k' v' Hk'. apply (Hf k' v').
    rewrite lookup_insert_ne; [done|]. intros ->. by rewrite Hk in Hk'.
  - by apply map_total_le.
Qed.

End totals.

(** Keys of one table, values of another. *)
Lemma map_total_dominated `{Countable K} {V} (f : K -> V -> Z) (m : gmap K V) (bounds : gmap K Z) :
  (forall k z, bounds !! k = Some z -> 0 <= z) ->
  (forall k v, m !! k = Some v -> f k v <= default 0 (bounds !! k)) ->
  map_total f m <= map_total (fun _ z => z) bounds.
Proof.
  revert bounds. induction m as [|k v m Hk IH] using map_ind; intros bounds Hpos Hle.
  { change (map_total f ∅) with 0. by apply map_total_nonneg. }
  rewrite map_total_insert by done. pose proof (Hle k v (lookup_insert_eq _ _ _)) as Hv.
  assert (map_total f m <= map_total (fun _ z => z) (delete k bounds)) as Hrest.
  { apply IH.
    - intros k' z [_ Hz]%lookup_delete_Some. eauto.
    - intros k' v' Hk'. assert (k <> k') as Hne by (intros ->; by rewrite Hk in Hk').
      rewrite lookup_delete_ne by done. apply Hle. by rewrite lookup_insert_ne. }
  destruct (bounds !! k) as [z|] eqn:Hz; simpl in Hv.
  - rewrite (map_total_delete _ bounds k z Hz). lia.
  - rewrite delete_id in Hrest by done. lia.
Qed.

Lemma zsum_perm l k : l ≡ₚ k -> zsum l = zsum k.
Proof. induction 1; rewrite ?zsum_cons; lia. Qed.

Lemma map_total_by_key (m : gmap Z Z) : zsum (map snd (by_key m)) = map_total (fun _ z => z) m.
Proof.
  rewrite (zsum_perm _ (map snd (map_to_list m))) by (apply Permutation_map, by_key_perm).
  unfold map_total. rewrite map_fold_foldr. induction (map_to_list m) as [|[k z] l IH]; [done|].
  rewrite map_cons, zsum_cons, IH. done.
Qed.

Lemma checked_total_sum grants total :
  checked_total grants = Some total -> total = map_total (fun _ z => z) grants.
Proof.
  rewrite <- map_total_by_key. unfold checked_total. generalize (by_key grants). intros l.
  assert (forall acc, foldl (fun (total : option Z) (p : Z * Z) => total ≫= fun total => i64_checked_add total p.2) acc l
    = Some total -> exists a, acc = Some a /\ total = a + zsum (map snd l)) as Hfold.
  { induction l as [|[k z] l IH]; intros acc; cbn [foldl map].
    - intros ->. exists total. split; [done|]. rewrite zsum_nil. lia.
    - intros (a & Ha & Ht)%IH. destruct acc as [b|]; [|done]. cbn in Ha. unfold i64_checked_add in Ha.
      destruct (_ && _); [|done]. injection Ha as <-. exists b. rewrite zsum_cons. split; [done|]. cbn. lia. }
  intros (a & [= <-] & ->)%Hfold. lia.
Qed.

(** ** The rows of a campaign *)

Lemma lookup_grants_of c d r g : grants_of c d !! r = Some g <-> budgets d !! r = Some (c, g).
Proof.
  unfold grants_of. rewrite lookup_omap. destruct (budgets d !! r) as [[c' g']|]; cbn; [|done].
  case_bool_decide; naive_solver.
Qed.

Lemma grants_of_ext c d d' :
  (forall r g, budgets d !! r = Some (c, g) <-> budgets d' !! r = Some (c, g)) -> grants_of c d = grants_of c d'.
Proof.
  intros Hext. apply map_eq. intros r. apply option_eq. intros g. rewrite !lookup_grants_of. apply Hext.
Qed.

Lemma lookup_seed c d r :
  budgets (seed_budgets c d) !! r =
  match budgets d !! r with
  | Some row => Some row
  | None => if decide (parents d !! r = Some c) then Some (c, produced_of r d) else None
  end.
Proof.
  unfold seed_budgets, children. cbn [budgets set_budgets]. rewrite lookup_union, map_lookup_imap.
  destruct (budgets d !! r) as [row|]; cbn.
  { by destruct (filter _ _ !! r). }
  rewrite map_lookup_filter. destruct (parents d !! r) as [c'|]; cbn; [|by case_decide].
  repeat case_guard; repeat case_decide; cbn; naive_solver.
Qed.

Lemma lookup_reclaim c d r :
  budgets (reclaim_budgets c d) !! r =
  (fun row : i64 * i64 => (row.1, if bool_decide (row.1 = c) && all_completed r d then produced_of r d else row.2))
    <$> budgets d !! r.
Proof.
  unfold reclaim_budgets. cbn [budgets set_budgets]. rewrite map_lookup_imap. by destruct (budgets d !! r) as [[]|].
Qed.

(** ** The samplers of a fleet

    The database and the running samplers: a run has at most one, on the task
    [live] names, with its own count of produced samples. *)

Record Fleet := mkFleet {
  db : BudgetDB;
  live : gmap i32 (i64 * i64)
}.

(** The samples a run has really drawn. *)
Definition actual (run : i32) (s : Fleet) : Z :=
  match live s !! run with
  | Some (task, produced) => produced + produced_elsewhere run task (db s)
  | None => produced_of run (db s)
  end.

Definition set_task (task : i64) (row : TaskCount) (d : BudgetDB) : BudgetDB :=
  mkBudgetDB (campaigns d) (parents d) (<[task := row]> (tasks d)) (budgets d).

Inductive fleet_step : Fleet -> Fleet -> Prop :=
| step_allocate d l campaign requests :
    fleet_step (mkFleet d l) (mkFleet (allocate_campaign_samples campaign requests d).1 l)
| step_start d l run task row n :
    (** a sampler restores a checkpoint at or below the count of the task *)
    tasks d !! task = Some row -> tc_run row = run -> tc_completed row = false -> l !! run = None ->
    0 <= n <= tc_produced row ->
    fleet_step (mkFleet d l) (mkFleet (set_task task (mkTaskCount run n false) d) (<[run := (task, n)]> l))
| step_draw d l run task n n' :
    (** the runner draws up to its allowance *)
    l !! run = Some (task, n) -> n <= n' ->
    (forall allowance, campaign_sample_allowance run task d = Some allowance -> n' <= Z.max n allowance) ->
    fleet_step (mkFleet d l) (mkFleet d (<[run := (task, n')]> l))
| step_sync d l run task n :
    l !! run = Some (task, n) ->
    fleet_step (mkFleet d l) (mkFleet (set_task task (mkTaskCount run n false) d) l)
| step_complete d l run task n :
    l !! run = Some (task, n) ->
    fleet_step (mkFleet d l) (mkFleet (set_task task (mkTaskCount run n true) d) (delete run l))
| step_stop d l run :
    (** released, or lost with its node *)
    fleet_step (mkFleet d l) (mkFleet d (delete run l))
| step_add_task d l run task :
    tasks d !! task = None ->
    fleet_step (mkFleet d l) (mkFleet (set_task task (mkTaskCount run 0 false) d) l)
| step_add_child d l run parent :
    parents d !! run = None -> budgets d !! run = None -> l !! run = None -> tasks_of run d = ∅ ->
    fleet_step (mkFleet d l)
      (mkFleet (mkBudgetDB (campaigns d) (<[run := parent]> (parents d)) (tasks d) (budgets d)) l)
| step_add_campaign d l campaign limit active :
    campaigns d !! campaign = None -> (forall run, parents d !! run <> Some campaign) -> 0 <= default i64_max limit ->
    fleet_step (mkFleet d l)
      (mkFleet (mkBudgetDB (<[campaign := (limit, active)]> (campaigns d)) (parents d) (tasks d) (budgets d)) l)
| step_set_active d l campaign limit active active' :
    campaigns d !! campaign = Some (limit, active) ->
    fleet_step (mkFleet d l)
      (mkFleet (mkBudgetDB (<[campaign := (limit, active')]> (campaigns d)) (parents d) (tasks d) (budgets d)) l).

(** ** Counting the samples of a run *)

Lemma tasks_of_set run task row d :
  (forall old, tasks d !! task = Some old -> tc_run old = tc_run row) ->
  tasks_of run (set_task task row d) = if decide (tc_run row = run) then <[task := row]> (tasks_of run d) else tasks_of run d.
Proof.
  intros Hold. unfold tasks_of. cbn [tasks set_task]. case_decide as Hr.
  - by rewrite map_filter_insert_True.
  - apply map_filter_insert_not'; [done|]. intros old Ht%Hold. cbn. congruence.
Qed.

Lemma elsewhere_set run task row d :
  (forall old, tasks d !! task = Some old -> tc_run old = tc_run row) ->
  produced_elsewhere run task (set_task task row d) = produced_elsewhere run task d.
Proof.
  intros Hold. unfold produced_elsewhere. rewrite tasks_of_set by done. case_decide; [|done].
  by rewrite delete_insert_eq.
Qed.

Lemma produced_of_at run task row d :
  tasks d !! task = Some row -> tc_run row = run -> produced_of run d = tc_produced row + produced_elsewhere run task d.
Proof.
  intros Ht Hr. unfold produced_of, produced_elsewhere.
  apply (map_total_delete (fun _ t => tc_produced t) _ task row).
  unfold tasks_of. by apply map_lookup_filter_Some.
Qed.

Lemma actual_other run d d' l l' : tasks_of run d' = tasks_of run d -> l' !! run = l !! run ->
  actual run (mkFleet d' l') = actual run (mkFleet d l).
Proof. intros Ht Hl. unfold actual, produced_elsewhere, produced_of. cbn. by rewrite Ht, Hl. Qed.

(** ** Accounts

    A grant belongs to a child, is never negative, and covers what the child has
    really drawn; the database never knows of more samples than were drawn. *)

Record accounts (l : gmap i32 (i64 * i64)) (d : BudgetDB) : Prop := {
  ac_rows run c g : budgets d !! run = Some (c, g) -> parents d !! run = Some c /\ is_Some (campaigns d !! c) /\ 0 <= g;
  ac_counts task row : tasks d !! task = Some row -> 0 <= tc_produced row;
  ac_live run task n : l !! run = Some (task, n) ->
    exists row, tasks d !! task = Some row /\ tc_run row = run /\ tc_completed row = false /\ tc_produced row <= n;
  ac_grant run c : parents d !! run = Some c -> is_Some (campaigns d !! c) -> actual run (mkFleet d l) <= granted run d
}.

Definition capped (d : BudgetDB) : Prop :=
  forall c limit active, campaigns d !! c = Some (limit, active) ->
    map_total (fun _ z => z) (grants_of c d) <= default i64_max limit.

Section accounts.
Context (l : gmap i32 (i64 * i64)).

Lemma produced_of_nonneg run d : accounts l d -> 0 <= produced_of run d.
Proof.
  intros Ha. apply map_total_nonneg. intros t row [Ht _]%map_lookup_filter_Some. by eapply ac_counts.
Qed.

Lemma actual_completed run d : accounts l d -> all_completed run d = true -> actual run (mkFleet d l) = produced_of run d.
Proof.
  intros Ha Hc%bool_decide_eq_true. unfold actual. cbn. destruct (l !! run) as [[t n]|] eqn:Hl; [|done].
  apply (ac_live l d Ha) in Hl as (row & Ht & Hr & Hopen & _).
  exfalso. assert (tc_completed row = true); [|congruence].
  apply (Hc t). unfold tasks_of. by apply map_lookup_filter_Some.
Qed.

(** Changing only the budgets. *)
Lemma accounts_regrant d (b : gmap i32 (i64 * i64)) :
  accounts l d ->
  (forall run c g, b !! run = Some (c, g) -> parents d !! run = Some c /\ is_Some (campaigns d !! c) /\ 0 <= g) ->
  (forall run c, parents d !! run = Some c -> is_Some (campaigns d !! c) ->
     actual run (mkFleet d l) <= granted run (set_budgets b d)) ->
  accounts l (set_budgets b d).
Proof. intros Ha Hrows Hgrant. split; [done|apply (ac_counts l d Ha)|apply (ac_live l d Ha)|done]. Qed.

Lemma accounts_seed c d : is_Some (campaigns d !! c) -> accounts l d -> accounts l (seed_budgets c d).
Proof.
  intros Hc Ha. apply accounts_regrant; [done|intros run c' g Hrow|intros run c' Hp Hc'].
  - change (budgets (seed_budgets c d) !! run = Some (c', g)) in Hrow. rewrite lookup_seed in Hrow.
    destruct (budgets d !! run) eqn:Hb; simplify_eq; [by eapply ac_rows|]. case_decide; simplify_eq.
    split_and!; [done..|by apply produced_of_nonneg].
  - pose proof (ac_grant l d Ha run c' Hp Hc') as Hg. revert Hg.
    change (actual run (mkFleet d l) <= granted run d -> actual run (mkFleet d l) <= granted run (seed_budgets c d)).
    unfold granted. rewrite lookup_seed. destruct (budgets d !! run) as [[]|] eqn:Hb; [done|].
    case_decide; [|done]. pose proof (produced_of_nonneg run d Ha). lia.
Qed.

Lemma accounts_reclaim c d : accounts l d -> accounts l (reclaim_budgets c d).
Proof.
  intros Ha. apply accounts_regrant; [done|intros run c' g Hrow|intros run c' Hp Hc'].
  - change (budgets (reclaim_budgets c d) !! run = Some (c', g)) in Hrow. rewrite lookup_reclaim in Hrow.
    apply fmap_Some in Hrow as ([c0 g0] & Hb & Heq). cbn in Heq. injection Heq as -> ->.
    apply (ac_rows l d Ha) in Hb as (? & ? & ?). split_and!; [done..|].
    destruct (_ && _); [by apply produced_of_nonneg|done].
  - pose proof (ac_grant l d Ha run c' Hp Hc') as Hg. revert Hg.
    change (actual run (mkFleet d l) <= granted run d -> actual run (mkFleet d l) <= granted run (reclaim_budgets c d)).
    unfold granted. rewrite lookup_reclaim. destruct (budgets d !! run) as [[c0 g0]|] eqn:Hb; cbn; [|done].
    destruct (bool_decide (c0 = c)); cbn; [|done].
    destruct (all_completed run d) eqn:Hall; [|done]. rewrite (actual_completed run d) by done. done.
Qed.

Lemma seed_other c c' d : c <> c' -> grants_of c' (seed_budgets c d) = grants_of c' d.
Proof.
  intros Hne. apply grants_of_ext. intros run g. rewrite lookup_seed.
  destruct (budgets d !! run); [done|]. case_decide; naive_solver.
Qed.

Lemma reclaim_other c c' d : c <> c' -> grants_of c' (reclaim_budgets c d) = grants_of c' d.
Proof.
  intros Hne. apply grants_of_ext. intros run g. rewrite lookup_reclaim.
  destruct (budgets d !! run) as [[c0 g0]|]; cbn; [|done]. case_bool_decide; cbn; naive_solver.
Qed.
End accounts.

(** ** Allocation keeps the accounts *)

Definition same_tables (d d' : BudgetDB) : Prop :=
  campaigns d' = campaigns d /\ parents d' = parents d /\ tasks d' = tasks d.

Lemma grants_of_raise c d r g g' :
  grants_of c d !! r = Some g ->
  grants_of c (set_budgets (alter (fun row : i64 * i64 => (row.1, g')) r (budgets d)) d) = <[r := g']> (grants_of c d).
Proof.
  intros Hg%lookup_grants_of. apply map_eq. intros r'. apply option_eq. intros z. rewrite lookup_grants_of. cbn.
  destruct (decide (r' = r)) as [->|Hne].
  - rewrite lookup_alter_eq, Hg, lookup_insert_eq. cbn. naive_solver.
  - rewrite lookup_alter_ne, lookup_insert_ne, lookup_grants_of by done. done.
Qed.

Lemma grant_requests_ok l c requests grants remaining d d' res :
  accounts l d -> grants = grants_of c d -> 0 <= remaining ->
  grant_requests requests grants remaining d = (d', Ok res) ->
  accounts l d' /\ same_tables d d' /\ res = grants_of c d' /\ (forall c', c <> c' -> grants_of c' d' = grants_of c' d)
  /\ map_total (fun _ z => z) res <= map_total (fun _ z => z) grants + remaining
  /\ (forall r g, grants !! r = Some g -> exists g', res !! r = Some g' /\ g <= g').
Proof.
  revert grants remaining d. induction requests as [|[child want] requests IH]; intros grants remaining d Ha -> Hr Hrun.
  { injection Hrun as <- <-. split_and!; [done..|lia|]. intros r g Hg. exists g. by split. }
  cbn [grant_requests] in Hrun. destruct (grants_of c d !! child) as [grant|] eqn:Hg; [|done].
  set (extra := Z.min _ remaining) in *. assert (0 <= extra <= remaining) as Hextra by lia.
  destruct (extra =? 0); [by eapply IH|].
  set (b := alter _ _ _) in *. pose proof (proj1 (lookup_grants_of _ _ _ _) Hg) as Hrow.
  apply IH in Hrun as (Ha' & (Hs1 & Hs2 & Hs3) & -> & Hother & Htotal & Hmono); [| |by symmetry; apply (grants_of_raise c d child grant)|lia].
  - rewrite (map_total_alter (fun _ z => z) _ _ _ _ Hg) in Htotal. split_and!; [done..| |lia|].
    + intros c' Hne. rewrite (Hother c' Hne). apply grants_of_ext. intros r g. unfold b. cbn.
      destruct (decide (r = child)) as [->|]; [|by rewrite lookup_alter_ne].
      rewrite lookup_alter_eq, Hrow. cbn. naive_solver.
    + intros r g Hrg. destruct (decide (r = child)) as [->|].
      * destruct (Hmono child (grant + extra)) as (g' & ? & ?); [apply lookup_insert_eq|]. exists g'. split; [done|].
        rewrite Hg in Hrg. injection Hrg as <-. lia.
      * apply Hmono. by rewrite lookup_insert_ne.
  - apply accounts_regrant; [done|intros run c' g|intros run c' Hp Hc'].
    + unfold b. destruct (decide (run = child)) as [->|]; [|rewrite lookup_alter_ne by done; by apply ac_rows with l].
      rewrite lookup_alter_eq, Hrow. cbn. intros [= <- <-]. apply (ac_rows l d Ha) in Hrow as (? & ? & ?).
      split_and!; [done..|lia].
    + etrans; [by apply (ac_grant l d Ha run c')|]. unfold granted, b. cbn.
      destruct (decide (run = child)) as [->|]; [|by rewrite lookup_alter_ne]. rewrite lookup_alter_eq, Hrow. cbn. lia.
Qed.

Lemma allocate_accounts l c requests d :
  accounts l d -> capped d ->
  let d' := (allocate_campaign_samples c requests d).1 in accounts l d' /\ capped d'.
Proof.
  intros Ha Hcap. unfold allocate_campaign_samples. destruct (allocate_tx c requests d) as [d' [res|e]] eqn:Htx; [|done].
  cbn. unfold allocate_tx in Htx. destruct (campaigns d !! c) as [[limit active]|] eqn:Hc; [|done].
  set (d1 := reclaim_budgets c (seed_budgets c d)) in *.
  destruct (checked_total (grants_of c d1)) as [total|] eqn:Hsum; [|done]. apply checked_total_sum in Hsum.
  destruct (Z.ltb_spec (default i64_max limit) total) as [|Hle]; [done|].
  assert (accounts l d1) as Ha1 by (apply accounts_reclaim, accounts_seed; [by rewrite Hc|done]).
  assert (forall c', c <> c' -> grants_of c' d1 = grants_of c' d) as Hother1.
  { intros c' Hne. unfold d1. by rewrite reclaim_other, seed_other. }
  assert (accounts l d' /\ campaigns d' = campaigns d /\ (forall c', c <> c' -> grants_of c' d' = grants_of c' d)
    /\ map_total (fun _ z => z) (grants_of c d') <= default i64_max limit) as (Ha' & Hcs & Hother & Htotal).
  { destruct active.
    - eapply grant_requests_ok in Htx as (? & (? & _) & -> & Hother & Htotal & _); [|done..|lia].
      split_and!; [done..| |lia]. intros c' Hne. by rewrite Hother, Hother1.
    - injection Htx as <- <-. split_and!; [done..|lia]. }
  split; [done|]. intros c' limit' active' Hc'. rewrite Hcs in Hc'. destruct (decide (c = c')) as [<-|Hne].
  - rewrite Hc in Hc'. injection Hc' as <- <-. done.
  - rewrite (Hother c' Hne). by eapply Hcap.
Qed.

(** ** Every step keeps the accounts *)

Lemma elsewhere_nonneg l run task d : accounts l d -> 0 <= produced_elsewhere run task d.
Proof.
  intros Ha. apply map_total_nonneg. intros t row [_ [Ht _]%map_lookup_filter_Some]%lookup_delete_Some.
  by eapply ac_counts.
Qed.

(** Changing only the count of one task and the sampler of its run. *)
Lemma accounts_set_task l l' d task row :
  accounts l d -> 0 <= tc_produced row ->
  (forall old, tasks d !! task = Some old -> tc_run old = tc_run row) ->
  (forall run, run <> tc_run row -> l' !! run = l !! run) ->
  (forall t n, l' !! tc_run row = Some (t, n) ->
     exists r, tasks (set_task task row d) !! t = Some r /\ tc_run r = tc_run row /\ tc_completed r = false /\ tc_produced r <= n) ->
  actual (tc_run row) (mkFleet (set_task task row d) l') <= actual (tc_run row) (mkFleet d l) ->
  accounts l' (set_task task row d).
Proof.
  intros Ha Hpos Hold Hl Hlive Hact. split.
  - apply (ac_rows l d Ha).
  - intros t r. cbn. destruct (decide (t = task)) as [->|]; [rewrite lookup_insert_eq; naive_solver|].
    rewrite lookup_insert_ne by done. apply (ac_counts l d Ha).
  - intros run t n. destruct (decide (run = tc_run row)) as [->|Hne]; [apply Hlive|]. rewrite Hl by done.
    intros (r & Ht & Hr & ? & ?)%(ac_live l d Ha). exists r. cbn. rewrite lookup_insert_ne; [done|].
    intros ->. apply Hold in Ht. congruence.
  - intros run c Hp Hc. etrans; [|by apply (ac_grant l d Ha run c)].
    destruct (decide (run = tc_run row)) as [->|Hne]; [done|]. apply Z.eq_le_incl, actual_other; [|by apply Hl].
    rewrite tasks_of_set by done. by case_decide.
Qed.

Section steps.
Context (l : gmap i32 (i64 * i64)) (d : BudgetDB) (Ha : accounts l d).

Lemma accounts_start run task row n :
  tasks d !! task = Some row -> tc_run row = run -> tc_completed row = false -> l !! run = None -> 0 <= n <= tc_produced row ->
  accounts (<[run := (task, n)]> l) (set_task task (mkTaskCount run n false) d).
Proof.
  intros Ht Hr Hopen Hl Hn. eapply (accounts_set_task l); [done|cbn; lia|..]; cbn [tc_run].
  - naive_solver.
  - intros run' Hne. by rewrite lookup_insert_ne.
  - intros t m. rewrite lookup_insert_eq. intros [= <- <-]. eexists. cbn. by rewrite lookup_insert_eq.
  - unfold actual. cbn [live db]. rewrite lookup_insert_eq, Hl, elsewhere_set by naive_solver.
    rewrite (produced_of_at run task row) by done. lia.
Qed.

Lemma accounts_draw run task n n' :
  l !! run = Some (task, n) -> n <= n' ->
  (forall allowance, campaign_sample_allowance run task d = Some allowance -> n' <= Z.max n allowance) ->
  accounts (<[run := (task, n')]> l) d.
Proof.
  intros Hl Hle Hallow. destruct Ha as [Hrows Hcounts Hlive Hgrant]. split; [done|done| |].
  - intros run' t m. destruct (decide (run' = run)) as [->|]; [|rewrite lookup_insert_ne by done; apply Hlive].
    rewrite lookup_insert_eq. intros [= <- <-]. destruct (Hlive _ _ _ Hl) as (r & ? & ? & ? & ?).
    exists r. split_and!; [done..|lia].
  - intros run' c Hp Hc. pose proof (Hgrant run' c Hp Hc) as Hg. unfold actual in *. cbn [live db] in *.
    destruct (decide (run' = run)) as [->|]; [|by rewrite lookup_insert_ne].
    rewrite lookup_insert_eq. rewrite Hl in Hg. unfold campaign_sample_allowance in Hallow. rewrite Hp in Hallow.
    destruct Hc as [row Hc]. cbn in Hallow. rewrite Hc in Hallow. specialize (Hallow _ eq_refl). lia.
Qed.

Lemma accounts_sync run task n : l !! run = Some (task, n) -> accounts l (set_task task (mkTaskCount run n false) d).
Proof.
  intros Hl. destruct (ac_live l d Ha _ _ _ Hl) as (row & Ht & <- & Hopen & Hn).
  pose proof (ac_counts l d Ha _ _ Ht). eapply (accounts_set_task l); [done|cbn; lia|..]; cbn [tc_run].
  - naive_solver.
  - done.
  - intros t m. rewrite Hl. intros [= <- <-]. eexists. cbn. by rewrite lookup_insert_eq.
  - unfold actual. cbn [live db]. by rewrite Hl, elsewhere_set by naive_solver.
Qed.

Lemma accounts_complete run task n :
  l !! run = Some (task, n) -> accounts (delete run l) (set_task task (mkTaskCount run n true) d).
Proof.
  intros Hl. destruct (ac_live l d Ha _ _ _ Hl) as (row & Ht & <- & Hopen & Hn).
  pose proof (ac_counts l d Ha _ _ Ht). eapply (accounts_set_task l); [done|cbn; lia|..]; cbn [tc_run].
  - naive_solver.
  - intros run' Hne. by rewrite lookup_delete_ne.
  - intros t m. by rewrite lookup_delete_eq.
  - unfold actual. cbn [live db]. rewrite Hl, lookup_delete_eq.
    erewrite produced_of_at; [|apply lookup_insert_eq|done]. cbn [tc_produced]. by rewrite elsewhere_set by naive_solver.
Qed.

Lemma accounts_stop run : accounts (delete run l) d.
Proof.
  destruct Ha as [Hrows Hcounts Hlive Hgrant]. split; [done|done| |].
  - intros run' t m [_ Hl]%lookup_delete_Some. eauto.
  - intros run' c Hp Hc. pose proof (Hgrant run' c Hp Hc) as Hg. unfold actual in *. cbn [live db] in *.
    destruct (decide (run' = run)) as [->|]; [|by rewrite lookup_delete_ne]. rewrite lookup_delete_eq.
    destruct (l !! run) as [[t n]|] eqn:Hl; [|done]. destruct (Hlive _ _ _ Hl) as (row & Ht & Hr & _ & ?).
    rewrite (produced_of_at run t row) by done. lia.
Qed.

Lemma actual_new_task run task :
  tasks d !! task = None -> actual run (mkFleet (set_task task (mkTaskCount run 0 false) d) l) = actual run (mkFleet d l).
Proof.
  intros Ht. assert (tasks_of run d !! task = None) as Hnone by (apply map_lookup_filter_None; by left).
  unfold actual. cbn [live db]. destruct (l !! run) as [[t n]|] eqn:Hl.
  - destruct (ac_live l d Ha _ _ _ Hl) as (r & Htr & _). unfold produced_elsewhere.
    rewrite tasks_of_set by naive_solver. cbn. rewrite decide_True by done.
    rewrite delete_insert_ne by congruence. rewrite map_total_insert; [cbn; lia|]. apply lookup_delete_None. by right.
  - unfold produced_of. rewrite tasks_of_set by naive_solver. cbn. rewrite decide_True by done.
    rewrite map_total_insert by done. cbn. lia.
Qed.

Lemma accounts_add_task run task :
  tasks d !! task = None -> accounts l (set_task task (mkTaskCount run 0 false) d).
Proof.
  intros Ht. eapply (accounts_set_task l); [done|done|..]; cbn [tc_run]; [naive_solver|done| |by rewrite actual_new_task].
  intros t m Hl. destruct (ac_live l d Ha _ _ _ Hl) as (r & Htr & ? & ? & ?). exists r. cbn.
  rewrite lookup_insert_ne by congruence. done.
Qed.

Lemma accounts_add_child run parent :
  parents d !! run = None -> budgets d !! run = None -> l !! run = None -> tasks_of run d = ∅ ->
  accounts l (mkBudgetDB (campaigns d) (<[run := parent]> (parents d)) (tasks d) (budgets d)).
Proof.
  intros Hp Hb Hl Ht. destruct Ha as [Hrows Hcounts Hlive Hgrant]. split; [|done|done|].
  - intros run' c g Hrow. cbn in Hrow. destruct (Hrows _ _ _ Hrow) as (Hp' & ? & ?). cbn.
    rewrite lookup_insert_ne by congruence. done.
  - intros run' c. cbn. destruct (decide (run' = run)) as [->|].
    + rewrite lookup_insert_eq. intros _ _. unfold actual, granted, produced_of. cbn.
      rewrite Hl, Hb. change (tasks_of run _) with (tasks_of run d). by rewrite Ht.
    + rewrite lookup_insert_ne by done. apply (Hgrant run').
Qed.

Lemma accounts_add_campaign c row :
  campaigns d !! c = None -> (forall run, parents d !! run <> Some c) ->
  accounts l (mkBudgetDB (<[c := row]> (campaigns d)) (parents d) (tasks d) (budgets d)).
Proof.
  intros Hc Hnone. destruct Ha as [Hrows Hcounts Hlive Hgrant]. split; [|done|done|].
  - intros run' c' g Hrow. cbn in Hrow. destruct (Hrows _ _ _ Hrow) as (Hp' & ? & ?). cbn.
    rewrite lookup_insert_ne; [done|]. intros ->. by eapply Hnone.
  - intros run' c' Hp Hc'. cbn in Hp, Hc'. apply (Hgrant run' c'); [done|].
    rewrite lookup_insert_ne in Hc'; [done|]. intros ->. by eapply Hnone.
Qed.

Lemma capped_add_campaign c limit active :
  (forall run, parents d !! run <> Some c) -> 0 <= default i64_max limit -> capped d ->
  capped (mkBudgetDB (<[c := (limit, active)]> (campaigns d)) (parents d) (tasks d) (budgets d)).
Proof.
  intros Hnone Hlim Hcap c' limit' active'. cbn. destruct (decide (c' = c)) as [->|].
  - rewrite lookup_insert_eq. intros [= <- <-].
    match goal with |- map_total _ ?g <= _ => assert (g = ∅) as ->; [|done] end.
    apply map_empty. intros r. apply eq_None_not_Some. intros [g Hg%lookup_grants_of].
    apply (ac_rows l d Ha) in Hg as (? & _). by eapply Hnone.
  - rewrite lookup_insert_ne by done. apply Hcap.
Qed.

Lemma accounts_set_active c limit active active' :
  campaigns d !! c = Some (limit, active) -> capped d ->
  let d' := mkBudgetDB (<[c := (limit, active')]> (campaigns d)) (parents d) (tasks d) (budgets d) in
  accounts l d' /\ capped d'.
Proof.
  intros Hc Hcap. assert (forall c' : Z, is_Some (<[c := (limit, active')]> (campaigns d) !! c') <-> is_Some (campaigns d !! c')) as Hsome.
  { intros c'. destruct (decide (c' = c)) as [->|]; [|by rewrite lookup_insert_ne].
    rewrite lookup_insert_eq, Hc. split; eauto. }
  destruct Ha as [Hrows Hcounts Hlive Hgrant]. split; [split; [|done|done|]|].
  - intros run' c' g Hrow. cbn. rewrite Hsome. by apply Hrows.
  - intros run' c' Hp Hc'. cbn in Hp, Hc'. rewrite Hsome in Hc'. by apply (Hgrant run' c').
  - intros c' limit' a'. cbn. destruct (decide (c' = c)) as [->|]; [|rewrite lookup_insert_ne by done; apply Hcap].
    rewrite lookup_insert_eq. intros [= <- <-]. by eapply Hcap.
Qed.
End steps.

Definition accounted (s : Fleet) : Prop := accounts (live s) (db s) /\ capped (db s).

Lemma step_keeps_accounts s s' : accounted s -> fleet_step s s' -> accounted s'.
Proof.
  intros [Ha Hcap] Hstep. destruct Hstep; unfold accounted; cbn [live db] in *.
  - by apply allocate_accounts.
  - split; [by eapply accounts_start|exact Hcap].
  - split; [by eapply accounts_draw|exact Hcap].
  - split; [by apply accounts_sync|exact Hcap].
  - split; [by apply accounts_complete|exact Hcap].
  - split; [by apply accounts_stop|exact Hcap].
  - split; [by apply accounts_add_task|exact Hcap].
  - split; [by apply accounts_add_child|exact Hcap].
  - split; [by apply accounts_add_campaign|by eapply capped_add_campaign].
  - by eapply accounts_set_active.
Qed.

(** Before any campaign ran: nothing produced, granted or running. *)
Definition fresh (s : Fleet) : Prop :=
  live s = ∅ /\ budgets (db s) = ∅ /\ map_Forall (fun _ row => tc_produced row = 0) (tasks (db s)) /\
  map_Forall (fun _ row => 0 <= default i64_max row.1) (campaigns (db s)).

Lemma fresh_accounted s : fresh s -> accounted s.
Proof.
  destruct s as [d l]. intros (Hl & Hb & Ht & Hc). cbn in *. subst l. split; [split|]; cbn [live db].
  - intros run c g. by rewrite Hb.
  - intros t row Hrow%Ht. cbn in Hrow. lia.
  - done.
  - intros run c _ _. unfold actual, granted, produced_of. cbn. rewrite Hb, !lookup_empty.
    rewrite (map_total_ext _ (fun _ _ => 0)); [|intros t row [Hrow%Ht _]%map_lookup_filter_Some; exact Hrow].
    induction (tasks_of run d) as [|k v m Hk IH] using map_ind; [done|].
    rewrite map_total_insert by done. lia.
  - intros c limit active Hrow. unfold grants_of. rewrite Hb, omap_empty. apply (Hc _ _ Hrow).
Qed.

(** C6: The sample cap of a campaign holds for the samples its children have
    really drawn, at every moment of every execution: through any interleaving of
    allocations, sampler starts and crashes, draws up to the allowance read from
    the database, progress syncs that lag behind the samplers, completions whose
    unused grants are reclaimed, new tasks, new children and new campaigns. *)
Theorem campaign_cap_respected (s0 s : Fleet) (c : i64) (limit : option i64) (active : bool)
  (Hfresh : fresh s0) (Hrun : steps fleet_step s0 s) (Hc : campaigns (db s) !! c = Some (limit, active)) :
  map_total (fun run _ => actual run s) (children c (db s)) <= default i64_max limit.
Proof.
  assert (accounted s) as [Ha Hcap].
  { eapply steps_invariant; [apply step_keeps_accounts|by apply fresh_accounted|done]. }
  etrans; [|by eapply Hcap]. destruct s as [d l]. cbn [live db] in *. apply map_total_dominated.
  - intros r g Hg%lookup_grants_of. by apply (ac_rows l d Ha) in Hg as (_ & _ & ?).
  - intros r c' [Hp Heq]%map_lookup_filter_Some. cbn in Heq. subst c'.
    etrans; [apply (ac_grant l d Ha r c Hp); by eauto|]. unfold granted.
    destruct (budgets d !! r) as [[c' g]|] eqn:Hb.
    + destruct (ac_rows l d Ha _ _ _ Hb) as (Hp' & _ & Hg). rewrite Hp in Hp'. injection Hp' as <-.
      apply lookup_grants_of in Hb. by rewrite Hb.
    + destruct (grants_of c d !! r) eqn:Hg; [|done]. apply lookup_grants_of in Hg. congruence.
Qed.

(** A campaign of cap 100 with one child: a first allocation grants 60, the
    sampler of the child draws all 60. *)
Definition cap_example : Fleet :=
  mkFleet (mkBudgetDB {[7 := (Some 100, true)]} ∅ ∅ ∅) ∅.
Definition cap_example_child : BudgetDB :=
  mkBudgetDB {[7 := (Some 100, true)]} {[1 := 7]} {[5 := mkTaskCount 1 0 false]} ∅.
Definition cap_example_granted : BudgetDB := (allocate_campaign_samples 7 [(1, 60)] cap_example_child).1.

Lemma campaign_cap_respected_witness :
  exists s, steps fleet_step cap_example s /\ actual 1 s = 60 /\
    map_total (fun run _ => actual run s) (children 7 (db s)) <= 100.
Proof.
  assert (fresh cap_example) as Hfresh.
  { split_and!; [done|done|apply map_Forall_empty|]. by apply map_Forall_singleton. }
  exists (mkFleet cap_example_granted (<[1 := (5, 60)]> {[1 := (5, 0)]})).
  assert (steps fleet_step cap_example (mkFleet cap_example_granted (<[1 := (5, 60)]> {[1 := (5, 0)]}))) as Hrun.
  { eapply steps_step; [eapply steps_step; [eapply steps_step; [eapply steps_step; [eapply steps_step; [apply steps_refl|]|]|]|]|].
    - by apply (step_add_child _ _ 1 7).
    - by apply (step_add_task _ _ 1 5).
    - apply (step_start _ _ 1 5 (mkTaskCount 1 0 false) 0); try done.
    - apply (step_allocate _ _ 7 [(1, 60)]).
    - eapply (step_draw _ _ 1 5 0 60); [reflexivity|lia|]. intros a Hallow. vm_compute in Hallow. injection Hallow as <-. done. }
  split_and!; [exact Hrun|reflexivity|].
  apply (campaign_cap_respected cap_example _ 7 (Some 100) true Hfresh Hrun). reflexivity.
Defined.
