(* ===== verification/Assignments.v ===== *)
(** src/runners/controller_child.rs: how a controller (integration campaign,
    parameter scan, hyperparameter tuning) shares the nodes of its worker pool
    between the child runs it selected.

    A plan is computed from one snapshot of the nodes and published as
    conditional updates. Placements below a direct child are seen as placements
    on that child (its branch). Maps and sets iterate in key order as the
    BTreeMap and BTreeSet of the source do. *)
From S2P Require Import Prelude WorkQueue.

(** ** Data *)

Record AssignmentTarget := mkTarget { role : WorkerRole; run_id : i32 }.
#[export] Instance AssignmentTarget_eq_dec : EqDecision AssignmentTarget.
Proof. solve_decision. Defined.

(** The columns of [RegisteredNode] a plan reads. *)
Record RegisteredNode := mkNode {
  node_name : string;
  node_uuid : string;
  desired_assignment : option AssignmentTarget
}.

Record NodeAssignmentUpdate := mkUpdate {
  up_uuid : string;
  expected : option AssignmentTarget;
  desired : option AssignmentTarget
}.

Record ControllerAssignmentPlan := mkPlan {
  parent_run_id : i32;
  selected_child_run_ids : list i32;
  branches : gmap i32 i32;
  controllers : gset i32
}.

Definition plan_new (parent : i32) (selected : list i32) : ControllerAssignmentPlan :=
  mkPlan parent selected (list_to_map ((fun id => (id, id)) <$> selected)) ∅.

(** The rows of [worker_pool_branches]: run, its direct child of the
    controller, and whether that child is a controller itself. *)
Definition add_branch (plan : ControllerAssignmentPlan) (row : i32 * i32 * bool) : ControllerAssignmentPlan :=
  match row with
  | (id, branch, controller) =>
      mkPlan (parent_run_id plan) (selected_child_run_ids plan) (<[id := branch]> (branches plan))
        (if controller then {[branch]} ∪ controllers plan else controllers plan)
  end.
Definition with_branches (rows : list (i32 * i32 * bool)) (plan : ControllerAssignmentPlan) : ControllerAssignmentPlan :=
  foldl add_branch plan rows.

(** ** Iteration in key order *)

Definition name_le {A} (a b : string * A) : Prop := String.leb a.1 b.1 = true.
#[export] Instance name_le_dec {A} : RelDecision (@name_le A).
Proof. intros a b. unfold Decision, name_le. destruct (String.leb a.1 b.1); [by left|by right]. Defined.

Definition by_name {A} (m : gmap string A) : list (string * A) := merge_sort name_le (map_to_list m).

Definition ascending (x : gset i32) : list i32 := merge_sort Z.le (elements x).

Abbreviation Placements := (gmap string AssignmentTarget).

(** ** The plan, pass by pass *)

(** Later duplicates of a selected child are dropped. *)
Fixpoint dedup (seen : gset i32) (ids : list i32) : list i32 :=
  match ids with
  | [] => []
  | id :: ids => if bool_decide (id ∈ seen) then dedup seen ids else id :: dedup ({[id]} ∪ seen) ids
  end.
Definition selected_of (plan : ControllerAssignmentPlan) : list i32 :=
  dedup ∅ (filter (fun id => is_Some (branches plan !! id)) (selected_child_run_ids plan)).

(** A placement as seen at the level of the controller. *)
Definition at_level (plan : ControllerAssignmentPlan) (t : AssignmentTarget) : AssignmentTarget :=
  mkTarget (role t) (default (run_id t) (branches plan !! run_id t)).

Definition placements (plan : ControllerAssignmentPlan) (nodes : list RegisteredNode) : Placements :=
  foldl (fun m node =>
    match desired_assignment node with
    | Some t => <[node_name node := at_level plan t]> m
    | None => m
    end) ∅ nodes.

Definition reusable (plan : ControllerAssignmentPlan) (t : AssignmentTarget) : bool :=
  bool_decide (run_id t = parent_run_id plan) || bool_decide (is_Some (branches plan !! run_id t)).

(** Samplers of children that are still selected stay where they are. *)
Definition keep_sampler (plan : ControllerAssignmentPlan) (selected : list i32) (st : Placements * gset i32)
    (entry : string * AssignmentTarget) : Placements * gset i32 :=
  let '(desired, activated) := st in
  let '(name, t) := entry in
  if bool_decide (role t = SamplerAggregator) && bool_decide (run_id t ∈ selected) then
    if bool_decide (run_id t ∉ activated) then (<[name := t]> desired, {[run_id t]} ∪ activated)
    else if bool_decide (run_id t ∈ controllers plan) then (<[name := t]> desired, activated)
    else st
  else st.

(** A free sampler for each selected child without one, in priority order; the
    samplers left over. *)
Fixpoint place_samplers (needing : list i32) (nodes : list string) (st : Placements * gset i32)
    : Placements * gset i32 * list string :=
  match needing, nodes with
  | id :: needing, name :: nodes =>
      place_samplers needing nodes (<[name := mkTarget SamplerAggregator id]> st.1, {[id]} ∪ st.2)
  | _, _ => (st, nodes)
  end.

(** Surplus samplers go round-robin to the selected nested controllers. *)
Fixpoint place_surplus (nested : list i32) (index : Z) (nodes : list string) (st : Placements * gset i32)
    : Placements * gset i32 :=
  match nodes with
  | [] => st
  | name :: nodes =>
      match zget nested (index mod zlen nested) with
      | Some id => place_surplus nested (index + 1) nodes (<[name := mkTarget SamplerAggregator id]> st.1, {[id]} ∪ st.2)
      | None => st
      end
  end.

(** How many of [count] evaluators each activated child gets. *)
Fixpoint shares (count k i : Z) (activated : list i32) : list (i32 * Z) :=
  match activated with
  | [] => []
  | id :: activated => (id, count / k + (if i <? count mod k then 1 else 0)) :: shares count k (i + 1) activated
  end.

(** An evaluator stays while its child needs it. *)
Definition keep_evaluator (current : Placements) (st : Placements * gmap i32 Z * list string) (name : string)
    : Placements * gmap i32 Z * list string :=
  let '(desired, needed, remaining) := st in
  match current !! name with
  | None => st
  | Some t =>
      match needed !! run_id t with
      | Some n =>
          if 0 <? n then (<[name := t]> desired, <[run_id t := n - 1]> needed, remaining)
          else (desired, needed, remaining ++ [name])
      | None => (desired, needed, remaining ++ [name])
      end
  end.

Fixpoint place_evaluators (names : list string) (targets : list i32) (desired : Placements) : Placements :=
  match names, targets with
  | name :: names, id :: targets => place_evaluators names targets (<[name := mkTarget Evaluator id]> desired)
  | _, _ => desired
  end.

(** The children in order, each as often as it needs an evaluator. *)
Definition spread (activated : list i32) (needed : gmap i32 Z) : list i32 :=
  id ← activated; replicate (Z.to_nat (default 0 (needed !! id))) id.

Definition share_evaluators (current : Placements) (evaluators : list string) (activated : list i32) (desired : Placements)
    : Placements :=
  match activated with
  | [] => desired
  | _ =>
      let needed : gmap i32 Z := list_to_map (shares (zlen evaluators) (zlen activated) 0 activated) in
      let '(desired, needed, remaining) := foldl (keep_evaluator current) (desired, needed, []) evaluators in
      place_evaluators remaining (spread activated needed) desired
  end.

Definition names_of (r : WorkerRole) (m : Placements) : list string :=
  (filter (fun p => role p.2 = r) (by_name m)).*1.

(** Which samplers work, and for which children. *)
Definition assign_samplers (plan : ControllerAssignmentPlan) (selected : list i32) (pool desired : Placements)
    : Placements * gset i32 :=
  let '(desired, activated) := foldl (keep_sampler plan selected) (desired, ∅) (by_name pool) in
  let samplers := filter (fun name => desired !! name = None) (names_of SamplerAggregator pool) in
  let needing := filter (fun id => id ∉ activated) selected in
  let '(desired, activated, surplus) := place_samplers needing samplers (desired, activated) in
  let nested := filter (fun id => id ∈ controllers plan) selected in
  match nested with
  | [] => (desired, activated)
  | _ => place_surplus nested 0 surplus (desired, activated)
  end.

Definition pool_of (plan : ControllerAssignmentPlan) (placed : Placements) : Placements :=
  filter (fun p => reusable plan p.2 = true) placed.
Definition others_of (plan : ControllerAssignmentPlan) (placed : Placements) : Placements :=
  filter (fun p => reusable plan p.2 = false) placed.

(** The wanted placements at the level of the controller; pool nodes without
    work wait at the controller itself. *)
Definition plan_desired (plan : ControllerAssignmentPlan) (placed : Placements) : Placements :=
  let selected := selected_of plan in
  let pool := pool_of plan placed in
  let desired :=
    match selected with
    | [] => others_of plan placed
    | _ =>
        let '(desired, activated) := assign_samplers plan selected pool (others_of plan placed) in
        share_evaluators pool (names_of Evaluator pool) (ascending activated) desired
    end in
  desired ∪ ((fun t => mkTarget (role t) (parent_run_id plan)) <$> pool).

(** A placement below a selected branch is kept when its branch is wanted. *)
Definition node_next (plan : ControllerAssignmentPlan) (node : RegisteredNode) (next : option AssignmentTarget)
    : option AssignmentTarget :=
  match desired_assignment node, next with
  | Some before, Some after =>
      if bool_decide (branches plan !! run_id before = Some (run_id after)) then Some (mkTarget (role after) (run_id before))
      else Some after
  | _, _ => next
  end.

(** Each wanted placement is taken once ([desired.remove]). *)
Fixpoint updates_for (plan : ControllerAssignmentPlan) (desired : Placements) (nodes : list RegisteredNode)
    : list NodeAssignmentUpdate :=
  match nodes with
  | [] => []
  | node :: nodes =>
      let next := node_next plan node (desired !! node_name node) in
      let rest := updates_for plan (delete (node_name node) desired) nodes in
      if bool_decide (desired_assignment node = next) then rest
      else mkUpdate (node_uuid node) (desired_assignment node) next :: rest
  end.

Definition controller_assignment_updates (nodes : list RegisteredNode) (plan : ControllerAssignmentPlan)
    : list NodeAssignmentUpdate :=
  updates_for plan (plan_desired plan (placements plan nodes)) nodes.

(** ** Association lists *)

Lemma NoDup_fst_unique {A B} (l : list (A * B)) x y1 y2 : NoDup l.*1 -> (x, y1) ∈ l -> (x, y2) ∈ l -> y1 = y2.
Proof.
  induction l as [|[x' y'] l IH]; [by intros _ ?%elem_of_nil|].
  intros [Hx Hnd]%NoDup_cons [[= <- <-]|H1]%elem_of_cons [[= H2]|H2]%elem_of_cons; [done| | |by apply IH].
  - destruct Hx. by apply (list_elem_of_fmap_2 fst) in H2.
  - destruct Hx. subst x. by apply (list_elem_of_fmap_2 fst) in H1.
Qed.

Lemma size_list_to_map `{Countable K} {A} (l : list (K * A)) : NoDup l.*1 -> size (list_to_map l : gmap K A) = length l.
Proof.
  induction l as [|[k x] l IH]; intros Hnd; [apply map_size_empty|]. apply NoDup_cons in Hnd as [Hk Hnd]. cbn.
  rewrite map_size_insert_None by (by apply not_elem_of_list_to_map). by rewrite IH.
Qed.

(** ** Sharing out evaluators *)

Definition to_evaluator (p : string * i32) : string * AssignmentTarget := (p.1, mkTarget Evaluator p.2).

Section sharing.
Implicit Types (activated : list i32) (needed : gmap i32 Z).

Lemma spread_none activated needed id n : id ∉ activated -> spread activated (<[id := n]> needed) = spread activated needed.
Proof.
  intros Hid. unfold spread. induction activated as [|x l IH]; [done|]. cbn. apply not_elem_of_cons in Hid as [Hne Hid].
  rewrite lookup_insert_ne by done. f_equal. by apply IH.
Qed.

(** One less needed. *)
Lemma spread_take activated needed id n :
  NoDup activated -> id ∈ activated -> needed !! id = Some n -> 0 < n ->
  spread activated needed ≡ₚ id :: spread activated (<[id := n - 1]> needed).
Proof.
  intros Hnd Hid Hn Hpos. induction activated as [|x l IH]; [by apply elem_of_nil in Hid|].
  apply NoDup_cons in Hnd as [Hx Hnd]. unfold spread. cbn. fold (spread l needed) (spread l (<[id := n - 1]> needed)).
  destruct (decide (x = id)) as [->|Hne].
  - rewrite lookup_insert_eq, Hn, spread_none by done. cbn.
    replace (Z.to_nat n) with (S (Z.to_nat (n - 1))) by lia. done.
  - apply elem_of_cons in Hid as [->|Hid]; [done|]. rewrite lookup_insert_ne by done.
    rewrite (IH Hnd Hid). apply Permutation_sym, Permutation_middle.
Qed.

Lemma elem_of_spread activated needed id : id ∈ spread activated needed -> id ∈ activated /\ exists n, needed !! id = Some n /\ 0 < n.
Proof.
  unfold spread. intros (x & Hin & Hx)%list_elem_of_bind. apply elem_of_replicate in Hin as [-> Hne]. split; [done|].
  destruct (needed !! x) as [n|]; cbn in Hne; [|done]. exists n. split; [done|lia].
Qed.

Lemma keep_evaluator_spread current activated needed0 names desired needed remaining kept desired0 done_names :
  NoDup activated -> (forall id, is_Some (needed !! id) -> id ∈ activated) ->
  (forall name, name ∈ names -> exists id, current !! name = Some (mkTarget Evaluator id)) ->
  NoDup (done_names ++ names) ->
  desired = list_to_map (to_evaluator <$> kept) ∪ desired0 ->
  kept.*1 ++ remaining ≡ₚ done_names -> kept.*2 ++ spread activated needed ≡ₚ spread activated needed0 ->
  exists kept' needed' remaining',
    foldl (keep_evaluator current) (desired, needed, remaining) names =
      (list_to_map (to_evaluator <$> kept') ∪ desired0, needed', remaining') /\
    kept'.*1 ++ remaining' ≡ₚ done_names ++ names /\ kept'.*2 ++ spread activated needed' ≡ₚ spread activated needed0.
Proof.
  intros Hnd. revert desired needed remaining kept done_names.
  induction names as [|name names IH]; intros desired needed remaining kept done_names Hdom Hcur Hnames -> Hdone Hspread.
  { exists kept, needed, remaining. rewrite app_nil_r. done. }
  destruct (Hcur name) as [id Hid]; [by left|]. cbn [foldl keep_evaluator]. rewrite Hid. cbn [run_id].
  assert (forall n', n' ∈ names -> exists id, current !! n' = Some (mkTarget Evaluator id)) as Hcur'.
  { intros n' Hn'. apply Hcur. by right. }
  assert (name :: names = [name] ++ names) as Hcons by done. rewrite Hcons, app_assoc in Hnames |- *.
  assert (remaining ++ [name] ++ kept.*1 ≡ₚ done_names ++ [name]) as Hlater.
  { rewrite app_assoc, <- Hdone. by rewrite (Permutation_app_comm (kept.*1)), <- !app_assoc, (Permutation_app_comm [name]). }
  destruct (needed !! id) as [n|] eqn:Hn; [destruct (Z.ltb_spec 0 n)|].
  - eapply (IH _ _ _ ((name, id) :: kept)); [|done|done| | |].
    + intros id'. destruct (decide (id' = id)) as [->|]; [intros _; apply Hdom; by rewrite Hn|].
      rewrite lookup_insert_ne by done. apply Hdom.
    + cbn. by rewrite <- insert_union_l.
    + cbn. rewrite <- Hdone. apply Permutation_cons_append.
    + cbn. rewrite <- Hspread, (spread_take activated needed id n) by (try apply Hdom; eauto).
      apply Permutation_middle.
  - eapply IH; [done..| |done]. by rewrite Permutation_app_comm, <- app_assoc, Hlater.
  - eapply IH; [done..| |done]. by rewrite Permutation_app_comm, <- app_assoc, Hlater.
Qed.

(** The wanted multiset of children, one entry for each evaluator. *)
Definition deal (l : list (i32 * Z)) : list i32 := p ← l; replicate (Z.to_nat p.2) p.1.

Lemma spread_deal (l : list (i32 * Z)) : NoDup l.*1 -> spread l.*1 (list_to_map l) = deal l.
Proof.
  induction l as [|[id n] l IH]; intros Hnd; [done|]. apply NoDup_cons in Hnd as [Hid Hnd].
  unfold spread, deal. cbn. rewrite lookup_insert_eq. cbn. f_equal.
  etrans; [|by apply IH]. by apply spread_none.
Qed.

Lemma zlen_deal l : Forall (fun p => 0 <= p.2) l -> zlen (deal l) = zsum l.*2.
Proof.
  induction 1 as [|[id n] l Hn _ IH]; [done|]. unfold deal. cbn [mbind list_bind]. fold (deal l).
  cbn [fst snd fmap list_fmap]. rewrite zlen_app, zsum_cons, zlen_replicate, IH. cbn in Hn |- *. lia.
Qed.

Lemma count_deal l id n : NoDup l.*1 -> (id, n) ∈ l -> length (filter (fun x => x = id) (deal l)) = Z.to_nat n.
Proof.
  assert (forall l x, x ∉ l.*1 -> filter (fun y => y = x) (deal l) = []) as Hnone.
  { intros l' x Hx. apply filter_none, Forall_forall. intros y (p & [-> _]%elem_of_replicate & Hp)%list_elem_of_bind <-.
    by apply Hx, list_elem_of_fmap_2. }
  assert (forall (x : Z) k, filter (fun y => y = x) (replicate k x) = replicate k x) as Hall.
  { intros x k. induction k as [|k IH]; [done|]. cbn [replicate]. by rewrite filter_cons_True, IH. }
  induction l as [|[x k] l IH]; intros Hnd Hin; [by apply elem_of_nil in Hin|].
  apply NoDup_cons in Hnd as [Hx Hnd]. unfold deal. cbn [mbind list_bind]. fold (deal l). cbn [fst snd].
  rewrite filter_app, length_app. apply elem_of_cons in Hin as [[= -> ->]|Hin].
  - rewrite Hnone by done. rewrite Hall, length_replicate. cbn. lia.
  - rewrite IH by done. rewrite filter_none; [done|]. apply Forall_forall. intros y [-> _]%elem_of_replicate ->.
    apply Hx. by apply (list_elem_of_fmap_2 fst) in Hin.
Qed.

Lemma shares_fst count k i activated : (shares count k i activated).*1 = activated.
Proof. revert i. induction activated as [|x l IH]; intros i; [done|]. cbn. by rewrite IH. Qed.

Lemma shares_bounds count k i activated id n :
  (id, n) ∈ shares count k i activated -> count / k <= n <= count / k + 1.
Proof.
  revert i. induction activated as [|x l IH]; intros i; cbn; [by intros ?%elem_of_nil|].
  intros [[= -> ->]|Hin]%elem_of_cons; [destruct (i <? _); lia|by eapply IH].
Qed.

Lemma shares_nonneg count k i activated : 0 <= count -> 0 < k -> Forall (fun p => 0 <= p.2) (shares count k i activated).
Proof.
  intros Hc Hk. apply Forall_forall. intros [id n] Hin%shares_bounds. pose proof (Z.div_pos count k Hc Hk). cbn. lia.
Qed.

Lemma shares_sum count k i activated :
  0 < k -> i + zlen activated = k ->
  zsum (shares count k i activated).*2 = count / k * zlen activated + Z.max 0 (count mod k - i).
Proof.
  intros Hk. revert i. pose proof (Z.mod_pos_bound count k Hk).
  induction activated as [|x l IH]; intros i Hi; cbn [shares].
  { change (zsum _) with 0. change (zlen (@nil Z)) with 0 in *. lia. }
  rewrite zlen_cons in *. rewrite fmap_cons, zsum_cons, IH by lia. cbn [snd]. destruct (Z.ltb_spec i (count mod k)); lia.
Qed.

Lemma zlen_deal_shares count activated :
  0 <= count -> activated <> [] -> zlen (deal (shares count (zlen activated) 0 activated)) = count.
Proof.
  intros Hc Hne. assert (0 < zlen activated).
  { destruct activated; [done|]. rewrite zlen_cons. pose proof (zlen_nonneg activated). lia. }
  rewrite zlen_deal by (by apply shares_nonneg). rewrite shares_sum by lia.
  pose proof (Z.mod_pos_bound count (zlen activated)). pose proof (Z.div_mod count (zlen activated)). lia.
Qed.

Lemma place_evaluators_map names targets desired :
  NoDup names -> length names = length targets ->
  place_evaluators names targets desired = list_to_map (to_evaluator <$> zip names targets) ∪ desired.
Proof.
  revert targets desired. induction names as [|name names IH]; intros targets desired Hnd Hlen.
  { cbn. by rewrite (left_id_L ∅ (∪)). }
  destruct targets as [|t targets]; [done|]. apply NoDup_cons in Hnd as [Hname Hnd]. cbn.
  rewrite IH by (done || by injection Hlen). rewrite <- insert_union_l. symmetry. apply insert_union_r.
  apply not_elem_of_list_to_map. rewrite <- list_fmap_compose. change (_ ∘ to_evaluator) with (@fst string i32).
  intros (p & -> & Hp)%list_elem_of_fmap. destruct p as [n' t']. by apply elem_of_zip_l in Hp.
Qed.

Lemma share_evaluators_map current evaluators activated desired :
  activated <> [] -> NoDup activated -> NoDup evaluators ->
  (forall name, name ∈ evaluators -> exists id, current !! name = Some (mkTarget Evaluator id)) ->
  exists shared,
    share_evaluators current evaluators activated desired = list_to_map (to_evaluator <$> shared) ∪ desired /\
    shared.*1 ≡ₚ evaluators /\ shared.*2 ≡ₚ deal (shares (zlen evaluators) (zlen activated) 0 activated).
Proof.
  intros Hne Hnd Hev Hcur. unfold share_evaluators. destruct activated as [|x l] eqn:Hact; [done|].
  rewrite <- Hact in *. set (sh := shares _ _ 0 activated).
  assert (sh.*1 = activated) as Hfst by apply shares_fst.
  assert (spread activated (list_to_map sh) = deal sh) as Hdeal.
  { rewrite <- Hfst. apply spread_deal. by rewrite Hfst. }
  destruct (keep_evaluator_spread current activated (list_to_map sh) evaluators desired (list_to_map sh) [] [] desired [])
    as (kept & needed & remaining & -> & Hnames & Hids); try done.
  { intros id [n Hn%elem_of_list_to_map_2]. rewrite <- Hfst. by apply (list_elem_of_fmap_2 fst) in Hn. }
  { cbn. by rewrite (left_id_L ∅ (∪)). }
  rewrite Hdeal in Hids. cbn [app] in Hnames.
  assert (length remaining = length (spread activated needed)) as Hlen.
  { pose proof (zlen_deal_shares (zlen evaluators) activated (zlen_nonneg _) Hne) as Hz. fold sh in Hz.
    pose proof (Permutation_length Hnames) as H1. pose proof (Permutation_length Hids) as H2.
    rewrite length_app in H1, H2. rewrite !length_fmap in *. unfold zlen in Hz. lia. }
  assert (NoDup (kept.*1 ++ remaining)) as Hnd2 by by rewrite Hnames. apply NoDup_app in Hnd2 as (_ & Hdis & Hndr).
  exists (zip remaining (spread activated needed) ++ kept). split_and!.
  - rewrite place_evaluators_map by done. by rewrite fmap_app, list_to_map_app, (assoc_L (∪)).
  - rewrite fmap_app, fst_zip by lia. by rewrite (Permutation_app_comm remaining).
  - rewrite fmap_app, snd_zip by lia. by rewrite (Permutation_app_comm (spread _ _)).
Qed.
End sharing.

(** ** Placing samplers *)

Section samplers.
Context (plan : ControllerAssignmentPlan) (selected : list i32) (pool base : Placements).

Abbreviation sampler_at id := (mkTarget SamplerAggregator id).

(** Only samplers of the pool are placed; a child is activated when it has a
    sampler, and only a nested controller has several. *)
Record sampling (d : Placements) (a : gset i32) : Prop := {
  sa_base name : pool !! name = None -> d !! name = base !! name;
  sa_entry name t0 t : pool !! name = Some t0 -> d !! name = Some t ->
    role t0 = SamplerAggregator /\ t = sampler_at (run_id t) /\ run_id t ∈ a;
  sa_active id : id ∈ a -> id ∈ selected /\ exists name, is_Some (pool !! name) /\ d !! name = Some (sampler_at id);
  sa_single id n1 n2 : id ∉ controllers plan -> is_Some (pool !! n1) -> is_Some (pool !! n2) ->
    d !! n1 = Some (sampler_at id) -> d !! n2 = Some (sampler_at id) -> n1 = n2
}.

Definition free (d : Placements) (name : string) : Prop :=
  d !! name = None /\ exists t0, pool !! name = Some t0 /\ role t0 = SamplerAggregator.

Lemma sampling_place d a name id :
  sampling d a -> free d name -> id ∈ selected -> (id ∉ a \/ id ∈ controllers plan) ->
  sampling (<[name := sampler_at id]> d) ({[id]} ∪ a).
Proof.
  intros [Hbase Hentry Hactive Hsingle] (Hfree & t0 & Hpool & Hrole) Hsel Hone. split.
  - intros n Hn. rewrite lookup_insert_ne by congruence. by apply Hbase.
  - intros n t1 t Hn. destruct (decide (n = name)) as [->|].
    + rewrite lookup_insert_eq. intros [= <-]. cbn. rewrite Hpool in Hn. injection Hn as <-. set_solver.
    + rewrite lookup_insert_ne by done. intros Ht. destruct (Hentry _ _ _ Hn Ht) as (? & ? & ?). set_solver.
  - intros id' [->%elem_of_singleton|Hid]%elem_of_union.
    + split; [done|]. exists name. rewrite lookup_insert_eq. by split.
    + destruct (Hactive _ Hid) as (? & n & Hn & Hd). split; [done|]. exists n.
      rewrite lookup_insert_ne; [done|]. intros ->. congruence.
  - intros id' n1 n2 Hid H1 H2.
    assert (forall n, is_Some (pool !! n) -> d !! n = Some (sampler_at id') -> id' ∈ a) as Hin.
    { intros n [t1 Hn] Hd. by destruct (Hentry _ _ _ Hn Hd) as (_ & _ & ?). }
    destruct (decide (n1 = name)) as [->|], (decide (n2 = name)) as [->|];
      rewrite ?lookup_insert_eq, ?lookup_insert_ne by done; [done|..]; [..|by apply (Hsingle id')].
    + intros [= ->] Hd. apply Hin in Hd; [|done]. naive_solver.
    + intros Hd [= ->]. apply Hin in Hd; [|done]. naive_solver.
Qed.

Lemma keep_sampler_sampling l d a d' a' :
  foldl (keep_sampler plan selected) (d, a) l = (d', a') ->
  NoDup l.*1 -> (forall name t, (name, t) ∈ l -> pool !! name = Some t /\ d !! name = None) ->
  sampling d a -> sampling d' a' /\ (forall name, name ∉ l.*1 -> d' !! name = d !! name).
Proof.
  revert d a. induction l as [|[name t] l IH]; intros d a Hrun Hnd Hl Hs.
  { injection Hrun as <- <-. done. }
  cbn [foldl keep_sampler] in Hrun. apply NoDup_cons in Hnd as [Hname Hnd].
  destruct (Hl name t) as [Hpool Hfree]; [by left|].
  assert (forall d1 : Placements, (forall n, n <> name -> d1 !! n = d !! n) ->
    forall n t', (n, t') ∈ l -> pool !! n = Some t' /\ d1 !! n = None) as Hrest.
  { intros d1 Hd1 n t' Hin. rewrite Hd1; [apply Hl; by right|]. intros ->.
    apply Hname. by apply (list_elem_of_fmap_2 fst) in Hin. }
  assert (forall a1, sampling (<[name := t]> d) a1 -> foldl (keep_sampler plan selected) (<[name := t]> d, a1) l = (d', a') ->
    sampling d' a' /\ (forall n, n ∉ ((name, t) :: l).*1 -> d' !! n = d !! n)) as Hplace.
  { intros a1 Hs1 Hrun1. apply IH in Hrun1 as [? Hsame]; [|done| |done].
    - split; [done|]. intros n [Hn1 Hn2]%not_elem_of_cons. rewrite Hsame by done. by apply lookup_insert_ne.
    - apply Hrest. intros n Hn. by apply lookup_insert_ne. }
  assert (foldl (keep_sampler plan selected) (d, a) l = (d', a') ->
    sampling d' a' /\ (forall n, n ∉ ((name, t) :: l).*1 -> d' !! n = d !! n)) as Hskip.
  { intros Hrun1. apply IH in Hrun1 as [? Hsame]; [|done|by apply Hrest|done]. split; [done|].
    intros n [Hn1 Hn2]%not_elem_of_cons. by apply Hsame. }
  destruct t as [r id]. cbn [role run_id] in *.
  destruct (bool_decide_reflect (r = SamplerAggregator)) as [->|]; [|by apply Hskip].
  destruct (bool_decide_reflect (id ∈ selected)) as [Hsel|]; [|by apply Hskip]. cbn [andb] in Hrun.
  assert (free d name) as Hf by (split; [done|by eexists]).
  destruct (bool_decide_reflect (id ∉ a)) as [Hid|Hid].
  { eapply Hplace; [|done]. apply sampling_place; auto. }
  destruct (bool_decide_reflect (id ∈ controllers plan)) as [Hc|]; [|by apply Hskip].
  apply dec_stable in Hid. eapply Hplace; [|done]. replace a with ({[id]} ∪ a) by set_solver. apply sampling_place; auto.
Qed.

Lemma place_samplers_sampling needing nodes d a d' a' surplus :
  place_samplers needing nodes (d, a) = (d', a', surplus) ->
  NoDup needing -> (forall id, id ∈ needing -> id ∈ selected /\ id ∉ a) ->
  NoDup nodes -> (forall name, name ∈ nodes -> free d name) -> sampling d a ->
  sampling d' a' /\ a ⊆ a' /\ NoDup surplus /\ (forall name, name ∈ surplus -> free d' name /\ name ∈ nodes) /\
  (forall name, name ∈ nodes -> name ∈ surplus \/ is_Some (d' !! name)) /\
  (forall name, name ∉ nodes -> d' !! name = d !! name) /\ (surplus = [] \/ forall id, id ∈ needing -> id ∈ a').
Proof.
  revert nodes d a. induction needing as [|id needing IH]; intros nodes d a Hrun Hndn Hneed Hnd Hfree Hs.
  { injection Hrun as <- <- <-. split_and!; try done; [by intros; split; auto|by left|].
    right. by intros id ?%elem_of_nil. }
  destruct nodes as [|name nodes].
  { injection Hrun as <- <- <-. split_and!; try done; [by intros ? ?%elem_of_nil|by intros ? ?%elem_of_nil|by left]. }
  cbn [place_samplers] in Hrun. apply NoDup_cons in Hnd as [Hname Hnd], Hndn as [Hid Hndn].
  destruct (Hneed id) as [Hsel Hia]; [by left|]. assert (free d name) as Hf by (apply Hfree; by left).
  apply IH in Hrun as (? & Hsub & ? & Hsur & Hplaced & Hsame & Hall); [|done| |done| |].
  - assert ({[id]} ∪ a ⊆ a') as [Hida Haa]%union_subseteq by exact Hsub. split_and!; [done..| | | |].
    + intros n Hn. destruct (Hsur n Hn). split; [done|by right].
    + intros n [->|Hn]%elem_of_cons; [|by apply Hplaced]. right. rewrite Hsame by done. by rewrite lookup_insert_eq.
    + intros n [Hn1 Hn2]%not_elem_of_cons. rewrite Hsame by done. by apply lookup_insert_ne.
    + destruct Hall as [->|Hall]; [by left|right]. intros id' [->|?]%elem_of_cons; [|by apply Hall].
      by apply singleton_subseteq_l.
  - intros id' Hid'. destruct (Hneed id') as [? ?]; [by right|]. split; [done|].
    intros [->%elem_of_singleton|?]%elem_of_union; done.
  - intros n Hn. destruct (Hfree n) as [Hn1 Hn2]; [by right|]. split; [|done]. cbn. rewrite lookup_insert_ne; [done|]. by intros ->.
  - apply sampling_place; auto.
Qed.

Lemma place_surplus_sampling nested index nodes d a d' a' :
  place_surplus nested index nodes (d, a) = (d', a') ->
  nested <> [] -> 0 <= index -> (forall id, id ∈ nested -> id ∈ selected /\ id ∈ controllers plan) ->
  NoDup nodes -> (forall name, name ∈ nodes -> free d name) -> sampling d a ->
  sampling d' a' /\ a ⊆ a' /\ (forall name, name ∈ nodes -> is_Some (d' !! name)) /\
  (forall name, name ∉ nodes -> d' !! name = d !! name).
Proof.
  intros Hrun Hne Hi Hnested. revert index d a Hrun Hi. induction nodes as [|name nodes IH]; intros index d a Hrun Hi Hnd Hfree Hs.
  { injection Hrun as <- <-. split_and!; try done. by intros ? ?%elem_of_nil. }
  apply NoDup_cons in Hnd as [Hname Hnd]. cbn [place_surplus] in Hrun.
  assert (0 < zlen nested). { destruct nested; [done|]. rewrite zlen_cons. pose proof (zlen_nonneg nested). lia. }
  pose proof (Z.mod_pos_bound index (zlen nested)) as Hm.
  assert (exists id, zget nested (index mod zlen nested) = Some id) as [id Hid].
  { unfold zget. rewrite (proj2 (Z.leb_le 0 _)) by lia. apply lookup_lt_is_Some. unfold zlen in *. lia. }
  rewrite Hid in Hrun. apply zget_elem in Hid. destruct (Hnested id Hid) as [? ?].
  apply IH in Hrun as (? & ? & Hplaced & Hsame); [|lia|done| |].
  - split_and!; [done|etrans; [apply union_subseteq_r|done]| |].
    + intros n [->|Hn]%elem_of_cons; [|by apply Hplaced]. rewrite Hsame by done. cbn. by rewrite lookup_insert_eq.
    + intros n [Hn1 Hn2]%not_elem_of_cons. rewrite Hsame by done. by apply lookup_insert_ne.
  - intros n Hn. destruct (Hfree n) as [Hn1 Hn2]; [by right|]. split; [|done]. cbn. rewrite lookup_insert_ne; [done|]. by intros ->.
  - apply sampling_place; auto. apply Hfree. by left.
Qed.
End samplers.

Lemma dedup_spec seen ids : NoDup (dedup seen ids) /\ forall id, id ∈ dedup seen ids <-> id ∈ ids /\ id ∉ seen.
Proof.
  revert seen. induction ids as [|x ids IH]; intros seen; cbn [dedup].
  { split; [constructor|]. intros id. rewrite elem_of_nil. naive_solver. }
  case_bool_decide as Hx.
  - destruct (IH seen) as [Hnd Hin]. split; [done|]. intros id. rewrite Hin, elem_of_cons. naive_solver.
  - destruct (IH ({[x]} ∪ seen)) as [Hnd Hin]. split.
    + constructor; [|done]. rewrite Hin. set_solver.
    + intros id. rewrite !elem_of_cons, Hin, elem_of_union, elem_of_singleton.
      destruct (decide (id = x)); naive_solver.
Qed.

Lemma selected_of_spec plan :
  NoDup (selected_of plan) /\
  forall id, id ∈ selected_of plan <-> id ∈ selected_child_run_ids plan /\ is_Some (branches plan !! id).
Proof.
  unfold selected_of. destruct (dedup_spec ∅ (filter (fun id => is_Some (branches plan !! id)) (selected_child_run_ids plan)))
    as [Hnd Hin]. split; [done|]. intros id. rewrite Hin, list_elem_of_filter. set_solver.
Qed.

Lemma by_name_perm {A} (m : gmap string A) : by_name m ≡ₚ map_to_list m.
Proof. apply merge_sort_Permutation. Qed.
Lemma by_name_fst {A} (m : gmap string A) : NoDup (by_name m).*1.
Proof. rewrite by_name_perm. apply NoDup_fst_map_to_list. Qed.
Lemma elem_of_by_name {A} (m : gmap string A) name x : (name, x) ∈ by_name m <-> m !! name = Some x.
Proof. rewrite by_name_perm. apply elem_of_map_to_list. Qed.

Lemma elem_of_names_of r m name : name ∈ names_of r m <-> exists t, m !! name = Some t /\ role t = r.
Proof.
  unfold names_of. rewrite list_elem_of_fmap. split.
  - intros ([n t] & -> & [Hr Hin]%list_elem_of_filter). apply elem_of_by_name in Hin. by exists t.
  - intros (t & Ht & Hr). exists (name, t). split; [done|]. apply list_elem_of_filter. split; [done|].
    by apply elem_of_by_name.
Qed.

Lemma NoDup_names_of r m : NoDup (names_of r m).
Proof.
  unfold names_of. apply NoDup_fmap_fst.
  - intros n t1 t2 [_ H1%elem_of_by_name]%list_elem_of_filter [_ H2%elem_of_by_name]%list_elem_of_filter. congruence.
  - apply NoDup_filter. eapply NoDup_fmap_1, by_name_fst.
Qed.

Lemma elem_of_ascending x id : id ∈ ascending x <-> id ∈ x.
Proof. unfold ascending. rewrite merge_sort_Permutation. apply elem_of_elements. Qed.
Lemma NoDup_ascending x : NoDup (ascending x).
Proof. unfold ascending. rewrite merge_sort_Permutation. apply NoDup_elements. Qed.

Section samplers.
Context (plan : ControllerAssignmentPlan) (selected : list i32) (pool base : Placements).
Context (Hbase : forall name, is_Some (pool !! name) -> base !! name = None) (Hnd : NoDup selected).
Abbreviation sampler_at id := (mkTarget SamplerAggregator id).

(** Every sampler of the pool is used, or each selected child has one and there
    is no nested controller to take more. *)
Definition saturated (d : Placements) (a : gset i32) : Prop :=
  (forall name, name ∈ names_of SamplerAggregator pool -> is_Some (d !! name)) \/
  (forall id, id ∈ selected -> id ∈ a) /\ filter (fun id => id ∈ controllers plan) selected = [].

Lemma assign_samplers_spec d a :
  assign_samplers plan selected pool base = (d, a) -> sampling plan selected pool base d a /\ saturated d a.
Proof.
  intros Hrun. unfold assign_samplers in Hrun.
  destruct (foldl _ _ _) as [d1 a1] eqn:Ek. apply (keep_sampler_sampling plan selected pool base) in Ek as [H1 _];
    [|apply by_name_fst| |].
  2: { intros name t Hin%elem_of_by_name. split; [done|]. apply Hbase. by eexists. }
  2: { split; [done| |by intros id ?%elem_of_empty|].
       - intros name t0 t Hp Hd. rewrite Hbase in Hd by (by eexists). done.
       - intros id n1 n2 _ Hp _ Hd. rewrite Hbase in Hd by done. done. }
  set (samplers := filter _ (names_of _ pool)) in Hrun.
  destruct (place_samplers _ _ _) as [[d2 a2] surplus] eqn:Ep.
  apply (place_samplers_sampling plan selected pool base) in Ep
    as (H2 & Hsub & Hnds & Hsur & Hplaced & Hsame & Hall); [| | | | |exact H1].
  2: by apply NoDup_filter.
  2: { intros id [Hid Hsel]%list_elem_of_filter. done. }
  2: apply NoDup_filter, NoDup_names_of.
  2: { intros name [Hfree (t & Hp & Hr)%elem_of_names_of]%list_elem_of_filter. split; [done|]. by exists t. }
  assert (forall name, name ∈ names_of SamplerAggregator pool -> is_Some (d2 !! name) \/ name ∈ surplus) as Hcover.
  { intros name Hin. destruct (d1 !! name) as [t|] eqn:Hd1.
    - left. rewrite Hsame; [by eexists|]. intros [? _]%list_elem_of_filter. congruence.
    - assert (name ∈ samplers) as Hs by by apply list_elem_of_filter. apply Hplaced in Hs. tauto. }
  assert (forall id, id ∈ selected -> surplus = [] \/ id ∈ a2) as Hall'.
  { intros id Hid. destruct Hall as [->|Hall]; [by left|right]. destruct (decide (id ∈ a1)); [by apply Hsub|].
    apply Hall. by apply list_elem_of_filter. }
  destruct (filter (fun id => id ∈ controllers plan) selected) as [|n0 nested] eqn:En.
  { injection Hrun as <- <-. split; [done|]. destruct surplus as [|n surplus].
    - left. intros name Hin. apply Hcover in Hin as [?|?%elem_of_nil]; done.
    - right. split; [|done]. intros id Hid. by destruct (Hall' id Hid). }
  apply (place_surplus_sampling plan selected pool base) in Hrun as (H3 & _ & Hp3 & Hs3); try done.
  - split; [done|left]. intros name Hin. destruct (decide (name ∈ surplus)) as [|Hn]; [by apply Hp3|].
    rewrite Hs3 by done. by destruct (Hcover name Hin).
  - intros id Hid. rewrite <- En in Hid. apply list_elem_of_filter in Hid. tauto.
  - intros name Hin. by apply Hsur.
Qed.

End samplers.

Section keep_all.
Context (plan : ControllerAssignmentPlan) (selected : list i32) (base : Placements).

(** Entries that are all kept: at most one sampler for a child that is not a
    controller. *)
Definition ours (t : AssignmentTarget) : Prop := role t = SamplerAggregator /\ run_id t ∈ selected.

Lemma keep_all_samplers p l d a :
  NoDup (p ++ l).*1 ->
  (forall n1 n2 t, (n1, t) ∈ p ++ l -> (n2, t) ∈ p ++ l -> ours t -> run_id t ∉ controllers plan -> n1 = n2) ->
  (forall id, id ∈ a <-> exists name t, (name, t) ∈ p /\ ours t /\ run_id t = id) ->
  (forall name t, (name, t) ∈ p -> ours t -> d !! name = Some t) ->
  (forall name, (forall t, (name, t) ∈ p -> ~ ours t) -> d !! name = base !! name) ->
  let st := foldl (keep_sampler plan selected) (d, a) l in
  (forall id, id ∈ st.2 <-> exists name t, (name, t) ∈ p ++ l /\ ours t /\ run_id t = id) /\
  (forall name t, (name, t) ∈ p ++ l -> ours t -> st.1 !! name = Some t) /\
  (forall name, (forall t, (name, t) ∈ p ++ l -> ~ ours t) -> st.1 !! name = base !! name).
Proof.
  revert p d a. induction l as [|[name t] l IH]; intros p d a Hndp Hone Ha Hd Hb; cbn [foldl].
  { rewrite app_nil_r. done. }
  assert (p ++ (name, t) :: l = (p ++ [(name, t)]) ++ l) as Hp by by rewrite <- app_assoc. rewrite Hp in *.
  assert (forall n t', (n, t') ∈ p -> n <> name) as Hfresh.
  { intros n t' Hin ->. rewrite fmap_app, NoDup_app, fmap_app, NoDup_app in Hndp. destruct Hndp as ((_ & Hdis & _) & _).
    apply (Hdis name); [by apply (list_elem_of_fmap_2 fst _ (name, t'))|]. by left. }
  assert (keep_sampler plan selected (d, a) (name, t) =
    if decide (ours t) then (<[name := t]> d, {[run_id t]} ∪ a) else (d, a)) as Hkeep.
  { unfold keep_sampler, ours. destruct (decide _) as [[Hr Hs]|Hno].
    - rewrite !bool_decide_eq_true_2 by done. cbn [andb]. case_bool_decide as Hin; [done|].
      replace ({[run_id t]} ∪ a) with a by set_solver.
      apply Ha in Hin as (n & t' & Hin & [Hr' Hs'] & Heq). rewrite bool_decide_eq_true_2; [done|].
      destruct (decide (run_id t ∈ controllers plan)) as [|Hc]; [done|]. exfalso. apply (Hfresh _ _ Hin).
      assert (t' = t) as -> by (destruct t, t'; cbn in *; congruence). apply (Hone n name t); [..|by split|done]; set_solver.
    - destruct (bool_decide_reflect (role t = SamplerAggregator)); [|done].
      by rewrite bool_decide_eq_false_2 by naive_solver. }
  rewrite Hkeep. destruct (decide (ours t)) as [Ho|Ho]; apply IH; try done.
  - intros id. rewrite elem_of_union, elem_of_singleton, Ha. setoid_rewrite elem_of_app. setoid_rewrite list_elem_of_singleton.
    naive_solver.
  - intros n t' [Hin|[= -> ->]%list_elem_of_singleton]%elem_of_app Ho'; [|by rewrite lookup_insert_eq].
    rewrite lookup_insert_ne; [by apply Hd|]. intros ->. by eapply Hfresh.
  - intros n Hn. rewrite lookup_insert_ne; [apply Hb; set_solver|]. intros ->. apply (Hn t); [set_solver|done].
  - intros id. rewrite Ha. setoid_rewrite elem_of_app. setoid_rewrite list_elem_of_singleton. naive_solver.
  - intros n t' [Hin|[= -> ->]%list_elem_of_singleton]%elem_of_app Ho'; [by apply Hd|done].
  - intros n Hn. apply Hb. set_solver.
Qed.
End keep_all.

(** ** The outcome of a plan *)

Definition at_controller (plan : ControllerAssignmentPlan) (t : AssignmentTarget) : AssignmentTarget :=
  mkTarget (role t) (parent_run_id plan).

(** The samplers and the evaluators of a plan, before idle nodes are retained. *)
Record outcome (plan : ControllerAssignmentPlan) (placed d : Placements) (a : gset i32) (shared : list (string * i32)) : Prop := {
  oc_sampling : sampling plan (selected_of plan) (pool_of plan placed) (others_of plan placed) d a;
  oc_saturated : saturated plan (selected_of plan) (pool_of plan placed) d a;
  oc_shared :
    if decide (a = ∅) then shared = []
    else shared.*1 ≡ₚ names_of Evaluator (pool_of plan placed) /\
         shared.*2 ≡ₚ deal (shares (zlen (names_of Evaluator (pool_of plan placed))) (zlen (ascending a)) 0 (ascending a));
  oc_result : plan_desired plan placed =
    list_to_map (to_evaluator <$> shared) ∪ d ∪ (at_controller plan <$> pool_of plan placed)
}.

Lemma others_not_pool plan placed name : is_Some (pool_of plan placed !! name) -> others_of plan placed !! name = None.
Proof.
  intros [t [Ht Hr]%map_lookup_filter_Some]. apply map_lookup_filter_None. right. intros t' Ht'. cbn in *. congruence.
Qed.

Lemma ascending_nil a : ascending a = [] <-> a = ∅.
Proof.
  split; [|by intros ->]. intros Ha. apply set_eq. intros id. rewrite <- elem_of_ascending, Ha. set_solver.
Qed.

Lemma plan_desired_outcome plan placed : exists d a shared, outcome plan placed d a shared.
Proof.
  destruct (selected_of_spec plan) as [Hnd _]. pose proof (others_not_pool plan placed) as Hbase.
  destruct (selected_of plan) as [|x l] eqn:Hsel.
  - exists (others_of plan placed), ∅, []. split; rewrite ?Hsel; [| |done|].
    + split; [done| |by intros id ?%elem_of_empty|].
      * intros name t0 t Hp Hd. rewrite Hbase in Hd by eauto. done.
      * intros id n1 n2 _ Hp _ Hd. rewrite Hbase in Hd by done. done.
    + right. split; [|done]. by intros id ?%elem_of_nil.
    + unfold plan_desired. rewrite Hsel. cbn [fmap list_fmap list_to_map foldr]. by rewrite (left_id_L ∅ (∪)).
  - assert (plan_desired plan placed = (let '(desired, activated) :=
        assign_samplers plan (x :: l) (pool_of plan placed) (others_of plan placed) in
        share_evaluators (pool_of plan placed) (names_of Evaluator (pool_of plan placed)) (ascending activated) desired)
        ∪ (at_controller plan <$> pool_of plan placed)) as Hplan by (unfold plan_desired; by rewrite Hsel).
    rewrite <- Hsel in *.
    destruct (assign_samplers _ _ _ _) as [d a] eqn:Ea. apply assign_samplers_spec in Ea as [Hs Hsat]; [|done|done].
    destruct (decide (a = ∅)) as [->|Hne].
    + exists d, ∅, []. split; [done|done|done|]. rewrite Hplan. cbn [fmap list_fmap list_to_map foldr].
      by rewrite (left_id_L ∅ (∪)).
    + destruct (share_evaluators_map (pool_of plan placed) (names_of Evaluator (pool_of plan placed)) (ascending a) d)
        as (shared & Hd & H1 & H2).
      * by rewrite ascending_nil.
      * apply NoDup_ascending.
      * apply NoDup_names_of.
      * intros name ([r id] & Ht & Hr)%elem_of_names_of. exists id. cbn in Hr. by rewrite Ht, Hr.
      * exists d, a, shared. split; [done|done|by rewrite decide_False|]. by rewrite Hplan, Hd.
Qed.

Section outcome.
Context (plan : ControllerAssignmentPlan) (placed d : Placements) (a : gset i32) (shared : list (string * i32)).
Context (Hout : outcome plan placed d a shared).
Abbreviation pool := (pool_of plan placed).
Abbreviation result := (plan_desired plan placed).

Lemma shared_spec :
  NoDup shared.*1 /\ (forall name id, (name, id) ∈ shared -> id ∈ a /\ exists t, pool !! name = Some t /\ role t = Evaluator) /\
  (a <> ∅ -> forall name t, pool !! name = Some t -> role t = Evaluator -> exists id, (name, id) ∈ shared).
Proof.
  pose proof (oc_shared _ _ _ _ _ Hout) as Hsh. case_decide as Ha.
  - rewrite Hsh. split_and!; [constructor|by intros ? ? ?%elem_of_nil|done].
  - destruct Hsh as [H1 H2]. split_and!.
    + rewrite H1. apply NoDup_names_of.
    + intros name id Hin. split.
      * apply elem_of_ascending. apply (list_elem_of_fmap_2 snd) in Hin. rewrite H2 in Hin.
        apply list_elem_of_bind in Hin as ([id' n] & [Heq _]%elem_of_replicate & Hin). cbn in Heq. subst id'.
        apply (list_elem_of_fmap_2 fst) in Hin. by rewrite shares_fst in Hin.
      * apply (list_elem_of_fmap_2 fst) in Hin. rewrite H1 in Hin. by apply elem_of_names_of in Hin.
    + intros _ name t Ht Hr. assert (name ∈ shared.*1) as Hin.
      { rewrite H1. apply elem_of_names_of. by exists t. }
      apply list_elem_of_fmap in Hin as ([n id] & -> & Hin). by exists id.
Qed.

Lemma lookup_shared name t :
  (list_to_map (to_evaluator <$> shared) : Placements) !! name = Some t <-> role t = Evaluator /\ (name, run_id t) ∈ shared.
Proof.
  destruct shared_spec as (Hnd & _). rewrite <- elem_of_list_to_map.
  - rewrite list_elem_of_fmap. unfold to_evaluator. split.
    + intros ([n id] & [= -> ->] & Hin). done.
    + intros [Hr Hin]. exists (name, run_id t). split; [|done]. cbn. destruct t. cbn in *. by subst.
  - by rewrite <- list_fmap_compose.
Qed.

Lemma result_base name : pool !! name = None -> result !! name = others_of plan placed !! name.
Proof.
  intros Hp. rewrite (oc_result _ _ _ _ _ Hout), !lookup_union, lookup_fmap, Hp. cbn.
  rewrite (sa_base _ _ _ _ _ _ (oc_sampling _ _ _ _ _ Hout)) by done.
  destruct (list_to_map _ !! name) as [t|] eqn:Hl; [|by destruct (others_of plan placed !! name)].
  apply lookup_shared in Hl as [_ Hl]. apply shared_spec in Hl as (_ & t' & Ht' & _). congruence.
Qed.

Lemma result_sampler name t :
  pool !! name = Some t -> role t = SamplerAggregator ->
  result !! name = Some (default (mkTarget SamplerAggregator (parent_run_id plan)) (d !! name)).
Proof.
  intros Hp Hr. rewrite (oc_result _ _ _ _ _ Hout), !lookup_union, lookup_fmap, Hp. cbn.
  destruct (list_to_map _ !! name) as [t'|] eqn:Hl.
  - apply lookup_shared in Hl as [_ Hl]. apply shared_spec in Hl as (_ & t2 & Ht2 & Hr2). congruence.
  - unfold at_controller. rewrite Hr. by destruct (d !! name).
Qed.

Lemma result_evaluator name t :
  pool !! name = Some t -> role t = Evaluator ->
  if decide (a = ∅) then result !! name = Some (mkTarget Evaluator (parent_run_id plan))
  else exists id, id ∈ a /\ (name, id) ∈ shared /\ result !! name = Some (mkTarget Evaluator id).
Proof.
  intros Hp Hr. destruct shared_spec as (_ & Hin & Hex).
  assert (d !! name = None) as Hd.
  { destruct (d !! name) as [t'|] eqn:Hd; [|done].
    destruct (sa_entry _ _ _ _ _ _ (oc_sampling _ _ _ _ _ Hout) _ _ _ Hp Hd) as (Hr' & _). congruence. }
  rewrite (oc_result _ _ _ _ _ Hout), !lookup_union, lookup_fmap, Hp, Hd. unfold at_controller. cbn. rewrite Hr.
  case_decide as Ha.
  - pose proof (oc_shared _ _ _ _ _ Hout) as Hsh. rewrite decide_True in Hsh by done. by rewrite Hsh.
  - destruct (Hex Ha name t Hp Hr) as [id Hid]. exists id. destruct (Hin name id Hid) as [? _]. split_and!; [done..|].
    assert ((list_to_map (to_evaluator <$> shared) : Placements) !! name = Some (mkTarget Evaluator id)) as ->; [|done].
    by apply lookup_shared.
Qed.

(** A pool node keeps its role and stays in the pool. *)
Lemma result_pool name t :
  pool !! name = Some t -> exists t', result !! name = Some t' /\ role t' = role t /\
    (run_id t' = parent_run_id plan \/ run_id t' ∈ selected_of plan).
Proof.
  intros Hp. pose proof (oc_sampling _ _ _ _ _ Hout) as [_ Hentry Hactive _]. destruct (role t) eqn:Hr.
  - pose proof (result_evaluator name t Hp Hr) as He. case_decide.
    + eexists. split_and!; [done..|by left].
    + destruct He as (id & Hid & _ & Hres). eexists. split_and!; [done..|right]. cbn. by apply Hactive.
  - rewrite (result_sampler name t) by done. destruct (d !! name) as [t'|] eqn:Hd; cbn.
    + destruct (Hentry _ _ _ Hp Hd) as (_ & Heq & Hin). exists t'. split_and!; [done|by rewrite Heq|right; by apply Hactive].
    + eexists. split_and!; [done..|by left].
Qed.
End outcome.

(** ** Fairness *)

Definition in_pool (plan : ControllerAssignmentPlan) (placed : Placements) (name : string) : Prop :=
  is_Some (pool_of plan placed !! name).

(** A selected child with a sampler. *)
Definition working (plan : ControllerAssignmentPlan) (placed : Placements) (id : i32) : Prop :=
  id ∈ selected_of plan /\
  exists name, in_pool plan placed name /\ plan_desired plan placed !! name = Some (mkTarget SamplerAggregator id).

Definition evaluators_on (id : i32) (m : Placements) : nat := size (filter (fun p => p.2 = mkTarget Evaluator id) m).

Section fairness.
Context (plan : ControllerAssignmentPlan) (placed d : Placements) (a : gset i32) (shared : list (string * i32)).
Context (Hparent : branches plan !! parent_run_id plan = None) (Hout : outcome plan placed d a shared).
Abbreviation pool := (pool_of plan placed).
Abbreviation result := (plan_desired plan placed).

Lemma selected_not_parent id : id ∈ selected_of plan -> id <> parent_run_id plan.
Proof. intros [_ [b Hb]]%selected_of_spec ->. congruence. Qed.

Lemma selected_reusable r id : id ∈ selected_of plan -> reusable plan (mkTarget r id) = true.
Proof. intros [_ Hid]%selected_of_spec. unfold reusable. cbn. by rewrite (bool_decide_eq_true_2 (is_Some _)), orb_true_r. Qed.

Lemma working_activated id : working plan placed id <-> id ∈ a.
Proof.
  pose proof (oc_sampling _ _ _ _ _ Hout) as [_ Hentry Hactive _]. split.
  - intros (Hsel & name & [t Hp] & Hres). destruct (role t) eqn:Hr.
    + pose proof (result_evaluator _ _ _ _ _ Hout name t Hp Hr) as He. case_decide; naive_solver.
    + rewrite (result_sampler _ _ _ _ _ Hout name t) in Hres by done. destruct (d !! name) as [t'|] eqn:Hd; cbn in Hres.
      * injection Hres as ->. destruct (Hentry _ _ _ Hp Hd) as (_ & _ & Hin). exact Hin.
      * injection Hres as <-. by apply selected_not_parent in Hsel.
  - intros Hid. destruct (Hactive id Hid) as (Hsel & name & [t Hp] & Hd). split; [done|]. exists name. split; [by eexists|].
    destruct (Hentry _ _ _ Hp Hd) as (Hr & _). by rewrite (result_sampler _ _ _ _ _ Hout name t), Hd.
Qed.

Lemma evaluator_at_activated name id :
  id ∈ a -> result !! name = Some (mkTarget Evaluator id) <-> (name, id) ∈ shared.
Proof.
  intros Hid. assert (a <> ∅) as Hne by set_solver.
  pose proof (oc_sampling _ _ _ _ _ Hout) as [_ _ Hactive _]. destruct (Hactive id Hid) as [Hsel _].
  destruct (shared_spec _ _ _ _ _ Hout) as (Hnd & Hin & _).
  assert (forall t, pool !! name = Some t -> role t = Evaluator ->
    exists id', (name, id') ∈ shared /\ result !! name = Some (mkTarget Evaluator id')) as Hev.
  { intros t Hp Hr. pose proof (result_evaluator _ _ _ _ _ Hout name t Hp Hr) as He.
    rewrite decide_False in He by done. naive_solver. }
  split.
  - intros Hres. destruct (pool !! name) as [t|] eqn:Hp.
    + destruct (role t) eqn:Hr; [destruct (Hev t) as (id' & ? & ?); naive_solver|].
      destruct (result_pool _ _ _ _ _ Hout name t Hp) as (t' & Ht' & Hr' & _). rewrite Hres in Ht'. injection Ht' as <-.
      cbn in Hr'. congruence.
    + rewrite (result_base _ _ _ _ _ Hout) in Hres by done. apply map_lookup_filter_Some in Hres as [_ Hres]. cbn in Hres.
      by rewrite selected_reusable in Hres.
  - intros Hsh. destruct (Hin _ _ Hsh) as (_ & t & Hp & Hr). destruct (Hev t Hp Hr) as (id' & Hsh' & ->).
    do 2 f_equal. eapply NoDup_fst_unique; done.
Qed.

Lemma evaluators_on_activated id : id ∈ a -> evaluators_on id result = length (filter (fun x => x = id) shared.*2).
Proof.
  intros Hid. destruct (shared_spec _ _ _ _ _ Hout) as (Hnd & _). unfold evaluators_on.
  assert (NoDup (filter (fun p : string * i32 => p.2 = id) shared).*1) as Hndf.
  { apply NoDup_fmap_fst; [|by apply NoDup_filter, (NoDup_fmap_1 fst)].
    intros x y1 y2 [_ H1]%list_elem_of_filter [_ H2]%list_elem_of_filter. eapply NoDup_fst_unique; done. }
  assert (filter (fun p => p.2 = mkTarget Evaluator id) result =
    list_to_map (to_evaluator <$> filter (fun p : string * i32 => p.2 = id) shared)) as ->.
  { apply map_eq. intros name. apply option_eq. intros t. rewrite map_lookup_filter_Some.
    rewrite <- elem_of_list_to_map by by rewrite <- list_fmap_compose.
    rewrite list_elem_of_fmap. setoid_rewrite list_elem_of_filter. cbn. split.
    - intros [Hres ->]. exists (name, id). split; [done|]. split; [done|]. by apply evaluator_at_activated.
    - intros ([n id'] & [= -> ->] & Heq & Hin). cbn in Heq. subst id'. split; [|done]. by apply evaluator_at_activated. }
  rewrite size_list_to_map by by rewrite <- list_fmap_compose. rewrite length_fmap.
  clear. induction shared as [|[n i] l IH]; [done|]. rewrite fmap_cons, !filter_cons. cbn [snd].
  case_decide; cbn; by rewrite IH.
Qed.

Lemma evaluators_on_share id : id ∈ a ->
  zlen (names_of Evaluator pool) / zlen (ascending a) <= Z.of_nat (evaluators_on id result)
    <= zlen (names_of Evaluator pool) / zlen (ascending a) + 1.
Proof.
  intros Hid. assert (a <> ∅) as Hne by set_solver.
  pose proof (oc_shared _ _ _ _ _ Hout) as Hsh. rewrite decide_False in Hsh by done. destruct Hsh as [_ Hids].
  rewrite evaluators_on_activated, Hids by done. set (sh := shares _ _ 0 _) in *.
  assert (sh.*1 = ascending a) as Hfst by apply shares_fst.
  assert (id ∈ sh.*1) as Hin by by rewrite Hfst, elem_of_ascending.
  apply list_elem_of_fmap in Hin as ([id' n] & Heq & Hin). cbn in Heq. subst id'.
  rewrite (count_deal sh id n) by (rewrite ?Hfst; auto using NoDup_ascending).
  assert (0 < zlen (ascending a)).
  { destruct (ascending a) eqn:Ha; [by rewrite ascending_nil in Ha|]. rewrite zlen_cons. pose proof (zlen_nonneg l). lia. }
  apply shares_bounds in Hin. pose proof (Z.div_pos (zlen (names_of Evaluator pool)) (zlen (ascending a)) (zlen_nonneg _)). lia.
Qed.
End fairness.

(** C15: The pool of a controller is shared fairly. Two children with a sampler
    have evaluator counts that differ by at most one; as soon as one child has a
    sampler, every evaluator of the pool is with such a child; no sampler of the
    pool idles while a selected child has none; and only a child that is a
    controller itself gets a second sampler. *)
Theorem pool_shared_fairly (plan : ControllerAssignmentPlan) (placed : Placements)
  (Hparent : branches plan !! parent_run_id plan = None) :
  let result := plan_desired plan placed in
  (forall a b, working plan placed a -> working plan placed b ->
     (evaluators_on a result <= evaluators_on b result + 1)%nat) /\
  (forall name t, in_pool plan placed name -> result !! name = Some t -> role t = Evaluator ->
     (exists id, working plan placed id) -> working plan placed (run_id t)) /\
  (forall id name, id ∈ selected_of plan -> ~ working plan placed id -> in_pool plan placed name ->
     result !! name <> Some (mkTarget SamplerAggregator (parent_run_id plan))) /\
  (forall id n1 n2, id ∉ controllers plan -> in_pool plan placed n1 -> in_pool plan placed n2 -> id ∈ selected_of plan ->
     result !! n1 = Some (mkTarget SamplerAggregator id) -> result !! n2 = Some (mkTarget SamplerAggregator id) -> n1 = n2).
Proof.
  destruct (plan_desired_outcome plan placed) as (d & a & shared & Hout). cbn.
  pose proof (working_activated plan placed d a shared Hparent Hout) as Hwork.
  pose proof (oc_sampling _ _ _ _ _ Hout) as [_ Hentry Hactive Hsingle].
  split_and!.
  - intros x y Hx%Hwork Hy%Hwork.
    pose proof (evaluators_on_share plan placed d a shared Hparent Hout x Hx).
    pose proof (evaluators_on_share plan placed d a shared Hparent Hout y Hy). lia.
  - intros name t [t0 Hp] Hres Hr [id Hid%Hwork]. apply Hwork.
    destruct (result_pool _ _ _ _ _ Hout name t0 Hp) as (t' & Ht' & Hr' & _). rewrite Hres in Ht'. injection Ht' as <-.
    pose proof (result_evaluator _ _ _ _ _ Hout name t0 Hp) as He. rewrite decide_False in He by set_solver.
    destruct He as (id' & ? & _ & Hres'); [congruence|]. rewrite Hres in Hres'. injection Hres' as ->. done.
  - intros id name Hsel Hidle [t Hp] Hres. rewrite Hwork in Hidle.
    destruct (result_pool _ _ _ _ _ Hout name t Hp) as (t' & Ht' & Hr' & _). rewrite Hres in Ht'. injection Ht' as <-.
    cbn in Hr'. rewrite (result_sampler _ _ _ _ _ Hout name t) in Hres by done.
    destruct (oc_saturated _ _ _ _ _ Hout) as [Hall|[Hall _]]; [|by apply Hidle, Hall].
    destruct (Hall name) as [t2 Hd]; [apply elem_of_names_of; by exists t|]. rewrite Hd in Hres. cbn in Hres.
    injection Hres as ->. destruct (Hentry _ _ _ Hp Hd) as (_ & _ & Hin). cbn in Hin.
    apply Hactive in Hin as [Hin _]. by apply (selected_not_parent plan Hparent) in Hin.
  - intros id n1 n2 Hc [t1 Hp1] [t2 Hp2] Hsel H1 H2.
    assert (forall n t, pool_of plan placed !! n = Some t -> plan_desired plan placed !! n = Some (mkTarget SamplerAggregator id) ->
      d !! n = Some (mkTarget SamplerAggregator id)) as Hd.
    { intros n t Hp Hres. destruct (result_pool _ _ _ _ _ Hout n t Hp) as (t' & Ht' & Hr' & _). rewrite Hres in Ht'.
      injection Ht' as <-. cbn in Hr'. rewrite (result_sampler _ _ _ _ _ Hout n t) in Hres by done.
      destruct (d !! n); [done|]. cbn in Hres. injection Hres as <-. by apply (selected_not_parent plan Hparent) in Hsel. }
    apply (Hsingle id); eauto.
Qed.

(** ** The updates *)

Definition node_update (plan : ControllerAssignmentPlan) (result : Placements) (node : RegisteredNode)
    : option NodeAssignmentUpdate :=
  let next := node_next plan node (result !! node_name node) in
  if bool_decide (desired_assignment node = next) then None
  else Some (mkUpdate (node_uuid node) (desired_assignment node) next).

Lemma updates_for_spec plan result nodes :
  NoDup (node_name <$> nodes) -> updates_for plan result nodes = omap (node_update plan result) nodes.
Proof.
  revert result. induction nodes as [|node nodes IH]; intros result Hnd; [done|]. apply NoDup_cons in Hnd as [Hname Hnd].
  cbn [updates_for omap list_omap]. rewrite IH by done.
  assert (omap (node_update plan (delete (node_name node) result)) nodes = omap (node_update plan result) nodes) as ->.
  { clear Hnd IH. induction nodes as [|n nodes IH]; [done|]. apply not_elem_of_cons in Hname as [Hne Hname].
    cbn [omap list_omap]. rewrite (IH Hname). unfold node_update at 1 3. by rewrite lookup_delete_ne. }
  unfold node_update. by case_bool_decide.
Qed.

Lemma lookup_placements plan nodes node :
  NoDup (node_name <$> nodes) -> node ∈ nodes ->
  placements plan nodes !! node_name node = at_level plan <$> desired_assignment node.
Proof.
  unfold placements. assert (forall m : Placements, NoDup (node_name <$> nodes) -> node ∈ nodes ->
    m !! node_name node = None ->
    foldl (fun m node => match desired_assignment node with
      | Some t => <[node_name node := at_level plan t]> m | None => m end) m nodes !! node_name node =
    at_level plan <$> desired_assignment node) as Hfold; [|intros; by apply Hfold].
  assert (forall (l : list RegisteredNode) (m : Placements) name, name ∉ node_name <$> l ->
    foldl (fun m node => match desired_assignment node with
      | Some t => <[node_name node := at_level plan t]> m | None => m end) m l !! name = m !! name) as Hskip.
  { intros l. induction l as [|x l IH]; intros m name; [done|]. intros [Hne Hname]%not_elem_of_cons. cbn [foldl].
    rewrite (IH _ _ Hname). destruct (desired_assignment x); [by apply lookup_insert_ne|done]. }
  induction nodes as [|x nodes IH]; intros m Hnd Hin Hm; [by apply elem_of_nil in Hin|].
  apply NoDup_cons in Hnd as [Hname Hnd]. apply elem_of_cons in Hin as [->|Hin]; cbn [foldl].
  - rewrite Hskip by done. destruct (desired_assignment x); [apply lookup_insert_eq|done].
  - apply IH; [done..|]. assert (node_name x <> node_name node).
    { intros Heq. rewrite Heq in Hname. by apply Hname, list_elem_of_fmap_2. }
    destruct (desired_assignment x); [by rewrite lookup_insert_ne|done].
Qed.

Lemma placements_from plan nodes name t :
  NoDup (node_name <$> nodes) -> placements plan nodes !! name = Some t ->
  exists node, node ∈ nodes /\ node_name node = name /\ at_level plan <$> desired_assignment node = Some t.
Proof.
  intros Hnd Ht. destruct (decide (name ∈ node_name <$> nodes)) as [Hin|Hout].
  - apply list_elem_of_fmap in Hin as (node & -> & Hin). exists node. split_and!; [done..|].
    by rewrite <- (lookup_placements plan nodes).
  - exfalso. revert Ht. unfold placements. assert (forall m : Placements, m !! name = None ->
      foldl (fun m node => match desired_assignment node with
        | Some t => <[node_name node := at_level plan t]> m | None => m end) m nodes !! name = None) as Hskip.
    { clear Hnd. induction nodes as [|x l IH]; intros m Hm; [done|]. apply not_elem_of_cons in Hout as [Hne Hout]. cbn [foldl].
      apply (IH Hout). destruct (desired_assignment x); [by rewrite lookup_insert_ne|done]. }
    by rewrite Hskip.
Qed.

Definition pool_target (plan : ControllerAssignmentPlan) (t : AssignmentTarget) : Prop :=
  run_id t = parent_run_id plan \/ is_Some (branches plan !! run_id t).

Lemma reusable_level plan t : reusable plan (at_level plan t) = true -> pool_target plan t.
Proof.
  unfold reusable, at_level, pool_target. cbn. destruct (branches plan !! run_id t) eqn:Hb; cbn; [by eauto|].
  rewrite Hb, orb_true_iff, !bool_decide_eq_true. intros [?|[? ?]]; [by left|done].
Qed.


(** A controller touches only the nodes of its pool, and never frees one: an
    update applies to a node placed at the controller or below it, keeps its
    role, expects the placement the plan was computed from, and moves the node to
    a selected child or back to the controller. *)
Theorem assignments_stay_in_pool (nodes : list RegisteredNode) (plan : ControllerAssignmentPlan) (u : NodeAssignmentUpdate)
  (Hnames : NoDup (node_name <$> nodes)) (Hu : u ∈ controller_assignment_updates nodes plan) :
  exists node before after, node ∈ nodes /\ up_uuid u = node_uuid node /\ desired_assignment node = Some before /\
    expected u = Some before /\ desired u = Some after /\ after <> before /\ role after = role before /\
    pool_target plan before /\ (run_id after = parent_run_id plan \/ run_id after ∈ selected_of plan).
Proof.
  unfold controller_assignment_updates in Hu. rewrite updates_for_spec in Hu by done.
  apply list_elem_of_omap in Hu as (node & Hin & Hu). unfold node_update in Hu. case_bool_decide as Hneq; [done|].
  injection Hu as <-. cbn. set (placed := placements plan nodes) in *.
  destruct (plan_desired_outcome plan placed) as (d & a & shared & Hout).
  pose proof (lookup_placements plan nodes node Hnames Hin) as Hp. fold placed in Hp.
  destruct (pool_of plan placed !! node_name node) as [t|] eqn:Hpool.
  - destruct (result_pool _ _ _ _ _ Hout _ _ Hpool) as (t' & Ht' & Hr & Hrun). rewrite Ht' in Hneq |- *.
    apply map_lookup_filter_Some in Hpool as [Hpl Hre]. cbn in Hre. rewrite Hp in Hpl.
    destruct (desired_assignment node) as [before|] eqn:Hd; [|done]. injection Hpl as <-.
    exists node, before, t'. unfold node_next in *. rewrite Hd in *. case_bool_decide as Hb.
    + exfalso. apply Hneq. f_equal. destruct before as [r id]. cbn in *. by rewrite Hr.
    + split_and!; try done; [congruence|by apply reusable_level].
  - exfalso. apply Hneq. rewrite (result_base _ _ _ _ _ Hout) by done.
    assert (others_of plan placed !! node_name node = at_level plan <$> desired_assignment node) as ->.
    { destruct (desired_assignment node) as [t|] eqn:Hd; cbn in *.
      - apply map_lookup_filter_Some. split; [done|]. cbn. destruct (reusable plan (at_level plan t)) eqn:Hre; [|done].
        assert (pool_of plan placed !! node_name node = Some (at_level plan t)) by by apply map_lookup_filter_Some. congruence.
      - apply map_lookup_filter_None. by left. }
    unfold node_next. destruct (desired_assignment node) as [[r id]|]; [|done]. cbn.
    destruct (branches plan !! id) as [b|] eqn:Hb; cbn.
    + by rewrite bool_decide_eq_true_2.
    + rewrite bool_decide_eq_false_2 by done. unfold at_level. cbn. by rewrite Hb.
Qed.

(** ** Planning is stable *)

Lemma keep_all_evaluators current activated names ids desired needed remaining :
  NoDup activated -> NoDup names ->
  Forall2 (fun name id => current !! name = Some (mkTarget Evaluator id)) names ids -> ids ≡ₚ spread activated needed ->
  exists desired' needed', foldl (keep_evaluator current) (desired, needed, remaining) names = (desired', needed', remaining) /\
    forall name, desired' !! name = if decide (name ∈ names) then current !! name else desired !! name.
Proof.
  intros Hnd Hnames Hcur. revert desired needed Hnames.
  induction Hcur as [|name id names ids Hid Hcur IH]; intros desired needed Hnames Hids.
  { exists desired, needed. split; [done|]. intros n. by rewrite decide_False by (by intros ?%elem_of_nil). }
  apply NoDup_cons in Hnames as [Hname Hnames]. cbn [foldl keep_evaluator]. rewrite Hid. cbn [run_id].
  destruct (elem_of_spread activated needed id) as (Hact & n & Hn & Hpos); [rewrite <- Hids; by left|].
  rewrite Hn, (proj2 (Z.ltb_lt 0 n) Hpos).
  destruct (IH (<[name := mkTarget Evaluator id]> desired) (<[id := n - 1]> needed)) as (D & needed' & Hrun & HD).
  - exact Hnames.
  - apply (Permutation_cons_inv (a := id)). by rewrite Hids, (spread_take activated needed id n).
  - exists D, needed'. split; [exact Hrun|]. intros n'. rewrite HD. destruct (decide (n' = name)) as [->|Hne].
    + rewrite decide_False by done. by rewrite (decide_True _ _ (list_elem_of_here _ _)), lookup_insert_eq, Hid.
    + rewrite lookup_insert_ne by done. destruct (decide (n' ∈ names)) as [Hin|Hin].
      * by rewrite decide_True by by right.
      * by rewrite decide_False by by intros [?|?]%elem_of_cons.
Qed.

(** The controller is not below itself, and selects direct children. *)
Record well_formed (plan : ControllerAssignmentPlan) : Prop := {
  wf_parent : branches plan !! parent_run_id plan = None;
  wf_selected id b : id ∈ selected_child_run_ids plan -> branches plan !! id = Some b -> b = id
}.

Section stable.
Context (plan : ControllerAssignmentPlan) (placed d : Placements) (a : gset i32) (shared : list (string * i32)).
Context (Hwf : well_formed plan) (Hout : outcome plan placed d a shared).
Abbreviation pool := (pool_of plan placed).
Abbreviation result := (plan_desired plan placed).
Abbreviation pool' := (pool_of plan result).

Lemma result_reusable name t : pool !! name = Some t -> exists t', result !! name = Some t' /\ reusable plan t' = true.
Proof.
  intros Hp. destruct (result_pool _ _ _ _ _ Hout name t Hp) as ([r id] & Hres & _ & Hid). exists (mkTarget r id).
  split; [done|]. destruct Hid as [Hid|Hid]; cbn in Hid.
  - unfold reusable. cbn. by rewrite bool_decide_eq_true_2.
  - by apply selected_reusable.
Qed.

Lemma others_stable : others_of plan result = others_of plan placed.
Proof.
  apply map_eq. intros name. destruct (pool !! name) as [t|] eqn:Hp.
  - rewrite (others_not_pool plan placed) by by eexists. apply map_lookup_filter_None. right. cbn.
    destruct (result_reusable name t Hp) as (t' & -> & Hre). intros t2 [= <-]. congruence.
  - rewrite <- (result_base _ _ _ _ _ Hout name Hp) . destruct (result !! name) as [t|] eqn:Hres.
    + apply map_lookup_filter_Some. split; [done|]. rewrite (result_base _ _ _ _ _ Hout name Hp) in Hres.
      by apply map_lookup_filter_Some in Hres as [_ ?].
    + apply map_lookup_filter_None. by left.
Qed.

Lemma pool_stable name : pool' !! name = if decide (in_pool plan placed name) then result !! name else None.
Proof.
  case_decide as Hin.
  - destruct Hin as [t Hp]. destruct (result_reusable name t Hp) as (t' & Hres & Hre). rewrite Hres.
    by apply map_lookup_filter_Some.
  - apply eq_None_not_Some in Hin. apply map_lookup_filter_None. right. intros t. cbn.
    rewrite (result_base _ _ _ _ _ Hout name Hin). intros [_ Hre]%map_lookup_filter_Some. cbn in Hre. congruence.
Qed.

Lemma names_stable r name : name ∈ names_of r pool' <-> name ∈ names_of r pool.
Proof.
  rewrite !elem_of_names_of. setoid_rewrite pool_stable. split.
  - intros (t & Ht & Hr). case_decide as Hin; [|done]. destruct Hin as [t0 Hp]. exists t0. split; [done|].
    destruct (result_pool _ _ _ _ _ Hout name t0 Hp) as (t' & Ht' & Hr' & _). congruence.
  - intros (t & Hp & Hr). destruct (result_pool _ _ _ _ _ Hout name t Hp) as (t' & Ht' & Hr' & _). exists t'.
    rewrite decide_True by by eexists. by rewrite Ht', Hr'.
Qed.

(** The samplers at selected children, after the plan. *)
Lemma ours_placed name t : pool' !! name = Some t /\ ours (selected_of plan) t <-> in_pool plan placed name /\ d !! name = Some t.
Proof.
  pose proof (oc_sampling _ _ _ _ _ Hout) as [_ Hentry Hactive _]. rewrite pool_stable. unfold ours. split.
  - intros [Ht [Hr Hsel]]. case_decide as Hin; [|done]. split; [done|]. destruct Hin as [t0 Hp].
    destruct (result_pool _ _ _ _ _ Hout name t0 Hp) as (t' & Ht' & Hr' & _).
    assert (role t0 = SamplerAggregator) as Hr0 by congruence.
    rewrite (result_sampler _ _ _ _ _ Hout name t0 Hp Hr0) in Ht. destruct (d !! name) as [t2|]; [done|].
    injection Ht as <-. by apply (selected_not_parent plan (wf_parent _ Hwf)) in Hsel.
  - intros [[t0 Hp] Hd]. destruct (Hentry _ _ _ Hp Hd) as (Hr0 & Heq & Hin).
    rewrite decide_True by by eexists. rewrite (result_sampler _ _ _ _ _ Hout name t0 Hp Hr0), Hd. split; [done|].
    split; [by rewrite Heq|]. by apply Hactive.
Qed.

Lemma samplers_stable : assign_samplers plan (selected_of plan) pool' (others_of plan placed) = (d, a).
Proof.
  pose proof (oc_sampling _ _ _ _ _ Hout) as [Hbase Hentry Hactive Hsingle]. unfold assign_samplers.
  assert (foldl (keep_sampler plan (selected_of plan)) (others_of plan placed, ∅) (by_name pool') = (d, a)) as ->.
  { pose proof (keep_all_samplers plan (selected_of plan) (others_of plan placed) [] (by_name pool') (others_of plan placed) ∅) as Hk.
    cbn [app] in Hk. destruct (foldl _ _ _) as [d1 a1]. cbn [fst snd] in Hk. destruct Hk as (Ha1 & Hin1 & Hout1).
    - apply by_name_fst.
    - intros n1 n2 t H1%elem_of_by_name H2%elem_of_by_name Ho Hc.
      destruct (proj1 (ours_placed n1 t) (conj H1 Ho)) as [[u1 Hp1] Hd1], (proj1 (ours_placed n2 t) (conj H2 Ho)) as [Hp2 Hd2].
      destruct (Hentry _ _ _ Hp1 Hd1) as (_ & Heq & _). rewrite Heq in Hd1, Hd2. apply (Hsingle _ n1 n2 Hc); [by eexists|done..].
    - intros id. split; [by intros ?%elem_of_empty|]. by intros (? & ? & ?%elem_of_nil & _).
    - by intros ? ? ?%elem_of_nil.
    - done.
    - f_equal.
      + apply map_eq. intros name. destruct (pool !! name) as [t0|] eqn:Hp.
        * destruct (d !! name) as [t|] eqn:Hd.
          -- destruct (proj2 (ours_placed name t)) as [H1 H2]; [split; [by eexists|done]|].
             apply Hin1; [|done]. by apply elem_of_by_name.
          -- rewrite Hout1; [apply others_not_pool; by eexists|]. intros t Ht%elem_of_by_name Ho.
             destruct (proj1 (ours_placed name t) (conj Ht Ho)) as [_ ?]. congruence.
        * rewrite (Hbase name Hp), Hout1; [done|]. intros t Ht%elem_of_by_name _. revert Ht. rewrite pool_stable, decide_False; [done|].
          intros [? ?]. congruence.
      + apply set_eq. intros id. rewrite Ha1. split.
        * intros (name & t & Ht%elem_of_by_name & Ho & <-). destruct (proj1 (ours_placed name t) (conj Ht Ho)) as [[t0 Hp] Hd].
          by destruct (Hentry _ _ _ Hp Hd) as (_ & _ & ?).
        * intros Hid. destruct (Hactive id Hid) as (_ & name & Hp & Hd).
          destruct (proj2 (ours_placed name _) (conj Hp Hd)) as [H1 H2]. eexists name, _. split_and!; [by apply elem_of_by_name|done..]. }
  set (samplers := filter _ (names_of _ pool')). set (needing := filter _ (selected_of plan)).
  assert (samplers = [] \/ needing = [] /\ filter (fun id => id ∈ controllers plan) (selected_of plan) = []) as Hsat.
  { destruct (oc_saturated _ _ _ _ _ Hout) as [Hall|[Hall Hn]].
    - left. apply filter_none, Forall_forall. intros name Hin%names_stable%Hall Hd. rewrite Hd in Hin. by destruct Hin.
    - right. split; [|done]. apply filter_none, Forall_forall. intros id Hid%Hall. tauto. }
  destruct Hsat as [->|[-> ->]]; [|done].
  assert (place_samplers needing [] (d, a) = (d, a, [])) as -> by by destruct needing.
  by destruct (filter (fun id => id ∈ controllers plan) (selected_of plan)).
Qed.
Lemma current_evaluators :
  a <> ∅ -> exists ids,
    Forall2 (fun name id => pool' !! name = Some (mkTarget Evaluator id)) (names_of Evaluator pool') ids /\ ids ≡ₚ shared.*2.
Proof.
  intros Ha. destruct (shared_spec _ _ _ _ _ Hout) as (Hnd & Hin & Hex).
  exists ((fun name => from_option run_id 0 (result !! name)) <$> names_of Evaluator pool').
  assert (forall name id, (name, id) ∈ shared -> result !! name = Some (mkTarget Evaluator id)) as Hres.
  { intros name id Hsh. destruct (Hin name id Hsh) as [Hid _].
    by apply (evaluator_at_activated plan placed d a shared (wf_parent _ Hwf) Hout). }
  assert (forall name, name ∈ names_of Evaluator pool' -> exists id, (name, id) ∈ shared) as Hsh.
  { intros name Hname%names_stable. apply elem_of_names_of in Hname as (t & Hp & Hr). by apply (Hex Ha name t). }
  split.
  - apply Forall2_fmap_r, Forall_Forall2_diag, Forall_forall. intros name Hname.
    destruct (Hsh name Hname) as [id Hid]. cbn. rewrite pool_stable, (Hres name id Hid), decide_True; [done|].
    apply names_stable, elem_of_names_of in Hname as (t & Hp & _). by eexists.
  - assert (names_of Evaluator pool' ≡ₚ shared.*1) as ->.
    { apply NoDup_Permutation; [apply NoDup_names_of|done|]. intros name. split.
      - intros Hname. destruct (Hsh name Hname) as [id Hid]. by apply (list_elem_of_fmap_2 fst) in Hid.
      - intros ([n id] & -> & Hid)%list_elem_of_fmap. apply names_stable, elem_of_names_of. by apply (Hin n id). }
    clear Hsh Hex Hnd. revert Hres. clear -a. induction shared as [|[n id] l IH]; intros Hres; [done|]. cbn.
    rewrite (Hres n id) by by left. cbn. apply Permutation_skip, IH. intros n' id' Hin. apply Hres. by right.
Qed.

Lemma evaluators_stable :
  exists desired, share_evaluators pool' (names_of Evaluator pool') (ascending a) d = desired /\
    forall name, desired !! name = if decide (a <> ∅ /\ name ∈ names_of Evaluator pool') then result !! name else d !! name.
Proof.
  eexists. split; [done|]. intros name. destruct (decide (a = ∅)) as [Ha|Ha].
  { rewrite decide_False by tauto. by rewrite Ha. }
  unfold share_evaluators. destruct (ascending a) as [|x l] eqn:Hasc; [by apply ascending_nil in Hasc|]. rewrite <- Hasc.
  destruct (current_evaluators Ha) as (ids & Hids & Hperm).
  set (sh := shares _ _ 0 _).
  assert (spread (ascending a) (list_to_map sh) = deal sh) as Hdeal.
  { pose proof (shares_fst (zlen (names_of Evaluator pool')) (zlen (ascending a)) 0 (ascending a)) as Hfst. fold sh in Hfst.
    rewrite <- Hfst. apply spread_deal. rewrite Hfst. apply NoDup_ascending. }
  destruct (keep_all_evaluators pool' (ascending a) (names_of Evaluator pool') ids d (list_to_map sh) [])
    as (desired & needed & -> & Hdes); [apply NoDup_ascending|apply NoDup_names_of|done| |].
  - rewrite Hdeal, Hperm. pose proof (oc_shared _ _ _ _ _ Hout) as Hsh. rewrite decide_False in Hsh by done.
    destruct Hsh as [_ ->]. unfold sh. assert (names_of Evaluator pool' ≡ₚ names_of Evaluator pool) as Hn.
    { apply NoDup_Permutation; [apply NoDup_names_of..|]. apply names_stable. }
    assert (zlen (names_of Evaluator pool') = zlen (names_of Evaluator pool)) as Hz; [|by rewrite Hz].
    unfold zlen. by rewrite Hn.
  - cbn [place_evaluators]. rewrite Hdes. destruct (decide (name ∈ names_of Evaluator pool')) as [Hin|Hin].
    + rewrite decide_True by done. rewrite pool_stable, decide_True; [done|].
      apply names_stable, elem_of_names_of in Hin as (t & Hp & _). by eexists.
    + by rewrite decide_False by tauto.
Qed.

(** The pass over its own outcome changes nothing. *)
Lemma plan_idempotent : plan_desired plan result = result.
Proof.
  assert (exists desired, plan_desired plan result = desired ∪ (at_controller plan <$> pool') /\
    forall name, desired !! name = if decide (a <> ∅ /\ name ∈ names_of Evaluator pool') then result !! name else d !! name)
    as (desired & -> & Hdes).
  { destruct (selected_of plan) as [|x l] eqn:Hsel.
    - exists d. pose proof (oc_sampling _ _ _ _ _ Hout) as [Hbase Hentry Hactive _]. rewrite Hsel in Hactive.
      assert (a = ∅) as Ha by (apply set_eq; intros id; split; [intros [?%elem_of_nil _]%Hactive; done|set_solver]).
      split; [|intros name; by rewrite decide_False by tauto].
      assert (d = others_of plan result) as ->; [|unfold plan_desired at 1; by rewrite Hsel].
      rewrite others_stable. apply map_eq. intros name. destruct (pool !! name) as [t|] eqn:Hp; [|by apply Hbase].
      rewrite (others_not_pool plan placed) by by eexists. destruct (d !! name) as [t'|] eqn:Hd; [|done].
      destruct (Hentry _ _ _ Hp Hd) as (_ & _ & Hin). rewrite Ha in Hin. by apply elem_of_empty in Hin.
    - destruct evaluators_stable as (desired & Heq & Hdes). exists desired. split; [|done].
      unfold plan_desired at 1. rewrite Hsel, <- Hsel, others_stable, samplers_stable. cbn beta iota. by rewrite Heq. }
  apply map_eq. intros name. rewrite lookup_union, lookup_fmap, Hdes.
  pose proof (oc_sampling _ _ _ _ _ Hout) as [Hbase Hentry _ _].
  destruct (pool !! name) as [t|] eqn:Hp.
  - rewrite pool_stable, (decide_True (P := in_pool plan placed name)) by by eexists. destruct (role t) eqn:Hr.
    + pose proof (result_evaluator _ _ _ _ _ Hout name t Hp Hr) as He.
      assert (name ∈ names_of Evaluator pool') as Hname by (apply names_stable, elem_of_names_of; by exists t).
      assert (d !! name = None) as ->.
      { destruct (d !! name) as [t'|] eqn:Hd; [|done]. destruct (Hentry _ _ _ Hp Hd) as (? & _). congruence. }
      destruct (decide (a = ∅)) as [Ha|Ha].
      * rewrite (decide_False (P := a <> ∅ /\ _)) by tauto. by rewrite He.
      * rewrite (decide_True (P := a <> ∅ /\ _)) by done. destruct He as (id & _ & _ & He). by rewrite He.
    + rewrite decide_False.
      * rewrite (result_sampler _ _ _ _ _ Hout name t Hp Hr). by destruct (d !! name).
      * intros [_ Hname]. apply names_stable, elem_of_names_of in Hname as (t' & ? & ?). congruence.
  - rewrite pool_stable, decide_False, (decide_False (P := in_pool plan placed name)).
    + rewrite (result_base _ _ _ _ _ Hout name Hp), Hbase by done. by destruct (others_of plan placed !! name).
    + intros [? ?]. congruence.
    + intros [_ Hname]. apply names_stable, elem_of_names_of in Hname as (t' & ? & ?). congruence.
Qed.

End stable.

(** The nodes after every update of a batch was published. *)
Definition publish_node (updates : list NodeAssignmentUpdate) (node : RegisteredNode) : RegisteredNode :=
  match find (fun u => String.eqb (up_uuid u) (node_uuid node)) updates with
  | Some u => mkNode (node_name node) (node_uuid node) (desired u)
  | None => node
  end.
Definition publish (updates : list NodeAssignmentUpdate) (nodes : list RegisteredNode) : list RegisteredNode :=
  publish_node updates <$> nodes.

Lemma publish_node_next plan result nodes node :
  NoDup (node_uuid <$> nodes) -> node ∈ nodes ->
  publish_node (omap (node_update plan result) nodes) node =
    mkNode (node_name node) (node_uuid node) (node_next plan node (result !! node_name node)).
Proof.
  intros Hnd Hin.
  assert (forall u, u ∈ omap (node_update plan result) nodes -> up_uuid u = node_uuid node -> node_update plan result node = Some u) as Honly.
  { intros u (n & Hn & Hu)%list_elem_of_omap Heq. assert (n = node) as ->; [|done].
    unfold node_update in Hu. case_bool_decide; [done|]. injection Hu as <-. cbn in Heq.
    apply list_elem_of_lookup in Hn as [i Hi], Hin as [j Hj].
    assert (i = j) as ->; [|congruence]. eapply NoDup_lookup; [exact Hnd| |].
    - by rewrite list_lookup_fmap, Hi.
    - rewrite list_lookup_fmap, Hj. cbn. by rewrite Heq. }
  unfold publish_node. destruct (find _ _) as [u|] eqn:Hf.
  - apply find_some in Hf as [Hu Heq%String.eqb_eq]. apply list_elem_of_In in Hu.
    specialize (Honly u Hu Heq). unfold node_update in Honly. case_bool_decide; [done|]. by injection Honly as <-.
  - assert (node_update plan result node = None) as Hnone.
    { destruct (node_update plan result node) as [u|] eqn:Hu; [|done].
      assert (u ∈ omap (node_update plan result) nodes) as Hmem by (apply list_elem_of_omap; by exists node).
      apply list_elem_of_In in Hmem. pose proof (find_none _ _ Hf u Hmem) as Hne. cbn in Hne.
      unfold node_update in Hu. case_bool_decide; [done|]. injection Hu as <-. cbn in Hne. by rewrite String.eqb_refl in Hne. }
    unfold node_update in Hnone. case_bool_decide as Heq; [|done]. destruct node. cbn in *. by rewrite <- Heq.
Qed.

(** Placements of published nodes, at the level of the controller. *)
Lemma placements_published plan nodes nodes' :
  well_formed plan -> NoDup (node_name <$> nodes) ->
  nodes' = (fun node => mkNode (node_name node) (node_uuid node)
    (node_next plan node (plan_desired plan (placements plan nodes) !! node_name node))) <$> nodes ->
  placements plan nodes' = plan_desired plan (placements plan nodes).
Proof.
  intros Hwf Hnd Hnodes'. set (placed := placements plan nodes) in *. set (result := plan_desired plan placed) in *.
  destruct (plan_desired_outcome plan placed) as (d & a & shared & Hout).
  assert (NoDup (node_name <$> nodes')) as Hnd' by by rewrite Hnodes', <- list_fmap_compose.
  assert (forall name v, result !! name = Some v -> at_level plan v = v) as Hlevel.
  { intros name v Hv. assert (branches plan !! run_id v = None \/ branches plan !! run_id v = Some (run_id v)) as Hb.
    { destruct (pool_of plan placed !! name) as [t|] eqn:Hp.
      - destruct (result_pool _ _ _ _ _ Hout name t Hp) as (t' & Ht' & _ & Hid). fold result in Ht'.
        rewrite Hv in Ht'. injection Ht' as <-. destruct Hid as [->|Hid]; [left; apply (wf_parent _ Hwf)|right].
        apply selected_of_spec in Hid as [Hsel [b Hb]]. by rewrite (wf_selected _ Hwf _ _ Hsel Hb) in Hb.
      - left. pose proof (result_base _ _ _ _ _ Hout name Hp) as Hbase. fold result in Hbase. rewrite Hv in Hbase.
        symmetry in Hbase. apply map_lookup_filter_Some in Hbase as [_ Hre]. cbn in Hre.
        unfold reusable in Hre. apply orb_false_iff in Hre as [_ Hre%bool_decide_eq_false].
        by apply eq_None_not_Some. }
    unfold at_level. destruct v as [r id]. cbn in *. by destruct Hb as [->| ->]. }
  assert (forall node, node ∈ nodes -> at_level plan <$> node_next plan node (result !! node_name node) = result !! node_name node) as Hnext.
  { intros node Hin. unfold node_next. destruct (result !! node_name node) as [v|] eqn:Hv; [|by destruct (desired_assignment node)].
    destruct (desired_assignment node) as [[r id]|]; cbn.
    - case_bool_decide as Hb; cbn in Hb |- *; [|by rewrite (Hlevel _ _ Hv)].
      unfold at_level. cbn. rewrite Hb. by destruct v.
    - by rewrite (Hlevel _ _ Hv). }
  apply map_eq. intros name. destruct (decide (name ∈ node_name <$> nodes)) as [Hin|Hnot].
  - apply list_elem_of_fmap in Hin as (node & -> & Hin). rewrite <- (Hnext node Hin).
    apply (lookup_placements plan nodes' (mkNode (node_name node) (node_uuid node) (node_next plan node (result !! node_name node))) Hnd').
    rewrite Hnodes'. apply list_elem_of_fmap. by exists node.
  - assert (forall l, NoDup (node_name <$> l) -> node_name <$> l = node_name <$> nodes -> placements plan l !! name = None) as Hnone.
    { intros l Hndl Hl. destruct (placements plan l !! name) as [t|] eqn:Ht; [|done].
      apply placements_from in Ht as (node & Hin & <- & _); [|done]. destruct Hnot. rewrite <- Hl. by apply list_elem_of_fmap_2. }
    rewrite Hnone; [|done|by rewrite Hnodes', <- list_fmap_compose].
    assert (placed !! name = None) as Hplaced by by apply Hnone.
    assert (pool_of plan placed !! name = None) as Hp by (apply map_lookup_filter_None; by left).
    symmetry. unfold result. rewrite (result_base _ _ _ _ _ Hout name Hp). apply map_lookup_filter_None. by left.
Qed.

Lemma published_plan_is_stable (nodes : list RegisteredNode) (plan : ControllerAssignmentPlan)
  (Hwf : well_formed plan) (Hnames : NoDup (node_name <$> nodes)) (Huuids : NoDup (node_uuid <$> nodes)) :
  controller_assignment_updates (publish (controller_assignment_updates nodes plan) nodes) plan = [].
Proof.
  unfold controller_assignment_updates at 2. rewrite updates_for_spec by done.
  set (result := plan_desired plan (placements plan nodes)).
  set (next := fun node => mkNode (node_name node) (node_uuid node) (node_next plan node (result !! node_name node))).
  assert (publish (omap (node_update plan result) nodes) nodes = next <$> nodes) as ->.
  { apply list_fmap_ext. intros i node Hnode. apply publish_node_next; [done|]. by eapply list_elem_of_lookup_2. }
  unfold controller_assignment_updates. rewrite updates_for_spec by by rewrite <- list_fmap_compose.
  rewrite (placements_published plan nodes) by done. fold result.
  destruct (plan_desired_outcome plan (placements plan nodes)) as (d & a & shared & Hout).
  assert (plan_desired plan result = result) as -> by by eapply plan_idempotent.
  assert (forall node, node_update plan result (next node) = None) as Hnone.
  { intros node. unfold node_update. rewrite bool_decide_eq_true_2; [done|]. unfold next, node_next. cbn.
    destruct (result !! node_name node) as [v|]; [|by destruct (desired_assignment node)].
    destruct (desired_assignment node) as [[r id]|]; cbn; [|case_bool_decide; by destruct v].
    case_bool_decide as Hb; cbn; [by rewrite bool_decide_eq_true_2|]. case_bool_decide; by destruct v. }
  generalize nodes. intros l. induction l as [|node l IH]; [done|]. cbn. by rewrite Hnone, IH.
Qed.

(** A campaign with run 1 and children 2, 3 and 4, where child 4 replaces
    child 2; 5 is below 3. *)
Definition example_nodes : list RegisteredNode :=
  let node name r run := mkNode name name (Some (mkTarget r run)) in
  [node "s1" SamplerAggregator 2; node "s2" SamplerAggregator 5; node "e1" Evaluator 2; node "e2" Evaluator 5;
   node "e3" Evaluator 2; node "e4" Evaluator 1; node "other" Evaluator 9]%string.
Definition example_plan : ControllerAssignmentPlan :=
  with_branches [(2, 2, false); (3, 3, true); (4, 4, false); (5, 3, true)] (plan_new 1 [3; 4]).

Lemma example_updates :
  controller_assignment_updates example_nodes example_plan =
    [mkUpdate "s1" (Some (mkTarget SamplerAggregator 2)) (Some (mkTarget SamplerAggregator 4));
     mkUpdate "e1" (Some (mkTarget Evaluator 2)) (Some (mkTarget Evaluator 3));
     mkUpdate "e3" (Some (mkTarget Evaluator 2)) (Some (mkTarget Evaluator 4));
     mkUpdate "e4" (Some (mkTarget Evaluator 1)) (Some (mkTarget Evaluator 4))]%string.
Proof. vm_compute. reflexivity. Qed.

Lemma assignments_stay_in_pool_witness :
  exists node before after, node ∈ example_nodes /\ desired_assignment node = Some before /\ after <> before /\ role after = role before.
Proof.
  destruct (assignments_stay_in_pool example_nodes example_plan
    (mkUpdate "e4" (Some (mkTarget Evaluator 1)) (Some (mkTarget Evaluator 4))))
    as (node & before & after & H1 & _ & H2 & _ & _ & H3 & H4 & _).
  - by apply (bool_decide_unpack (NoDup (node_name <$> example_nodes))).
  - rewrite example_updates. set_solver.
  - by exists node, before, after.
Defined.

Lemma pool_shared_fairly_witness :
  let placed := placements example_plan example_nodes in
  working example_plan placed 3 /\ working example_plan placed 4 /\
  (evaluators_on 3 (plan_desired example_plan placed) <= evaluators_on 4 (plan_desired example_plan placed) + 1)%nat.
Proof.
  intros placed. assert (selected_of example_plan = [3; 4]) as Hsel by reflexivity.
  assert (working example_plan placed 3) as H3.
  { split; [rewrite Hsel; set_solver|]. exists "s2"%string. split; [by eexists|reflexivity]. }
  assert (working example_plan placed 4) as H4.
  { split; [rewrite Hsel; set_solver|]. exists "s1"%string. split; [by eexists|reflexivity]. }
  split_and!; [exact H3|exact H4|].
  by apply (pool_shared_fairly example_plan placed eq_refl).
Defined.
