(* ===== verification/ControlPlane.v ===== *)
(** src/stores/queries/control_plane.rs, src/stores/connection_budget.rs and the
    assignment statements of src/stores/pg_store.rs: the registry of worker nodes
    and their assignments.

    A node has the pool it belongs to, the placement a controller wants and the
    assignment it is working on. Each operation is one statement or transaction
    over the tables, at the database time [now]; an error rolls it back. A pair
    of columns (run, role) that a table constraint keeps both null or both set is
    one [option AssignmentTarget]. Columns nothing below reads (capabilities,
    activity, cpu accounting, result texts) are left out. *)
From S2P Require Import Prelude WorkQueue Assignments.

(** ** Tables *)

Record NodeRow := mkNodeRow {
  nr_uuid : string;
  lease_expires_at : i64;
  pool : option AssignmentTarget;
  wanted : option AssignmentTarget;
  active : option AssignmentTarget;
  resume_requested : bool;
  launch_request_id : option i64;
  last_seen : option i64;
  shutdown_requested : bool
}.

Record RunRow := mkRunRow {
  parent_run : option i32;
  (** [integration_params->>'run_kind'] *)
  run_kind : option string;
  (** the parent task is active *)
  parent_task_active : bool
}.

Inductive LaunchState := Pending | Starting | Fulfilled | Failed | Canceled.
#[export] Instance LaunchState_eq_dec : EqDecision LaunchState.
Proof. solve_decision. Defined.

Record LaunchRow := mkLaunchRow {
  l_state : LaunchState;
  l_local : bool;
  requested_count : i32;
  started_count : i32;
  created_at : i64
}.

Inductive ExternalState := WPending | Submitting | Submitted | Connected | WFailed | WCanceled.
#[export] Instance ExternalState_eq_dec : EqDecision ExternalState.
Proof. solve_decision. Defined.

Record ExternalRow := mkExternalRow { w_state : ExternalState; has_job : bool }.

Record Tables := mkTables {
  nodes : gmap string NodeRow;
  runs : gmap i32 RunRow;
  launches : gmap i64 LaunchRow;
  externals : gmap (i64 * string) ExternalRow
}.
Definition set_nodes (x : gmap string NodeRow) (d : Tables) : Tables := mkTables x (runs d) (launches d) (externals d).

(** UPDATE nodes SET .. WHERE .. *)
Definition update_nodes (matches : string -> NodeRow -> bool) (set : NodeRow -> NodeRow) (d : Tables) : Tables :=
  set_nodes (map_imap (fun name n => Some (if matches name n then set n else n)) (nodes d)) d.
Definition rows_matching (matches : string -> NodeRow -> bool) (d : Tables) : Z :=
  Z.of_nat (size (filter (fun p => matches p.1 p.2 = true) (nodes d))).

Definition set_assignments (p w a : option AssignmentTarget) (n : NodeRow) : NodeRow :=
  mkNodeRow (nr_uuid n) (lease_expires_at n) p w a (resume_requested n) (launch_request_id n) (last_seen n) (shutdown_requested n).
Definition set_wanted (w : option AssignmentTarget) (n : NodeRow) : NodeRow := set_assignments (pool n) w (active n) n.
Definition set_active (a : option AssignmentTarget) (n : NodeRow) : NodeRow := set_assignments (pool n) (wanted n) a n.

Definition live (now : i64) (n : NodeRow) : bool := now <? lease_expires_at n.

(** ** The run tree *)

(** [worker_pool_root]: the ancestor without a parent; the fuel exceeds every
    path of the table. *)
Fixpoint root_of (fuel : nat) (runs : gmap i32 RunRow) (run : i32) : option i32 :=
  match fuel with
  | O => None
  | S fuel =>
      row ← runs !! run;
      match parent_run row with None => Some run | Some parent => root_of fuel runs parent end
  end.
Definition worker_pool_root (run : i32) (d : Tables) : option i32 := root_of (S (size (runs d))) (runs d) run.

(** [run] is [top] or below it. *)
Fixpoint below (fuel : nat) (runs : gmap i32 RunRow) (top run : i32) : bool :=
  bool_decide (run = top) ||
  match fuel with
  | O => false
  | S fuel =>
      match runs !! run with
      | Some row => match parent_run row with Some parent => below fuel runs top parent | None => false end
      | None => false
      end
  end.
Definition in_tree (top run : i32) (d : Tables) : bool :=
  bool_decide (is_Some (runs d !! run)) && below (size (runs d)) (runs d) top run.

(** The direct child of [top] that [run] is, or is below. *)
Fixpoint branch_of (fuel : nat) (runs : gmap i32 RunRow) (top run : i32) : option i32 :=
  match fuel with
  | O => None
  | S fuel =>
      row ← runs !! run;
      parent ← parent_run row;
      if bool_decide (parent = top) then Some run else branch_of fuel runs top parent
  end.

Definition kind_of (row : RunRow) : string := default "integration"%string (run_kind row).

Definition worker_pool_branches (top : i32) (d : Tables) : list (i32 * i32 * bool) :=
  omap (fun '(run, _) =>
    branch ← branch_of (S (size (runs d))) (runs d) top run;
    row ← runs d !! branch;
    Some (run, branch, negb (String.eqb (kind_of row) "integration"))) (by_key (runs d)).

(** ** Expiry *)

Definition controller_kind (kind : string) : bool :=
  existsb (String.eqb kind) ["integration_campaign"; "parameter_scan"; "hyperparameter_tuning"]%string.

(** A pool of a controller, a node about to resume and a node that is being
    launched outlive the lease. *)
Definition owned_by_controller (n : NodeRow) (d : Tables) : bool :=
  match pool n with
  | Some t =>
      match runs d !! run_id t with
      | Some row => bool_decide (is_Some (parent_run row)) || match run_kind row with Some k => controller_kind k | None => false end
      | None => false
      end
  | None => false
  end.
Definition launching (n : NodeRow) (d : Tables) : bool :=
  match launch_request_id n with
  | Some id => match launches d !! id with
               | Some r => bool_decide (l_state r = Pending) || bool_decide (l_state r = Starting)
               | None => false
               end
  | None => false
  end.
Definition retains (n : NodeRow) (d : Tables) : bool := resume_requested n || owned_by_controller n d || launching n d.

Definition expired_with_assignment (now : i64) (n : NodeRow) : bool :=
  (lease_expires_at n <=? now) && (bool_decide (is_Some (wanted n)) || bool_decide (is_Some (active n))).

Definition clear_expired_assignments (now : i64) (d : Tables) : Tables :=
  update_nodes (fun _ => expired_with_assignment now)
    (fun n => if retains n d then set_active None n else set_assignments None None None n) d.

(** ** The connection budget *)

Definition CONNECTIONS_PER_WORKER : Z := 2 + 2.
Definition EXTRA_SAMPLER_CONNECTIONS : Z := 6 - 2.
Definition CONNECTION_HEADROOM : Z := 16.

Definition capacity (max_connections reserved_connections samplers : i64) : i64 :=
  Z.quot (Z.max 0 (max_connections - reserved_connections - CONNECTION_HEADROOM - samplers * EXTRA_SAMPLER_CONNECTIONS))
    CONNECTIONS_PER_WORKER.

(** Launched and not seen since the request was made. *)
Definition reserved (now : i64) (name : string) (n : NodeRow) (d : Tables) : bool :=
  negb (live now n) &&
  match launch_request_id n with
  | Some id =>
      match launches d !! id with
      | Some r =>
          (bool_decide (l_state r = Pending) || bool_decide (l_state r = Starting)) &&
          match last_seen n with None => true | Some t => t <? created_at r end &&
          negb match externals d !! (id, name) with
               | Some w => bool_decide (w_state w = WFailed) || bool_decide (w_state w = WCanceled)
               | None => false
               end
      | None => false
      end
  | None => false
  end.

Definition has_role (r : WorkerRole) (t : option AssignmentTarget) : bool :=
  match t with Some t => bool_decide (role t = r) | None => false end.
Definition sampler_node (n : NodeRow) : bool :=
  has_role SamplerAggregator (pool n) || has_role SamplerAggregator (wanted n) || has_role SamplerAggregator (active n).

Definition live_workers (now : i64) (d : Tables) : Z := rows_matching (fun _ => live now) d.
Definition reserved_workers (now : i64) (d : Tables) : Z := rows_matching (fun name n => reserved now name n d) d.
Definition sampler_workers (now : i64) (d : Tables) : Z :=
  rows_matching (fun name n => (live now n || reserved now name n d) && sampler_node n) d.

(** [max_connections] and the reserved connections are server settings. *)
Record Server := mkServer { max_connections : i32; reserved_connections : i32 }.

Definition check_worker_connection_budget (server : Server) (now : i64) (additional : i64) (d : Tables) : bool :=
  let allowed := capacity (max_connections server) (reserved_connections server) (sampler_workers now d) in
  i64_saturating_add (i64_saturating_add (live_workers now d) (reserved_workers now d)) additional <=? allowed.

(** ** Launch requests *)

(** [name] registered for request [id] since it was made. *)
Definition connected (id : i64) (name : string) (r : LaunchRow) (d : Tables) : bool :=
  match nodes d !! name with
  | Some n => bool_decide (launch_request_id n = Some id) && match last_seen n with Some t => created_at r <=? t | None => false end
  | None => false
  end.

Definition starting (d : Tables) : gmap i64 LaunchRow := filter (fun p => l_state p.2 = Starting) (launches d).

Definition connect_externals (d : Tables) : Tables :=
  mkTables (nodes d) (runs d) (launches d)
    (map_imap (fun '(id, name) w => Some
       match starting d !! id with
       | Some r =>
           if (bool_decide (w_state w = WPending) || bool_decide (w_state w = Submitting) || bool_decide (w_state w = Submitted))
              && connected id name r d
           then mkExternalRow Connected (has_job w) else w
       | None => w
       end) (externals d)).

Definition externals_of (id : i64) (d : Tables) : gmap (i64 * string) ExternalRow := filter (fun p => p.1.1 = id) (externals d).
Definition count_externals (p : ExternalRow -> bool) (id : i64) (d : Tables) : Z :=
  Z.of_nat (size (filter (fun q => p q.2 = true) (externals_of id d))).

Definition update_launches (f : i64 -> LaunchRow -> LaunchRow) (d : Tables) : Tables :=
  mkTables (nodes d) (runs d) (map_imap (fun id r => Some (if bool_decide (l_state r = Starting) then f id r else r)) (launches d))
    (externals d).

Definition count_started (d : Tables) : Tables :=
  update_launches (fun id r =>
    if count_externals (fun _ => true) id d =? 0 then r
    else mkLaunchRow (l_state r) (l_local r) (requested_count r)
           (count_externals (fun w => has_job w || bool_decide (w_state w = Connected)) id d) (created_at r)) d.

Definition set_state (s : LaunchState) (r : LaunchRow) : LaunchRow :=
  mkLaunchRow s (l_local r) (requested_count r) (started_count r) (created_at r).

(** Every external worker connected, failed or was canceled. *)
Definition settle_external (d : Tables) : Tables :=
  update_launches (fun id r =>
    if negb (l_local r) && (count_externals (fun _ => true) id d =? requested_count r) &&
       (count_externals (fun w => bool_decide (w_state w = WPending) || bool_decide (w_state w = Submitting)
                                  || bool_decide (w_state w = Submitted)) id d =? 0)
    then set_state (if 0 <? count_externals (fun w => bool_decide (w_state w = WFailed) || bool_decide (w_state w = WCanceled)) id d
                    then Failed else Fulfilled) r
    else r) d.

Definition registered (id : i64) (r : LaunchRow) (d : Tables) : Z :=
  Z.of_nat (size (filter (fun p => connected id p.1 r d = true) (nodes d))).

Definition fulfil_local (d : Tables) : Tables :=
  update_launches (fun id r =>
    if l_local r && (requested_count r <=? started_count r) && (requested_count r <=? registered id r d)
    then set_state Fulfilled r else r) d.

Definition reconcile_fulfilled_node_launch_requests (d : Tables) : Tables :=
  fulfil_local (settle_external (count_started (connect_externals d))).

(** ** Operations *)

Definition clear_desired (n : NodeRow) : NodeRow := set_assignments None None (active n) n.

(** [lease_expires_at = now + interval '10 seconds'], in microseconds. *)
Definition NODE_LEASE : i64 := 10000000.

Definition renew (now : i64) (n : NodeRow) : NodeRow :=
  mkNodeRow (nr_uuid n) (now + NODE_LEASE) (pool n) (wanted n) (active n) (resume_requested n) (launch_request_id n) (Some now)
    (shutdown_requested n).

(** A new process takes over the expired registration of a name. *)
Definition take_over (now : i64) (uuid : string) (n : NodeRow) (d : Tables) : NodeRow :=
  mkNodeRow uuid (now + NODE_LEASE) (if retains n d then pool n else None) (if retains n d then wanted n else None) None
    (resume_requested n) (launch_request_id n) (Some now) false.

Definition announce_node (now : i64) (name uuid : string) (d : Tables) : Tables * result string unit :=
  match nodes d !! name with
  | None =>
      let n := mkNodeRow uuid (now + NODE_LEASE) None None None false None (Some now) false in
      (reconcile_fulfilled_node_launch_requests (set_nodes (<[name := n]> (nodes d)) d), Ok tt)
  | Some n =>
      if String.eqb (nr_uuid n) uuid then (set_nodes (<[name := renew now n]> (nodes d)) d, Ok tt)
      else if live now n then (d, Err "node name is already owned by another live node uuid"%string)
      else (reconcile_fulfilled_node_launch_requests (set_nodes (<[name := take_over now uuid n d]> (nodes d)) d), Ok tt)
  end.

Definition run_exists (d : Tables) (t : option AssignmentTarget) : bool :=
  match t with Some t => bool_decide (is_Some (runs d !! run_id t)) | None => true end.

(** The node still is as the planner saw it. *)
Definition matched (now : i64) (d : Tables) (u : NodeAssignmentUpdate) : bool :=
  bool_decide (map_Exists (fun _ n => nr_uuid n = up_uuid u /\ live now n = true /\ wanted n = expected u) (nodes d)).

Definition uuid_is (uuid : string) (_ : string) (n : NodeRow) : bool := String.eqb (nr_uuid n) uuid.

Definition write_update (d : Tables) (u : NodeAssignmentUpdate) : Tables :=
  update_nodes (uuid_is (up_uuid u)) (set_wanted (desired u)) d.

Definition uuid_le (a b : NodeAssignmentUpdate) : Prop := String.leb (up_uuid a) (up_uuid b) = true.
#[export] Instance uuid_le_dec : RelDecision uuid_le.
Proof. intros a b. unfold Decision, uuid_le. destruct (String.leb _ _); [by left|by right]. Defined.

Definition admits_sampler (updates : list NodeAssignmentUpdate) : bool :=
  existsb (fun u => has_role SamplerAggregator (desired u)) updates.

Definition update_desired_assignments (server : Server) (now : i64) (updates : list NodeAssignmentUpdate) (d : Tables)
    : Tables * result string bool :=
  match updates with
  | [] => (d, Ok true)
  | _ =>
      let d1 := clear_expired_assignments now d in
      let ordered := merge_sort uuid_le updates in
      if forallb (matched now d1) ordered then
        if forallb (fun u => run_exists d (desired u)) ordered then
          let d2 := foldl write_update d1 ordered in
          if admits_sampler updates && negb (check_worker_connection_budget server now 0 d2)
          then (d, Err "worker connection budget exceeded"%string)
          else (d2, Ok true)
        else (d, Err "foreign key violation"%string)
      else (d, Ok false)
  end.

Inductive PoolAssignmentOutcome := Assigned | NodeNotLive | SamplerOccupied.

Definition assign_worker_pool (server : Server) (now : i64) (name : string) (r : WorkerRole) (run : i32) (d : Tables)
    : Tables * result string PoolAssignmentOutcome :=
  let d1 := clear_expired_assignments now d in
  match worker_pool_root run d with
  | None => (d, Err "no rows returned"%string)
  | Some root =>
      let standalone := match runs d !! root with Some row => String.eqb (kind_of row) "integration" | None => true end in
      let target := mkTarget r root in
      if bool_decide (r = SamplerAggregator) && standalone &&
         bool_decide (map_Exists (fun other n => other <> name /\ pool n = Some target) (nodes d1))
      then (d, Ok SamplerOccupied)
      else
        let place (_ : string) (n : NodeRow) :=
          set_assignments (Some target)
            (if bool_decide (pool n = Some target) then Some (mkTarget r (default root (run_id <$> wanted n))) else Some target)
            (active n) n in
        let matches other n := String.eqb other name && live now n in
        let d2 := update_nodes matches (place name) d1 in
        if bool_decide (r = SamplerAggregator) && negb (check_worker_connection_budget server now 0 d2)
        then (d, Err "worker connection budget exceeded"%string)
        else (d2, Ok (if rows_matching matches d1 =? 0 then NodeNotLive else Assigned))
  end.

Definition clear_desired_assignment (name : string) (d : Tables) : Tables :=
  update_nodes (fun other _ => String.eqb other name) clear_desired d.

Definition on_tree (d : Tables) (top : i32) (t : option AssignmentTarget) : bool :=
  match t with Some t => in_tree top (run_id t) d | None => false end.
Definition on_run (run : i32) (t : option AssignmentTarget) : bool :=
  match t with Some t => run_id t =? run | None => false end.

Definition clear_desired_assignments_for_run (run : i32) (d : Tables) : Tables :=
  update_nodes (fun _ n => on_tree d run (wanted n) || on_run run (pool n)) clear_desired d.

Definition clear_desired_assignments_for_run_except_node (run : i32) (keep : string) (d : Tables) : Tables :=
  update_nodes (fun name n => on_run run (wanted n) && negb (String.eqb name keep)) clear_desired d.

Definition clear_all_desired_assignments (d : Tables) : Tables := update_nodes (fun _ _ => true) clear_desired d.

Definition in_pool_of (run : i32) (d : Tables) (n : NodeRow) : bool :=
  match pool n, worker_pool_root run d with Some t, Some root => run_id t =? root | _, _ => false end.

Definition pause_worker_pool (run : i32) (d : Tables) : Tables :=
  update_nodes (fun _ n => in_pool_of run d n && bool_decide (is_Some (wanted n))) (set_wanted None) d.
Definition resume_worker_pool (run : i32) (d : Tables) : Tables :=
  update_nodes (fun _ n => in_pool_of run d n && bool_decide (wanted n = None)) (fun n => set_wanted (pool n) n) d.

(** The workers of a finished run go back to the controller that waits for it,
    or leave their pool. *)
Definition finish_run_assignments (run : i32) (d : Tables) : Tables :=
  let destination := row ← runs d !! run; parent ← parent_run row; if parent_task_active row then Some parent else None in
  update_nodes (fun _ n => on_run run (wanted n) || on_run run (pool n))
    (fun n => match destination with
              | Some parent => set_assignments (pool n) ((fun t => mkTarget (role t) parent) <$> wanted n) (active n) n
              | None => clear_desired n
              end) d.

(** The unique index on the samplers that work. *)
Definition active_conflict (d : Tables) : Prop :=
  map_Exists (fun n1 x1 => map_Exists (fun n2 x2 =>
    n1 <> n2 /\ has_role SamplerAggregator (active x1) = true /\ active x1 = active x2) (nodes d)) (nodes d).

Definition live_uuid (now : i64) (uuid : string) (_ : string) (n : NodeRow) : bool := String.eqb (nr_uuid n) uuid && live now n.

(** The expiry is a statement of its own and stays when the update fails. *)
Definition set_current_assignment (now : i64) (uuid : string) (r : WorkerRole) (run : i32) (d : Tables)
    : Tables * result string unit :=
  let d1 := clear_expired_assignments now d in
  let d2 := update_nodes (live_uuid now uuid) (set_active (Some (mkTarget r run))) d1 in
  if rows_matching (live_uuid now uuid) d1 =? 0 then (d1, Err "node uuid is no longer live"%string)
  else if bool_decide (active_conflict d2) then (d1, Err "idx_nodes_current_sampler_run"%string)
  else if bool_decide (is_Some (runs d !! run)) then (d2, Ok tt)
  else (d1, Err "foreign key violation"%string).

Definition clear_current_assignment (now : i64) (uuid : string) (d : Tables) : Tables * result string unit :=
  if rows_matching (live_uuid now uuid) d =? 0 then (d, Err "node uuid is no longer live"%string)
  else (update_nodes (live_uuid now uuid) (set_active None) d, Ok tt).

Definition ask_shutdown (n : NodeRow) : NodeRow :=
  mkNodeRow (nr_uuid n) (lease_expires_at n) None None (active n) false (launch_request_id n) (last_seen n) true.

Definition request_node_shutdown (name : string) (d : Tables) : Tables :=
  match nodes d !! name with
  | Some n => set_nodes (<[name := ask_shutdown n]> (nodes d)) d
  | None => set_nodes (<[name := mkNodeRow "" 0 None None None false None None true]> (nodes d)) d
  end.
Definition request_all_nodes_shutdown (now : i64) (d : Tables) : Tables :=
  update_nodes (fun _ n => live now n || resume_requested n) ask_shutdown d.

Definition consume_node_shutdown_request (uuid : string) (d : Tables) : Tables * bool :=
  let matches name n := uuid_is uuid name n && shutdown_requested n in
  (update_nodes matches (fun n => mkNodeRow (nr_uuid n) (lease_expires_at n) (pool n) (wanted n) (active n) (resume_requested n)
     (launch_request_id n) (last_seen n) false) d, 0 <? rows_matching matches d).

Definition expire_node_lease (now : i64) (uuid : string) (d : Tables) : Tables :=
  update_nodes (uuid_is uuid) (fun n =>
    mkNodeRow (nr_uuid n) now (if resume_requested n then pool n else None) (if resume_requested n then wanted n else None) None
      (resume_requested n) (launch_request_id n) (last_seen n) false) d.

Definition remove_run (run : i32) (d : Tables) : Tables :=
  let outside t := if on_tree d run t then None else t in
  let d1 := update_nodes (fun _ n => on_tree d run (pool n) || on_tree d run (wanted n) || on_tree d run (active n))
              (fun n => set_assignments (outside (pool n)) (outside (wanted n)) (outside (active n)) n) d in
  mkTables (nodes d1) (filter (fun p => in_tree run p.1 d = false) (runs d1)) (launches d1) (externals d1).

(** ** Controllers on the registry *)

(** The live nodes in name order. *)
Definition list_nodes (now : i64) (d : Tables) : list RegisteredNode :=
  (fun p : string * NodeRow => mkNode p.1 (nr_uuid p.2) (wanted p.2)) <$> by_name (filter (fun p => live now p.2 = true) (nodes d)).

Definition plan_for (parent : i32) (selected : list i32) (d : Tables) : ControllerAssignmentPlan :=
  with_branches (worker_pool_branches parent d) (plan_new parent selected).

(** One snapshot, one plan, one batch. *)
Definition apply_controller_assignment_plan (server : Server) (now : i64) (parent : i32) (selected : list i32) (d : Tables)
    : Tables * result string bool :=
  update_desired_assignments server now
    (controller_assignment_updates (list_nodes now d) (plan_for parent selected d)) d.

(** ** Operations as steps *)

Inductive CpOp :=
| AnnounceNode (name uuid : string)
| AssignWorkerPool (name : string) (r : WorkerRole) (run : i32)
| UpdateDesired (updates : list NodeAssignmentUpdate)
| ClearDesired (name : string)
| ClearForRun (run : i32)
| ClearForRunExcept (run : i32) (keep : string)
| ClearAll
| PausePool (run : i32)
| ResumePool (run : i32)
| FinishRun (run : i32)
| SetCurrent (uuid : string) (r : WorkerRole) (run : i32)
| ClearCurrent (uuid : string)
| RequestShutdown (name : string)
| RequestAllShutdown
| ConsumeShutdown (uuid : string)
| ExpireLease (uuid : string)
| RemoveRun (run : i32).

Definition exec (server : Server) (now : i64) (op : CpOp) (d : Tables) : Tables :=
  match op with
  | AnnounceNode name uuid => (announce_node now name uuid d).1
  | AssignWorkerPool name r run => (assign_worker_pool server now name r run d).1
  | UpdateDesired updates => (update_desired_assignments server now updates d).1
  | ClearDesired name => clear_desired_assignment name d
  | ClearForRun run => clear_desired_assignments_for_run run d
  | ClearForRunExcept run keep => clear_desired_assignments_for_run_except_node run keep d
  | ClearAll => clear_all_desired_assignments d
  | PausePool run => pause_worker_pool run d
  | ResumePool run => resume_worker_pool run d
  | FinishRun run => finish_run_assignments run d
  | SetCurrent uuid r run => (set_current_assignment now uuid r run d).1
  | ClearCurrent uuid => (clear_current_assignment now uuid d).1
  | RequestShutdown name => request_node_shutdown name d
  | RequestAllShutdown => request_all_nodes_shutdown now d
  | ConsumeShutdown uuid => (consume_node_shutdown_request uuid d).1
  | ExpireLease uuid => expire_node_lease now uuid d
  | RemoveRun run => remove_run run d
  end.

(** Any operation at any time, and new runs, whose identifiers no node has. *)
Inductive cp_step (server : Server) : Tables -> Tables -> Prop :=
| cp_exec now op d : cp_step server d (exec server now op d)
| cp_create_run run row d :
    runs d !! run = None -> map_Forall (fun _ n => run_id <$> pool n <> Some run) (nodes d) ->
    cp_step server d (mkTables (nodes d) (<[run := row]> (runs d)) (launches d) (externals d)).

(** ** Updates of rows *)

Lemma lookup_update_nodes matches set d name :
  nodes (update_nodes matches set d) !! name = (fun n => if matches name n then set n else n) <$> nodes d !! name.
Proof. unfold update_nodes. cbn. rewrite map_lookup_imap. by destruct (nodes d !! name). Qed.

Lemma rows_matching_zero matches d : rows_matching matches d = 0 <-> forall name n, nodes d !! name = Some n -> matches name n = false.
Proof.
  unfold rows_matching. split.
  - intros Hz name n Hn. destruct (matches name n) eqn:Hm; [|done].
    assert (filter (fun p => matches p.1 p.2 = true) (nodes d) = ∅) as He by (apply map_size_empty_inv; lia).
    assert (filter (fun p => matches p.1 p.2 = true) (nodes d) !! name = Some n) as Hl by by apply map_lookup_filter_Some.
    by rewrite He in Hl.
  - intros Hno. rewrite (proj2 (map_empty (filter _ _))); [by rewrite map_size_empty|].
    intros name. apply map_lookup_filter_None. right. intros n Hn. cbn. by rewrite (Hno name n Hn).
Qed.

(** ** Ownership of a name *)

(** The registration [n'] continues [n]. *)
Definition continues (now : i64) (n n' : NodeRow) : Prop :=
  nr_uuid n' = nr_uuid n /\ (lease_expires_at n' = lease_expires_at n \/ lease_expires_at n' = now + NODE_LEASE).

Lemma continues_refl now n : continues now n n.
Proof. split; auto. Qed.

Lemma continues_update now matches set d name n :
  (matches name n = true -> continues now n (set n)) -> nodes d !! name = Some n ->
  exists n', nodes (update_nodes matches set d) !! name = Some n' /\ continues now n n' /\ n' = (if matches name n then set n else n).
Proof.
  intros Hset Hn. rewrite lookup_update_nodes, Hn. eexists. split; [done|]. split; [|done]. cbn.
  destruct (matches name n) eqn:Hm; [auto|apply continues_refl].
Qed.

Lemma write_updates_continue updates d name n :
  nodes d !! name = Some n ->
  exists n', nodes (foldl write_update d updates) !! name = Some n' /\
    nr_uuid n' = nr_uuid n /\ lease_expires_at n' = lease_expires_at n /\ pool n' = pool n /\ active n' = active n.
Proof.
  revert d n. induction updates as [|u updates IH]; intros d n Hn; cbn [foldl]; [by exists n|].
  destruct (IH (write_update d u) (if uuid_is (up_uuid u) name n then set_wanted (desired u) n else n))
    as (n' & Hn' & H1 & H2 & H3 & H4).
  - unfold write_update. by rewrite lookup_update_nodes, Hn.
  - exists n'. split; [done|]. rewrite H1, H2, H3, H4. by destruct (uuid_is _ _ _).
Qed.

Lemma clear_expired_live now d name n :
  nodes d !! name = Some n -> live now n = true -> nodes (clear_expired_assignments now d) !! name = Some n.
Proof.
  intros Hn Hl. unfold clear_expired_assignments. rewrite lookup_update_nodes, Hn. cbn.
  unfold expired_with_assignment, live in *. apply Z.ltb_lt in Hl. by rewrite (proj2 (Z.leb_gt _ _) Hl).
Qed.

Lemma announce_continues now name uuid other d n :
  nodes d !! name = Some n -> live now n = true ->
  exists n', nodes (announce_node now other uuid d).1 !! name = Some n' /\ continues now n n'.
Proof.
  intros Hn Hl. unfold announce_node. destruct (decide (other = name)) as [->|Hne].
  - rewrite Hn, Hl. destruct (String.eqb _ _); cbn; [|exists n; split; [done|apply continues_refl]].
    rewrite lookup_insert_eq. eexists. split; [done|]. split; [done|by right].
  - destruct (nodes d !! other) as [m|]; [destruct (String.eqb _ _); [|destruct (live now m)]|]; cbn;
      rewrite ?lookup_insert_ne by done; (exists n; split; [done|apply continues_refl]).
Qed.

Lemma assign_continues server now target r run d name n :
  nodes d !! name = Some n -> nodes (clear_expired_assignments now d) !! name = Some n ->
  exists n', nodes (assign_worker_pool server now target r run d).1 !! name = Some n' /\ continues now n n'.
Proof.
  intros Hn Hc. assert (exists n', nodes d !! name = Some n' /\ continues now n n') as Hsame.
  { exists n. split; [done|apply continues_refl]. }
  unfold assign_worker_pool. destruct (worker_pool_root run d) as [root|]; [|done].
  destruct (_ && _ && _); [done|]. destruct (_ && _); [done|]. cbn [fst].
  edestruct (continues_update now) as (n' & Hn' & Hcont & _); [|exact Hc|exists n'; split; [exact Hn'|done]].
  intros _. split; [done|by left].
Qed.

Lemma desired_continues server now updates d name n :
  nodes d !! name = Some n -> nodes (clear_expired_assignments now d) !! name = Some n ->
  exists n', nodes (update_desired_assignments server now updates d).1 !! name = Some n' /\ continues now n n'.
Proof.
  intros Hn Hc. assert (exists n', nodes d !! name = Some n' /\ continues now n n') as Hsame.
  { exists n. split; [done|apply continues_refl]. }
  unfold update_desired_assignments. destruct updates as [|u us]; [done|].
  destruct (forallb (matched _ _) _); [|done]. destruct (forallb _ _); [|done]. destruct (_ && _); [done|]. cbn [fst].
  destruct (write_updates_continue (merge_sort uuid_le (u :: us)) _ _ _ Hc) as (n' & Hn' & H1 & H2 & _).
  exists n'. split; [done|]. split; [done|by left].
Qed.

(** A live registration is never taken over. Whatever operation runs while the
    lease of a node holds, except its own expiry, the node keeps its name and its
    process identity, and its lease is only ever renewed; in particular another
    process that announces the same name is refused and changes nothing. *)
Theorem live_node_keeps_its_name (server : Server) (now : i64) (op : CpOp) (d : Tables) (name : string) (n : NodeRow)
  (Hn : nodes d !! name = Some n) (Hlive : live now n = true) (Hop : op <> ExpireLease (nr_uuid n)) :
  (exists n', nodes (exec server now op d) !! name = Some n' /\ continues now n n') /\
  (forall uuid, uuid <> nr_uuid n -> exists e, announce_node now name uuid d = (d, Err e)).
Proof.
  split.
  2: { intros uuid Hne. unfold announce_node. rewrite Hn, Hlive. rewrite (proj2 (String.eqb_neq _ _)) by done. by eexists. }
  pose proof (clear_expired_live now d name n Hn Hlive) as Hc.
  assert (forall matches set d1, nodes d1 !! name = Some n -> (matches name n = true -> continues now n (set n)) ->
    exists n', nodes (update_nodes matches set d1) !! name = Some n' /\ continues now n n') as Hup.
  { intros matches set d1 H1 Hset. destruct (continues_update now matches set d1 name n Hset H1) as (n' & ? & ? & _). eauto. }
  assert (forall x, nr_uuid x = nr_uuid n -> lease_expires_at x = lease_expires_at n -> continues now n x) as Hsame.
  { intros x Hu Hle. split; [done|by left]. }
  destruct op; cbn [exec].
  - by apply announce_continues.
  - by apply assign_continues.
  - by apply desired_continues.
  - apply Hup; [done|]. intros _. by apply Hsame.
  - apply Hup; [done|]. intros _. by apply Hsame.
  - apply Hup; [done|]. intros _. by apply Hsame.
  - apply Hup; [done|]. intros _. by apply Hsame.
  - apply Hup; [done|]. intros _. by apply Hsame.
  - apply Hup; [done|]. intros _. by apply Hsame.
  - apply Hup; [done|]. intros _. destruct (_ ≫= _); by apply Hsame.
  - unfold set_current_assignment.
    destruct (_ =? 0); [|destruct (bool_decide (active_conflict _)); [|destruct (bool_decide (is_Some _))]]; cbn [fst];
      try (exists n; split; [done|apply continues_refl]). apply Hup; [done|]. intros _. by apply Hsame.
  - unfold clear_current_assignment. destruct (_ =? 0); cbn [fst]; [exists n; split; [done|apply continues_refl]|].
    apply Hup; [done|]. intros _. by apply Hsame.
  - unfold request_node_shutdown. destruct (decide (name0 = name)) as [->|Hne].
    + rewrite Hn. cbn. rewrite lookup_insert_eq. eexists. split; [done|by apply Hsame].
    + destruct (nodes d !! name0); cbn; rewrite lookup_insert_ne by done; (exists n; split; [done|apply continues_refl]).
  - apply Hup; [done|]. intros _. by apply Hsame.
  - apply Hup; [done|]. intros _. by apply Hsame.
  - apply Hup; [done|]. intros Hu%String.eqb_eq. by subst uuid.
  - apply (Hup _ _ d); [done|]. intros _. by apply Hsame.
Qed.

(** ** Batches *)

Lemma forallb_elem {A} (p : A -> bool) l x : forallb p l = true -> x ∈ l -> p x = true.
Proof. intros Hl%forallb_True_iff Hx. rewrite Forall_forall in Hl. auto. Qed.

Lemma lookup_write_updates updates d name n :
  nodes d !! name = Some n -> NoDup (up_uuid <$> updates) ->
  exists n', nodes (foldl write_update d updates) !! name = Some n' /\ pool n' = pool n /\ active n' = active n /\
    nr_uuid n' = nr_uuid n /\ lease_expires_at n' = lease_expires_at n /\
    wanted n' = match find (fun u => String.eqb (up_uuid u) (nr_uuid n)) updates with Some u => desired u | None => wanted n end.
Proof.
  revert d n. induction updates as [|u updates IH]; intros d n Hn Hnd; cbn [foldl]; [by exists n|].
  apply NoDup_cons in Hnd as [Hu Hnd].
  set (n1 := if uuid_is (up_uuid u) name n then set_wanted (desired u) n else n).
  assert (nodes (write_update d u) !! name = Some n1) as Hn1 by (unfold write_update; by rewrite lookup_update_nodes, Hn).
  destruct (IH (write_update d u) n1 Hn1 Hnd) as (n' & Hn' & H1 & H2 & H3 & H4 & H5). exists n'. split; [done|].
  assert (nr_uuid n1 = nr_uuid n) as Hid by (unfold n1; by destruct (uuid_is _ _ _)).
  rewrite Hid in *. cbn [find]. unfold n1, uuid_is in *. rewrite (String.eqb_sym (nr_uuid n)) in *.
  destruct (String.eqb_spec (up_uuid u) (nr_uuid n)) as [Heq|Hne]; [|by split_and!].
  split_and!; [done..|]. rewrite H5. cbn. destruct (find _ updates) as [u'|] eqn:Hf; [|done]. exfalso.
  apply find_some in Hf as [Hin Hu'%String.eqb_eq]. apply Hu. rewrite Heq, <- Hu'.
  apply list_elem_of_fmap_2. by apply list_elem_of_In.
Qed.

Lemma find_uuid_perm uuid l k : l ≡ₚ k -> NoDup (up_uuid <$> l) ->
  find (fun u => String.eqb (up_uuid u) uuid) l = find (fun u => String.eqb (up_uuid u) uuid) k.
Proof.
  intros Hp Hnd. assert (forall u1 u2, u1 ∈ l -> u2 ∈ l -> up_uuid u1 = up_uuid u2 -> u1 = u2) as Huniq.
  { intros u1 u2 [i Hi]%list_elem_of_lookup [j Hj]%list_elem_of_lookup Heq.
    assert (i = j) as ->; [|congruence]. eapply NoDup_lookup; [exact Hnd|by rewrite list_lookup_fmap, Hi|].
    rewrite list_lookup_fmap, Hj. cbn. by rewrite Heq. }
  destruct (find _ l) as [u|] eqn:Hl, (find _ k) as [u'|] eqn:Hk; [| | |done].
  - apply find_some in Hl as [Hl Hu%String.eqb_eq], Hk as [Hk Hu'%String.eqb_eq].
    f_equal. apply Huniq; [by apply list_elem_of_In|rewrite Hp; by apply list_elem_of_In|congruence].
  - apply find_some in Hl as [Hl Hu]. apply list_elem_of_In in Hl. rewrite Hp in Hl. apply list_elem_of_In in Hl.
    pose proof (find_none _ _ Hk u Hl) as Hno. cbn in Hno. congruence.
  - apply find_some in Hk as [Hk Hu]. apply list_elem_of_In in Hk. rewrite <- Hp in Hk. apply list_elem_of_In in Hk.
    pose proof (find_none _ _ Hl u' Hk) as Hno. cbn in Hno. congruence.
Qed.

Lemma desired_batch_spec (server : Server) (now : i64) (updates : list NodeAssignmentUpdate) (d d' : Tables)
  (res : result string bool) (Huuids : NoDup (up_uuid <$> updates))
  (Hrun : update_desired_assignments server now updates d = (d', res)) :
  (res <> Ok true -> d' = d) /\
  (res = Ok true ->
     (forall u, u ∈ updates -> exists name n, nodes d !! name = Some n /\ nr_uuid n = up_uuid u /\ live now n = true /\
        wanted n = expected u) /\
     (forall name n, nodes d !! name = Some n -> live now n = true ->
        exists n', nodes d' !! name = Some n' /\ pool n' = pool n /\ active n' = active n /\ continues now n n' /\
          wanted n' = match find (fun u => String.eqb (up_uuid u) (nr_uuid n)) updates with
                      | Some u => desired u | None => wanted n end)).
Proof.
  unfold update_desired_assignments in Hrun. destruct updates as [|u0 us] eqn:Hus.
  { injection Hrun as <- <-. split; [done|]. intros _. split; [by intros ? ?%elem_of_nil|].
    intros name n Hn Hl. exists n. split_and!; [done..|apply continues_refl|done]. }
  rewrite <- Hus in *. clear Hus.
  destruct (forallb (matched _ _) _) eqn:Hm; [|by injection Hrun as <- <-].
  destruct (forallb (fun u => run_exists _ _) _); [|by injection Hrun as <- <-].
  destruct (_ && _); [by injection Hrun as <- <-|]. injection Hrun as <- <-. split; [done|]. intros _. split.
  - intros u Hu. assert (u ∈ merge_sort uuid_le updates) as Hin by by rewrite merge_sort_Permutation.
    apply (forallb_elem _ _ u Hm) in Hin. apply bool_decide_eq_true in Hin as (name & n & Hn & Hu1 & Hl & Hw).
    exists name, n. split_and!; [|done..]. unfold clear_expired_assignments in Hn. rewrite lookup_update_nodes in Hn.
    destruct (nodes d !! name) as [m|]; [|done]. cbn in Hn. injection Hn as Hn.
    destruct (expired_with_assignment now m) eqn:He; [|by subst]. exfalso.
    unfold expired_with_assignment in He. apply andb_true_iff in He as [He%Z.leb_le _].
    assert (lease_expires_at n = lease_expires_at m) as Hle by (destruct (retains m d); by subst n).
    unfold live in Hl. apply Z.ltb_lt in Hl. lia.
  - intros name n Hn Hl. pose proof (clear_expired_live now d name n Hn Hl) as Hc.
    destruct (lookup_write_updates (merge_sort uuid_le updates) _ name n Hc) as (n' & Hn' & H1 & H2 & H3 & H4 & H5).
    { by rewrite merge_sort_Permutation. }
    exists n'. split_and!; [done..|split; [done|by left]|]. rewrite H5.
    rewrite (find_uuid_perm (nr_uuid n) (merge_sort uuid_le updates) updates); [done|apply merge_sort_Permutation|].
    by rewrite merge_sort_Permutation.
Qed.

(** A batch of assignment changes is all or nothing. Unless it reports success
    nothing changed; when it does, every node it names was live and still had the
    placement the planner saw, exactly the named live nodes have their new
    placement, and no pool and no running assignment of a live node changed. *)
Theorem desired_batch_atomic (server : Server) (now : i64) (updates : list NodeAssignmentUpdate) (d d' : Tables)
  (res : result string bool) (Huuids : NoDup (up_uuid <$> updates))
  (Hrun : update_desired_assignments server now updates d = (d', res)) :
  (res <> Ok true -> d' = d) /\
  (res = Ok true ->
     (forall u, u ∈ updates -> exists name n, nodes d !! name = Some n /\ nr_uuid n = up_uuid u /\ live now n = true /\
        wanted n = expected u) /\
     (forall name n, nodes d !! name = Some n -> live now n = true ->
        exists n', nodes d' !! name = Some n' /\ pool n' = pool n /\ active n' = active n /\ continues now n n' /\
          wanted n' = match find (fun u => String.eqb (up_uuid u) (nr_uuid n)) updates with
                      | Some u => desired u | None => wanted n end)).
Proof. by apply (desired_batch_spec server now updates). Qed.

(** ** Exclusive samplers *)

(** A standalone integration has one sampler in its pool, and no run has two
    samplers at work. *)
Definition exclusive (d : Tables) : Prop :=
  (forall n1 x1 n2 x2 run row, nodes d !! n1 = Some x1 -> nodes d !! n2 = Some x2 ->
     pool x1 = Some (mkTarget SamplerAggregator run) -> pool x2 = Some (mkTarget SamplerAggregator run) ->
     runs d !! run = Some row -> kind_of row = "integration"%string -> n1 = n2) /\
  (forall n1 x1 n2 x2 run, nodes d !! n1 = Some x1 -> nodes d !! n2 = Some x2 ->
     active x1 = Some (mkTarget SamplerAggregator run) -> active x2 = Some (mkTarget SamplerAggregator run) -> n1 = n2).

(** Assignments are kept or dropped, never made. *)
Record shrinks (d d' : Tables) : Prop := {
  sh_runs run row : runs d' !! run = Some row -> runs d !! run = Some row;
  sh_pool name n' t : nodes d' !! name = Some n' -> pool n' = Some t -> exists n, nodes d !! name = Some n /\ pool n = Some t;
  sh_active name n' t : nodes d' !! name = Some n' -> active n' = Some t -> exists n, nodes d !! name = Some n /\ active n = Some t
}.

Lemma exclusive_shrinks d d' : shrinks d d' -> exclusive d -> exclusive d'.
Proof.
  intros [Hr Hp Ha] [H1 H2]. split.
  - intros n1 x1 n2 x2 run row Hn1 Hn2 Hx1 Hx2 Hrow Hk.
    destruct (Hp _ _ _ Hn1 Hx1) as (y1 & ? & ?), (Hp _ _ _ Hn2 Hx2) as (y2 & ? & ?). eauto.
  - intros n1 x1 n2 x2 run Hn1 Hn2 Hx1 Hx2.
    destruct (Ha _ _ _ Hn1 Hx1) as (y1 & ? & ?), (Ha _ _ _ Hn2 Hx2) as (y2 & ? & ?). eauto.
Qed.

Lemma shrinks_refl d : shrinks d d.
Proof. split; eauto. Qed.
Lemma shrinks_trans d1 d2 d3 : shrinks d1 d2 -> shrinks d2 d3 -> shrinks d1 d3.
Proof.
  intros [Hr1 Hp1 Ha1] [Hr2 Hp2 Ha2]. split; [auto| |].
  - intros name n' t Hn Ht. destruct (Hp2 _ _ _ Hn Ht) as (? & ? & ?). eauto.
  - intros name n' t Hn Ht. destruct (Ha2 _ _ _ Hn Ht) as (? & ? & ?). eauto.
Qed.

Lemma shrinks_update matches set d :
  (forall n, pool (set n) = None \/ pool (set n) = pool n) -> (forall n, active (set n) = None \/ active (set n) = active n) ->
  shrinks d (update_nodes matches set d).
Proof.
  intros Hp Ha. split; [done| |]; intros name n' t Hn Ht; rewrite lookup_update_nodes in Hn;
    destruct (nodes d !! name) as [n|]; [|done| |done]; injection Hn as <-; exists n; (split; [done|]);
    destruct (matches name n); [|done| |done].
  - destruct (Hp n); congruence.
  - destruct (Ha n); congruence.
Qed.

Lemma shrinks_insert d name n' :
  match nodes d !! name with
  | Some n => (pool n' = None \/ pool n' = pool n) /\ (active n' = None \/ active n' = active n)
  | None => pool n' = None /\ active n' = None
  end -> shrinks d (set_nodes (<[name := n']> (nodes d)) d).
Proof.
  intros Hn. split; [done| |]; intros other m t; cbn; (destruct (decide (other = name)) as [->|];
    [rewrite lookup_insert_eq; intros [= <-] Ht|rewrite lookup_insert_ne by done; eauto]);
    destruct (nodes d !! name) as [n|].
  - exists n. destruct Hn as [[?|?] _]; split; congruence.
  - destruct Hn. congruence.
  - exists n. destruct Hn as [_ [?|?]]; split; congruence.
  - destruct Hn. congruence.
Qed.

Lemma shrinks_expired now d : shrinks d (clear_expired_assignments now d).
Proof. apply shrinks_update; intros n; destruct (retains n d); auto. Qed.

Lemma shrinks_desired server now updates d : shrinks d (update_desired_assignments server now updates d).1.
Proof.
  unfold update_desired_assignments. destruct updates as [|u us]; [apply shrinks_refl|].
  destruct (forallb (matched _ _) _); [|apply shrinks_refl]. destruct (forallb _ _); [|apply shrinks_refl].
  destruct (_ && _); [apply shrinks_refl|]. cbn [fst].
  assert (forall l d0, shrinks d0 (foldl write_update d0 l)) as Hw.
  { intros l. induction l as [|x l IH]; intros d0; [apply shrinks_refl|]. cbn [foldl].
    eapply shrinks_trans; [|apply IH]. apply shrinks_update; intros n; by right. }
  eapply shrinks_trans; [apply shrinks_expired|apply Hw].
Qed.

Lemma shrinks_reconcile d d' : shrinks d d' -> shrinks d (reconcile_fulfilled_node_launch_requests d').
Proof. intros [Hr Hp Ha]. split; [exact Hr|exact Hp|exact Ha]. Qed.

Lemma shrinks_announce now name uuid d : shrinks d (announce_node now name uuid d).1.
Proof.
  unfold announce_node. destruct (nodes d !! name) as [n|] eqn:Hn.
  - destruct (String.eqb _ _); [|destruct (live now n); [apply shrinks_refl|apply shrinks_reconcile]]; cbn [fst];
      apply shrinks_insert; rewrite Hn; [split; by right|]. cbn. split; [destruct (retains n d); auto|by left].
  - apply shrinks_reconcile, shrinks_insert. by rewrite Hn.
Qed.

Lemma shrinks_remove_run run d : shrinks d (remove_run run d).
Proof.
  set (outside := fun t : option AssignmentTarget => if on_tree d run t then None else t).
  assert (shrinks d (update_nodes (fun _ n => on_tree d run (pool n) || on_tree d run (wanted n) || on_tree d run (active n))
    (fun n => set_assignments (outside (pool n)) (outside (wanted n)) (outside (active n)) n) d)) as [Hr Hp Ha].
  { apply shrinks_update; intros n; unfold outside; cbn; destruct (on_tree _ _ _); auto. }
  split; [|exact Hp|exact Ha]. intros r row. unfold remove_run. cbn.
  intros [Hrow _]%map_lookup_filter_Some. exact Hrow.
Qed.

Lemma assign_exclusive server now name r run d : exclusive d -> exclusive (assign_worker_pool server now name r run d).1.
Proof.
  intros Hex. unfold assign_worker_pool. destruct (worker_pool_root run d) as [root|]; [|done].
  cbv zeta. destruct (_ && _ && _) eqn:Hocc; [done|].
  match goal with |- context [if ?b then (d, Err _) else _] => destruct b; [done|] end. cbn [fst].
  pose proof (exclusive_shrinks _ _ (shrinks_expired now d) Hex) as [H1 H2].
  set (d1 := clear_expired_assignments now d) in *. split.
  - intros n1 x1 n2 x2 id row Hn1 Hn2 Hx1 Hx2 Hrow Hk. rewrite lookup_update_nodes in Hn1, Hn2.
    destruct (nodes d1 !! n1) as [y1|] eqn:Hy1; [|done]. destruct (nodes d1 !! n2) as [y2|] eqn:Hy2; [|done].
    cbn in Hn1, Hn2. injection Hn1 as Hn1. injection Hn2 as Hn2.
    assert (forall m y, nodes d1 !! m = Some y -> pool y = Some (mkTarget SamplerAggregator id) ->
      r = SamplerAggregator -> root = id -> m = name) as Hfree.
    { intros m y Hm Hpool -> ->. rewrite bool_decide_eq_true_2 in Hocc by done. cbn in Hrow. rewrite Hrow, Hk in Hocc. cbn in Hocc.
      apply bool_decide_eq_false in Hocc. destruct (decide (m = name)) as [|Hne]; [done|]. destruct Hocc. by exists m, y. }
    destruct (String.eqb_spec n1 name) as [->|Hne1]; cbn [andb] in Hn1; [destruct (live now y1)|];
      (destruct (String.eqb_spec n2 name) as [->|Hne2]; cbn [andb] in Hn2; [try destruct (live now y2)|]); try done; subst;
      cbn in Hx1, Hx2; try (injection Hx1 as -> ->); try (injection Hx2 as -> ->); try (by eauto);
      try (by eapply H1; eauto); try (symmetry; by eauto).
  - intros n1 x1 n2 x2 id Hn1 Hn2 Hx1 Hx2. rewrite lookup_update_nodes in Hn1, Hn2.
    destruct (nodes d1 !! n1) as [y1|] eqn:Hy1; [|done]. destruct (nodes d1 !! n2) as [y2|] eqn:Hy2; [|done].
    injection Hn1 as <-. injection Hn2 as <-. apply (H2 n1 y1 n2 y2 id); [done..| |].
    + revert Hx1. destruct ((n1 =? name)%string && live now y1); intros Hx; exact Hx.
    + revert Hx2. destruct ((n2 =? name)%string && live now y2); intros Hx; exact Hx.
Qed.

Lemma set_current_exclusive now uuid r run d : exclusive d -> exclusive (set_current_assignment now uuid r run d).1.
Proof.
  intros Hex. pose proof (exclusive_shrinks _ _ (shrinks_expired now d) Hex) as Hex1.
  unfold set_current_assignment. cbv zeta. set (d1 := clear_expired_assignments now d) in *.
  destruct (_ =? 0); [done|]. set (d2 := update_nodes _ _ d1).
  destruct (bool_decide_reflect (active_conflict d2)) as [|Hno]; [done|].
  destruct (bool_decide (is_Some _)); [|done]. cbn [fst]. destruct Hex1 as [H1 _]. split.
  - intros n1 x1 n2 x2 id row Hn1 Hn2 Hx1 Hx2. unfold d2 in *. rewrite lookup_update_nodes in Hn1, Hn2.
    destruct (nodes d1 !! n1) as [y1|] eqn:Hy1; [|done]. destruct (nodes d1 !! n2) as [y2|] eqn:Hy2; [|done].
    injection Hn1 as <-. injection Hn2 as <-. apply (H1 n1 y1 n2 y2 id row); [done..| |].
    + revert Hx1. destruct (live_uuid now uuid n1 y1); intros Hx; exact Hx.
    + revert Hx2. destruct (live_uuid now uuid n2 y2); intros Hx; exact Hx.
  - intros n1 x1 n2 x2 id Hn1 Hn2 Hx1 Hx2. destruct (decide (n1 = n2)) as [|Hne]; [done|]. destruct Hno.
    exists n1, x1. split; [done|]. exists n2, x2. split; [done|]. rewrite Hx1, Hx2. cbn. by rewrite bool_decide_eq_true_2.
Qed.

Lemma exec_exclusive server now op d : exclusive d -> exclusive (exec server now op d).
Proof.
  intros Hex. destruct op; cbn [exec]; try (by apply assign_exclusive); try (by apply set_current_exclusive);
    (eapply exclusive_shrinks; [|exact Hex]).
  - apply shrinks_announce.
  - apply shrinks_desired.
  - apply shrinks_update; intros n; [by left|by right].
  - apply shrinks_update; intros n; [by left|by right].
  - apply shrinks_update; intros n; [by left|by right].
  - apply shrinks_update; intros n; [by left|by right].
  - apply shrinks_update; intros n; by right.
  - apply shrinks_update; intros n; by right.
  - unfold finish_run_assignments. cbv zeta. destruct (_ ≫= _); apply shrinks_update; intros n; cbn; auto.
  - unfold clear_current_assignment. destruct (_ =? 0); [apply shrinks_refl|]. apply shrinks_update; intros n; cbn; auto.
  - unfold request_node_shutdown. destruct (nodes d !! name) eqn:Hn; apply shrinks_insert; rewrite Hn; cbn; auto.
  - apply shrinks_update; intros n; cbn; auto.
  - apply shrinks_update; intros n; cbn; auto.
  - apply shrinks_update; intros n; cbn; destruct (resume_requested n); auto.
  - apply shrinks_remove_run.
Qed.

(** C14: Samplers are exclusive in every reachable state of the registry: the pool
    of a standalone integration holds at most one sampler, and at most one node
    works as the sampler of a run, through any sequence of registrations,
    take-overs, expiries, pool and controller assignments, shutdowns and run
    removals. *)
Theorem samplers_stay_exclusive (server : Server) (d0 d : Tables)
  (Hinit : exclusive d0) (Hrun : steps (cp_step server) d0 d) : exclusive d.
Proof.
  eapply steps_invariant; [|exact Hinit|exact Hrun]. clear. intros d d' Hex Hstep.
  destruct Hstep as [now op d|run row d Hnone Hunused]; [by apply exec_exclusive|].
  destruct Hex as [H1 H2]. split; [|exact H2]. intros n1 x1 n2 x2 id row' Hn1 Hn2 Hx1 Hx2. cbn in *.
  destruct (decide (id = run)) as [->|Hne]; [|rewrite lookup_insert_ne by done; eauto].
  destruct (Hunused n1 x1 Hn1). by rewrite Hx1.
Qed.

(** ** Connections *)

Definition connections_of (now : i64) (d : Tables) : Z :=
  (live_workers now d + reserved_workers now d) * CONNECTIONS_PER_WORKER + sampler_workers now d * EXTRA_SAMPLER_CONNECTIONS.

Lemma rows_matching_nonneg matches d : 0 <= rows_matching matches d.
Proof. unfold rows_matching. lia. Qed.

Lemma idle_samplers now d : live_workers now d = 0 -> reserved_workers now d = 0 -> sampler_workers now d = 0.
Proof.
  unfold live_workers, reserved_workers, sampler_workers. rewrite !rows_matching_zero. intros Hl Hr name n Hn.
  by rewrite (Hl name n Hn), (Hr name n Hn).
Qed.

Definition connection_room (server : Server) : Z :=
  max_connections server - reserved_connections server - CONNECTION_HEADROOM.

Lemma budget_spec server now d :
  max_connections server <= i32_max -> 0 <= reserved_connections server ->
  check_worker_connection_budget server now 0 d = true -> connections_of now d <= Z.max 0 (connection_room server).
Proof.
  intros Hmax Hres Hle%Z.leb_le. unfold connections_of, connection_room.
  pose proof (rows_matching_nonneg (fun _ => live now) d) as Hl. fold (live_workers now d) in Hl.
  pose proof (rows_matching_nonneg (fun name n => reserved now name n d) d) as Hr. fold (reserved_workers now d) in Hr.
  assert (0 <= sampler_workers now d) as Hs by apply rows_matching_nonneg.
  destruct (decide (live_workers now d + reserved_workers now d = 0)) as [Hz|Hz].
  { rewrite (idle_samplers now d) by lia. lia. }
  unfold capacity in Hle. fold (connection_room server) in Hle.
  set (room := connection_room server - sampler_workers now d * EXTRA_SAMPLER_CONNECTIONS) in *.
  assert (room <= i32_max) as Hroom by (unfold room, connection_room, CONNECTION_HEADROOM, EXTRA_SAMPLER_CONNECTIONS; lia).
  unfold CONNECTIONS_PER_WORKER in *. rewrite Z.quot_div_nonneg in Hle by lia.
  pose proof (Z.mul_div_le (Z.max 0 room) (2 + 2)) as Hq. unfold i64_saturating_add, i64_max, i64_min, i32_max in *.
  fold (connection_room server). unfold room in *. lia.
Qed.

(** Admitting a sampler, by an operator or by a controller, never overdraws
    the database: afterwards the connections of all live and starting workers,
    with the extra ones of samplers, fit below the limit of the server less what
    is reserved for PostgreSQL and the operators. *)
Theorem sampler_admission_fits (server : Server) (now : i64) (d d' : Tables)
  (Hmax : max_connections server <= i32_max) (Hres : 0 <= reserved_connections server)
  (Hadmit : (exists updates, update_desired_assignments server now updates d = (d', Ok true) /\ admits_sampler updates = true) \/
            (exists name run, assign_worker_pool server now name SamplerAggregator run d = (d', Ok Assigned))) :
  connections_of now d' <= Z.max 0 (connection_room server).
Proof.
  apply budget_spec; [done|done|]. destruct Hadmit as [(updates & Hrun & Ha)|(name & run & Hrun)].
  - unfold update_desired_assignments in Hrun. destruct updates as [|u us]; [done|]. rewrite Ha in Hrun.
    destruct (forallb (matched _ _) _); [|done]. destruct (forallb _ _); [|done]. cbn [andb] in Hrun.
    destruct (check_worker_connection_budget _ _ _ _) eqn:Hb; [|done]. by injection Hrun as <-.
  - unfold assign_worker_pool in Hrun. cbv zeta in Hrun. destruct (worker_pool_root run d) as [root|]; [|done].
    destruct (_ && _ && _); [done|]. rewrite bool_decide_eq_true_2 in Hrun by done. cbn [andb] in Hrun.
    destruct (check_worker_connection_budget _ _ _ _) eqn:Hb; [|done]. by injection Hrun as <-.
Qed.
