(* ===== verification/ControllerLoop.v ===== *)
(** The controller tick of src/runners/controller_child.rs on the node registry of
    src/stores/queries/control_plane.rs: a plan computed from the live nodes and
    published as one batch reaches a fixed point in one tick. *)
From S2P Require Import Prelude WorkQueue Assignments ControlPlane.

Lemma placements_perm plan l k :
  NoDup (node_name <$> l) -> l ≡ₚ k -> placements plan l = placements plan k.
Proof.
  intros Hnd Hp. assert (NoDup (node_name <$> k)) as Hndk by by rewrite <- Hp.
  apply map_eq. intros name. apply option_eq. intros t. split.
  - intros (node & Hin & <- & Ht)%placements_from; [|done]. rewrite lookup_placements; [done|done|by rewrite <- Hp].
  - intros (node & Hin & <- & Ht)%placements_from; [|done]. rewrite lookup_placements; [done|done|by rewrite Hp].
Qed.

Lemma updates_nil_perm plan l k :
  NoDup (node_name <$> l) -> l ≡ₚ k -> controller_assignment_updates l plan = [] -> controller_assignment_updates k plan = [].
Proof.
  intros Hnd Hp. assert (NoDup (node_name <$> k)) as Hndk by by rewrite <- Hp.
  unfold controller_assignment_updates. rewrite !updates_for_spec by done. rewrite <- (placements_perm plan l k) by done.
  set (f := node_update plan _). clearbody f. intros Hnil. apply elem_of_nil_inv.
  intros u (node & Hin & Hu)%list_elem_of_omap. rewrite <- Hp in Hin.
  apply (not_elem_of_nil u). rewrite <- Hnil. apply list_elem_of_omap. by exists node.
Qed.

(** ** Snapshots *)

Lemma elem_of_list_nodes now d node :
  node ∈ list_nodes now d <-> exists n, nodes d !! node_name node = Some n /\ live now n = true /\
    node_uuid node = nr_uuid n /\ desired_assignment node = wanted n.
Proof.
  unfold list_nodes. rewrite list_elem_of_fmap. split.
  - intros ([name n] & -> & Hin%elem_of_by_name). apply map_lookup_filter_Some in Hin as [Hn Hl]. by exists n.
  - intros (n & Hn & Hl & Hu & Hw). exists (node_name node, n). split.
    + destruct node. cbn in *. by subst.
    + apply elem_of_by_name, map_lookup_filter_Some. by split.
Qed.

Lemma list_nodes_names now d : NoDup (node_name <$> list_nodes now d).
Proof. unfold list_nodes. rewrite <- list_fmap_compose. apply by_name_fst. Qed.

(** Two live registrations have different process identities. *)
Definition live_uuids_distinct (now : i64) (d : Tables) : Prop :=
  forall n1 x1 n2 x2, nodes d !! n1 = Some x1 -> nodes d !! n2 = Some x2 -> live now x1 = true -> live now x2 = true ->
    nr_uuid x1 = nr_uuid x2 -> n1 = n2.

Lemma list_nodes_uuids now d : live_uuids_distinct now d -> NoDup (node_uuid <$> list_nodes now d).
Proof.
  intros Hd. apply NoDup_fmap_2_strong.
  - intros x y (n & Hn & Hl & Hu & Hw)%elem_of_list_nodes (m & Hm & Hlm & Hum & Hwm)%elem_of_list_nodes Heq.
    assert (node_name x = node_name y) as Hname by (eapply Hd; eauto; congruence).
    rewrite Hname, Hm in Hn. injection Hn as <-. destruct x, y. cbn in *. congruence.
  - eapply (NoDup_fmap_1 node_name), list_nodes_names.
Qed.

Lemma update_uuids plan nodes :
  NoDup (node_name <$> nodes) -> NoDup (node_uuid <$> nodes) -> NoDup (up_uuid <$> controller_assignment_updates nodes plan).
Proof.
  intros Hnames Huuids. unfold controller_assignment_updates. rewrite updates_for_spec by done.
  set (result := plan_desired _ _). clearbody result. clear Hnames.
  induction nodes as [|node l IH]; [constructor|]. apply NoDup_cons in Huuids as [Hnode Hnd]. cbn.
  assert (forall u, u ∈ omap (node_update plan result) l -> up_uuid u ∈ node_uuid <$> l) as Hin.
  { intros u (n & Hn & Hu)%list_elem_of_omap. unfold node_update in Hu. case_bool_decide; [done|]. injection Hu as <-. cbn.
    by apply list_elem_of_fmap_2. }
  unfold node_update at 1. case_bool_decide; [by apply IH|]. cbn. constructor; [|by apply IH].
  intros (u & Heq & Hu)%list_elem_of_fmap. apply Hnode. cbn in Heq. rewrite Heq. by apply Hin.
Qed.

(** ** Publishing *)

Lemma dead_stays_dead now updates d name n' server res :
  nodes (update_desired_assignments server now updates d).1 !! name = Some n' -> live now n' = true ->
  (update_desired_assignments server now updates d).2 = res ->
  exists n, nodes d !! name = Some n /\ live now n = true.
Proof.
  intros Hn' Hl _. unfold update_desired_assignments in Hn'. destruct updates as [|u us]; [by exists n'|].
  destruct (forallb (matched _ _) _); [|by exists n']. destruct (forallb _ _); [|by exists n'].
  destruct (_ && _); [by exists n'|]. cbn [fst] in Hn'.
  destruct (nodes d !! name) as [n|] eqn:Hn.
  - exists n. split; [done|].
    assert (exists m, nodes (clear_expired_assignments now d) !! name = Some m /\ lease_expires_at m = lease_expires_at n)
      as (m & Hm & Hle).
    { unfold clear_expired_assignments. rewrite lookup_update_nodes, Hn. eexists. split; [done|].
      destruct (expired_with_assignment now n); [|done]. by destruct (retains n d). }
    destruct (write_updates_continue (merge_sort uuid_le (u :: us)) _ _ _ Hm) as (m' & Hm' & _ & Hle' & _).
    rewrite Hn' in Hm'. injection Hm' as <-. unfold live in *. by rewrite <- Hle, <- Hle'.
  - exfalso. assert (forall l d0, nodes d0 !! name = None -> nodes (foldl write_update d0 l) !! name = None) as Hnone.
    { intros l. induction l as [|x l IH]; intros d0 H0; [done|]. cbn [foldl]. apply IH.
      unfold write_update. by rewrite lookup_update_nodes, H0. }
    rewrite Hnone in Hn'; [done|]. unfold clear_expired_assignments. by rewrite lookup_update_nodes, Hn.
Qed.

Lemma published_snapshot server now updates d d' :
  NoDup (up_uuid <$> updates) -> live_uuids_distinct now d ->
  update_desired_assignments server now updates d = (d', Ok true) ->
  publish updates (list_nodes now d) ≡ₚ list_nodes now d'.
Proof.
  intros Hnd Hdist Hrun. apply NoDup_Permutation.
  - apply (NoDup_fmap_1 node_name). unfold publish. rewrite <- list_fmap_compose.
    assert (node_name ∘ publish_node updates <$> list_nodes now d = node_name <$> list_nodes now d) as ->; [|apply list_nodes_names].
    apply list_fmap_ext. intros i node _. unfold compose, publish_node. by destruct (find _ _).
  - eapply (NoDup_fmap_1 node_name), list_nodes_names.
  - destruct (desired_batch_spec server now updates d d' (Ok true) Hnd Hrun) as [_ Hspec].
    destruct (Hspec eq_refl) as [_ Hafter]. clear Hspec. intros node. unfold publish. rewrite list_elem_of_fmap. split.
    + intros (old & -> & (n & Hn & Hl & Hu & Hw)%elem_of_list_nodes).
      destruct (Hafter _ _ Hn Hl) as (n' & Hn' & _ & _ & [Hid Hlease] & Hw'). apply elem_of_list_nodes. exists n'.
      unfold publish_node. rewrite Hu, Hw'. destruct (find _ updates); cbn; (split_and!; [done| | |]); try congruence;
        unfold live, NODE_LEASE in *; destruct Hlease as [->| ->]; [done|apply Z.ltb_lt; lia|done|apply Z.ltb_lt; lia].
    + intros (n' & Hn' & Hl' & Hu' & Hw')%elem_of_list_nodes.
      pose proof (dead_stays_dead now updates d (node_name node) n' server) as Hdead. rewrite Hrun in Hdead.
      destruct (Hdead _ Hn' Hl' eq_refl) as (n & Hn & Hl).
      destruct (Hafter _ _ Hn Hl) as (n2 & Hn2 & _ & _ & [Hid _] & Hw2). rewrite Hn' in Hn2. injection Hn2 as <-.
      exists (mkNode (node_name node) (nr_uuid n) (wanted n)). split; [|apply elem_of_list_nodes; by exists n].
      unfold publish_node. cbn [node_uuid node_name]. destruct node as [nm uu des]. cbn in *.
      destruct (find _ updates); congruence.
Qed.

(** ** One tick is enough *)

Lemma branches_rows rows plan id :
  branches (with_branches rows plan) !! id =
  match list_find (fun row : i32 * i32 * bool => row.1.1 = id) (reverse rows) with
  | Some (_, row) => Some row.1.2
  | None => branches plan !! id
  end.
Proof.
  unfold with_branches. induction rows as [|[[i b] c] rows IH] using rev_ind; [done|].
  rewrite foldl_app, reverse_snoc. cbn [foldl]. unfold add_branch at 1. cbn [branches list_find fst snd].
  destruct (decide (i = id)) as [->|Hne]; [by rewrite lookup_insert_eq|].
  rewrite lookup_insert_ne, IH by done. destruct (list_find _ (reverse rows)) as [[? ?]|]; done.
Qed.

Lemma branches_plan_for parent selected d id b :
  branches (plan_for parent selected d) !! id = Some b ->
  branch_of (S (size (runs d))) (runs d) parent id = Some b \/ (id ∈ selected /\ b = id).
Proof.
  unfold plan_for. rewrite branches_rows. destruct (list_find _ _) as [[i row]|] eqn:Hf.
  - intros [= <-]. left. apply list_find_Some in Hf as (Hrow & Hid & _). apply list_elem_of_lookup_2 in Hrow.
    rewrite elem_of_reverse in Hrow. apply list_elem_of_omap in Hrow as ([r x] & _ & Hrow).
    destruct (branch_of _ _ parent r) as [br|] eqn:Hb; [|done]. cbn [mbind option_bind] in Hrow.
    destruct (runs d !! br) as [y|]; [|done]. cbn in Hrow. injection Hrow as <-. cbn in *. by subst r.
  - intros Hb. right. cbn in Hb. apply elem_of_list_to_map_2, list_elem_of_fmap in Hb as (x & [= -> ->] & Hin). done.
Qed.

Lemma plan_for_well_formed parent selected d :
  branch_of (S (size (runs d))) (runs d) parent parent = None ->
  (forall id, id ∈ selected -> exists row, runs d !! id = Some row /\ parent_run row = Some parent) ->
  well_formed (plan_for parent selected d).
Proof.
  intros Hacyclic Hchildren.
  assert (forall id, id ∈ selected -> branch_of (S (size (runs d))) (runs d) parent id = Some id) as Hself.
  { intros id Hid. destruct (Hchildren id Hid) as (row & Hrow & Hp). cbn. rewrite Hrow. cbn. rewrite Hp. cbn.
    by rewrite bool_decide_eq_true_2. }
  assert (forall rows plan, selected_child_run_ids (with_branches rows plan) = selected_child_run_ids plan /\
    parent_run_id (with_branches rows plan) = parent_run_id plan) as Hkeep.
  { unfold with_branches. intros rows. induction rows as [|[[i b] c] rows IH]; intros plan; [done|]. cbn [foldl].
    destruct (IH (add_branch plan (i, b, c))) as [-> ->]. done. }
  destruct (Hkeep (worker_pool_branches parent d) (plan_new parent selected)) as [Hs Hp].
  fold (plan_for parent selected d) in Hs, Hp. split.
  - rewrite Hp. cbn. destruct (branches _ !! parent) as [b|] eqn:Hb; [|done].
    apply branches_plan_for in Hb as [Hb|[Hin _]]; [congruence|]. apply Hself in Hin. congruence.
  - rewrite Hs. intros id b Hid Hb. apply branches_plan_for in Hb as [Hb|[_ ->]]; [|done].
    apply Hself in Hid. congruence.
Qed.

Lemma runs_update_desired server now updates d : runs (update_desired_assignments server now updates d).1 = runs d.
Proof.
  unfold update_desired_assignments. destruct updates as [|u us]; [done|].
  destruct (forallb (matched _ _) _); [|done]. destruct (forallb _ _); [|done]. destruct (_ && _); [done|]. cbn [fst].
  assert (forall l d0, runs (foldl write_update d0 l) = runs d0) as Hw; [|by rewrite Hw].
  intros l. induction l as [|x l IH]; intros d0; [done|]. cbn [foldl]. by rewrite IH.
Qed.

(** C13: One tick is enough: when a controller's batch is published, the next tick
    of the same controller on the same selection computes an empty batch and
    leaves the registry exactly as it is. *)
Theorem controller_tick_converges (server : Server) (now : i64) (parent : i32) (selected : list i32) (d d' : Tables)
  (Hacyclic : branch_of (S (size (runs d))) (runs d) parent parent = None)
  (Hchildren : forall id, id ∈ selected -> exists row, runs d !! id = Some row /\ parent_run row = Some parent)
  (Hdistinct : live_uuids_distinct now d)
  (Hrun : apply_controller_assignment_plan server now parent selected d = (d', Ok true)) :
  apply_controller_assignment_plan server now parent selected d' = (d', Ok true).
Proof.
  unfold apply_controller_assignment_plan in *. set (plan := plan_for parent selected d) in *.
  set (updates := controller_assignment_updates (list_nodes now d) plan) in *.
  assert (runs d' = runs d) as Hruns.
  { pose proof (runs_update_desired server now updates d) as H. by rewrite Hrun in H. }
  assert (plan_for parent selected d' = plan) as ->.
  { unfold plan, plan_for, worker_pool_branches. by rewrite Hruns. }
  assert (controller_assignment_updates (list_nodes now d') plan = []) as ->; [|done].
  pose proof (list_nodes_names now d) as Hnames. pose proof (list_nodes_uuids now d Hdistinct) as Huuids.
  assert (NoDup (up_uuid <$> updates)) as Hnd by by apply update_uuids.
  eapply (updates_nil_perm plan (publish updates (list_nodes now d))).
  - unfold publish. rewrite <- list_fmap_compose.
    rewrite (list_fmap_ext _ node_name (list_nodes now d)); [done|].
    intros i node _. unfold compose, publish_node. by destruct (find _ _).
  - by apply (published_snapshot server now).
  - apply published_plan_is_stable; [|done..]. by apply plan_for_well_formed.
Qed.

(** ** Examples *)

(** A campaign (run 1) with children 2, 3 and 4, where 3 is a controller with the
    child 5, and an unrelated integration 9. The campaign replaces child 2 by
    child 4. *)
Definition example_runs : gmap i32 RunRow :=
  list_to_map [(1, mkRunRow None (Some "integration_campaign"%string) false); (2, mkRunRow (Some 1) None true);
    (3, mkRunRow (Some 1) (Some "parameter_scan"%string) true); (4, mkRunRow (Some 1) None true);
    (5, mkRunRow (Some 3) None true); (9, mkRunRow None None false)].
Definition example_row (uuid : string) (r : WorkerRole) (pool_run run : i32) : NodeRow :=
  mkNodeRow uuid 100 (Some (mkTarget r pool_run)) (Some (mkTarget r run)) None false None (Some 0) false.
Definition example_tables : Tables :=
  mkTables (list_to_map [("s1", example_row "u1" SamplerAggregator 1 2); ("s2", example_row "u2" SamplerAggregator 1 5);
    ("e1", example_row "u3" Evaluator 1 2); ("e2", example_row "u4" Evaluator 1 5); ("e3", example_row "u5" Evaluator 1 2);
    ("other", example_row "u6" Evaluator 9 9)]%string) example_runs ∅ ∅.
Definition example_server : Server := mkServer 256 3.
Definition example_after : Tables := (apply_controller_assignment_plan example_server 0 1 [3; 4] example_tables).1.

Lemma example_distinct : live_uuids_distinct 0 example_tables.
Proof.
  assert (map_Forall (fun n1 x1 => map_Forall (fun n2 x2 => nr_uuid x1 = nr_uuid x2 -> n1 = n2) (nodes example_tables))
    (nodes example_tables)) as Hall by (apply (bool_decide_unpack _); vm_compute; exact I).
  intros n1 x1 n2 x2 H1 H2 _ _. exact (Hall n1 x1 H1 n2 x2 H2).
Qed.

Lemma controller_tick_converges_witness :
  apply_controller_assignment_plan example_server 0 1 [3; 4] example_tables = (example_after, Ok true) /\
  (wanted <$> nodes example_after !! "s1"%string) = Some (Some (mkTarget SamplerAggregator 4)) /\
  apply_controller_assignment_plan example_server 0 1 [3; 4] example_after = (example_after, Ok true).
Proof.
  assert (apply_controller_assignment_plan example_server 0 1 [3; 4] example_tables = (example_after, Ok true)) as Hrun
    by (vm_compute; reflexivity).
  split_and!; [exact Hrun|vm_compute; reflexivity|].
  apply (controller_tick_converges example_server 0 1 [3; 4] example_tables).
  - vm_compute. reflexivity.
  - intros id [->|[->|[]%elem_of_nil]%elem_of_cons]%elem_of_cons.
    + exists (mkRunRow (Some 1) (Some "parameter_scan"%string) true). split; vm_compute; reflexivity.
    + exists (mkRunRow (Some 1) None true). split; vm_compute; reflexivity.
  - apply example_distinct.
  - exact Hrun.
Defined.

(** While the lease of "s1" holds, another process cannot take its name. *)
Lemma live_node_keeps_its_name_witness :
  exists n', nodes (exec example_server 5 ClearAll example_tables) !! "s1"%string = Some n' /\ nr_uuid n' = "u1"%string.
Proof.
  destruct (live_node_keeps_its_name example_server 5 ClearAll example_tables "s1" (example_row "u1" SamplerAggregator 1 2))
    as [(n' & Hn' & [Hu _]) _]; [vm_compute; reflexivity|vm_compute; reflexivity|done|]. exists n'. split; [exact Hn'|exact Hu].
Defined.

Definition example_batch : list NodeAssignmentUpdate :=
  controller_assignment_updates (list_nodes 0 example_tables) (plan_for 1 [3; 4] example_tables).

Lemma desired_batch_atomic_witness :
  example_batch <> [] /\ forall u, u ∈ example_batch -> exists name n, nodes example_tables !! name = Some n /\ wanted n = expected u.
Proof.
  split; [vm_compute; done|]. intros u Hu.
  destruct (desired_batch_atomic example_server 0 example_batch example_tables example_after (Ok true)) as [_ Hok].
  - apply (bool_decide_unpack (NoDup (up_uuid <$> example_batch))). vm_compute. exact I.
  - vm_compute. reflexivity.
  - destruct (Hok eq_refl) as [Hbefore _]. destruct (Hbefore u Hu) as (name & n & Hn & _ & _ & Hw). by exists name, n.
Defined.

Lemma sampler_admission_fits_witness : connections_of 0 example_after <= Z.max 0 (connection_room example_server).
Proof.
  apply (sampler_admission_fits example_server 0 example_tables); [by vm_compute|by vm_compute|].
  left. exists example_batch. split; [vm_compute; reflexivity|vm_compute; reflexivity].
Defined.

(** Two integrations cannot share the sampler slot of run 9. *)
Lemma samplers_stay_exclusive_witness :
  let d0 := mkTables ∅ example_runs ∅ ∅ in
  exists d, steps (cp_step example_server) d0 d /\ exclusive d /\
    (exists n, nodes d !! "a"%string = Some n /\ pool n = Some (mkTarget SamplerAggregator 9)) /\
    (assign_worker_pool example_server 2 "b" SamplerAggregator 9 d).2 = Ok SamplerOccupied.
Proof.
  intros d0.
  set (d := exec example_server 2 (AssignWorkerPool "a" SamplerAggregator 9)
              (exec example_server 1 (AnnounceNode "b" "ub") (exec example_server 0 (AnnounceNode "a" "ua") d0))).
  assert (steps (cp_step example_server) d0 d) as Hrun.
  { eapply steps_step; [eapply steps_step; [eapply steps_step; [apply steps_refl|]|]|]; apply cp_exec. }
  exists d. split; [exact Hrun|]. split.
  - apply (samplers_stay_exclusive example_server d0); [|exact Hrun]. split; by intros ? ? ? ? ? **.
  - split; [|vm_compute; reflexivity]. eexists. split; vm_compute; reflexivity.
Defined.
