(* ===== verification/Queue.v ===== *)
(** src/runners/queue.rs: the sampler's side of the batch queue. Draws wait in
    [pending_insert], are inserted in bundles by background tasks, and come
    back, completed and in order, through one background fetch at a time.

    The world [W] behind the queue (the store, the clock, the identifier
    generator) is an interface. A spawned task is a function of the world that
    has not run yet; the scheduler may run it at any point, and awaiting it
    runs it if the scheduler has not. *)
From S2P Require Import Prelude Floats Errors WorkQueue Metrics.

(** ** The world *)

(** [completed_at] is left out: nothing in the queue reads it. *)
Record CompletedBatch (R : Type) := mkCompletedBatch {
  cb_batch_id : i64;
  cb_task_id : i64;
  cb_requires_training_values : bool;
  cb_batch_size : usize;
  cb_result : R;
  cb_total_eval_time_ms : option f64
}.
Arguments mkCompletedBatch {R}.
Arguments cb_batch_id {R}.
Arguments cb_task_id {R}.
Arguments cb_requires_training_values {R}.
Arguments cb_batch_size {R}.
Arguments cb_result {R}.
Arguments cb_total_eval_time_ms {R}.

Record InsertBatchesMetrics := mkInsertBatchesMetrics {
  serialize_ms : f64;
  payload_bytes : usize;
  insert_batches_exec_ms : f64;
  insert_inputs_exec_ms : f64;
  commit_ms : f64;
  end_to_end_ms : f64
}.

(** The operations of [SamplerWorkerStore] the queue calls, [Instant::now()]
    and [next_batch_ids]. *)
Class QueueWorld (W Eb R : Type) := {
  w_now : W -> Z;
  w_next_batch_ids : usize -> W -> W * list i64;
  w_insert_batches : i32 -> i64 -> bool -> list i64 -> list Eb -> W -> W * result StoreError InsertBatchesMetrics;
  w_fetch_completed_batches : i32 -> i64 -> usize -> bool -> option i64 -> W ->
    W * result StoreError (list (CompletedBatch R));
  w_get_batch_queue_counts : i32 -> option i64 -> option i64 -> W -> W * result StoreError BatchQueueCounts;
  w_reclaim_abandoned_batches : i32 -> W -> W * result StoreError Z;
  w_cleanup_consumed_completed_batches : i32 -> i64 -> usize -> W -> W * result StoreError Z;
  w_count_active_evaluator_nodes : i32 -> W -> W * result StoreError i64;
  w_get_queue_blocker : i32 -> i64 -> option i64 -> W -> W * result StoreError (option QueueBlocker);
  w_notify_work_available : i32 -> W -> W * result StoreError unit
}.

(** A [JoinHandle]: a job, and its outcome once it has run ([None] inside: the
    task panicked or was cancelled). *)
Record JoinHandle (W A : Type) := mkJoinHandle {
  jh_job : W -> W * option (result StoreError A);
  jh_done : option (option (result StoreError A))
}.
Arguments mkJoinHandle {W A}.
Arguments jh_job {W A}.
Arguments jh_done {W A}.

Definition spawn {W A} (job : W -> W * result StoreError A) : JoinHandle W A :=
  mkJoinHandle (fun w => let '(w, r) := job w in (w, Some r)) None.
Definition is_finished {W A} (h : JoinHandle W A) : bool :=
  match jh_done h with Some _ => true | None => false end.
(** The scheduler runs a task. *)
Definition run_handle {W A} (h : JoinHandle W A) (w : W) : JoinHandle W A * W :=
  match jh_done h with
  | Some _ => (h, w)
  | None => let '(w, r) := jh_job h w in (mkJoinHandle (jh_job h) (Some r), w)
  end.
Definition await_handle {W A} (h : JoinHandle W A) (w : W) : W * option (result StoreError A) :=
  match jh_done h with Some r => (w, r) | None => jh_job h w end.

(** ** Configuration and batch sizes *)

Definition RECLAIM_INTERVAL : Z := nanos_per_sec.
Definition COMPLETED_CLEANUP_INTERVAL : Z := nanos_per_sec.
Definition COMPLETED_CLEANUP_BATCH_LIMIT : usize := 2048.
Definition MIN_BATCH_SIZE : usize := 16.
Definition DEFAULT_BATCH_SIZE_DEADBAND_RATIO : f64 := 0.15%float.
Definition DEFAULT_BATCH_SIZE_COOLDOWN_TICKS : Z := 3.
Definition DEFAULT_MAX_BATCH_RETRIES : i32 := 3.
Definition default_max_generation_size : usize := 262144.

Record SamplerQueueConfig := mkQueueConfig {
  target_batch_eval_ms : f64;
  max_batch_size : usize;
  max_generation_size : usize;
  fixed_batch_size : option usize;
  max_batches_per_tick : usize;
  max_insert_bundle_size : usize;
  max_concurrent_insert_tasks : usize;
  completed_batch_fetch_limit : usize;
  max_batch_retries : i32
}.

Record SamplerQueueTuning := mkQueueTuning {
  tune_fixed_batch_size : option usize;
  tune_target_batch_eval_ms : option f64;
  tune_max_batch_size : option usize;
  tune_max_generation_size : option usize
}.

Definition apply_option {T} (destination : T) (value : option T) : T := default destination value.

Definition apply_tuning (tuning : SamplerQueueTuning) (c : SamplerQueueConfig) : SamplerQueueConfig :=
  mkQueueConfig
    (apply_option (target_batch_eval_ms c) (tune_target_batch_eval_ms tuning))
    (apply_option (max_batch_size c) (tune_max_batch_size tuning))
    (apply_option (max_generation_size c) (tune_max_generation_size tuning))
    (apply_option (fixed_batch_size c) (option_map Some (tune_fixed_batch_size tuning)))
    (max_batches_per_tick c) (max_insert_bundle_size c) (max_concurrent_insert_tasks c)
    (completed_batch_fetch_limit c) (max_batch_retries c).

Record TrainingBatchSizing := mkTrainingBatchSizing {
  previous_remaining : option usize;
  tbs_evaluators : usize;
  tbs_cap : option usize
}.
Definition training_sizing_default : TrainingBatchSizing := mkTrainingBatchSizing None 0 None.

Definition training_batch_size (target : usize) (remaining : option usize) (evaluators : usize)
    (self : TrainingBatchSizing) : TrainingBatchSizing * usize :=
  match remaining with
  | Some remaining =>
      if (remaining >? 0) && (evaluators >? 0) then
        let cap :=
          if match previous_remaining self with None => true | Some previous => remaining >? previous end
             || negb (tbs_evaluators self =? evaluators)
          then Some (Z.max (div_ceil remaining (usize_saturating_mul evaluators 4)) MIN_BATCH_SIZE)
          else tbs_cap self in
        (mkTrainingBatchSizing (Some remaining) evaluators cap, Z.min target (default target cap))
      else (mkTrainingBatchSizing None (tbs_evaluators self) None, target)
  | None => (mkTrainingBatchSizing None (tbs_evaluators self) None, target)
  end.

(** ** The queue *)

Record PendingInsertTask (W : Type) := mkPendingInsertTask {
  first_batch_id : i64;
  batch_count : usize;
  local_pending_at_start : usize;
  db_pending_at_start : option i64;
  handle : JoinHandle W InsertBatchesMetrics
}.
Arguments mkPendingInsertTask {W}.
Arguments first_batch_id {W}.
Arguments batch_count {W}.
Arguments local_pending_at_start {W}.
Arguments db_pending_at_start {W}.
Arguments handle {W}.

(** The metrics of the queue: live windows, or their snapshots. *)
Record QueueMetrics (M : Type) := mkQueueMetrics {
  m_fetch_completed_ms : M;
  m_fetch_completed_batches : M;
  m_fetch_completed_prefetch_fill_ratio : M;
  m_insert_bundle_ms : M;
  m_insert_bundle_batches : M;
  m_insert_bundle_ms_per_batch : M;
  m_insert_bundle_serialize_ms : M;
  m_insert_bundle_payload_bytes : M;
  m_insert_bundle_payload_bytes_per_batch : M;
  m_insert_bundle_db_batches_ms : M;
  m_insert_bundle_db_inputs_ms : M;
  m_insert_bundle_commit_ms : M;
  m_insert_bundle_local_pending_at_start : M;
  m_insert_bundle_db_pending_at_start : M
}.
Arguments mkQueueMetrics {M}.
Definition metrics_map {M N} (f : M -> N) (m : QueueMetrics M) : QueueMetrics N :=
  let 'mkQueueMetrics a b c d e g h i j k l n o p := m in
  mkQueueMetrics (f a) (f b) (f c) (f d) (f e) (f g) (f h) (f i) (f j) (f k) (f l) (f n) (f o) (f p).
Abbreviation QueueMetricsState := (QueueMetrics WindowMetric).
Abbreviation SamplerQueueRollingAverages := (QueueMetrics RollingMetricSnapshot).
Definition metrics_default : QueueMetricsState :=
  mkQueueMetrics window_default window_default window_default window_default window_default window_default
    window_default window_default window_default window_default window_default window_default window_default
    window_default.

Record SamplerQueue (W Eb R : Type) := mkSamplerQueue {
  q_run_id : i32;
  q_task_id : i64;
  q_config : SamplerQueueConfig;
  q_checkpoint : SamplerQueueCheckpoint;
  pending_insert : list (Eb * bool);
  ready_processed : list (CompletedBatch R);
  pending_insert_tasks : list (PendingInsertTask W);
  insert_error : option StoreError;
  pending_processed_fetch : option (JoinHandle W (list (CompletedBatch R) * Z));
  pending_completed_cleanup : option (JoinHandle W Z);
  cached_db_queue_counts : option BatchQueueCounts;
  cached_tick_queue_counts : option BatchQueueCounts;
  cached_active_evaluator_count : option usize;
  blocker : option QueueBlocker;
  last_reclaim_at : Z;
  last_completed_cleanup_at : Z;
  tune_cooldown_remaining : Z;
  eval_ms_per_sample : RollingMetric;
  training_batch_sizing : TrainingBatchSizing;
  metrics : QueueMetricsState
}.
Arguments mkSamplerQueue {W Eb R}.
Arguments q_run_id {W Eb R}.
Arguments q_task_id {W Eb R}.
Arguments q_config {W Eb R}.
Arguments q_checkpoint {W Eb R}.
Arguments pending_insert {W Eb R}.
Arguments ready_processed {W Eb R}.
Arguments pending_insert_tasks {W Eb R}.
Arguments insert_error {W Eb R}.
Arguments pending_processed_fetch {W Eb R}.
Arguments pending_completed_cleanup {W Eb R}.
Arguments cached_db_queue_counts {W Eb R}.
Arguments cached_tick_queue_counts {W Eb R}.
Arguments cached_active_evaluator_count {W Eb R}.
Arguments blocker {W Eb R}.
Arguments last_reclaim_at {W Eb R}.
Arguments last_completed_cleanup_at {W Eb R}.
Arguments tune_cooldown_remaining {W Eb R}.
Arguments eval_ms_per_sample {W Eb R}.
Arguments training_batch_sizing {W Eb R}.
Arguments metrics {W Eb R}.

(** Field assignments. *)
Section setters.
Context {W Eb R : Type}.
Implicit Types q : SamplerQueue W Eb R.
Definition set_q_config (x : SamplerQueueConfig) q : SamplerQueue W Eb R :=
  mkSamplerQueue (q_run_id q) (q_task_id q) x (q_checkpoint q) (pending_insert q) (ready_processed q)
    (pending_insert_tasks q) (insert_error q) (pending_processed_fetch q) (pending_completed_cleanup q)
    (cached_db_queue_counts q) (cached_tick_queue_counts q) (cached_active_evaluator_count q) (blocker q)
    (last_reclaim_at q) (last_completed_cleanup_at q) (tune_cooldown_remaining q) (eval_ms_per_sample q)
    (training_batch_sizing q) (metrics q).
Definition set_q_checkpoint (x : SamplerQueueCheckpoint) q : SamplerQueue W Eb R :=
  mkSamplerQueue (q_run_id q) (q_task_id q) (q_config q) x (pending_insert q) (ready_processed q)
    (pending_insert_tasks q) (insert_error q) (pending_processed_fetch q) (pending_completed_cleanup q)
    (cached_db_queue_counts q) (cached_tick_queue_counts q) (cached_active_evaluator_count q) (blocker q)
    (last_reclaim_at q) (last_completed_cleanup_at q) (tune_cooldown_remaining q) (eval_ms_per_sample q)
    (training_batch_sizing q) (metrics q).
Definition set_pending_insert (x : list (Eb * bool)) q : SamplerQueue W Eb R :=
  mkSamplerQueue (q_run_id q) (q_task_id q) (q_config q) (q_checkpoint q) x (ready_processed q)
    (pending_insert_tasks q) (insert_error q) (pending_processed_fetch q) (pending_completed_cleanup q)
    (cached_db_queue_counts q) (cached_tick_queue_counts q) (cached_active_evaluator_count q) (blocker q)
    (last_reclaim_at q) (last_completed_cleanup_at q) (tune_cooldown_remaining q) (eval_ms_per_sample q)
    (training_batch_sizing q) (metrics q).
Definition set_ready_processed (x : list (CompletedBatch R)) q : SamplerQueue W Eb R :=
  mkSamplerQueue (q_run_id q) (q_task_id q) (q_config q) (q_checkpoint q) (pending_insert q) x
    (pending_insert_tasks q) (insert_error q) (pending_processed_fetch q) (pending_completed_cleanup q)
    (cached_db_queue_counts q) (cached_tick_queue_counts q) (cached_active_evaluator_count q) (blocker q)
    (last_reclaim_at q) (last_completed_cleanup_at q) (tune_cooldown_remaining q) (eval_ms_per_sample q)
    (training_batch_sizing q) (metrics q).
Definition set_pending_insert_tasks (x : list (PendingInsertTask W)) q : SamplerQueue W Eb R :=
  mkSamplerQueue (q_run_id q) (q_task_id q) (q_config q) (q_checkpoint q) (pending_insert q)
    (ready_processed q) x (insert_error q) (pending_processed_fetch q) (pending_completed_cleanup q)
    (cached_db_queue_counts q) (cached_tick_queue_counts q) (cached_active_evaluator_count q) (blocker q)
    (last_reclaim_at q) (last_completed_cleanup_at q) (tune_cooldown_remaining q) (eval_ms_per_sample q)
    (training_batch_sizing q) (metrics q).
Definition set_insert_error (x : option StoreError) q : SamplerQueue W Eb R :=
  mkSamplerQueue (q_run_id q) (q_task_id q) (q_config q) (q_checkpoint q) (pending_insert q)
    (ready_processed q) (pending_insert_tasks q) x (pending_processed_fetch q) (pending_completed_cleanup q)
    (cached_db_queue_counts q) (cached_tick_queue_counts q) (cached_active_evaluator_count q) (blocker q)
    (last_reclaim_at q) (last_completed_cleanup_at q) (tune_cooldown_remaining q) (eval_ms_per_sample q)
    (training_batch_sizing q) (metrics q).
Definition set_pending_processed_fetch (x : option (JoinHandle W (list (CompletedBatch R) * Z))) q : SamplerQueue W Eb R :=
  mkSamplerQueue (q_run_id q) (q_task_id q) (q_config q) (q_checkpoint q) (pending_insert q)
    (ready_processed q) (pending_insert_tasks q) (insert_error q) x (pending_completed_cleanup q)
    (cached_db_queue_counts q) (cached_tick_queue_counts q) (cached_active_evaluator_count q) (blocker q)
    (last_reclaim_at q) (last_completed_cleanup_at q) (tune_cooldown_remaining q) (eval_ms_per_sample q)
    (training_batch_sizing q) (metrics q).
Definition set_pending_completed_cleanup (x : option (JoinHandle W Z)) q : SamplerQueue W Eb R :=
  mkSamplerQueue (q_run_id q) (q_task_id q) (q_config q) (q_checkpoint q) (pending_insert q)
    (ready_processed q) (pending_insert_tasks q) (insert_error q) (pending_processed_fetch q) x
    (cached_db_queue_counts q) (cached_tick_queue_counts q) (cached_active_evaluator_count q) (blocker q)
    (last_reclaim_at q) (last_completed_cleanup_at q) (tune_cooldown_remaining q) (eval_ms_per_sample q)
    (training_batch_sizing q) (metrics q).
Definition set_cached_db_queue_counts (x : option BatchQueueCounts) q : SamplerQueue W Eb R :=
  mkSamplerQueue (q_run_id q) (q_task_id q) (q_config q) (q_checkpoint q) (pending_insert q)
    (ready_processed q) (pending_insert_tasks q) (insert_error q) (pending_processed_fetch q)
    (pending_completed_cleanup q) x (cached_tick_queue_counts q) (cached_active_evaluator_count q)
    (blocker q) (last_reclaim_at q) (last_completed_cleanup_at q) (tune_cooldown_remaining q)
    (eval_ms_per_sample q) (training_batch_sizing q) (metrics q).
Definition set_cached_tick_queue_counts (x : option BatchQueueCounts) q : SamplerQueue W Eb R :=
  mkSamplerQueue (q_run_id q) (q_task_id q) (q_config q) (q_checkpoint q) (pending_insert q)
    (ready_processed q) (pending_insert_tasks q) (insert_error q) (pending_processed_fetch q)
    (pending_completed_cleanup q) (cached_db_queue_counts q) x (cached_active_evaluator_count q) (blocker q)
    (last_reclaim_at q) (last_completed_cleanup_at q) (tune_cooldown_remaining q) (eval_ms_per_sample q)
    (training_batch_sizing q) (metrics q).
Definition set_cached_active_evaluator_count (x : option usize) q : SamplerQueue W Eb R :=
  mkSamplerQueue (q_run_id q) (q_task_id q) (q_config q) (q_checkpoint q) (pending_insert q)
    (ready_processed q) (pending_insert_tasks q) (insert_error q) (pending_processed_fetch q)
    (pending_completed_cleanup q) (cached_db_queue_counts q) (cached_tick_queue_counts q) x (blocker q)
    (last_reclaim_at q) (last_completed_cleanup_at q) (tune_cooldown_remaining q) (eval_ms_per_sample q)
    (training_batch_sizing q) (metrics q).
Definition set_blocker (x : option QueueBlocker) q : SamplerQueue W Eb R :=
  mkSamplerQueue (q_run_id q) (q_task_id q) (q_config q) (q_checkpoint q) (pending_insert q)
    (ready_processed q) (pending_insert_tasks q) (insert_error q) (pending_processed_fetch q)
    (pending_completed_cleanup q) (cached_db_queue_counts q) (cached_tick_queue_counts q)
    (cached_active_evaluator_count q) x (last_reclaim_at q) (last_completed_cleanup_at q)
    (tune_cooldown_remaining q) (eval_ms_per_sample q) (training_batch_sizing q) (metrics q).
Definition set_last_reclaim_at (x : Z) q : SamplerQueue W Eb R :=
  mkSamplerQueue (q_run_id q) (q_task_id q) (q_config q) (q_checkpoint q) (pending_insert q)
    (ready_processed q) (pending_insert_tasks q) (insert_error q) (pending_processed_fetch q)
    (pending_completed_cleanup q) (cached_db_queue_counts q) (cached_tick_queue_counts q)
    (cached_active_evaluator_count q) (blocker q) x (last_completed_cleanup_at q)
    (tune_cooldown_remaining q) (eval_ms_per_sample q) (training_batch_sizing q) (metrics q).
Definition set_last_completed_cleanup_at (x : Z) q : SamplerQueue W Eb R :=
  mkSamplerQueue (q_run_id q) (q_task_id q) (q_config q) (q_checkpoint q) (pending_insert q)
    (ready_processed q) (pending_insert_tasks q) (insert_error q) (pending_processed_fetch q)
    (pending_completed_cleanup q) (cached_db_queue_counts q) (cached_tick_queue_counts q)
    (cached_active_evaluator_count q) (blocker q) (last_reclaim_at q) x (tune_cooldown_remaining q)
    (eval_ms_per_sample q) (training_batch_sizing q) (metrics q).
Definition set_tune_cooldown_remaining (x : Z) q : SamplerQueue W Eb R :=
  mkSamplerQueue (q_run_id q) (q_task_id q) (q_config q) (q_checkpoint q) (pending_insert q)
    (ready_processed q) (pending_insert_tasks q) (insert_error q) (pending_processed_fetch q)
    (pending_completed_cleanup q) (cached_db_queue_counts q) (cached_tick_queue_counts q)
    (cached_active_evaluator_count q) (blocker q) (last_reclaim_at q) (last_completed_cleanup_at q) x
    (eval_ms_per_sample q) (training_batch_sizing q) (metrics q).
Definition set_eval_ms_per_sample (x : RollingMetric) q : SamplerQueue W Eb R :=
  mkSamplerQueue (q_run_id q) (q_task_id q) (q_config q) (q_checkpoint q) (pending_insert q)
    (ready_processed q) (pending_insert_tasks q) (insert_error q) (pending_processed_fetch q)
    (pending_completed_cleanup q) (cached_db_queue_counts q) (cached_tick_queue_counts q)
    (cached_active_evaluator_count q) (blocker q) (last_reclaim_at q) (last_completed_cleanup_at q)
    (tune_cooldown_remaining q) x (training_batch_sizing q) (metrics q).
Definition set_training_batch_sizing (x : TrainingBatchSizing) q : SamplerQueue W Eb R :=
  mkSamplerQueue (q_run_id q) (q_task_id q) (q_config q) (q_checkpoint q) (pending_insert q)
    (ready_processed q) (pending_insert_tasks q) (insert_error q) (pending_processed_fetch q)
    (pending_completed_cleanup q) (cached_db_queue_counts q) (cached_tick_queue_counts q)
    (cached_active_evaluator_count q) (blocker q) (last_reclaim_at q) (last_completed_cleanup_at q)
    (tune_cooldown_remaining q) (eval_ms_per_sample q) x (metrics q).
Definition set_metrics (x : QueueMetricsState) q : SamplerQueue W Eb R :=
  mkSamplerQueue (q_run_id q) (q_task_id q) (q_config q) (q_checkpoint q) (pending_insert q)
    (ready_processed q) (pending_insert_tasks q) (insert_error q) (pending_processed_fetch q)
    (pending_completed_cleanup q) (cached_db_queue_counts q) (cached_tick_queue_counts q)
    (cached_active_evaluator_count q) (blocker q) (last_reclaim_at q) (last_completed_cleanup_at q)
    (tune_cooldown_remaining q) (eval_ms_per_sample q) (training_batch_sizing q) x.
End setters.

(** ** Operations *)

Section queue.
Context {W Eb R : Type} {QW : QueueWorld W Eb R} {LM : Libm}.
Variable nr_samples_of : Eb -> usize.

Notation sq := (SamplerQueue W Eb R).
(** A method on [&mut self] with the world it acts on. *)
Notation M := (SE (sq * W) StoreError).

Definition gets {A} (f : sq -> A) : M A := se_get (fun s => f s.1).
Definition modify (f : sq -> sq) : M unit := se_modify (fun s => (f s.1, s.2)).
Definition world {A} (f : W -> W * A) : M A := fun s => let '(w, a) := f s.2 in ((s.1, w), Ok a).
Definition world_try {A} (f : W -> W * result StoreError A) : M A := fun s => let '(w, r) := f s.2 in ((s.1, w), r).
Definition now_ms : M Z := fun s => (s, Ok (w_now s.2)).

Definition effective_max_batch_size (c : SamplerQueueConfig) : usize := Z.max (max_batch_size c) MIN_BATCH_SIZE.

Definition set_batch_size (size : usize) (c : SamplerQueueCheckpoint) : SamplerQueueCheckpoint :=
  mkQueueCheckpoint (last_completed_batch_id c) (last_produced_batch_id c) size.

(** [instant.checked_sub(d).unwrap_or(instant)] on a clock that starts at 0. *)
Definition instant_sub (now d : Z) : Z := if d <=? now then now - d else now.

Definition queue_new (now : Z) (run : i32) (task : i64) (config : SamplerQueueConfig)
    (checkpoint : SamplerQueueCheckpoint) : sq :=
  let size := clamp MIN_BATCH_SIZE (effective_max_batch_size config)
                (default (batch_size_current checkpoint) (fixed_batch_size config)) in
  mkSamplerQueue run task config (set_batch_size size checkpoint) [] [] [] None None None None None None None
    (instant_sub now RECLAIM_INTERVAL) (instant_sub now COMPLETED_CLEANUP_INTERVAL) 0 rolling_default
    training_sizing_default metrics_default.

Definition apply_config (config : SamplerQueueConfig) (q : sq) : sq :=
  let size := clamp MIN_BATCH_SIZE (effective_max_batch_size config)
                (default (batch_size_current (q_checkpoint q)) (fixed_batch_size config)) in
  set_tune_cooldown_remaining 0 (set_q_checkpoint (set_batch_size size (q_checkpoint q)) (set_q_config config q)).

Definition current_batch_size (q : sq) : usize := batch_size_current (q_checkpoint q).
Definition queue_last_completed (q : sq) : option i64 := last_completed_batch_id (q_checkpoint q).

(** *** Batch-size tuning *)

Definition tune_batch_size (q : sq) : sq :=
  let config := q_config q in
  let current := current_batch_size q in
  let with_size size := set_q_checkpoint (set_batch_size size (q_checkpoint q)) q in
  match fixed_batch_size config with
  | Some size => with_size (clamp MIN_BATCH_SIZE (effective_max_batch_size config) size)
  | None =>
      match rolling_value (eval_ms_per_sample q) with
      | None => q
      | Some ms_per_sample =>
          if tune_cooldown_remaining q >? 0 then set_tune_cooldown_remaining (tune_cooldown_remaining q - 1) q
          else if PrimFloat.leb (target_batch_eval_ms config) 0%float
                  || negb (PrimFloat.is_finite (target_batch_eval_ms config)) then q
          else
            let current_eval_batch_ms := (ms_per_sample * f64_of_Z current)%float in
            if PrimFloat.leb current_eval_batch_ms 0%float || negb (PrimFloat.is_finite current_eval_batch_ms) then q
            else
              let ratio := (target_batch_eval_ms config / current_eval_batch_ms)%float in
              if negb (PrimFloat.is_finite ratio) || PrimFloat.leb ratio 0%float then q
              else
                let lower := (1 - DEFAULT_BATCH_SIZE_DEADBAND_RATIO)%float in
                let upper := (1 + DEFAULT_BATCH_SIZE_DEADBAND_RATIO)%float in
                if PrimFloat.leb lower ratio && PrimFloat.leb ratio upper then q
                else
                  let next := f64_as_usize (f64_round (f64_of_Z current * ratio)%float) in
                  let next := clamp MIN_BATCH_SIZE (effective_max_batch_size config) next in
                  if next =? current then q
                  else set_tune_cooldown_remaining DEFAULT_BATCH_SIZE_COOLDOWN_TICKS (with_size next)
      end
  end.

Definition observe_completed_eval_batch (size : usize) (total_eval_time_ms : f64) (q : sq) : sq :=
  if (size =? 0) || negb (PrimFloat.is_finite total_eval_time_ms) || PrimFloat.leb total_eval_time_ms 0%float then q
  else tune_batch_size (set_eval_ms_per_sample (observe_batch total_eval_time_ms size (eval_ms_per_sample q)) q).

Definition production_batch_size (remaining : option usize) (q : sq) : sq * usize :=
  let '(sizing, size) :=
    training_batch_size (current_batch_size q) remaining (default 0 (cached_active_evaluator_count q))
      (training_batch_sizing q) in
  (set_training_batch_sizing sizing q, size).

(** *** Counts *)

Definition local_unpersisted_batches (q : sq) : usize :=
  zlen (pending_insert q) + zsum (map batch_count (pending_insert_tasks q)).

Definition queue_counts_with_local_buffer (c : BatchQueueCounts) (q : sq) : BatchQueueCounts :=
  mkBatchQueueCounts (i64_saturating_add (qc_pending c) (wrap_i64 (local_unpersisted_batches q)))
    (qc_claimed c) (qc_completed c) (qc_failed c).

Definition db_queue_counts : M BatchQueueCounts :=
  let! q := gets id in
  let! counts := world_try (w_get_batch_queue_counts (q_run_id q) (Some (q_task_id q)) (queue_last_completed q)) in
  modify (set_cached_db_queue_counts (Some counts)) ;! se_ret counts.

Definition queue_counts : M BatchQueueCounts :=
  let! counts := db_queue_counts in gets (queue_counts_with_local_buffer counts).

Definition needs_generation (counts : BatchQueueCounts) : M bool :=
  let! run := gets q_run_id in
  let! n := world_try (w_count_active_evaluator_nodes run) in
  let evaluators := Z.max 0 n in
  modify (set_cached_active_evaluator_count (Some evaluators)) ;!
  modify (set_cached_tick_queue_counts (Some counts)) ;!
  se_ret ((evaluators >? 0) && (Z.max 0 (qc_pending counts) <? evaluators)).

(** *** Metrics *)

Definition on_metrics (f : QueueMetricsState -> QueueMetricsState) (q : sq) : sq := set_metrics (f (metrics q)) q.

Definition take_metrics_snapshot (q : sq) : sq * SamplerQueueRollingAverages :=
  (set_metrics (metrics_map (fun m => (snapshot_and_reset m).1) (metrics q)) q,
   metrics_map (fun m => (snapshot_and_reset m).2) (metrics q)).

(** The observations of one completed insert. *)
Definition observe_insert (task : PendingInsertTask W) (x : InsertBatchesMetrics) (m : QueueMetricsState)
    : QueueMetricsState :=
  let 'mkQueueMetrics fetch_ms fetch_batches fill bundle_ms bundle_batches ms_per_batch ser payload payload_per
        db_batches db_inputs commit local_pending db_pending := m in
  let n := f64_of_Z (batch_count task) in
  mkQueueMetrics fetch_ms fetch_batches fill
    (window_observe (end_to_end_ms x) bundle_ms)
    (window_observe n bundle_batches)
    (if 0 <? batch_count task then observe_weighted (end_to_end_ms x / n)%float (batch_count task) ms_per_batch
     else ms_per_batch)
    (window_observe (serialize_ms x) ser)
    (window_observe (f64_of_Z (payload_bytes x)) payload)
    (if 0 <? batch_count task then
       observe_weighted (f64_of_Z (payload_bytes x) / n)%float (batch_count task) payload_per
     else payload_per)
    (window_observe (insert_batches_exec_ms x) db_batches)
    (window_observe (insert_inputs_exec_ms x) db_inputs)
    (window_observe (commit_ms x) commit)
    (window_observe (f64_of_Z (local_pending_at_start task)) local_pending)
    (match db_pending_at_start task with
     | Some pending => window_observe (f64_of_Z pending) db_pending
     | None => db_pending
     end).

Definition observe_fetch (duration : Z) (n fetch_limit : usize) (m : QueueMetricsState) : QueueMetricsState :=
  let 'mkQueueMetrics fetch_ms fetch_batches fill bundle_ms bundle_batches ms_per_batch ser payload payload_per
        db_batches db_inputs commit local_pending db_pending := m in
  mkQueueMetrics (observe_duration duration fetch_ms) (window_observe (f64_of_Z n) fetch_batches)
    (window_observe (f64_clamp 0%float 1%float (f64_of_Z n / f64_of_Z fetch_limit)%float) fill)
    bundle_ms bundle_batches ms_per_batch ser payload payload_per db_batches db_inputs commit local_pending db_pending.

(** *** Cleanup of consumed batches *)

Definition consume_completed_cleanup_task (task : JoinHandle W Z) : M Z :=
  let! r := world (await_handle task) in
  match r with
  | Some (Ok duration) =>
      let! now := now_ms in
      modify (set_last_completed_cleanup_at now) ;! se_ret duration
  | Some (Err e) => se_fail e
  | None => se_fail (Internal "sampler queue completed cleanup task failed")
  end.

Definition drain_finished_completed_cleanup : M (option Z) :=
  let! task := gets pending_completed_cleanup in
  match task with
  | Some task =>
      if is_finished task then
        modify (set_pending_completed_cleanup None) ;!
        let! d := consume_completed_cleanup_task task in se_ret (Some d)
      else se_ret None
  | None => se_ret None
  end.

(** The elapsed time of a job between two readings of the clock. *)
Definition timed {A} (job : W -> W * result StoreError A) (w : W) : W * result StoreError (A * Z) :=
  let started := w_now w in
  let '(w, r) := job w in
  (w, let? a := r in Ok (a, w_now w - started)).

Definition cleanup_job (run : i32) (up_to : i64) (w : W) : W * result StoreError Z :=
  let '(w, r) := timed (w_cleanup_consumed_completed_batches run up_to COMPLETED_CLEANUP_BATCH_LIMIT) w in
  (w, let? a := r in Ok a.2).

Definition ensure_completed_cleanup_if_due : M unit :=
  let! q := gets id in
  match pending_completed_cleanup q, queue_last_completed q with
  | None, Some up_to =>
      let! now := now_ms in
      if now - last_completed_cleanup_at q <? COMPLETED_CLEANUP_INTERVAL then se_ret tt
      else modify (set_pending_completed_cleanup (Some (spawn (cleanup_job (q_run_id q) up_to))))
  | _, _ => se_ret tt
  end.

Definition cleanup_consumed : M Z :=
  let! q := gets id in
  match queue_last_completed q with
  | None => se_ret 0
  | Some up_to =>
      world_try (w_cleanup_consumed_completed_batches (q_run_id q) up_to COMPLETED_CLEANUP_BATCH_LIMIT)
  end.

Definition cleanup_completed_batches : M (option Z) :=
  let! task := gets pending_completed_cleanup in
  modify (set_pending_completed_cleanup None) ;!
  match task with
  | Some task => let! _ := consume_completed_cleanup_task task in se_ret tt
  | None => se_ret tt
  end ;!
  let! last := gets queue_last_completed in
  match last with
  | None => se_ret None
  | Some _ =>
      let! started := now_ms in
      let! _ := cleanup_consumed in
      let! now := now_ms in
      modify (set_last_completed_cleanup_at now) ;! se_ret (Some (now - started))
  end.

Definition reclaim_abandoned_batches_if_due : M (option Z) :=
  let! started := now_ms in
  let! q := gets id in
  if started - last_reclaim_at q <? RECLAIM_INTERVAL then se_ret None
  else
    let! _ := world_try (w_reclaim_abandoned_batches (q_run_id q)) in
    let! b := world_try (w_get_queue_blocker (q_run_id q) (q_task_id q) (queue_last_completed q)) in
    modify (set_blocker b) ;!
    let! now := now_ms in
    modify (set_last_reclaim_at now) ;! se_ret (Some (now - started)).

(** *** Background work at the end of a runner *)

Definition finish_background_maintenance : M unit :=
  (* aborting the fetch drops its outcome *)
  modify (set_pending_processed_fetch None) ;!
  let! task := gets pending_completed_cleanup in
  modify (set_pending_completed_cleanup None) ;!
  match task with
  | Some task => let! _ := consume_completed_cleanup_task task in se_ret tt
  | None => se_ret tt
  end.

(** *** Inserting *)

Definition insert_job (run : i32) (task : i64) (training : bool) (ids : list i64) (bs : list Eb)
    : W -> W * result StoreError InsertBatchesMetrics :=
  w_insert_batches run task training ids bs.

(** The batches of the next bundle: at most [max_insert_bundle_size], all with
    the front batch's feedback flag. *)
Definition next_bundle (size : usize) (l : list (Eb * bool)) : list (Eb * bool) :=
  match l with
  | [] => []
  | (_, training) :: _ => take_while (fun p => Bool.eqb p.2 training) (ztake size l)
  end.

Definition pump_once (q : sq) (w : W) : sq * W :=
  let bundle := next_bundle (Z.max (max_insert_bundle_size (q_config q)) 1) (pending_insert q) in
  let training := match pending_insert q with (_, t) :: _ => t | [] => false end in
  let batch_count := zlen bundle in
  let '(w, batch_ids) := w_next_batch_ids batch_count w in
  let c := q_checkpoint q in
  let task :=
    mkPendingInsertTask (default 0 (head batch_ids)) batch_count (zlen (pending_insert q))
      (option_map (fun counts => Z.max 0 (qc_pending counts)) (cached_db_queue_counts q))
      (spawn (insert_job (q_run_id q) (q_task_id q) training batch_ids (map fst bundle))) in
  (set_pending_insert_tasks (pending_insert_tasks q ++ [task])
     (set_q_checkpoint (mkQueueCheckpoint (last_completed_batch_id c) (last batch_ids) (batch_size_current c))
        (set_pending_insert (zdrop batch_count (pending_insert q)) q)), w).

Definition pump_wanted (q : sq) : bool :=
  (zlen (pending_insert_tasks q) <? Z.max (max_concurrent_insert_tasks (q_config q)) 1)
  && negb (match pending_insert q with [] => true | _ => false end).

(** The [while] loop; every iteration takes batches off [pending_insert]. *)
Fixpoint pump (fuel : nat) (q : sq) (w : W) : sq * W :=
  match fuel with
  | O => (q, w)
  | S fuel => if pump_wanted q then let '(q, w) := pump_once q w in pump fuel q w else (q, w)
  end.

Definition ensure_insert_pump : M unit :=
  fun s => (pump (length (pending_insert s.1)) s.1 s.2, Ok tt).

Definition ingest (bs : list Eb) (requires_feedback : bool) : M unit :=
  modify (fun q =>
    let sizing := training_batch_sizing q in
    set_training_batch_sizing
      (mkTrainingBatchSizing
         (option_map (fun remaining => usize_saturating_sub remaining (zsum (map nr_samples_of bs)))
            (previous_remaining sizing))
         (tbs_evaluators sizing) (tbs_cap sizing)) q) ;!
  modify (fun q => set_pending_insert (pending_insert q ++ map (fun b => (b, requires_feedback)) bs) q) ;!
  ensure_insert_pump.

(** [v.swap_remove(i)] *)
Definition swap_remove {A} (i : nat) (l : list A) : option (A * list A) :=
  match l !! i with
  | None => None
  | Some x =>
      let l' := take (length l - 1) l in
      Some (x, match last l with
               | Some y => if Nat.eqb (S i) (length l) then l' else <[i := y]> l'
               | None => l'
               end)
  end.

(** Settling every outstanding insert: [for pending in drain(..) { handle.await }]. *)
Fixpoint await_all (tasks : list (PendingInsertTask W)) (w : W) : W :=
  match tasks with
  | [] => w
  | task :: tasks => await_all tasks (await_handle (handle task) w).1
  end.

Definition consume_insert_task (task : PendingInsertTask W) : M unit :=
  let! joined := world (await_handle (handle task)) in
  let outcome := match joined with
                 | Some r => r
                 | None => Err (Internal "sampler queue insert task failed")
                 end in
  match outcome with
  | Err error =>
      let error := if is_database_error error then RetryActivation "uncertain sampler insert" else error in
      modify (set_insert_error (Some error)) ;!
      let! tasks := gets pending_insert_tasks in
      modify (set_pending_insert_tasks []) ;!
      world (fun w => (await_all tasks w, tt)) ;!
      se_ignore finish_background_maintenance ;!
      se_fail error
  | Ok x =>
      modify (on_metrics (observe_insert task x)) ;!
      let! q := gets id in
      match pending_insert q, pending_insert_tasks q with
      | [], [] => world_try (w_notify_work_available (q_run_id q))
      | _, _ => se_ret tt
      end
  end.

(** The [while index < len] loop: each iteration moves the index or removes a
    task. *)
Fixpoint drain_inserts (fuel : nat) (index : nat) : M unit :=
  match fuel with
  | O => se_ret tt
  | S fuel =>
      let! tasks := gets pending_insert_tasks in
      match tasks !! index with
      | None => se_ret tt
      | Some task =>
          if is_finished (handle task) then
            modify (set_pending_insert_tasks (match swap_remove index tasks with Some (_, l) => l | None => tasks end)) ;!
            consume_insert_task task ;!
            drain_inserts fuel index
          else drain_inserts fuel (S index)
      end
  end.

Definition drain_finished_insert : M unit :=
  let! error := gets insert_error in
  match error with
  | Some e => se_fail e
  | None => let! tasks := gets pending_insert_tasks in drain_inserts (S (length tasks)) 0
  end.

(** The [loop] of [flush]: each iteration but the last consumes a task. *)
Fixpoint flush_loop (fuel : nat) : M unit :=
  match fuel with
  | O => se_ret tt
  | S fuel =>
      drain_finished_insert ;!
      let! q := gets id in
      match pending_insert_tasks q, pending_insert q with
      | [], [] => se_ret tt
      | _, _ =>
          ensure_insert_pump ;!
          let! tasks := gets pending_insert_tasks in
          match swap_remove 0 tasks with
          | None => se_ret tt
          | Some (task, rest) =>
              modify (set_pending_insert_tasks rest) ;!
              consume_insert_task task ;!
              flush_loop fuel
          end
      end
  end.

Definition flush : M unit :=
  let! q := gets id in
  flush_loop (S (length (pending_insert_tasks q) + length (pending_insert q))).

(** *** Fetching *)

Definition fetch_job (run : i32) (task : i64) (limit : usize) (after : option i64) (before : i64) (w : W)
    : W * result StoreError (list (CompletedBatch R) * Z) :=
  let '(w, r) := timed (w_fetch_completed_batches run task limit true after) w in
  (w, let? a := r in Ok (take_while (fun b => cb_batch_id b <? before) a.1, a.2)).

(** [iter.min()] *)
Definition min_list (l : list Z) : option Z :=
  match l with [] => None | x :: l => Some (foldr Z.min x l) end.

Definition ensure_processed_prefetch : M unit :=
  let! q := gets id in
  match ready_processed q, pending_processed_fetch q with
  | [], None =>
      let! before :=
        match min_list (map first_batch_id (pending_insert_tasks q)) with
        | Some b => se_ret b
        | None => let! ids := world (w_next_batch_ids 1) in se_ret (default 0 (head ids))
        end in
      modify (set_pending_processed_fetch
        (Some (spawn (fetch_job (q_run_id q) (q_task_id q) (Z.max (completed_batch_fetch_limit (q_config q)) 1)
                        (queue_last_completed q) before))))
  | _, _ => se_ret tt
  end.

Definition consume_processed_fetch_task (task : JoinHandle W (list (CompletedBatch R) * Z)) : M unit :=
  let! joined := world (await_handle task) in
  match joined with
  | Some (Ok (completed, duration)) =>
      modify (fun q =>
        set_ready_processed (ready_processed q ++ completed)
          (on_metrics (observe_fetch duration (zlen completed) (Z.max (completed_batch_fetch_limit (q_config q)) 1)) q))
  | Some (Err e) => se_fail e
  | None => se_fail (Internal "sampler queue completed-batch fetch task failed")
  end.

Definition drain_finished_processed_fetch : M unit :=
  let! task := gets pending_processed_fetch in
  match task with
  | Some task =>
      if is_finished task then
        modify (set_pending_processed_fetch None) ;! consume_processed_fetch_task task
      else se_ret tt
  | None => se_ret tt
  end.

Definition take_ready_processed : M (list (CompletedBatch R)) :=
  let! ready := gets ready_processed in
  modify (set_ready_processed []) ;! se_ret ready.

Definition get_processed : M (list (CompletedBatch R)) :=
  drain_finished_insert ;!
  ensure_insert_pump ;!
  drain_finished_processed_fetch ;!
  ensure_processed_prefetch ;!
  take_ready_processed.

Definition get_processed_ready : M (list (CompletedBatch R)) :=
  drain_finished_insert ;!
  ensure_insert_pump ;!
  drain_finished_processed_fetch ;!
  take_ready_processed.

Definition mark_processed (processed : list (CompletedBatch R)) : M unit :=
  match last processed with
  | Some b =>
      modify (fun q => let c := q_checkpoint q in
        set_q_checkpoint (mkQueueCheckpoint (Some (cb_batch_id b)) (last_produced_batch_id c) (batch_size_current c)) q)
  | None => se_ret tt
  end ;!
  ensure_completed_cleanup_if_due.

Record QueueTickResult := mkQueueTickResult {
  qt_completed : list (CompletedBatch R);
  qt_queue_counts : BatchQueueCounts;
  qt_queue_snapshot_duration : Z;
  qt_reclaim_duration : option Z;
  qt_completed_cleanup_duration : option Z
}.

Definition tick : M QueueTickResult :=
  let! completed := get_processed in
  let! cleanup_duration := drain_finished_completed_cleanup in
  ensure_completed_cleanup_if_due ;!
  let! reclaim_duration := reclaim_abandoned_batches_if_due in
  let! started := now_ms in
  let! counts := queue_counts in
  let! now := now_ms in
  modify (set_cached_tick_queue_counts (Some counts)) ;!
  se_ret (mkQueueTickResult completed counts (now - started) reclaim_duration cleanup_duration).
End queue.

(** ** Properties of single operations *)

Section properties.
Context {W Eb R : Type} {QW : QueueWorld W Eb R} {LM : Libm}.
Notation sq := (SamplerQueue W Eb R).
Notation M := (SE (sq * W) StoreError).

Lemma swap_remove_perm {A} i (l : list A) x :
  l !! i = Some x -> exists l', swap_remove i l = Some (x, l') /\ l ≡ₚ x :: l' /\ length l = S (length l').
Proof.
  intros Hi. unfold swap_remove. rewrite Hi.
  destruct l as [|z l _] using rev_ind; [done|]. rewrite last_snoc, length_app, Nat.add_sub, take_app_length.
  eexists. split; [done|]. destruct (Nat.eqb_spec (S i) (length l + length [z])) as [Hn|Hn]; simpl in Hn.
  - replace i with (length l) in Hi by lia. rewrite list_lookup_middle in Hi by done. simplify_eq.
    split; [symmetry; apply Permutation_cons_append|simpl; lia].
  - assert (i < length l)%nat as Hlt by (apply lookup_lt_Some in Hi; rewrite length_app in Hi; simpl in Hi; lia).
    rewrite lookup_app_l in Hi by done. split; [|rewrite length_insert; simpl; lia].
    rewrite <- (take_drop_middle l i x Hi) at 1. rewrite (insert_take_drop l i z Hlt).
    rewrite <- !app_assoc. simpl. solve_Permutation.
Qed.

(** *** The insert pump *)

Lemma next_bundle_nonempty size (l : list (Eb * bool)) : 1 <= size -> l <> [] -> (0 < length (next_bundle size l))%nat.
Proof.
  intros Hs Hl. destruct l as [|[b t] l]; [done|]. unfold next_bundle, ztake.
  destruct (Z.to_nat size) eqn:E; [lia|]. simpl. rewrite eqb_reflx. simpl. lia.
Qed.

Lemma pump_wanted_spec (q : sq) :
  pump_wanted q = true <->
  zlen (pending_insert_tasks q) < Z.max (max_concurrent_insert_tasks (q_config q)) 1 /\ pending_insert q <> [].
Proof.
  unfold pump_wanted. rewrite andb_true_iff, Z.ltb_lt. destruct (pending_insert q); simpl; intuition congruence.
Qed.

(** One round starts one task and takes at least one batch. *)
Lemma pump_once_spec (q : sq) w q' w' :
  pump_once q w = (q', w') -> pending_insert q <> [] ->
  q_config q' = q_config q /\ insert_error q' = insert_error q /\
  (exists t, pending_insert_tasks q' = pending_insert_tasks q ++ [t] /\ jh_done (handle t) = None /\
     batch_count t + zlen (pending_insert q') = zlen (pending_insert q)) /\
  (length (pending_insert q') < length (pending_insert q))%nat.
Proof.
  unfold pump_once. intros Heq Hne. set (size := Z.max (max_insert_bundle_size (q_config q)) 1) in *.
  pose proof (next_bundle_nonempty size (pending_insert q) ltac:(lia) Hne) as Hpos.
  assert (length (next_bundle size (pending_insert q)) <= length (pending_insert q))%nat as Hle.
  { unfold next_bundle. destruct (pending_insert q) as [|[b t] l]; [done|].
    destruct (take_while_prefix (fun p : Eb * bool => Bool.eqb p.2 t) (ztake size ((b, t) :: l))) as [k Hk].
    apply (f_equal length) in Hk. rewrite length_app in Hk. unfold ztake in Hk |- *. rewrite length_take in Hk. lia. }
  destruct (w_next_batch_ids _ w) as [w1 ids]. simplify_eq/=. split_and!; try done.
  - eexists. split_and!; [done|done|]. simpl. unfold zlen, zdrop. rewrite length_drop. lia.
  - unfold zlen, zdrop. rewrite length_drop. lia.
Qed.

Lemma pump_spec fuel (q : sq) w :
  (length (pending_insert q) <= fuel)%nat ->
  let q' := (pump fuel q w).1 in
  pump_wanted q' = false /\
  zlen (pending_insert_tasks q') <= Z.max (zlen (pending_insert_tasks q)) (Z.max (max_concurrent_insert_tasks (q_config q)) 1) /\
  q_config q' = q_config q /\ insert_error q' = insert_error q /\
  local_unpersisted_batches q' = local_unpersisted_batches q /\
  (length (pending_insert_tasks q') + length (pending_insert q') <= length (pending_insert_tasks q) + length (pending_insert q))%nat /\
  (pending_insert q <> [] -> pending_insert_tasks q = [] -> pending_insert_tasks q' <> []) /\
  (length (pending_insert_tasks q) <= length (pending_insert_tasks q'))%nat.
Proof.
  cbv zeta. revert q w. induction fuel as [|fuel IH]; intros q w Hf; simpl.
  { assert (pending_insert q = []) as Hnil by (destruct (pending_insert q); simpl in Hf; [done|lia]).
    split_and!; try done; try lia. unfold pump_wanted. by rewrite Hnil, andb_false_r. }
  destruct (pump_wanted q) eqn:Hw.
  - pose proof (proj1 (pump_wanted_spec q) Hw) as [Hlt Hne]. destruct (pump_once q w) as [q1 w1] eqn:E.
    destruct (pump_once_spec _ _ _ _ E Hne) as (Hc & Herr & (t & Ht & _ & Hn) & Hlen).
    destruct (IH q1 w1 ltac:(lia)) as (? & Hm & Hc' & He' & Hu & Hsum & _ & Hmono).
    unfold local_unpersisted_batches in *. rewrite Ht, Hc in Hm. rewrite Ht in Hu, Hsum, Hmono.
    rewrite zlen_app, zlen_cons, zlen_nil in Hm. rewrite length_app in Hsum, Hmono. simpl in Hsum, Hmono.
    rewrite map_app, zsum_app in Hu. simpl in Hu.
    split_and!; try congruence; try lia. intros _ Hnil HN. rewrite HN in Hmono. simpl in Hmono. lia.
  - cbn [fst]. split_and!; try done; try lia. intros Hne Hnil _.
    assert (pump_wanted q = true) as Hw'; [|congruence]. apply pump_wanted_spec. rewrite Hnil. split; [unfold zlen; simpl; lia|done].
Qed.

(** the insert pump is saturating and bounded. It stops by itself, and
    then every insert slot is taken or nothing waits; it never exceeds the
    configured number of concurrent inserts, and the number of batches not
    yet persisted does not change. *)
Theorem insert_pump_saturates (q : sq) (w : W) :
  let q' := (ensure_insert_pump (q, w)).1.1 in
  (pending_insert q' = [] \/
   Z.max (max_concurrent_insert_tasks (q_config q)) 1 <= zlen (pending_insert_tasks q')) /\
  zlen (pending_insert_tasks q') <=
    Z.max (zlen (pending_insert_tasks q)) (Z.max (max_concurrent_insert_tasks (q_config q)) 1) /\
  local_unpersisted_batches q' = local_unpersisted_batches q.
Proof.
  cbv zeta. unfold ensure_insert_pump. cbn [fst].
  destruct (pump_spec (length (pending_insert q)) q w ltac:(lia)) as (Hw & Hm & Hc & _ & Hu & _). split; [|done].
  destruct (pending_insert (pump (length (pending_insert q)) q w).1) eqn:E; [by left|right].
  apply Z.nlt_ge. intros Hlt. apply not_true_iff_false in Hw. apply Hw, pump_wanted_spec. rewrite Hc, E. done.
Qed.

(** *** Failed inserts *)

Lemma finish_settles (s : sq * W) :
  pending_processed_fetch (finish_background_maintenance s).1.1 = None /\
  pending_completed_cleanup (finish_background_maintenance s).1.1 = None /\
  pending_insert_tasks (finish_background_maintenance s).1.1 = pending_insert_tasks s.1 /\
  pending_insert (finish_background_maintenance s).1.1 = pending_insert s.1 /\
  insert_error (finish_background_maintenance s).1.1 = insert_error s.1.
Proof.
  unfold finish_background_maintenance, se_bind, modify, gets, se_modify, se_get, se_ret. simpl.
  destruct (pending_completed_cleanup s.1) as [h|]; [|done].
  unfold consume_completed_cleanup_task, se_bind, world. simpl. by destruct (await_handle h s.2) as [w [[d|e]|]].
Qed.

(** What consuming an insert leaves, by its outcome. *)
Lemma consume_insert_cases t (s s' : sq * W) r :
  consume_insert_task t s = (s', r) ->
  (exists e, r = Err e /\ insert_error s'.1 = Some e /\ is_database_error e = false /\ pending_insert_tasks s'.1 = [] /\
     pending_processed_fetch s'.1 = None /\ pending_completed_cleanup s'.1 = None /\
     (forall x, (await_handle (handle t) s.2).2 <> Some (Ok x))) \/
  (exists x, (await_handle (handle t) s.2).2 = Some (Ok x) /\ pending_insert_tasks s'.1 = pending_insert_tasks s.1 /\
     pending_insert s'.1 = pending_insert s.1 /\ insert_error s'.1 = insert_error s.1).
Proof.
  unfold consume_insert_task. unfold se_bind at 1, world at 1. destruct (await_handle (handle t) s.2) as [w r0]. simpl.
  assert (forall e0 : StoreError,
    let e := if is_database_error e0 then RetryActivation "uncertain sampler insert" else e0 in
    forall s' r, (modify (set_insert_error (Some e)) ;!
       let! tasks := gets pending_insert_tasks in
       modify (set_pending_insert_tasks []) ;!
       world (fun w => (await_all tasks w, tt)) ;!
       se_ignore finish_background_maintenance ;!
       se_fail e) (s.1, w) = (s', r) ->
    r = Err (A:=unit) e /\ insert_error s'.1 = Some e /\ is_database_error e = false /\ pending_insert_tasks s'.1 = [] /\
    pending_processed_fetch s'.1 = None /\ pending_completed_cleanup s'.1 = None) as Hpoison.
  { intros e0 e s1 r1 H. unfold se_bind, modify, gets, world, se_modify, se_get, se_ignore, se_fail in H. cbn [fst snd] in H.
    match type of H with context [finish_background_maintenance ?x] => pose proof (finish_settles x) as (? & ? & Ht & ? & He) end.
    simplify_eq/=. split_and!; rewrite ?He, ?Ht; try done. unfold e. by destruct e0. }
  intros H. destruct r0 as [[x|e0]|].
  - right. exists x. split; [done|]. unfold se_bind, modify, gets, se_modify, se_get, se_ret in H. cbn [fst snd id] in H.
    destruct (pending_insert _) eqn:E1; [destruct (pending_insert_tasks _) eqn:E2|]; simpl in E1; try simpl in E2; simplify_eq/=; try done.
    unfold world_try in H. simpl in H. destruct (w_notify_work_available _ w) as [w1 r1]. simplify_eq/=. done.
  - left. apply Hpoison in H as (? & ? & ? & ? & ? & ?). eexists. split_and!; try done.
  - left. apply (Hpoison (Internal "sampler queue insert task failed")) in H as (? & ? & ? & ? & ? & ?). eexists. split_and!; try done.
Qed.

(** a failed or uncertain insert stops the queue. When the insert a call
    consumes fails, the call fails with that error (a database error becomes
    a request to restart from the checkpoint), every other insert is settled
    and no fetch or cleanup is left running; from then on every call that
    would deliver or flush batches fails at once and changes nothing. *)
Theorem failed_insert_poisons t (s s' : sq * W) r
    (Hconsume : consume_insert_task t s = (s', r))
    (Hfailed : forall x, (await_handle (handle t) s.2).2 <> Some (Ok x)) :
  exists e, r = Err e /\ is_database_error e = false /\ insert_error s'.1 = Some e /\
    pending_insert_tasks s'.1 = [] /\ pending_processed_fetch s'.1 = None /\ pending_completed_cleanup s'.1 = None /\
    get_processed s' = (s', Err e) /\ get_processed_ready s' = (s', Err e) /\ tick s' = (s', Err e) /\
    flush s' = (s', Err e).
Proof.
  apply consume_insert_cases in Hconsume as [(e & -> & He & Hd & Ht & Hf & Hc & _)|(x & Hx & _)]; [|by apply Hfailed in Hx].
  exists e. assert (drain_finished_insert s' = (s', Err e)) as Hdrain.
  { unfold drain_finished_insert, se_bind, gets, se_get. by rewrite He. }
  assert (get_processed s' = (s', Err e)) as Hget by (unfold get_processed, se_bind; by rewrite Hdrain).
  split_and!; try done.
  - unfold get_processed_ready, se_bind. by rewrite Hdrain.
  - unfold tick, se_bind. by rewrite Hget.
  - unfold flush, se_bind, gets, se_get. simpl. unfold se_bind. by rewrite Hdrain.
Qed.

(** *** Flushing *)

Lemma drain_inserts_ok fuel i (s s' : sq * W) :
  drain_inserts fuel i s = (s', Ok tt) ->
  (length (pending_insert_tasks s'.1) <= length (pending_insert_tasks s.1))%nat /\
  pending_insert s'.1 = pending_insert s.1 /\ insert_error s'.1 = insert_error s.1.
Proof.
  revert i s. induction fuel as [|fuel IH]; intros i s; cbn [drain_inserts].
  { unfold se_ret. intros; by simplify_eq. }
  unfold gets, se_bind at 1, se_get. destruct (pending_insert_tasks s.1 !! i) as [t|] eqn:Hi.
  2: { unfold se_ret. intros; by simplify_eq. }
  destruct (is_finished (handle t)); [|apply IH].
  destruct (swap_remove_perm i _ _ Hi) as (l & Hl & _ & Hlen). rewrite Hl.
  unfold modify, se_modify, se_bind. destruct (consume_insert_task t _) as [s1 [[]|e]] eqn:E; [|done].
  intros H. apply IH in H as (? & ? & ?).
  apply consume_insert_cases in E as [(e & ? & _)|(x & _ & Ht & Hp & He)]; [done|]. simpl in *.
  rewrite Ht in *. split_and!; [lia|congruence|congruence].
Qed.

Lemma flush_loop_ok fuel (s s' : sq * W) :
  (length (pending_insert_tasks s.1) + length (pending_insert s.1) < fuel)%nat ->
  flush_loop fuel s = (s', Ok tt) ->
  pending_insert_tasks s'.1 = [] /\ pending_insert s'.1 = [] /\ insert_error s'.1 = None.
Proof.
  revert s. induction fuel as [|fuel IH]; intros s Hm; [lia|]. cbn [flush_loop]. unfold se_bind at 1.
  destruct (drain_finished_insert s) as [s1 [[]|e]] eqn:Ed; [|done]. unfold drain_finished_insert in Ed.
  unfold se_bind at 1, gets, se_get in Ed. destruct (insert_error s.1) as [e|] eqn:He0; [done|].
  unfold se_bind at 1 in Ed. apply drain_inserts_ok in Ed as (Hlen & Hpend & Herr). rewrite He0 in Herr.
  unfold gets, se_bind at 1, se_get. cbn [id].
  assert ((pending_insert_tasks s1.1 = [] /\ pending_insert s1.1 = []) \/
    (pending_insert_tasks s1.1 <> [] \/ pending_insert s1.1 <> [])) as [[E1 E2]|Hne].
  { destruct (pending_insert_tasks s1.1), (pending_insert s1.1); auto. }
  { rewrite E1, E2. unfold se_ret. intros; by simplify_eq. }
  assert (forall (k1 k2 : M unit), match pending_insert_tasks s1.1, pending_insert s1.1 with [], [] => k1 | _, _ => k2 end = k2)
    as -> by (intros; destruct (pending_insert_tasks s1.1), (pending_insert s1.1); naive_solver).
  unfold se_bind at 1. unfold ensure_insert_pump. cbn [fst snd].
  pose proof (pump_spec (length (pending_insert s1.1)) s1.1 s1.2 ltac:(lia)) as (_ & _ & _ & He2 & _ & Hsum & Hnew & Hmono).
  destruct (pump _ _ _) as [q2 w2]. cbn [fst snd] in *. unfold gets, se_bind at 1, se_get. cbn [fst].
  destruct (pending_insert_tasks q2) as [|t l] eqn:E2.
  { destruct Hne as [Hne|Hne].
    - destruct (pending_insert_tasks s1.1); [done|]. simpl in Hmono. lia.
    - destruct (pending_insert_tasks s1.1) eqn:E3; [by destruct (Hnew Hne eq_refl)|]. simpl in Hmono. lia. }
  destruct (swap_remove_perm 0 (t :: l) t eq_refl) as (rest & -> & _ & Hrest).
  unfold modify, se_modify, se_bind. destruct (consume_insert_task t _) as [s3 [[]|e]] eqn:E; [|done].
  apply consume_insert_cases in E as [(e & ? & _)|(x & _ & Ht & Hp & _)]; [done|]. simpl in Ht, Hp, Hsum, Hrest.
  apply IH. rewrite Ht, Hp, Hpend in *. lia.
Qed.

(** a successful flush leaves no draw behind. When it returns without an
    error every ingested batch has been inserted: nothing waits, no insert is
    running and none has failed. *)
Theorem flush_persists_all (s s' : sq * W) (Hflush : flush s = (s', Ok tt)) :
  pending_insert_tasks s'.1 = [] /\ pending_insert s'.1 = [] /\ insert_error s'.1 = None /\
  local_unpersisted_batches s'.1 = 0.
Proof.
  unfold flush, se_bind, gets, se_get in Hflush. apply flush_loop_ok in Hflush as (Ht & Hp & He); [|simpl; lia].
  split_and!; try done. unfold local_unpersisted_batches. by rewrite Ht, Hp.
Qed.

(** *** Batch sizes *)

Definition size_ok (q : sq) : Prop :=
  MIN_BATCH_SIZE <= current_batch_size q <= effective_max_batch_size (q_config q).

(** What changes the batch size: a new configuration, and the evaluation
    times the queue observes. *)
Inductive sizing_step : sq -> sq -> Prop :=
| sizing_config q c : sizing_step q (apply_config c q)
| sizing_observe q n ms : sizing_step q (observe_completed_eval_batch n ms q).

Lemma clamp_size_ok c x : MIN_BATCH_SIZE <= clamp MIN_BATCH_SIZE (effective_max_batch_size c) x <= effective_max_batch_size c.
Proof. unfold clamp, effective_max_batch_size. lia. Qed.

Lemma tune_size_ok (q : sq) : size_ok q -> size_ok (tune_batch_size q).
Proof.
  unfold tune_batch_size, size_ok. intros Hq. cbv zeta. destruct (fixed_batch_size (q_config q)); [apply clamp_size_ok|].
  destruct (rolling_value _); [|exact Hq]. repeat match goal with |- context [if ?b then _ else _] => destruct b; [exact Hq|] end. apply clamp_size_ok.
Qed.

Lemma sizing_step_ok (q q' : sq) : size_ok q -> sizing_step q q' -> size_ok q'.
Proof.
  intros Hq Hs. revert Hq. destruct Hs as [q c|q n ms]; intros Hq; [apply clamp_size_ok|]. unfold observe_completed_eval_batch.
  destruct (_ || _ || _)%bool; [done|]. by apply tune_size_ok.
Qed.

(** the batch size stays between the minimum and the configured maximum
    (never below the minimum), whatever the configuration, the restored
    checkpoint and the measured evaluation times. *)
Theorem batch_size_in_bounds now run task config checkpoint (q : sq)
    (Hsteps : steps sizing_step (queue_new now run task config checkpoint) q) :
  MIN_BATCH_SIZE <= current_batch_size q <= Z.max (max_batch_size (q_config q)) MIN_BATCH_SIZE.
Proof.
  change (size_ok q). eapply steps_invariant; [exact sizing_step_ok| |exact Hsteps]. apply clamp_size_ok.
Qed.
End properties.

(** *** Chunks of a training window *)

(** The chunk sizes of successive productions. *)
Fixpoint window_sizes (target evaluators : usize) (self : TrainingBatchSizing) (remaining : list usize) : list usize :=
  match remaining with
  | [] => []
  | r :: rs =>
      let '(self, size) := training_batch_size target (Some r) evaluators self in
      size :: window_sizes target evaluators self rs
  end.

Lemma div_ceil_mul a b : 0 < b -> 0 <= a -> a <= div_ceil a b * b.
Proof.
  intros Hb Ha. unfold div_ceil. pose proof (Z.mod_pos_bound (a + b - 1) b Hb).
  pose proof (Z.div_mod (a + b - 1) b ltac:(lia)). lia.
Qed.

Lemma window_sizes_const target evaluators cap r rs :
  0 < evaluators -> Forall (fun x => 0 < x) rs -> StronglySorted Z.ge (r :: rs) ->
  window_sizes target evaluators (mkTrainingBatchSizing (Some r) evaluators cap) rs =
  replicate (length rs) (Z.min target (default target cap)).
Proof.
  intros He. revert r. induction rs as [|x rs IH]; intros r Hpos Hs; [done|].
  apply Forall_cons in Hpos as [Hx Hpos]. apply StronglySorted_inv in Hs as [Hs Hr]. apply Forall_cons in Hr as [Hr _].
  cbn [window_sizes length replicate]. unfold training_batch_size. cbn [previous_remaining tbs_evaluators tbs_cap].
  rewrite !Z.gtb_ltb, (proj2 (Z.ltb_lt 0 x)), (proj2 (Z.ltb_lt 0 evaluators)) by lia. cbn [andb].
  rewrite (proj2 (Z.ltb_ge r x)), Z.eqb_refl by lia. simpl. f_equal. by apply IH.
Qed.

(** the chunks of a training window are balanced. When a window opens, its
    chunk size is chosen so that four chunks per evaluator cover the window,
    and all chunks of the window get that same size while the number of
    evaluators stays; no chunk exceeds the target size. *)
Theorem training_window_balanced target evaluators self remaining rs
    (Htarget : 0 < target) (Hevaluators : 0 < evaluators)
    (Hremaining : 0 < remaining <= usize_max) (Hrs : Forall (fun x => 0 < x) rs)
    (Hdraws : StronglySorted Z.ge (remaining :: rs))
    (Hopen : match previous_remaining self with None => True | Some previous => previous < remaining end) :
  exists cap, MIN_BATCH_SIZE <= cap /\ remaining <= 4 * evaluators * cap /\
    window_sizes target evaluators self (remaining :: rs) = replicate (S (length rs)) (Z.min target cap).
Proof.
  exists (Z.max (div_ceil remaining (usize_saturating_mul evaluators 4)) MIN_BATCH_SIZE).
  split; [lia|]. split.
  - unfold usize_saturating_mul. set (m := Z.min usize_max (evaluators * 4)).
    assert (0 < m) as Hm by (unfold m, usize_max; lia). pose proof (div_ceil_mul remaining m Hm ltac:(lia)).
    assert (0 <= div_ceil remaining m) as Hd by (unfold div_ceil; apply Z.div_pos; lia).
    assert (m <= 4 * evaluators) by (unfold m; lia). unfold MIN_BATCH_SIZE. nia.
  - cbn [window_sizes]. unfold training_batch_size at 1.
    rewrite !Z.gtb_ltb, (proj2 (Z.ltb_lt 0 remaining)), (proj2 (Z.ltb_lt 0 evaluators)) by lia. cbn [andb].
    assert (match previous_remaining self with None => true | Some previous => remaining >? previous end = true) as ->.
    { destruct (previous_remaining self); [|done]. rewrite Z.gtb_ltb. by apply Z.ltb_lt. }
    cbn [orb replicate length]. rewrite window_sizes_const by done. done.
Qed.

Lemma training_window_balanced_witness :
  exists cap, MIN_BATCH_SIZE <= cap /\ 1000 <= 4 * 4 * cap /\
    window_sizes 500 4 training_sizing_default [1000; 937; 1] = replicate 3 (Z.min 500 cap).
Proof.
  apply (training_window_balanced 500 4 training_sizing_default 1000 [937; 1]); try done.
  - repeat constructor; lia.
  - repeat constructor; lia.
Defined.

(** ** Witnesses

    A store whose inserts fail exactly when the world is [false]. *)

#[local] Instance ex_flag_world : QueueWorld bool Z unit := {
  w_now _ := 0;
  w_next_batch_ids n w := (w, map Z.of_nat (seq 1 (Z.to_nat n)));
  w_insert_batches _ _ _ _ _ w :=
    (w, if w then Ok (mkInsertBatchesMetrics 1%float 8 1%float 1%float 1%float 4%float) else Err (Database "insert"));
  w_fetch_completed_batches _ _ _ _ _ w := (w, Ok []);
  w_get_batch_queue_counts _ _ _ w := (w, Ok (mkBatchQueueCounts 0 0 0 0));
  w_reclaim_abandoned_batches _ w := (w, Ok 0);
  w_cleanup_consumed_completed_batches _ _ _ w := (w, Ok 0);
  w_count_active_evaluator_nodes _ w := (w, Ok 1);
  w_get_queue_blocker _ _ _ w := (w, Ok None);
  w_notify_work_available _ w := (w, Ok tt)
}.
#[local] Instance ex_flag_libm : Libm := {| hypot a _ := a; powf a _ := a; powi a _ := a |}.

Definition ex_flag_config : SamplerQueueConfig := mkQueueConfig 100%float 64 1024 None 4 1 2 16 3.
Definition ex_flag_queue : SamplerQueue bool Z unit := queue_new 0 1 2 ex_flag_config (mkQueueCheckpoint None None 500).
(** Three batches ingested: two inserts are running, one batch waits. *)
Definition ex_flag_ingested (w : bool) : SamplerQueue bool Z unit * bool :=
  (ingest (fun _ => 16) [1; 2; 3] false (ex_flag_queue, w)).1.
Definition ex_flag_task : PendingInsertTask bool :=
  mkPendingInsertTask 1 1 3 None (spawn (insert_job 1 2 false [1] [1])).

Lemma failed_insert_poisons_witness :
  let s' := (consume_insert_task ex_flag_task (ex_flag_ingested false)).1 in
  exists e, (consume_insert_task ex_flag_task (ex_flag_ingested false)).2 = Err e /\
    is_database_error e = false /\ insert_error s'.1 = Some e /\
    pending_insert_tasks s'.1 = [] /\ pending_processed_fetch s'.1 = None /\ pending_completed_cleanup s'.1 = None /\
    get_processed s' = (s', Err e) /\ get_processed_ready s' = (s', Err e) /\ tick s' = (s', Err e) /\
    flush s' = (s', Err e).
Proof.
  apply (failed_insert_poisons ex_flag_task (ex_flag_ingested false)); [by apply surjective_pairing|].
  intros x. by vm_compute.
Defined.

Lemma flush_persists_all_witness :
  let s' := (flush (ex_flag_ingested true)).1 in
  pending_insert_tasks s'.1 = [] /\ pending_insert s'.1 = [] /\ insert_error s'.1 = None /\
  local_unpersisted_batches s'.1 = 0.
Proof. apply (flush_persists_all (ex_flag_ingested true)). by vm_compute. Defined.

Lemma batch_size_in_bounds_witness :
  let q := observe_completed_eval_batch 64 6400%float ex_flag_queue in
  MIN_BATCH_SIZE <= current_batch_size q <= Z.max (max_batch_size (q_config q)) MIN_BATCH_SIZE.
Proof.
  apply (batch_size_in_bounds 0 1 2 ex_flag_config (mkQueueCheckpoint None None 500)).
  eapply steps_step; [apply steps_refl|apply sizing_observe].
Defined.
