(* ===== verification/Tasks.v ===== *)
(** src/core/tasks.rs: task specifications, their validation, and what the
    runners read off them. Evaluator configurations are never inspected here:
    they are the type [E]. Values of swept parameters are TOML values, the
    class [TomlValues]; process arguments are JSON values, the type [J]. *)
From S2P Require Import Prelude Floats Errors Domain Config Stratification AccumulatorState Extraction Raster ParameterGrid Queue.

(** The constructors of [toml::Value] this code applies. *)
Class TomlValues := {
  toml : Type;
  TFloat : f64 -> toml;
  TInteger : i64 -> toml
}.

(** ** Measurements *)

Inductive MeasurementSelection :=
| AllComponentMeans
| SelectMetric (selector : AccumulatorMetricSelector).

Inductive MeasurementMode := Minimize | Maximize.

Definition selection_metric (name : AccumulatorMetricName) : MeasurementSelection :=
  SelectMetric (mkSelector name None).
Definition selection_metric_selector (s : MeasurementSelection) : option AccumulatorMetricSelector :=
  match s with AllComponentMeans => None | SelectMetric selector => Some selector end.

Definition validate_source_name (from_name : string) : result string unit :=
  let trimmed := trim from_name in
  if is_empty trimmed then Err "from_name must be non-empty"%string
  else if negb (String.eqb trimmed from_name) then
    Err "from_name cannot have leading/trailing whitespace"%string
  else Ok tt.

Record TaskMeasurementSpec := mkTaskMeasurement { selection : MeasurementSelection; mode : MeasurementMode }.
Definition task_measurement_default : TaskMeasurementSpec := mkTaskMeasurement AllComponentMeans Minimize.

Definition measurement_validate (m : TaskMeasurementSpec) : result string unit :=
  match selection_metric_selector (selection m) with
  | Some selector => match sel_component selector with Some name => validate_source_name name | None => Ok tt end
  | None => Ok tt
  end.

Record MeasurementSpec := mkMeasurementSpec { source_task : string; measurement : TaskMeasurementSpec }.
Definition measurement_spec_default : MeasurementSpec := mkMeasurementSpec "sample" task_measurement_default.

Definition measurement_spec_validate (m : MeasurementSpec) : result string unit :=
  let? _ := validate_source_name (source_task m) in measurement_validate (measurement m).

(** ** Swept parameters *)

Section parameters.
Context {TV : TomlValues}.

Record ParameterLinspaceSpec := mkParameterLinspace { pls_start : f64; pls_stop : f64; pls_count : usize }.
Record ParameterIntegerRangeSpec := mkParameterRange { range_min : i64; range_max : i64; range_step : option i64 }.

Inductive ParameterValueSourceSpec :=
| SValues (values : list toml)
| SLinspace (linspace : ParameterLinspaceSpec)
| SRange (range : ParameterIntegerRangeSpec).

Definition linspace_spec_values (l : ParameterLinspaceSpec) : result string (list toml) :=
  if negb (PrimFloat.is_finite (pls_start l)) || negb (PrimFloat.is_finite (pls_stop l)) then
    Err "linspace bounds must be finite"%string
  else if pls_count l =? 0 then Err "linspace.count must be > 0"%string
  else if pls_count l =? 1 then Ok [TFloat (pls_start l)]
  else
    let denominator := f64_of_Z (pls_count l - 1) in
    Ok (map (fun index =>
      let fraction := PrimFloat.div (f64_of_Z index) denominator in
      TFloat (PrimFloat.add (pls_start l) (PrimFloat.mul fraction (PrimFloat.sub (pls_stop l) (pls_start l)))))
      (seqZ 0 (pls_count l))).

(** [while value <= max], which stops at the first sum outside [i64]. Every
    iteration but the last adds at least one to [value]. *)
Fixpoint range_loop (fuel : nat) (value max step : i64) : list i64 :=
  match fuel with
  | O => []
  | S fuel =>
      if value <=? max then
        value :: match i64_checked_add value step with
                 | Some next => range_loop fuel next max step
                 | None => []
                 end
      else []
  end.
Definition integer_values (min max step : i64) : list i64 := range_loop (Z.to_nat (max - min + 1)) min max step.

Definition range_spec_values (r : ParameterIntegerRangeSpec) : result string (list toml) :=
  if range_min r >? range_max r then Err "range.min must be <= max"%string
  else
    let step := default 1 (range_step r) in
    if step <=? 0 then Err "range.step must be > 0"%string
    else Ok (map TInteger (integer_values (range_min r) (range_max r) step)).

Definition source_values (s : ParameterValueSourceSpec) : result string (list toml) :=
  match s with
  | SValues [] => Err "values must not be empty"%string
  | SValues values => Ok values
  | SLinspace linspace => linspace_spec_values linspace
  | SRange range => range_spec_values range
  end.
Definition source_len (s : ParameterValueSourceSpec) : result string usize :=
  let? values := source_values s in Ok (zlen values).
Definition source_validate (s : ParameterValueSourceSpec) : result string unit :=
  let? _ := source_values s in Ok tt.

Record ParameterScanParameterSpec := mkScanParameter {
  sp_name : string;
  sp_source : ParameterValueSourceSpec
}.
Definition scan_parameter_validate (p : ParameterScanParameterSpec) : result string unit :=
  let? _ := validate_source_name (sp_name p) in source_validate (sp_source p).

Definition parameter_scan_grid_len (parameters : list ParameterScanParameterSpec) : option usize :=
  match parameters with
  | [] => None
  | _ => result_ok (try_fold (fun count p =>
           let? values := source_values (sp_source p) in
           ok_or ""%string (usize_checked_mul count (zlen values))) 1 parameters)
  end.

(** *** Hyperparameters *)

Record HyperparameterTuningFloatDomain := mkFloatDomain { float_min : f64; float_max : f64 }.
Record HyperparameterTuningIntegerDomain := mkIntegerDomain {
  int_min : i64;
  int_max : i64;
  int_step : option i64
}.
Inductive HyperparameterTuningParameterDomain :=
| HFloat (domain : HyperparameterTuningFloatDomain)
| HInteger (domain : HyperparameterTuningIntegerDomain)
| HCategorical (source : ParameterValueSourceSpec).

Definition domain_spec_validate (name : string) (d : HyperparameterTuningParameterDomain) : result string unit :=
  let? _ := validate_source_name name in
  match d with
  | HFloat domain =>
      if negb (PrimFloat.is_finite (float_min domain)) || negb (PrimFloat.is_finite (float_max domain)) then
        Err "float bounds must be finite"%string
      else if PrimFloat.leb (float_max domain) (float_min domain) then Err "float min must be < max"%string
      else Ok tt
  | HInteger domain =>
      if int_min domain >? int_max domain then Err "integer min must be <= max"%string
      else if match int_step domain with Some step => step <=? 0 | None => false end then
        Err "integer step must be > 0"%string
      else Ok tt
  | HCategorical source => source_validate source
  end.

Record RandomSearchOptimizerParams := mkRandomSearch { rs_max_trials : usize; rs_seed : option u64 }.
Inductive EgoboxInfillStrategy := Ei | LogEi | Wb2 | Wb2s.
Inductive EgoboxQeiStrategy :=
| KrigingBeliever | KrigingBelieverLowerBound | KrigingBelieverUpperBound | ConstantLiarMinimum.
Record EgoboxOptimizerParams := mkEgobox {
  eg_max_trials : usize;
  eg_seed : option u64;
  initial_design : usize;
  parallel_candidates : usize;
  infill : option EgoboxInfillStrategy;
  qei_strategy : option EgoboxQeiStrategy;
  qei_optmod : option usize;
  n_start : option usize
}.
Inductive HyperparameterTuningOptimizerSpec :=
| RandomSearch (params : RandomSearchOptimizerParams)
| GridSearch
| Egobox (params : EgoboxOptimizerParams).

Definition optimizer_validate (o : HyperparameterTuningOptimizerSpec) : result string unit :=
  match o with
  | RandomSearch params =>
      if rs_max_trials params =? 0 then Err "random_search max_trials must be > 0"%string else Ok tt
  | Egobox params =>
      if (eg_max_trials params =? 0) || (parallel_candidates params =? 0)
         || match qei_optmod params with Some n => n =? 0 | None => false end
      then Err "egobox max_trials, parallel_candidates and qei_optmod must be > 0"%string else Ok tt
  | GridSearch => Ok tt
  end.

(** [(span / step + 1) as usize]: the division truncates towards zero. A step
    of zero, which validation refuses, panics: [None] there as well. *)
Definition hyperparameter_grid_domain_len (d : HyperparameterTuningParameterDomain) : option usize :=
  match d with
  | HFloat _ => None
  | HCategorical source => result_ok (source_len source)
  | HInteger domain =>
      let step := default 1 (int_step domain) in
      let span := int_max domain - int_min domain in
      if (span <? i64_min) || (i64_max <? span) || (step =? 0) then None
      else Some ((Z.quot span step + 1) mod 2 ^ 64)
  end.

Definition hyperparameter_tuning_trial_count (o : HyperparameterTuningOptimizerSpec)
    (parameters : list (string * HyperparameterTuningParameterDomain)) : option usize :=
  match o with
  | RandomSearch params => Some (rs_max_trials params)
  | GridSearch =>
      foldl (fun count '(_, domain) =>
        count ← count; n ← hyperparameter_grid_domain_len domain; usize_checked_mul count n)
        (Some 1) parameters
  | Egobox params => Some (eg_max_trials params)
  end.
End parameters.

(** ** Child runs and campaigns *)

Inductive ChildRunSource := InlineRun (text : string) | FileRun (file : string).
Definition child_source_validate (s : ChildRunSource) : result string unit :=
  let text := match s with InlineRun text => text | FileRun file => file end in
  if is_empty (trim text) then Err "child.run TOML text or file path must not be empty"%string else Ok tt.

Section children.
Context {TV : TomlValues}.
(** [replacements]: the entries of the map in key order. *)
Record ChildRunTemplate := mkChildTemplate {
  ct_run : ChildRunSource;
  ct_replacements : list (string * toml)
}.
Record IntegrationCampaignChildSpec := mkCampaignChild {
  cc_name : string;
  coefficient : f64;
  cc_run : ChildRunSource;
  cc_replacements : list (string * toml)
}.
Definition campaign_child_validate (c : IntegrationCampaignChildSpec) : result string unit :=
  let? _ := validate_source_name (cc_name c) in
  if negb (PrimFloat.is_finite (coefficient c)) then Err "coefficient must be finite"%string
  else child_source_validate (cc_run c).
End children.

Inductive IntegrationCampaignAllocationAlgorithm := LargestVariance | VarianceReductionRate.
Record IntegrationCampaignAllocationSpec := mkAllocation {
  algorithm : IntegrationCampaignAllocationAlgorithm;
  max_active_runs : usize;
  min_evaluators_per_run : usize;
  allocation_window_samples : i64;
  min_samples_per_child : i64
}.
Definition allocation_default : IntegrationCampaignAllocationSpec :=
  mkAllocation VarianceReductionRate 1 2 10000 1000.
Definition allocation_validate (a : IntegrationCampaignAllocationSpec) : result string unit :=
  if max_active_runs a =? 0 then Err "allocation.max_active_runs must be > 0"%string
  else if min_evaluators_per_run a =? 0 then Err "allocation.min_evaluators_per_run must be > 0"%string
  else if allocation_window_samples a <=? 0 then Err "allocation.allocation_window_samples must be > 0"%string
  else if min_samples_per_child a <? 0 then Err "allocation.min_samples_per_child must be >= 0"%string
  else Ok tt.

(** [!value.is_finite() || value <= 0.0] on an optional bound. *)
Definition bad_bound (value : option f64) : bool :=
  match value with Some v => negb (PrimFloat.is_finite v) || PrimFloat.leb v 0 | None => false end.

Record IntegrationCampaignStopCondition := mkCampaignStop {
  min_total_samples : i64;
  max_total_samples : option i64;
  campaign_absolute_error : option f64;
  campaign_relative_error : option f64
}.
Definition campaign_stop_validate (c : IntegrationCampaignStopCondition) : result string unit :=
  if min_total_samples c <? 0 then Err "min_total_samples must be >= 0"%string
  else if match max_total_samples c with Some v => v <=? 0 | None => false end then
    Err "max_total_samples must be > 0 when set"%string
  else if match max_total_samples c with Some v => v <? min_total_samples c | None => false end then
    Err "max_total_samples must be >= min_total_samples"%string
  else if bad_bound (campaign_absolute_error c) then Err "absolute_error must be finite and > 0 when set"%string
  else if bad_bound (campaign_relative_error c) then Err "relative_error must be finite and > 0 when set"%string
  else match max_total_samples c, campaign_absolute_error c, campaign_relative_error c with
       | None, None, None => Err "stop_condition must set a bound"%string
       | _, _, _ => Ok tt
       end.

(** ** Sampling tasks *)

Record SampleStopCondition := mkStopCondition {
  min_samples : option i64;
  max_samples : option i64;
  absolute_error : option f64;
  relative_error_target : option f64;
  stop_metric : option AccumulatorMetricSelector
}.
Definition stop_condition_validate (c : SampleStopCondition) : result string unit :=
  if match min_samples c with Some v => v <? 0 | None => false end then
    Err "min_samples must be a non-negative integer when set"%string
  else if match max_samples c with Some v => v <? 0 | None => false end then
    Err "max_samples must be a non-negative integer when set"%string
  else if match min_samples c, max_samples c with Some min, Some max => min >? max | _, _ => false end then
    Err "min_samples must be <= max_samples when both are set"%string
  else if bad_bound (absolute_error c) then Err "absolute_error must be finite and > 0 when set"%string
  else if bad_bound (relative_error_target c) then Err "relative_error must be finite and > 0 when set"%string
  else match max_samples c, absolute_error c, relative_error_target c with
       | None, None, None => Err "stop_condition must set a bound"%string
       | _, _, _ => Ok tt
       end.

Definition tuning_validate (t : SamplerQueueTuning) : result string unit :=
  if bad_bound (tune_target_batch_eval_ms t) then Err "target_batch_eval_ms must be finite and positive"%string
  else if match tune_max_batch_size t with Some n => n =? 0 | None => false end then
    Err "max_batch_size must be positive"%string
  else if match tune_fixed_batch_size t with Some n => n =? 0 | None => false end then
    Err "fixed_batch_size must be positive"%string
  else if match tune_fixed_batch_size t, tune_max_batch_size t with
          | Some fixed, Some max => fixed >? max
          | _, _ => false
          end then Err "fixed_batch_size exceeds max_batch_size"%string
  else Ok tt.

(** ** Sampling configurations (src/core/run_spec.rs) *)

(** The [TimingModel] of src/utils/synthetic_timing.rs. *)
Record TimingModel := mkTiming {
  per_sample_seconds : f64;
  overhead_seconds : f64;
  sigma_per_sample_seconds : f64;
  sigma_overhead_seconds : f64;
  timing_seed : u64
}.
Record NaiveMonteCarloSamplerParams := mkNaiveParams {
  np_seed : u64;
  training_window_samples : usize;
  generation_timing : TimingModel;
  ingest_timing : TimingModel;
  update_timing : TimingModel;
  fail_on_produce_batch_nr : option usize;
  fail_on_materialize_batch_nr : option usize
}.
Record HavanaSamplerParams := mkHavanaParams {
  hp_seed : u64;
  hp_bins : usize;
  hp_samples_for_update : usize;
  initial_training_rate : f64;
  final_training_rate : f64
}.

Section sampling.
Context {J : Type}.

Record ProcessConfig := mkProcessConfig {
  command : list string;
  cwd : option string;
  process_args : J;
  shutdown_grace_seconds : u64
}.

(** [params] of the raster samplers: their geometry. *)
Inductive SamplerConfig :=
| NaiveMonteCarlo (params : NaiveMonteCarloSamplerParams)
| RasterPlane (geometry : PlaneRasterGeometry)
| RasterLine (geometry : LineRasterGeometry)
| PdfAdaptationRasterPlane (geometry : PlaneRasterGeometry)
| PdfAdaptationRasterLine (geometry : LineRasterGeometry)
| HavanaTraining (params : HavanaSamplerParams)
| HavanaInferenceSampler (seed : option u64)
| ProcessSampler (params : ProcessConfig).

Inductive MaterializerConfig := ProcessMaterializer (params : ProcessConfig).
Inductive BatchTransformConfig :=
| UnitBall
| Spherical
| ProcessBatchTransform (params : ProcessConfig).

Record SamplingConfig := mkSamplingConfig {
  stratification_of : option StratificationConfig;
  sampler_of : SamplerConfig;
  materializer : option MaterializerConfig;
  transforms : option (list BatchTransformConfig)
}.

Definition sampler_kind_str (s : SamplerConfig) : string :=
  match s with
  | NaiveMonteCarlo _ => "naive_monte_carlo"
  | RasterPlane _ => "raster_plane"
  | RasterLine _ => "raster_line"
  | PdfAdaptationRasterPlane _ => "pdf_adaptation_raster_plane"
  | PdfAdaptationRasterLine _ => "pdf_adaptation_raster_line"
  | HavanaTraining _ => "havana_training"
  | HavanaInferenceSampler _ => "havana_inference"
  | ProcessSampler _ => "process_sampler"
  end.

(** ** Task specifications *)

Inductive SourceRefSpec := LatestSource | FromNameSource (name : string).

Inductive StageSourceSpec (T : Type) :=
| SrcFromStage (config : T) (from_stage : string)
| SrcLatest (value : string)
| SrcFromName (from_name : string)
| SrcConfig (config : T).
Arguments SrcFromStage {T}.
Arguments SrcLatest {T}.
Arguments SrcFromName {T}.
Arguments SrcConfig {T}.

Definition validate_ref {T} (field : string) (s : StageSourceSpec T) : result string unit :=
  match s with
  | SrcLatest value =>
      if String.eqb value "latest" then Ok tt else Err "source must be latest, a name or a config"%string
  | SrcFromName from_name => validate_source_name from_name
  | SrcFromStage _ from_stage =>
      if negb (String.eqb field "sampler") then Err "from_stage only applies to sampler initialization"%string
      else validate_source_name from_stage
  | SrcConfig _ => Ok tt
  end.

Inductive ImageDisplayMode := ImageAuto | ScalarHeatmap | VectorMagnitude | ComplexPhase.
Inductive LineDisplayMode := LineAuto | ScalarCurve | LineComponents.
Inductive PlotAccumulatorKind := PlotScalar | PlotVector.
Definition plot_components (k : PlotAccumulatorKind) : list string :=
  match k with PlotScalar => ["value"%string] | PlotVector => ["real"; "imag"]%string end.
Definition full_config (k : PlotAccumulatorKind) : AccumulatorConfig := CFullVector (plot_components k).

Context {TV : TomlValues} {E : Type} {LM : Libm}.

Inductive RunTaskSpec :=
| SetAccumulator (accumulator : AccumulatorConfig)
| Sample (estimator : Estimator) (publish_result : bool) (stop_condition : SampleStopCondition)
    (measurement : option TaskMeasurementSpec) (evaluator : option (StageSourceSpec E))
    (sampler : option (StageSourceSpec SamplingConfig)) (accumulator : option (StageSourceSpec AccumulatorConfig))
    (queue_tuning : option SamplerQueueTuning) (batch_transforms : option (list BatchTransformConfig))
| Image (geometry : PlaneRasterGeometry) (accumulator : PlotAccumulatorKind) (evaluator : option (StageSourceSpec E))
    (display : ImageDisplayMode) (batch_transforms : option (list BatchTransformConfig))
| PdfAdaptationImage (geometry : PlaneRasterGeometry) (sampler : option (StageSourceSpec SamplingConfig))
    (batch_transforms : option (list BatchTransformConfig))
| PdfAdaptationPlotLine (geometry : LineRasterGeometry) (sampler : option (StageSourceSpec SamplingConfig))
    (batch_transforms : option (list BatchTransformConfig))
| PlotLine (geometry : LineRasterGeometry) (accumulator : PlotAccumulatorKind) (evaluator : option (StageSourceSpec E))
    (display : LineDisplayMode) (batch_transforms : option (list BatchTransformConfig))
| ParameterScan (parameters : list ParameterScanParameterSpec) (measurement : MeasurementSpec)
    (child : ChildRunTemplate) (max_concurrent_runs : usize)
| HyperparameterTuning (optimizer : HyperparameterTuningOptimizerSpec) (objective : MeasurementSpec)
    (parameters : list (string * HyperparameterTuningParameterDomain)) (child : ChildRunTemplate)
    (max_concurrent_trials : usize)
| IntegrationCampaign (children : list IntegrationCampaignChildSpec) (measurement : TaskMeasurementSpec)
    (stop_condition : IntegrationCampaignStopCondition) (allocation : IntegrationCampaignAllocationSpec).

(** [if let Some(x) = o { f(x)?; }] *)
Definition each_option {A} (f : A -> result string unit) (o : option A) : result string unit :=
  match o with Some a => f a | None => Ok tt end.

(** [e.to_string()] *)
Definition engine_message (e : EngineError) : string :=
  match e with
  | Eval m => String.append "evaluation error: " m
  | Build m => String.append "build error: " m
  | EngineE m => String.append "engine error: " m
  | InvalidInputE m => String.append "invalid input: " m
  | Incompatible m => String.append "incompatible configuration: " m
  | Io m => String.append "io error: " m
  | SerializationE m => String.append "serialization error: " m
  end.

Definition source_config {T} (s : StageSourceSpec T) : option T :=
  match s with SrcConfig config | SrcFromStage config _ => Some config | _ => None end.

Definition sampler_source_validate (s : StageSourceSpec SamplingConfig) : result string unit :=
  match source_config s with
  | Some config =>
      each_option (fun p => map_err engine_message (partition_validate p)) (stratification_of config)
  | None => Ok tt
  end.

Definition accumulator_source_validate (s : StageSourceSpec AccumulatorConfig) : result string unit :=
  let? _ := validate_ref "accumulator" s in
  match s with SrcConfig config => config_validate config | _ => Ok tt end.

(** Diagnostics take their sampler from a stage, never from a configuration. *)
Definition pdf_sampler_validate (kind : string) (s : StageSourceSpec SamplingConfig) : result string unit :=
  match s with
  | SrcConfig _ | SrcFromStage _ _ =>
      Err (String.append kind " sampler must be omitted, 'latest', or { from_name = ... }"%string)
  | _ => validate_ref "sampler" s
  end.

Definition needs_training_budget (stop : SampleStopCondition) (sampler : option (StageSourceSpec SamplingConfig)) : bool :=
  match sampler with
  | Some (SrcConfig config) =>
      match sampler_of config, max_samples stop with HavanaTraining _, None => true | _, _ => false end
  | _ => false
  end.

Fixpoint campaign_children_validate (names : list string) (l : list IntegrationCampaignChildSpec)
    : result string unit :=
  match l with
  | [] => Ok tt
  | child :: l =>
      let? _ := campaign_child_validate child in
      if bool_decide (cc_name child ∈ names) then Err "integration_campaign child name is duplicated"%string
      else campaign_children_validate (cc_name child :: names) l
  end.

(** The loops [for x in l { f(x)?; }]. *)
Definition validate_each {A} (f : A -> result string unit) (l : list A) : result string unit :=
  try_fold (fun _ x => f x) tt l.

Definition task_validate (t : RunTaskSpec) : result string unit :=
  match t with
  | SetAccumulator accumulator => config_validate accumulator
  | Sample _ _ stop measurement evaluator sampler accumulator queue_tuning _ =>
      if needs_training_budget stop sampler then
        Err "sample task with havana_training sampler requires stop_condition.max_samples for training budget"%string
      else
        let? _ := stop_condition_validate stop in
        let? _ := each_option measurement_validate measurement in
        let? _ := each_option (validate_ref "evaluator") evaluator in
        let? _ := each_option (validate_ref "sampler") sampler in
        let? _ := each_option sampler_source_validate sampler in
        let? _ := each_option accumulator_source_validate accumulator in
        each_option tuning_validate queue_tuning
  | Image geometry _ evaluator _ _ =>
      let? _ := plane_validate geometry in each_option (validate_ref "evaluator") evaluator
  | PdfAdaptationImage geometry sampler _ =>
      let? _ := plane_validate geometry in each_option (pdf_sampler_validate "pdf_adaptation_image") sampler
  | PdfAdaptationPlotLine geometry sampler _ =>
      let? _ := line_validate geometry in each_option (pdf_sampler_validate "pdf_adaptation_plot_line") sampler
  | PlotLine geometry _ evaluator _ _ =>
      let? _ := line_validate geometry in each_option (validate_ref "evaluator") evaluator
  | ParameterScan parameters measurement child max_concurrent_runs =>
      match parameters with
      | [] => Err "parameter_scan.parameters must not be empty"%string
      | _ =>
          let? _ := validate_each scan_parameter_validate parameters in
          let? _ := measurement_spec_validate measurement in
          let? _ := child_source_validate (ct_run child) in
          if max_concurrent_runs =? 0 then Err "parameter_scan.max_concurrent_runs must be > 0"%string else Ok tt
      end
  | HyperparameterTuning optimizer objective parameters child max_concurrent_trials =>
      let? _ := optimizer_validate optimizer in
      let? _ := measurement_spec_validate objective in
      match parameters with
      | [] => Err "hyperparameter_tuning.parameters must not be empty"%string
      | _ =>
          let? _ := validate_each (fun '(name, domain) => domain_spec_validate name domain) parameters in
          let? _ := child_source_validate (ct_run child) in
          if max_concurrent_trials =? 0 then Err "hyperparameter_tuning.max_concurrent_trials must be > 0"%string
          else Ok tt
      end
  | IntegrationCampaign children measurement stop allocation =>
      match children with
      | [] => Err "integration_campaign.children must not be empty"%string
      | _ =>
          let? _ := campaign_children_validate [] children in
          let? _ := measurement_validate measurement in
          let? _ := campaign_stop_validate stop in
          allocation_validate allocation
      end
  end.

Definition task_kind_str (t : RunTaskSpec) : string :=
  match t with
  | SetAccumulator _ => "set_accumulator"
  | Sample _ _ _ _ _ _ _ _ _ => "sample"
  | Image _ _ _ _ _ => "image"
  | PdfAdaptationImage _ _ _ => "pdf_adaptation_image"
  | PdfAdaptationPlotLine _ _ _ => "pdf_adaptation_plot_line"
  | PlotLine _ _ _ _ _ => "plot_line"
  | ParameterScan _ _ _ _ => "parameter_scan"
  | HyperparameterTuning _ _ _ _ _ => "hyperparameter_tuning"
  | IntegrationCampaign _ _ _ _ => "integration_campaign"
  end.

Definition is_controller (t : RunTaskSpec) : bool :=
  match t with
  | ParameterScan _ _ _ _ | HyperparameterTuning _ _ _ _ _ | IntegrationCampaign _ _ _ _ => true
  | _ => false
  end.
Definition runs_in_control_plane (t : RunTaskSpec) : bool :=
  match t with SetAccumulator _ => true | _ => is_controller t end.
Definition runs_on_sampler_worker (t : RunTaskSpec) : bool :=
  match t with
  | Sample _ _ _ _ _ _ _ _ _ | Image _ _ _ _ _ | PdfAdaptationImage _ _ _ | PdfAdaptationPlotLine _ _ _
  | PlotLine _ _ _ _ _ => true
  | _ => false
  end.

Definition task_sampler_config (t : RunTaskSpec) : option SamplingConfig :=
  let raster s := Some (mkSamplingConfig None s None None) in
  match t with
  | Image geometry _ _ _ _ => raster (RasterPlane geometry)
  | PdfAdaptationImage geometry _ _ => raster (PdfAdaptationRasterPlane geometry)
  | PdfAdaptationPlotLine geometry _ _ => raster (PdfAdaptationRasterLine geometry)
  | PlotLine geometry _ _ _ _ => raster (RasterLine geometry)
  | _ => None
  end.

Definition sample_sampler_source (t : RunTaskSpec) : option SourceRefSpec :=
  match t with
  | Sample _ _ _ _ _ sampler _ _ _ | PdfAdaptationImage _ sampler _ | PdfAdaptationPlotLine _ sampler _ =>
      match sampler with
      | None | Some (SrcLatest _) => Some LatestSource
      | Some (SrcFromName from_name) => Some (FromNameSource from_name)
      | Some (SrcFromStage _ from_stage) => Some (FromNameSource from_stage)
      | Some (SrcConfig _) => None
      end
  | _ => None
  end.

Definition sample_sampler_config (t : RunTaskSpec) : option SamplingConfig :=
  match t with
  | Sample _ _ _ _ _ (Some source) _ _ _ => source_config source
  | _ => None
  end.

(** A source that names a stage, for the kinds of source that have no handoff. *)
Definition plain_source {T} (s : option (StageSourceSpec T)) : option SourceRefSpec :=
  match s with
  | None | Some (SrcLatest _) => Some LatestSource
  | Some (SrcFromName from_name) => Some (FromNameSource from_name)
  | Some (SrcConfig _ | SrcFromStage _ _) => None
  end.

Definition evaluator_source (t : RunTaskSpec) : option SourceRefSpec :=
  match t with
  | Sample _ _ _ _ evaluator _ _ _ _ | Image _ _ evaluator _ _ | PlotLine _ _ evaluator _ _ => plain_source evaluator
  | _ => None
  end.

Definition evaluator_config (t : RunTaskSpec) : option E :=
  match t with
  | Sample _ _ _ _ (Some (SrcConfig config)) _ _ _ _
  | Image _ _ (Some (SrcConfig config)) _ _ | PlotLine _ _ (Some (SrcConfig config)) _ _ => Some config
  | _ => None
  end.

Definition batch_transforms_config (t : RunTaskSpec) : option (list BatchTransformConfig) :=
  match t with
  | Sample _ _ _ _ _ _ _ _ batch_transforms =>
      match batch_transforms with
      | Some l => Some l
      | None => config ← sample_sampler_config t; transforms config
      end
  | Image _ _ _ _ batch_transforms | PdfAdaptationImage _ _ batch_transforms
  | PdfAdaptationPlotLine _ _ batch_transforms | PlotLine _ _ _ _ batch_transforms => batch_transforms
  | _ => None
  end.

Definition sample_accumulator_source (t : RunTaskSpec) : option SourceRefSpec :=
  match t with Sample _ _ _ _ _ _ accumulator _ _ => plain_source accumulator | _ => None end.

Definition source_task_names (t : RunTaskSpec) : list string :=
  omap (fun s => match s with Some (FromNameSource name) => Some name | _ => None end)
    [sample_sampler_source t; evaluator_source t; sample_accumulator_source t].

Definition new_accumulator_config (t : RunTaskSpec) : option AccumulatorConfig :=
  match t with
  | SetAccumulator accumulator => Some accumulator
  | Sample _ _ _ _ _ _ (Some (SrcConfig config)) _ _ => Some config
  | Image _ accumulator _ _ _ | PlotLine _ accumulator _ _ _ => Some (full_config accumulator)
  | _ => None
  end.

Definition accumulator_config_source (t : RunTaskSpec) : option SourceRefSpec :=
  match t with
  | PdfAdaptationImage _ _ _ | PdfAdaptationPlotLine _ _ _ => sample_sampler_source t
  | _ => sample_accumulator_source t
  end.

(** [value as i64] on a point or trial count. *)
Definition nr_expected_samples (t : RunTaskSpec) : option i64 :=
  match t with
  | Sample _ _ stop _ _ _ _ _ _ => max_samples stop
  | Image geometry _ _ _ _ | PdfAdaptationImage geometry _ _ => Some (wrap_i64 (plane_nr_points geometry))
  | PdfAdaptationPlotLine geometry _ _ | PlotLine geometry _ _ _ _ => Some (wrap_i64 (line_nr_points geometry))
  | ParameterScan parameters _ _ _ => option_map wrap_i64 (parameter_scan_grid_len parameters)
  | HyperparameterTuning optimizer _ parameters _ _ =>
      option_map wrap_i64 (hyperparameter_tuning_trial_count optimizer parameters)
  | _ => None
  end.

Definition sample_stop_condition (t : RunTaskSpec) : option SampleStopCondition :=
  match t with Sample _ _ stop _ _ _ _ _ _ => Some stop | _ => None end.
Definition sample_measurement (t : RunTaskSpec) : option TaskMeasurementSpec :=
  match t with Sample _ _ _ measurement _ _ _ _ _ => measurement | _ => None end.
Definition effective_sample_measurement (t : RunTaskSpec) : option TaskMeasurementSpec :=
  match t with
  | Sample _ _ _ measurement _ _ _ _ _ => Some (default task_measurement_default measurement)
  | _ => None
  end.
Definition sample_queue_tuning (t : RunTaskSpec) : option SamplerQueueTuning :=
  match t with Sample _ _ _ _ _ _ _ queue_tuning _ => queue_tuning | _ => None end.

Definition set_sample_queue_tuning (queue_tuning : option SamplerQueueTuning) (t : RunTaskSpec)
    : result string RunTaskSpec :=
  match t with
  | Sample estimator publish stop measurement evaluator sampler accumulator _ transforms =>
      let? _ := each_option tuning_validate queue_tuning in
      Ok (Sample estimator publish stop measurement evaluator sampler accumulator queue_tuning transforms)
  | _ => Err "queue_tuning is only supported for sample tasks"%string
  end.

Definition generated_task_name (t : RunTaskSpec) (sequence_nr : i32) : string :=
  String.append (task_kind_str t) (String.append "-" (Scalar.show_i64 sequence_nr)).

Record RunTaskInput := mkTaskInput { input_name : option string; input_task : RunTaskSpec }.
Definition task_input_validate (i : RunTaskInput) : result string unit :=
  let? _ :=
    each_option (fun name =>
      let trimmed := trim name in
      if is_empty trimmed then Err "task name must be non-empty when set"%string
      else if negb (String.eqb trimmed name) then Err "task name cannot have leading or trailing whitespace"%string
      else Ok tt) (input_name i) in
  task_validate (input_task i).

End sampling.

(** ** Tasks *)

Inductive RunTaskState := TPending | TActive | TCompleted | TFailed.
#[export] Instance RunTaskState_eq_dec : EqDecision RunTaskState.
Proof. solve_decision. Defined.
Definition task_state_str (s : RunTaskState) : string :=
  match s with TPending => "pending" | TActive => "active" | TCompleted => "completed" | TFailed => "failed" end.

Inductive ControllerChildState := CPlanned | CPending | CActive | CCompleted | CFailed.
#[export] Instance ControllerChildState_eq_dec : EqDecision ControllerChildState.
Proof. solve_decision. Defined.
Definition child_state_from (s : RunTaskState) : ControllerChildState :=
  match s with TPending => CPending | TActive => CActive | TCompleted => CCompleted | TFailed => CFailed end.

Inductive TaskMeasurementOutput :=
| MeasurementCompleted (results : list MeasurementResult)
| MeasurementFailed (reason : string).

(** [RunTask]: the fields the runners read or write. *)
Section run_task.
Context {J : Type} {TV : TomlValues} {E : Type}.
Record RunTask := mkRunTask {
  task_id : i64;
  task_run_id : i32;
  task_name : string;
  task_sequence_nr : i32;
  task_spec : @RunTaskSpec J TV E;
  task_state : RunTaskState;
  task_produced : i64;
  task_completed : i64;
  task_failure_reason : option string
}.
Definition set_task_spec (x : @RunTaskSpec J TV E) (t : RunTask) : RunTask :=
  mkRunTask (task_id t) (task_run_id t) (task_name t) (task_sequence_nr t) x (task_state t) (task_produced t)
    (task_completed t) (task_failure_reason t).
Definition set_task_state (x : RunTaskState) (t : RunTask) : RunTask :=
  mkRunTask (task_id t) (task_run_id t) (task_name t) (task_sequence_nr t) (task_spec t) x (task_produced t)
    (task_completed t) (task_failure_reason t).
Definition set_task_counts (produced completed : i64) (t : RunTask) : RunTask :=
  mkRunTask (task_id t) (task_run_id t) (task_name t) (task_sequence_nr t) (task_spec t) (task_state t) produced
    completed (task_failure_reason t).
End run_task.

(** ** Integer ranges *)

Section ranges.

Lemma range_loop_spec fuel v max step :
  0 < step -> i64_min <= v -> v <= max + step -> max <= i64_max -> max - v < Z.of_nat fuel ->
  range_loop fuel v max step = map (fun k => v + k * step) (seqZ 0 (if v <=? max then (max - v) / step + 1 else 0)).
Proof.
  intros Hstep Hmin. revert v Hmin. induction fuel as [|fuel IH]; intros v Hmin Hle Hmax Hfuel; cbn [range_loop].
  { rewrite (proj2 (Z.leb_gt v max)) by lia. done. }
  destruct (Z.leb_spec v max); [|done].
  pose proof (Z.div_pos (max - v) step ltac:(lia) Hstep).
  rewrite seqZ_cons by lia. cbn [map]. f_equal; [lia|].
  unfold i64_checked_add. destruct (Z.leb_spec i64_min (v + step)); [|lia].
  assert (map (fun k => v + k * step) (seqZ (Z.succ 0) (Z.pred ((max - v) / step + 1)))
    = map (fun k => v + step + k * step) (seqZ 0 ((max - v) / step))) as ->.
  { replace (Z.pred ((max - v) / step + 1)) with ((max - v) / step) by lia.
    rewrite <- (fmap_add_seqZ 1 0). change (fmap (Z.add 1)) with (map (Z.add 1)). rewrite map_map.
    apply map_ext. intros. lia. }
  destruct (Z.leb_spec (v + step) i64_max) as [Hs|Hs]; cbn [andb].
  - rewrite IH by lia. f_equal. f_equal. destruct (Z.leb_spec (v + step) max).
    + replace (max - v) with (max - (v + step) + 1 * step) by lia. rewrite Z.div_add by lia. lia.
    + rewrite Z.div_small by lia. done.
  - rewrite Z.div_small by lia. done.
Qed.

(** The values of a range: [min], [min + step], ... up to [max]. *)
Lemma integer_values_enumerate min max step :
  i64_min <= min -> min <= max -> max <= i64_max -> 0 < step ->
  integer_values min max step = map (fun k => min + k * step) (seqZ 0 ((max - min) / step + 1)).
Proof.
  intros. unfold integer_values. rewrite range_loop_spec by lia.
  by rewrite (proj2 (Z.leb_le min max)) by lia.
Qed.

Lemma integer_values_length min max step :
  i64_min <= min -> min <= max -> max <= i64_max -> 0 < step ->
  zlen (integer_values min max step) = (max - min) / step + 1.
Proof.
  intros. rewrite integer_values_enumerate by lia. rewrite zlen_lmap. unfold zlen. rewrite length_seqZ.
  pose proof (Z.div_pos (max - min) step). lia.
Qed.

End ranges.
