(* ===== verification/Runner.v ===== *)
(** src/runners/sampler_aggregator.rs: the runner of one sampler task. It
    ingests the completed batches of its queue into the sampler and the
    accumulator, draws new samples within its budgets, cuts them into work
    units, publishes progress, and decides when the task ends.

    The world is that of the queue, with the further store operations of the
    class [RunnerWorld]. The sampler behind [dyn Sampler] is the type [Sm] with
    the operations of the class [SamplerOps]; JSON payloads are the type [J].
    Busy-time accounting and worker activity labels are left out, and of the
    performance snapshot the process memory and the queue's read-only view: no
    decision reads them. A panic is an engine error whose text says so. *)
From S2P Require Import Prelude Floats Errors Domain Batch Config LatentBatch Feedback Generation AccumulatorTrait Scalar Stratification Vector Gammaloop AccumulatorState Extraction Evaluation Metrics WorkQueue Queue Tasks.

(** ** Discrete masses *)

(** [DiscreteSubspace]: the fixed dimensions. *)
Abbreviation DiscreteSubspace := (gmap Z i64).

(** One joint query per subspace and stratum prefix. *)
Definition prefix_query (prefix : list i64) (subspace : DiscreteSubspace) : DiscreteSubspace :=
  foldl (fun m '(dim, value) => <[dim := value]> m) ∅
    (imap (fun i value => (Z.of_nat i, value)) prefix
     ++ map (fun '(dim, value) => (dim + zlen prefix, value)) (map_to_list subspace)).

Definition integrand_mass_queries (subspaces : list DiscreteSubspace) (partition : option StratificationConfig)
    : usize * list DiscreteSubspace :=
  let prefixes := match partition with Some p => partition_prefixes p | None => [[]] end in
  (zlen prefixes, concat (map (fun subspace => map (fun prefix => prefix_query prefix subspace) prefixes) subspaces)).

Definition discrete_projection_includes_stream (config : DiscreteProjectionConfig) (stream : string) : bool :=
  match streams config with [] => true | l => bool_decide (stream ∈ l) end.

Definition parse_dim (raw : string) : result EngineError usize :=
  ok_or (EngineE "fixed dimension is not a non-negative integer dimension index") (parse_usize raw).

Fixpoint discrete_matches_fixed_dims (discrete : list i64) (fixed : list (string * i64)) : result EngineError bool :=
  match fixed with
  | [] => Ok true
  | (raw_dim, fixed_value) :: fixed =>
      let? dim := parse_dim raw_dim in
      match zget discrete dim with
      | None => Ok false
      | Some actual => if actual =? fixed_value then discrete_matches_fixed_dims discrete fixed else Ok false
      end
  end.

Definition discrete_projection_key (discrete : list i64) (item : NamedDiscreteProjection) : option (list i64) :=
  mapM (fun dim => zget discrete dim) (ndp_dims item).

Definition subspace_of (item : NamedDiscreteProjection) (key : list i64) : result EngineError DiscreteSubspace :=
  let? fixed :=
    try_fold (fun m '(raw_dim, value) => let? dim := parse_dim raw_dim in Ok (<[dim := value]> m)) ∅ (fixed_dims item) in
  Ok (foldl (fun m '(dim, value) => <[dim := value]> m) fixed (zip (ndp_dims item) key)).

(** The scan of the bins of one projection, which stops past [bin_limit]
    distinct keys. *)
Fixpoint collect_bins (item : NamedDiscreteProjection) (name : string) (bin_limit : usize) (seen : list (list i64))
    (bins : list (list i64)) : result EngineError (list (string * list i64 * DiscreteSubspace)) :=
  match bins with
  | [] => Ok []
  | discrete :: bins =>
      let? ok := discrete_matches_fixed_dims discrete (fixed_dims item) in
      match (if ok : bool then discrete_projection_key discrete item else None) with
      | None => collect_bins item name bin_limit seen bins
      | Some key =>
          if bool_decide (key ∈ seen) then collect_bins item name bin_limit seen bins
          else if zlen (key :: seen) >? bin_limit then Ok []
          else
            let? subspace := subspace_of item key in
            let? rest := collect_bins item name bin_limit (key :: seen) bins in
            Ok ((name, key, subspace) :: rest)
      end
  end.

(** [bins.values()]: in the order of the keys. *)
Definition key_le (a b : string * DiscreteProjectionBinState) : Prop := String.leb a.1 b.1 = true.
#[export] Instance key_le_dec : RelDecision key_le.
Proof. intros a b. unfold key_le. apply _. Defined.
Definition bin_values (bins : gmap string DiscreteProjectionBinState) : list (list i64) :=
  map (fun p => bin_discrete p.2) (merge_sort key_le (map_to_list bins)).

Definition collect_discrete_mass_subspaces_from_bins (bins : gmap string DiscreteProjectionBinState)
    (config : DiscreteProjectionConfig) (bin_limit : usize) (component_name : string)
    : result EngineError (list (string * list i64 * DiscreteSubspace)) :=
  let? l :=
    try_map (fun item =>
      collect_bins item (String.append (ndp_name item) (String.append "." component_name)) bin_limit [] (bin_values bins))
      (items config) in
  Ok (concat l).

Section masses.
Context `{LM : Libm} {OB : Observables}.

Definition vector_streams (v : VectorAccumulatorState) : result EngineError (list (string * ScalarAccumulatorState)) :=
  let? p := ok_or projection_panic (projection v) in
  Ok (map (fun c => (named_name c, named_state c)) (Vector.components v)
      ++ [(training_projection_name, named_state p)]).

Definition collect_discrete_mass_subspaces (state : AccumulatorState) (config : DiscreteProjectionConfig)
    (bin_limit : usize) : result EngineError (list (string * list i64 * DiscreteSubspace)) :=
  match state with
  | AVector v =>
      let? streams := vector_streams v in
      let? l :=
        try_map (fun '(name, s) =>
          if discrete_projection_includes_stream config name
          then collect_discrete_mass_subspaces_from_bins (discrete_bins s) config bin_limit name
          else Ok []) streams in
      Ok (concat l)
  | _ => Ok []
  end.
End masses.

(** ** State *)

Inductive AccumulatorCheckpointState := NeedsInitialRoundTrip | WaitingForInitialRoundTrip | Ready.
#[export] Instance AccumulatorCheckpointState_eq_dec : EqDecision AccumulatorCheckpointState.
Proof. solve_decision. Defined.

#[projections(primitive)]
Record SamplerProgress (Rng : Type) := mkProgress {
  generation : GenerationBuffer Rng;
  produced_batches_total : i64;
  produced_samples_total : i64;
  ingested_batches_total : i64;
  ingested_samples_total : i64;
  sampler_uptime_ms_accumulated : f64;
  accumulator_checkpoint_state : AccumulatorCheckpointState
}.
Arguments mkProgress {Rng}.
Arguments generation {Rng}.
Arguments produced_batches_total {Rng}.
Arguments produced_samples_total {Rng}.
Arguments ingested_batches_total {Rng}.
Arguments ingested_samples_total {Rng}.
Arguments sampler_uptime_ms_accumulated {Rng}.
Arguments accumulator_checkpoint_state {Rng}.

Definition progress_default {Rng} : SamplerProgress Rng := mkProgress generation_default 0 0 0 0 0%float NeedsInitialRoundTrip.

Definition set_generation {Rng} (x : GenerationBuffer Rng) (p : SamplerProgress Rng) : SamplerProgress Rng :=
  mkProgress x (produced_batches_total p) (produced_samples_total p) (ingested_batches_total p)
    (ingested_samples_total p) (sampler_uptime_ms_accumulated p) (accumulator_checkpoint_state p).
Definition set_checkpoint_state {Rng} (x : AccumulatorCheckpointState) (p : SamplerProgress Rng) : SamplerProgress Rng :=
  mkProgress (generation p) (produced_batches_total p) (produced_samples_total p) (ingested_batches_total p)
    (ingested_samples_total p) (sampler_uptime_ms_accumulated p) x.
Definition set_uptime {Rng} (x : f64) (p : SamplerProgress Rng) : SamplerProgress Rng :=
  mkProgress (generation p) (produced_batches_total p) (produced_samples_total p) (ingested_batches_total p)
    (ingested_samples_total p) x (accumulator_checkpoint_state p).
Definition count_produced {Rng} (batches samples : Z) (p : SamplerProgress Rng) : SamplerProgress Rng :=
  mkProgress (generation p) (produced_batches_total p + batches) (produced_samples_total p + samples)
    (ingested_batches_total p) (ingested_samples_total p) (sampler_uptime_ms_accumulated p)
    (accumulator_checkpoint_state p).
Definition count_ingested {Rng} (batches samples : Z) (p : SamplerProgress Rng) : SamplerProgress Rng :=
  mkProgress (generation p) (produced_batches_total p) (produced_samples_total p)
    (ingested_batches_total p + batches) (ingested_samples_total p + samples) (sampler_uptime_ms_accumulated p)
    (accumulator_checkpoint_state p).

(** The timing windows, by name. *)
Inductive Window :=
| EvalMsPerSample | EvalMsPerBatch | TrainingIngestMsPerSample | CompletedTrainingIngestMs | ProduceMsPerSample
| ReclaimMs | QueueCountsMs | CompletedMergeIngestMs | PersistAccumulatorMs | CompletedDeleteMs | ProduceMs
| ProgressSyncMs | PerformanceSyncMs.
#[export] Instance Window_eq_dec : EqDecision Window.
Proof. solve_decision. Defined.
Definition SamplerWindowState : Type := Window -> WindowMetric.
Definition windows_default : SamplerWindowState := fun _ => window_default.
Definition on_window (w : Window) (f : WindowMetric -> WindowMetric) (s : SamplerWindowState) : SamplerWindowState :=
  fun v => if decide (v = w) then f (s v) else s v.
Definition SamplerWorkRollingAverages : Type := Window -> RollingMetricSnapshot.

Record EvaluationBatch (Rng : Type) := mkEvaluationBatch {
  eb_stratification : option StratificationPlan;
  eb_samples : LatentBatch Rng;
  eb_accumulator : AccumulatorConfig
}.
Arguments mkEvaluationBatch {Rng}.
Arguments eb_stratification {Rng}.
Arguments eb_samples {Rng}.
Arguments eb_accumulator {Rng}.
Definition for_evaluation {Rng} (l : LatentBatch Rng) (accumulator : AccumulatorConfig) : EvaluationBatch Rng :=
  mkEvaluationBatch None l accumulator.

Record RunSampleProgress := mkRunProgress {
  rp_produced : i64;
  rp_completed : i64;
  rp_uptime_ms : f64
}.

Record EvaluatorFleetSnapshot := mkFleet {
  active_count : usize;
  avg_rss_bytes : option i64;
  total_rss_bytes : option i64
}.
(** What the fleet snapshot reads of a registered worker. *)
Record RegisteredWorker := mkWorker {
  current_run_id : option i32;
  current_role : option WorkerRole;
  evaluator_rss_bytes : option i64
}.

Record StopConditionStatus := mkStopStatus {
  reached : bool;
  max_samples_reached : bool;
  absolute_error_reached : bool;
  relative_error_reached : bool;
  min_samples_reached : bool
}.
Record CompletedIngestStats := mkIngestStats { completed_batches : usize; completed_samples_delta : i64 }.
Inductive CheckpointKind := InitialCheckpoint | StageCheckpoint.

Definition MAX_BATCH_SIZE_DOWN_FACTOR : f64 := 0.25%float.
Definition TASK_CONFIG_REFRESH_INTERVAL : Z := 500 * 10 ^ 6.

Definition no_progress_is_terminal (stop_reached : bool) (open_batch_count : usize) (failed_batches : i64)
    (completed_batches produced_batches : usize) (sampler_wants_to_produce : bool)
    (active_evaluator_count : option usize) : bool :=
  negb stop_reached && (open_batch_count =? 0) && (failed_batches =? 0) && (completed_batches =? 0)
  && (produced_batches =? 0)
  && negb (sampler_wants_to_produce && bool_decide (active_evaluator_count = Some 0)).

(** ** The world and the sampler *)

Inductive CheckpointStatus := StatusSaving (task : i64) (at_ : Z) | StatusFailed (task : i64) (at_ : Z).

Section runner.
Context {J : Type} {TV : TomlValues} {E : Type} {LM : Libm} {OB : Observables} {Rng : Type}.

(** [SavedSampler] *)
Record SavedSampler := mkSavedSampler { saved_config : @SamplingConfig J; saved_state : J }.

(** [SamplerAggregatorCheckpoint] as the runner writes it: the format version
    is a constant, and the snapshot id and batch count are the store's. *)
Record RunnerCheckpoint := mkRunnerCheckpoint {
  rc_completed_samples : i64;
  rc_task_id : i64;
  rc_sampler_snapshot : SavedSampler;
  rc_observable_state : AccumulatorState;
  rc_runtime_state : SamplerProgress Rng;
  rc_queue : SamplerQueueCheckpoint
}.

Record RunStageSnapshot := mkStageSnapshot {
  stage_task_id : option i64;
  stage_name : string;
  stage_sequence_nr : option i32;
  stage_queue_empty : bool;
  stage_sampler_snapshot : option SavedSampler;
  stage_observable_state : option AccumulatorState;
  stage_evaluator : option E;
  stage_batch_transforms : list (@BatchTransformConfig J)
}.

Record SamplerPerformanceMetrics := mkPerformance {
  pm_engine_diagnostics : J;
  pm_queue_config : SamplerQueueConfig;
  pm_target_pending_batches : option usize;
  pm_buffered_generated_samples : usize;
  pm_checkpoint_state : AccumulatorCheckpointState;
  pm_produced_batches_total : i64;
  pm_produced_samples_total : i64;
  pm_ingested_batches_total : i64;
  pm_ingested_samples_total : i64;
  pm_completed_samples_total : i64;
  pm_sampler_uptime_ms : f64;
  pm_completed_samples_per_second : f64;
  pm_eta_seconds : option f64;
  pm_batch_size_current : usize;
  pm_fleet : EvaluatorFleetSnapshot;
  pm_sampler : SamplerWorkRollingAverages;
  pm_queue : SamplerQueueRollingAverages
}.

Class RunnerWorld (W : Type) := {
  r_load_active_run_task : i32 -> W -> W * result StoreError (option (@RunTask J TV E));
  r_campaign_sample_allowance : i32 -> i64 -> W -> W * result StoreError (option i64);
  r_save_aggregation : i32 -> i64 -> J -> option J -> i32 -> W -> W * result StoreError unit;
  r_update_run_task_progress : i64 -> i64 -> i64 -> W -> W * result StoreError unit;
  r_save_run_sample_progress : i32 -> RunSampleProgress -> W -> W * result StoreError unit;
  r_record_sampler_performance_snapshot : i32 -> string -> SamplerPerformanceMetrics -> W -> W * result StoreError unit;
  r_get_registered_workers : option i32 -> W -> W * result StoreError (list RegisteredWorker);
  r_record_checkpoint_status : i32 -> CheckpointStatus -> W -> W * result StoreError unit;
  r_save_sampler_checkpoint : i32 -> RunnerCheckpoint -> option RunStageSnapshot -> W -> W * result StoreError unit;
  (** [services::measurement::extract_task_measurement] *)
  r_extract_task_measurement : i32 -> @RunTask J TV E -> W -> W * result string (list MeasurementResult);
  r_persist_task_measurement_output : i64 -> TaskMeasurementOutput -> W -> W * result StoreError unit;
  r_complete_run_task : i64 -> W -> W * result StoreError unit;
  r_fail_run_task : i64 -> string -> W -> W * result StoreError unit
}.

Class SamplerOps (Sm : Type) := {
  s_generate : usize -> SE Sm EngineError (Generation Rng);
  s_feedback : Feedback -> SE Sm EngineError unit;
  s_discrete_mass_batch : list DiscreteSubspace -> SE Sm EngineError (list (option f64));
  s_persisted_output : SE Sm EngineError (option J);
  s_snapshot : SE Sm EngineError J;
  s_diagnostics : Sm -> Sm * J
}.

(** The JSON encodings (serde), and the two tests made on JSON values. *)
Class Json := {
  json_is_null : J -> bool;
  accumulator_json : AccumulatorState -> result EngineError J;
  accumulator_persistent_json : AccumulatorState -> result EngineError J;
  (** [discrete_mass] inserted into an object, or paired with another value *)
  with_discrete_mass : J -> list (string * list i64 * option f64) -> J
}.

Context {W Sm : Type} {QW : QueueWorld W (EvaluationBatch Rng) BatchResult} {RS : RunnerWorld W} {SO : SamplerOps Sm}
  {JS : Json}.

Record PendingAggregationFlushTask := mkPendingFlush {
  flushed_completed_batches : i32;
  cleared_initial_round_trip : bool;
  flush_handle : JoinHandle W Z
}.

(** What stays fixed for the lifetime of a runner. *)
Record RunnerInfo := mkRunnerInfo {
  ri_run_id : i32;
  ri_node_name : string;
  ri_evaluation_plan : option StratificationPlan;
  ri_evaluator_config : E;
  ri_sampler_config : @SamplingConfig J;
  ri_batch_transforms : list (@BatchTransformConfig J);
  ri_performance_snapshot_interval : Z;
  ri_frontend_sync_interval : Z;
  ri_base_queue_config : SamplerQueueConfig
}.

#[projections(primitive)]
Record Runner := mkRunner {
  task : @RunTask J TV E;
  sampler : Sm;
  observable_state : AccumulatorState;
  queue_params : SamplerQueueConfig;
  run_produced_samples : i64;
  run_completed_samples : i64;
  last_snapshot_at : Z;
  last_frontend_sync_at : Z;
  last_progress_sync_at : Z;
  pending_aggregation_flush : option PendingAggregationFlushTask;
  runtime_state : SamplerProgress Rng;
  completed_samples_per_second : f64;
  eta_seconds : option f64;
  initial_round_trip_snapshot_pending : bool;
  pending_persisted_completed_batches : i32;
  window_state : SamplerWindowState;
  sampler_queue : SamplerQueue W (EvaluationBatch Rng) BatchResult;
  last_task_config_refresh_at : Z;
  waiting_for_campaign_budget : bool;
  campaign_managed : option bool;
  sampler_uptime_started_at : Z;
  completed_rate : WallTimeRate
}.

(** Field assignments. *)
Definition set_task (x : @RunTask J TV E) (r : Runner) : Runner :=
  let 'mkRunner _ x1 x2 x3 x4 x5 x6 x7 x8 x9 x10 x11 x12 x13 x14 x15 x16 x17 x18 x19 x20 x21 := r in
  mkRunner x x1 x2 x3 x4 x5 x6 x7 x8 x9 x10 x11 x12 x13 x14 x15 x16 x17 x18 x19 x20 x21.
Definition set_sampler (x : Sm) (r : Runner) : Runner :=
  let 'mkRunner x0 _ x2 x3 x4 x5 x6 x7 x8 x9 x10 x11 x12 x13 x14 x15 x16 x17 x18 x19 x20 x21 := r in
  mkRunner x0 x x2 x3 x4 x5 x6 x7 x8 x9 x10 x11 x12 x13 x14 x15 x16 x17 x18 x19 x20 x21.
Definition set_observable_state (x : AccumulatorState) (r : Runner) : Runner :=
  let 'mkRunner x0 x1 _ x3 x4 x5 x6 x7 x8 x9 x10 x11 x12 x13 x14 x15 x16 x17 x18 x19 x20 x21 := r in
  mkRunner x0 x1 x x3 x4 x5 x6 x7 x8 x9 x10 x11 x12 x13 x14 x15 x16 x17 x18 x19 x20 x21.
Definition set_queue_params (x : SamplerQueueConfig) (r : Runner) : Runner :=
  let 'mkRunner x0 x1 x2 _ x4 x5 x6 x7 x8 x9 x10 x11 x12 x13 x14 x15 x16 x17 x18 x19 x20 x21 := r in
  mkRunner x0 x1 x2 x x4 x5 x6 x7 x8 x9 x10 x11 x12 x13 x14 x15 x16 x17 x18 x19 x20 x21.
Definition set_run_produced_samples (x : i64) (r : Runner) : Runner :=
  let 'mkRunner x0 x1 x2 x3 _ x5 x6 x7 x8 x9 x10 x11 x12 x13 x14 x15 x16 x17 x18 x19 x20 x21 := r in
  mkRunner x0 x1 x2 x3 x x5 x6 x7 x8 x9 x10 x11 x12 x13 x14 x15 x16 x17 x18 x19 x20 x21.
Definition set_run_completed_samples (x : i64) (r : Runner) : Runner :=
  let 'mkRunner x0 x1 x2 x3 x4 _ x6 x7 x8 x9 x10 x11 x12 x13 x14 x15 x16 x17 x18 x19 x20 x21 := r in
  mkRunner x0 x1 x2 x3 x4 x x6 x7 x8 x9 x10 x11 x12 x13 x14 x15 x16 x17 x18 x19 x20 x21.
Definition set_last_snapshot_at (x : Z) (r : Runner) : Runner :=
  let 'mkRunner x0 x1 x2 x3 x4 x5 _ x7 x8 x9 x10 x11 x12 x13 x14 x15 x16 x17 x18 x19 x20 x21 := r in
  mkRunner x0 x1 x2 x3 x4 x5 x x7 x8 x9 x10 x11 x12 x13 x14 x15 x16 x17 x18 x19 x20 x21.
Definition set_last_frontend_sync_at (x : Z) (r : Runner) : Runner :=
  let 'mkRunner x0 x1 x2 x3 x4 x5 x6 _ x8 x9 x10 x11 x12 x13 x14 x15 x16 x17 x18 x19 x20 x21 := r in
  mkRunner x0 x1 x2 x3 x4 x5 x6 x x8 x9 x10 x11 x12 x13 x14 x15 x16 x17 x18 x19 x20 x21.
Definition set_last_progress_sync_at (x : Z) (r : Runner) : Runner :=
  let 'mkRunner x0 x1 x2 x3 x4 x5 x6 x7 _ x9 x10 x11 x12 x13 x14 x15 x16 x17 x18 x19 x20 x21 := r in
  mkRunner x0 x1 x2 x3 x4 x5 x6 x7 x x9 x10 x11 x12 x13 x14 x15 x16 x17 x18 x19 x20 x21.
Definition set_pending_aggregation_flush (x : option PendingAggregationFlushTask) (r : Runner) : Runner :=
  let 'mkRunner x0 x1 x2 x3 x4 x5 x6 x7 x8 _ x10 x11 x12 x13 x14 x15 x16 x17 x18 x19 x20 x21 := r in
  mkRunner x0 x1 x2 x3 x4 x5 x6 x7 x8 x x10 x11 x12 x13 x14 x15 x16 x17 x18 x19 x20 x21.
Definition set_runtime_state (x : SamplerProgress Rng) (r : Runner) : Runner :=
  let 'mkRunner x0 x1 x2 x3 x4 x5 x6 x7 x8 x9 _ x11 x12 x13 x14 x15 x16 x17 x18 x19 x20 x21 := r in
  mkRunner x0 x1 x2 x3 x4 x5 x6 x7 x8 x9 x x11 x12 x13 x14 x15 x16 x17 x18 x19 x20 x21.
Definition set_completed_samples_per_second (x : f64) (r : Runner) : Runner :=
  let 'mkRunner x0 x1 x2 x3 x4 x5 x6 x7 x8 x9 x10 _ x12 x13 x14 x15 x16 x17 x18 x19 x20 x21 := r in
  mkRunner x0 x1 x2 x3 x4 x5 x6 x7 x8 x9 x10 x x12 x13 x14 x15 x16 x17 x18 x19 x20 x21.
Definition set_eta_seconds (x : option f64) (r : Runner) : Runner :=
  let 'mkRunner x0 x1 x2 x3 x4 x5 x6 x7 x8 x9 x10 x11 _ x13 x14 x15 x16 x17 x18 x19 x20 x21 := r in
  mkRunner x0 x1 x2 x3 x4 x5 x6 x7 x8 x9 x10 x11 x x13 x14 x15 x16 x17 x18 x19 x20 x21.
Definition set_initial_round_trip_snapshot_pending (x : bool) (r : Runner) : Runner :=
  let 'mkRunner x0 x1 x2 x3 x4 x5 x6 x7 x8 x9 x10 x11 x12 _ x14 x15 x16 x17 x18 x19 x20 x21 := r in
  mkRunner x0 x1 x2 x3 x4 x5 x6 x7 x8 x9 x10 x11 x12 x x14 x15 x16 x17 x18 x19 x20 x21.
Definition set_pending_persisted_completed_batches (x : i32) (r : Runner) : Runner :=
  let 'mkRunner x0 x1 x2 x3 x4 x5 x6 x7 x8 x9 x10 x11 x12 x13 _ x15 x16 x17 x18 x19 x20 x21 := r in
  mkRunner x0 x1 x2 x3 x4 x5 x6 x7 x8 x9 x10 x11 x12 x13 x x15 x16 x17 x18 x19 x20 x21.
Definition set_window_state (x : SamplerWindowState) (r : Runner) : Runner :=
  let 'mkRunner x0 x1 x2 x3 x4 x5 x6 x7 x8 x9 x10 x11 x12 x13 x14 _ x16 x17 x18 x19 x20 x21 := r in
  mkRunner x0 x1 x2 x3 x4 x5 x6 x7 x8 x9 x10 x11 x12 x13 x14 x x16 x17 x18 x19 x20 x21.
Definition set_sampler_queue (x : SamplerQueue W (EvaluationBatch Rng) BatchResult) (r : Runner) : Runner :=
  let 'mkRunner x0 x1 x2 x3 x4 x5 x6 x7 x8 x9 x10 x11 x12 x13 x14 x15 _ x17 x18 x19 x20 x21 := r in
  mkRunner x0 x1 x2 x3 x4 x5 x6 x7 x8 x9 x10 x11 x12 x13 x14 x15 x x17 x18 x19 x20 x21.
Definition set_last_task_config_refresh_at (x : Z) (r : Runner) : Runner :=
  let 'mkRunner x0 x1 x2 x3 x4 x5 x6 x7 x8 x9 x10 x11 x12 x13 x14 x15 x16 _ x18 x19 x20 x21 := r in
  mkRunner x0 x1 x2 x3 x4 x5 x6 x7 x8 x9 x10 x11 x12 x13 x14 x15 x16 x x18 x19 x20 x21.
Definition set_waiting_for_campaign_budget (x : bool) (r : Runner) : Runner :=
  let 'mkRunner x0 x1 x2 x3 x4 x5 x6 x7 x8 x9 x10 x11 x12 x13 x14 x15 x16 x17 _ x19 x20 x21 := r in
  mkRunner x0 x1 x2 x3 x4 x5 x6 x7 x8 x9 x10 x11 x12 x13 x14 x15 x16 x17 x x19 x20 x21.
Definition set_campaign_managed (x : option bool) (r : Runner) : Runner :=
  let 'mkRunner x0 x1 x2 x3 x4 x5 x6 x7 x8 x9 x10 x11 x12 x13 x14 x15 x16 x17 x18 _ x20 x21 := r in
  mkRunner x0 x1 x2 x3 x4 x5 x6 x7 x8 x9 x10 x11 x12 x13 x14 x15 x16 x17 x18 x x20 x21.
Definition set_sampler_uptime_started_at (x : Z) (r : Runner) : Runner :=
  let 'mkRunner x0 x1 x2 x3 x4 x5 x6 x7 x8 x9 x10 x11 x12 x13 x14 x15 x16 x17 x18 x19 _ x21 := r in
  mkRunner x0 x1 x2 x3 x4 x5 x6 x7 x8 x9 x10 x11 x12 x13 x14 x15 x16 x17 x18 x19 x x21.
Definition set_completed_rate (x : WallTimeRate) (r : Runner) : Runner :=
  let 'mkRunner x0 x1 x2 x3 x4 x5 x6 x7 x8 x9 x10 x11 x12 x13 x14 x15 x16 x17 x18 x19 x20 _ := r in
  mkRunner x0 x1 x2 x3 x4 x5 x6 x7 x8 x9 x10 x11 x12 x13 x14 x15 x16 x17 x18 x19 x20 x.

(** A method on [&mut self] with the world it acts on. *)
Notation M := (SE (Runner * W) RunnerError).

Definition rgets {A} (f : Runner -> A) : M A := se_get (fun s => f s.1).
Definition rmodify (f : Runner -> Runner) : M unit := se_modify (fun s => (f s.1, s.2)).
Definition rnow : M Z := fun s => (s, Ok (w_now s.2)).
Definition rstore {A} (f : W -> W * result StoreError A) : M A :=
  fun s => let '(w, r) := f s.2 in ((s.1, w), map_err RunnerStore r).
Definition engine {A} (m : result EngineError A) : M A := se_lift (map_err RunnerEngine m).
Definition on_queue {A} (m : SE (SamplerQueue W (EvaluationBatch Rng) BatchResult * W) StoreError A) : M A :=
  fun s => let '((q, w), r) := m (sampler_queue s.1, s.2) in ((set_sampler_queue q s.1, w), map_err RunnerStore r).
Definition on_queue_state (f : SamplerQueue W (EvaluationBatch Rng) BatchResult -> SamplerQueue W (EvaluationBatch Rng) BatchResult)
    : M unit := rmodify (fun r => set_sampler_queue (f (sampler_queue r)) r).
Definition on_sampler {A} (m : SE Sm EngineError A) : M A :=
  fun s => let '(x, r) := m (sampler s.1) in ((set_sampler x s.1, s.2), map_err RunnerEngine r).
Definition on_progress (f : SamplerProgress Rng -> SamplerProgress Rng) : M unit :=
  rmodify (fun r => set_runtime_state (f (runtime_state r)) r).
Definition on_generation {A} (m : SE (GenerationBuffer Rng) EngineError A) : M A :=
  fun s => let p := runtime_state s.1 in
           let '(g, r) := m (generation p) in
           ((set_runtime_state (set_generation g p) s.1, s.2), map_err RunnerEngine r).
Definition observe (w : Window) (f : WindowMetric -> WindowMetric) : M unit :=
  rmodify (fun r => set_window_state (on_window w f (window_state r)) r).
Definition observe_option (w : Window) (d : option Z) : M unit :=
  match d with Some d => observe w (observe_duration d) | None => se_ret tt end.

Variable info : RunnerInfo.

(** ** Budgets and stop conditions *)

Definition sample_target (t : @RunTaskSpec J TV E) : option i64 :=
  match sample_stop_condition t with Some condition => max_samples condition | None => nr_expected_samples t end.

Definition active_sample_remaining_budget (r : Runner) : result RunnerError (option usize) :=
  match sample_target (task_spec (task r)) with
  | None => Ok None
  | Some target =>
      let remaining :=
        i64_saturating_sub (i64_saturating_sub target (task_produced (task r)))
          (wrap_i64 (pending_samples (generation (runtime_state r)))) in
      if remaining <? 0 then Err (RunnerEngine (EngineE "produced sample count exceeded target"))
      else Ok (Some remaining)
  end.

Definition projected_estimate (r : Runner) (condition : SampleStopCondition) : option ProjectedEstimate :=
  estimate_for_stop (observable_state r) (stop_metric condition) (Some (completed_samples_per_second r)).

Definition stop_condition_status (r : Runner) : result RunnerError StopConditionStatus :=
  match sample_stop_condition (task_spec (task r)) with
  | None =>
      let reached :=
        match nr_expected_samples (task_spec (task r)) with
        | Some target => target <=? task_completed (task r)
        | None => false
        end in
      Ok (mkStopStatus reached reached false false true)
  | Some condition =>
      let projected := projected_estimate r condition in
      let min_samples_reached :=
        uncertainty_ready (observable_state r)
        && match min_samples condition with Some target => target <=? task_completed (task r) | None => true end in
      let bounded := negb (is_none (absolute_error condition)) || negb (is_none (relative_error_target condition)) in
      if min_samples_reached && bounded && is_none projected then
        Err (RunnerEngine (EngineE "stop_condition target is incompatible with accumulator or has no uncertainty"))
      else
        let max_samples_reached :=
          match max_samples condition with Some target => target <=? task_completed (task r) | None => false end in
        let absolute_error_reached :=
          match absolute_error condition, projected with
          | Some target, Some estimate =>
              min_samples_reached && PrimFloat.is_finite (pe_error estimate) && PrimFloat.leb (pe_error estimate) target
          | _, _ => false
          end in
        let relative_error_reached :=
          match relative_error_target condition, projected with
          | Some target, Some estimate =>
              let relative := relative_error (pe_value estimate) (pe_error estimate) in
              min_samples_reached && PrimFloat.is_finite relative && PrimFloat.leb relative target
          | _, _ => false
          end in
        Ok (mkStopStatus (max_samples_reached || absolute_error_reached || relative_error_reached)
              max_samples_reached absolute_error_reached relative_error_reached min_samples_reached)
  end.

(** The time until an error falls to its target, errors shrinking with the
    square root of the sample count. *)
Definition error_eta (completed_samples rate current target : f64) : list f64 :=
  if PrimFloat.leb current target then [0%float]
  else if PrimFloat.ltb 0 completed_samples && PrimFloat.is_finite current && PrimFloat.is_finite target
          && PrimFloat.ltb 0 target then
    let required_total := PrimFloat.mul completed_samples (powi (PrimFloat.div current target) 2) in
    [PrimFloat.div (f64_max (PrimFloat.sub required_total completed_samples) 0) rate]
  else [].

Definition estimate_eta_seconds_for_current_state (r : Runner) (rate : f64) : option f64 :=
  condition ← sample_stop_condition (task_spec (task r));
  if negb (PrimFloat.is_finite rate) || PrimFloat.leb rate 0 then None
  else
    let projected := projected_estimate r condition in
    let completed_samples := f64_of_Z (Z.max 0 (task_completed (task r))) in
    let etas :=
      match max_samples condition with
      | Some max => [PrimFloat.div (f64_max (PrimFloat.sub (f64_of_Z max) completed_samples) 0) rate]
      | None => []
      end
      ++ match absolute_error condition, projected with
         | Some target, Some p => error_eta completed_samples rate (pe_error p) target
         | _, _ => []
         end
      ++ match relative_error_target condition, projected with
         | Some target, Some p =>
             error_eta completed_samples rate (relative_error (pe_value p) (pe_error p)) target
         | _, _ => []
         end in
    match etas with [] => None | x :: l => Some (foldl f64_min x l) end.

(** ** Construction and live tuning *)

Definition reduced_carryover_batch_size (queue : SamplerQueueCheckpoint) (max_batch_size : usize) : usize :=
  let reduced := f64_as_usize (f64_round (PrimFloat.mul (f64_of_Z (batch_size_current queue)) MAX_BATCH_SIZE_DOWN_FACTOR)) in
  clamp MIN_BATCH_SIZE max_batch_size reduced.

(** The part of [new] after the estimator is prepared and the I/O threads
    started. *)
Definition runner_new (now : Z) (t : @RunTask J TV E) (s : Sm) (observable : AccumulatorState)
    (params : SamplerQueueConfig) (initial_batch_size : usize) (run_progress : RunSampleProgress)
    (resume : option RunnerCheckpoint) : Runner :=
  let max_batch := Z.max (max_batch_size params) MIN_BATCH_SIZE in
  let '(t, progress, queue_checkpoint) :=
    match resume with
    | Some snapshot =>
        (set_task_counts (produced_samples_total (rc_runtime_state snapshot)) (rc_completed_samples snapshot) t,
         rc_runtime_state snapshot, rc_queue snapshot)
    | None => (t, progress_default, mkQueueCheckpoint None None (clamp MIN_BATCH_SIZE max_batch initial_batch_size))
    end in
  let progress := set_uptime (f64_max (sampler_uptime_ms_accumulated progress) (rp_uptime_ms run_progress)) progress in
  let progress :=
    if is_none resume && (0 <? task_completed t) then set_checkpoint_state Ready progress else progress in
  mkRunner t s observable params
    (Z.max (rp_produced run_progress) (task_produced t)) (Z.max (rp_completed run_progress) (task_completed t))
    now now now None progress 0%float None false 0 windows_default
    (queue_new now (ri_run_id info) (task_id t) params queue_checkpoint)
    (instant_sub now TASK_CONFIG_REFRESH_INTERVAL) false None now (rate_new now).

Definition elapsed_ms (now since : Z) : f64 := PrimFloat.mul (as_secs_f64 (Z.max 0 (now - since))) 1000.

Definition current_sampler_uptime_ms (r : Runner) (now : Z) : f64 :=
  PrimFloat.add (sampler_uptime_ms_accumulated (runtime_state r)) (elapsed_ms now (sampler_uptime_started_at r)).

Definition checkpoint_sampler_uptime_now : M f64 :=
  let! now := rnow in
  let! uptime_ms := rgets (fun r => current_sampler_uptime_ms r now) in
  on_progress (set_uptime uptime_ms) ;!
  let! now := rnow in
  rmodify (set_sampler_uptime_started_at now) ;! se_ret uptime_ms.

Definition effective_queue_config_for_tuning (queue_tuning : option SamplerQueueTuning) : SamplerQueueConfig :=
  match queue_tuning with
  | Some tuning => apply_tuning tuning (ri_base_queue_config info)
  | None => ri_base_queue_config info
  end.

(** [a == b] on tunings: their numbers compare as floats. *)
Definition opt_eqb {A} (f : A -> A -> bool) (a b : option A) : bool :=
  match a, b with Some a, Some b => f a b | None, None => true | _, _ => false end.
Definition tuning_eqb (a b : SamplerQueueTuning) : bool :=
  opt_eqb Z.eqb (tune_fixed_batch_size a) (tune_fixed_batch_size b)
  && opt_eqb PrimFloat.eqb (tune_target_batch_eval_ms a) (tune_target_batch_eval_ms b)
  && opt_eqb Z.eqb (tune_max_batch_size a) (tune_max_batch_size b)
  && opt_eqb Z.eqb (tune_max_generation_size a) (tune_max_generation_size b).

Definition refresh_live_queue_tuning : M unit :=
  let! now := rnow in
  let! last := rgets last_task_config_refresh_at in
  if now - last <? TASK_CONFIG_REFRESH_INTERVAL then se_ret tt
  else
    rmodify (set_last_task_config_refresh_at now) ;!
    let! active := rstore (r_load_active_run_task (ri_run_id info)) in
    match active with
    | None => se_ret tt
    | Some active =>
        let! t := rgets task in
        if negb (task_id active =? task_id t) then se_ret tt
        else
          let next := sample_queue_tuning (task_spec active) in
          if opt_eqb tuning_eqb next (sample_queue_tuning (task_spec t)) then se_ret tt
          else
            let! spec := engine (map_err InvalidInputE (set_sample_queue_tuning next (task_spec t))) in
            rmodify (set_task (set_task_spec spec t)) ;!
            let config := effective_queue_config_for_tuning next in
            rmodify (set_queue_params config) ;!
            on_queue_state (apply_config config)
    end.

(** ** Ingesting completed batches *)

Record IngestTotals := mkIngestTotals {
  it_samples : i64;
  it_training_ms : f64;
  it_merge_ms : f64;
  it_training_batches : usize
}.

Definition observe_evaluation (batch : CompletedBatch BatchResult) : M unit :=
  match cb_total_eval_time_ms batch with
  | Some ms =>
      let n := cb_batch_size batch in
      if 0 <? n then
        observe EvalMsPerBatch (window_observe ms) ;!
        observe EvalMsPerSample (observe_weighted (PrimFloat.div ms (f64_of_Z n)) n) ;!
        on_queue_state (observe_completed_eval_batch n ms)
      else se_ret tt
  | None => se_ret tt
  end.

(** Feedback of one training batch: handed to the sampler once its draw is
    complete. *)
Definition ingest_feedback (batch : CompletedBatch BatchResult) (totals : IngestTotals) : M IngestTotals :=
  match Evaluation.feedback (cb_result batch) with
  | None => se_fail (RunnerEngine (EngineE "completed batch requires training but has no training values"))
  | Some training_values =>
      if negb (feedback_len training_values =? cb_batch_size batch) then
        se_fail (RunnerEngine (EngineE "completed batch training value count mismatch"))
      else
        let! assembled := on_generation (accept_feedback training_values) in
        match assembled with
        | None => se_ret totals
        | Some values =>
            let! started := rnow in
            on_sampler (s_feedback values) ;!
            let! now := rnow in
            let ms := elapsed_ms now started in
            on_progress (count_ingested 1 (feedback_len values)) ;!
            observe TrainingIngestMsPerSample
              (observe_weighted (PrimFloat.div ms (f64_of_Z (feedback_len values))) (feedback_len values)) ;!
            se_ret (mkIngestTotals (it_samples totals) (PrimFloat.add (it_training_ms totals) ms) (it_merge_ms totals)
                      (it_training_batches totals + 1))
        end
  end.

Definition merge_result (batch : CompletedBatch BatchResult) : M unit :=
  fun s => let '(a, r) := state_merge (accumulator (cb_result batch)) (observable_state s.1) in
           ((set_observable_state a s.1, s.2), map_err RunnerEngine r).

Definition ingest_batch (batch : CompletedBatch BatchResult) (totals : IngestTotals) : M IngestTotals :=
  let totals := mkIngestTotals (it_samples totals + cb_batch_size batch) (it_training_ms totals) (it_merge_ms totals)
                  (it_training_batches totals) in
  observe_evaluation batch ;!
  let! totals := (if cb_requires_training_values batch then ingest_feedback batch totals else se_ret totals) in
  let! started := rnow in
  merge_result batch ;!
  let! now := rnow in
  se_ret (mkIngestTotals (it_samples totals) (it_training_ms totals)
            (PrimFloat.add (it_merge_ms totals) (elapsed_ms now started)) (it_training_batches totals)).

Fixpoint ingest_batches (l : list (CompletedBatch BatchResult)) (totals : IngestTotals) : M IngestTotals :=
  match l with
  | [] => se_ret totals
  | batch :: l => let! totals := ingest_batch batch totals in ingest_batches l totals
  end.

Definition count_completed (samples : i64) (r : Runner) : Runner :=
  let t := task r in
  set_run_completed_samples (run_completed_samples r + samples)
    (set_task (set_task_counts (task_produced t) (task_completed t + samples) t) r).

Definition process_completed_batches (completed : list (CompletedBatch BatchResult)) : M CompletedIngestStats :=
  match completed with
  | [] => se_ret (mkIngestStats 0 0)
  | _ =>
      let! t := rgets task in
      if existsb (fun batch => negb (cb_task_id batch =? task_id t)) completed then
        se_fail (RunnerStore (Internal "completed batch belongs to another task"))
      else
        let! state := rgets (fun r => accumulator_checkpoint_state (runtime_state r)) in
        let was_waiting := bool_decide (state = WaitingForInitialRoundTrip) in
        let! totals := ingest_batches completed (mkIngestTotals 0 0%float 0%float 0) in
        rmodify (count_completed (it_samples totals)) ;!
        rmodify (fun r => set_pending_persisted_completed_batches
          (i32_saturating_add (pending_persisted_completed_batches r) (zlen completed)) r) ;!
        se_when (0 <? it_samples totals)
          (on_progress (set_checkpoint_state Ready) ;!
           se_when was_waiting (rmodify (set_initial_round_trip_snapshot_pending true))) ;!
        se_when (0 <? it_training_batches totals)
          (observe CompletedTrainingIngestMs (window_observe (it_training_ms totals))) ;!
        observe CompletedMergeIngestMs (window_observe (it_merge_ms totals)) ;!
        on_queue (mark_processed completed) ;!
        se_ret (mkIngestStats (zlen completed) (it_samples totals))
  end.

(** ** Producing *)

Definition generation_panic : EngineError := EngineE "panicked: invalid buffered generation slice".

(** [take_batches] as a method; [None] of the model is a panic. *)
Definition take_batches_m (slots chunk_size : usize) : SE (GenerationBuffer Rng) EngineError (list (LatentBatch Rng)) :=
  fun g => match take_batches slots chunk_size g with Some (g, r) => (g, r) | None => (g, Err generation_panic) end.

Definition count_dispatched (batches samples : Z) (r : Runner) : Runner :=
  let t := task r in
  set_runtime_state (count_produced batches samples (runtime_state r))
    (set_run_produced_samples (run_produced_samples r + samples)
       (set_task (set_task_counts (task_produced t + samples) (task_completed t) t) r)).

Definition work_unit (accumulator : AccumulatorConfig) (l : LatentBatch Rng) : EvaluationBatch Rng :=
  let work := for_evaluation l accumulator in
  mkEvaluationBatch (ri_evaluation_plan info) (eb_samples work) (eb_accumulator work).

Definition enqueue_generated (slots chunk_size : usize) : M usize :=
  let! feedback_needed := rgets (fun r => requires_feedback (generation (runtime_state r))) in
  let! batches := on_generation (take_batches_m slots chunk_size) in
  let count := zlen batches in
  let! a := rgets observable_state in
  let! accumulator := engine (state_config a) in
  rmodify (count_dispatched count (zsum (map nr_samples batches))) ;!
  on_queue (ingest (fun b => nr_samples (eb_samples b)) (map (work_unit accumulator) batches) feedback_needed) ;!
  se_ret count.

Definition campaign_allowance : M (option i64) :=
  let! managed := rgets campaign_managed in
  if bool_decide (managed = Some false) then se_ret None
  else
    let! id := rgets (fun r => task_id (task r)) in
    let! value := rstore (r_campaign_sample_allowance (ri_run_id info) id) in
    rmodify (set_campaign_managed (Some (negb (is_none value)))) ;! se_ret value.

Definition min_option (a : usize) (b : option usize) : usize := Z.min a (default usize_max b).

(** A draw within its limit and its training window. *)
Definition draw_ok (max_samples : usize) (batch : LatentBatch Rng) (training_remaining : option usize) : bool :=
  negb ((nr_samples batch =? 0) || (nr_samples batch >? max_samples)
        || match training_remaining with Some n => nr_samples batch >? n | None => false end).

Definition buffer_generated (started : Z) (batch : LatentBatch Rng) (training_remaining : option usize) : M unit :=
  let n := nr_samples batch in
  on_generation (buffer_draw batch training_remaining) ;!
  se_when (negb (is_none training_remaining)) (on_generation (se_modify (record_draw n))) ;!
  let! now := rnow in
  observe ProduceMsPerSample (observe_weighted (PrimFloat.div (elapsed_ms now started) (f64_of_Z n)) n).

(** The refill of the buffer: [Some result] when [produce] returns there. *)
Definition refill (queue_before_produce : BatchQueueCounts) : M (option (usize * bool)) :=
  let! fin := rgets (fun r => finished (generation (runtime_state r))) in
  if fin : bool then se_ret (Some (0, false))
  else
    let! r := rgets id in
    let! budget := se_lift (active_sample_remaining_budget r) in
    let! stop := (if bool_decide (budget = Some 0) then se_ret true
                  else let! status := se_lift (stop_condition_status r) in se_ret (reached status)) in
    if stop : bool then se_ret (Some (0, false))
    else
      let! needed := on_queue (needs_generation queue_before_produce) in
      if negb needed then se_ret (Some (0, true))
      else
        let! allowance := campaign_allowance in
        let! produced := rgets (fun r => task_produced (task r)) in
        let campaign_remaining := option_map (fun a => Z.max 0 (i64_saturating_sub a produced)) allowance in
        if bool_decide (campaign_remaining = Some 0) then
          rmodify (set_waiting_for_campaign_budget true) ;! se_ret (Some (0, true))
        else
          let! params := rgets queue_params in
          let max_samples := min_option (min_option (max_generation_size params) budget) campaign_remaining in
          let! started := rnow in
          let! generated := on_sampler (s_generate max_samples) in
          match generated with
          | Waiting => se_ret (Some (0, false))
          | Finished =>
              on_generation (se_modify (fun g => mkGenerationBuffer (Generation.pending g) (training_groups g) true)) ;!
              se_ret (Some (0, false))
          | GBatch batch training_remaining =>
              if negb (draw_ok max_samples batch training_remaining) then
                se_fail (RunnerEngine (EngineE "sampler returned a draw outside its budget or training window"))
              else buffer_generated started batch training_remaining ;! se_ret None
          end.

Definition slots_and_chunk : M (usize * usize) :=
  let! state := rgets (fun r => accumulator_checkpoint_state (runtime_state r)) in
  if bool_decide (state = NeedsInitialRoundTrip) then
    on_progress (set_checkpoint_state WaitingForInitialRoundTrip) ;! se_ret (1, MIN_BATCH_SIZE)
  else
    let! r := rgets id in
    let '(q, size) := production_batch_size (Generation.training_remaining (generation (runtime_state r))) (sampler_queue r) in
    rmodify (set_sampler_queue q) ;! se_ret (max_batches_per_tick (queue_params r), size).

Definition produce (queue_before_produce : BatchQueueCounts) : M (usize * bool) :=
  rmodify (set_waiting_for_campaign_budget false) ;!
  let! state := rgets (fun r => accumulator_checkpoint_state (runtime_state r)) in
  if bool_decide (state = WaitingForInitialRoundTrip) then se_ret (0, true)
  else
    let! buffered := rgets (fun r => has_pending (generation (runtime_state r))) in
    let! early := (if buffered : bool then se_ret None else refill queue_before_produce) in
    match early with
    | Some result => se_ret result
    | None =>
        let! sc := slots_and_chunk in
        let! n := enqueue_generated sc.1 sc.2 in
        se_ret (n, true)
    end.

(** ** Publishing *)

Definition due (now last interval : Z) (force : bool) : bool := force || (interval =? 0) || (interval <=? now - last).
Definition progress_sync_due (r : Runner) (now : Z) (force : bool) : bool :=
  due now (last_progress_sync_at r) (ri_frontend_sync_interval info) force.
Definition aggregation_flush_due (r : Runner) (now : Z) (force : bool) : bool :=
  initial_round_trip_snapshot_pending r || due now (last_frontend_sync_at r) (ri_frontend_sync_interval info) force.
Definition performance_snapshot_due (r : Runner) (now : Z) (force : bool) : bool :=
  due now (last_snapshot_at r) (ri_performance_snapshot_interval info) force.

Definition consume_aggregation_flush_task (t : PendingAggregationFlushTask) : M unit :=
  let! joined := (fun s => let '(w, r) := await_handle (flush_handle t) s.2 in ((s.1, w), Ok r)) in
  match joined with
  | Some (Ok duration) =>
      observe PersistAccumulatorMs (observe_duration duration) ;!
      se_when (cleared_initial_round_trip t) (rmodify (set_initial_round_trip_snapshot_pending false)) ;!
      rmodify (fun r => set_pending_persisted_completed_batches
        (i32_saturating_sub (pending_persisted_completed_batches r) (flushed_completed_batches t)) r)
  | Some (Err err) => se_fail (RunnerStore err)
  | None => se_fail (RunnerStore (Internal "sampler aggregation flush task failed"))
  end.

Definition drain_finished_aggregation_flush : M unit :=
  let! pending := rgets pending_aggregation_flush in
  match pending with
  | None => se_ret tt
  | Some t =>
      if negb (is_finished (flush_handle t)) then se_ret tt
      else rmodify (set_pending_aggregation_flush None) ;! consume_aggregation_flush_task t
  end.

Definition aggregation_snapshot (persist_snapshot : bool) : M (option J) :=
  let! a := rgets observable_state in
  if negb persist_snapshot then se_ret None
  else
    match a with
    | AStratified _ => let! j := engine (accumulator_persistent_json a) in se_ret (Some j)
    | _ =>
        let! output := on_sampler s_persisted_output in
        let! j := engine (accumulator_persistent_json a) in
        se_ret (Some (default j output))
    end.

Definition save_aggregation_job (run : i32) (task : i64) (current : J) (snapshot : option J) (batches : i32) (w : W)
    : W * result StoreError Z :=
  let '(w, r) := timed (r_save_aggregation run task current snapshot batches) w in
  (w, let? a := r in Ok a.2).

Definition flush_aggregation (force : bool) : M unit :=
  (if force then
     let! pending := rgets pending_aggregation_flush in
     match pending with
     | Some t => rmodify (set_pending_aggregation_flush None) ;! consume_aggregation_flush_task t
     | None => se_ret tt
     end
   else drain_finished_aggregation_flush) ;!
  let! now := rnow in
  let! r := rgets id in
  if negb (aggregation_flush_due r now force) then se_ret tt
  else if negb force && negb (is_none (pending_aggregation_flush r)) then se_ret tt
  else
    let persist_snapshot :=
      force || initial_round_trip_snapshot_pending r || (0 <? pending_persisted_completed_batches r) in
    let! current := engine (accumulator_json (observable_state r)) in
    let! snapshot := aggregation_snapshot persist_snapshot in
    let flushed := pending_persisted_completed_batches r in
    let t := mkPendingFlush flushed persist_snapshot
               (spawn (save_aggregation_job (ri_run_id info) (task_id (task r)) current snapshot flushed)) in
    let! now := rnow in
    rmodify (set_last_frontend_sync_at now) ;!
    if force then consume_aggregation_flush_task t else rmodify (set_pending_aggregation_flush (Some t)).

Definition flush_progress_sync (force : bool) : M unit :=
  let! now := rnow in
  let! r := rgets id in
  if negb (progress_sync_due r now force) then se_ret tt
  else
    rstore (r_update_run_task_progress (task_id (task r)) (task_produced (task r)) (task_completed (task r))) ;!
    let! now := rnow in
    rstore (r_save_run_sample_progress (ri_run_id info)
      (mkRunProgress (run_produced_samples r) (run_completed_samples r) (current_sampler_uptime_ms r now))) ;!
    let! now := rnow in
    rmodify (set_last_progress_sync_at now).

(** One value per projection key: the sum of its queries over the prefixes. *)
Definition sum_masses (group : list (option f64)) : option f64 :=
  foldl (fun sum value => sum ← sum; v ← value; Some (PrimFloat.add sum v)) (Some 0%float) group.

Definition mapping_known : bool :=
  is_none (materializer (ri_sampler_config info))
  && negb (existsb (fun t => match t with ProcessBatchTransform _ => true | _ => false end) (ri_batch_transforms info)).

Definition discrete_mass_diagnostics : M (option (list (string * list i64 * option f64))) :=
  let! r := rgets id in
  let! config := engine (state_config (observable_state r)) in
  match config_discrete_projections config with
  | None => se_ret None
  | Some config =>
      let! projected :=
        engine (collect_discrete_mass_subspaces (observable_state r) config DEFAULT_DISCRETE_PROJECTION_MAX_TOTAL_BINS) in
      match projected with
      | [] => se_ret None
      | _ =>
          let '(width, queries) :=
            integrand_mass_queries (map snd projected) (option_map Stratification.partition (ri_evaluation_plan info)) in
          let! joint := (if mapping_known then on_sampler (s_discrete_mass_batch queries)
                         else se_ret (map (fun _ => None) queries)) in
          if negb (zlen joint =? zlen queries) then
            se_fail (RunnerEngine (EngineE "discrete mass response length mismatch"))
          else
            let values := map sum_masses (chunks_exact (length joint) width joint) in
            se_ret (Some (map (fun '(name, key, _, value) => (name, key, value)) (zip projected values)))
      end
  end.

Definition fleet_of (run : i32) (workers : list RegisteredWorker) : EvaluatorFleetSnapshot :=
  let active :=
    filter (fun w => current_run_id w = Some run /\ current_role w = Some Evaluator) workers in
  let rss := filter (fun v => 0 < v) (omap evaluator_rss_bytes active) in
  let rss_sum := foldl i64_saturating_add 0 rss in
  let rss_count := zlen rss in
  mkFleet (zlen active)
    (if 0 <? rss_count then Some (Z.max 0 (Z.quot rss_sum rss_count)) else None)
    (if 0 <? rss_count then Some (Z.max 0 rss_sum) else None).

Definition evaluator_fleet_snapshot : M EvaluatorFleetSnapshot :=
  let! workers := rstore (r_get_registered_workers (Some (ri_run_id info))) in
  se_ret (fleet_of (ri_run_id info) workers).

Definition take_sampler_window_snapshot : M SamplerWorkRollingAverages :=
  let! w := rgets window_state in
  rmodify (set_window_state (fun v => (snapshot_and_reset (w v)).1)) ;!
  se_ret (fun v => (snapshot_and_reset (w v)).2).

Definition performance_metrics (r : Runner) (windows : SamplerWorkRollingAverages) (queue : SamplerQueueRollingAverages)
    (uptime_ms : f64) (fleet : EvaluatorFleetSnapshot) (diagnostics : J) : SamplerPerformanceMetrics :=
  let p := runtime_state r in
  mkPerformance diagnostics (queue_params r) (Some (active_count fleet)) (pending_samples (generation p))
    (accumulator_checkpoint_state p) (produced_batches_total p) (produced_samples_total p)
    (ingested_batches_total p) (ingested_samples_total p) (run_completed_samples r) uptime_ms
    (completed_samples_per_second r) (eta_seconds r) (current_batch_size (sampler_queue r)) fleet windows queue.

Definition flush_performance_snapshot (force : bool) : M unit :=
  let! now := rnow in
  let! r := rgets id in
  if negb (performance_snapshot_due r now force) then se_ret tt
  else
    let! diagnostics := on_sampler (fun s => let '(s, j) := s_diagnostics s in (s, Ok j)) in
    let! masses := discrete_mass_diagnostics in
    let diagnostics := match masses with Some m => with_discrete_mass diagnostics m | None => diagnostics end in
    let! r := rgets id in
    let '(q, queue) := take_metrics_snapshot (sampler_queue r) in
    rmodify (set_sampler_queue q) ;!
    let! windows := take_sampler_window_snapshot in
    let! fleet := evaluator_fleet_snapshot in
    let! now := rnow in
    let! r := rgets id in
    rstore (r_record_sampler_performance_snapshot (ri_run_id info) (ri_node_name info)
      (performance_metrics r windows queue (current_sampler_uptime_ms r now) fleet diagnostics)) ;!
    let! now := rnow in
    rmodify (set_last_snapshot_at now).

Definition rate_panic : EngineError := EngineE "panicked: wall-time rate window underflow".

Definition update_completed_samples_per_second (completed_samples_delta : i64) : M unit :=
  let! now := rnow in
  let! rate := rgets completed_rate in
  let! observed :=
    engine (ok_or rate_panic (rate_observe now (f64_of_Z (Z.max 0 completed_samples_delta)) rate)) in
  rmodify (set_completed_rate observed.1) ;!
  rmodify (set_completed_samples_per_second observed.2) ;!
  rmodify (fun r => set_eta_seconds (estimate_eta_seconds_for_current_state r observed.2) r).

(** ** The tick *)

Definition open_after (counts : BatchQueueCounts) (produced_batches : usize) : usize :=
  Z.max 0 (i64_saturating_add (counts_open counts) produced_batches).

Definition check_tick_terminal_state (counts : BatchQueueCounts) (completed produced : usize) (wants : bool)
    (r : Runner) : result RunnerError bool :=
  let open_batch_count := open_after counts produced in
  let? stop := stop_condition_status r in
  let active_evaluator_count :=
    match cached_tick_queue_counts (sampler_queue r) with
    | Some _ => cached_active_evaluator_count (sampler_queue r)
    | None => None
    end in
  let fin := finished (generation (runtime_state r)) in
  if negb fin && negb (waiting_for_campaign_budget r)
     && no_progress_is_terminal (reached stop) open_batch_count (qc_failed counts) completed produced wants
          active_evaluator_count
  then Err (RunnerEngine (EngineE "cannot make further progress: stop condition not reached and sampler produced no new batches"))
  else Ok ((reached stop || fin) && (open_batch_count =? 0) && negb (has_outstanding (generation (runtime_state r)))).

Definition runner_tick : M bool :=
  refresh_live_queue_tuning ;!
  let! tick := on_queue tick in
  observe_option ReclaimMs (qt_reclaim_duration tick) ;!
  observe_option CompletedDeleteMs (qt_completed_cleanup_duration tick) ;!
  observe QueueCountsMs (observe_duration (qt_queue_snapshot_duration tick)) ;!
  let! stats := process_completed_batches (qt_completed tick) in
  let counts := qt_queue_counts tick in
  let counts := mkBatchQueueCounts (qc_pending counts) (qc_claimed counts)
                  (i64_saturating_sub (qc_completed counts) (completed_batches stats)) (qc_failed counts) in
  update_completed_samples_per_second (completed_samples_delta stats) ;!
  let! started := rnow in
  let! produced := produce counts in
  let! now := rnow in
  observe ProduceMs (observe_duration (now - started)) ;!
  let! r := rgets id in
  let publish :=
    waiting_for_campaign_budget r && (0 <? completed_samples_delta stats) && (counts_open counts =? 0)
    && negb (has_outstanding (generation (runtime_state r))) in
  flush_aggregation publish ;!
  let! started := rnow in
  flush_progress_sync publish ;!
  let! now := rnow in
  observe ProgressSyncMs (observe_duration (now - started)) ;!
  let! started := rnow in
  flush_performance_snapshot false ;!
  let! now := rnow in
  observe PerformanceSyncMs (observe_duration (now - started)) ;!
  let! r := rgets id in
  se_lift (check_tick_terminal_state counts (completed_batches stats) produced.1 produced.2 r).

(** ** Saving *)

(** [loop { ready = get_processed_ready(); if ready.is_empty() { break } .. }]:
    at most one background fetch is outstanding and none is started, so the
    second round finds nothing. *)
Fixpoint drain_ready (fuel : nat) : M unit :=
  match fuel with
  | O => se_ret tt
  | S fuel =>
      let! completed := on_queue get_processed_ready in
      match completed with
      | [] => se_ret tt
      | _ => let! _ := process_completed_batches completed in drain_ready fuel
      end
  end.

Definition drain_local_work_on_stop : M unit := drain_ready 2 ;! on_queue finish_background_maintenance.

Definition saved_sampler : M SavedSampler :=
  let! state := on_sampler s_snapshot in
  if json_is_null state then se_fail (RunnerEngine (EngineE "sampler snapshot must not be null"))
  else se_ret (mkSavedSampler (ri_sampler_config info) state).

(** The checkpoint of the runner's state. *)
Definition checkpoint_of (saved : SavedSampler) (r : Runner) : RunnerCheckpoint :=
  mkRunnerCheckpoint (task_completed (task r)) (task_id (task r)) saved (observable_state r)
    (runtime_state r) (q_checkpoint (sampler_queue r)).

Definition save_checkpoint (kind : CheckpointKind) : M unit :=
  on_queue flush ;!
  match kind with
  | StageCheckpoint =>
      drain_local_work_on_stop ;! flush_aggregation true ;! flush_performance_snapshot true ;! flush_progress_sync true
  | InitialCheckpoint => se_ret tt
  end ;!
  let! _ := checkpoint_sampler_uptime_now in
  let! saved := saved_sampler in
  let! r := rgets id in
  let checkpoint := checkpoint_of saved r in
  let! stage :=
    match kind with
    | StageCheckpoint =>
        let! counts := on_queue queue_counts in
        se_ret (Some (mkStageSnapshot (Some (task_id (task r))) (task_name (task r)) (Some (task_sequence_nr (task r)))
          ((counts_open counts =? 0) && negb (has_outstanding (generation (runtime_state r))))
          (Some saved) (Some (observable_state r)) (Some (ri_evaluator_config info)) (ri_batch_transforms info)))
    | InitialCheckpoint => se_ret None
    end in
  rstore (r_save_sampler_checkpoint (ri_run_id info) checkpoint stage).

Definition persist_sampler_checkpoint (kind : CheckpointKind) : M unit :=
  let! id := rgets (fun r => task_id (task r)) in
  let! now := rnow in
  rstore (r_record_checkpoint_status (ri_run_id info) (StatusSaving id now)) ;!
  fun s =>
    match save_checkpoint kind s with
    | (s, Ok _) => (s, Ok tt)
    | (s, Err error) =>
        let '(w, _) := r_record_checkpoint_status (ri_run_id info) (StatusFailed id (w_now s.2)) s.2 in
        ((s.1, w), Err error)
    end.

Definition save_initial_checkpoint : M unit := persist_sampler_checkpoint InitialCheckpoint.

Definition persist_state : M unit :=
  let! t := rgets task in
  if bool_decide (task_state t = TCompleted) then se_ret tt
  else
    persist_sampler_checkpoint StageCheckpoint ;!
    let! duration := on_queue cleanup_completed_batches in
    observe_option CompletedDeleteMs duration.

Definition complete_task : M unit :=
  persist_state ;!
  let! t := rgets task in
  let! measured := (fun s => let '(w, r) := r_extract_task_measurement (ri_run_id info) t s.2 in ((s.1, w), Ok r)) in
  let output := match measured with Ok results => MeasurementCompleted results | Err reason => MeasurementFailed reason end in
  rstore (r_persist_task_measurement_output (task_id t) output) ;!
  rstore (r_complete_run_task (task_id t)) ;!
  rmodify (fun r => set_task (set_task_state TCompleted (task r)) r).

Definition fail_task (reason : string) : M unit :=
  let! id := rgets (fun r => task_id (task r)) in
  rstore (r_fail_run_task id reason).

End runner.
