(* ===== verification/RunnerLaws.v ===== *)
(** What the sampler runner guarantees whatever its store, its sampler and the
    evaluators do: the invariants of src/runners/sampler_aggregator.rs, over
    the methods of Runner.v. *)
From S2P Require Import Prelude Floats Errors Domain Batch Config LatentBatch Feedback Generation AccumulatorTrait Scalar Stratification Vector Gammaloop AccumulatorState Extraction Evaluation Metrics WorkQueue Queue Tasks Runner.

(** ** Work-unit sizes stay sizes *)

(** The two numbers [production_batch_size] is computed from. *)
Definition chunk_ok {W Eb R} (q : SamplerQueue W Eb R) : Prop :=
  1 <= batch_size_current (q_checkpoint q) /\
  match tbs_cap (training_batch_sizing q) with Some cap => 1 <= cap | None => True end.

Section queue_keeps.
Context {W Eb R : Type} {QW : QueueWorld W Eb R} {LM : Libm}.
Notation sq := (SamplerQueue W Eb R).
Implicit Types q : sq.

Lemma upholds_gets {A} (f : sq -> A) : upholds (W:=W) chunk_ok (gets f).
Proof. apply upholds_get. Qed.
Lemma upholds_world {A} (f : W -> W * A) : upholds (X:=sq) chunk_ok (world f).
Proof. intros s s' r. unfold world. destruct (f s.2). by intros [= <- _]. Qed.
Lemma upholds_world_try {A} (f : W -> W * result StoreError A) : upholds (X:=sq) chunk_ok (world_try f).
Proof. intros s s' r. unfold world_try. destruct (f s.2). by intros [= <- _]. Qed.
Lemma upholds_now : upholds (X:=sq) chunk_ok now_ms.
Proof. by intros s s' r [= <- _]. Qed.
Lemma upholds_qmodify (f : sq -> sq) : (forall q, chunk_ok q -> chunk_ok (f q)) -> upholds (W:=W) chunk_ok (modify f).
Proof. intros Hf. apply upholds_modify. intros s. apply Hf. Qed.
Lemma upholds_pump : upholds chunk_ok ensure_insert_pump.
Proof.
  intros s s' r [= <- _]. simpl. generalize (length (pending_insert s.1)) as fuel. intros fuel.
  destruct s as [q w]. simpl. revert q w. induction fuel as [|fuel IH]; intros q w Hq; [done|]. cbn [pump].
  destruct (pump_wanted q); [|done]. unfold pump_once. destruct (w_next_batch_ids _ _) as [w' ids].
  by apply IH.
Qed.
Hint Resolve upholds_gets upholds_world upholds_world_try upholds_now upholds_pump : uphold.
Hint Extern 1 (upholds chunk_ok (modify _)) => (apply upholds_qmodify; intros ? H; exact H) : uphold.

Lemma upholds_finish : upholds (X:=sq) (W:=W) chunk_ok finish_background_maintenance.
Proof. unfold finish_background_maintenance, consume_completed_cleanup_task. upholds_auto. Qed.
Hint Resolve upholds_finish : uphold.

Lemma upholds_consume_insert t : upholds (X:=sq) chunk_ok (consume_insert_task t).
Proof. unfold consume_insert_task. upholds_auto. Qed.
Hint Resolve upholds_consume_insert : uphold.

Lemma upholds_drain_inserts fuel i : upholds (X:=sq) chunk_ok (drain_inserts fuel i).
Proof. revert i. induction fuel as [|fuel IH]; intros i; cbn [drain_inserts]; upholds_auto. Qed.
Hint Resolve upholds_drain_inserts : uphold.

Lemma upholds_drain_finished_insert : upholds (X:=sq) (W:=W) chunk_ok drain_finished_insert.
Proof. unfold drain_finished_insert. upholds_auto. Qed.
Hint Resolve upholds_drain_finished_insert : uphold.

Lemma upholds_flush : upholds (X:=sq) (W:=W) chunk_ok flush.
Proof.
  unfold flush. apply upholds_bind; [upholds_auto|intros q]. generalize (S (length (pending_insert_tasks q) + length (pending_insert q))) as fuel.
  induction fuel as [|fuel IH]; cbn [flush_loop]; upholds_auto.
Qed.

Lemma upholds_ready : upholds (X:=sq) (W:=W) chunk_ok get_processed_ready.
Proof.
  unfold get_processed_ready, drain_finished_processed_fetch, consume_processed_fetch_task, take_ready_processed.
  upholds_auto.
Qed.

Lemma upholds_cleanup_if_due : upholds (X:=sq) (W:=W) chunk_ok ensure_completed_cleanup_if_due.
Proof. unfold ensure_completed_cleanup_if_due. upholds_auto. Qed.
Hint Resolve upholds_flush upholds_ready upholds_cleanup_if_due : uphold.

Lemma upholds_mark_processed l : upholds (X:=sq) (W:=W) chunk_ok (mark_processed l).
Proof. unfold mark_processed. upholds_auto. Qed.

Lemma upholds_cleanup : upholds (X:=sq) (W:=W) chunk_ok cleanup_completed_batches.
Proof. unfold cleanup_completed_batches, cleanup_consumed, consume_completed_cleanup_task. upholds_auto. Qed.

Lemma upholds_queue_counts : upholds (X:=sq) (W:=W) chunk_ok queue_counts.
Proof. unfold queue_counts, db_queue_counts. upholds_auto. Qed.

Lemma upholds_needs_generation c : upholds (X:=sq) (W:=W) chunk_ok (needs_generation c).
Proof. unfold needs_generation. upholds_auto. Qed.

Lemma upholds_ingest n bs b : upholds (X:=sq) (W:=W) chunk_ok (ingest n bs b).
Proof. unfold ingest. upholds_auto. Qed.
Hint Resolve upholds_mark_processed upholds_cleanup upholds_queue_counts upholds_needs_generation upholds_ingest : uphold.

Lemma upholds_queue_tick : upholds (X:=sq) (W:=W) chunk_ok tick.
Proof.
  unfold tick, get_processed, drain_finished_processed_fetch, consume_processed_fetch_task, ensure_processed_prefetch,
    take_ready_processed, drain_finished_completed_cleanup, consume_completed_cleanup_task, reclaim_abandoned_batches_if_due.
  upholds_auto.
Qed.

Lemma apply_config_chunk c q : chunk_ok q -> chunk_ok (apply_config c q).
Proof.
  intros [_ Hcap]. split; [|exact Hcap]. unfold apply_config. cbn. unfold clamp, MIN_BATCH_SIZE. lia.
Qed.

Lemma observe_eval_chunk n ms q : chunk_ok q -> chunk_ok (observe_completed_eval_batch n ms q).
Proof.
  intros Hq. unfold observe_completed_eval_batch. destruct (_ || _); [done|].
  set (q' := set_eval_ms_per_sample _ q). assert (chunk_ok q') as Hq' by exact Hq. clearbody q'.
  unfold tune_batch_size. cbv zeta. repeat case_match; try exact Hq'.
  all: destruct Hq' as [_ Hcap]; split; [|exact Hcap]; cbn; unfold clamp, MIN_BATCH_SIZE; lia.
Qed.

Lemma production_chunk remaining q : chunk_ok q ->
  chunk_ok (production_batch_size remaining q).1 /\ 1 <= (production_batch_size remaining q).2.
Proof.
  intros [Hsize Hcap]. unfold production_batch_size, training_batch_size, chunk_ok, current_batch_size, MIN_BATCH_SIZE.
  destruct remaining as [n|]; [|by cbn]. destruct (_ && _); [|by cbn]. destruct (_ || _); cbn; [lia|].
  destruct (tbs_cap _); cbn; lia.
Qed.
End queue_keeps.
#[export] Hint Resolve upholds_gets upholds_world upholds_world_try upholds_now upholds_pump upholds_finish upholds_flush upholds_ready
  upholds_mark_processed upholds_cleanup upholds_queue_counts upholds_needs_generation upholds_ingest upholds_queue_tick : uphold.

(** ** The runner's own steps *)

Lemma slice_nr_samples {Rng} (l l' : LatentBatch Rng) start n c :
  slice_at l start n c = Some (Ok l') -> nr_samples l' = n.
Proof.
  unfold slice_at, mbind, option_bind. intros H. repeat case_match; simplify_eq/=; try done.
  apply result_bind_ok in H as (states & _ & H). by simplify_eq.
Qed.

Lemma take_loop_samples {Rng} slots chunk (draw draw' : BufferedDraw Rng) batches r :
  0 <= chunk -> next_sample draw <= nr_samples (bd_batch draw) -> take_loop slots chunk draw batches = Some (draw', r) ->
  bd_batch draw' = bd_batch draw /\ next_sample draw <= next_sample draw' <= nr_samples (bd_batch draw) /\
  match r with
  | Ok out =>
      zsum (map nr_samples out) - zsum (map nr_samples batches) = next_sample draw' - next_sample draw /\
      (length out <= length batches + slots)%nat /\
      zsum (map nr_samples out) - zsum (map nr_samples batches) <= Z.of_nat slots * chunk
  | Err _ => True
  end.
Proof.
  intros Hchunk. revert draw batches. induction slots as [|slots IH]; intros draw batches Hle; cbn [take_loop].
  { intros [= <- <-]. split; [done|lia]. }
  destruct (_ =? 0) eqn:E.
  { intros [= <- <-]. split; [done|]. split_and!; [lia..|nia]. }
  unfold mbind, option_bind. destruct (slice_at _ _ _ _) as [[batch|e]|] eqn:Es; cbn; [| |done].
  - intros H. apply IH in H as (Hb & Hn & Hr); cbn in *; [|lia]. split; [done|]. split; [lia|].
    destruct r as [out|]; [|done]. rewrite map_app, zsum_app, length_app in Hr. cbn [map zsum foldr length] in Hr.
    apply slice_nr_samples in Es. rewrite Es in Hr. split_and!; [lia..|nia].
  - destruct e. intros [= <- <-]. split; [done|lia].
Qed.

Lemma take_batches_samples {Rng} slots chunk (g g' : GenerationBuffer Rng) r :
  0 <= chunk -> take_batches slots chunk g = Some (g', r) ->
  pending_samples g' <= pending_samples g /\
  match r with
  | Ok out =>
      zsum (map nr_samples out) + pending_samples g' <= pending_samples g /\
      zlen out <= Z.max 0 slots /\ zsum (map nr_samples out) <= Z.max 0 slots * chunk
  | Err _ => True
  end.
Proof.
  intros Hchunk. unfold take_batches. destruct (chunk =? 0). { by intros [= <- <-]. }
  unfold pending_samples at 2 4. destruct (pending g) as [draw|] eqn:Ep.
  2:{ intros [= <- <-]. unfold pending_samples. rewrite Ep. unfold zlen. cbn [map zsum foldr length]. nia. }
  destruct (ensure_coordinate draw) as [d|e] eqn:Ed.
  2:{ intros [= <- <-]. unfold pending_samples. rewrite Ep. lia. }
  assert (bd_batch d = bd_batch draw /\ next_sample d = next_sample draw) as [<- <-].
  { unfold ensure_coordinate in Ed. destruct (next_coordinate draw); [by simplify_eq|].
    apply result_bind_ok in Ed as (? & _ & Ed). apply result_bind_ok in Ed as (? & _ & Ed). by simplify_eq. }
  destruct (_ && _) eqn:Ew.
  { intros [= <- <-]. zbool. unfold pending_samples, usize_saturating_sub, zlen, zsum. cbn [set_pending pending map foldr length]. nia. }
  destruct (next_sample d >=? _) eqn:Ege.
  { intros [= <- <-]. unfold pending_samples. cbn. lia. }
  zbool. destruct (take_loop _ _ d []) as [[d' r']|] eqn:El; [|done].
  apply take_loop_samples in El as (Hb & Hn & Hr); [|lia|lia]. unfold mbind, option_bind.
  destruct r' as [out|e]; intros [= <- <-]; unfold pending_samples, usize_saturating_sub; cbn.
  - destruct Hr as (Hr & Hlen & Hbound). cbn [map zsum foldr length] in *. unfold zlen.
    destruct (next_sample d' =? _); cbn; rewrite ?Hb; split_and!; try lia; nia.
  - cbn. rewrite Hb. lia.
Qed.

Section runner.
Context {J : Type} {TV : TomlValues} {E : Type} {LM : Libm} {OB : Observables} {Rng : Type}.
Context {W Sm : Type} {QW : QueueWorld W (EvaluationBatch Rng) BatchResult}
  {RS : @RunnerWorld J TV E OB Rng W} {SO : @SamplerOps J Rng Sm} {JS : @Json J OB}.
Notation Run := (@Runner J TV E OB Rng W Sm).
Notation M := (SE (Run * W) RunnerError).
Variable info : @RunnerInfo J E.
Implicit Types r : Run.

(** Samples handed to the queue or buffered for it. *)
Definition drawn r : Z := task_produced (task r) + pending_samples (generation (runtime_state r)).

(** Before the first result is back, at most one small work unit is out. *)
Definition gate (p : SamplerProgress Rng) : Prop :=
  match accumulator_checkpoint_state p with
  | NeedsInitialRoundTrip => produced_batches_total p = 0 /\ produced_samples_total p = 0
  | WaitingForInitialRoundTrip => produced_batches_total p <= 1 /\ produced_samples_total p <= MIN_BATCH_SIZE
  | Ready => True
  end.

(** The task's sample target, and how far the task's count of produced samples
    is ahead of the sampler's own. *)
Definition books r : option i64 * Z :=
  (sample_target (task_spec (task r)), task_produced (task r) - produced_samples_total (runtime_state r)).

(** [quiet t0 d0 r]: the books stand at [t0] and at most [d0] samples are drawn. *)
Definition quiet (t0 : option i64 * Z) (d0 : Z) r : Prop :=
  chunk_ok (sampler_queue r) /\ books r = t0 /\ drawn r <= d0 /\ gate (runtime_state r).

Section quiet.
Variables (t0 : option i64 * Z) (d0 : Z).

Lemma upholds_rgets {A} (f : Run -> A) : upholds (W:=W) (quiet t0 d0) (rgets f).
Proof. apply upholds_get. Qed.
Lemma upholds_rnow : upholds (X:=Run) (W:=W) (quiet t0 d0) rnow.
Proof. by intros s s' x [= <- _]. Qed.
Lemma upholds_rstore {A} (f : W -> W * result StoreError A) : upholds (X:=Run) (quiet t0 d0) (rstore f).
Proof. intros s s' x. unfold rstore. destruct (f s.2). by intros [= <- _]. Qed.
Lemma upholds_world_call {A} (f : W -> W * A) :
  upholds (X:=Run) (E:=RunnerError) (quiet t0 d0) (fun s => let '(w, a) := f s.2 in ((s.1, w), Ok a)).
Proof. intros s s' x. destruct (f s.2). by intros [= <- _]. Qed.
Lemma upholds_engine {A} (m : result EngineError A) : upholds (X:=Run) (W:=W) (quiet t0 d0) (engine m).
Proof. apply upholds_lift. Qed.
Lemma upholds_rmodify (f : Run -> Run) : (forall r, quiet t0 d0 r -> quiet t0 d0 (f r)) -> upholds (W:=W) (quiet t0 d0) (rmodify f).
Proof. intros Hf. apply upholds_modify. intros s. apply Hf. Qed.
Lemma upholds_on_queue {A} (m : SE (SamplerQueue W (EvaluationBatch Rng) BatchResult * W) StoreError A) :
  upholds chunk_ok m -> upholds (X:=Run) (quiet t0 d0) (on_queue m).
Proof.
  intros Hm s s' x. unfold on_queue. destruct (m _) as [[q w] y] eqn:Em. intros [= <- _] [Hq Ht].
  split; [exact (Hm _ _ _ Em Hq)|exact Ht].
Qed.
Lemma upholds_on_queue_state f :
  (forall q, chunk_ok q -> chunk_ok (f q)) -> upholds (X:=Run) (W:=W) (quiet t0 d0) (on_queue_state f).
Proof. intros Hf. apply upholds_rmodify. intros r [Hq Ht]. split; [by apply Hf|exact Ht]. Qed.
Lemma upholds_on_sampler {A} (m : SE Sm EngineError A) : upholds (X:=Run) (W:=W) (quiet t0 d0) (on_sampler m).
Proof. intros s s' x. unfold on_sampler. destruct (m _). by intros [= <- _]. Qed.
Lemma upholds_on_progress f :
  (forall p, pending_samples (generation (f p)) = pending_samples (generation p)) -> (forall p, gate p -> gate (f p)) ->
  (forall p, produced_samples_total (f p) = produced_samples_total p) ->
  upholds (X:=Run) (W:=W) (quiet t0 d0) (on_progress f).
Proof.
  intros Hf Hg Hn. apply upholds_rmodify. intros r (Hq & Ht & Hd & Hgate). split_and!; [exact Hq| | |by apply Hg].
  - unfold books. cbn. rewrite Hn. exact Ht.
  - unfold drawn. cbn. rewrite Hf. exact Hd.
Qed.
Lemma upholds_on_generation {A} (m : SE (GenerationBuffer Rng) EngineError A) :
  (forall g, pending_samples (m g).1 <= pending_samples g) -> upholds (X:=Run) (W:=W) (quiet t0 d0) (on_generation m).
Proof.
  intros Hm s s' x. unfold on_generation. pose proof (Hm (generation (runtime_state s.1))) as H.
  destruct (m _) as [g y]. intros [= <- _] (Hq & Ht & Hd & Hg). split_and!; [exact Hq|exact Ht| |exact Hg]. etrans; [|exact Hd]. apply Z.add_le_mono_l. exact H.
Qed.
End quiet.
End runner.
#[export] Hint Resolve upholds_rgets upholds_rnow upholds_rstore upholds_world_call upholds_engine upholds_on_queue upholds_on_sampler : uphold.
#[export] Hint Extern 1 (upholds (quiet _ _) (rmodify _)) => (apply upholds_rmodify; intros ? H; exact H) : uphold.
#[export] Hint Extern 1 (upholds (quiet _ _) (observe _ _)) => (apply upholds_rmodify; intros ? H; exact H) : uphold.
#[export] Hint Extern 1 (upholds (quiet _ _) (on_progress _)) => (apply upholds_on_progress; [reflexivity|intros ? H; first [exact H|exact I]|reflexivity]) : uphold.

Section steps.
Context {J : Type} {TV : TomlValues} {E : Type} {LM : Libm} {OB : Observables} {Rng : Type}.
Context {W Sm : Type} {QW : QueueWorld W (EvaluationBatch Rng) BatchResult}
  {RS : @RunnerWorld J TV E OB Rng W} {SO : @SamplerOps J Rng Sm} {JS : @Json J OB}.
Notation Run := (@Runner J TV E OB Rng W Sm).
Variable info : @RunnerInfo J E.
Implicit Types r : Run.
Variables (t0 : option i64 * Z) (d0 : Z).

Lemma queue_tuning_target tuning (t t' : @RunTaskSpec J TV E) :
  set_sample_queue_tuning tuning t = Ok t' -> sample_target t' = sample_target t.
Proof.
  unfold set_sample_queue_tuning. destruct t; try done. intros H. apply result_bind_ok in H as ([] & _ & H). by simplify_eq.
Qed.

Lemma upholds_refresh : upholds (X:=Run) (quiet t0 d0) (refresh_live_queue_tuning info).
Proof.
  unfold refresh_live_queue_tuning. apply upholds_bind; [upholds_step|intros now].
  apply upholds_bind; [upholds_step|intros last]. destruct (_ <? _); [upholds_step|].
  apply upholds_bind; [upholds_step|intros _]. apply upholds_bind; [upholds_step|intros active].
  destruct active as [active|]; [|upholds_step]. intros s s' x. unfold se_bind at 1. cbn [rgets se_get].
  destruct (negb _); [by intros [= <- _]|]. destruct (opt_eqb _ _ _); [by intros [= <- _]|].
  unfold se_bind at 1, engine, se_lift. destruct (set_sample_queue_tuning _ _) as [spec|e] eqn:Es; cbn [map_err]; [|by intros [= <- _]].
  intros [= <- _] [Hq Ht]. split; [by apply apply_config_chunk|].
  split; [|apply Ht]. unfold books. cbn. rewrite (queue_tuning_target _ _ _ Es). apply Ht.
Qed.

Lemma accept_feedback_pending values (g : GenerationBuffer Rng) :
  pending_samples (accept_feedback values g).1 = pending_samples g.
Proof.
  unfold accept_feedback, se_bind, se_get, se_lift, se_modify, se_fail, se_ret. cbn.
  repeat case_match; simplify_eq/=; done.
Qed.

Lemma upholds_ingest_batch b totals : upholds (X:=Run) (W:=W) (quiet t0 d0) (ingest_batch b totals).
Proof.
  unfold ingest_batch, observe_evaluation, ingest_feedback. upholds_auto.
  - apply upholds_on_queue_state. intros q. apply observe_eval_chunk.
  - apply upholds_on_generation. intros g. by rewrite accept_feedback_pending.
  - intros s s' x. unfold merge_result. destruct (state_merge _ _). by intros [= <- _].
Qed.

Lemma upholds_process l : upholds (X:=Run) (W:=W) (quiet t0 d0) (process_completed_batches l).
Proof.
  unfold process_completed_batches. destruct l as [|b l]; [upholds_step|]. remember (b :: l) as completed. clear.
  assert (forall totals, upholds (X:=Run) (W:=W) (quiet t0 d0) (ingest_batches completed totals)) as Hingest.
  { induction completed as [|b' l' IH]; intros totals; cbn [ingest_batches]; [upholds_step|].
    apply upholds_bind; [apply upholds_ingest_batch|auto]. }
  upholds_auto.
Qed.

Lemma upholds_consume_flush t : upholds (X:=Run) (W:=W) (quiet t0 d0) (consume_aggregation_flush_task t).
Proof. unfold consume_aggregation_flush_task. upholds_auto. Qed.
Hint Resolve upholds_refresh upholds_process upholds_consume_flush : uphold.

Lemma upholds_flush_aggregation force : upholds (X:=Run) (W:=W) (quiet t0 d0) (flush_aggregation info force).
Proof. unfold flush_aggregation, drain_finished_aggregation_flush, aggregation_snapshot. upholds_auto. Qed.

Lemma upholds_flush_progress force : upholds (X:=Run) (W:=W) (quiet t0 d0) (flush_progress_sync info force).
Proof. unfold flush_progress_sync. upholds_auto. Qed.

Lemma upholds_flush_performance force : upholds (X:=Run) (W:=W) (quiet t0 d0) (flush_performance_snapshot info force).
Proof.
  unfold flush_performance_snapshot, discrete_mass_diagnostics, take_sampler_window_snapshot, evaluator_fleet_snapshot.
  apply upholds_bind; [upholds_step|intros now]. apply upholds_bind; [upholds_step|intros r0].
  destruct (negb _); [upholds_step|]. apply upholds_bind; [upholds_step|intros d].
  apply upholds_bind; [upholds_auto|intros masses]. cbv zeta.
  match goal with |- upholds _ (se_bind _ (fun r => let '(q, queue) := _ in se_bind _ (fun _ => @?k queue))) =>
    enough (forall queue, upholds (X:=Run) (W:=W) (quiet t0 d0) (k queue)) as Hk end.
  - intros s s' x Hs Hsafe. apply (Hk _ _ _ _ Hs). exact Hsafe.
  - intros queue. cbv beta. upholds_auto.
Qed.

Lemma upholds_rate d : upholds (X:=Run) (W:=W) (quiet t0 d0) (update_completed_samples_per_second d).
Proof. unfold update_completed_samples_per_second. upholds_auto. Qed.

Lemma upholds_drain n : upholds (X:=Run) (W:=W) (quiet t0 d0) (drain_ready n).
Proof. induction n; cbn [drain_ready]; upholds_auto. Qed.
Hint Resolve upholds_flush_aggregation upholds_flush_progress upholds_flush_performance upholds_rate upholds_drain : uphold.

Lemma upholds_persist_checkpoint kind : upholds (X:=Run) (W:=W) (quiet t0 d0) (persist_sampler_checkpoint info kind).
Proof.
  unfold persist_sampler_checkpoint. do 3 (apply upholds_bind; [upholds_step|intros ?]).
  assert (upholds (X:=Run) (W:=W) (quiet t0 d0) (save_checkpoint info kind)) as Hsave.
  { unfold save_checkpoint, drain_local_work_on_stop, checkpoint_sampler_uptime_now, saved_sampler. upholds_auto. }
  intros s s' x. destruct (save_checkpoint info kind s) as [s1 [?|?]] eqn:Es; [|destruct (r_record_checkpoint_status _ _ _)];
    intros [= <- _]; exact (Hsave _ _ _ Es).
Qed.
Hint Resolve upholds_persist_checkpoint : uphold.

Lemma upholds_persist_state : upholds (X:=Run) (W:=W) (quiet t0 d0) (persist_state info).
Proof. unfold persist_state, observe_option. upholds_auto. Qed.

(** Dispatching respects the gate when it is open, or for the first unit. *)
Definition may_dispatch (slots chunk_size : usize) (p : SamplerProgress Rng) : Prop :=
  accumulator_checkpoint_state p = Ready \/
  slots = 1 /\ chunk_size = MIN_BATCH_SIZE /\ accumulator_checkpoint_state p = WaitingForInitialRoundTrip /\
  produced_batches_total p = 0 /\ produced_samples_total p = 0.

Lemma enqueue_quiet slots chunk_size (s s' : Run * W) x : 0 <= chunk_size ->
  enqueue_generated info slots chunk_size s = (s', x) -> may_dispatch slots chunk_size (runtime_state s.1) ->
  quiet t0 d0 s.1 -> quiet t0 d0 s'.1.
Proof.
  intros Hchunk Hrun Hmay. revert Hrun. unfold enqueue_generated, se_bind at 1. cbn [rgets se_get].
  unfold se_bind at 1, on_generation at 1, take_batches_m.
  set (g := generation (runtime_state s.1)).
  destruct (take_batches slots chunk_size g) as [[g' y]|] eqn:Et.
  2:{ intros [= <- _]. done. }
  apply take_batches_samples in Et as [Hle Hsum]; [|done].
  assert (quiet t0 d0 s.1 -> quiet t0 d0 (set_runtime_state (set_generation g' (runtime_state s.1)) s.1)) as Hquiet.
  { intros (Hq & Ht & Hd & Hg). split_and!; [exact Hq|exact Ht| |exact Hg]. etrans; [|exact Hd]. apply Z.add_le_mono_l. exact Hle. }
  destruct y as [out|e]; [|by intros [= <- _]]. cbn [map_err]. unfold se_bind at 1. cbn [rgets se_get].
  unfold se_bind at 1, engine, se_lift. destruct (state_config _) as [c|e]; cbn [map_err]; [|by intros [= <- _]].
  intros Hrun (Hq & Ht & Hd & Hg). revert Hrun. unfold se_bind at 1, rmodify, se_modify.
  match goal with |- ?m _ = _ -> _ => assert (upholds (X:=Run) (W:=W) (quiet t0 d0) m) as Hm by upholds_auto end.
  intros Hrun. eapply Hm; [exact Hrun|]. destruct Hsum as (Hsum & Hlen & Hbound). split_and!; [exact Hq| | |].
  - rewrite <- Ht.
    change ((sample_target (task_spec (task s.1)), task_produced (task s.1) + zsum (map nr_samples out) -
      (produced_samples_total (runtime_state s.1) + zsum (map nr_samples out))) = books s.1).
    unfold books. f_equal. lia.
  - etrans; [|exact Hd].
    change (task_produced (task s.1) + zsum (map nr_samples out) + pending_samples g' <= task_produced (task s.1) + pending_samples g).
    lia.
  - destruct Hmay as [Hready|(-> & -> & Hwait & Hb & Hn)].
    + unfold gate. change (match accumulator_checkpoint_state (runtime_state s.1) with
        | NeedsInitialRoundTrip => produced_batches_total (runtime_state s.1) + zlen out = 0 /\
            produced_samples_total (runtime_state s.1) + zsum (map nr_samples out) = 0
        | WaitingForInitialRoundTrip => produced_batches_total (runtime_state s.1) + zlen out <= 1 /\
            produced_samples_total (runtime_state s.1) + zsum (map nr_samples out) <= MIN_BATCH_SIZE
        | Ready => True end). by rewrite Hready.
    + unfold gate. change (match accumulator_checkpoint_state (runtime_state s.1) with
        | NeedsInitialRoundTrip => produced_batches_total (runtime_state s.1) + zlen out = 0 /\
            produced_samples_total (runtime_state s.1) + zsum (map nr_samples out) = 0
        | WaitingForInitialRoundTrip => produced_batches_total (runtime_state s.1) + zlen out <= 1 /\
            produced_samples_total (runtime_state s.1) + zsum (map nr_samples out) <= MIN_BATCH_SIZE
        | Ready => True end). rewrite Hwait, Hb, Hn. lia.
Qed.

Lemma dispatch_quiet (s s' : Run * W) x :
  (let! sc := slots_and_chunk in let! n := enqueue_generated info sc.1 sc.2 in se_ret (n, true)) s = (s', x) ->
  accumulator_checkpoint_state (runtime_state s.1) <> WaitingForInitialRoundTrip ->
  quiet t0 d0 s.1 -> quiet t0 d0 s'.1.
Proof.
  assert (forall slots chunk (s1 s2 : Run * W) y, 0 <= chunk -> may_dispatch slots chunk (runtime_state s1.1) -> quiet t0 d0 s1.1 ->
    (let! n := enqueue_generated info slots chunk in se_ret (n, true)) s1 = (s2, y) -> quiet t0 d0 s2.1) as Hk.
  { intros slots chunk s1 s2 y Hc Hmay Hs Hrun. revert Hrun. unfold se_bind.
    destruct (enqueue_generated info slots chunk s1) as [s3 z] eqn:Ee.
    pose proof (enqueue_quiet _ _ _ _ _ Hc Ee Hmay Hs). destruct z; by intros [= <- _]. }
  unfold slots_and_chunk. unfold se_bind at 1 2. cbn [rgets se_get]. case_bool_decide as Hneeds.
  - intros Hrun _ Hs. pose proof Hs as (_ & _ & _ & Hg). unfold gate in Hg. rewrite Hneeds in Hg.
    refine (Hk 1 MIN_BATCH_SIZE _ _ _ _ _ _ Hrun); [unfold MIN_BATCH_SIZE; lia|right; split_and!; try done; apply Hg|].
    destruct Hs as (Hq & Ht & Hd & _). split_and!; [exact Hq|exact Ht|exact Hd|].
    unfold gate. cbn. destruct Hg as [-> ->]. unfold MIN_BATCH_SIZE. lia.
  - unfold se_bind at 1. cbn [rgets se_get]. intros Hrun Hwait (Hq & Ht & Hd & Hg).
    destruct (production_chunk (Generation.training_remaining (generation (runtime_state s.1))) (sampler_queue s.1) Hq) as [Hq' Hc].
    cbn in Hrun. destruct (production_batch_size _ _) as [q size].
    refine (Hk _ size _ _ _ _ _ _ Hrun); [cbn in Hc; lia|left|done].
    change (accumulator_checkpoint_state (runtime_state s.1) = Ready).
    by destruct (accumulator_checkpoint_state (runtime_state s.1)).
Qed.

(** What a refill may add: at most the generation size of the queue, never past
    the target, nor past the allowance of a campaign. *)
Definition refill_bound (r : Run) (n : Z) : Prop :=
  n <= max_generation_size (queue_params r) /\
  (forall target, sample_target (task_spec (task r)) = Some target -> task_produced (task r) + n <= target) /\
  (campaign_managed r = Some false \/
   exists w w' allowance,
     r_campaign_sample_allowance (ri_run_id info) (task_id (task r)) w = (w', Ok allowance) /\
     forall a, allowance = Some a -> task_produced (task r) + n <= a).

Lemma campaign_allowance_cases (s s' : Run * W) x :
  campaign_allowance info s = (s', x) ->
  (exists m w, s' = (set_campaign_managed m s.1, w)) /\
  forall allowance, x = Ok allowance ->
    campaign_managed s.1 = Some false /\ allowance = None \/
    exists w w', r_campaign_sample_allowance (ri_run_id info) (task_id (task s.1)) w = (w', Ok allowance).
Proof.
  unfold campaign_allowance, se_bind at 1. cbn [rgets se_get]. case_bool_decide as Hm.
  { intros [= <- <-]. split; [|intros a [= <-]; by left]. exists (campaign_managed s.1), s.2. by destruct s. }
  unfold se_bind at 1. cbn [rgets se_get]. unfold se_bind at 1, rstore.
  destruct (r_campaign_sample_allowance _ _ _) as [w y] eqn:Ea. destruct y as [value|e]; cbn.
  - intros [= <- <-]. split; [eauto|]. intros a [= <-]. right. eauto.
  - intros [= <- <-]. split; [|done]. by exists (campaign_managed s.1), w.
Qed.

Lemma quiet_weaken d d' r : d <= d' -> quiet t0 d r -> quiet t0 d' r.
Proof. intros Hle (Hq & Ht & Hd & Hg). split_and!; [done..|lia|done]. Qed.

Lemma buffer_generated_quiet started batch training (s s' : Run * W) x :
  buffer_generated started batch training s = (s', x) ->
  chunk_ok (sampler_queue s.1) -> books s.1 = t0 ->
  has_pending (generation (runtime_state s.1)) = false -> gate (runtime_state s.1) ->
  quiet t0 (task_produced (task s.1) + Z.max 0 (nr_samples batch)) s'.1.
Proof.
  intros Hrun Hq Ht Hp Hgate. unfold buffer_generated in Hrun. unfold se_bind at 1, on_generation at 1, buffer_draw in Hrun.
  unfold se_bind at 1 in Hrun. cbn [se_get] in Hrun. rewrite Hp in Hrun.
  assert (forall g, pending_samples g <= Z.max 0 (nr_samples batch) ->
    quiet t0 (task_produced (task s.1) + Z.max 0 (nr_samples batch)) (set_runtime_state (set_generation g (runtime_state s.1)) s.1)) as Hg.
  { intros g Hle. split_and!; [exact Hq|exact Ht| |exact Hgate]. apply Z.add_le_mono_l. exact Hle. }
  assert (pending_samples (generation (runtime_state s.1)) = 0) as Hp0.
  { unfold pending_samples, has_pending in *. by destruct (pending _). }
  unfold se_bind at 1, se_lift in Hrun. destruct (engine_error_of _); cbn [map_err] in Hrun.
  2:{ injection Hrun as <- _. apply Hg. lia. }
  unfold se_modify at 1 in Hrun. cbn [map_err] in Hrun. match type of Hrun with ?m _ = _ =>
    assert (upholds (X:=Run) (W:=W) (quiet t0 (task_produced (task s.1) + Z.max 0 (nr_samples batch))) m) as Hm end.
  { clear. upholds_auto. apply upholds_on_generation. intros g. apply Z.eq_le_incl. reflexivity. }
  eapply Hm; [exact Hrun|]. apply Hg. unfold pending_samples, usize_saturating_sub. cbn. lia.
Qed.

Lemma draw_ok_le max_samples batch training :
  draw_ok (Rng:=Rng) max_samples batch training = true -> nr_samples batch <= max_samples.
Proof. unfold draw_ok. intros H. zbool. lia. Qed.

Lemma budget_le r budget target n :
  active_sample_remaining_budget r = Ok budget -> sample_target (task_spec (task r)) = Some target ->
  n <= default usize_max budget -> pending_samples (generation (runtime_state r)) = 0 -> task_produced (task r) + n <= target.
Proof.
  unfold active_sample_remaining_budget. intros Hb Ht Hn Hp. rewrite Ht, Hp in Hb. destruct (_ <? 0) eqn:E0; [done|].
  injection Hb as <-. zbool. cbn in Hn. revert Hn E0. unfold i64_saturating_sub, i64_max, i64_min.
  change (wrap_i64 0) with 0. lia.
Qed.

Lemma refill_cases c s s' x :
  refill info c s = (s', x) -> quiet t0 d0 s.1 -> has_pending (generation (runtime_state s.1)) = false ->
  quiet t0 d0 s'.1 \/
  exists n, refill_bound s.1 n /\ quiet t0 (task_produced (task s.1) + n) s'.1.
Proof.
  intros Hrun Hs Hpend. unfold refill in Hrun. unfold se_bind at 1 in Hrun. cbn [rgets se_get] in Hrun.
  destruct (finished _); [left; injection Hrun as <- _; exact Hs|].
  unfold se_bind at 1 in Hrun. cbn [rgets se_get] in Hrun. unfold se_bind at 1, se_lift at 1 in Hrun. unfold id in Hrun.
  destruct (active_sample_remaining_budget s.1) as [budget|e] eqn:Eb; [|left; injection Hrun as <- _; exact Hs].
  unfold se_bind at 1 in Hrun.
  match type of Hrun with (let (_, _) := ?m s in _) = _ =>
    assert (m s = (s, (m s).2)) as Estop by (destruct (bool_decide _); [done|]; unfold se_bind, se_lift; by destruct (stop_condition_status s.1)) end.
  rewrite Estop in Hrun. clear Estop. destruct (_ s).2 as [[]|e] in Hrun; [left; injection Hrun as <- _; exact Hs| |left; injection Hrun as <- _; exact Hs].
  unfold se_bind at 1, on_queue in Hrun.
  destruct (needs_generation c (sampler_queue s.1, s.2)) as [[q w] y] eqn:En.
  assert (quiet t0 d0 (set_sampler_queue q s.1)) as Hs1.
  { destruct Hs as [Hq Hs]. split; [exact (upholds_needs_generation _ _ _ _ En Hq)|done]. }
  destruct y as [needed|e]; cbn [map_err] in Hrun; [|left; injection Hrun as <- _; exact Hs1].
  destruct (negb needed); [left; injection Hrun as <- _; exact Hs1|].
  unfold se_bind at 1 in Hrun. destruct (campaign_allowance info _) as [s2 y] eqn:Ec.
  apply campaign_allowance_cases in Ec as [(m & w2 & ->) Hallow].
  destruct y as [allowance|e]; [|left; injection Hrun as <- _; exact Hs1].
  specialize (Hallow _ eq_refl). unfold se_bind at 1 in Hrun. cbn [rgets se_get] in Hrun.
  case_bool_decide; [left; injection Hrun as <- _; exact Hs1|].
  do 2 (unfold se_bind at 1 in Hrun; cbn [rgets se_get rnow] in Hrun).
  unfold se_bind at 1, on_sampler in Hrun. destruct (s_generate _ _) as [sm y] in Hrun.
  destruct y as [y|e]; cbn [map_err] in Hrun; [|left; injection Hrun as <- _; exact Hs1].
  destruct y as [batch training| |]; [|left; injection Hrun as <- _; exact Hs1|].
  2:{ left. revert Hrun. match goal with |- ?m _ = _ -> _ => assert (upholds (X:=Run) (W:=W) (quiet t0 d0) m) as Hm end.
      { clear. upholds_auto. apply upholds_on_generation. intros g. apply Z.eq_le_incl. reflexivity. }
      intros Hrun. eapply Hm; [exact Hrun|]. exact Hs1. }
  destruct (draw_ok _ _ _) eqn:Eok; cbn [negb] in Hrun; [|left; injection Hrun as <- _; exact Hs1].
  apply draw_ok_le in Eok. revert Hrun. unfold se_bind at 1.
  destruct (buffer_generated _ _ _ _) as [s3 y] eqn:Eg. intros Hrun.
  assert (s' = s3) as -> by (destruct y; by injection Hrun as <- _). clear Hrun.
  destruct Hs as (Hq & Ht & Hd & Hg), Hs1 as (Hq1 & _).
  pose proof (buffer_generated_quiet _ _ _ _ _ _ Eg Hq1 Ht Hpend Hg) as Hquiet.
  assert (pending_samples (generation (runtime_state s.1)) = 0) as Hp0.
  { unfold pending_samples, has_pending in *. by destruct (pending _). }
  change (task_produced (task s.1) + pending_samples (generation (runtime_state s.1)) <= d0) in Hd.
  destruct (Z.le_gt_cases 0 (nr_samples batch)) as [Hn|Hn].
  2:{ left. refine (quiet_weaken _ _ _ _ Hquiet).
      change (task_produced (task s.1) + Z.max 0 (nr_samples batch) <= d0). lia. }
  right. exists (nr_samples batch). split.
  2:{ refine (quiet_weaken _ _ _ _ Hquiet).
      change (task_produced (task s.1) + Z.max 0 (nr_samples batch) <= task_produced (task s.1) + nr_samples batch). lia. }
  clear - Eb Eok Hallow H Hp0. unfold min_option in Eok. split; [|split].
  - change (nr_samples batch <= Z.min (Z.min (max_generation_size (queue_params s.1)) (default usize_max budget))
      (default usize_max (option_map (fun a => Z.max 0 (i64_saturating_sub a (task_produced (task s.1)))) allowance))) in Eok. lia.
  - intros target Htarget. eapply budget_le; [done..| |done]. lia.
  - destruct Hallow as [[Hm _]|(w0 & w' & Hw)]; [by left|right]. exists w0, w', allowance. split; [exact Hw|].
    intros a ->. cbn [option_map] in *.
    change (Some (Z.max 0 (i64_saturating_sub a (task_produced (task s.1)))) <> Some 0) in H.
    cbn [default] in Eok. change (nr_samples batch <= Z.min (Z.min (max_generation_size (queue_params s.1)) (default usize_max budget))
      (Z.max 0 (i64_saturating_sub a (task_produced (task s.1))))) in Eok.
    assert (Z.max 0 (i64_saturating_sub a (task_produced (task s.1))) <> 0) as H0 by congruence.
    unfold i64_saturating_sub, i64_min, i64_max in *. lia.
Qed.
End steps.
#[export] Hint Resolve upholds_refresh upholds_process upholds_consume_flush upholds_flush_aggregation upholds_flush_progress
  upholds_flush_performance upholds_rate upholds_drain upholds_persist_checkpoint upholds_persist_state : uphold.

Section tick.
Context {J : Type} {TV : TomlValues} {E : Type} {LM : Libm} {OB : Observables} {Rng : Type}.
Context {W Sm : Type} {QW : QueueWorld W (EvaluationBatch Rng) BatchResult}
  {RS : @RunnerWorld J TV E OB Rng W} {SO : @SamplerOps J Rng Sm} {JS : @Json J OB}.
Notation Run := (@Runner J TV E OB Rng W Sm).
Variable info : @RunnerInfo J E.
Implicit Types r : Run.

Lemma refill_state st c :
  upholds (W:=W) (fun r => accumulator_checkpoint_state (runtime_state r) = st) (refill info c).
Proof.
  set (P := fun r : Run => _ = st).
  assert (forall A (m : SE _ StoreError A), upholds (X:=Run) (W:=W) P (on_queue m)) as Hqueue.
  { intros A m s s' x. unfold on_queue. destruct (m _) as [[q w] y]. by intros [= <- _]. }
  assert (forall A (m : SE Sm EngineError A), upholds (X:=Run) (W:=W) P (on_sampler m)) as Hsampler.
  { intros A m s s' x. unfold on_sampler. destruct (m _) as [sm y]. by intros [= <- _]. }
  assert (forall A (m : SE (GenerationBuffer Rng) EngineError A), upholds (X:=Run) (W:=W) P (on_generation m)) as Hgen.
  { intros A m s s' x. unfold on_generation. destruct (m _) as [g y]. by intros [= <- _]. }
  assert (forall A (f : W -> W * result StoreError A), upholds (X:=Run) P (rstore f)) as Hstore.
  { intros A f s s' x. unfold rstore. destruct (f _) as [w y]. by intros [= <- _]. }
  assert (forall A (f : Run -> A), upholds (W:=W) P (rgets f)) as Hget by (intros; apply upholds_get).
  assert (forall f : Run -> Run, (forall r, runtime_state (f r) = runtime_state r) -> upholds (W:=W) P (rmodify f)) as Hmod.
  { intros f Hf. apply upholds_modify. intros s. unfold P. cbn. by rewrite Hf. }
  assert (upholds (W:=W) P rnow) as Hnow by (by intros s s' x [= <- _]).
  unfold refill, campaign_allowance, buffer_generated, observe. upholds_auto.
  all: try (apply Hmod; reflexivity).
Qed.

Lemma produce_cases t0 d0 c (s s' : Run * W) x :
  produce info c s = (s', x) -> quiet t0 d0 s.1 ->
  quiet t0 d0 s'.1 \/
  has_pending (generation (runtime_state s.1)) = false /\
  exists n, refill_bound info s.1 n /\ quiet t0 (task_produced (task s.1) + n) s'.1.
Proof.
  intros Hrun Hs. unfold produce in Hrun. do 2 (unfold se_bind at 1 in Hrun; cbn [rgets se_get rmodify se_modify] in Hrun).
  case_bool_decide; [left; injection Hrun as <- _; exact Hs|].
  unfold se_bind at 1 in Hrun; cbn [rgets se_get] in Hrun. set (s0 := (set_waiting_for_campaign_budget false s.1, s.2)) in *.
  assert (quiet t0 d0 s0.1) as Hs0 by exact Hs.
  set (rest := fun early : option (usize * bool) => match early with
      | Some result => se_ret result
      | None => let! sc := slots_and_chunk in let! n := enqueue_generated info sc.1 sc.2 in se_ret (n, true)
      end : SE (Run * W) RunnerError (usize * bool)).
  assert (forall t d a (s1 s2 : Run * W) y, rest a s1 = (s2, y) ->
    accumulator_checkpoint_state (runtime_state s1.1) <> WaitingForInitialRoundTrip -> quiet t d s1.1 -> quiet t d s2.1) as Hrest.
  { intros t d [a|] s1 s2 y Hr Hw; [|by eapply dispatch_quiet]. injection Hr as <- _. done. }
  fold rest in Hrun. clearbody rest.
  unfold se_bind at 1 in Hrun. destruct (has_pending _) eqn:Ep.
  { left. exact (Hrest _ _ _ _ _ _ Hrun H Hs0). }
  destruct (refill info c s0) as [s1 y] eqn:Er. pose proof (refill_state _ _ _ _ _ Er eq_refl) as Hstate. cbv beta in Hstate.
  apply (refill_cases _ t0 d0) in Er as [Hq|(n & Hn & Hq)]; [| |exact Hs0|exact Ep].
  - left. destruct y as [a|e]; [eapply Hrest; [exact Hrun|by rewrite Hstate|done]|by injection Hrun as <- _].
  - right. split; [done|]. exists n. split; [exact Hn|].
    destruct y as [a|e]; [eapply Hrest; [exact Hrun|by rewrite Hstate|done]|by injection Hrun as <- _].
Qed.

(** Nothing is drawn beyond the task's sample target. *)
Definition within_target r : Prop :=
  forall target, sample_target (task_spec (task r)) = Some target -> drawn r <= target.
Definition safe r : Prop := chunk_ok (sampler_queue r) /\ gate (runtime_state r) /\ within_target r.

Lemma quiet_safe r r' : safe r ->
  quiet (books r) (drawn r) r' -> safe r' /\ books r' = books r.
Proof.
  intros (_ & _ & Hw) (Hq & Ht & Hd & Hg). split; [|done]. split_and!; [done..|]. intros target Htarget. rewrite (f_equal fst Ht : sample_target _ = _) in Htarget.
  specialize (Hw _ Htarget). lia.
Qed.

(** [safe], for a fixed target. *)
Definition safe_for (t0 : option i64 * Z) r : Prop := safe r /\ books r = t0.

Lemma upholds_safe {A} t0 (m : SE (Run * W) RunnerError A) :
  (forall d, upholds (quiet t0 d) m) -> upholds (safe_for t0) m.
Proof.
  intros Hm s s' x Hrun [Hs Ht]. rewrite <- Ht. apply quiet_safe; [done|].
  rewrite Ht. eapply (Hm (drawn s.1)); [exact Hrun|]. destruct Hs as (Hq & Hg & _). by split_and!.
Qed.

Lemma upholds_produce t0 c : upholds (X:=Run) (W:=W) (safe_for t0) (produce info c).
Proof.
  intros s s' x Hrun [Hs Ht]. assert (quiet t0 (drawn s.1) s.1) as Hq by (destruct Hs as (? & ? & _); by split_and!).
  destruct (produce_cases _ _ _ _ _ _ Hrun Hq) as [H|(_ & n & (_ & Hn & _) & Hc' & Ht' & Hd' & Hg')].
  - rewrite <- Ht in *. by apply quiet_safe.
  - split; [|done]. split_and!; [done..|]. intros target Htarget.
    rewrite <- Ht in Ht'. rewrite (f_equal fst Ht' : sample_target _ = _) in Htarget. specialize (Hn _ Htarget). lia.
Qed.
Hint Resolve upholds_produce : uphold.
Hint Extern 2 (upholds (safe_for _) _) => (apply upholds_safe; intros ?; solve [eauto 2 with uphold]) : uphold.

Lemma upholds_tick t0 : upholds (X:=Run) (W:=W) (safe_for t0) (runner_tick info).
Proof. unfold runner_tick, observe_option. upholds_auto. Qed.

Lemma upholds_complete t0 : upholds (X:=Run) (W:=W) (safe_for t0) (complete_task info).
Proof.
  unfold complete_task. apply upholds_bind; [upholds_step|intros _]. apply upholds_bind; [upholds_step|intros t].
  apply upholds_bind; [apply upholds_safe; intros d; upholds_step|intros m]. cbv zeta.
  do 2 (apply upholds_bind; [upholds_step|intros _]). apply upholds_safe. intros d. upholds_step.
Qed.

Lemma upholds_initial t0 : upholds (X:=Run) (W:=W) (safe_for t0) (save_initial_checkpoint info).
Proof. apply upholds_safe. intros d. unfold save_initial_checkpoint. upholds_step. Qed.

(** ** The life of a runner

    Between two calls anything may happen to the world, and the scheduler may
    have moved the background tasks of the queue. *)
Definition same_books r r' : Prop :=
  task r' = task r /\ runtime_state r' = runtime_state r /\
  q_checkpoint (sampler_queue r') = q_checkpoint (sampler_queue r) /\
  training_batch_sizing (sampler_queue r') = training_batch_sizing (sampler_queue r).

Inductive life : Run -> Run -> Prop :=
| life_start r : life r r
| life_background r r1 r2 : life r r1 -> same_books r1 r2 -> life r r2
| life_initial r r1 w s' x : life r r1 -> save_initial_checkpoint info (r1, w) = (s', x) -> life r s'.1
| life_tick r r1 w s' x : life r r1 -> runner_tick info (r1, w) = (s', x) -> life r s'.1
| life_persist r r1 w s' x : life r r1 -> persist_state info (r1, w) = (s', x) -> life r s'.1
| life_complete r r1 w s' x : life r r1 -> complete_task info (r1, w) = (s', x) -> life r s'.1
| life_fail r r1 w s' x reason : life r r1 -> fail_task reason (r1, w) = (s', x) -> life r s'.1.

Lemma life_safe r r' : life r r' -> safe r -> safe_for (books r) r'.
Proof.
  induction 1 as [r|r r1 r2 _ IH Hsame|r r1 w s' x _ IH Hrun|r r1 w s' x _ IH Hrun|r r1 w s' x _ IH Hrun|
    r r1 w s' x _ IH Hrun|r r1 w s' x reason _ IH Hrun]; intros Hs.
  - by split.
  - destruct (IH Hs) as [(Hq & Hg & Hw) Ht]. destruct Hsame as (Etask & Estate & Eck & Esz).
    split; [split_and!|by unfold books; rewrite Etask, Estate].
    + unfold chunk_ok. by rewrite Eck, Esz.
    + by rewrite Estate.
    + intros target. unfold drawn. rewrite Etask, Estate. apply Hw.
  - eapply upholds_initial; [exact Hrun|auto].
  - eapply upholds_tick; [exact Hrun|auto].
  - eapply upholds_safe; [intros d; apply upholds_persist_state|exact Hrun|auto].
  - eapply upholds_complete; [exact Hrun|auto].
  - eapply upholds_safe; [|exact Hrun|auto]. intros d. unfold fail_task. upholds_auto.
Qed.

(** ** Drawing *)

(** Producing draws at most one batch, and only when no draw is waiting:
    never more than the generation size of the queue, than the task's sample
    target leaves, nor than the campaign of the run allows. Otherwise the
    number of drawn samples does not grow; this holds on the error paths too. *)
Theorem produce_within_budgets c (s s' : Run * W) x
  (Hrun : produce info c s = (s', x)) (Hq : chunk_ok (sampler_queue s.1)) (Hg : gate (runtime_state s.1)) :
  sample_target (task_spec (task s'.1)) = sample_target (task_spec (task s.1)) /\
  (drawn s'.1 <= drawn s.1 \/
   has_pending (generation (runtime_state s.1)) = false /\
   exists n, refill_bound info s.1 n /\ drawn s'.1 <= task_produced (task s.1) + n).
Proof.
  destruct (produce_cases (books s.1) (drawn s.1) _ _ _ _ Hrun) as [(_ & Ht%(f_equal fst) & ? & _)|(Hp & n & Hn & _ & Ht%(f_equal fst) & ? & _)].
  - by split_and!.
  - split; [done|by left].
  - split; [done|]. right. split; [done|]. by exists n.
Qed.

Lemma runner_new_chunk now t sm obs params size progress resume :
  chunk_ok (sampler_queue (runner_new info now t sm obs params size progress resume : Run)).
Proof.
  assert (forall ck, chunk_ok (queue_new (W:=W) (Eb:=EvaluationBatch Rng) (R:=BatchResult) now (ri_run_id info) (task_id t) params ck)) as H.
  { intros ck. split; [|done]. unfold queue_new. cbn. unfold clamp, MIN_BATCH_SIZE. lia. }
  unfold runner_new. destruct resume as [c|]; [apply H|]. destruct (_ && _); apply H.
Qed.

(** The samples a new runner starts from: those of the task, or those of the
    checkpoint it resumes. *)
Definition drawn_before (t : @RunTask J TV E) (resume : option (@RunnerCheckpoint J OB Rng)) : Z :=
  match resume with
  | Some c => produced_samples_total (rc_runtime_state c) + pending_samples (generation (rc_runtime_state c))
  | None => task_produced t
  end.

(** The gate a runner starts with. *)
Definition gate_before (resume : option (@RunnerCheckpoint J OB Rng)) : Prop :=
  match resume with Some c => gate (rc_runtime_state c) | None => True end.

(** A fresh start begins at the task's own counts. *)
Lemma runner_new_start now t sm obs params size progress resume :
  let r := runner_new info now t sm obs params size progress resume : Run in
  sample_target (task_spec (task r)) = sample_target (task_spec t) /\ drawn r = drawn_before t resume /\
  (gate_before resume -> gate (runtime_state r)) /\
  (match resume with None => task_produced t = 0 | Some _ => True end -> (books r).2 = 0).
Proof.
  unfold runner_new, drawn, drawn_before, gate_before, books. destruct resume as [c|].
  - cbn. split_and!; try done. lia.
  - cbn. destruct (0 <? task_completed t); split_and!; try done; cbn; lia.
Qed.

Lemma life_from_start now t sm obs params size progress resume r
  (Hstart : forall target, sample_target (task_spec t) = Some target -> drawn_before t resume <= target)
  (Hgate : gate_before resume)
  (Hlife : life (runner_new info now t sm obs params size progress resume) r) :
  safe r /\ sample_target (task_spec (task r)) = sample_target (task_spec t) /\
  (match resume with None => task_produced t = 0 | Some _ => True end -> (books r).2 = 0).
Proof.
  destruct (runner_new_start now t sm obs params size progress resume) as (Ht0 & Hd0 & Hg0 & Hb0).
  destruct (life_safe _ _ Hlife) as [Hs Hb].
  - split_and!; [apply runner_new_chunk|by apply Hg0|]. intros target H. rewrite Ht0 in H. rewrite Hd0. by apply Hstart.
  - split; [done|]. split; [rewrite (f_equal fst Hb : sample_target _ = _); exact Ht0|]. intros H. rewrite Hb. by apply Hb0.
Qed.

(** C2: A runner never draws more samples than its task asks for, whatever its
    store, its sampler and the evaluators do, whenever it is paused, and on
    every error path: from a start within the target, every state of its life
    is within the same target. *)
Theorem never_overdraws now t sm obs params size progress resume r target
  (Htarget : sample_target (task_spec t) = Some target)
  (Hstart : drawn_before t resume <= target) (Hgate : gate_before resume)
  (Hlife : life (runner_new info now t sm obs params size progress resume) r) :
  sample_target (task_spec (task r)) = Some target /\ drawn r <= target.
Proof.
  destruct (life_from_start now t sm obs params size progress resume r) as ((_ & _ & Hw) & Ht & _); [|done..|].
  - intros target' H. by simplify_eq.
  - rewrite Ht. split; [done|]. apply Hw. by rewrite Ht.
Qed.

(** Until the first result is back, whatever happens to a new runner, at
    most one work unit of at most [MIN_BATCH_SIZE] samples is handed out: its
    accumulator is fixed by a small round trip before the task scales up. *)
Theorem initial_round_trip now t sm obs params size progress r
  (Hstart : forall target, sample_target (task_spec t) = Some target -> task_produced t <= target)
  (Hlife : life (runner_new info now t sm obs params size progress None) r)
  (Hwait : accumulator_checkpoint_state (runtime_state r) <> Ready) :
  produced_batches_total (runtime_state r) <= 1 /\ produced_samples_total (runtime_state r) <= MIN_BATCH_SIZE.
Proof.
  destruct (life_from_start now t sm obs params size progress None r) as ((_ & Hg & _) & _); [done..|].
  unfold gate in Hg. destruct (accumulator_checkpoint_state _); [|done..].
  destruct Hg as [-> ->]. unfold MIN_BATCH_SIZE. lia.
Qed.

(** C4: Whenever a runner that started on a new task is interrupted, a runner
    resumed from the checkpoint of that moment stands where it stood: same
    counts of the task, same buffered draw and feedback, same accumulator, same
    cursors into the queue; and it starts within the target again, so that
    nothing is drawn twice or too often across interruptions. *)
Theorem resumes_where_it_stopped now t sm obs params size progress r now' t' sm' params' size' progress' saved
  (Hfresh : task_produced t = 0)
  (Hpositive : forall target, sample_target (task_spec t) = Some target -> 0 <= target)
  (Hlife : life (runner_new info now t sm obs params size progress None) r)
  (Htask : task_spec t' = task_spec (task r)) :
  let c := checkpoint_of saved r in
  let r' := runner_new info now' t' sm' (rc_observable_state c) params' size' progress' (Some c) : Run in
  task_produced (task r') = task_produced (task r) /\ task_completed (task r') = task_completed (task r) /\
  generation (runtime_state r') = generation (runtime_state r) /\ observable_state r' = observable_state r /\
  accumulator_checkpoint_state (runtime_state r') = accumulator_checkpoint_state (runtime_state r) /\
  queue_last_completed (sampler_queue r') = queue_last_completed (sampler_queue r) /\
  last_produced_batch_id (q_checkpoint (sampler_queue r')) = last_produced_batch_id (q_checkpoint (sampler_queue r)) /\
  gate_before (Some c) /\
  forall target, sample_target (task_spec t') = Some target -> drawn_before t' (Some c) <= target.
Proof.
  destruct (life_from_start now t sm obs params size progress None r) as ((_ & Hg & Hw) & Ht & Hb); [|done..|].
  { intros target H. cbn. rewrite Hfresh. by apply Hpositive. }
  specialize (Hb Hfresh). assert (produced_samples_total (runtime_state r) = task_produced (task r)) as Hp.
  { change (task_produced (task r) - produced_samples_total (runtime_state r) = 0) in Hb. lia. }
  cbv zeta. split_and!; try done. intros target Htarget. rewrite Htask in Htarget. cbn. rewrite Hp. by apply Hw.
Qed.
End tick.
