(* ===== verification/RunnerIngest.v ===== *)
(** Ingestion of completed batches by the sampler runner against a reference
    that knows nothing of clocks, windows, counters and queues: feedback goes to
    the sampler draw by draw, results into the accumulator batch by batch. *)
From S2P Require Import Prelude Floats Errors Domain Batch Config LatentBatch Feedback Generation AccumulatorTrait Scalar Stratification Vector Gammaloop AccumulatorState Extraction Evaluation Metrics WorkQueue Queue Tasks Runner.

Section ingest.
Context {J : Type} {TV : TomlValues} {E : Type} {LM : Libm} {OB : Observables} {Rng : Type}.
Context {W Sm : Type} {QW : QueueWorld W (EvaluationBatch Rng) BatchResult}
  {RS : @RunnerWorld J TV E OB Rng W} {SO : @SamplerOps J Rng Sm} {JS : @Json J OB}.
Notation Run := (@Runner J TV E OB Rng W Sm).
Implicit Types r : Run.

(** ** The reference *)

(** What ingestion is about: the sampler, the feedback still incomplete, and
    the accumulator. *)
Definition Core : Type := Sm * GenerationBuffer Rng * AccumulatorState.

Definition missing_feedback : EngineError := EngineE "completed batch requires training but has no training values".
Definition feedback_mismatch : EngineError := EngineE "completed batch training value count mismatch".

Definition ref_feedback (b : CompletedBatch BatchResult) : SE Core EngineError unit :=
  fun '(sm, g, a) =>
    if negb (cb_requires_training_values b) then ((sm, g, a), Ok tt)
    else
      match Evaluation.feedback (cb_result b) with
      | None => ((sm, g, a), Err missing_feedback)
      | Some values =>
          if negb (feedback_len values =? cb_batch_size b) then ((sm, g, a), Err feedback_mismatch)
          else
            let '(g, assembled) := accept_feedback values g in
            match assembled with
            | Err e => ((sm, g, a), Err e)
            | Ok None => ((sm, g, a), Ok tt)
            | Ok (Some draw) => let '(sm, x) := s_feedback draw sm in ((sm, g, a), x)
            end
      end.

Definition ref_merge (b : CompletedBatch BatchResult) : SE Core EngineError unit :=
  fun '(sm, g, a) => let '(a, x) := state_merge (accumulator (cb_result b)) a in ((sm, g, a), x).

Fixpoint ref_ingest (l : list (CompletedBatch BatchResult)) : SE Core EngineError unit :=
  match l with
  | [] => se_ret tt
  | b :: l => ref_feedback b ;! ref_merge b ;! ref_ingest l
  end.

(** ** Simulation *)

Definition core r : Core := (sampler r, generation (runtime_state r), observable_state r).

(** What acknowledges a batch. *)
Definition ledger r := (task r, run_completed_samples r, pending_persisted_completed_batches r,
  accumulator_checkpoint_state (runtime_state r), initial_round_trip_snapshot_pending r,
  queue_last_completed (sampler_queue r)).

(** One step of the simulation: the runner method [m] against [ref]. *)
Definition follows {A} (m : SE (Run * W) RunnerError A) (ref : SE Core EngineError unit) (post : A -> Prop) : Prop :=
  forall s, let '(s', x) := m s in let '(c, y) := ref (core s.1) in
    core s'.1 = c /\ ledger s'.1 = ledger s.1 /\ s'.2 = s.2 /\
    match y with
    | Ok _ => exists a, x = Ok a /\ post a
    | Err e => x = Err (RunnerEngine e)
    end.

Lemma follows_skip {A} (m : SE (Run * W) RunnerError unit) (k : SE (Run * W) RunnerError A) ref post :
  follows m (se_ret tt) (fun _ => True) -> follows k ref post -> follows (m ;! k) ref post.
Proof.
  intros Hm Hk s. unfold se_bind. specialize (Hm s). destruct (m s) as [s1 x]. cbn in Hm.
  destruct Hm as (Hc & Hl & Hw & a & -> & _). specialize (Hk s1). destruct (k s1) as [s2 y].
  rewrite <- Hc, <- Hl, <- Hw. exact Hk.
Qed.

Lemma follows_bind {A B} (m : SE (Run * W) RunnerError A) (k : A -> SE (Run * W) RunnerError B) ref1 ref2 post1 post2 :
  follows m ref1 post1 -> (forall a, post1 a -> follows (k a) ref2 post2) -> follows (se_bind m k) (ref1 ;! ref2) post2.
Proof.
  intros Hm Hk s. unfold se_bind. specialize (Hm s). destruct (m s) as [s1 x], (ref1 (core s.1)) as [c1 y].
  destruct Hm as (Hc & Hl & Hw & Hy). destruct y as [u|e]; [|by subst x].
  destruct Hy as (a & -> & Ha). specialize (Hk a Ha s1). destruct (k a s1) as [s2 y].
  rewrite Hc in Hk. destruct (ref2 c1) as [c2 z]. rewrite <- Hl, <- Hw. exact Hk.
Qed.

Lemma follows_now {A} (k : Z -> SE (Run * W) RunnerError A) ref post :
  (forall t, follows (k t) ref post) -> follows (se_bind rnow k) ref post.
Proof. intros Hk s. exact (Hk _ s). Qed.

Lemma follows_modify (f : Run -> Run) :
  (forall r, core (f r) = core r /\ ledger (f r) = ledger r) -> follows (rmodify f) (se_ret tt) (fun _ => True).
Proof. intros Hf s. cbn. destruct (Hf s.1). split_and!; [done..|]. by exists tt. Qed.

Lemma tune_last (q : SamplerQueue W (EvaluationBatch Rng) BatchResult) n ms :
  queue_last_completed (observe_completed_eval_batch n ms q) = queue_last_completed q.
Proof.
  unfold observe_completed_eval_batch. destruct (_ || _); [done|]. set (q' := set_eval_ms_per_sample _ q).
  assert (queue_last_completed q' = queue_last_completed q) as <- by done. clearbody q'.
  unfold tune_batch_size. cbv zeta. repeat case_match; done.
Qed.

Lemma follows_evaluation b : follows (observe_evaluation b) (se_ret tt) (fun _ => True).
Proof.
  intros s. unfold observe_evaluation. destruct (cb_total_eval_time_ms b) as [ms|]; [|cbn; split_and!; [done..|by exists tt]].
  destruct (0 <? cb_batch_size b); cbn; split_and!; try done; try by exists tt.
  unfold ledger. cbn. by rewrite tune_last.
Qed.

Definition adds_samples (n : Z) (totals totals' : IngestTotals) : Prop := it_samples totals' = it_samples totals + n.

Lemma follows_feedback b totals :
  follows (if cb_requires_training_values b then ingest_feedback b totals else se_ret totals) (ref_feedback b)
    (fun totals' => it_samples totals' = it_samples totals).
Proof.
  intros s. unfold ref_feedback, core. destruct (cb_requires_training_values b); [|cbn; by eauto 8].
  cbn [negb]. unfold ingest_feedback. destruct (Evaluation.feedback _) as [values|]; [|cbn; done].
  destruct (negb _); [cbn; done|]. unfold se_bind at 1, on_generation.
  destruct (accept_feedback values _) as [g [[draw|]|e]]; [| cbn; by eauto 8|done].
  cbn [map_err]. unfold se_bind at 1. cbn [rnow]. unfold se_bind at 1, on_sampler. cbn [fst snd].
  change (sampler (set_runtime_state (set_generation g (runtime_state s.1)) s.1)) with (sampler s.1).
  destruct (s_feedback draw (sampler s.1)) as [sm [[]|e]]; [|done].
  cbn. split_and!; try done. eexists. by split.
Qed.

Lemma follows_batch b totals :
  follows (ingest_batch b totals) (ref_feedback b ;! ref_merge b) (adds_samples (cb_batch_size b) totals).
Proof.
  unfold ingest_batch. cbv zeta. apply follows_skip; [apply follows_evaluation|].
  eapply follows_bind; [apply follows_feedback|]. intros t' Ht'. apply follows_now. intros started s.
  unfold se_bind at 1, merge_result, ref_merge, core. destruct (state_merge _ _) as [a [[]|e]]; [|done].
  cbn. split_and!; try done. eexists. split; [done|]. exact Ht'.
Qed.

Lemma follows_batches l totals :
  follows (ingest_batches l totals) (ref_ingest l) (adds_samples (zsum (map cb_batch_size l)) totals).
Proof.
  revert totals. induction l as [|b l IH]; intros totals; cbn [ingest_batches ref_ingest].
  { intros s. cbn. split_and!; try done. eexists. split; [done|]. unfold adds_samples. cbn. lia. }
  assert (forall ref1 ref2 ref3 : SE Core EngineError unit, forall c, (ref1 ;! ref2 ;! ref3) c = ((ref1 ;! ref2) ;! ref3) c) as Hassoc.
  { intros r1 r2 r3 c. unfold se_bind. destruct (r1 c) as [c1 [?|?]]; [|done]. by destruct (r2 c1) as [c2 [?|?]]. }
  intros s. rewrite Hassoc.
  refine (follows_bind _ _ _ _ _ _ (follows_batch b totals) _ s). intros t' Ht' s'.
  specialize (IH t' s'). destruct (ingest_batches l t' s') as [s1 x], (ref_ingest l _) as [c y].
  destruct IH as (? & ? & ? & Hy). split_and!; try done. destruct y; [|done].
  destruct Hy as (t2 & ? & H2). exists t2. split; [done|]. unfold adds_samples in *. cbn [map].
  rewrite H2, Ht'. rewrite zsum_cons. lia.
Qed.

Lemma mark_processed_spec l x (q : SamplerQueue W (EvaluationBatch Rng) BatchResult) (w : W) :
  last l = Some x -> exists q', mark_processed l (q, w) = ((q', w), Ok tt) /\ queue_last_completed q' = Some (cb_batch_id x).
Proof.
  intros Hl. unfold mark_processed. rewrite Hl. unfold se_bind at 1. cbn [Queue.modify se_modify fst snd].
  unfold ensure_completed_cleanup_if_due, se_bind at 1. cbn.
  destruct (pending_completed_cleanup q); [by eexists|]. unfold se_bind. cbn.
  destruct (_ <? _); cbn; by eexists.
Qed.

(** ** Guarantees *)

(** C3: Ingesting completed batches is the reference: the sampler, the feedback
    still incomplete and the accumulator end as if each batch's feedback had been
    handed over and its result merged in order, and the outcome is the same.
    Batches are acknowledged (the task's and the run's completed samples, the
    queue's cursor) exactly when the whole group was ingested: after an error
    none is, so that a resumed runner fetches all of them again. *)
Theorem ingestion_refines completed (s : Run * W)
  (Hne : completed <> []) (Htask : Forall (fun b => cb_task_id b = task_id (task s.1)) completed) :
  let samples := zsum (map cb_batch_size completed) in
  let '(s', x) := process_completed_batches completed s in
  let '(c, y) := ref_ingest completed (core s.1) in
  core s'.1 = c /\
  match y with
  | Ok _ =>
      x = Ok (mkIngestStats (zlen completed) samples) /\
      task_completed (task s'.1) = task_completed (task s.1) + samples /\
      run_completed_samples s'.1 = run_completed_samples s.1 + samples /\
      queue_last_completed (sampler_queue s'.1) = option_map cb_batch_id (last completed)
  | Err e => x = Err (RunnerEngine e) /\ ledger s'.1 = ledger s.1
  end.
Proof.
  cbv zeta. unfold process_completed_batches. destruct completed as [|b l]; [done|]. clear Hne.
  unfold se_bind at 1. cbn [rgets se_get]. rewrite (proj2 (existsb_false _ _)).
  2:{ eapply Forall_impl; [exact Htask|]. cbn. intros x ->. by rewrite Z.eqb_refl. }
  unfold se_bind at 1. cbn [rgets se_get]. unfold se_bind at 1.
  pose proof (follows_batches (b :: l) (mkIngestTotals 0 0%float 0%float 0) s) as Hsim.
  destruct (ingest_batches _ _ s) as [s1 x], (ref_ingest _ _) as [c y].
  destruct Hsim as (Hc & Hl & Hw & Hy). destruct y as [u|e]; [|by subst x].
  destruct Hy as (totals & -> & Hn). unfold adds_samples in Hn. cbn [it_samples] in Hn. rewrite Z.add_0_l in Hn.
  assert (exists x, last (b :: l) = Some x) as [last_batch Hlast].
  { destruct (last (b :: l)) eqn:El; [by eexists|]. by apply last_None in El. }
  rewrite <- Hn, Hlast. cbn [option_map].
  assert (task_completed (task s1.1) = task_completed (task s.1) /\ run_completed_samples s1.1 = run_completed_samples s.1)
    as [Htc Hrc] by (unfold ledger in Hl; split; congruence).
  unfold se_when, se_bind, on_progress, observe, rmodify, se_modify, se_ret, on_queue. cbn [fst snd].
  destruct (0 <? it_samples totals), (decide (accumulator_checkpoint_state (runtime_state s.1) = WaitingForInitialRoundTrip)) as [Hd|Hd],
    (0 <? it_training_batches totals); rewrite ?(bool_decide_eq_true_2 _ Hd), ?(bool_decide_eq_false_2 _ Hd); cbn [fst snd].
  all: match goal with |- context [mark_processed _ (?q, ?w)] =>
    destruct (mark_processed_spec _ _ q w Hlast) as (q' & -> & Hq') end.
  all: cbn [map_err]; split; [exact Hc|]; split; [done|]; split; [|split; [|exact Hq']].
  all: first [exact (f_equal (fun n => n + it_samples totals) Htc)|exact (f_equal (fun n => n + it_samples totals) Hrc)].
Qed.
End ingest.
