(* ===== verification/RunnerProgress.v ===== *)
(** Progress of the sampler runner: a buffered draw is handed out completely in
    boundedly many ticks. Then its discrete-mass queries: what each asks of the
    sampler. *)
From S2P Require Import Prelude Floats Errors Domain Batch Config LatentBatch Feedback Generation AccumulatorTrait Scalar Stratification Vector Gammaloop AccumulatorState Extraction Evaluation Metrics WorkQueue Queue Tasks Runner RunnerLaws.

(** Every way to succeed leads from [P] to [Q]. *)
Definition carries {X W E A} (P : X -> Prop) (m : SE (X * W) E A) (Q : X -> Prop) : Prop :=
  forall s s' a, m s = (s', Ok a) -> P s.1 -> Q s'.1.
Lemma carries_bind {X W E A B} (m : SE (X * W) E A) (k : A -> SE (X * W) E B) P P' Q :
  carries P m P' -> (forall a, carries P' (k a) Q) -> carries P (se_bind m k) Q.
Proof. intros Hm Hk s s' b. unfold se_bind. destruct (m s) as [s1 [a|e]] eqn:Em; [|done]. intros H HP. eapply Hk, Hm; eauto. Qed.
Lemma carries_upholds {X W E A} (m : SE (X * W) E A) P : upholds P m -> carries P m P.
Proof. intros Hm s s' a. apply Hm. Qed.

Section holds.
Context {J : Type} {TV : TomlValues} {E : Type} {LM : Libm} {OB : Observables} {Rng : Type}.
Context {W Sm : Type} {QW : QueueWorld W (EvaluationBatch Rng) BatchResult}
  {RS : @RunnerWorld J TV E OB Rng W} {SO : @SamplerOps J Rng Sm} {JS : @Json J OB}.
Context {A : Type} {D : Denotation Rng A}.
Notation Run := (@Runner J TV E OB Rng W Sm).
Variable info : @RunnerInfo J E.
Implicit Types (r : Run) (xs : list A).

(** A runner past its first round trip that may send a batch in a tick. *)
Definition dispatching r : Prop :=
  chunk_ok (sampler_queue r) /\ accumulator_checkpoint_state (runtime_state r) = Ready /\ 1 <= max_batches_per_tick (queue_params r).

(** The buffer holds [xs], and [produced] samples of the task were produced. *)
Definition holds xs (produced : Z) r : Prop :=
  dispatching r /\ buffer_items (generation (runtime_state r)) xs /\ task_produced (task r) = produced.

(** *** Everything in a tick but production leaves the buffer alone *)

Section kept.
Variables (xs : list A) (p0 : Z).

Lemma held_rgets {B} (f : Run -> B) : upholds (W:=W) (holds xs p0) (rgets f).
Proof. apply upholds_get. Qed.
Lemma held_rnow : upholds (X:=Run) (W:=W) (holds xs p0) rnow.
Proof. by intros s s' x [= <- _]. Qed.
Lemma held_rstore {B} (f : W -> W * result StoreError B) : upholds (X:=Run) (holds xs p0) (rstore f).
Proof. intros s s' x. unfold rstore. destruct (f s.2). by intros [= <- _]. Qed.
Lemma held_world_call {B} (f : W -> W * B) :
  upholds (X:=Run) (E:=RunnerError) (holds xs p0) (fun s => let '(w, a) := f s.2 in ((s.1, w), Ok a)).
Proof. intros s s' x. destruct (f s.2). by intros [= <- _]. Qed.
Lemma held_engine {B} (m : result EngineError B) : upholds (X:=Run) (W:=W) (holds xs p0) (engine m).
Proof. apply upholds_lift. Qed.
Lemma held_rmodify (f : Run -> Run) : (forall r, holds xs p0 r -> holds xs p0 (f r)) -> upholds (W:=W) (holds xs p0) (rmodify f).
Proof. intros Hf. apply upholds_modify. intros s. apply Hf. Qed.
Lemma held_on_queue {B} (m : SE (SamplerQueue W (EvaluationBatch Rng) BatchResult * W) StoreError B) :
  upholds chunk_ok m -> upholds (X:=Run) (holds xs p0) (on_queue m).
Proof.
  intros Hm s s' x. unfold on_queue. destruct (m _) as [[q w] y] eqn:Em. intros [= <- _] [[Hq Hd] Ht].
  split; [split; [exact (Hm _ _ _ Em Hq)|exact Hd]|exact Ht].
Qed.
Lemma held_on_queue_state f :
  (forall q, chunk_ok q -> chunk_ok (f q)) -> upholds (X:=Run) (W:=W) (holds xs p0) (on_queue_state f).
Proof. intros Hf. apply held_rmodify. intros r [[Hq Hd] Ht]. split; [split; [by apply Hf|exact Hd]|exact Ht]. Qed.
Lemma held_on_sampler {B} (m : SE Sm EngineError B) : upholds (X:=Run) (W:=W) (holds xs p0) (on_sampler m).
Proof. intros s s' x. unfold on_sampler. destruct (m _). by intros [= <- _]. Qed.
Lemma held_on_progress f :
  (forall p, Generation.pending (generation (f p)) = Generation.pending (generation p)) ->
  (forall p, accumulator_checkpoint_state p = Ready -> accumulator_checkpoint_state (f p) = Ready) ->
  upholds (X:=Run) (W:=W) (holds xs p0) (on_progress f).
Proof.
  intros Hf Hg. apply held_rmodify. intros r ((Hq & Hs & Hm) & Hb & Ht). split; [|split; [|exact Ht]].
  - split_and!; [exact Hq|by apply Hg|exact Hm].
  - unfold buffer_items in *. cbn. by rewrite Hf.
Qed.
Lemma held_on_generation {B} (m : SE (GenerationBuffer Rng) EngineError B) :
  (forall g, Generation.pending (m g).1 = Generation.pending g) -> upholds (X:=Run) (W:=W) (holds xs p0) (on_generation m).
Proof.
  intros Hm s s' x. unfold on_generation. pose proof (Hm (generation (runtime_state s.1))) as H.
  destruct (m _) as [g y]. intros [= <- _] (Hd & Hb & Ht). split; [exact Hd|split; [|exact Ht]].
  unfold buffer_items in *. cbn in *. by rewrite H.
Qed.
End kept.
End holds.
#[export] Hint Resolve held_rgets held_rnow held_rstore held_world_call held_engine held_on_queue held_on_sampler : uphold.
#[export] Hint Extern 1 (upholds (holds _ _) (rmodify _)) => (apply held_rmodify; intros ? H; exact H) : uphold.
#[export] Hint Extern 1 (upholds (holds _ _) (observe _ _)) => (apply held_rmodify; intros ? H; exact H) : uphold.
#[export] Hint Extern 1 (upholds (holds _ _) (on_progress _)) =>
  (apply held_on_progress; [reflexivity|intros ? H; first [exact H|reflexivity]]) : uphold.

Section progress.
Context {J : Type} {TV : TomlValues} {E : Type} {LM : Libm} {OB : Observables} {Rng : Type}.
Context {W Sm : Type} {QW : QueueWorld W (EvaluationBatch Rng) BatchResult}
  {RS : @RunnerWorld J TV E OB Rng W} {SO : @SamplerOps J Rng Sm} {JS : @Json J OB}.
Context {A : Type} {D : Denotation Rng A}.
Notation Run := (@Runner J TV E OB Rng W Sm).
Variable info : @RunnerInfo J E.
Implicit Types (r : Run) (xs : list A).

Section kept.
Variables (xs : list A) (p0 : Z).

(** Live tuning changes the sizes, not the number of batches per tick. *)
Lemma held_refresh :
  1 <= max_batches_per_tick (ri_base_queue_config info) -> upholds (X:=Run) (holds xs p0) (refresh_live_queue_tuning info).
Proof.
  intros Hbase. unfold refresh_live_queue_tuning. apply upholds_bind; [upholds_step|intros now].
  apply upholds_bind; [upholds_step|intros last]. destruct (_ <? _); [upholds_step|].
  apply upholds_bind; [upholds_step|intros _]. apply upholds_bind; [upholds_step|intros active].
  destruct active as [active|]; [|upholds_step]. intros s s' x. unfold se_bind at 1. cbn [rgets se_get].
  destruct (negb _); [by intros [= <- _]|]. destruct (opt_eqb _ _ _); [by intros [= <- _]|].
  unfold se_bind at 1, engine, se_lift. destruct (set_sample_queue_tuning _ _) as [spec|e] eqn:Es; cbn [map_err]; [|by intros [= <- _]].
  intros [= <- _] ((Hq & Hs & Hm) & Hb & Ht). split; [|split; [exact Hb|exact Ht]].
  split; [by apply apply_config_chunk|split; [exact Hs|]]. cbn. unfold effective_queue_config_for_tuning. by case_match.
Qed.

Lemma accept_feedback_keeps values (g : GenerationBuffer Rng) :
  Generation.pending (accept_feedback values g).1 = Generation.pending g.
Proof.
  unfold accept_feedback, se_bind, se_get, se_lift, se_modify, se_fail, se_ret. cbn.
  repeat case_match; simplify_eq/=; done.
Qed.

Lemma held_ingest_batch b totals : upholds (X:=Run) (W:=W) (holds xs p0) (ingest_batch b totals).
Proof.
  unfold ingest_batch, observe_evaluation, ingest_feedback. upholds_auto.
  - apply held_on_queue_state. intros q. apply observe_eval_chunk.
  - apply held_on_generation. intros g. apply accept_feedback_keeps.
  - intros s s' x. unfold merge_result. destruct (state_merge _ _). by intros [= <- _].
Qed.

Lemma held_process l : upholds (X:=Run) (W:=W) (holds xs p0) (process_completed_batches l).
Proof.
  unfold process_completed_batches. destruct l as [|b l]; [upholds_step|]. remember (b :: l) as completed. clear.
  assert (forall totals, upholds (X:=Run) (W:=W) (holds xs p0) (ingest_batches completed totals)) as Hingest.
  { induction completed as [|b' l' IH]; intros totals; cbn [ingest_batches]; [upholds_step|].
    apply upholds_bind; [apply held_ingest_batch|auto]. }
  upholds_auto.
Qed.

Lemma held_consume_flush t : upholds (X:=Run) (W:=W) (holds xs p0) (consume_aggregation_flush_task t).
Proof. unfold consume_aggregation_flush_task. upholds_auto. Qed.
Hint Resolve held_refresh held_process held_consume_flush : uphold.

Lemma held_flush_aggregation force : upholds (X:=Run) (W:=W) (holds xs p0) (flush_aggregation info force).
Proof. unfold flush_aggregation, drain_finished_aggregation_flush, aggregation_snapshot. upholds_auto. Qed.

Lemma held_flush_progress force : upholds (X:=Run) (W:=W) (holds xs p0) (flush_progress_sync info force).
Proof. unfold flush_progress_sync. upholds_auto. Qed.

Lemma held_flush_performance force : upholds (X:=Run) (W:=W) (holds xs p0) (flush_performance_snapshot info force).
Proof.
  unfold flush_performance_snapshot, discrete_mass_diagnostics, take_sampler_window_snapshot, evaluator_fleet_snapshot.
  apply upholds_bind; [upholds_step|intros now]. apply upholds_bind; [upholds_step|intros r0].
  destruct (negb _); [upholds_step|]. apply upholds_bind; [upholds_step|intros d].
  apply upholds_bind; [upholds_auto|intros masses]. cbv zeta.
  match goal with |- upholds _ (se_bind _ (fun r => let '(q, queue) := _ in se_bind _ (fun _ => @?k queue))) =>
    enough (forall queue, upholds (X:=Run) (W:=W) (holds xs p0) (k queue)) as Hk end.
  - intros s s' x Hs Hheld. apply (Hk _ _ _ _ Hs). exact Hheld.
  - intros queue. cbv beta. upholds_auto.
Qed.

Lemma held_rate d : upholds (X:=Run) (W:=W) (holds xs p0) (update_completed_samples_per_second d).
Proof. unfold update_completed_samples_per_second. upholds_auto. Qed.
End kept.

Lemma ingest_ok n bs b (q : SamplerQueue W (EvaluationBatch Rng) BatchResult) (w : W) :
  chunk_ok q -> exists q' w', ingest n bs b (q, w) = ((q', w'), Ok tt) /\ chunk_ok q'.
Proof.
  intros Hq. destruct (ingest n bs b (q, w)) as [[q' w'] x] eqn:Ei.
  pose proof (upholds_ingest _ _ _ _ _ _ Ei Hq) as Hq'. unfold ingest, ensure_insert_pump, se_bind in Ei. cbn in Ei.
  injection Ei as _ <-. eauto.
Qed.

Lemma chunks_samples slots chunk xs batches : 0 <= chunk ->
  Forall2 denotes batches (chunks slots chunk xs) ->
  zsum (map nr_samples batches) = zlen (ztake (Z.of_nat slots * chunk) xs).
Proof.
  intros Hc Hf. rewrite <- chunks_concat by done. induction Hf as [|b x bs ys Hd Hf IH]; [done|].
  cbn [map concat]. rewrite zsum_cons, zlen_app, IH. by destruct (denotes_length _ _ Hd) as [-> _].
Qed.

(** *** Production *)

(** With a draw in the buffer production hands out slots of it. *)
Lemma produce_dispatches counts r w xs p0 :
  holds xs p0 r -> xs <> [] ->
  exists r1 slots chunk, produce info counts (r, w) =
      (let! n := enqueue_generated info slots chunk in se_ret (n, true)) (r1, w) /\
    holds xs p0 r1 /\ 1 <= slots /\ 1 <= chunk /\ observable_state r1 = observable_state r.
Proof.
  intros ((Hq & Hready & Hslots) & Hb & Hp) Hne. unfold produce. do 2 (unfold se_bind at 1; cbn [rgets se_get rmodify se_modify]).
  change (accumulator_checkpoint_state (runtime_state (set_waiting_for_campaign_budget false (r, w).1, (r, w).2).1))
    with (accumulator_checkpoint_state (runtime_state r)).
  rewrite bool_decide_eq_false_2 by (by rewrite Hready).
  unfold se_bind at 1. cbn [rgets se_get].
  change (has_pending (generation (runtime_state (set_waiting_for_campaign_budget false (r, w).1, (r, w).2).1)))
    with (has_pending (generation (runtime_state r))).
  assert (has_pending (generation (runtime_state r)) = true) as ->.
  { unfold buffer_items, has_pending in *. by destruct (Generation.pending _). }
  unfold se_bind at 1. cbn [se_ret]. unfold se_bind at 1, slots_and_chunk, se_bind at 1. cbn [rgets se_get fst snd].
  change (accumulator_checkpoint_state (runtime_state (set_waiting_for_campaign_budget false r)))
    with (accumulator_checkpoint_state (runtime_state r)).
  rewrite bool_decide_eq_false_2 by (by rewrite Hready).
  unfold se_bind at 1. cbn [rgets se_get fst snd]. unfold id.
  destruct (production_chunk (Generation.training_remaining (generation (runtime_state r))) (sampler_queue r) Hq) as [Hq' Hsize].
  cbn. destruct (production_batch_size _ _) as [q size]. cbn in Hq', Hsize. cbn.
  exists (set_sampler_queue q (set_waiting_for_campaign_budget false r)), (max_batches_per_tick (queue_params r)), size.
  split; [done|]. split; [|by split_and!]. split; [by split_and!|by split].
Qed.

(** It fails only if the configuration of the accumulator cannot be encoded. *)
Lemma enqueue_buffered slots chunk r w xs p0 :
  holds xs p0 r -> 1 <= slots -> 1 <= chunk ->
  match state_config (observable_state r) with
  | Ok _ => exists r' w' k, enqueue_generated info slots chunk (r, w) = ((r', w'), Ok k) /\
      holds (zdrop (slots * chunk) xs) (p0 + zlen (ztake (slots * chunk) xs)) r'
  | Err e => exists s, enqueue_generated info slots chunk (r, w) = (s, Err (RunnerEngine e))
  end.
Proof.
  intros ((Hq & Hready & Hslots) & Hb & Hp) Hs Hchunk.
  destruct (take_batches_spec _ xs slots chunk Hb) as (g' & out & Ht & Hf & Hb' & _); [lia..|].
  assert (forall s', enqueue_generated info slots chunk (r, w) = s' <->
    (let! accumulator := engine (state_config (observable_state r)) in
     rmodify (count_dispatched (zlen out) (zsum (map nr_samples out))) ;!
     on_queue (ingest (fun b => nr_samples (eb_samples b)) (map (work_unit info accumulator) out)
       (requires_feedback (generation (runtime_state r)))) ;!
     se_ret (zlen out)) (set_runtime_state (set_generation g' (runtime_state r)) r, w) = s') as Heq.
  { intros s'. unfold enqueue_generated, se_bind at 1. cbn [rgets se_get fst].
    unfold se_bind at 1, on_generation, take_batches_m. cbn [fst snd]. rewrite Ht. cbn [map_err].
    unfold se_bind at 1. cbn [rgets se_get fst]. done. }
  destruct (state_config (observable_state r)) as [c|e]; [|by eexists; apply Heq].
  match type of Heq with context [ingest ?f (map (work_unit info _) ?l) ?b] =>
    destruct (ingest_ok f (map (work_unit info c) l) b (sampler_queue r) w Hq) as (q' & w' & Hi & Hq') end.
  do 3 eexists. split.
  { apply Heq. unfold se_bind at 1, engine, se_lift. cbn [map_err]. unfold se_bind at 1, rmodify, se_modify. cbn [fst snd].
    unfold se_bind at 1, on_queue. cbn [fst snd].
    match goal with |- context [ingest ?f ?l ?b (?q, ?w)] => replace (ingest f l b (q, w)) with ((q', w'), @Ok StoreError _ tt) by (symmetry; exact Hi) end.
    reflexivity. }
  split; [split; [exact Hq'|]; split; [exact Hready|exact Hslots]|]. split; [exact Hb'|].
  change (task_produced (task r) + zsum (map nr_samples out) = p0 + zlen (ztake (slots * chunk) xs)).
  rewrite (chunks_samples (Z.to_nat slots) chunk xs out) by (done || lia). by rewrite Z2Nat.id, Hp by lia.
Qed.

(** A runner that holds fewer samples than [xs], the others handed out. *)
Definition hands_out xs (p0 : Z) r : Prop := exists n, 0 < n /\ holds (zdrop n xs) (p0 + zlen (ztake n xs)) r.

Lemma produce_hands_out counts xs p0 : xs <> [] -> carries (holds xs p0) (produce info counts) (hands_out xs p0).
Proof.
  intros Hne [r w] s' a Hrun Hr. destruct (produce_dispatches counts r w xs p0 Hr Hne) as (r1 & slots & chunk & Hp & Hr1 & Hs & Hc & Ho).
  rewrite Hp in Hrun. unfold se_bind in Hrun. pose proof (enqueue_buffered slots chunk r1 w xs p0 Hr1 Hs Hc) as He.
  destruct (state_config _) as [c|e]; [|by destruct He as [s He]; rewrite He in Hrun].
  destruct He as (r' & w' & k & He & Hh). rewrite He in Hrun. injection Hrun as <- _. exists (slots * chunk). split; [nia|exact Hh].
Qed.

Lemma hands_out_upholds {B} (m : SE (Run * W) RunnerError B) xs p0 :
  (forall xs p0, upholds (holds xs p0) m) -> carries (hands_out xs p0) m (hands_out xs p0).
Proof. intros Hm s s' a Hrun (n & Hn & Hh). exists n. split; [done|]. eapply (Hm _ _ s s'); eauto. Qed.

(** *** The tick *)

Hypothesis base_slots : 1 <= max_batches_per_tick (ri_base_queue_config info).
Hint Resolve held_refresh held_process held_flush_aggregation held_flush_progress held_flush_performance held_rate : uphold.

Lemma tick_hands_out xs p0 : xs <> [] -> carries (holds xs p0) (runner_tick info) (hands_out xs p0).
Proof.
  intros Hne. unfold runner_tick.
  apply (carries_bind _ _ _ (holds xs p0)); [apply carries_upholds; auto with uphold|intros _].
  apply (carries_bind _ _ _ (holds xs p0)); [apply carries_upholds; upholds_auto|intros t].
  do 3 (apply (carries_bind _ _ _ (holds xs p0)); [apply carries_upholds; unfold observe_option; upholds_auto|intros _]).
  apply (carries_bind _ _ _ (holds xs p0)); [apply carries_upholds; upholds_auto|intros stats]. cbv zeta.
  apply (carries_bind _ _ _ (holds xs p0)); [apply carries_upholds; upholds_auto|intros _].
  apply (carries_bind _ _ _ (holds xs p0)); [apply carries_upholds; upholds_auto|intros started].
  apply (carries_bind _ _ _ (hands_out xs p0)); [by apply produce_hands_out|intros produced].
  apply hands_out_upholds. intros ys p1. upholds_auto.
Qed.

(** Ticks one after the other, in whatever world each of them begins; none fails. *)
Inductive ticks : nat -> Run -> Run -> Prop :=
| no_tick r : ticks 0 r r
| one_tick k r w r1 w1 b r2 : runner_tick info (r, w) = ((r1, w1), Ok b) -> ticks k r1 r2 -> ticks (S k) r r2.

Lemma items_nil g : buffer_items (D:=D) g [] -> has_pending g = false.
Proof.
  unfold buffer_items, has_pending. destruct (Generation.pending g) as [draw|]; [|done].
  intros (items & _ & Hk & _ & Hnil). apply (f_equal zlen) in Hnil. rewrite zlen_zdrop, zlen_nil in Hnil by lia. lia.
Qed.

(** Each tick shortens what the buffer holds. *)
Lemma drains xs p0 k r r' :
  holds xs p0 r -> ticks k r r' -> (length xs <= k)%nat ->
  exists j r1, (j <= length xs)%nat /\ ticks j r r1 /\ ticks (k - j) r1 r' /\
    has_pending (generation (runtime_state r1)) = false /\ task_produced (task r1) = p0 + zlen xs.
Proof.
  intros Hh Hk. revert xs p0 Hh. induction Hk as [r|k r w r1 w1 b r2 Hrun Hk IH]; intros xs p0 Hh Hlen.
  all: destruct xs as [|x xs].
  1,3: destruct Hh as (_ & Hb & Hp); eexists 0%nat, r; rewrite Nat.sub_0_r, Hp, zlen_nil;
    split_and!; [done|constructor|by econstructor|by apply items_nil|lia].
  { cbn in Hlen. lia. }
  destruct (tick_hands_out (x :: xs) p0 ltac:(done) _ _ _ Hrun Hh) as (n & Hn & Hh1). cbn [fst] in Hh1.
  assert (length (zdrop n (x :: xs)) < length (x :: xs))%nat as Hshort by (unfold zdrop; rewrite length_drop; cbn [length]; lia).
  destruct (IH _ _ Hh1 ltac:(cbn [length] in *; lia)) as (j & r3 & Hj & Hj1 & Hj2 & Hfin & Hp).
  exists (S j), r3. split; [lia|]. split; [by econstructor|]. split; [exact Hj2|]. split; [exact Hfin|].
  rewrite Hp, <- Z.add_assoc, <- zlen_app, ztake_zdrop. done.
Qed.

(** C5: the draw in the buffer of a sampler is handed out. Let the sampler be past its
    initial round trip and allowed at least one batch per tick, now and by the
    configuration it was started with, and let its queue cut batches of at least one
    sample, as every queue does. As long as the configuration of its accumulator can
    be encoded, production does not fail while the buffer holds samples, whatever the
    counts of the queue and the world are. And in any sequence of whole ticks that
    succeed, whatever world each of them meets, at most as many ticks as the draw has
    samples leave the buffer empty, and exactly the samples of the draw were produced
    by then. *)
Theorem draw_is_handed_out r xs k r'
  (Hr : dispatching r) (Hb : buffer_items (generation (runtime_state r)) xs) (Hk : ticks k r r') (Hlen : (length xs <= k)%nat) :
  (forall counts w c, xs <> [] -> state_config (observable_state r) = Ok c ->
     exists s x, produce info counts (r, w) = (s, Ok x)) /\
  exists j r1, (j <= length xs)%nat /\ ticks j r r1 /\ ticks (k - j) r1 r' /\
    has_pending (generation (runtime_state r1)) = false /\
    task_produced (task r1) = task_produced (task r) + zlen xs.
Proof.
  assert (holds xs (task_produced (task r)) r) as Hh by done. split.
  - intros counts w c Hne Hc. destruct (produce_dispatches counts r w xs _ Hh Hne) as (r1 & slots & chunk & -> & Hr1 & Hs & Hch & Ho).
    pose proof (enqueue_buffered slots chunk r1 w xs _ Hr1 Hs Hch) as He. rewrite Ho, Hc in He.
    destruct He as (r2 & w2 & n & He & _). unfold se_bind. rewrite He. by do 2 eexists.
  - by eapply drains.
Qed.
End progress.

(** ** Discrete-mass queries *)

Notation insert_all := (foldl (fun (m : gmap Z Z) '(dim, value) => <[dim := value]> m)).

Lemma insert_all_other (l : list (Z * Z)) m d : d ∉ l.*1 -> insert_all m l !! d = m !! d.
Proof.
  revert m. induction l as [|[k v] l IH]; intros m Hd; [done|]. rewrite fmap_cons, not_elem_of_cons in Hd.
  destruct Hd as [Hk Hd]. cbn [foldl]. rewrite IH by done. by rewrite lookup_insert_ne by auto.
Qed.

Lemma insert_all_elem (l : list (Z * Z)) m d v : NoDup l.*1 -> (d, v) ∈ l -> insert_all m l !! d = Some v.
Proof.
  revert m. induction l as [|[k w] l IH]; intros m Hnd Hel; [by apply elem_of_nil in Hel|].
  rewrite fmap_cons, NoDup_cons in Hnd. destruct Hnd as [Hk Hnd]. apply elem_of_cons in Hel as [Heq|Hel]; cbn [foldl].
  - simplify_eq. by rewrite insert_all_other, lookup_insert_eq.
  - by apply IH.
Qed.

Lemma prefix_keys (p : list Z) d v :
  (d, v) ∈ imap (fun i value => (Z.of_nat i, value)) p <-> zget p d = Some v.
Proof.
  rewrite elem_of_lookup_imap. unfold zget. split.
  - intros (i & x & [= -> ->] & Hi). rewrite (proj2 (Z.leb_le 0 _)) by lia. by rewrite Nat2Z.id.
  - destruct (0 <=? d) eqn:E; [|done]. zbool. intros Hd. exists (Z.to_nat d), v. split; [f_equal; lia|done].
Qed.

Lemma query_keys (p : list Z) (s : DiscreteSubspace) :
  map_Forall (fun d _ => 0 <= d) s ->
  NoDup (imap (fun i value => (Z.of_nat i, value)) p ++
         map (fun '(dim, value) => (dim + zlen p, value)) (map_to_list s)).*1.
Proof.
  intros Hs. rewrite fmap_app. apply NoDup_app. split_and!.
  - rewrite fmap_imap. apply NoDup_alt. intros i j x Hi Hj. apply list_lookup_imap_Some in Hi as (? & _ & ->).
    apply list_lookup_imap_Some in Hj as (? & _ & Heq). cbn in Heq. lia.
  - intros d Hd Hd'. apply list_elem_of_fmap in Hd as ([d1 v] & -> & Hv). apply prefix_keys in Hv.
    apply list_elem_of_fmap in Hd' as ([d2 w] & Heq & Hw). change (map ?f ?l) with (f <$> l) in Hw.
    apply list_elem_of_fmap in Hw as ([d3 u] & [= -> ->] & Hu%elem_of_map_to_list). specialize (Hs _ _ Hu). cbn in *.
    unfold zget in Hv. destruct (0 <=? d1) eqn:E; [|done]. apply lookup_lt_Some in Hv. unfold zlen in Heq. zbool. lia.
  - change (map ?f ?l) with (f <$> l). rewrite <- list_fmap_compose.
    erewrite (list_fmap_ext _ ((fun d => d + zlen p) ∘ fst)) by (by intros i [d v] _).
    rewrite list_fmap_compose. apply NoDup_fmap_2; [intros x y; lia|]. apply NoDup_fst_map_to_list.
Qed.

(** A discrete-mass query fixes the integrand dimensions of the projection
    behind the stratum's prefix: on the first dimensions it reads the prefix, on
    the later ones the projection's own dimensions, shifted by the prefix's
    length, and nothing else. There is one query per projection key and stratum,
    so that summing the queries of a key marginalizes the strata. *)
Theorem mass_queries_marginalize (subspaces : list DiscreteSubspace) (partition : option StratificationConfig)
  (Hsub : Forall (map_Forall (fun d _ => 0 <= d)) subspaces) :
  let prefixes := match partition with Some p => partition_prefixes p | None => [[]] end in
  let '(width, queries) := integrand_mass_queries subspaces partition in
  width = zlen prefixes /\ zlen queries = zlen subspaces * width /\
  forall i j subspace prefix, subspaces !! i = Some subspace -> prefixes !! j = Some prefix ->
    exists q, queries !! (i * length prefixes + j)%nat = Some q /\
      forall d, q !! d = if (0 <=? d) && (d <? zlen prefix) then zget prefix d else subspace !! (d - zlen prefix).
Proof.
  unfold integrand_mass_queries. set (prefixes := match partition with Some p => partition_prefixes p | None => [[]] end).
  cbv zeta. clearbody prefixes. split; [done|]. split.
  - clear Hsub. induction subspaces as [|s l IH]; [done|]. cbn [map concat]. rewrite zlen_app, zlen_lmap, zlen_cons, IH. lia.
  - intros i j subspace prefix Hi Hj. exists (prefix_query prefix subspace). split.
    + clear Hsub. revert i Hi. induction subspaces as [|s l IH]; intros [|i] Hi; [done..| |]; cbn [map concat].
      * simplify_eq/=. rewrite lookup_app_l by (rewrite length_map; eapply lookup_lt_Some; eauto).
        change (map ?f ?l) with (f <$> l). by rewrite list_lookup_fmap, Hj.
      * rewrite lookup_app_r; rewrite length_map; [|lia]. rewrite <- (IH i Hi). f_equal. lia.
    + assert (map_Forall (fun d _ => 0 <= d) subspace) as Hs.
      { eapply Forall_lookup_1 in Hsub; [exact Hsub|exact Hi]. }
      intros d. unfold prefix_query. pose proof (query_keys prefix subspace Hs) as Hnd.
      destruct ((0 <=? d) && (d <? zlen prefix)) eqn:Ed; zbool.
      * destruct (zget prefix d) as [v|] eqn:Ev.
        -- apply insert_all_elem; [done|]. apply elem_of_app. left. by apply prefix_keys.
        -- unfold zget, zlen in *. destruct (0 <=? d) eqn:E0; [|zbool; lia]. apply lookup_ge_None in Ev. lia.
      * destruct (subspace !! (d - zlen prefix)) as [v|] eqn:Ev.
        -- apply insert_all_elem; [done|]. apply elem_of_app. right. change (map ?f ?l) with (f <$> l).
           apply list_elem_of_fmap. exists (d - zlen prefix, v). split; [f_equal; lia|by apply elem_of_map_to_list].
        -- rewrite insert_all_other; [done|]. rewrite fmap_app, elem_of_app. intros [Hd|Hd].
           ++ apply list_elem_of_fmap in Hd as ([d1 v] & -> & Hv%prefix_keys). cbn in *.
              unfold zget in Hv. destruct (0 <=? d1) eqn:E1; [|done]. apply lookup_lt_Some in Hv. unfold zlen in *. zbool.
              cbn in Ed. lia.
           ++ change (map ?f ?l) with (f <$> l) in Hd. apply list_elem_of_fmap in Hd as ([d1 v] & -> & Hv).
              apply list_elem_of_fmap in Hv as ([d2 w] & [= -> ->] & Hw%elem_of_map_to_list). cbn in Ev.
              by rewrite Z.add_simpl_r, Hw in Ev.
Qed.
