(* ===== verification/RunnerExamples.v ===== *)
(** A sampler runner at work: a store that evaluates every inserted batch at
    once, a sampler of one-dimensional points, and the life of a task of 100
    samples, at which the properties of the runner are instantiated. *)
From S2P Require Import Prelude Floats Errors Domain Batch Config LatentBatch Feedback Generation AccumulatorTrait Scalar Stratification Vector Gammaloop AccumulatorState Extraction Evaluation Metrics WorkQueue Queue Tasks Runner RunnerLaws RunnerIngest RunnerProgress.

#[local] Instance ex_libm : Libm := {| hypot a _ := a; powf a _ := a; powi a _ := a |}.
#[local] Instance ex_observables : Observables := {|
  bundle := unit;
  histogram := unit;
  bundle_default := tt;
  histograms _ := [];
  histogram_bins _ := [];
  histogram_sample_count _ := 0;
  bundle_merge_in_place _ _ := Ok tt
|}.
#[local] Instance ex_toml : TomlValues := {| toml := unit; TFloat _ := tt; TInteger _ := tt |}.

(** ** The store *)

Record ExWorld := mkExWorld {
  ew_clock : Z;
  ew_next_id : Z;
  ew_rows : list (Z * bool * EvaluationBatch unit)
}.

Definition ex_empty : VectorAccumulatorState :=
  vector_from_config ["value"%string] (Component "value") None MaxOrder2.
Definition ex_result (training : bool) (l : LatentBatch unit) : BatchResult :=
  let values := replicate (Z.to_nat (nr_samples l)) 1%float in
  mkBatchResult (if training then Some (feedback_new values) else None)
    (AVector (foldl (fun a v => (ingest_vector_with_details [v] (mkPoint [v] [] []) None None a).1) ex_empty values)).

Definition ex_completed (task : i64) (row : Z * bool * EvaluationBatch unit) : CompletedBatch BatchResult :=
  let '(id, training, b) := row in
  mkCompletedBatch id task training (nr_samples (eb_samples b)) (ex_result training (eb_samples b)) None.

Definition ex_ids (n : usize) (w : ExWorld) : ExWorld * list i64 :=
  (mkExWorld (ew_clock w) (ew_next_id w + n) (ew_rows w), seqZ (ew_next_id w) n).
Definition ex_metrics : InsertBatchesMetrics := mkInsertBatchesMetrics 0%float 0 0%float 0%float 0%float 0%float.

(** The rows beyond the cursor: all evaluated. *)
Definition ew_unseen (after : option i64) (w : ExWorld) : list (Z * bool * EvaluationBatch unit) :=
  filter (fun row => default 0 after < row.1.1) (ew_rows w).

#[local] Instance ex_queue_world : QueueWorld ExWorld (EvaluationBatch unit) BatchResult := {
  w_now w := ew_clock w;
  w_next_batch_ids := ex_ids;
  w_insert_batches _ _ training ids bs w :=
    (mkExWorld (ew_clock w) (ew_next_id w) (ew_rows w ++ zip (map (fun id => (id, training)) ids) bs), Ok ex_metrics);
  w_fetch_completed_batches _ task limit _ after w :=
    (w, Ok (map (ex_completed task)
              (ztake limit (ew_unseen after w))));
  w_get_batch_queue_counts _ _ after w := (w, Ok (mkBatchQueueCounts 0 0 (zlen (ew_unseen after w)) 0));
  w_reclaim_abandoned_batches _ w := (w, Ok 0);
  w_cleanup_consumed_completed_batches _ _ _ w := (w, Ok 0);
  w_count_active_evaluator_nodes _ w := (w, Ok 2);
  w_get_queue_blocker _ _ _ w := (w, Ok None);
  w_notify_work_available _ w := (w, Ok tt)
}.

#[local] Instance ex_runner_world : @RunnerWorld unit ex_toml unit ex_observables unit ExWorld := {
  r_load_active_run_task _ w := (w, Ok None);
  r_campaign_sample_allowance _ _ w := (w, Ok None);
  r_save_aggregation _ _ _ _ _ w := (w, Ok tt);
  r_update_run_task_progress _ _ _ w := (w, Ok tt);
  r_save_run_sample_progress _ _ w := (w, Ok tt);
  r_record_sampler_performance_snapshot _ _ _ w := (w, Ok tt);
  r_get_registered_workers _ w := (w, Ok []);
  r_record_checkpoint_status _ _ w := (w, Ok tt);
  r_save_sampler_checkpoint _ _ _ w := (w, Ok tt);
  r_extract_task_measurement _ _ w := (w, Err "no measurement"%string);
  r_persist_task_measurement_output _ _ w := (w, Ok tt);
  r_complete_run_task _ w := (w, Ok tt);
  r_fail_run_task _ _ w := (w, Ok tt)
}.

(** ** The sampler: draws of up to 40 points, for which it wants feedback; its
    state counts the feedback it saw. *)
Definition ex_draw (n : usize) : LatentBatch unit :=
  let k := Z.to_nat n in
  mkLatentBatch n (IndexedBatch [[]] (replicate k 0) (replicate k 1) (replicate k 0.5%float) (replicate k 1%float)).

#[local] Instance ex_sampler : @SamplerOps unit unit Z := {
  s_generate n s := (s, Ok (GBatch (ex_draw (Z.min n 40)) (Some (Z.min n 40))));
  s_feedback f s := (s + feedback_len f, Ok tt);
  s_discrete_mass_batch l s := (s, Ok (map (fun _ => None) l));
  s_persisted_output s := (s, Ok None);
  s_snapshot s := (s, Ok tt);
  s_diagnostics s := (s, tt)
}.
#[local] Instance ex_json : @Json unit ex_observables := {
  json_is_null _ := false;
  accumulator_json _ := Ok tt;
  accumulator_persistent_json _ := Ok tt;
  with_discrete_mass _ _ := tt
}.

(** ** The task *)

Notation ExRunner := (@Runner unit ex_toml unit ex_observables unit ExWorld Z).

Definition ex_timing : TimingModel := mkTiming 0%float 0%float 0%float 0%float 0.
Definition ex_sampling : @SamplingConfig unit :=
  mkSamplingConfig None (NaiveMonteCarlo (mkNaiveParams 0 0 ex_timing ex_timing ex_timing None None)) None None.
Definition ex_queue_config : SamplerQueueConfig := mkQueueConfig 100%float 64 1024 None 2 8 2 16 3.
Definition ex_info : @RunnerInfo unit unit :=
  mkRunnerInfo 1 "node"%string None tt ex_sampling [] (10 ^ 9) (10 ^ 9) ex_queue_config.
Definition ex_stop : SampleStopCondition := mkStopCondition None (Some 100) None None None.
Definition ex_task : @RunTask unit ex_toml unit :=
  mkRunTask 7 1 "integrate"%string 0 (Sample Pooled false ex_stop None None None None None None) TActive 0 0 None.

Definition ex_start : ExRunner :=
  runner_new ex_info 0 ex_task 0 (AVector ex_empty) ex_queue_config 32 (mkRunProgress 0 0 0%float) None.

(** ** Its life *)

(** The scheduler runs every background task. *)
Definition ex_settle_insert (t : PendingInsertTask ExWorld) (w : ExWorld) : PendingInsertTask ExWorld * ExWorld :=
  let '(h, w) := run_handle (handle t) w in
  (mkPendingInsertTask (first_batch_id t) (batch_count t) (local_pending_at_start t) (db_pending_at_start t) h, w).
Fixpoint ex_settle_inserts (l : list (PendingInsertTask ExWorld)) (w : ExWorld) : list (PendingInsertTask ExWorld) * ExWorld :=
  match l with
  | [] => ([], w)
  | t :: l => let '(t, w) := ex_settle_insert t w in let '(l, w) := ex_settle_inserts l w in (t :: l, w)
  end.
Definition ex_settle (s : ExRunner * ExWorld) : ExRunner * ExWorld :=
  let q := sampler_queue s.1 in
  let '(inserts, w) := ex_settle_inserts (pending_insert_tasks q) s.2 in
  let '(fetch, w) := match pending_processed_fetch q with
                     | Some h => let '(h, w) := run_handle h w in (Some h, w)
                     | None => (None, w)
                     end in
  (set_sampler_queue (set_pending_processed_fetch fetch (set_pending_insert_tasks inserts q)) s.1, w).

(** Ticks and the scheduler alternate, for at most [n] rounds, until a tick
    reports the end of the task or fails. *)
Fixpoint ex_run (n : nat) (s : ExRunner * ExWorld) : nat * (ExRunner * ExWorld) * result RunnerError bool :=
  match n with
  | O => (n, s, Ok false)
  | S n =>
      match runner_tick ex_info s with
      | (s, Ok false) => ex_run n (ex_settle s)
      | (s, r) => (n, s, r)
      end
  end.
Definition ex_world : ExWorld := mkExWorld 0 1 [].

Definition ex_after (n : nat) : ExRunner := (ex_run n (ex_start, ex_world)).1.2.1.

Lemma ex_run_life n (s : ExRunner * ExWorld) : life ex_info ex_start s.1 -> life ex_info ex_start (ex_run n s).1.2.1.
Proof.
  revert s. induction n as [|n IH]; intros s Hs; [exact Hs|]. cbn [ex_run].
  destruct s as [r w]. destruct (runner_tick ex_info (r, w)) as [s x] eqn:Et.
  assert (life ex_info ex_start s.1) as Hl by (eapply life_tick; [exact Hs|exact Et]).
  destruct x as [[]|e]; [exact Hl| |exact Hl]. apply IH. eapply life_background; [exact Hl|].
  unfold ex_settle. destruct (ex_settle_inserts _ _) as [l w1]. destruct (pending_processed_fetch _) as [h|]; [|done].
  by destruct (run_handle h w1).
Qed.

(** The whole task: 100 samples drawn, evaluated and merged; feedback for all of
    them reached the sampler; the last tick reports the end. *)
Example ex_complete :
  let r := ex_after 40 in
  task_produced (task r) = 100 /\ task_completed (task r) = 100 /\ sampler r = 100 /\
  state_sample_count (observable_state r) = 100 /\ (ex_run 40 (ex_start, ex_world)).2 = Ok true.
Proof. vm_compute. done. Qed.

Lemma never_overdraws_witness :
  sample_target (task_spec (task (ex_after 3))) = Some 100 /\ drawn (ex_after 3) <= 100.
Proof.
  apply (never_overdraws ex_info 0 ex_task 0 (AVector ex_empty) ex_queue_config 32 (mkRunProgress 0 0 0%float) None
           (ex_after 3) 100); [done|by vm_compute|done|].
  exact (ex_run_life 3 (ex_start, ex_world) (life_start ex_info ex_start)).
Defined.

Lemma initial_round_trip_witness :
  produced_batches_total (runtime_state (ex_after 1)) <= 1 /\
  produced_samples_total (runtime_state (ex_after 1)) <= MIN_BATCH_SIZE.
Proof.
  apply (initial_round_trip ex_info 0 ex_task 0 (AVector ex_empty) ex_queue_config 32 (mkRunProgress 0 0 0%float)).
  - intros target [= <-]. by vm_compute.
  - exact (ex_run_life 1 (ex_start, ex_world) (life_start ex_info ex_start)).
  - by vm_compute.
Defined.

Lemma produce_within_budgets_witness :
  let s' := (produce ex_info (mkBatchQueueCounts 0 0 0 0) (ex_start, ex_world)).1 in
  sample_target (task_spec (task s'.1)) = sample_target (task_spec (task ex_start)) /\
  (drawn s'.1 <= drawn ex_start \/
   has_pending (generation (runtime_state ex_start)) = false /\
   exists n, refill_bound ex_info ex_start n /\ drawn s'.1 <= task_produced (task ex_start) + n).
Proof.
  apply (produce_within_budgets ex_info (mkBatchQueueCounts 0 0 0 0) (ex_start, ex_world) _
    (produce ex_info (mkBatchQueueCounts 0 0 0 0) (ex_start, ex_world)).2); [by apply surjective_pairing|by split|by vm_compute].
Defined.

(** Interrupted after the fourth tick, in the middle of a draw. *)
Definition ex_saved : @SavedSampler unit := mkSavedSampler ex_sampling tt.
Definition ex_resumed : ExRunner :=
  let c := checkpoint_of ex_saved (ex_after 4) in
  runner_new ex_info 5 ex_task 0 (rc_observable_state c) ex_queue_config 32 (mkRunProgress 0 0 0%float) (Some c).

Lemma resumes_where_it_stopped_witness :
  task_produced (task ex_resumed) = task_produced (task (ex_after 4)) /\
  queue_last_completed (sampler_queue ex_resumed) = queue_last_completed (sampler_queue (ex_after 4)) /\
  drawn_before ex_task (Some (checkpoint_of ex_saved (ex_after 4))) <= 100.
Proof.
  destruct (resumes_where_it_stopped ex_info 0 ex_task 0 (AVector ex_empty) ex_queue_config 32 (mkRunProgress 0 0 0%float)
    (ex_after 4) 5 ex_task 0 ex_queue_config 32 (mkRunProgress 0 0 0%float) ex_saved)
    as (H1 & _ & _ & _ & _ & H2 & _ & _ & H3); [done| | |by vm_compute|].
  - intros target [= <-]. by vm_compute.
  - exact (ex_run_life 4 (ex_start, ex_world) (life_start ex_info ex_start)).
  - split; [exact H1|]. split; [exact H2|]. by apply H3.
Defined.

(** Two batches of the task come back. *)
Definition ex_batches : list (CompletedBatch BatchResult) :=
  [ex_completed 7 (1, false, mkEvaluationBatch None (ex_draw 16) CEmpty);
   ex_completed 7 (2, false, mkEvaluationBatch None (ex_draw 4) CEmpty)].

Lemma ingestion_refines_witness :
  let '(s', x) := process_completed_batches ex_batches (ex_start, ex_world) in
  let '(c, y) := ref_ingest ex_batches (core ex_start) in
  core s'.1 = c /\
  match y with
  | Ok _ =>
      x = Ok (mkIngestStats 2 20) /\ task_completed (task s'.1) = 20 /\
      run_completed_samples s'.1 = 20 /\ queue_last_completed (sampler_queue s'.1) = Some 2
  | Err e => x = Err (RunnerEngine e) /\ ledger s'.1 = ledger ex_start
  end.
Proof. apply (ingestion_refines ex_batches (ex_start, ex_world)); [done|]. by repeat constructor. Defined.

(** A draw of three points in the buffer of a runner past its round trip. *)
Definition ex_buffered : ExRunner :=
  set_runtime_state
    (mkProgress (mkGenerationBuffer (Some (mkBufferedDraw (ex_draw 3) 0 (Some 0) None)) [] false) 0 0 0 0 0%float Ready)
    ex_start.
Definition ex_row : row := ([], [0.5%float], 1%float).
(** Three ticks, of which the first hands out the draw. *)
Definition ex_tick_of (r : ExRunner) : (ExRunner * ExWorld) * result RunnerError bool := runner_tick ex_info (r, ex_world).
Definition ex_tick1 := ex_tick_of ex_buffered.
Definition ex_tick2 := ex_tick_of ex_tick1.1.1.
Definition ex_tick3 := ex_tick_of ex_tick2.1.1.

Lemma tick_eta {A B C} (p : A * B * C) x : p.2 = x -> p = ((p.1.1, p.1.2), x).
Proof. by destruct p as [[] ?]; intros <-. Qed.
Lemma ex_tick_ok r : (ex_tick_of r).2 = Ok false -> ticks ex_info 1 r (ex_tick_of r).1.1.
Proof.
  intros Hr. apply (one_tick ex_info 0 r ex_world (ex_tick_of r).1.1 (ex_tick_of r).1.2 false); [by apply tick_eta|constructor].
Qed.
Lemma ticks_app n m r1 r2 r3 : ticks ex_info n r1 r2 -> ticks ex_info m r2 r3 -> ticks ex_info (n + m) r1 r3.
Proof. induction 1 as [|k r w r' w' x r'' Hrun _ IH]; intros H; [done|]. cbn. by eapply one_tick, IH. Qed.
Lemma ex_three_ticks : ticks ex_info 3 ex_buffered ex_tick3.1.1.
Proof.
  apply (ticks_app 1 2 ex_buffered ex_tick1.1.1); [apply (ex_tick_ok ex_buffered); vm_compute; reflexivity|].
  apply (ticks_app 1 1 ex_tick1.1.1 ex_tick2.1.1); [apply (ex_tick_ok ex_tick1.1.1); vm_compute; reflexivity|].
  apply (ex_tick_ok ex_tick2.1.1). vm_compute. reflexivity.
Qed.

Lemma draw_is_handed_out_witness :
  exists j r1, (j <= 3)%nat /\ ticks ex_info j ex_buffered r1 /\ ticks ex_info (3 - j) r1 ex_tick3.1.1 /\
    has_pending (generation (runtime_state r1)) = false /\
    task_produced (task r1) = task_produced (task ex_buffered) + 3.
Proof.
  refine (proj2 (draw_is_handed_out (D := rows_denotation unit) ex_info _ ex_buffered [ex_row; ex_row; ex_row] 3 ex_tick3.1.1
    _ _ ex_three_ticks _)); [by vm_compute| | |done].
  - split; [by split|]. split; [done|done].
  - exists [ex_row; ex_row; ex_row]. split; [|split; [done|]; split; [by intros c [= <-]|done]].
    split; [|done]. split; [|done]. constructor; [|done..]. by repeat constructor.
Defined.

(** Two strata: a projection on integrand dimension 0 with value 3 is queried
    behind either prefix. *)
Definition ex_strata : StratificationConfig :=
  Voronoi (domain_strata [2]) [([0], [(-1)%float]); ([1], [1%float])] None.

Lemma mass_queries_marginalize_witness :
  exists q, (integrand_mass_queries [{[0 := 3]}] (Some ex_strata)).2 !! 1%nat = Some q /\
    q !! 0 = Some 1 /\ q !! 1 = Some 3 /\ q !! 2 = None.
Proof.
  destruct (mass_queries_marginalize [{[0 := 3]}] (Some ex_strata)) as (_ & _ & H).
  { constructor; [by apply map_Forall_singleton|constructor]. }
  destruct (H 0%nat 1%nat {[0 := 3]} [1]) as (q & Hq & Hv); [done|by vm_compute|].
  exists q. split; [exact Hq|]. rewrite !Hv. by vm_compute.
Defined.
