(* ===== verification/TaskStore.v ===== *)
(** src/stores/queries/tasks.rs, with the run creation and the stage snapshots of
    src/stores/pg_store.rs and src/stores/queries/aggregation.rs: the task queue of a
    run and the snapshots its finished stages leave.

    The columns [task], [measurement_output] and [controller_output] hold JSON
    values, made and read by serde: the class [TaskCodec]. The columns of
    [run_stage_snapshots] are read back as they were written. Each operation is
    one statement or one transaction at the database time [now]; an error rolls
    its rows back, not the sequences it drew. The accounting of CPU time, which
    triggers of the database do, is left out, and so is the CHECK on the JSON
    shape of a stop condition, which every encoded task satisfies. *)
From S2P Require Import Prelude Floats Errors Domain Batch Config LatentBatch Generation AccumulatorTrait Scalar Stratification Vector Gammaloop AccumulatorState Extraction Raster Queue Tasks Runner.

Section task_store.
Context {J : Type} {TV : TomlValues} {E : Type} {LM : Libm} {OB : Observables}.

Notation RunTaskSpec := (@RunTaskSpec J TV E).
Notation RunTaskInput := (@RunTaskInput J TV E).
Notation RunTask := (@RunTask J TV E).
Notation RunStageSnapshot := (@RunStageSnapshot J E OB).

(** [serde_json::to_value] and [from_value], and the canonical TOML text. *)
Class TaskCodec := {
  json_value : Type;
  json_value_eq_dec :: EqDecision json_value;
  ControllerTaskOutput : Type;
  encode_task : RunTaskSpec -> result string json_value;
  decode_task : json_value -> result string RunTaskSpec;
  encode_measurement : TaskMeasurementOutput -> result string json_value;
  decode_measurement : json_value -> result string TaskMeasurementOutput;
  encode_controller : ControllerTaskOutput -> result string json_value;
  decode_controller : json_value -> result string ControllerTaskOutput;
  canonical_task_toml : RunTaskInput -> result string string
}.
Context {TC : TaskCodec}.

(** ** Tables *)

Record TaskTimes := mkTimes {
  started_at : option i64;
  completed_at : option i64;
  failed_at : option i64;
  created_at : i64
}.

Record RunTaskRow := mkTaskRow {
  rt_run_id : i32;
  rt_name : string;
  rt_sequence_nr : i32;
  rt_task : json_value;
  rt_toml : string;
  rt_spawned_from_snapshot_id : option i64;
  rt_state : RunTaskState;
  rt_produced : i64;
  rt_completed : i64;
  rt_failure_reason : option string;
  rt_times : TaskTimes;
  rt_measurement : option json_value;
  rt_controller : option json_value
}.

Record RunParentMetadata := mkParent {
  parent_run_id : i32;
  parent_task_id : option i64;
  spawn_kind : string;
  spawn_label : option string
}.

Record RunsRow := mkRunsRow {
  runs_name : string;
  runs_parent : option RunParentMetadata;
  current_observable : option json_value
}.

Record SnapshotRow := mkSnapshotRow {
  sn_run_id : i32;
  sn_created_at : i64;
  sn_stage : RunStageSnapshot
}.

Record TaskTables := mkTaskTables {
  runs_rows : gmap i32 RunsRow;
  run_tasks : gmap i64 RunTaskRow;
  run_stage_snapshots : gmap i64 SnapshotRow;
  next_run_id : i32;
  next_task_id : i64;
  next_snapshot_id : i64
}.

Definition set_runs (x : gmap i32 RunsRow) (d : TaskTables) : TaskTables :=
  mkTaskTables x (run_tasks d) (run_stage_snapshots d) (next_run_id d) (next_task_id d) (next_snapshot_id d).
Definition set_run_tasks (x : gmap i64 RunTaskRow) (d : TaskTables) : TaskTables :=
  mkTaskTables (runs_rows d) x (run_stage_snapshots d) (next_run_id d) (next_task_id d) (next_snapshot_id d).
Definition set_snapshots (x : gmap i64 SnapshotRow) (d : TaskTables) : TaskTables :=
  mkTaskTables (runs_rows d) (run_tasks d) x (next_run_id d) (next_task_id d) (next_snapshot_id d).
(** [nextval] *)
Definition draw_run_id (d : TaskTables) : TaskTables :=
  mkTaskTables (runs_rows d) (run_tasks d) (run_stage_snapshots d) (next_run_id d + 1) (next_task_id d) (next_snapshot_id d).
Definition draw_task_id (d : TaskTables) : TaskTables :=
  mkTaskTables (runs_rows d) (run_tasks d) (run_stage_snapshots d) (next_run_id d) (next_task_id d + 1) (next_snapshot_id d).
Definition draw_snapshot_id (d : TaskTables) : TaskTables :=
  mkTaskTables (runs_rows d) (run_tasks d) (run_stage_snapshots d) (next_run_id d) (next_task_id d) (next_snapshot_id d + 1).

Definition Tx (A : Type) : Type := SE TaskTables StoreError A.

(** The rows of [before] with the sequences of [after]. *)
Definition rolled_back (before after : TaskTables) : TaskTables :=
  mkTaskTables (runs_rows before) (run_tasks before) (run_stage_snapshots before) (next_run_id after)
    (next_task_id after) (next_snapshot_id after).
Definition transaction {A} (m : Tx A) : Tx A := fun d =>
  match m d with
  | (d', Ok a) => (d', Ok a)
  | (d', Err e) => (rolled_back d d', Err e)
  end.

(** [sqlx::Error::Protocol] and [Decode], as [map_sqlx] shows them *)
Definition protocol {A} (m : result string A) : result StoreError A := map_err Database m.

(** ** Rows *)

(** [RunTask] with the columns only the dashboard and the controllers read. *)
Record StoredTask := mkStored {
  st_task : RunTask;
  st_toml : string;
  st_spawned_from_snapshot_id : option i64;
  st_times : TaskTimes;
  st_produced_including_children : i64;
  st_completed_including_children : i64;
  st_measurement : option TaskMeasurementOutput;
  st_controller : option ControllerTaskOutput
}.

(** [option.map(f).transpose()] *)
Definition transpose {A B} (f : A -> result string B) (o : option A) : result string (option B) :=
  match o with None => Ok None | Some a => let? b := f a in Ok (Some b) end.

Definition decode_task_row (id : i64) (row : RunTaskRow) : result string StoredTask :=
  let? spec := decode_task (rt_task row) in
  let? measurement := transpose decode_measurement (rt_measurement row) in
  let? controller := transpose decode_controller (rt_controller row) in
  Ok (mkStored
        (mkRunTask id (rt_run_id row) (rt_name row) (rt_sequence_nr row) spec (rt_state row) (rt_produced row)
           (rt_completed row) (rt_failure_reason row))
        (rt_toml row) (rt_spawned_from_snapshot_id row) (rt_times row) (rt_produced row) (rt_completed row)
        measurement controller).

Definition set_definition (name : string) (value : json_value) (toml : string) (r : RunTaskRow) : RunTaskRow :=
  mkTaskRow (rt_run_id r) name (rt_sequence_nr r) value toml (rt_spawned_from_snapshot_id r) (rt_state r) (rt_produced r)
    (rt_completed r) (rt_failure_reason r) (rt_times r) (rt_measurement r) (rt_controller r).
Definition set_lifecycle (state : RunTaskState) (reason : option string) (times : TaskTimes) (r : RunTaskRow) : RunTaskRow :=
  mkTaskRow (rt_run_id r) (rt_name r) (rt_sequence_nr r) (rt_task r) (rt_toml r) (rt_spawned_from_snapshot_id r) state
    (rt_produced r) (rt_completed r) reason times (rt_measurement r) (rt_controller r).
Definition set_progress (produced completed : i64) (r : RunTaskRow) : RunTaskRow :=
  mkTaskRow (rt_run_id r) (rt_name r) (rt_sequence_nr r) (rt_task r) (rt_toml r) (rt_spawned_from_snapshot_id r)
    (rt_state r) produced completed (rt_failure_reason r) (rt_times r) (rt_measurement r) (rt_controller r).
Definition set_outputs (spawned : option i64) (measurement controller : option json_value) (r : RunTaskRow) : RunTaskRow :=
  mkTaskRow (rt_run_id r) (rt_name r) (rt_sequence_nr r) (rt_task r) (rt_toml r) spawned (rt_state r) (rt_produced r)
    (rt_completed r) (rt_failure_reason r) (rt_times r) measurement controller.

(** The constraints of [run_tasks] on a row written under [id]: the progress
    CHECK, the unique sequence numbers and names of a run, and its single active
    task. [map_sqlx] gives the name its own message. *)
Definition another (id : i64) (clash : RunTaskRow -> bool) (rows : gmap i64 RunTaskRow) : bool :=
  bool_decide (map_Exists (fun other r => other <> id /\ clash r = true) rows).
Definition row_conflict (id : i64) (r : RunTaskRow) (rows : gmap i64 RunTaskRow) : option StoreError :=
  if negb ((0 <=? rt_produced r) && (0 <=? rt_completed r) && (rt_completed r <=? rt_produced r)) then
    Some (Database "run_tasks_progress_check")
  else if another id (fun o => (rt_run_id o =? rt_run_id r) && (rt_sequence_nr o =? rt_sequence_nr r)) rows then
    Some (Database "run_tasks_sequence_unique")
  else if another id (fun o => (rt_run_id o =? rt_run_id r) && String.eqb (rt_name o) (rt_name r)) rows then
    Some (InvalidInput "task name must be unique within a run")
  else if bool_decide (rt_state r = TActive)
          && another id (fun o => (rt_run_id o =? rt_run_id r) && bool_decide (rt_state o = TActive)) rows then
    Some (Database "idx_run_tasks_active_one_per_run")
  else None.

Definition write_row (id : i64) (r : RunTaskRow) : Tx unit := fun d =>
  match row_conflict id r (run_tasks d) with
  | Some e => (d, Err e)
  | None => (set_run_tasks (<[id := r]> (run_tasks d)) d, Ok tt)
  end.

(** INSERT .. RETURNING id *)
Definition insert_row (r : RunTaskRow) : Tx i64 := fun d =>
  let id := next_task_id d in
  let d := draw_task_id d in
  if bool_decide (is_Some (runs_rows d !! rt_run_id r)) then (let! _ := write_row id r in se_ret id) d
  else (d, Err (Database "run_tasks_run_id_fkey")).

(** UPDATE .. WHERE id = id AND p: how many rows it changed *)
Definition update_row (id : i64) (p : RunTaskRow -> bool) (f : RunTaskRow -> RunTaskRow) : Tx (option RunTaskRow) := fun d =>
  match (run_tasks d !! id : option RunTaskRow) with
  | Some r => if p r then (let! _ := write_row id (f r) in se_ret (Some (f r))) d else (d, Ok None)
  | None => (d, Ok None)
  end.

(** SELECT .. WHERE run_id = run ORDER BY sequence_nr, id *)
Definition queue_le (a b : i64 * RunTaskRow) : Prop :=
  rt_sequence_nr a.2 < rt_sequence_nr b.2 \/ (rt_sequence_nr a.2 = rt_sequence_nr b.2 /\ a.1 <= b.1).
#[export] Instance queue_le_dec : RelDecision queue_le.
Proof. intros a b. unfold Decision, queue_le. apply or_dec; [|apply and_dec]; apply _. Defined.
Definition task_queue (run : i32) (d : TaskTables) : list (i64 * RunTaskRow) :=
  merge_sort queue_le (filter (fun p => rt_run_id p.2 = run) (map_to_list (run_tasks d))).

(** ** Appending tasks *)

Definition wrap_i32 (z : Z) : i32 := (z + 2 ^ 31) mod 2 ^ 32 - 2 ^ 31.

(** SELECT COALESCE(MAX(sequence_nr), 0) + 1, an [INT] sum *)
Definition last_sequence (run : i32) (d : TaskTables) : option i32 :=
  foldr (fun p acc => Some (match acc with Some m => Z.max (rt_sequence_nr p.2) m | None => rt_sequence_nr p.2 end)) None
    (task_queue run d).
Definition next_sequence (run : i32) (d : TaskTables) : result StoreError i32 :=
  let next := default 0 (last_sequence run d) + 1 in
  if next <=? i32_max then Ok next else Err (Database "integer out of range").

Definition pending_row (now : i64) (run : i32) (name : string) (sequence_nr : i32) (value : json_value) (toml : string)
    : RunTaskRow :=
  mkTaskRow run name sequence_nr value toml None TPending 0 0 None (mkTimes None None None now) None None.

(** One round of the loop; [next_sequence + offset as i32] wraps. *)
Definition append_task (now : i64) (run : i32) (sequence_nr : i32) (input : RunTaskInput) : Tx StoredTask :=
  let name := default (generated_task_name (input_task input) sequence_nr) (input_name input) in
  let! value := se_lift (protocol (encode_task (input_task input))) in
  let! toml := se_lift (protocol (canonical_task_toml input)) in
  let row := pending_row now run name sequence_nr value toml in
  let! id := insert_row row in
  se_lift (protocol (decode_task_row id row)).

Fixpoint append_tasks (now : i64) (run : i32) (next : i32) (tasks : list RunTaskInput) : Tx (list StoredTask) :=
  match tasks with
  | [] => se_ret []
  | input :: tasks =>
      let! stored := append_task now run (wrap_i32 next) input in
      let! rest := append_tasks now run (next + 1) tasks in
      se_ret (stored :: rest)
  end.

Definition append_tasks_in_transaction (now : i64) (run : i32) (tasks : list RunTaskInput) : Tx (list StoredTask) :=
  fun d => match next_sequence run d with
           | Ok next => append_tasks now run next tasks d
           | Err e => (d, Err e)
           end.

(** SELECT id FROM runs WHERE id = run FOR UPDATE, fetched as one row *)
Definition lock_run (run : i32) : Tx unit := fun d =>
  if bool_decide (is_Some (runs_rows d !! run)) then (d, Ok tt) else (d, Err (Database "RowNotFound")).

Definition append_run_tasks (now : i64) (run : i32) (tasks : list RunTaskInput) : Tx (list StoredTask) :=
  transaction (lock_run run ;! append_tasks_in_transaction now run tasks).

(** ** Reading tasks *)

Definition load_run_task (id : i64) (d : TaskTables) : result StoreError (option StoredTask) :=
  match (run_tasks d !! id : option RunTaskRow) with
  | Some row => let? t := protocol (decode_task_row id row) in Ok (Some t)
  | None => Ok None
  end.

Definition is_active (r : RunTaskRow) : bool := bool_decide (rt_state r = TActive).
Definition is_pending (r : RunTaskRow) : bool := bool_decide (rt_state r = TPending).

Definition load_active_run_task (run : i32) (d : TaskTables) : result StoreError (option StoredTask) :=
  match find (fun p => is_active p.2) (task_queue run d) with
  | Some (id, row) => let? t := protocol (decode_task_row id row) in Ok (Some t)
  | None => Ok None
  end.

(** The recursive query over the run tree: each task with the runs below it.
    A run is created after its parent, so no path is longer than the table. *)
Definition children_of (run : i32) (d : TaskTables) : list (option i64 * i32) :=
  omap (fun p => parent ← runs_parent p.2; if parent_run_id parent =? run then Some (parent_task_id parent, p.1) else None)
    (map_to_list (runs_rows d)).
Fixpoint descendants (fuel : nat) (d : TaskTables) (level : list (i64 * i32)) : list (i64 * i32) :=
  match fuel with
  | O => []
  | S fuel =>
      level ++ match level with
               | [] => []
               | _ => descendants fuel d (level ≫= fun '(task, run) => map (fun c => (task, c.2)) (children_of run d))
               end
  end.
Definition descendant_runs (run : i32) (d : TaskTables) : list (i64 * i32) :=
  descendants (S (size (runs_rows d))) d
    (omap (fun c => task ← c.1; Some (task, c.2)) (children_of run d)).

(** The sums of a task's descendants, each cast to BIGINT. *)
Definition tasks_of_run (run : i32) (d : TaskTables) : list RunTaskRow := snd <$> task_queue run d.
Definition child_rows (run : i32) (task : i64) (d : TaskTables) : list RunTaskRow :=
  descendant_runs run d ≫= fun '(t, r) => if t =? task then tasks_of_run r d else [].
Definition bigint (z : Z) : result StoreError i64 :=
  if (i64_min <=? z) && (z <=? i64_max) then Ok z else Err (Database "bigint out of range").
Definition add_child_totals (d : TaskTables) (run : i32) (t : StoredTask) : result StoreError StoredTask :=
  match child_rows run (task_id (st_task t)) d with
  | [] => Ok t
  | rows =>
      let? produced := bigint (zsum (map rt_produced rows)) in
      let? completed := bigint (zsum (map rt_completed rows)) in
      Ok (mkStored (st_task t) (st_toml t) (st_spawned_from_snapshot_id t) (st_times t)
            (i64_saturating_add (task_produced (st_task t)) produced)
            (i64_saturating_add (task_completed (st_task t)) completed) (st_measurement t) (st_controller t))
  end.

Definition list_run_tasks (run : i32) (d : TaskTables) : result StoreError (list StoredTask) :=
  let? tasks := try_map (fun '(id, row) => protocol (decode_task_row id row)) (task_queue run d) in
  try_map (add_child_totals d run) tasks.

(** ** The life of a task *)

(** The first pending task of the queue becomes the active one; a stage of a
    worker starts without a live accumulator. *)
Definition clear_observable (run : i32) (d : TaskTables) : TaskTables :=
  set_runs (alter (fun r => mkRunsRow (runs_name r) (runs_parent r) None) run (runs_rows d)) d.

Definition activate_row (now : i64) (r : RunTaskRow) : RunTaskRow :=
  let t := rt_times r in
  set_lifecycle TActive (rt_failure_reason r)
    (mkTimes (Some (default now (started_at t))) (completed_at t) (failed_at t) (created_at t)) r.

Definition activate_next_run_task (now : i64) (run : i32) : Tx (option StoredTask) :=
  transaction (fun d =>
    match find (fun p => is_pending p.2) (task_queue run d) with
    | None => (d, Ok None)
    | Some (id, row) =>
        (let! _ := write_row id (activate_row now row) in
         let! t := se_lift (protocol (decode_task_row id (activate_row now row))) in
         se_when (runs_on_sampler_worker (task_spec (st_task t))) (se_modify (clear_observable run)) ;!
         se_ret (Some t)) d
    end).

(** An UPDATE of one row, whatever it matched. *)
Definition update_task (id : i64) (p : RunTaskRow -> bool) (f : RunTaskRow -> RunTaskRow) : Tx unit :=
  let! _ := update_row id p f in se_ret tt.

Definition update_run_task_progress (id produced completed : i64) : Tx unit :=
  update_task id is_active (set_progress produced completed).

Definition set_run_task_spawn_origin (id : i64) (snapshot : option i64) : Tx unit := fun d =>
  let write := update_task id (fun _ => true) (fun r => set_outputs snapshot (rt_measurement r) (rt_controller r) r) d in
  match snapshot with
  | Some s =>
      if bool_decide (is_Some (run_stage_snapshots d !! s)) || negb (bool_decide (is_Some (run_tasks d !! id))) then write
      else (d, Err (Database "run_tasks_spawned_from_snapshot_fkey"))
  | None => write
  end.

Definition complete_row (now : i64) (r : RunTaskRow) : RunTaskRow :=
  let t := rt_times r in set_lifecycle TCompleted None (mkTimes (started_at t) (Some now) None (created_at t)) r.
Definition complete_run_task (now : i64) (id : i64) : Tx unit :=
  transaction (update_task id is_active (complete_row now)).

Definition fail_row (now : i64) (reason : string) (r : RunTaskRow) : RunTaskRow :=
  let t := rt_times r in
  set_lifecycle TFailed (Some reason) (mkTimes (started_at t) (completed_at t) (Some now) (created_at t)) r.
Definition fail_run_task (now : i64) (id : i64) (reason : string) : Tx unit :=
  transaction (update_task id (fun r => is_pending r || is_active r) (fail_row now reason)).

Definition persist_task_measurement_output (id : i64) (output : TaskMeasurementOutput) : Tx unit :=
  let! value := se_lift (protocol (encode_measurement output)) in
  update_task id (fun _ => true) (fun r => set_outputs (rt_spawned_from_snapshot_id r) (Some value) (rt_controller r) r).
Definition persist_task_controller_output (id : i64) (output : ControllerTaskOutput) : Tx unit :=
  let! value := se_lift (protocol (encode_controller output)) in
  update_task id (fun _ => true) (fun r => set_outputs (rt_spawned_from_snapshot_id r) (rt_measurement r) (Some value) r).

(** ** Editing the queue *)

Definition delete_task (id : i64) (d : TaskTables) : TaskTables := set_run_tasks (delete id (run_tasks d)) d.

Definition remove_pending_run_task (run : i32) (id : i64) : Tx bool := fun d =>
  match (run_tasks d !! id : option RunTaskRow) with
  | Some r => if (rt_run_id r =? run) && is_pending r then (delete_task id d, Ok true) else (d, Ok false)
  | None => (d, Ok false)
  end.

Definition update_run_task_queue_tuning (run : i32) (id : i64) (queue_tuning : option SamplerQueueTuning) : Tx StoredTask :=
  transaction (fun d =>
    match (run_tasks d !! id : option RunTaskRow) with
    | None => (d, Err (Database "run task not found for update"))
    | Some row =>
        (let! current := se_lift (protocol (decode_task_row id row)) in
         let t := st_task current in
         if negb (task_run_id t =? run) then se_fail (Database "run task belongs to another run")
         else if negb (is_pending row || is_active row) then se_fail (Database "run task cannot be updated in this state")
         else
           let! spec := se_lift (protocol (set_sample_queue_tuning queue_tuning (task_spec t))) in
           let! _ := se_lift (protocol (task_validate spec)) in
           let! toml := se_lift (protocol (canonical_task_toml (mkTaskInput (Some (task_name t)) spec))) in
           let! value := se_lift (protocol (encode_task spec)) in
           let! written := update_row id (fun r => (rt_run_id r =? run) && (is_pending r || is_active r))
                             (set_definition (rt_name row) value toml) in
           match written with
           | None => se_fail (Database "run task update raced with a state transition")
           | Some row => se_lift (protocol (decode_task_row id row))
           end) d
    end).

Inductive TaskQueueChange :=
| AppendTasks (tasks : list RunTaskInput)
| ReplaceTask (id : i64) (task : RunTaskInput)
| RemoveTask (id : i64).

(** The rows the edit was validated against. *)
Definition matches_expected (p : i64 * RunTaskRow) (expected : StoredTask) : bool :=
  let t := st_task expected in
  (p.1 =? task_id t) && String.eqb (rt_name p.2) (task_name t) && (rt_sequence_nr p.2 =? task_sequence_nr t)
  && bool_decide (result_ok (encode_task (task_spec t)) = Some (rt_task p.2)).
Definition queue_matches (current : list (i64 * RunTaskRow)) (expected : list StoredTask) : bool :=
  (zlen current =? zlen expected) && forallb (fun '(p, e) => matches_expected p e) (zip current expected).

(** UPDATE .. SET name = .., which is NOT NULL *)
Definition replace_task (id : i64) (task : RunTaskInput) (row : RunTaskRow) : Tx StoredTask :=
  let! value := se_lift (protocol (encode_task (input_task task))) in
  let! toml := se_lift (map_err Internal (canonical_task_toml task)) in
  match input_name task with
  | None => se_fail (Database "null value in column name")
  | Some name =>
      let! _ := write_row id (set_definition name value toml row) in
      se_lift (protocol (decode_task_row id (set_definition name value toml row)))
  end.

Definition apply_task_queue_change (now : i64) (run : i32) (expected : list StoredTask) (change : TaskQueueChange)
    : Tx (list StoredTask) :=
  transaction (lock_run run ;! fun d =>
    if negb (queue_matches (task_queue run d) expected) then
      (d, Err (InvalidInput "task queue changed; reload it before retrying"))
    else
      match change with
      | AppendTasks tasks => append_tasks_in_transaction now run tasks d
      | ReplaceTask id _ | RemoveTask id =>
          match find (fun p => (p.1 =? id) && is_pending p.2) (task_queue run d) with
          | None => (d, Err (InvalidInput "only pending tasks can be changed; reload the task queue"))
          | Some (_, row) =>
              match change with
              | ReplaceTask _ task => (let! t := replace_task id task row in se_ret [t]) d
              | _ => (delete_task id d, Ok [])
              end
          end
      end).

(** ** Stage snapshots *)

Definition is_root (p : SnapshotRow) : bool :=
  let s := sn_stage p in
  stage_queue_empty s && bool_decide (stage_task_id s = None) && bool_decide (stage_sequence_nr s = Some 0).

(** INSERT, with the foreign keys and the unique root of a run *)
Definition insert_run_stage_snapshot (now : i64) (run : i32) (s : RunStageSnapshot) : Tx i64 := fun d =>
  let id := next_snapshot_id d in
  let d := draw_snapshot_id d in
  let row := mkSnapshotRow run now s in
  if negb (bool_decide (is_Some (runs_rows d !! run))) then (d, Err (Database "run_stage_snapshots_run_id_fkey"))
  else if match stage_task_id s with Some t => negb (bool_decide (is_Some (run_tasks d !! t))) | None => false end then
    (d, Err (Database "run_stage_snapshots_task_id_fkey"))
  else if is_root row && bool_decide (map_Exists (fun _ p => sn_run_id p = run /\ is_root p = true) (run_stage_snapshots d)) then
    (d, Err (Database "uq_run_stage_snapshots_root"))
  else (set_snapshots (<[id := row]> (run_stage_snapshots d)) d, Ok id).

Definition save_run_stage_snapshot (now : i64) (run : i32) (s : RunStageSnapshot) : Tx unit :=
  let! _ := insert_run_stage_snapshot now run s in se_ret tt.

(** ORDER BY sequence_nr DESC NULLS LAST, id DESC: is [a] before [b]? *)
Definition later (a b : i64 * SnapshotRow) : bool :=
  match stage_sequence_nr (sn_stage a.2), stage_sequence_nr (sn_stage b.2) with
  | Some x, Some y => (y <? x) || ((x =? y) && (b.1 <? a.1))
  | Some _, None => true
  | None, Some _ => false
  | None, None => b.1 <? a.1
  end.
Definition first_by {A} (before : A -> A -> bool) (l : list A) : option A :=
  foldr (fun a best => match best with Some b => if before b a then Some b else Some a | None => Some a end) None l.

Definition before_sequence (run sequence_nr : i32) (p : SnapshotRow) : bool :=
  (sn_run_id p =? run) && stage_queue_empty (sn_stage p)
  && match stage_sequence_nr (sn_stage p) with None => true | Some n => n <? sequence_nr end.
Definition load_latest_stage_snapshot_before_sequence (run sequence_nr : i32) (d : TaskTables)
    : option (i64 * RunStageSnapshot) :=
  p ← first_by later (filter (fun p => before_sequence run sequence_nr p.2 = true) (map_to_list (run_stage_snapshots d)));
  Some (p.1, sn_stage p.2).

Definition load_stage_snapshot (id : i64) (d : TaskTables) : option (i64 * RunStageSnapshot) :=
  p ← run_stage_snapshots d !! id; Some (id, sn_stage p).

(** The first snapshot a task left: ORDER BY created_at, id *)
Definition earlier (a b : i64 * SnapshotRow) : bool :=
  (sn_created_at a.2 <? sn_created_at b.2) || ((sn_created_at a.2 =? sn_created_at b.2) && (a.1 <? b.1)).
Definition load_task_activation_snapshot (run : i32) (task : i64) (d : TaskTables) : option (i64 * RunStageSnapshot) :=
  p ← first_by earlier (filter (fun p => ((sn_run_id p.2 =? run) && bool_decide (stage_task_id (sn_stage p.2) = Some task)
                                          && stage_queue_empty (sn_stage p.2)) = true)
                          (map_to_list (run_stage_snapshots d)));
  Some (p.1, sn_stage p.2).

(** ** Creating a run *)

(** A child that was created before, by its label: ORDER BY id LIMIT 1 *)
Definition same_spawn (p : RunParentMetadata) (row : RunsRow) : bool :=
  match runs_parent row with
  | Some q => (parent_run_id q =? parent_run_id p) && bool_decide (parent_task_id q = parent_task_id p)
              && String.eqb (spawn_kind q) (spawn_kind p) && bool_decide (spawn_label q = spawn_label p)
  | None => false
  end.
Definition existing_child (p : RunParentMetadata) (d : TaskTables) : option i32 :=
  match parent_task_id p, spawn_label p with
  | Some _, Some _ => fst <$> find (fun q => same_spawn p q.2) (by_key (runs_rows d))
  | _, _ => None
  end.

Definition insert_run (name : string) (parent : option RunParentMetadata) : Tx i32 := fun d =>
  let id := next_run_id d in
  let d := draw_run_id d in
  (set_runs (<[id := mkRunsRow name parent None]> (runs_rows d)) d, Ok id).

Fixpoint insert_initial_tasks (now : i64) (run next : i32) (tasks : list RunTaskInput) : Tx unit :=
  match tasks with
  | [] => se_ret tt
  | input :: tasks =>
      let sequence_nr := wrap_i32 next in
      let name := default (generated_task_name (input_task input) sequence_nr) (input_name input) in
      let! value := se_lift (map_err Internal (encode_task (input_task input))) in
      let! toml := se_lift (map_err Internal (canonical_task_toml input)) in
      let! _ := insert_row (pending_row now run name sequence_nr value toml) in
      insert_initial_tasks now run (next + 1) tasks
  end.

Definition root_snapshot (s : RunStageSnapshot) : RunStageSnapshot :=
  mkStageSnapshot None (stage_name s) (Some 0) (stage_queue_empty s) (stage_sampler_snapshot s) (stage_observable_state s)
    (stage_evaluator s) (stage_batch_transforms s).

Definition create_new_run (now : i64) (name : string) (initial : RunStageSnapshot) (tasks : list RunTaskInput)
    (parent : option RunParentMetadata) : Tx i32 :=
  let! run := insert_run name parent in
  let! _ := insert_run_stage_snapshot now run (root_snapshot initial) in
  insert_initial_tasks now run 1 tasks ;!
  se_ret run.

Definition create_run (now : i64) (name : string) (initial : RunStageSnapshot) (tasks : list RunTaskInput)
    (parent : option RunParentMetadata) : Tx i32 :=
  transaction (
    match parent with
    | None => create_new_run now name initial tasks parent
    | Some p =>
        lock_run (parent_run_id p) ;!
        let! existing := se_get (existing_child p) in
        match existing with
        | Some id => se_ret id
        | None => create_new_run now name initial tasks parent
        end
    end).

End task_store.
