(* ===== verification/TaskQueue.v ===== *)
(** The task queue of src/stores/queries/tasks.rs at work: what every sequence of
    its operations keeps, and what an edit does to the queue a user sees. *)
From S2P Require Import Prelude Floats Errors Domain Batch Config LatentBatch Generation AccumulatorTrait Scalar Stratification Vector Gammaloop AccumulatorState Extraction Raster Queue Tasks Runner TaskStore.

Section task_queue.
Context {J : Type} {TV : TomlValues} {E : Type} {LM : Libm} {OB : Observables} {TC : @TaskCodec J TV E}.

Notation TaskTables := (@TaskTables J TV E OB TC).
Notation RunTaskRow := (@RunTaskRow J TV E TC).
Notation Tx := (@Tx J TV E OB TC).
Notation TaskQueueChange := (@TaskQueueChange J TV E).
Notation StoredTask := (@StoredTask J TV E TC).

(** ** Operations *)

Inductive TaskOp :=
| OpCreateRun (now : i64) (name : string) (initial : @RunStageSnapshot J E OB) (tasks : list (@RunTaskInput J TV E))
    (parent : option RunParentMetadata)
| OpAppend (now : i64) (run : i32) (tasks : list (@RunTaskInput J TV E))
| OpActivate (now : i64) (run : i32)
| OpProgress (id produced completed : i64)
| OpSpawnOrigin (id : i64) (snapshot : option i64)
| OpComplete (now id : i64)
| OpFail (now id : i64) (reason : string)
| OpMeasurement (id : i64) (output : TaskMeasurementOutput)
| OpController (id : i64) (output : ControllerTaskOutput)
| OpRemove (run : i32) (id : i64)
| OpTune (run : i32) (id : i64) (queue_tuning : option SamplerQueueTuning)
| OpChange (now : i64) (run : i32) (expected : list StoredTask) (change : TaskQueueChange)
| OpSnapshot (now : i64) (run : i32) (s : @RunStageSnapshot J E OB).

Definition exec (op : TaskOp) (d : TaskTables) : TaskTables :=
  match op with
  | OpCreateRun now name initial tasks parent => (create_run now name initial tasks parent d).1
  | OpAppend now run tasks => (append_run_tasks now run tasks d).1
  | OpActivate now run => (activate_next_run_task now run d).1
  | OpProgress id produced completed => (update_run_task_progress id produced completed d).1
  | OpSpawnOrigin id snapshot => (set_run_task_spawn_origin id snapshot d).1
  | OpComplete now id => (complete_run_task now id d).1
  | OpFail now id reason => (fail_run_task now id reason d).1
  | OpMeasurement id output => (persist_task_measurement_output id output d).1
  | OpController id output => (persist_task_controller_output id output d).1
  | OpRemove run id => (remove_pending_run_task run id d).1
  | OpTune run id queue_tuning => (update_run_task_queue_tuning run id queue_tuning d).1
  | OpChange now run expected change => (apply_task_queue_change now run expected change d).1
  | OpSnapshot now run s => (save_run_stage_snapshot now run s d).1
  end.

(** The sequence numbers of the tasks an operation appends are [i32] values:
    beyond two thousand million tasks the source wraps. *)
Definition appended (op : TaskOp) : option (option i32 * list (@RunTaskInput J TV E)) :=
  match op with
  | OpCreateRun _ _ _ tasks _ => Some (None, tasks)
  | OpAppend _ run tasks | OpChange _ run _ (AppendTasks tasks) => Some (Some run, tasks)
  | _ => None
  end.
Definition sequence_fits (op : TaskOp) (d : TaskTables) : Prop :=
  match appended op with
  | Some (run, tasks) => default 0 (run ≫= fun run => last_sequence run d) + zlen tasks <= i32_max
  | None => True
  end.
Definition task_step (d d' : TaskTables) : Prop := exists op, sequence_fits op d /\ d' = exec op d.

Definition empty_tables : TaskTables := mkTaskTables ∅ ∅ ∅ 1 1 1.

(** ** What the tables keep *)

Definition terminal (r : RunTaskRow) : Prop := rt_state r = TCompleted \/ rt_state r = TFailed.
(** Work was done for the task, and not given up. *)
Definition started (r : RunTaskRow) : Prop := rt_state r = TActive \/ rt_state r = TCompleted.

Definition progress_ok (r : RunTaskRow) : Prop := 0 <= rt_completed r <= rt_produced r.
Definition unlike (r o : RunTaskRow) : Prop :=
  rt_run_id o = rt_run_id r ->
  rt_sequence_nr o <> rt_sequence_nr r /\ rt_name o <> rt_name r /\ ~ (rt_state r = TActive /\ rt_state o = TActive).

Record tasks_ok (d : TaskTables) : Prop := {
  ok_ids : forall id r, run_tasks d !! id = Some r -> id < next_task_id d;
  ok_task_run : forall id r, run_tasks d !! id = Some r -> is_Some (runs_rows d !! rt_run_id r);
  ok_run_ids : forall run r, runs_rows d !! run = Some r -> run < next_run_id d;
  ok_sequence : forall id r, run_tasks d !! id = Some r -> 1 <= rt_sequence_nr r;
  ok_progress : forall id r, run_tasks d !! id = Some r -> progress_ok r;
  ok_unlike : forall i j r o, run_tasks d !! i = Some r -> run_tasks d !! j = Some o -> i <> j -> unlike r o;
  ok_order : forall i j r s, run_tasks d !! i = Some r -> run_tasks d !! j = Some s ->
    rt_run_id r = rt_run_id s -> rt_sequence_nr r < rt_sequence_nr s -> started s -> terminal r
}.

(** ** Constraints *)

Lemma another_false id (clash : RunTaskRow -> bool) rows :
  another id clash rows = false <-> forall other r, rows !! other = Some r -> other <> id -> clash r = false.
Proof.
  unfold another. rewrite bool_decide_eq_false. unfold map_Exists. split.
  - intros H other r Hr Hne. destruct (clash r) eqn:Ec; [|done]. exfalso. apply H. by exists other, r.
  - intros H (other & r & Hr & Hne & Hc). by rewrite (H other r) in Hc.
Qed.

Lemma row_conflict_none id (r : RunTaskRow) rows :
  row_conflict id r rows = None <->
  progress_ok r /\ forall other o, rows !! other = Some o -> other <> id -> unlike r o.
Proof.
  unfold row_conflict, progress_ok, unlike.
  destruct (Z.leb_spec 0 (rt_produced r)), (Z.leb_spec 0 (rt_completed r)),
    (Z.leb_spec (rt_completed r) (rt_produced r)); cbn [andb negb]; try (split; [done|lia]).
  destruct (another id _ rows) eqn:Es.
  { split; [done|]. intros [_ H']. assert (another id (fun o => (rt_run_id o =? rt_run_id r) && (rt_sequence_nr o =? rt_sequence_nr r)) rows = false) as Hf; [|congruence].
    apply another_false. intros other o Ho Hne. apply andb_false_iff. rewrite !Z.eqb_neq.
    destruct (decide (rt_run_id o = rt_run_id r)); [right|by left]. by destruct (H' other o Ho Hne). }
  destruct (another id (fun o => _ && String.eqb _ _) rows) eqn:En.
  { split; [done|]. intros [_ H']. assert (another id (fun o => (rt_run_id o =? rt_run_id r) && String.eqb (rt_name o) (rt_name r)) rows = false) as Hf; [|congruence].
    apply another_false. intros other o Ho Hne. apply andb_false_iff. rewrite Z.eqb_neq, String.eqb_neq.
    destruct (decide (rt_run_id o = rt_run_id r)); [right|by left]. by destruct (H' other o Ho Hne) as (_ & ? & _). }
  rewrite another_false in Es, En.
  destruct (bool_decide _ && another id _ rows) eqn:Ea.
  { split; [done|]. intros [_ H']. apply andb_true_iff in Ea as [Eact Ea].
    apply bool_decide_eq_true in Eact.
    assert (another id (fun o => (rt_run_id o =? rt_run_id r) && bool_decide (rt_state o = TActive)) rows = false) as Hf; [|congruence].
    apply another_false. intros other o Ho Hne. apply andb_false_iff. rewrite Z.eqb_neq, bool_decide_eq_false.
    destruct (decide (rt_run_id o = rt_run_id r)); [right|by left]. destruct (H' other o Ho Hne) as (_ & _ & ?); tauto. }
  split; [intros _|done]. split; [lia|]. intros other o Ho Hne Hrun.
  specialize (Es other o Ho Hne). specialize (En other o Ho Hne). simpl in Es, En.
  rewrite Hrun, Z.eqb_refl in Es, En. simpl in Es, En. zbool. apply String.eqb_neq in En.
  split_and!; [done..|]. intros [Hr Ho']. rewrite (bool_decide_eq_true_2 _ Hr) in Ea. simpl in Ea.
  rewrite another_false in Ea. specialize (Ea other o Ho Hne). simpl in Ea.
  by rewrite Hrun, Z.eqb_refl, bool_decide_eq_true_2 in Ea.
Qed.

(** ** The queue of a run *)

Lemma elem_of_task_queue run (d : TaskTables) id r :
  (id, r) ∈ task_queue run d <-> run_tasks d !! id = Some r /\ rt_run_id r = run.
Proof.
  unfold task_queue. rewrite merge_sort_Permutation, list_elem_of_filter, elem_of_map_to_list. simpl. tauto.
Qed.

Lemma queue_le_total : Total (@queue_le J TV E TC).
Proof. intros x y. unfold queue_le. lia. Qed.
Lemma queue_le_trans : Transitive (@queue_le J TV E TC).
Proof. intros x y z. unfold queue_le. lia. Qed.

Lemma task_queue_sorted run (d : TaskTables) : StronglySorted queue_le (task_queue run d).
Proof. apply StronglySorted_merge_sort; [apply queue_le_trans|apply queue_le_total]. Qed.

Lemma find_first {A} (p : A -> bool) l x :
  find p l = Some x -> exists l1 l2, l = l1 ++ x :: l2 /\ p x = true /\ Forall (fun y => p y = false) l1.
Proof.
  induction l as [|y l IH]; simpl; [done|]. destruct (p y) eqn:Ey.
  - intros [= <-]. by exists [], l.
  - intros (l1 & l2 & -> & ? & ?)%IH. exists (y :: l1), l2. split_and!; [done..|by constructor].
Qed.

(** The first entry with a property comes before every other one. *)
Lemma find_queue run (d : TaskTables) p id r :
  find p (task_queue run d) = Some (id, r) ->
  run_tasks d !! id = Some r /\ rt_run_id r = run /\ p (id, r) = true /\
  forall j s, run_tasks d !! j = Some s -> rt_run_id s = run -> p (j, s) = true -> queue_le (id, r) (j, s).
Proof.
  intros (l1 & l2 & Hq & Hp & Hl1)%find_first.
  assert ((id, r) ∈ task_queue run d) as Hin by (rewrite Hq; set_solver).
  apply elem_of_task_queue in Hin as [Hid Hrun]. split_and!; [done..|]. intros j s Hj Hs Hps.
  assert ((j, s) ∈ task_queue run d) as Hin by by apply elem_of_task_queue.
  pose proof (task_queue_sorted run d) as Hsorted. rewrite Hq in Hin, Hsorted.
  apply elem_of_app in Hin as [Hin|[Heq|Hin]%elem_of_cons].
  - rewrite Forall_forall in Hl1. specialize (Hl1 _ Hin). congruence.
  - rewrite Heq. unfold queue_le. lia.
  - apply StronglySorted_app_1_r in Hsorted. apply StronglySorted_inv in Hsorted as [_ Hf].
    rewrite Forall_forall in Hf. by apply Hf.
Qed.

(** ** One row *)

Lemma put_ok (d : TaskTables) id r :
  tasks_ok d -> row_conflict id r (run_tasks d) = None -> is_Some (runs_rows d !! rt_run_id r) -> id < next_task_id d ->
  1 <= rt_sequence_nr r ->
  (forall j s, run_tasks d !! j = Some s -> j <> id -> rt_run_id s = rt_run_id r ->
     (started r -> rt_sequence_nr s < rt_sequence_nr r -> terminal s) /\
     (started s -> rt_sequence_nr r < rt_sequence_nr s -> terminal r)) ->
  tasks_ok (set_run_tasks (<[id := r]> (run_tasks d)) d).
Proof.
  intros Hok [Hp Hc]%row_conflict_none Hrun Hid Hseq Hab. destruct Hok as [H1 H2 H3 H7 H4 H5 H6].
  assert (forall i o, <[id := r]> (run_tasks d) !! i = Some o -> (i = id /\ o = r) \/ (i <> id /\ run_tasks d !! i = Some o)) as Hl.
  { intros i o [(-> & ->)|(? & ?)]%lookup_insert_Some; [by left|by right]. }
  split; cbn [run_tasks runs_rows next_task_id next_run_id set_run_tasks]; intros.
  - destruct (Hl _ _ H) as [[-> ->]|[? ?]]; eauto.
  - destruct (Hl _ _ H) as [[-> ->]|[? ?]]; eauto.
  - eauto.
  - destruct (Hl _ _ H) as [[-> ->]|[? ?]]; eauto.
  - destruct (Hl _ _ H) as [[-> ->]|[? ?]]; eauto.
  - destruct (Hl _ _ H) as [[-> ->]|[? ?]], (Hl _ _ H0) as [[-> ->]|[? ?]]; [done|eauto| |eauto].
    intros Hr. destruct (Hc i r0) as (? & ? & Hact); [done..|]. split_and!; [congruence..|tauto].
  - destruct (Hl _ _ H) as [[-> ->]|[? ?]], (Hl _ _ H0) as [[-> ->]|[? ?]].
    + lia.
    + by apply (Hab j s).
    + by apply (Hab i r0).
    + eauto.
Qed.

(** ** How a row may change *)

Definition next_state (s s' : RunTaskState) : Prop := s = s' \/ s = TPending \/ (s = TActive /\ s' <> TPending).

(** A task keeps its place; once it is active it keeps its name, and once it has
    ended nothing of its definition and its result counts changes. *)
Record evolves (r r' : RunTaskRow) : Prop := {
  ev_run : rt_run_id r' = rt_run_id r;
  ev_sequence : rt_sequence_nr r' = rt_sequence_nr r;
  ev_state : next_state (rt_state r) (rt_state r');
  ev_name : rt_state r <> TPending -> rt_name r' = rt_name r;
  ev_ended : terminal r -> rt_task r' = rt_task r /\ rt_toml r' = rt_toml r /\ rt_produced r' = rt_produced r /\
    rt_completed r' = rt_completed r /\ rt_failure_reason r' = rt_failure_reason r /\ rt_times r' = rt_times r
}.

(** Rows evolve, only pending ones disappear, runs keep their parents, and no
    identifier is used twice. *)
Record history (d d' : TaskTables) : Prop := {
  hist_row : forall id r, run_tasks d !! id = Some r ->
    match run_tasks d' !! id with Some r' => evolves r r' | None => rt_state r = TPending end;
  hist_fresh : forall id, id < next_task_id d -> run_tasks d !! id = None -> run_tasks d' !! id = None;
  hist_runs : forall run row, runs_rows d !! run = Some row ->
    exists row', runs_rows d' !! run = Some row' /\ runs_parent row' = runs_parent row;
  hist_fresh_run : forall run, run < next_run_id d -> runs_rows d !! run = None -> runs_rows d' !! run = None
}.

Lemma evolves_refl r : evolves r r.
Proof. split; try done. by left. Qed.

Lemma evolves_trans r1 r2 r3 : evolves r1 r2 -> evolves r2 r3 -> evolves r1 r3.
Proof.
  intros [R1 S1 N1 M1 T1] [R2 S2 N2 M2 T2]. unfold terminal, next_state in *. split; unfold terminal, next_state.
  - congruence.
  - congruence.
  - destruct N1 as [->|[->|[-> Hne]]]; [done|by right; left|].
    destruct N2 as [E2|[E2|[E2 Hne2]]]; [right; right; by rewrite <- E2|congruence|by right; right].
  - intros Hr. rewrite M2, M1; [done..|]. destruct N1 as [E1|[E1|[_ ?]]]; [congruence..|done].
  - intros Hr. assert (rt_state r2 = TCompleted \/ rt_state r2 = TFailed) as Hr2.
    { destruct N1 as [E1|[E1|[E1 _]]]; [by rewrite <- E1|destruct Hr; congruence..]. }
    destruct (T1 Hr) as (? & ? & ? & ? & ? & ?), (T2 Hr2) as (? & ? & ? & ? & ? & ?). split_and!; congruence.
Qed.

Lemma history_refl d : history d d.
Proof. split; [|done| |done]; [|eauto]. intros id r ->. apply evolves_refl. Qed.

(** What an operation does to consistent tables. *)
Definition keeps (d d' : TaskTables) : Prop :=
  next_run_id d <= next_run_id d' /\ next_task_id d <= next_task_id d' /\
  (tasks_ok d -> tasks_ok d' /\ history d d').

Lemma keeps_refl d : keeps d d.
Proof. split_and!; [lia..|]. intros. split; [done|apply history_refl]. Qed.

Lemma keeps_trans d1 d2 d3 : keeps d1 d2 -> keeps d2 d3 -> keeps d1 d3.
Proof.
  intros (R1 & T1 & K1) (R2 & T2 & K2). split_and!; [lia..|]. intros Hok.
  destruct (K1 Hok) as [Hok2 [H1 F1 U1 V1]], (K2 Hok2) as [Hok3 [H2 F2 U2 V2]]. split; [done|]. split.
  - intros id r Hr. specialize (H1 id r Hr). destruct (run_tasks d2 !! id) as [r2|] eqn:E2.
    + specialize (H2 id r2 E2). destruct (run_tasks d3 !! id) as [r3|]; [by eapply evolves_trans|].
      destruct (ev_state _ _ H1) as [E1|[E1|[_ E1]]]; congruence.
    + rewrite F2; [done| |done]. pose proof (ok_ids d1 Hok id r Hr). lia.
  - intros id Hlt Hn. apply F2; [lia|]. by apply F1.
  - intros run row (row2 & (row3 & ? & ?)%U2 & ?)%U1. exists row3. split; [done|congruence].
  - intros run Hlt Hn. apply V2; [lia|]. by apply V1.
Qed.

Definition keeping {A} (m : Tx A) : Prop := forall d, keeps d (m d).1.

Lemma keeping_ret {A} (a : A) : keeping (se_ret a).
Proof. intros d. apply keeps_refl. Qed.
Lemma keeping_fail {A} e : keeping (se_fail e : Tx A).
Proof. intros d. apply keeps_refl. Qed.
Lemma keeping_lift {A} (m : result StoreError A) : keeping (se_lift m).
Proof. intros d. apply keeps_refl. Qed.
Lemma keeping_get {A} (f : TaskTables -> A) : keeping (se_get f).
Proof. intros d. apply keeps_refl. Qed.
Lemma keeping_bind {A B} (m : Tx A) (k : A -> Tx B) : keeping m -> (forall a, keeping (k a)) -> keeping (se_bind m k).
Proof.
  intros Hm Hk d. unfold se_bind. specialize (Hm d). destruct (m d) as [d' [a|e]]; [|done].
  eapply keeps_trans; [exact Hm|apply Hk].
Qed.

(** Rolling back leaves the rows, and the sequences where they are. *)
Lemma rolled_back_keeps d d' :
  next_run_id d <= next_run_id d' -> next_task_id d <= next_task_id d' -> keeps d (rolled_back d d').
Proof.
  intros Hr Ht. split_and!; [done..|]. intros [H1 H2 H3 H7 H4 H5 H6]. split.
  - split; cbn; try done.
    + intros id r Hid. specialize (H1 id r Hid). lia.
    + intros run r Hrun. specialize (H3 run r Hrun). lia.
  - split; cbn; [|done|eauto|done]. intros id r ->. apply evolves_refl.
Qed.
Lemma transaction_keeps {A} (m : Tx A) d : keeps d (m d).1 -> keeps d (transaction m d).1.
Proof.
  unfold transaction. destruct (m d) as [d' [a|e]]; [done|]. intros (? & ? & _). by apply rolled_back_keeps.
Qed.
Lemma keeping_transaction {A} (m : Tx A) : keeping m -> keeping (transaction m).
Proof. intros Hm d. apply transaction_keeps, Hm. Qed.

(** ** Updates of one row *)

Lemma terminal_next r r' : next_state (rt_state r) (rt_state r') -> terminal r -> terminal r'.
Proof. unfold terminal. intros [E1|[E1|[E1 _]]] [E2|E2]; rewrite ?E1 in *; auto; congruence. Qed.

Lemma write_row_keeps id r r' (d : TaskTables) :
  run_tasks d !! id = Some r -> evolves r r' ->
  (started r' -> started r \/ forall j s, run_tasks d !! j = Some s -> rt_run_id s = rt_run_id r ->
                              rt_sequence_nr s < rt_sequence_nr r -> terminal s) ->
  keeps d (write_row id r' d).1.
Proof.
  intros Hr He Ha. unfold write_row. destruct (row_conflict id r' (run_tasks d)) as [e|] eqn:Ec; [apply keeps_refl|].
  cbn [fst]. split_and!; [cbn; lia..|]. intros Hok. split.
  - apply put_ok; [done..| | | |].
    + rewrite (ev_run _ _ He). by apply (ok_task_run d Hok id).
    + by apply (ok_ids d Hok id r).
    + rewrite (ev_sequence _ _ He). by apply (ok_sequence d Hok id).
    + intros j s Hj Hne Hrun. rewrite (ev_run _ _ He) in Hrun. rewrite (ev_sequence _ _ He). split.
      * intros [Hs|Hs]%Ha Hlt; [by eapply (ok_order d Hok j id)|eauto].
      * intros Hs Hlt. eapply terminal_next; [apply He|]. by eapply (ok_order d Hok id j).
  - split; cbn.
    + intros i o Ho. destruct (decide (i = id)) as [->|Hne].
      * rewrite lookup_insert_eq. by rewrite Hr in Ho; injection Ho as <-.
      * rewrite lookup_insert_ne by done. rewrite Ho. apply evolves_refl.
    + intros i _ Hi. rewrite lookup_insert_ne; [done|]. intros ->. congruence.
    + eauto.
    + done.
Qed.

Lemma update_task_keeps id p (f : RunTaskRow -> RunTaskRow) :
  (forall r, p r = true -> evolves r (f r) /\ (started (f r) -> started r)) -> keeping (update_task id p f : Tx unit).
Proof.
  intros Hf d. unfold update_task, update_row, se_bind, se_ret. destruct (run_tasks d !! id) as [r|] eqn:Er; [|apply keeps_refl].
  destruct (p r) eqn:Ep; [|apply keeps_refl]. destruct (Hf r Ep) as [He Hs].
  pose proof (write_row_keeps id r (f r) d Er He ltac:(auto)) as Hk.
  by destruct (write_row id (f r) d) as [d' [?|?]].
Qed.

Lemma set_outputs_evolves s m c (r : RunTaskRow) : evolves r (set_outputs s m c r).
Proof. split; cbn; try done. by left. Qed.

Lemma active_not_terminal (r : RunTaskRow) : rt_state r = TActive -> ~ terminal r.
Proof. unfold terminal. intros ->. intros [|]; done. Qed.
Lemma pending_not_terminal (r : RunTaskRow) : rt_state r = TPending -> ~ terminal r.
Proof. unfold terminal. intros ->. intros [|]; done. Qed.

Lemma set_lifecycle_evolves state reason times (r : RunTaskRow) :
  ~ terminal r -> next_state (rt_state r) state -> evolves r (set_lifecycle state reason times r).
Proof. intros Ht Hn. split; cbn; try done. Qed.

Lemma set_progress_evolves produced completed (r : RunTaskRow) :
  ~ terminal r -> evolves r (set_progress produced completed r).
Proof. intros Ht. split; cbn; try done. by left. Qed.

Lemma set_definition_evolves name value toml (r : RunTaskRow) :
  rt_state r = TPending \/ (rt_state r = TActive /\ name = rt_name r) -> evolves r (set_definition name value toml r).
Proof.
  unfold terminal. intros Hs. split; cbn; try done; [by left| |]; unfold terminal.
  - destruct Hs as [Hs|[Hs ->]]; [congruence|done].
  - intros Ht. exfalso. destruct Hs as [Hs|[Hs _]], Ht; congruence.
Qed.

Lemma update_run_task_progress_keeps id p c : keeping (update_run_task_progress id p c : Tx unit).
Proof.
  apply update_task_keeps. intros r Hr%bool_decide_eq_true. split; [|done].
  apply set_progress_evolves, active_not_terminal, Hr.
Qed.

Lemma complete_run_task_keeps now id : keeping (complete_run_task now id : Tx unit).
Proof.
  apply keeping_transaction, update_task_keeps. intros r Hr%bool_decide_eq_true. split; [|intros _; by left].
  apply set_lifecycle_evolves; [by apply active_not_terminal|]. right; right. by split.
Qed.

Lemma fail_run_task_keeps now id reason : keeping (fail_run_task now id reason : Tx unit).
Proof.
  apply keeping_transaction, update_task_keeps. intros r Hr. split; [|by intros [|]].
  unfold is_pending, is_active in Hr. apply orb_true_iff in Hr as [Hr|Hr]; apply bool_decide_eq_true in Hr;
    apply set_lifecycle_evolves; unfold next_state;
    auto using active_not_terminal, pending_not_terminal.
Qed.

Lemma set_run_task_spawn_origin_keeps id s : keeping (set_run_task_spawn_origin id s : Tx unit).
Proof.
  intros d. unfold set_run_task_spawn_origin.
  assert (keeps d (update_task id (fun _ => true) (fun r => set_outputs s (rt_measurement r) (rt_controller r) r) d).1) as Hk.
  { apply update_task_keeps. intros. split; [apply set_outputs_evolves|done]. }
  cbv zeta. destruct s; [|done]. destruct (_ || _); [done|apply keeps_refl].
Qed.

Lemma persist_measurement_keeps id output : keeping (persist_task_measurement_output id output : Tx unit).
Proof.
  apply keeping_bind; [apply keeping_lift|]. intros v. apply update_task_keeps. intros.
  split; [apply set_outputs_evolves|done].
Qed.
Lemma persist_controller_keeps id output : keeping (persist_task_controller_output id output : Tx unit).
Proof.
  apply keeping_bind; [apply keeping_lift|]. intros v. apply update_task_keeps. intros.
  split; [apply set_outputs_evolves|done].
Qed.

(** Operations that leave tasks and runs alone, up to the live accumulator. *)
Lemma same_tasks_keeps (d d' : TaskTables) :
  run_tasks d' = run_tasks d -> next_run_id d' = next_run_id d -> next_task_id d' = next_task_id d ->
  (forall run, match runs_rows d !! run with
               | Some row => exists row', runs_rows d' !! run = Some row' /\ runs_parent row' = runs_parent row
               | None => runs_rows d' !! run = None
               end) -> keeps d d'.
Proof.
  intros Ht Hr Hn Hrows. split_and!; [lia..|]. intros [H1 H2 H3 H7 H4 H5 H6]. split.
  - split; rewrite ?Ht, ?Hr, ?Hn; try done.
    + intros id r [row Hrow]%H2. specialize (Hrows (rt_run_id r)). rewrite Hrow in Hrows.
      destruct Hrows as (row' & ? & _). by eexists.
    + intros run r Hrun. specialize (Hrows run). destruct (runs_rows d !! run) eqn:Eo; [by eapply H3|congruence].
  - split; rewrite ?Ht; [|done| |].
    + intros id r ->. apply evolves_refl.
    + intros run row Hrow. specialize (Hrows run). by rewrite Hrow in Hrows.
    + intros run _ Hrow. specialize (Hrows run). by rewrite Hrow in Hrows.
Qed.

Lemma clear_observable_keeps run (d : TaskTables) : keeps d (clear_observable run d).
Proof.
  apply same_tasks_keeps; [done..|]. intros r. cbn. destruct (decide (run = r)) as [->|].
  - rewrite lookup_alter_eq. destruct (runs_rows d !! r); cbn; eauto.
  - rewrite lookup_alter_ne by done. destruct (runs_rows d !! r); eauto.
Qed.

Lemma activate_keeps now run : keeping (activate_next_run_task now run : Tx _).
Proof.
  apply keeping_transaction. intros d.
  destruct (find (fun p => is_pending p.2) (task_queue run d)) as [[id r]|] eqn:Ef; [|apply keeps_refl].
  apply find_queue in Ef as (Hid & Hrun & Hp & Hfirst). simpl in Hp. apply bool_decide_eq_true in Hp.
  assert (keeps d (write_row id (activate_row now r) d).1) as Hk.
  { unfold write_row. destruct (row_conflict _ _ _) eqn:Ec; [apply keeps_refl|].
    pose proof (write_row_keeps id r (activate_row now r) d Hid) as Hw. unfold write_row in Hw. rewrite Ec in Hw.
    apply Hw; clear Hw.
    - apply set_lifecycle_evolves; [by apply pending_not_terminal|]. right; by left.
    - intros _. right. intros j s Hj Hs Hlt. unfold terminal.
      apply row_conflict_none in Ec as [_ Hc].
      assert (j <> id) as Hne by (intros ->; rewrite Hid in Hj; simplify_eq; lia).
      destruct (Hc j s Hj Hne) as (_ & _ & Hact); [done|]. cbn in Hact.
      destruct (rt_state s) eqn:Es; [exfalso| |auto..]; [|tauto].
      specialize (Hfirst j s Hj ltac:(congruence)). unfold queue_le in Hfirst. cbn in Hfirst.
      unfold is_pending in Hfirst. rewrite bool_decide_eq_true in Hfirst. specialize (Hfirst Es). lia. }
  unfold se_bind at 1. destruct (write_row _ _ d) as [d' [?|?]]; [|done]. cbn [fst] in Hk.
  eapply keeps_trans; [exact Hk|]. apply keeping_bind; [apply keeping_lift|]. intros t.
  apply keeping_bind; [|intros; apply keeping_ret]. unfold se_when. destruct (runs_on_sampler_worker _); [|apply keeping_ret].
  intros d2. apply clear_observable_keeps.
Qed.

(** ** New rows *)

(** The tasks of the run come before sequence number [n]. *)
Definition run_below (run : i32) (n : Z) (d : TaskTables) : Prop :=
  forall id r, run_tasks d !! id = Some r -> rt_run_id r = run -> rt_sequence_nr r < n.

Lemma wrap_i32_id z : - 2 ^ 31 <= z <= i32_max -> wrap_i32 z = z.
Proof. unfold wrap_i32, i32_max. intros. rewrite Z.mod_small by lia. lia. Qed.

Lemma insert_row_spec r (d : TaskTables) :
  match insert_row r d with
  | (d', Ok id) => id = next_task_id d /\ d' = set_run_tasks (<[id := r]> (run_tasks d)) (draw_task_id d) /\ row_conflict id r (run_tasks d) = None /\ is_Some (runs_rows d !! rt_run_id r)
  | (d', Err _) => d' = draw_task_id d
  end.
Proof.
  unfold insert_row, write_row, se_bind, se_ret. cbn. case_bool_decide; [|done].
  destruct (row_conflict _ _ _) eqn:Ec; done.
Qed.

Lemma draw_task_keeps (d : TaskTables) : keeps d (draw_task_id d).
Proof.
  split_and!; [cbn; lia..|]. intros [H1 H2 H3 H7 H4 H5 H6]. split.
  - split; cbn; try done. intros id r Hid. specialize (H1 id r Hid). lia.
  - split; cbn; [|done|eauto|done]. intros id r ->. apply evolves_refl.
Qed.

Lemma insert_row_keeps now run name n value toml (d : TaskTables) :
  1 <= n -> run_below run n d -> keeps d (insert_row (pending_row now run name n value toml) d).1.
Proof.
  intros Hn Hbelow. pose proof (insert_row_spec (pending_row now run name n value toml) d) as Hs.
  destruct (insert_row _ d) as [d' [id|e]]; cbn [fst]; [|subst d'; apply draw_task_keeps].
  destruct Hs as (-> & -> & Hc & Hrun). split_and!; [cbn; lia..|]. intros Hok. split.
  - apply (put_ok (draw_task_id d)); cbn.
    + apply (draw_task_keeps d), Hok.
    + done.
    + done.
    + lia.
    + done.
    + intros j s Hj Hne Hsr. specialize (Hbelow j s Hj Hsr). unfold started. cbn. split; [intros [|]; done|lia].
  - split; cbn.
    + intros i o Ho. pose proof (ok_ids d Hok i o Ho). rewrite lookup_insert_ne by lia. rewrite Ho. apply evolves_refl.
    + intros i Hi Hnone. rewrite lookup_insert_ne by lia. done.
    + eauto.
    + done.
Qed.

Lemma insert_row_below now run name n value toml (d d' : TaskTables) id :
  insert_row (pending_row now run name n value toml) d = (d', Ok id) -> run_below run n d -> run_below run (n + 1) d'.
Proof.
  intros Hi Hb. pose proof (insert_row_spec (pending_row now run name n value toml) d) as Hs. rewrite Hi in Hs.
  destruct Hs as (-> & -> & _). intros i r. cbn. intros [[<- <-]|[_ Hr]]%lookup_insert_Some Hrun; cbn; [lia|].
  specialize (Hb i r Hr Hrun). lia.
Qed.

Lemma append_tasks_keeps now run tasks n (d : TaskTables) :
  1 <= n -> n + zlen tasks <= i32_max + 1 -> run_below run n d -> keeps d (append_tasks now run n tasks d).1.
Proof.
  revert n d. induction tasks as [|input tasks IH]; intros n d Hn Hfit Hb; [apply keeps_refl|].
  cbn [append_tasks]. rewrite zlen_cons in Hfit. pose proof (zlen_nonneg tasks).
  rewrite wrap_i32_id by (unfold i32_max in *; lia). unfold append_task, se_bind, se_lift, se_ret.
  destruct (protocol (encode_task _)) as [value|]; [|apply keeps_refl].
  destruct (protocol (canonical_task_toml _)) as [toml|]; [|apply keeps_refl].
  set (name := default _ _).
  pose proof (insert_row_keeps now run name n value toml d Hn Hb) as Hk.
  pose proof (insert_row_below now run name n value toml d) as Hbelow.
  destruct (insert_row _ d) as [d1 [id|e]]; cbn [fst] in Hk; [|done].
  specialize (Hbelow d1 id eq_refl Hb).
  destruct (protocol _) as [stored|]; [|done]. specialize (IH (n + 1) d1 ltac:(lia) ltac:(lia) Hbelow).
  destruct (append_tasks now run (n + 1) tasks d1) as [d2 [?|?]]; by eapply keeps_trans.
Qed.

Lemma insert_initial_tasks_keeps now run tasks n (d : TaskTables) :
  1 <= n -> n + zlen tasks <= i32_max + 1 -> run_below run n d -> keeps d (insert_initial_tasks now run n tasks d).1.
Proof.
  revert n d. induction tasks as [|input tasks IH]; intros n d Hn Hfit Hb; [apply keeps_refl|].
  cbn [insert_initial_tasks]. rewrite zlen_cons in Hfit. pose proof (zlen_nonneg tasks).
  rewrite wrap_i32_id by (unfold i32_max in *; lia). cbv zeta. unfold se_bind, se_lift.
  destruct (map_err _ (encode_task _)) as [value|]; [|apply keeps_refl].
  destruct (map_err _ (canonical_task_toml _)) as [toml|]; [|apply keeps_refl].
  set (name := default _ _).
  pose proof (insert_row_keeps now run name n value toml d Hn Hb) as Hk.
  pose proof (insert_row_below now run name n value toml d) as Hbelow.
  destruct (insert_row _ d) as [d1 [id|e]]; cbn [fst] in Hk; [|done].
  specialize (Hbelow d1 id eq_refl Hb). eapply keeps_trans; [exact Hk|]. apply IH; [lia..|done].
Qed.

(** The next sequence number is beyond every task of the run. *)
Lemma last_sequence_below run (d : TaskTables) : run_below run (default 0 (last_sequence run d) + 1) d.
Proof.
  intros id r Hr Hrun. assert ((id, r) ∈ task_queue run d) as Hin by by apply elem_of_task_queue.
  unfold last_sequence. enough (exists m, foldr (fun (p : i64 * RunTaskRow) acc =>
    Some (match acc with Some m => Z.max (rt_sequence_nr p.2) m | None => rt_sequence_nr p.2 end)) None (task_queue run d) = Some m
    /\ rt_sequence_nr r <= m) as (m & -> & Hm) by (cbn; lia).
  induction (task_queue run d) as [|p l IH]; [by apply elem_of_nil in Hin|]. cbn [foldr]. eexists. split; [done|].
  apply elem_of_cons in Hin as [<-|Hin]; [cbn; case_match; lia|].
  destruct (IH Hin) as (m & -> & Hm). lia.
Qed.

Lemma last_sequence_nonneg run (d : TaskTables) : tasks_ok d -> 0 <= default 0 (last_sequence run d).
Proof.
  intros Hok. unfold last_sequence.
  assert (Forall (fun p => 1 <= rt_sequence_nr p.2) (task_queue run d)) as Hf.
  { apply Forall_forall. intros [id r] [Hr _]%elem_of_task_queue. by apply (ok_sequence d Hok id). }
  induction Hf as [|p l Hp _ IH]; [done|]. cbn [foldr default]. case_match; cbn in *; lia.
Qed.

Lemma append_in_transaction_keeps now run tasks (d : TaskTables) :
  tasks_ok d -> default 0 (last_sequence run d) + zlen tasks <= i32_max ->
  keeps d (append_tasks_in_transaction now run tasks d).1.
Proof.
  intros Hok Hfit. unfold append_tasks_in_transaction, next_sequence. cbv zeta.
  pose proof (last_sequence_nonneg run d Hok). destruct (_ <=? i32_max); [|apply keeps_refl].
  apply append_tasks_keeps; [lia..|apply last_sequence_below].
Qed.

Lemma lock_run_keeps run : keeping (lock_run run : Tx unit).
Proof. intros d. unfold lock_run. case_bool_decide; apply keeps_refl. Qed.

Lemma append_run_tasks_keeps now run tasks (d : TaskTables) :
  tasks_ok d -> default 0 (last_sequence run d) + zlen tasks <= i32_max -> keeps d (append_run_tasks now run tasks d).1.
Proof.
  intros Hok Hfit. apply transaction_keeps. unfold se_bind, lock_run. case_bool_decide; [|apply keeps_refl].
  by apply append_in_transaction_keeps.
Qed.

Lemma delete_task_keeps id r (d : TaskTables) :
  run_tasks d !! id = Some r -> rt_state r = TPending -> keeps d (delete_task id d).
Proof.
  intros Hr Hp. split_and!; [cbn; lia..|]. intros [H1 H2 H3 H7 H4 H5 H6].
  assert (forall i o, delete id (run_tasks d) !! i = Some o -> run_tasks d !! i = Some o) as Hd
    by (intros i o [_ ?]%lookup_delete_Some; done).
  split.
  - split; cbn; eauto.
  - split; cbn.
    + intros i o Ho. destruct (decide (i = id)) as [->|Hne].
      * rewrite lookup_delete_eq. congruence.
      * rewrite lookup_delete_ne by done. rewrite Ho. apply evolves_refl.
    + intros i _ Hn. apply lookup_delete_None. by right.
    + eauto.
    + done.
Qed.

Lemma remove_pending_keeps run id : keeping (remove_pending_run_task run id : Tx bool).
Proof.
  intros d. unfold remove_pending_run_task. destruct (run_tasks d !! id) as [r|] eqn:Er; [|apply keeps_refl].
  destruct (_ && is_pending r) eqn:Ep; [|apply keeps_refl]. apply andb_true_iff in Ep as [_ Ep%bool_decide_eq_true].
  by eapply delete_task_keeps.
Qed.

Lemma update_row_keeps id p f r (d : TaskTables) :
  run_tasks d !! id = Some r -> evolves r (f r) -> (started (f r) -> started r) -> keeps d (update_row id p f d).1.
Proof.
  intros Hr He Hs. unfold update_row, se_bind, se_ret. rewrite Hr. destruct (p r); [|apply keeps_refl].
  pose proof (write_row_keeps id r (f r) d Hr He ltac:(auto)) as Hk.
  by destruct (write_row id (f r) d) as [d' [?|?]].
Qed.

Lemma update_tuning_keeps run id q : keeping (update_run_task_queue_tuning run id q : Tx _).
Proof.
  apply keeping_transaction. intros d. destruct (run_tasks d !! id) as [r|] eqn:Er; [|apply keeps_refl].
  unfold se_bind, se_lift. destruct (protocol (decode_task_row id r)) as [current|]; [|apply keeps_refl].
  cbv zeta. destruct (negb _); [apply keeps_refl|]. destruct (is_pending r || is_active r) eqn:Es; [|apply keeps_refl].
  cbn [negb].
  destruct (protocol (set_sample_queue_tuning _ _)) as [spec|]; [|apply keeps_refl].
  destruct (protocol (task_validate spec)); [|apply keeps_refl].
  destruct (protocol (canonical_task_toml _)) as [toml|]; [|apply keeps_refl].
  destruct (protocol (encode_task spec)) as [value|]; [|apply keeps_refl].
  match goal with |- context [update_row id ?p ?f d] => pose proof (update_row_keeps id p f r d Er) as Hk; destruct (update_row id p f d) as [d' [[?|]|?]] end;
  cbn [fst] in *; (apply Hk; [|done]; apply set_definition_evolves;
    apply orb_true_iff in Es as [Es|Es]; apply bool_decide_eq_true in Es; auto).
Qed.

Lemma apply_change_keeps now run expected change (d : TaskTables) :
  tasks_ok d -> sequence_fits (OpChange now run expected change) d ->
  keeps d (apply_task_queue_change now run expected change d).1.
Proof.
  intros Hok Hfit. apply transaction_keeps. unfold se_bind at 1, lock_run. case_bool_decide; [|apply keeps_refl].
  destruct (negb _); [apply keeps_refl|]. destruct change as [tasks|id task|id].
  - by apply append_in_transaction_keeps.
  - destruct (find _ _) as [[i r]|] eqn:Ef; [|apply keeps_refl].
    apply find_queue in Ef as (Hr & _ & Hp & _). cbn in Hp. zbool. subst i.
    match goal with H : is_pending r = true |- _ => apply bool_decide_eq_true in H as Hs end.
    unfold replace_task, se_bind, se_lift.
    destruct (protocol (encode_task _)) as [value|]; [|apply keeps_refl].
    destruct (map_err _ _) as [toml|]; [|apply keeps_refl]. destruct (input_name task) as [name|]; [|apply keeps_refl].
    pose proof (write_row_keeps id r (set_definition name value toml r) d Hr) as Hk.
    destruct (write_row _ _ d) as [d' [?|?]]; cbn [fst] in Hk; try destruct (protocol (decode_task_row _ _));
      (apply Hk; [apply set_definition_evolves; by left|intros ?; by left]).
  - destruct (find _ _) as [[i r]|] eqn:Ef; [|apply keeps_refl].
    apply find_queue in Ef as (Hr & _ & Hp & _). cbn in Hp. zbool. subst i.
    match goal with H : is_pending r = true |- _ => apply bool_decide_eq_true in H end.
    by eapply delete_task_keeps.
Qed.

(** ** Creating a run *)

Lemma insert_snapshot_tasks now run s (d d' : TaskTables) r :
  insert_run_stage_snapshot now run s d = (d', r) ->
  run_tasks d' = run_tasks d /\ runs_rows d' = runs_rows d /\ next_run_id d' = next_run_id d /\ next_task_id d' = next_task_id d.
Proof. unfold insert_run_stage_snapshot. intros H. cbv zeta in H. break; done. Qed.

Lemma insert_snapshot_keeps now run s : keeping (insert_run_stage_snapshot now run s : Tx _).
Proof.
  intros d. destruct (insert_run_stage_snapshot now run s d) as [d' r] eqn:Ei. cbn.
  apply insert_snapshot_tasks in Ei as (? & Hr & ? & ?). apply same_tasks_keeps; [done..|].
  intros r'. rewrite Hr. destruct (runs_rows d !! r'); eauto.
Qed.

Lemma insert_run_keeps name parent (d : TaskTables) : keeps d (insert_run name parent d).1.
Proof.
  unfold insert_run. cbn. split_and!; [cbn; lia..|]. intros [H1 H2 H3 H7 H4 H5 H6]. split.
  - split; cbn; eauto.
    + intros id r Hr. destruct (H2 id r Hr) as [o Ho]. pose proof (H3 _ _ Ho).
      rewrite lookup_insert_ne by lia. by eexists.
    + intros run r [[<- _]|[_ Hr]]%lookup_insert_Some; [lia|]. specialize (H3 run r Hr). lia.
  - split; cbn; [|done| |].
    + intros id r ->. apply evolves_refl.
    + intros run row Hrow. pose proof (H3 _ _ Hrow). rewrite lookup_insert_ne by lia. eauto.
    + intros run Hlt Hnone. rewrite lookup_insert_ne by lia. done.
Qed.

Lemma create_new_run_keeps now name initial tasks parent (d : TaskTables) :
  tasks_ok d -> zlen tasks <= i32_max -> keeps d (create_new_run now name initial tasks parent d).1.
Proof.
  intros Hok Hfit. unfold create_new_run, se_bind. pose proof (insert_run_keeps name parent d) as Hk1.
  unfold insert_run in *. cbn in Hk1. cbn.
  set (d1 := set_runs _ _) in *. set (run := next_run_id d) in *.
  pose proof (insert_snapshot_keeps now run (root_snapshot initial) d1) as Hk2.
  destruct (insert_run_stage_snapshot now run (root_snapshot initial) d1) as [d2 [id|e]] eqn:E2; cbn [fst] in Hk2;
    [|by eapply keeps_trans].
  apply insert_snapshot_tasks in E2 as (Ht & _).
  assert (keeps d2 (insert_initial_tasks now run 1 tasks d2).1) as Hk3.
  { apply insert_initial_tasks_keeps; [lia..|]. intros i r Hr Hrun. exfalso. rewrite Ht in Hr. cbn in Hr.
    destruct (ok_task_run d Hok i r Hr) as [o Ho]. rewrite Hrun in Ho. pose proof (ok_run_ids d Hok _ _ Ho).
    unfold run in *. lia. }
  destruct (insert_initial_tasks now run 1 tasks d2) as [d3 [?|?]]; cbn [fst] in *;
    (eapply keeps_trans; [exact Hk1|]; eapply keeps_trans; [exact Hk2|exact Hk3]).
Qed.

Lemma create_run_keeps now name initial tasks parent (d : TaskTables) :
  tasks_ok d -> zlen tasks <= i32_max -> keeps d (create_run now name initial tasks parent d).1.
Proof.
  intros Hok Hfit. apply transaction_keeps. destruct parent as [p|]; [|by apply create_new_run_keeps].
  unfold se_bind at 1, lock_run. case_bool_decide; [|apply keeps_refl]. unfold se_bind, se_get.
  destruct (existing_child p d); [apply keeps_refl|]. by apply create_new_run_keeps.
Qed.

(** *** Every operation *)

Lemma exec_keeps op (d : TaskTables) : tasks_ok d -> sequence_fits op d -> keeps d (exec op d).
Proof.
  intros Hok Hfit. destruct op; cbn [exec].
  - apply create_run_keeps; [done|]. unfold sequence_fits in Hfit. cbn in Hfit. lia.
  - by apply append_run_tasks_keeps.
  - apply activate_keeps.
  - apply update_run_task_progress_keeps.
  - apply set_run_task_spawn_origin_keeps.
  - apply complete_run_task_keeps.
  - apply fail_run_task_keeps.
  - apply persist_measurement_keeps.
  - apply persist_controller_keeps.
  - apply remove_pending_keeps.
  - apply update_tuning_keeps.
  - by apply apply_change_keeps.
  - unfold save_run_stage_snapshot, se_bind. pose proof (insert_snapshot_keeps now run s d) as Hk.
    by destruct (insert_run_stage_snapshot now run s d) as [d' [?|?]].
Qed.

Lemma empty_tables_ok : tasks_ok empty_tables.
Proof. split; cbn; intros *; rewrite ?lookup_empty; try done. Qed.

Lemma steps_keep d d' : steps task_step d d' -> tasks_ok d -> keeps d d'.
Proof.
  induction 1 as [|d d1 d2 _ IH (op & Hfit & ->)]; intros Hok; [apply keeps_refl|].
  specialize (IH Hok). eapply keeps_trans; [exact IH|]. apply exec_keeps; [|done]. by apply IH.
Qed.

(** ** The queue after an edit *)

Lemma NoDup_task_queue run (d : TaskTables) : NoDup (task_queue run d).
Proof. unfold task_queue. rewrite merge_sort_Permutation. apply NoDup_filter, NoDup_map_to_list. Qed.

(** A sorted list of the rows of a run is its queue. *)
Lemma task_queue_unique run (d : TaskTables) l :
  StronglySorted queue_le l -> NoDup l ->
  (forall id r, (id, r) ∈ l <-> run_tasks d !! id = Some r /\ rt_run_id r = run) -> l = task_queue run d.
Proof.
  intros Hs Hn Hl. apply (StronglySorted_unique_strong queue_le); [|done|apply task_queue_sorted|].
  - intros [i r] [j s] [Hi _]%Hl [Hj _]%elem_of_task_queue. unfold queue_le. cbn. intros.
    assert (i = j) as -> by lia. congruence.
  - apply NoDup_Permutation; [done|apply NoDup_task_queue|]. intros [i r]. by rewrite Hl, elem_of_task_queue.
Qed.

Lemma task_queue_ext run (d d' : TaskTables) :
  (forall id r, rt_run_id r = run -> run_tasks d !! id = Some r <-> run_tasks d' !! id = Some r) ->
  task_queue run d = task_queue run d'.
Proof.
  intros H. apply task_queue_unique; [apply task_queue_sorted|apply NoDup_task_queue|].
  intros id r. rewrite elem_of_task_queue. split; intros [? ?]; (split; [by apply H|done]).
Qed.

Lemma StronglySorted_snoc {A} (R : A -> A -> Prop) l x :
  StronglySorted R l -> Forall (fun y => R y x) l -> StronglySorted R (l ++ [x]).
Proof.
  induction 1 as [|y l Hs IH Hf]; intros Hx; cbn; [by repeat constructor|].
  apply Forall_cons in Hx as [Hy Hx]. constructor; [by apply IH|]. apply Forall_app. by repeat constructor.
Qed.

Lemma task_queue_insert run (d : TaskTables) id r :
  run_tasks d !! id = None -> rt_run_id r = run -> run_below run (rt_sequence_nr r) d ->
  task_queue run (set_run_tasks (<[id := r]> (run_tasks d)) (draw_task_id d)) = task_queue run d ++ [(id, r)].
Proof.
  intros Hnone Hrun Hb. symmetry. apply task_queue_unique.
  - apply StronglySorted_snoc; [apply task_queue_sorted|]. apply Forall_forall. intros [j s] [Hj Hs]%elem_of_task_queue.
    left. cbn. by apply (Hb j s).
  - apply NoDup_app. split_and!; [apply NoDup_task_queue| |apply NoDup_singleton].
    intros [j s] [Hj _]%elem_of_task_queue [= -> ->]%list_elem_of_singleton. congruence.
  - intros j s. rewrite elem_of_app, elem_of_task_queue, list_elem_of_singleton. cbn. split.
    + intros [[Hj ?]|[= -> ->]].
      * rewrite lookup_insert_ne by congruence. done.
      * by rewrite lookup_insert_eq.
    + intros [[[<- <-]|[? ?]]%lookup_insert_Some ?]; [by right|by left].
Qed.

Lemma task_queue_update run (d : TaskTables) id r r' :
  run_tasks d !! id = Some r -> rt_run_id r' = rt_run_id r -> rt_sequence_nr r' = rt_sequence_nr r ->
  task_queue run (set_run_tasks (<[id := r']> (run_tasks d)) d)
  = map (fun p => if p.1 =? id then (id, r') else p) (task_queue run d).
Proof.
  intros Hr Hrun Hseq. symmetry. apply task_queue_unique.
  - pose proof (task_queue_sorted run d) as Hs.
    assert (forall p, p ∈ task_queue run d -> p.1 = id -> p = (id, r)) as Hid.
    { intros [j s] [Hj _]%elem_of_task_queue ?. cbn in *. subst j. congruence. }
    induction Hs as [|p l Hs IH Hf]; [constructor|]. cbn [map]. constructor; [apply IH; intros; apply Hid; [by right|done]|].
    rewrite Forall_forall in Hf |- *. intros q (q0 & -> & Hq0)%list_elem_of_fmap. specialize (Hf _ Hq0).
    pose proof (Hid p ltac:(by left)). pose proof (Hid q0 ltac:(by right)).
    unfold queue_le in *. destruct (Z.eqb_spec p.1 id), (Z.eqb_spec q0.1 id); cbn; try rewrite (H e) in Hf; try rewrite (H0 e) in Hf;
      try rewrite (H0 e0) in Hf; cbn in Hf; rewrite ?Hseq; lia.
  - apply NoDup_fmap_2_strong; [|apply NoDup_task_queue].
    intros [i o] [j s] [Hi _]%elem_of_task_queue [Hj _]%elem_of_task_queue. cbn.
    destruct (Z.eqb_spec i id), (Z.eqb_spec j id); intros; simplify_eq; done.
  - intros j s. split.
    + intros ([i o] & Heq & [Ho Hor]%elem_of_task_queue)%list_elem_of_fmap. cbn in *.
      destruct (Z.eqb_spec i id) as [->|Hne]; simplify_eq.
      * rewrite lookup_insert_eq. split; congruence.
      * by rewrite lookup_insert_ne.
    + cbn. intros [[[<- <-]|[Hne Hj]]%lookup_insert_Some Hs]; apply list_elem_of_fmap.
      * exists (id, r). cbn. rewrite Z.eqb_refl. split; [done|]. apply elem_of_task_queue. split; [done|congruence].
      * exists (j, s). cbn. rewrite (proj2 (Z.eqb_neq j id)) by done. split; [done|]. by apply elem_of_task_queue.
Qed.

Lemma task_queue_delete run (d : TaskTables) id :
  task_queue run (delete_task id d) = filter (fun p => p.1 <> id) (task_queue run d).
Proof.
  symmetry. apply task_queue_unique.
  - apply StronglySorted_filter, task_queue_sorted.
  - apply NoDup_filter, NoDup_task_queue.
  - intros j s. rewrite list_elem_of_filter, elem_of_task_queue. cbn. rewrite lookup_delete_Some. naive_solver.
Qed.

(** What an append leaves at the end of the queue. *)
Definition appended_row (now : i64) (run sequence_nr : i32) (input : @RunTaskInput J TV E) (r : RunTaskRow) : Prop :=
  exists value toml, encode_task (input_task input) = Ok value /\ canonical_task_toml input = Ok toml /\
    r = pending_row now run (default (generated_task_name (input_task input) sequence_nr) (input_name input)) sequence_nr value toml.

Lemma append_tasks_spec now run tasks n (d d' : TaskTables) out :
  tasks_ok d -> 1 <= n -> n + zlen tasks <= i32_max + 1 -> run_below run n d ->
  append_tasks now run n tasks d = (d', Ok out) ->
  exists new, task_queue run d' = task_queue run d ++ new /\
    map fst new = seqZ (next_task_id d) (zlen tasks) /\
    Forall2 (fun '(k, input) p => appended_row now run k input p.2) (zip (seqZ n (zlen tasks)) tasks) new /\
    Forall2 (fun p t => decode_task_row p.1 p.2 = Ok t) new out /\
    (forall other, other <> run -> task_queue other d' = task_queue other d) /\ next_task_id d' = next_task_id d + zlen tasks.
Proof.
  revert n d out. induction tasks as [|input tasks IH]; intros n d out Hok Hn Hfit Hb; cbn [append_tasks].
  { intros [= <- <-]. exists []. rewrite app_nil_r, Z.add_0_r. split_and!; constructor. }
  rewrite zlen_cons in Hfit |- *. pose proof (zlen_nonneg tasks).
  rewrite wrap_i32_id by (unfold i32_max in *; lia). unfold append_task, se_bind, se_lift, se_ret.
  destruct (encode_task _) as [value|] eqn:Ev; [cbn [protocol map_err]|done].
  destruct (canonical_task_toml _) as [toml|] eqn:Et; [cbn [protocol map_err]|done].
  set (name := default _ _).
  pose proof (insert_row_keeps now run name n value toml d Hn Hb) as Hk.
  pose proof (insert_row_below now run name n value toml d) as Hbelow.
  pose proof (insert_row_spec (pending_row now run name n value toml) d) as Hspec.
  destruct (insert_row _ d) as [d1 [id|e]]; cbn [fst] in Hk; [|done].
  specialize (Hbelow d1 id eq_refl Hb). destruct Hspec as (-> & Hd1 & _).
  destruct (decode_task_row _ _) as [stored|] eqn:Edec; [cbn [protocol map_err]|done].
  destruct (append_tasks now run (n + 1) tasks d1) as [d2 [rest|]] eqn:Ea; [|done]. intros [= <- <-].
  destruct (IH (n + 1) d1 rest (proj1 (proj2 (proj2 Hk) Hok)) ltac:(lia) ltac:(lia) Hbelow Ea)
    as (new & Hq & Hids & Hrows & Hout & Hother & Hnext).
  assert (run_tasks d !! next_task_id d = None) as Hnone.
  { destruct (run_tasks d !! next_task_id d) eqn:Eo; [|done]. pose proof (ok_ids d Hok _ _ Eo). lia. }
  exists ((next_task_id d, pending_row now run name n value toml) :: new). split_and!.
  - rewrite Hq, Hd1, task_queue_insert; [|done..]. by rewrite <- app_assoc.
  - cbn [map fst]. rewrite Hids, Hd1. rewrite (seqZ_cons (next_task_id d)) by lia. cbn. do 2 f_equal; lia.
  - rewrite (seqZ_cons n) by lia. cbn [zip zip_with]. constructor.
    + exists value, toml. done.
    + replace (Z.pred (zlen tasks + 1)) with (zlen tasks) by lia. done.
  - by constructor.
  - intros other Hne. rewrite Hother, Hd1 by done. symmetry. apply task_queue_ext. intros i r Hr. cbn.
    rewrite lookup_insert_Some. split; [|naive_solver]. intros Hi. right. split; [|done]. intros <-. congruence.
  - rewrite Hnext, Hd1. cbn. lia.
Qed.

(** ** Theorems *)

Definition reachable (d : TaskTables) : Prop := steps task_step empty_tables d.

Lemma reachable_ok d : reachable d -> tasks_ok d.
Proof. intros H. by apply (steps_keep _ _ H empty_tables_ok), empty_tables_ok. Qed.

Lemma transaction_err {A} (m : Tx A) d d' e :
  transaction m d = (d', Err e) ->
  runs_rows d' = runs_rows d /\ run_tasks d' = run_tasks d /\ run_stage_snapshots d' = run_stage_snapshots d.
Proof. unfold transaction. destruct (m d) as [? [?|?]]; [done|]. by intros [= <- _]. Qed.
Lemma transaction_ok {A} (m : Tx A) d d' a : transaction m d = (d', Ok a) -> m d = (d', Ok a).
Proof. unfold transaction. by destruct (m d) as [? [?|?]]; intros; simplify_eq. Qed.

(** What an accepted edit does to the queue of its run; [out] is what the
    caller gets back. *)
Definition edited (now : i64) (run : i32) (change : TaskQueueChange) (out : list StoredTask) (d d' : TaskTables) : Prop :=
  match change with
  | AppendTasks tasks => exists next new, task_queue run d' = task_queue run d ++ new /\ run_below run next d /\
      Forall2 (fun '(k, input) p => appended_row now run k input p.2) (zip (seqZ next (zlen tasks)) tasks) new /\
      Forall2 (fun p t => decode_task_row p.1 p.2 = Ok t) new out
  | ReplaceTask id task => exists r r' t, (id, r) ∈ task_queue run d /\ rt_state r = TPending /\ out = [t] /\
      task_queue run d' = map (fun p => if p.1 =? id then (id, r') else p) (task_queue run d) /\
      encode_task (input_task task) = Ok (rt_task r') /\ input_name task = Some (rt_name r') /\
      rt_sequence_nr r' = rt_sequence_nr r /\ rt_state r' = TPending /\ decode_task_row id r' = Ok t
  | RemoveTask id => exists r, (id, r) ∈ task_queue run d /\ rt_state r = TPending /\ out = [] /\
      task_queue run d' = filter (fun p => p.1 <> id) (task_queue run d)
  end.

Lemma write_row_ok id r (d d' : TaskTables) u : write_row id r d = (d', Ok u) -> d' = set_run_tasks (<[id := r]> (run_tasks d)) d.
Proof. unfold write_row. by destruct (row_conflict _ _ _); intros; simplify_eq. Qed.

Lemma task_queue_other run other (d d' : TaskTables) id r :
  run_tasks d !! id = Some r -> rt_run_id r = run -> other <> run ->
  (forall i o, i <> id -> run_tasks d' !! i = Some o <-> run_tasks d !! i = Some o) ->
  (forall o, run_tasks d' !! id = Some o -> rt_run_id o = run) -> task_queue other d' = task_queue other d.
Proof.
  intros Hr Hrun Hne Hsame Hid. apply task_queue_ext. intros i o Ho. destruct (decide (i = id)) as [->|]; [|by apply Hsame].
  split; intros Hi; exfalso; [specialize (Hid _ Hi)|]; congruence.
Qed.

Lemma edit_spec now run expected change (d d' : TaskTables) out :
  tasks_ok d -> sequence_fits (OpChange now run expected change) d ->
  apply_task_queue_change now run expected change d = (d', Ok out) ->
  queue_matches (task_queue run d) expected = true /\ edited now run change out d d' /\
  forall other, other <> run -> task_queue other d' = task_queue other d.
Proof.
  intros Hok Hfit Hc%transaction_ok. unfold se_bind at 1, lock_run in Hc. case_bool_decide; [|done].
  destruct (queue_matches _ _) eqn:Em; cbn [negb] in Hc; [|done]. split; [done|]. destruct change as [tasks|id task|id].
  - unfold append_tasks_in_transaction, next_sequence in Hc. cbv zeta in Hc. pose proof (last_sequence_nonneg run d Hok).
    change (default 0 (last_sequence run d) + zlen tasks <= i32_max) in Hfit. destruct (_ <=? i32_max); [|done].
    destruct (append_tasks_spec now run tasks (default 0 (last_sequence run d) + 1) d d' out Hok ltac:(lia) ltac:(lia) (last_sequence_below run d) Hc)
      as (new & Hq & _ & Hrows & Hout & Hother & _). split; [|done]. exists (default 0 (last_sequence run d) + 1), new.
      split_and!; [done|apply last_sequence_below|done..].
  - destruct (find _ _) as [[i r]|] eqn:Ef; [|done].
    apply find_queue in Ef as (Hr & Hrun & Hp & _). cbn in Hp. zbool. subst i.
    match goal with H : is_pending r = true |- _ => apply bool_decide_eq_true in H as Hs end.
    unfold replace_task, se_bind, se_lift, se_ret in Hc.
    destruct (encode_task _) as [value|] eqn:Ev; [cbn [protocol map_err] in Hc|done].
    destruct (canonical_task_toml task) as [toml|]; [cbn [map_err] in Hc|done]. destruct (input_name task) as [name|] eqn:En; [|done].
    destruct (write_row _ _ d) as [d1 [u|?]] eqn:Ew; [|done]. apply write_row_ok in Ew.
    destruct (decode_task_row _ _) as [t|] eqn:Et; [cbn [protocol map_err] in Hc|done]. simplify_eq.
    set (r' := set_definition name value toml r) in *. split.
    + exists r, r', t. split_and!; [by apply elem_of_task_queue|done..| |done|done|done|done|done].
      by apply (task_queue_update _ d id r r').
    + intros other Hne. apply (task_queue_other (rt_run_id r) other d _ id r); try done; cbn.
      * intros i o Hi. by rewrite lookup_insert_ne.
      * intros o. rewrite lookup_insert_eq. by intros [= <-].
  - destruct (find _ _) as [[i r]|] eqn:Ef; [|done].
    apply find_queue in Ef as (Hr & Hrun & Hp & _). cbn in Hp. zbool. subst i. simplify_eq.
    match goal with H : is_pending r = true |- _ => apply bool_decide_eq_true in H as Hs end. split.
    + exists r. split_and!; [by apply elem_of_task_queue|done..|apply task_queue_delete].
    + intros other Hne. apply (task_queue_other (rt_run_id r) other d _ id r); try done; cbn.
      * intros i o Hi. by rewrite lookup_delete_ne.
      * intros o. by rewrite lookup_delete_eq.
Qed.

Lemma activate_spec now run (d : TaskTables) :
  match activate_next_run_task now run d with
  | (d', Ok None) => d' = d /\ forall id r, (id, r) ∈ task_queue run d -> rt_state r <> TPending
  | (d', Ok (Some t)) => exists id r, (id, r) ∈ task_queue run d /\ rt_state r = TPending /\
      (forall j s, (j, s) ∈ task_queue run d -> rt_state s <> TActive /\ (rt_state s = TPending -> queue_le (id, r) (j, s))) /\
      decode_task_row id (activate_row now r) = Ok t /\
      run_tasks d' = <[id := activate_row now r]> (run_tasks d) /\
      runs_rows d' = (if runs_on_sampler_worker (task_spec (st_task t))
                      then alter (fun r => mkRunsRow (runs_name r) (runs_parent r) None) run (runs_rows d) else runs_rows d)
  | (d', Err _) => runs_rows d' = runs_rows d /\ run_tasks d' = run_tasks d /\ run_stage_snapshots d' = run_stage_snapshots d
  end.
Proof.
  destruct (activate_next_run_task now run d) as [d' [out|e]] eqn:Ea; unfold activate_next_run_task in Ea;
    [|by apply transaction_err in Ea].
  apply transaction_ok in Ea. destruct (find _ _) as [[id r]|] eqn:Ef.
  - apply find_queue in Ef as (Hr & Hrun & Hp & Hfirst). cbn in Hp, Hfirst. apply bool_decide_eq_true in Hp.
    unfold se_bind, se_lift, se_ret in Ea. destruct (write_row _ _ d) as [d1 [u|?]] eqn:Ew; [|done].
    destruct (decode_task_row _ _) as [t|] eqn:Et; cbn [protocol map_err] in Ea; [|done].
    unfold write_row in Ew. destruct (row_conflict _ _ _) eqn:Ec; [done|]. injection Ew as <- _.
    apply row_conflict_none in Ec as [_ Hc].
    assert (out = Some t) as -> by (unfold se_when, se_modify in Ea; destruct (runs_on_sampler_worker _); by injection Ea).
    exists id, r. split_and!; [by apply elem_of_task_queue|done| |done| |].
    + intros j s [Hj Hs]%elem_of_task_queue. split.
      * intros Hact. destruct (decide (j = id)) as [->|Hne]; [congruence|].
        destruct (Hc j s Hj Hne) as (_ & _ & Hn); [cbn; congruence|]. by apply Hn.
      * intros Hps. apply Hfirst; [done..|]. by apply bool_decide_eq_true.
    + unfold se_when, se_modify in Ea. destruct (runs_on_sampler_worker _); injection Ea as <-; done.
    + unfold se_when, se_modify in Ea. destruct (runs_on_sampler_worker _); injection Ea as <-; done.
  - injection Ea as <- <-. split; [done|]. intros id r Hin Hp.
    assert (is_pending r = true) as Hpr by by apply bool_decide_eq_true.
    apply find_none with (x := (id, r)) in Ef; [cbn in Ef; congruence|]. by apply list_elem_of_In.
Qed.

(** *** Child runs *)

Lemma find_by_key {A} (m : gmap Z A) (f : A -> bool) k x :
  find (fun q => f q.2) (by_key m) = Some (k, x) <->
  m !! k = Some x /\ f x = true /\ forall j y, m !! j = Some y -> f y = true -> k <= j.
Proof.
  assert (forall k x, find (fun q => f q.2) (by_key m) = Some (k, x) ->
    m !! k = Some x /\ f x = true /\ forall j y, m !! j = Some y -> f y = true -> k <= j) as Hfind.
  { clear k x. intros k x (l1 & l2 & Hl & Hf & Hl1)%find_first.
    assert (m !! k = Some x) as Hk by (apply elem_of_by_key; rewrite Hl; set_solver). split_and!; [done..|].
    intros j y Hj Hy. assert ((j, y) ∈ by_key m) as Hin by by apply elem_of_by_key.
    pose proof (by_key_sorted m) as Hs. rewrite Hl in Hin, Hs. apply elem_of_app in Hin as [Hin|[Heq|Hin]%elem_of_cons].
    - rewrite Forall_forall in Hl1. specialize (Hl1 _ Hin). cbn in Hl1. congruence.
    - simplify_eq. lia.
    - apply StronglySorted_app_1_r in Hs. apply StronglySorted_inv in Hs as [_ Hs]. rewrite Forall_forall in Hs.
      specialize (Hs _ Hin). unfold key_lt in Hs. cbn in Hs. lia. }
  split; [apply Hfind|]. intros (Hk & Hf & Hmin). destruct (find _ (by_key m)) as [[j y]|] eqn:Ef.
  - destruct (Hfind j y eq_refl) as (Hj & Hy & Hjmin). pose proof (Hmin j y Hj Hy). pose proof (Hjmin k x Hk Hf).
    assert (j = k) as -> by lia. congruence.
  - apply find_none with (x := (k, x)) in Ef; [cbn in Ef; congruence|]. by apply list_elem_of_In, elem_of_by_key.
Qed.

(** The first run of a parent and a label stays the first one. *)
Lemma existing_child_kept p id (d d' : TaskTables) :
  existing_child p d = Some id -> tasks_ok d -> history d d' -> existing_child p d' = Some id.
Proof.
  unfold existing_child. destruct (parent_task_id p); [|done]. destruct (spawn_label p); [|done].
  intros Hf Hok [_ _ Hruns Hfresh]. destruct (find _ (by_key (runs_rows d))) as [[k row]|] eqn:Ef; [|done].
  injection Hf as ->. apply find_by_key in Ef as (Hid & Hs & Hmin).
  destruct (Hruns id row Hid) as (row' & Hid' & Hp).
  assert (find (fun q => same_spawn p q.2) (by_key (runs_rows d')) = Some (id, row')) as ->; [|done].
  apply find_by_key. split_and!; [done| |].
  - unfold same_spawn in *. by rewrite Hp.
  - intros j y Hj Hy. destruct (runs_rows d !! j) as [o|] eqn:Ej.
    + apply (Hmin j o Ej). destruct (Hruns j o Ej) as (o' & Ho' & Hop). unfold same_spawn in *. rewrite Hj in Ho'.
      injection Ho' as <-. by rewrite <- Hop.
    + pose proof (ok_run_ids d Hok id row Hid). destruct (Z.lt_ge_cases j (next_run_id d)); [|lia].
      rewrite Hfresh in Hj by done. done.
Qed.

Lemma create_new_run_parent now name initial tasks p (d d' : TaskTables) run :
  create_new_run now name initial tasks (Some p) d = (d', Ok run) ->
  run = next_run_id d /\ runs_rows d' = <[next_run_id d := mkRunsRow name (Some p) None]> (runs_rows d).
Proof.
  unfold create_new_run, se_bind, insert_run. cbn. set (d1 := set_runs _ _).
  destruct (insert_run_stage_snapshot now (next_run_id d) (root_snapshot initial) d1) as [d2 [?|?]] eqn:Es; [|done].
  apply insert_snapshot_tasks in Es as (_ & Hr & _).
  destruct (insert_initial_tasks now (next_run_id d) 1 tasks d2) as [d3 [?|?]] eqn:Et; [|done]. intros [= <- <-].
  split; [done|]. change (runs_rows d1) with (<[next_run_id d := mkRunsRow name (Some p) None]> (runs_rows d)) in Hr.
  rewrite <- Hr. clear Hr. revert d2 Et. generalize 1. induction tasks as [|input tasks IH]; intros n d2.
  { by intros [= <- _]. }
  cbn [insert_initial_tasks]. cbv zeta. unfold se_bind, se_lift.
  destruct (map_err _ (encode_task _)); [|done]. destruct (map_err _ (canonical_task_toml _)); [|done].
  match goal with |- context [insert_row ?r d2] => pose proof (insert_row_spec r d2) as Hi; destruct (insert_row r d2) as [d4 [?|?]] end;
    [|done]. destruct Hi as (_ & -> & _). intros Ht. apply (IH _ _ Ht).
Qed.

Lemma create_run_existing now name initial tasks p (d d' : TaskTables) run :
  is_Some (parent_task_id p) -> is_Some (spawn_label p) -> tasks_ok d ->
  create_run now name initial tasks (Some p) d = (d', Ok run) ->
  existing_child p d' = Some run /\ is_Some (runs_rows d' !! parent_run_id p).
Proof.
  intros [task Ht] [label Hl] Hok Hc%transaction_ok. unfold se_bind at 1, lock_run in Hc. case_bool_decide as Hp; [|done].
  unfold se_bind, se_get in Hc. destruct (existing_child p d) as [id|] eqn:Ee; [by injection Hc as <- <-|].
  apply create_new_run_parent in Hc as [-> Hr]. rewrite Hr. split.
  - unfold existing_child in *. rewrite Ht, Hl in *. cbn in *. rewrite Hr.
    assert (find (fun q => same_spawn p q.2) (by_key (<[next_run_id d := mkRunsRow name (Some p) None]> (runs_rows d)))
      = Some (next_run_id d, mkRunsRow name (Some p) None)) as ->; [|done].
    apply find_by_key. split_and!; [by rewrite lookup_insert_eq| |].
    + unfold same_spawn. cbn. by rewrite Z.eqb_refl, String.eqb_refl, !bool_decide_eq_true_2 by done.
    + intros j y [[<- _]|[_ Hj]]%lookup_insert_Some Hy; [lia|].
      destruct (find _ (by_key (runs_rows d))) eqn:Ef; [done|].
      apply find_none with (x := (j, y)) in Ef; [cbn in Ef; congruence|]. by apply list_elem_of_In, elem_of_by_key.
  - destruct Hp as [o Ho]. pose proof (ok_run_ids d Hok _ _ Ho). rewrite lookup_insert_ne by lia. by eexists.
Qed.

(** ** What the task queue promises *)

(** C16: at any time the tasks of a run have distinct names and sequence numbers,
    at most one of them is active, and a task that is active or completed comes
    after tasks that have all ended: a run works through its queue in order. *)
Theorem tasks_run_in_sequence d :
  reachable d ->
  forall i j r s, run_tasks d !! i = Some r -> run_tasks d !! j = Some s -> rt_run_id r = rt_run_id s -> i <> j ->
    rt_sequence_nr r <> rt_sequence_nr s /\ rt_name r <> rt_name s /\
    ~ (rt_state r = TActive /\ rt_state s = TActive) /\ 0 <= rt_completed r <= rt_produced r /\
    (rt_sequence_nr r < rt_sequence_nr s -> started s -> terminal r).
Proof.
  intros Hok%reachable_ok i j r s Hi Hj Hrun Hne. destruct (ok_unlike d Hok j i s r Hj Hi ltac:(done) Hrun) as (? & ? & ?).
  split_and!; [done..|tauto| | |].
  - apply (ok_progress d Hok i r Hi).
  - apply (ok_progress d Hok i r Hi).
  - by apply (ok_order d Hok i j).
Qed.

(** C18: whatever happens to the queue, a task keeps its run and its place; only a
    pending task can be removed or renamed; and a task that has ended keeps its
    definition, its counts and the reason and the times of its end. *)
Theorem ended_tasks_are_final d d' :
  reachable d -> steps task_step d d' ->
  forall id r, run_tasks d !! id = Some r ->
    match run_tasks d' !! id with
    | Some r' => evolves r r'
    | None => rt_state r = TPending
    end.
Proof. intros Hok%reachable_ok Hs. apply (steps_keep d d' Hs Hok), Hok. Qed.

(** activation takes the first pending task of the queue, when no task of
    the run is active, and finds none only when no task is pending; a stage of a
    worker starts without a live accumulator; a failed activation changes no
    row. *)
Theorem activation_takes_the_first now run (d : TaskTables) :
  match activate_next_run_task now run d with
  | (d', Ok None) => d' = d /\ forall id r, (id, r) ∈ task_queue run d -> rt_state r <> TPending
  | (d', Ok (Some t)) => exists id r, (id, r) ∈ task_queue run d /\ rt_state r = TPending /\
      (forall j s, (j, s) ∈ task_queue run d -> rt_state s <> TActive /\ (rt_state s = TPending -> queue_le (id, r) (j, s))) /\
      decode_task_row id (activate_row now r) = Ok t /\
      run_tasks d' = <[id := activate_row now r]> (run_tasks d) /\
      runs_rows d' = (if runs_on_sampler_worker (task_spec (st_task t))
                      then alter (fun r => mkRunsRow (runs_name r) (runs_parent r) None) run (runs_rows d) else runs_rows d)
  | (d', Err _) => runs_rows d' = runs_rows d /\ run_tasks d' = run_tasks d /\ run_stage_snapshots d' = run_stage_snapshots d
  end.
Proof. apply activate_spec. Qed.

(** C17: an edit of the queue is applied only to the definitions it was validated
    against, and then does what it says to the queue of its run and nothing to
    another: it appends its tasks at the end, or replaces or removes one pending
    task. A refused edit changes no row. *)
Theorem queue_edit_is_atomic now run expected change (d : TaskTables) :
  reachable d -> sequence_fits (OpChange now run expected change) d ->
  match apply_task_queue_change now run expected change d with
  | (d', Ok out) => queue_matches (task_queue run d) expected = true /\ edited now run change out d d' /\
      forall other, other <> run -> task_queue other d' = task_queue other d
  | (d', Err _) => runs_rows d' = runs_rows d /\ run_tasks d' = run_tasks d /\ run_stage_snapshots d' = run_stage_snapshots d
  end.
Proof.
  intros Hok%reachable_ok Hfit. destruct (apply_task_queue_change now run expected change d) as [d' [out|e]] eqn:Ec.
  - by apply edit_spec.
  - unfold apply_task_queue_change in Ec. by apply transaction_err in Ec.
Qed.

(** a controller that creates a child again, after any number of other
    operations, gets the child it created before, and nothing is changed. *)
Theorem child_creation_is_idempotent now name initial tasks p (d d1 d2 : TaskTables) run now' name' initial' tasks' :
  is_Some (parent_task_id p) -> is_Some (spawn_label p) -> reachable d ->
  create_run now name initial tasks (Some p) d = (d1, Ok run) -> zlen tasks <= i32_max ->
  steps task_step d1 d2 ->
  create_run now' name' initial' tasks' (Some p) d2 = (d2, Ok run).
Proof.
  intros Ht Hl Hok%reachable_ok Hc Hfit Hs. destruct (create_run_existing _ _ _ _ _ _ _ _ Ht Hl Hok Hc) as [He [o Hp]].
  assert (tasks_ok d1) as Hok1.
  { pose proof (create_run_keeps now name initial tasks (Some p) d Hok Hfit) as (_ & _ & Hk). rewrite Hc in Hk. by apply Hk. }
  destruct (steps_keep d1 d2 Hs Hok1) as (_ & _ & Hk). destruct (Hk Hok1) as [_ Hh].
  destruct (hist_runs _ _ Hh _ _ Hp) as (o' & Ho' & _).
  unfold create_run, transaction, se_bind at 1, lock_run. rewrite bool_decide_eq_true_2 by by eexists.
  unfold se_bind, se_get. by rewrite (existing_child_kept p run d1 d2 He Hok1 Hh).
Qed.

End task_queue.
