(* ===== verification/StageContext.v ===== *)
(** src/runners/stage_context.rs and src/services/stage.rs: where a stage takes its
    evaluator, its sampler, its transforms and its accumulator from.

    The store is the tables of TaskStore.v. A saved sampler is read with the
    format version of this build, so the version test is left out; the two tests
    on its JSON state are the class [SavedStates]. *)
From S2P Require Import Prelude Floats Errors Domain Batch Config LatentBatch Generation AccumulatorTrait Scalar Stratification Vector Gammaloop AccumulatorState Extraction Raster Queue Tasks Runner TaskStore.

(** [StoreError]'s [Display] *)
Definition store_error_message (e : StoreError) : string :=
  match e with
  | Internal m => String.append "store internal error: " m
  | InvalidInput m => String.append "invalid input: " m
  | NotFound m => String.append "not found: " m
  | Database m => String.append "database error: " m
  | RetryActivation m => String.append "runtime activation must be retried: " m
  | Serialization m => String.append "serialization error: " m
  | BatchOwnershipLost id uuid =>
      String.append "batch " (String.append (Scalar.show_i64 id)
        (String.append " is no longer owned by node uuid '" (String.append uuid "'")))
  end.

Definition HAVANA_HANDOFF_REQUIRED_ERROR : string :=
  "havana_inference sampler requires a havana training or inference snapshot handoff".
Definition PDF_ADAPTATION_HANDOFF_REQUIRED_ERROR : string :=
  "pdf_adaptation sampler requires a persisted sampler snapshot handoff".

Section stage_context.
Context {J : Type} {TV : TomlValues} {E : Type} {LM : Libm} {OB : Observables} {TC : @TaskCodec J TV E}.

Notation TaskTables := (@TaskTables J TV E OB TC).
Notation RunTask := (@RunTask J TV E).
Notation RunStageSnapshot := (@RunStageSnapshot J E OB).
Notation SamplingConfig := (@SamplingConfig J).
Notation SavedSampler := (@SavedSampler J).
Notation BatchTransformConfig := (@BatchTransformConfig J).

Class SavedStates := {
  state_is_null : J -> bool;
  (** [state.get("grid").is_some()] *)
  state_has_grid : J -> bool
}.
Context {SS : SavedStates}.

(** A snapshot with its identifier. *)
Notation Snapshot := (i64 * RunStageSnapshot)%type.

(** ** Saved samplers *)

Definition saved_validate (saved : SavedSampler) : result EngineError unit :=
  if state_is_null (saved_state saved) then Err (Build "unsupported or empty saved sampler state") else Ok tt.

Definition contains_havana_grid (saved : SavedSampler) : bool :=
  is_ok (saved_validate saved)
  && match sampler_of (saved_config saved) with HavanaTraining _ | HavanaInferenceSampler _ => true | _ => false end
  && state_has_grid (saved_state saved).

Definition stratification_eqb (a b : option StratificationConfig) : bool :=
  match a, b with Some a, Some b => partition_eqb a b | None, None => true | _, _ => false end.

Definition inherit_stratification (config : SamplingConfig) (source : SavedSampler) : result EngineError SamplingConfig :=
  let inherited := stratification_of (saved_config source) in
  match stratification_of config with
  | Some _ =>
      if stratification_eqb (stratification_of config) inherited
      then Ok (mkSamplingConfig inherited (sampler_of config) (materializer config) (transforms config))
      else Err (InvalidInputE "changing the stratification partition requires retraining")
  | None => Ok (mkSamplingConfig inherited (sampler_of config) (materializer config) (transforms config))
  end.

Definition stage_sampler_config (s : RunStageSnapshot) : option SamplingConfig := saved_config <$> stage_sampler_snapshot s.

(** ** Sources *)

Definition source_lookup_error : StoreError := Internal "task references a source task that does not exist".
Definition source_snapshot_missing_error : StoreError := Internal "source task has no queue-empty stage snapshot".

Definition resolve_named_source_snapshot (d : TaskTables) (run : i32) (t : RunTask) (source_name : string)
    : result StoreError (option Snapshot) :=
  let? tasks := list_run_tasks run d in
  let? source := ok_or source_lookup_error (find (fun c => String.eqb (task_name (st_task c)) source_name) tasks) in
  let source := st_task source in
  if task_sequence_nr t <=? task_sequence_nr source then Err (Internal "source task is not prior in sequence")
  else
    let? snapshot := ok_or source_snapshot_missing_error
                       (load_latest_stage_snapshot_before_sequence run (task_sequence_nr source + 1) d) in
    if bool_decide (stage_task_id snapshot.2 = Some (task_id source)) then Ok (Some snapshot)
    else Err source_snapshot_missing_error.

Definition resolve_task_source_snapshot (d : TaskTables) (run : i32) (t : RunTask) (source : option SourceRefSpec)
    : result StoreError (option Snapshot) :=
  match source with
  | Some LatestSource => Ok (load_latest_stage_snapshot_before_sequence run (task_sequence_nr t) d)
  | Some (FromNameSource name) => resolve_named_source_snapshot d run t name
  | None => Ok None
  end.

(** A state's configuration, whose computation may panic. *)
Definition observable_config (s : RunStageSnapshot) : option (result EngineError AccumulatorConfig) :=
  state_config <$> stage_observable_state s.

Definition try_resolve_effective_sample_accumulator_config (d : TaskTables) (run : i32) (t : RunTask)
    : result StoreError (option (result EngineError AccumulatorConfig)) :=
  match new_accumulator_config (task_spec t) with
  | Some config => Ok (Some (Ok config))
  | None =>
      let? source := resolve_task_source_snapshot d run t (accumulator_config_source (task_spec t)) in
      match source ≫= (fun s => observable_config s.2) with
      | Some config => Ok (Some config)
      | None =>
          Ok (load_latest_stage_snapshot_before_sequence run (task_sequence_nr t) d ≫= fun s => observable_config s.2)
      end
  end.

(** The latest stage before [sequence_nr] with a Havana grid. Each round goes to
    a smaller positive sequence number: [sequence_nr] rounds are enough. *)
Fixpoint havana_search (fuel : nat) (d : TaskTables) (run search_seq : i32) : option Snapshot :=
  match fuel with
  | O => None
  | S fuel =>
      match load_latest_stage_snapshot_before_sequence run search_seq d with
      | None => None
      | Some s =>
          if match stage_sampler_snapshot s.2 with Some saved => contains_havana_grid saved | None => false end then Some s
          else
            let prev_seq := default 0 (stage_sequence_nr s.2) in
            if prev_seq <=? 0 then None else havana_search fuel d run prev_seq
      end
  end.
Definition find_latest_havana_snapshot_before_sequence (d : TaskTables) (run sequence_nr : i32) : option Snapshot :=
  havana_search (S (Z.to_nat sequence_nr)) d run sequence_nr.

(** ** The context of a stage *)

Record StageConfigProvenance := mkProvenance {
  pv_name : string;
  pv_task_id : option i64;
  pv_snapshot_id : option i64
}.
Definition from_task (t : RunTask) : StageConfigProvenance := mkProvenance (task_name t) (Some (task_id t)) None.
Definition from_snapshot (s : Snapshot) : StageConfigProvenance :=
  mkProvenance (stage_name s.2) (stage_task_id s.2) (Some s.1).

Record StageHandoffOwned := mkHandoff {
  ho_sampler_snapshot : option SavedSampler;
  ho_observable_state : option AccumulatorState
}.
Definition handoff_of (s : RunStageSnapshot) : StageHandoffOwned := mkHandoff (stage_sampler_snapshot s) (stage_observable_state s).

Inductive SamplerInitialization :=
| Fresh (config : SamplingConfig)
| RestoreSaved (saved : SavedSampler)
| FromStage (config : SamplingConfig) (source : StageHandoffOwned).

Definition initialization_config (i : SamplerInitialization) : SamplingConfig :=
  match i with Fresh config | FromStage config _ => config | RestoreSaved saved => saved_config saved end.

Definition diagnostic_accumulator_config (i : SamplerInitialization) : option (result EngineError AccumulatorConfig) :=
  match i with
  | FromStage config source =>
      match sampler_of config with
      | PdfAdaptationRasterPlane _ | PdfAdaptationRasterLine _ => state_config <$> ho_observable_state source
      | _ => None
      end
  | _ => None
  end.

(** What the materializer of a stage is built from. *)
Definition materializer_source (i : SamplerInitialization) : option StageHandoffOwned :=
  match i with
  | Fresh _ => None
  | RestoreSaved saved => Some (mkHandoff (Some saved) None)
  | FromStage _ source => Some source
  end.

Record ResolvedStageContext := mkStageContext {
  rs_evaluator_config : E;
  rs_evaluator_provenance : StageConfigProvenance;
  rs_sampler : SamplerInitialization;
  rs_sampler_provenance : StageConfigProvenance;
  rs_batch_transforms : list BatchTransformConfig
}.

Definition or_else {A} (a b : option A) : option A := match a with Some _ => a | None => b end.

(** The first configuration of: the task, its source, the latest stage. *)
Definition pick_config {A} (t : RunTask) (own : option A) (get : RunStageSnapshot -> option A) (source base : option Snapshot)
    : option (A * StageConfigProvenance) :=
  match own with
  | Some config => Some (config, from_task t)
  | None =>
      let from s := config ← get s.2; Some (config, from_snapshot s) in
      or_else (source ≫= from) (base ≫= from)
  end.

Definition has_from_stage (t : RunTask) : bool :=
  match task_spec t with Sample _ _ _ _ _ (Some (SrcFromStage _ _ _)) _ _ _ => true | _ => false end.

Definition has_grid (s : RunStageSnapshot) : bool :=
  match stage_sampler_snapshot s with Some saved => contains_havana_grid saved | None => false end.

(** A sampler of its own configuration: some kinds need the state of a stage. *)
Definition initialize_own (d : TaskTables) (run fallback_sequence_nr : i32) (config : SamplingConfig)
    (sampler_source base : option Snapshot) : result StoreError SamplerInitialization :=
  match sampler_of config with
  | HavanaInferenceSampler _ =>
      let source := match sampler_source with
                    | Some _ => sampler_source
                    | None => find_latest_havana_snapshot_before_sequence d run fallback_sequence_nr
                    end in
      let? source := ok_or (Internal HAVANA_HANDOFF_REQUIRED_ERROR) source in
      if has_grid source.2 then Ok (FromStage config (handoff_of source.2))
      else Err (Internal HAVANA_HANDOFF_REQUIRED_ERROR)
  | PdfAdaptationRasterPlane _ | PdfAdaptationRasterLine _ =>
      match or_else sampler_source base with
      | Some s => if bool_decide (is_Some (stage_sampler_snapshot s.2)) then Ok (FromStage config (handoff_of s.2))
                  else Err (Internal PDF_ADAPTATION_HANDOFF_REQUIRED_ERROR)
      | None => Err (Internal PDF_ADAPTATION_HANDOFF_REQUIRED_ERROR)
      end
  | _ => Ok (Fresh config)
  end.

Definition choose_sampler (d : TaskTables) (run : i32) (t : RunTask) (fallback_sequence_nr : i32)
    (restored : option SavedSampler) (explicit : bool) (config : SamplingConfig) (sampler_source base : option Snapshot)
    : result StoreError SamplerInitialization :=
  match restored with
  | Some saved => Ok (RestoreSaved saved)
  | None =>
      match (if explicit then None
             else s ← or_else sampler_source base; stage_sampler_snapshot s.2) with
      | Some saved => Ok (RestoreSaved saved)
      | None =>
          if has_from_stage t then
            let? source := ok_or (Internal "sampler handoff stage is missing") sampler_source in
            if bool_decide (is_Some (stage_sampler_snapshot source.2)) then Ok (FromStage config (handoff_of source.2))
            else Err (Internal "sampler handoff stage has no saved sampler")
          else initialize_own d run fallback_sequence_nr config sampler_source base
      end
  end.

(** A handoff keeps the partition its source was trained on. *)
Definition keep_partition (i : SamplerInitialization) : result StoreError SamplerInitialization :=
  match i with
  | FromStage config source =>
      match ho_sampler_snapshot source with
      | Some saved =>
          let? config := map_err (fun e => Internal (engine_message e)) (inherit_stratification config saved) in
          Ok (FromStage config source)
      | None => Ok i
      end
  | _ => Ok i
  end.

Definition resolve_stage_context (d : TaskTables) (run : i32) (t : RunTask) (fallback_sequence_nr : i32)
    (restored : option SavedSampler) : result StoreError ResolvedStageContext :=
  let spec := task_spec t in
  let explicit := bool_decide (is_Some (task_sampler_config spec)) || bool_decide (is_Some (sample_sampler_config spec)) in
  let? sampler_source := resolve_task_source_snapshot d run t (sample_sampler_source spec) in
  let? evaluator_source := resolve_task_source_snapshot d run t (evaluator_source spec) in
  let base := load_latest_stage_snapshot_before_sequence run fallback_sequence_nr d in
  let? evaluator := ok_or (Internal "task has no evaluator configuration")
                      (pick_config t (evaluator_config spec) stage_evaluator evaluator_source base) in
  let? sampler_config := ok_or (Internal "task has no sampler configuration")
                           (pick_config t (or_else (task_sampler_config spec) (sample_sampler_config spec))
                              stage_sampler_config sampler_source base) in
  let batch_transforms := default [] (or_else (batch_transforms_config spec)
                            (or_else ((fun s => stage_batch_transforms s.2) <$> sampler_source)
                               ((fun s => stage_batch_transforms s.2) <$> base))) in
  let? sampler := choose_sampler d run t fallback_sequence_nr restored explicit sampler_config.1 sampler_source base in
  let? sampler := keep_partition sampler in
  Ok (mkStageContext evaluator.1 evaluator.2 sampler sampler_config.2 batch_transforms).

End stage_context.
