(* ===== verification/StageResolution.v ===== *)
(** What src/runners/stage_context.rs promises: a stage depends only on finished
    stages before it, a checkpoint is restored as it is, a handoff keeps the
    partition its sampler was trained on, and the search for a Havana grid ends
    with the latest one. *)
From S2P Require Import Prelude Floats Errors Domain Batch Config LatentBatch Generation AccumulatorTrait Scalar Stratification Vector Gammaloop AccumulatorState Extraction Raster Queue Tasks Runner TaskStore StageContext.

Section stage_resolution.
Context {J : Type} {TV : TomlValues} {E : Type} {LM : Libm} {OB : Observables} {TC : @TaskCodec J TV E} {SS : @SavedStates J}.

Notation TaskTables := (@TaskTables J TV E OB TC).
Notation RunTask := (@RunTask J TV E).
Notation RunStageSnapshot := (@RunStageSnapshot J E OB).
Notation SavedSampler := (@SavedSampler J).
Notation SnapshotRow := (@SnapshotRow J E OB).
Notation Snapshot := (i64 * RunStageSnapshot)%type.
Notation SamplingConfig := (@SamplingConfig J).

(** ** The latest snapshot *)

Lemma later_asym (a b : i64 * SnapshotRow) : later a b = true -> later b a = false.
Proof.
  unfold later. destruct (stage_sequence_nr _) as [x|], (stage_sequence_nr _) as [y|]; try done;
    rewrite ?orb_true_iff, ?orb_false_iff, ?andb_true_iff, ?andb_false_iff, ?Z.ltb_lt, ?Z.ltb_ge, ?Z.eqb_eq, ?Z.eqb_neq; lia.
Qed.

Lemma later_neg_trans (x b a : i64 * SnapshotRow) : later x b = false -> later b a = false -> later x a = false.
Proof.
  unfold later. destruct (stage_sequence_nr (sn_stage x.2)) as [p|], (stage_sequence_nr (sn_stage b.2)) as [q|],
    (stage_sequence_nr (sn_stage a.2)) as [r|]; try done;
    rewrite ?orb_false_iff, ?andb_false_iff, ?Z.ltb_ge, ?Z.eqb_neq; lia.
Qed.

Lemma first_by_spec (l : list (i64 * SnapshotRow)) :
  match first_by later l with
  | Some a => a ∈ l /\ forall b, b ∈ l -> later b a = false
  | None => l = []
  end.
Proof.
  assert (forall a : i64 * SnapshotRow, later a a = false) as Hirr.
  { intros a. destruct (later a a) eqn:Ea; [|done]. pose proof (later_asym a a Ea). congruence. }
  induction l as [|a l IH]; [done|]. cbn [first_by foldr]. fold (first_by later l).
  destruct (first_by later l) as [b|]; [|subst l; split; [by left|intros b ->%list_elem_of_singleton; apply Hirr]].
  destruct IH as [Hb Hmin]. destruct (later b a) eqn:Eba.
  - split; [by right|]. intros x [->|Hx]%elem_of_cons; [by apply later_asym|auto].
  - split; [by left|]. intros x [->|Hx]%elem_of_cons; [apply Hirr|]. eapply later_neg_trans; [by apply Hmin|done].
Qed.

(** A snapshot of [run] that a finished stage before [n] left. *)
Definition finished_before (d : TaskTables) (run n : i32) (s : Snapshot) : Prop :=
  exists row, run_stage_snapshots d !! s.1 = Some row /\ sn_stage row = s.2 /\ sn_run_id row = run /\
    stage_queue_empty s.2 = true /\ match stage_sequence_nr s.2 with Some k => k < n | None => True end.

Definition row_of (d : TaskTables) (s : Snapshot) : option (i64 * SnapshotRow) := row ← run_stage_snapshots d !! s.1; Some (s.1, row).

Lemma before_sequence_finished (d : TaskTables) run n id row :
  run_stage_snapshots d !! id = Some row -> before_sequence run n row = true <-> finished_before d run n (id, sn_stage row).
Proof.
  intros Hid. unfold before_sequence, finished_before. cbn. split.
  - intros H. zbool. exists row. split_and!; [done..|]. case_match; [by apply Z.ltb_lt|done].
  - intros (row' & Hid' & _ & Hrun & Hq & Hs). rewrite Hid in Hid'. injection Hid' as <-.
    rewrite Hrun, Z.eqb_refl, Hq. cbn. case_match; [by apply Z.ltb_lt|done].
Qed.

Lemma load_latest_spec (d : TaskTables) run n :
  match load_latest_stage_snapshot_before_sequence run n d with
  | Some s => finished_before d run n s /\
      forall p, finished_before d run n p -> exists row row', row_of d p = Some row /\ row_of d s = Some row' /\ later row row' = false
  | None => forall p, ~ finished_before d run n p
  end.
Proof.
  unfold load_latest_stage_snapshot_before_sequence.
  pose proof (first_by_spec (filter (fun p => before_sequence run n p.2 = true) (map_to_list (run_stage_snapshots d)))) as Hf.
  destruct (first_by later _) as [[id row]|]; cbn.
  - destruct Hf as [[Hb Hid%elem_of_map_to_list]%list_elem_of_filter Hmin]. cbn in Hb.
    split; [by apply (before_sequence_finished d)|].
    intros [j s] (row' & Hj & Hs & Hrest). exists (j, row'), (id, row). unfold row_of. cbn in *.
    rewrite Hj, Hid. cbn. split_and!; [done..|]. apply Hmin. apply list_elem_of_filter. split; [|by apply elem_of_map_to_list].
    cbn. apply (before_sequence_finished d run n j row' Hj). subst s. by exists row'.
  - intros [j s] (row' & Hj & Hs & Hrest). cbn in *.
    assert ((j, row') ∈ filter (fun p => before_sequence run n p.2 = true) (map_to_list (run_stage_snapshots d))) as Hin.
    { apply list_elem_of_filter. split; [|by apply elem_of_map_to_list]. cbn.
      apply (before_sequence_finished d run n j row' Hj). subst s. by exists row'. }
    rewrite Hf in Hin. by apply elem_of_nil in Hin.
Qed.

Lemma load_latest_finished (d : TaskTables) run n s :
  load_latest_stage_snapshot_before_sequence run n d = Some s -> finished_before d run n s.
Proof. intros H. pose proof (load_latest_spec d run n) as Hl. rewrite H in Hl. apply Hl. Qed.

Lemma finished_before_mono (d : TaskTables) run n m s : n <= m -> finished_before d run n s -> finished_before d run m s.
Proof. intros Hle (row & ? & ? & ? & ? & Hs). exists row. split_and!; [done..|]. case_match; lia. Qed.

(** ** Sources *)

Lemma resolve_source_finished (d : TaskTables) run (t : RunTask) source s :
  resolve_task_source_snapshot d run t source = Ok (Some s) -> finished_before d run (task_sequence_nr t) s.
Proof.
  destruct source as [[|name]|]; cbn; [| |done].
  - intros [= H]. by apply load_latest_finished.
  - unfold resolve_named_source_snapshot. intros H. inv_ok. destruct (_ <=? _) eqn:El; [done|]. inv_ok. case_bool_decide; [|done].
    simplify_eq. zbool. eapply finished_before_mono; [|by eapply load_latest_finished]. lia.
Qed.

(** ** Choosing *)

Lemma pick_config_spec {A} (t : RunTask) (own : option A) get source base config pv :
  pick_config t own get source base = Some (config, pv) ->
  (own = Some config /\ pv = from_task t) \/
  (own = None /\ exists s, (source = Some s \/ base = Some s) /\ get s.2 = Some config /\ pv = from_snapshot s).
Proof.
  unfold pick_config. destruct own as [c|]; [intros [= <- <-]; by left|]. intros H. right. split; [done|].
  destruct source as [s|]; cbn in H.
  - destruct (get s.2) as [c|] eqn:Eg; cbn in H; [simplify_eq; eauto|].
    destruct base as [b|]; cbn in H; [|done]. destruct (get b.2) eqn:Eb; cbn in H; [|done]. simplify_eq. eauto.
  - destruct base as [b|]; cbn in H; [|done]. destruct (get b.2) eqn:Eb; cbn in H; [|done]. simplify_eq. eauto.
Qed.

(** The sampler configuration of the task itself. *)
Definition own_sampler_config (t : RunTask) : option SamplingConfig :=
  or_else (task_sampler_config (task_spec t)) (sample_sampler_config (task_spec t)).

(** The configuration of the sampler, of the task itself or, when it has none, of
    a finished stage, and the provenance that names which. *)
Definition configured_by (d : TaskTables) (run : i32) (t : RunTask) (config : SamplingConfig) (pv : StageConfigProvenance) : Prop :=
  (own_sampler_config t = Some config /\ pv = from_task t) \/
  (own_sampler_config t = None /\ exists s, finished_before d run (task_sequence_nr t) s /\
     stage_sampler_config s.2 = Some config /\ pv = from_snapshot s).

(** A sampler's configuration after it took over the state of another stage. *)
Definition handed_over (config : SamplingConfig) (saved : SavedSampler) : SamplingConfig :=
  mkSamplingConfig (stratification_of (saved_config saved)) (sampler_of config) (materializer config) (transforms config).

(** How a stage's sampler starts, for the configuration and the provenance chosen:
    fresh with that configuration; from the saved sampler of the checkpoint or, when
    the task configures none, of the stage the provenance names; or with that
    configuration on the state, and the partition, of a finished stage. *)
Definition initialized_from (d : TaskTables) (run : i32) (t : RunTask) (restored : option SavedSampler)
    (config : SamplingConfig) (pv : StageConfigProvenance) (i : SamplerInitialization) : Prop :=
  match i with
  | Fresh c => restored = None /\ c = config
  | RestoreSaved saved =>
      restored = Some saved \/
      (restored = None /\ own_sampler_config t = None /\
       exists s, finished_before d run (task_sequence_nr t) s /\ stage_sampler_snapshot s.2 = Some saved /\ pv = from_snapshot s)
  | FromStage c source =>
      restored = None /\ exists s saved, finished_before d run (task_sequence_nr t) s /\ source = handoff_of s.2 /\
        stage_sampler_snapshot s.2 = Some saved /\ c = handed_over config saved
  end.

(** What [choose_sampler] returns, before the handoff of the partition. *)
Definition chosen_from (d : TaskTables) (run n : i32) (restored : option SavedSampler) (explicit : bool) (config : SamplingConfig)
    (source base : option Snapshot) (i : SamplerInitialization) : Prop :=
  match i with
  | Fresh c => restored = None /\ c = config
  | RestoreSaved saved =>
      restored = Some saved \/
      (restored = None /\ explicit = false /\ exists s, or_else source base = Some s /\ stage_sampler_snapshot s.2 = Some saved)
  | FromStage c source =>
      restored = None /\ c = config /\
      exists s, finished_before d run n s /\ source = handoff_of s.2 /\ is_Some (stage_sampler_snapshot s.2)
  end.

(** A sampler that only evaluates a trained grid has one. *)
Definition trained_grid (i : SamplerInitialization) : Prop :=
  match i with
  | FromStage config source =>
      match sampler_of config, ho_sampler_snapshot source with
      | HavanaInferenceSampler _, Some saved => contains_havana_grid saved = true
      | HavanaInferenceSampler _, None => False
      | _, _ => True
      end
  | _ => True
  end.

Lemma or_else_cases {A} (a b : option A) x : or_else a b = Some x -> a = Some x \/ b = Some x.
Proof. destruct a; cbn; auto. Qed.

(** Each round of the search goes to a smaller sequence number. *)
Lemma havana_search_finished fuel (d : TaskTables) run n s :
  havana_search fuel d run n = Some s -> finished_before d run n s /\ has_grid s.2 = true.
Proof.
  revert n. induction fuel as [|fuel IH]; intros n; cbn; [done|].
  destruct (load_latest_stage_snapshot_before_sequence run n d) as [p|] eqn:El; [|done].
  apply load_latest_finished in El. fold (has_grid p.2). destruct (has_grid p.2) eqn:Eg; [by intros [= <-]|].
  destruct (_ <=? 0) eqn:E0; [done|]. intros H%IH. destruct H as [Hf Hg]. split; [|done].
  eapply finished_before_mono; [|exact Hf]. destruct El as (_ & _ & _ & _ & _ & Hs).
  destruct (stage_sequence_nr p.2); cbn in *; [lia|done].
Qed.

Lemma choose_sampler_spec (d : TaskTables) run (t : RunTask) n restored explicit config source base i :
  choose_sampler d run t n restored explicit config source base = Ok i ->
  (forall s, source = Some s -> finished_before d run n s) -> (forall s, base = Some s -> finished_before d run n s) ->
  chosen_from d run n restored explicit config source base i /\ (has_from_stage t = false -> trained_grid i).
Proof.
  intros H Hsource Hbase. unfold choose_sampler in H. destruct restored as [saved|].
  { simplify_eq. cbn. split; [by left|done]. }
  destruct (if explicit then None else _) as [saved|] eqn:Es.
  { destruct explicit; [done|]. simplify_eq. destruct (or_else source base) as [s|] eqn:Eo; [|done]. cbn in Es.
    cbn. split; [|done]. right. split_and!; [done..|]. by exists s. }
  destruct (has_from_stage t) eqn:Ef.
  { inv_ok. case_bool_decide; [|done]. simplify_eq. split; [|done]. split_and!; [done..|]. exists x. split_and!; [auto|done..]. }
  unfold initialize_own in H. destruct (sampler_of config) eqn:Ek; try (simplify_eq; cbn; by split_and!).
  - destruct (or_else source base) as [s|] eqn:Eo; [|done]. case_bool_decide; [|done]. simplify_eq. cbn. rewrite Ek.
    split; [|done]. split_and!; [done..|]. exists s. split_and!; [apply or_else_cases in Eo as [?|?]; auto|done..].
  - destruct (or_else source base) as [s|] eqn:Eo; [|done]. case_bool_decide; [|done]. simplify_eq. cbn. rewrite Ek.
    split; [|done]. split_and!; [done..|]. exists s. split_and!; [apply or_else_cases in Eo as [?|?]; auto|done..].
  - cbv zeta in H. inv_ok. destruct (has_grid x.2) eqn:Eg; [|done]. simplify_eq. unfold has_grid in Eg.
    assert (finished_before d run n x) as Hx.
    { destruct source as [s|]; [simplify_eq; auto|]. by eapply havana_search_finished. }
    cbn. rewrite Ek. split; [|by destruct (stage_sampler_snapshot x.2)].
    split_and!; [done..|]. exists x. split_and!; [done..|]. destruct (stage_sampler_snapshot x.2); [by eexists|done].
Qed.

Lemma inherit_stratification_keeps config (saved : SavedSampler) c :
  inherit_stratification config saved = Ok c -> c = handed_over config saved.
Proof. unfold inherit_stratification, handed_over. cbv zeta. intros H. break; done. Qed.

(** The snapshot a stage ended with: the last one of its sequence number. *)
Definition stage_result (d : TaskTables) (run k : i32) (p : Snapshot) : Prop :=
  finished_before d run (k + 1) p /\ stage_sequence_nr p.2 = Some k /\
  forall q, finished_before d run (k + 1) q -> stage_sequence_nr q.2 = Some k -> q.1 <= p.1.

Lemma load_latest_result (d : TaskTables) run n s k p :
  load_latest_stage_snapshot_before_sequence run n d = Some s -> k < n -> stage_result d run k p ->
  match stage_sequence_nr s.2 with Some k0 => k <= k0 /\ (k = k0 -> p = s) | None => False end.
Proof.
  intros Hl Hk (Hp & Hpk & Hmax). pose proof (load_latest_spec d run n) as Hs. rewrite Hl in Hs. destruct Hs as [Hs Hall].
  destruct (Hall p ltac:(eapply finished_before_mono; [|done]; lia)) as (r & r' & Hr & Hr' & Hlater).
  destruct Hp as (row & Hid & Hrow & _). destruct Hs as (row' & Hid' & Hrow' & Hrun' & Hq' & Hs').
  unfold row_of in Hr, Hr'. rewrite Hid in Hr. rewrite Hid' in Hr'. cbn in Hr, Hr'. simplify_eq.
  unfold later in Hlater. cbn in Hlater. rewrite Hrow, Hrow', Hpk in Hlater.
  destruct (stage_sequence_nr s.2) as [k0|] eqn:Ek0; [|done].
  apply orb_false_iff in Hlater as [Hlt Hle]. zbool. split; [done|]. intros ->.
  rewrite Z.eqb_refl in Hle. cbn in Hle. zbool.
  assert (s.1 <= p.1) as Hge.
  { apply Hmax; [|done]. exists row'. split_and!; [done..|]. rewrite Ek0. lia. }
  destruct p as [i sp], s as [j ss]. cbn in *. assert (i = j) as -> by lia. congruence.
Qed.

Lemma havana_search_spec fuel (d : TaskTables) run n :
  (Z.to_nat n < fuel)%nat ->
  match havana_search fuel d run n with
  | Some s => forall k p, k < n -> stage_result d run k p -> has_grid p.2 = true ->
      match stage_sequence_nr s.2 with Some j => k <= j | None => False end
  | None => forall k p, 0 <= k < n -> stage_result d run k p -> has_grid p.2 = false
  end.
Proof.
  revert n. induction fuel as [|fuel IH]; intros n Hfuel; [lia|]. cbn [havana_search].
  destruct (load_latest_stage_snapshot_before_sequence run n d) as [s|] eqn:El.
  2:{ intros k p Hk (Hp & _). exfalso. pose proof (load_latest_spec d run n) as Hl. rewrite El in Hl.
      eapply Hl, finished_before_mono; [|exact Hp]. lia. }
  fold (has_grid s.2). pose proof (fun k p => load_latest_result d run n s k p El) as Hres.
  destruct (has_grid s.2) eqn:Eg.
  { intros k p Hk Hp _. specialize (Hres k p Hk Hp). destruct (stage_sequence_nr s.2); [lia|done]. }
  cbv zeta. destruct (_ <=? 0) eqn:E0; zbool.
  { intros k p Hk Hp. specialize (Hres k p ltac:(lia) Hp). destruct (stage_sequence_nr s.2) as [k0|]; [|done].
    cbn in E0. destruct Hres as [? Heq]. by rewrite (Heq ltac:(lia)). }
  destruct (stage_sequence_nr s.2) as [k0|] eqn:Ek0; cbn in *; [|lia].
  assert (k0 < n) as Hlt.
  { pose proof (load_latest_finished d run n s El) as (_ & _ & _ & _ & _ & Hs). by rewrite Ek0 in Hs. }
  specialize (IH k0 ltac:(lia)). destruct (havana_search fuel d run k0) as [s'|].
  - intros k p Hk Hp Hg. destruct (Hres k p Hk Hp) as [Hle Heq]. destruct (decide (k = k0)) as [->|].
    + rewrite (Heq eq_refl) in Hg. congruence.
    + apply (IH k p); [lia|done..].
  - intros k p Hk Hp. destruct (Hres k p ltac:(lia) Hp) as [Hle Heq]. destruct (decide (k = k0)) as [->|].
    + by rewrite (Heq eq_refl).
    + apply (IH k p); [lia|done].
Qed.

(** ** Theorems *)

(** the search for a Havana grid ends, with the result of the latest stage
    before the task that has one, or with nothing when no stage before it has
    one. *)
Theorem havana_source_is_the_latest (d : TaskTables) run n :
  match find_latest_havana_snapshot_before_sequence d run n with
  | Some s => finished_before d run n s /\ has_grid s.2 = true /\
      forall k p, k < n -> stage_result d run k p -> has_grid p.2 = true ->
        match stage_sequence_nr s.2 with Some j => k <= j | None => False end
  | None => forall k p, 0 <= k < n -> stage_result d run k p -> has_grid p.2 = false
  end.
Proof.
  unfold find_latest_havana_snapshot_before_sequence.
  pose proof (havana_search_spec (S (Z.to_nat n)) d run n ltac:(lia)) as Hs.
  destruct (havana_search _ _ _ _) as [s|] eqn:Eh; [|done]. apply havana_search_finished in Eh as [? ?]. done.
Qed.

Lemma resolve_stage_context_spec (d : TaskTables) run (t : RunTask) restored c :
  resolve_stage_context d run t (task_sequence_nr t) restored = Ok c ->
  exists i source base,
    (forall s, source = Some s -> finished_before d run (task_sequence_nr t) s) /\
    (forall s, base = Some s -> finished_before d run (task_sequence_nr t) s) /\
    (exists e_source, (forall s, e_source = Some s -> finished_before d run (task_sequence_nr t) s) /\
       pick_config t (evaluator_config (task_spec t)) stage_evaluator e_source base
         = Some (rs_evaluator_config c, rs_evaluator_provenance c)) /\
    exists config, pick_config t (or_else (task_sampler_config (task_spec t)) (sample_sampler_config (task_spec t)))
         stage_sampler_config source base = Some (config, rs_sampler_provenance c) /\
    choose_sampler d run t (task_sequence_nr t) restored
      (bool_decide (is_Some (task_sampler_config (task_spec t))) || bool_decide (is_Some (sample_sampler_config (task_spec t))))
      config source base = Ok i /\ keep_partition i = Ok (rs_sampler c).
Proof.
  unfold resolve_stage_context. cbv zeta. intros H. apply result_bind_ok in H as (source & Hsrc & H).
  apply result_bind_ok in H as (e_source & Hesrc & H).
  apply result_bind_ok in H as ([e epv] & Hev & H). apply result_bind_ok in H as ([config spv] & Hconf & H).
  apply result_bind_ok in H as (i & Hi & H). apply result_bind_ok in H as (i' & Hi' & H). injection H as <-.
  unfold ok_or in Hev, Hconf.
  destruct (pick_config t (evaluator_config _) _ _ _) eqn:Eev; [|done].
  destruct (pick_config t (or_else _ _) _ _ _) eqn:Econf; [|done]. simplify_eq/=.
  exists i, source, (load_latest_stage_snapshot_before_sequence run (task_sequence_nr t) d). split_and!.
  - intros s ->. by eapply resolve_source_finished.
  - intros s Hs. by eapply load_latest_finished.
  - exists e_source. split; [|done]. intros s ->. by eapply resolve_source_finished.
  - exists config. done.
Qed.

Lemma explicit_own (t : RunTask) :
  bool_decide (is_Some (task_sampler_config (task_spec t))) || bool_decide (is_Some (sample_sampler_config (task_spec t))) = false ->
  own_sampler_config t = None.
Proof.
  unfold own_sampler_config. intros [H1 H2]%orb_false_iff. apply bool_decide_eq_false, eq_None_not_Some in H1, H2. by rewrite H1, H2.
Qed.

Lemma pick_config_configured (d : TaskTables) run (t : RunTask) source base config pv :
  (forall s, source = Some s -> finished_before d run (task_sequence_nr t) s) ->
  (forall s, base = Some s -> finished_before d run (task_sequence_nr t) s) ->
  pick_config t (own_sampler_config t) stage_sampler_config source base = Some (config, pv) -> configured_by d run t config pv.
Proof.
  intros Hsource Hbase [[? ?]|(? & s & Hs & ? & ?)]%pick_config_spec; [by left|]. right. split; [done|].
  exists s. split_and!; [destruct Hs; auto|done..].
Qed.

(** A saved sampler carries its configuration. *)
Lemma pick_config_saved (t : RunTask) source base (s : Snapshot) (saved : SavedSampler) config pv :
  or_else source base = Some s -> stage_sampler_snapshot s.2 = Some saved ->
  pick_config t None stage_sampler_config source base = Some (config, pv) -> pv = from_snapshot s.
Proof.
  unfold pick_config, stage_sampler_config. destruct source as [s'|]; cbn; [intros [= ->] ->; cbn; by intros [= _ <-]|].
  intros -> Hs. cbn. rewrite Hs. cbn. by intros [= _ <-].
Qed.

(** The sampler of a resolved stage, with the handoff of the partition. *)
Lemma resolved_sampler (d : TaskTables) run (t : RunTask) restored c :
  resolve_stage_context d run t (task_sequence_nr t) restored = Ok c ->
  exists config, configured_by d run t config (rs_sampler_provenance c) /\
    initialized_from d run t restored config (rs_sampler_provenance c) (rs_sampler c) /\
    (has_from_stage t = false -> trained_grid (rs_sampler c)).
Proof.
  intros (i & source & base & Hsource & Hbase & _ & config & Hconf & Hi & Hkeep)%resolve_stage_context_spec.
  exists config. split; [exact (pick_config_configured d run t source base _ _ Hsource Hbase Hconf)|].
  destruct (choose_sampler_spec _ _ _ _ _ _ _ _ _ _ Hi Hsource Hbase) as (Hfrom & Hgrid).
  destruct i as [c0|saved|c0 source0]; cbn in Hkeep; [by injection Hkeep as <-|injection Hkeep as <-|].
  - split; [|done]. destruct Hfrom as [Hr|(Hr & Hx & s & Hs & Hsaved)]; [by left|right]. pose proof (explicit_own t Hx) as Hown.
    split_and!; [done..|]. exists s. split_and!; [|done|].
    + apply or_else_cases in Hs as [?|?]; auto.
    + unfold own_sampler_config in Hown. rewrite Hown in Hconf. by eapply pick_config_saved.
  - destruct Hfrom as (-> & -> & s & Hs & -> & [saved Hsaved]). cbn in Hkeep. rewrite Hsaved in Hkeep.
    apply result_bind_ok in Hkeep as (c1 & Hinh & Hk).
    destruct (inherit_stratification config saved) as [c2|] eqn:Einh; cbn in Hinh; [|done]. injection Hinh as ->.
    apply inherit_stratification_keeps in Einh as ->. injection Hk as <-. split; [|done].
    split; [done|]. by exists s, saved.
Qed.



(** C20: a sampler that starts from the state of another stage keeps the
    stratification of that stage's sampler; all the rest of its configuration,
    sampler, materializer and transforms, is that of the configuration the stage
    chose, its own or that of the finished stage the provenance names. And unless the
    task itself asks for the handoff ([from_stage]), a sampler that only evaluates a trained grid
    starts from a stage that has one. *)
Theorem handoff_keeps_the_partition (d : TaskTables) run (t : RunTask) restored c config source :
  resolve_stage_context d run t (task_sequence_nr t) restored = Ok c -> rs_sampler c = FromStage config source ->
  exists saved chosen, ho_sampler_snapshot source = Some saved /\ configured_by d run t chosen (rs_sampler_provenance c) /\
    stratification_of config = stratification_of (saved_config saved) /\
    sampler_of config = sampler_of chosen /\ materializer config = materializer chosen /\ transforms config = transforms chosen /\
    (has_from_stage t = false ->
     match sampler_of config with HavanaInferenceSampler _ => contains_havana_grid saved = true | _ => True end).
Proof.
  intros (chosen & Hconf & Hinit & Hgrid)%resolved_sampler Hc. rewrite Hc in Hinit, Hgrid.
  destruct Hinit as (_ & s & saved & _ & -> & Hsaved & ->). exists saved, chosen. cbn in Hgrid |- *. rewrite Hsaved in Hgrid.
  by split_and!.
Qed.
End stage_resolution.
