(* ===== verification/TaskExamples.v ===== *)
(** A run with three tasks, from its creation to its end, and a stage that starts
    from the grid another one trained: the instances of the properties of the task
    queue and of stage contexts. *)
From S2P Require Import Prelude Floats Errors Domain Batch Config LatentBatch Generation AccumulatorTrait Scalar Stratification Vector Gammaloop AccumulatorState Extraction Raster Queue Tasks Runner TaskStore TaskQueue StageContext StageResolution.

#[local] Instance ex_libm : Libm := {| hypot a _ := a; powf a _ := a; powi a _ := a |}.
#[local] Instance ex_observables : Observables := {|
  bundle := unit;
  histogram := unit;
  bundle_default := tt;
  histograms _ := [];
  histogram_bins _ := [];
  histogram_sample_count _ := 0;
  bundle_merge_in_place _ _ := Ok tt
|}.
#[local] Instance ex_toml : TomlValues := {| toml := unit; TFloat _ := tt; TInteger _ := tt |}.

Notation ex_spec := (@RunTaskSpec unit ex_toml unit).
Notation ex_task_input := (@mkTaskInput unit ex_toml unit).

Definition ex_set : ex_spec := SetAccumulator CEmpty.
Definition ex_sample : ex_spec :=
  Sample Pooled true (mkStopCondition None (Some 10) None None None) None None None None None None.

(** Two tasks, told apart by their kinds. *)
#[local] Instance ex_codec : @TaskCodec unit ex_toml unit := {|
  json_value := string;
  ControllerTaskOutput := unit;
  encode_task t := Ok (task_kind_str t);
  decode_task v := if String.eqb v "set_accumulator" then Ok ex_set
                   else if String.eqb v "sample" then Ok ex_sample else Err "unknown task kind"%string;
  encode_measurement _ := Ok "measured"%string;
  decode_measurement _ := Ok (MeasurementFailed "");
  encode_controller _ := Ok "output"%string;
  decode_controller _ := Ok tt;
  canonical_task_toml _ := Ok ""%string
|}.

Notation ex_tables := (@TaskTables unit ex_toml unit ex_observables ex_codec).
Notation ex_snapshot := (@mkStageSnapshot unit unit ex_observables).

Definition ex_root : @RunStageSnapshot unit unit ex_observables := ex_snapshot None "root" None true None None (Some tt) [].
Definition ex_tasks : list (@RunTaskInput unit ex_toml unit) :=
  [ex_task_input (Some "warmup"%string) ex_sample; ex_task_input None ex_set].
Definition ex_child : RunParentMetadata := mkParent 1 (Some 1) "campaign" (Some "a"%string).

(** A run of two tasks, its first task at work, and a third task. *)
Definition ex_created : ex_tables := (create_run 0 "run" ex_root ex_tasks None empty_tables).1.
Definition ex_working : ex_tables := (activate_next_run_task 1 1 ex_created).1.
Definition ex_appended : ex_tables := (append_run_tasks 2 1 [ex_task_input (Some "more"%string) ex_sample] ex_working).1.

Definition ex_names (d : ex_tables) : list (string * i32 * RunTaskState) :=
  map (fun p => (rt_name p.2, rt_sequence_nr p.2, rt_state p.2)) (task_queue 1 d).

Example ex_queue :
  ex_names ex_appended =
    [("warmup", 1, TActive); ("set_accumulator-2", 2, TPending); ("more", 3, TPending)]%string.
Proof. vm_compute. reflexivity. Qed.

Example ex_second_activation_fails :
  (activate_next_run_task 2 1 ex_appended).2 = Err (Database "idx_run_tasks_active_one_per_run").
Proof. vm_compute. reflexivity. Qed.

Lemma ex_step op (d : ex_tables) : sequence_fits op d -> task_step d (exec op d).
Proof. intros H. by exists op. Qed.

Lemma ex_created_reachable : reachable ex_created.
Proof.
  eapply steps_step; [apply steps_refl|]. apply (ex_step (OpCreateRun 0 "run" ex_root ex_tasks None) empty_tables).
  vm_compute. done.
Qed.
Lemma ex_working_reachable : reachable ex_working.
Proof. eapply steps_step; [apply ex_created_reachable|]. by apply (ex_step (OpActivate 1 1) ex_created). Qed.
Lemma ex_appended_reachable : reachable ex_appended.
Proof.
  eapply steps_step; [apply ex_working_reachable|].
  apply (ex_step (OpAppend 2 1 [ex_task_input (Some "more"%string) ex_sample]) ex_working). vm_compute. done.
Qed.

Lemma tasks_run_in_sequence_witness :
  exists r s, run_tasks ex_appended !! 1 = Some r /\ run_tasks ex_appended !! 3 = Some s /\
    rt_sequence_nr r <> rt_sequence_nr s /\ ~ (rt_state r = TActive /\ rt_state s = TActive).
Proof.
  destruct (run_tasks ex_appended !! 1) as [r|] eqn:Er; [|by vm_compute in Er].
  destruct (run_tasks ex_appended !! 3) as [s|] eqn:Es; [|by vm_compute in Es].
  assert (rt_run_id r = rt_run_id s) as Hrun by (vm_compute in Er, Es; by simplify_eq).
  destruct (tasks_run_in_sequence ex_appended ex_appended_reachable 1 3 r s Er Es Hrun ltac:(done)) as (? & _ & ? & _).
  exists r, s. split_and!; first [assumption|reflexivity].
Defined.

Definition ex_finished : ex_tables := (complete_run_task 3 1 ex_appended).1.
Definition ex_later : ex_tables := (fail_run_task 4 1 "late" ex_finished).1.

Lemma ended_tasks_are_final_witness :
  exists r, run_tasks ex_finished !! 1 = Some r /\ rt_state r = TCompleted /\
    match run_tasks ex_later !! 1 with Some r' => evolves r r' | None => rt_state r = TPending end.
Proof.
  destruct (run_tasks ex_finished !! 1) as [r|] eqn:Er; [|by vm_compute in Er]. exists r.
  split_and!; [done|vm_compute in Er; by simplify_eq|].
  apply (ended_tasks_are_final ex_finished ex_later).
  - eapply steps_step; [apply ex_appended_reachable|]. by apply (ex_step (OpComplete 3 1) ex_appended).
  - eapply steps_step; [apply steps_refl|]. by apply (ex_step (OpFail 4 1 "late") ex_finished).
  - done.
Defined.

(** Removing the third task, against the queue as it is. *)
Definition ex_expected : list (@StoredTask unit ex_toml unit ex_codec) :=
  match list_run_tasks 1 ex_appended with Ok l => l | Err _ => [] end.

Lemma queue_edit_is_atomic_witness :
  match apply_task_queue_change 3 1 ex_expected (RemoveTask 3) ex_appended with
  | (d', Ok out) => queue_matches (task_queue 1 ex_appended) ex_expected = true /\
      edited 3 1 (RemoveTask 3) out ex_appended d' /\ forall other, other <> 1 -> task_queue other d' = task_queue other ex_appended
  | (d', Err _) => False
  end.
Proof.
  pose proof (queue_edit_is_atomic 3 1 ex_expected (RemoveTask 3) ex_appended ex_appended_reachable ltac:(done)) as H.
  destruct (apply_task_queue_change 3 1 ex_expected (RemoveTask 3) ex_appended) as [d' [out|e]] eqn:Ea; [exact H|].
  by vm_compute in Ea.
Defined.

Lemma child_creation_is_idempotent_witness :
  let d1 := (create_run 5 "child" ex_root ex_tasks (Some ex_child) ex_appended).1 in
  create_run 6 "again" ex_root [] (Some ex_child) (exec (OpActivate 5 2) d1) = (exec (OpActivate 5 2) d1, Ok 2).
Proof.
  intros d1. apply (child_creation_is_idempotent 5 "child" ex_root ex_tasks ex_child ex_appended d1).
  - by eexists.
  - by eexists.
  - apply ex_appended_reachable.
  - vm_compute. reflexivity.
  - vm_compute. done.
  - eapply steps_step; [apply steps_refl|]. by apply ex_step.
Defined.

(** ** A stage that evaluates a trained grid *)

#[local] Instance ex_states : @SavedStates unit := {| state_is_null _ := false; state_has_grid _ := true |}.

Definition ex_config (s : @SamplerConfig unit) : @SamplingConfig unit := mkSamplingConfig None s None None.
Definition ex_trained : @SavedSampler unit :=
  mkSavedSampler (ex_config (HavanaTraining (mkHavanaParams 0 8 10 0.1%float 0.1%float))) tt.
Definition ex_stage : @RunStageSnapshot unit unit ex_observables :=
  ex_snapshot (Some 1) "warmup" (Some 1) true (Some ex_trained) None (Some tt) [].
Definition ex_staged : ex_tables := (save_run_stage_snapshot 4 1 ex_stage ex_finished).1.
Definition ex_inference : @RunTask unit ex_toml unit :=
  mkRunTask 3 1 "more" 3
    (Sample Pooled true (mkStopCondition None (Some 10) None None None) None None
       (Some (SrcConfig _ (ex_config (HavanaInferenceSampler None)))) None None None) TActive 0 0 None.

Definition ex_context : @ResolvedStageContext unit unit ex_observables :=
  match resolve_stage_context ex_staged 1 ex_inference 3 None with
  | Ok c => c
  | Err _ => mkStageContext tt (mkProvenance "" None None) (RestoreSaved ex_trained) (mkProvenance "" None None) []
  end.


Lemma handoff_keeps_the_partition_witness :
  exists saved chosen, ho_sampler_snapshot (mkHandoff (Some ex_trained) None : @StageHandoffOwned unit ex_observables) = Some saved /\
    configured_by ex_staged 1 ex_inference chosen (rs_sampler_provenance ex_context) /\
    stratification_of (ex_config (HavanaInferenceSampler None)) = stratification_of (saved_config saved) /\
    sampler_of chosen = HavanaInferenceSampler None /\ contains_havana_grid saved = true.
Proof.
  assert (resolve_stage_context ex_staged 1 ex_inference (task_sequence_nr ex_inference) None = Ok ex_context) as H
    by (vm_compute; reflexivity).
  destruct (handoff_keeps_the_partition ex_staged 1 ex_inference None ex_context (ex_config (HavanaInferenceSampler None))
    (mkHandoff (Some ex_trained) None) H ltac:(vm_compute; reflexivity)) as (saved & chosen & H1 & H2 & H3 & H4 & _ & _ & H5).
  exists saved, chosen. split; [exact H1|]. split; [exact H2|]. split; [exact H3|]. split; [symmetry; exact H4|].
  exact (H5 eq_refl).
Defined.
