(* ===== verification/TaskControl.v ===== *)
(** src/runners/task_control.rs: the control loop that one node of the deployment
    runs. It applies the tasks that need no worker, starts the next task of a run
    whose work is drained, and sends the workers of a finished run home.

    The world joins the task tables of TaskStore.v, the nodes of ControlPlane.v and
    the batches of WorkQueue.v; a tick reads one database time [now]. The three
    controllers (parameter scan, hyperparameter tuning, integration campaign) are
    the argument [controller_tick]. *)
From S2P Require Import Prelude Floats Errors Domain Batch Config LatentBatch Generation AccumulatorTrait Scalar Stratification Vector Gammaloop AccumulatorState Extraction Raster WorkQueue Assignments ControlPlane Queue Tasks Runner TaskStore TaskQueue StageContext StageResolution.

Section task_control.
Context {J : Type} {TV : TomlValues} {E : Type} {LM : Libm} {OB : Observables} {TC : @TaskCodec J TV E}.

Notation TaskTables := (@TaskTables J TV E OB TC).
Notation StoredTask := (@StoredTask J TV E TC).
Notation RunTaskRow := (@RunTaskRow J TV E TC).
Notation Tx := (@Tx J TV E OB TC).

Record ControlWorld := mkControl {
  cw_tasks : TaskTables;
  (** [runs.integration_params->>'run_kind'] *)
  cw_kinds : gmap i32 string;
  cw_nodes : gmap string NodeRow;
  cw_batches : gmap i64 BatchRow
}.
Definition set_cw_tasks (x : TaskTables) (w : ControlWorld) : ControlWorld :=
  mkControl x (cw_kinds w) (cw_nodes w) (cw_batches w).
Definition set_cw_nodes (x : gmap string NodeRow) (w : ControlWorld) : ControlWorld :=
  mkControl (cw_tasks w) (cw_kinds w) x (cw_batches w).

(** The task a run was spawned by is active. *)
Definition parent_active (d : TaskTables) (row : RunsRow) : bool :=
  match runs_parent row with
  | Some p =>
      match (t ← parent_task_id p; run_tasks d !! t : option RunTaskRow) with
      | Some r => (rt_run_id r =? parent_run_id p) && is_active r
      | None => false
      end
  | None => false
  end.

(** The tables of ControlPlane.v: the registry statements of the loop read the
    run tree and the nodes. *)
Definition control_tables (w : ControlWorld) : Tables :=
  mkTables (cw_nodes w)
    (map_imap (fun id row => Some (mkRunRow (parent_run_id <$> runs_parent row) (cw_kinds w !! id) (parent_active (cw_tasks w) row)))
       (runs_rows (cw_tasks w)))
    ∅ ∅.

(** ** Statements *)

(** ORDER BY name LIMIT 1 of the live nodes *)
Definition is_task_control_leader (now : i64) (name uuid : string) (w : ControlWorld) : bool :=
  match by_name (filter (fun p => live now p.2 = true) (cw_nodes w)) with
  | (first, n) :: _ => String.eqb first name && String.eqb (nr_uuid n) uuid
  | [] => false
  end.

Definition live_on (now : i64) (get : NodeRow -> option AssignmentTarget) (run : i32) (w : ControlWorld) : bool :=
  bool_decide (map_Exists (fun _ n => live now n = true /\ on_run run (get n) = true) (cw_nodes w)).

Definition control_kind (r : RunTaskRow) : bool :=
  match decode_task (rt_task r) with Ok t => runs_in_control_plane t | Err _ => false end.
Definition active_control_task (run : i32) (w : ControlWorld) : bool :=
  existsb (fun p => is_active p.2 && control_kind p.2) (task_queue run (cw_tasks w)).

Definition get_control_plane_run_ids (now : i64) (w : ControlWorld) : list i32 :=
  fst <$> filter (fun p => live_on now wanted p.1 w || live_on now active p.1 w || active_control_task p.1 w = true)
            (by_key (runs_rows (cw_tasks w))).

(** [get_batch_queue_counts] of a whole run, pending and claimed together *)
Definition unfinished_batches (run : i32) (w : ControlWorld) : Z :=
  zlen (filter (fun p => (WorkQueue.run_id p.2 =? run) && (has_status WorkQueue.Pending p.2 || has_status Claimed p.2) = true)
          (map_to_list (cw_batches w))).

Definition finish_run (run : i32) (w : ControlWorld) : ControlWorld :=
  set_cw_nodes (nodes (finish_run_assignments run (control_tables w))) w.

(** ** The loop *)

Definition Ctl (A : Type) : Type := SE ControlWorld StoreError A.

Definition on_tasks {A} (m : Tx A) : Ctl A := fun w =>
  let '(d, r) := m (cw_tasks w) in (set_cw_tasks d w, r).

(** One tick of the runner of a controller task. *)
Context (controller_tick : i64 -> i32 -> StoredTask -> Ctl unit).

Definition set_accumulator_snapshot (t : StoredTask) (accumulator : AccumulatorConfig) (base : @RunStageSnapshot J E OB)
    : @RunStageSnapshot J E OB :=
  mkStageSnapshot (Some (task_id (st_task t))) (task_name (st_task t)) (Some (task_sequence_nr (st_task t))) true
    (stage_sampler_snapshot base) (Some (state_from_config accumulator)) (stage_evaluator base) (stage_batch_transforms base).

Definition reconcile_control_task (now : i64) (run : i32) (t : StoredTask) : Ctl unit :=
  match task_spec (st_task t) with
  | SetAccumulator accumulator => fun w =>
      match load_latest_stage_snapshot_before_sequence run (task_sequence_nr (st_task t)) (cw_tasks w) with
      | None => (w, Err (Internal "task cannot resolve base stage snapshot"))
      | Some base =>
          (let! _ := on_tasks (save_run_stage_snapshot now run (set_accumulator_snapshot t accumulator base.2)) in
           on_tasks (complete_run_task now (task_id (st_task t)))) w
      end
  | ParameterScan _ _ _ _ | HyperparameterTuning _ _ _ _ _ | IntegrationCampaign _ _ _ _ => controller_tick now run t
  | _ => se_ret tt
  end.

(** [None]: the fuel ran out. *)
Fixpoint start_tasks (fuel : nat) (now : i64) (run : i32) (w : ControlWorld) : ControlWorld * option (result StoreError unit) :=
  match fuel with
  | O => (w, None)
  | S fuel =>
      match on_tasks (activate_next_run_task now run) w with
      | (w, Err e) => (w, Some (Err e))
      | (w, Ok None) => (finish_run run w, Some (Ok tt))
      | (w, Ok (Some t)) =>
          if runs_on_sampler_worker (task_spec (st_task t)) then (w, Some (Ok tt))
          else
            match reconcile_control_task now run t w with
            | (w, Err e) => (w, Some (Err e))
            | (w, Ok _) =>
                match load_active_run_task run (cw_tasks w) with
                | Err e => (w, Some (Err e))
                | Ok (Some _) => (w, Some (Ok tt))
                | Ok None => start_tasks fuel now run w
                end
            end
      end
  end.

(** The part after the active task: the run waits for its batches and its
    workers. *)
Definition start_if_ready (fuel : nat) (now : i64) (run : i32) (completed_control_task : bool) (w : ControlWorld)
    : ControlWorld * option (result StoreError unit) :=
  if 0 <? unfinished_batches run w then (w, Some (Ok tt))
  else if negb (bool_decide (is_Some (runs_rows (cw_tasks w) !! run))) then (w, Some (Ok tt))
  else if negb completed_control_task && negb (live_on now wanted run w) && negb (live_on now active run w) then (w, Some (Ok tt))
  else start_tasks fuel now run w.

Definition reconcile_run (fuel : nat) (now : i64) (run : i32) (w : ControlWorld)
    : ControlWorld * option (result StoreError unit) :=
  match load_active_run_task run (cw_tasks w) with
  | Err e => (w, Some (Err e))
  | Ok None => start_if_ready fuel now run false w
  | Ok (Some t) =>
      if runs_in_control_plane (task_spec (st_task t)) then
        match reconcile_control_task now run t w with
        | (w, Err e) => (w, Some (Err e))
        | (w, Ok _) =>
            match load_active_run_task run (cw_tasks w) with
            | Err e => (w, Some (Err e))
            | Ok (Some _) => (w, Some (Ok tt))
            | Ok None => start_if_ready fuel now run true w
            end
        end
      else (w, Some (Ok tt))
  end.

(** A tick goes on after a run that failed, and reports the first error. *)
Definition first_error (acc r : option (result StoreError unit)) : option (result StoreError unit) :=
  match acc, r with
  | None, _ | _, None => None
  | Some (Err e), _ => Some (Err e)
  | Some (Ok _), _ => r
  end.
Definition tick_runs (fuel : ControlWorld -> i32 -> nat) (now : i64) (ids : list i32) (w : ControlWorld)
    : ControlWorld * option (result StoreError unit) :=
  foldl (fun (acc : ControlWorld * option (result StoreError unit)) run =>
    let '(w, r) := reconcile_run (fuel acc.1 run) now run acc.1 in (w, first_error acc.2 r)) (w, Some (Ok tt)) ids.

(** [lock_free]: no other tick holds the advisory lock. *)
Definition control_tick (fuel : ControlWorld -> i32 -> nat) (now : i64) (name uuid : string) (lock_free : bool) (w : ControlWorld)
    : ControlWorld * option (result StoreError unit) :=
  if negb (is_task_control_leader now name uuid w) then (w, Some (Ok tt))
  else if negb lock_free then (w, Some (Ok tt))
  else if negb (is_task_control_leader now name uuid w) then (w, Some (Ok tt))
  else tick_runs fuel now (get_control_plane_run_ids now w) w.

(** ** Pending tasks *)

Definition pending_rows (run : i32) (d : TaskTables) : gmap i64 RunTaskRow :=
  filter (fun p => rt_run_id p.2 = run /\ rt_state p.2 = TPending) (run_tasks d).
Definition nr_pending (run : i32) (w : ControlWorld) : nat := size (pending_rows run (cw_tasks w)).

(** The run has got its id from the sequence: runs created later have others. *)
Definition allocated (run : i32) (w : ControlWorld) : Prop := run < next_run_id (cw_tasks w).

(** A controller works on its children: it adds no task to its own queue. *)
Definition controllers_keep_queue : Prop :=
  forall now run t w w' r, allocated run w -> controller_tick now run t w = (w', r) ->
    allocated run w' /\ dom (pending_rows run (cw_tasks w')) ⊆ dom (pending_rows run (cw_tasks w)).

End task_control.
