(* ===== verification/TaskControlLaws.v ===== *)
(** What a tick of src/runners/task_control.rs does: it ends, it leaves a run it
    may advance with an active task or finished, it never touches a run whose
    stage is still at work, and [set_accumulator] hands its accumulator to the
    stages after it. *)
From S2P Require Import Prelude Floats Errors Domain Batch Config LatentBatch Generation AccumulatorTrait Scalar Stratification Vector Gammaloop AccumulatorState Extraction Raster WorkQueue Assignments ControlPlane Queue Tasks Runner TaskStore TaskQueue StageContext StageResolution TaskControl TaskExamples.

Section laws.
Context {J : Type} {TV : TomlValues} {E : Type} {LM : Libm} {OB : Observables} {TC : @TaskCodec J TV E}.

Notation TaskTables := (@TaskTables J TV E OB TC).
Notation StoredTask := (@StoredTask J TV E TC).
Notation RunTaskRow := (@RunTaskRow J TV E TC).
Notation ControlWorld := (@ControlWorld J TV E OB TC).

(** ** Pending tasks *)

(** *** No task is added to the queue of a run *)

Section within.
Context (run0 : i32) (X : gset i64).

(** The run has its id, and the pending tasks of its queue are among [X]. *)
Definition queue_within (d : TaskTables) : Prop := run0 < next_run_id d /\ dom (pending_rows run0 d) ⊆ X.

Lemma within_rows (d d' : TaskTables) :
  next_run_id d <= next_run_id d' -> run_tasks d' = run_tasks d -> queue_within d -> queue_within d'.
Proof. unfold queue_within, pending_rows. intros Hn -> [? ?]. split; [lia|done]. Qed.

Lemma within_write id (r : RunTaskRow) :
  (rt_run_id r = run0 -> rt_state r = TPending -> id ∈ X) -> stable queue_within (write_row id r).
Proof.
  intros Hr d [Hn Hd]. unfold write_row. destruct (row_conflict _ _ _); [done|]. split; [done|]. cbn.
  intros i [o [Ho [Hrun Hp]]%map_lookup_filter_Some]%elem_of_dom. cbn in Ho, Hrun, Hp.
  apply lookup_insert_Some in Ho as [[<- <-]|[_ Ho]]; [by apply Hr|].
  apply Hd, elem_of_dom. exists o. by apply map_lookup_filter_Some.
Qed.

Lemma within_update_row id p (f : RunTaskRow -> RunTaskRow) :
  (forall r, rt_run_id (f r) = rt_run_id r) -> (forall r, p r = true -> rt_state (f r) = TPending -> rt_state r = TPending) ->
  stable queue_within (update_row id p f).
Proof.
  intros Hrun Hf d Hd. unfold update_row. destruct (run_tasks d !! id) as [r|] eqn:Er; [|done]. destruct (p r) eqn:Ep; [|done].
  apply (stable_bind queue_within); [|intros; apply stable_ret|done]. apply within_write. rewrite Hrun. intros Hr Hp.
  apply Hd, elem_of_dom. exists r. apply map_lookup_filter_Some. split; [done|]. cbn. by specialize (Hf r Ep Hp).
Qed.

Lemma within_update_task id p (f : RunTaskRow -> RunTaskRow) :
  (forall r, rt_run_id (f r) = rt_run_id r) -> (forall r, p r = true -> rt_state (f r) = TPending -> rt_state r = TPending) ->
  stable queue_within (update_task id p f).
Proof. intros. apply stable_bind; [by apply within_update_row|intros; apply stable_ret]. Qed.

Lemma within_transaction {A} (m : @Tx J TV E OB TC A) : stable queue_within m -> stable queue_within (transaction m).
Proof.
  intros Hm d Hd. specialize (Hm d Hd). unfold transaction. destruct (m d) as [d' [x|e]]; [done|].
  destruct Hm as [Hn _], Hd as [_ Hd]. by split.
Qed.

Lemma within_snapshot now run s : stable queue_within (insert_run_stage_snapshot now run s).
Proof.
  intros d Hd. destruct (insert_run_stage_snapshot now run s d) as [d' r] eqn:Ei.
  apply insert_snapshot_tasks in Ei as (Ht & _ & Hn & _). assert (queue_within d') by (apply (within_rows d); [lia|done..]).
  by destruct r.
Qed.
Lemma within_save_snapshot now run s : stable queue_within (save_run_stage_snapshot now run s).
Proof. apply stable_bind; [apply within_snapshot|intros; apply stable_ret]. Qed.
Lemma within_complete now id : stable queue_within (complete_run_task now id).
Proof. by apply within_transaction, within_update_task. Qed.
Lemma within_fail now id reason : stable queue_within (fail_run_task now id reason).
Proof. by apply within_transaction, within_update_task. Qed.
Lemma within_progress id produced completed : stable queue_within (update_run_task_progress id produced completed).
Proof. by apply within_update_task. Qed.

(** A task is activated from the queue. *)
Lemma within_activate now run : stable queue_within (activate_next_run_task now run).
Proof.
  apply within_transaction. intros d Hd. destruct (find _ _) as [[id r]|]; [|done].
  apply (stable_bind queue_within); [by apply within_write| |done]. intros [].
  apply stable_bind; [apply stable_lift|]. intros t. apply stable_bind; [|intros; apply stable_ret].
  apply stable_when, stable_modify. intros d1. by apply within_rows.
Qed.

Lemma within_insert_row (r : RunTaskRow) : rt_run_id r <> run0 -> stable queue_within (insert_row r).
Proof.
  intros Hr d Hd. unfold insert_row. cbv zeta. assert (queue_within (draw_task_id d)) as Hd' by by apply (within_rows d).
  destruct (bool_decide _); [|done].
  apply (stable_bind queue_within); [|intros; apply stable_ret|done]. by apply within_write.
Qed.

Lemma within_initial_tasks now run next tasks : run <> run0 -> stable queue_within (insert_initial_tasks now run next tasks).
Proof.
  intros Hrun. revert next. induction tasks as [|input tasks IH]; intros next; cbn [insert_initial_tasks]; [apply stable_ret|]. cbv zeta.
  do 3 (apply stable_bind; [first [apply stable_lift | by apply within_insert_row]|intros ?]). apply IH.
Qed.

(** A new run has a new id: its tasks go to another queue. *)
Lemma within_create_run now name initial tasks parent : stable queue_within (create_run now name initial tasks parent).
Proof.
  assert (stable queue_within (create_new_run now name initial tasks parent)) as Hnew.
  { intros d Hd. unfold create_new_run, se_bind at 1, insert_run. cbv zeta. cbn [next_run_id].
    assert (next_run_id d <> run0) as Hne by (destruct Hd; lia).
    match goal with |- context [se_bind _ _ ?d1] => assert (queue_within d1) as H1 by (apply (within_rows d); [cbn; lia|done..]); revert H1; generalize d1 end.
    change (stable queue_within (let! _ := insert_run_stage_snapshot now (next_run_id d) (root_snapshot initial) in
      insert_initial_tasks now (next_run_id d) 1 tasks ;! se_ret (next_run_id d))).
    apply stable_bind; [apply within_snapshot|intros ?]. apply stable_bind; [by apply within_initial_tasks|intros; apply stable_ret]. }
  apply within_transaction. destruct parent as [p|]; [|done]. apply stable_bind.
  { intros d Hd. unfold lock_run. by destruct (bool_decide _). }
  intros []. apply stable_bind; [by intros d Hd|]. by intros [id|]; [apply stable_ret|].
Qed.

(** Writing the outputs of a task. *)
Lemma within_outputs {V} id (value : result StoreError V) (g : V -> RunTaskRow -> RunTaskRow) :
  (forall v r, rt_run_id (g v r) = rt_run_id r /\ rt_state (g v r) = rt_state r) ->
  stable queue_within (let! v := se_lift (E:=StoreError) value in update_task id (fun _ => true) (g v)).
Proof.
  intros Hg. apply stable_bind; [apply stable_lift|intros v]. apply within_update_task; intros r; [by apply Hg|].
  intros _. by rewrite (proj2 (Hg v r)).
Qed.
End within.

Lemma within_self run (d : TaskTables) : run < next_run_id d -> queue_within run (dom (pending_rows run d)) d.
Proof. by split. Qed.

Lemma on_tasks_spec {A} (m : @Tx J TV E OB TC A) (w : ControlWorld) :
  on_tasks m w = (set_cw_tasks (m (cw_tasks w)).1 w, (m (cw_tasks w)).2).
Proof. unfold on_tasks. by destruct (m (cw_tasks w)). Qed.

Lemma activate_pending now run (d : TaskTables) :
  match activate_next_run_task now run d with
  | (d', Ok (Some t)) => (size (pending_rows run d') < size (pending_rows run d))%nat
  | (d', Ok None) => pending_rows run d' = ∅
  | _ => True
  end.
Proof.
  pose proof (activate_spec now run d) as Ha. destruct (activate_next_run_task now run d) as [d' [[t|]|e]]; [| |done].
  - destruct Ha as (id & r & [Hr Hrun]%elem_of_task_queue & Hp & _ & _ & Ht & _).
    assert (pending_rows run d' = delete id (pending_rows run d)) as ->.
    { unfold pending_rows. rewrite Ht. apply map_eq. intros i. apply option_eq. intros o.
      rewrite lookup_delete_Some, !map_lookup_filter_Some, lookup_insert_Some. cbn. split.
      - intros [[[<- <-]|[Hne Ho]] [Ho1 Ho2]]; [done|auto].
      - intros (Hne & Ho & Ho1 & Ho2). split; [right; by split|done]. }
    assert (is_Some (pending_rows run d !! id)) as Hin by (exists r; apply map_lookup_filter_Some; done).
    rewrite map_size_delete. destruct (pending_rows run d !! id) eqn:Eo; [|by destruct Hin].
    assert (size (pending_rows run d) <> 0%nat); [|lia]. intros H0. apply map_size_empty_inv in H0.
    by rewrite H0, lookup_empty in Eo.
  - destruct Ha as [-> Hnone]. apply map_empty. intros i. destruct (pending_rows run d !! i) as [o|] eqn:Eo; [|done].
    apply map_lookup_filter_Some in Eo as [Ho [Hrun Hst]]. exfalso. apply (Hnone i o); [by apply elem_of_task_queue|done].
Qed.

(** ** A run is advanced *)

Definition run_active (run : i32) (w : ControlWorld) : Prop :=
  exists id r, run_tasks (cw_tasks w) !! id = Some r /\ rt_run_id r = run /\ rt_state r = TActive.

(** The queue was exhausted, and the workers were sent home. *)
Definition run_finished (run : i32) (w : ControlWorld) : Prop :=
  exists w1, w = finish_run run w1 /\ pending_rows run (cw_tasks w1) = ∅.

Lemma load_active_some run (d : TaskTables) t :
  load_active_run_task run d = Ok (Some t) -> exists id r, run_tasks d !! id = Some r /\ rt_run_id r = run /\ rt_state r = TActive.
Proof.
  unfold load_active_run_task. destruct (find _ _) as [[id r]|] eqn:Ef; [|done]. intros _.
  apply find_queue in Ef as (? & ? & Ha & _). exists id, r. split_and!; [done..|]. by apply bool_decide_eq_true in Ha.
Qed.

(** ** Snapshots of finished tasks *)

Lemma insert_snapshot_ok now run s (d d' : TaskTables) id :
  insert_run_stage_snapshot now run s d = (d', Ok id) ->
  id = next_snapshot_id d /\ run_stage_snapshots d' = <[id := mkSnapshotRow run now s]> (run_stage_snapshots d).
Proof. unfold insert_run_stage_snapshot. cbv zeta. intros H. break; done. Qed.

Lemma complete_snapshots now id (d : TaskTables) :
  run_stage_snapshots (complete_run_task now id d).1 = run_stage_snapshots d.
Proof.
  unfold complete_run_task, transaction, update_task, update_row, se_bind, se_ret.
  destruct (run_tasks d !! id) as [r|]; [|done]. destruct (is_active r); [|done].
  unfold write_row. by destruct (row_conflict _ _ _).
Qed.

Definition snapshots_below (d : TaskTables) : Prop :=
  forall id p, run_stage_snapshots d !! id = Some p -> id < next_snapshot_id d.

(** ** The leader *)

Lemma leader_unique now name uuid name' uuid' (w : ControlWorld) :
  is_task_control_leader now name uuid w = true -> is_task_control_leader now name' uuid' w = true ->
  name = name' /\ uuid = uuid'.
Proof.
  unfold is_task_control_leader. destruct (by_name _) as [|[first n] l]; [done|].
  rewrite !andb_true_iff, !String.eqb_eq. intros [-> ->] [-> ->]. done.
Qed.

(** ** Steps of the loop *)

Context (controller_tick : i64 -> i32 -> StoredTask -> @Ctl J TV E OB TC unit).

Lemma on_tasks_stable {A} (Q : TaskTables -> Prop) (m : @Tx J TV E OB TC A) :
  stable Q m -> stable (fun w : ControlWorld => Q (cw_tasks w)) (on_tasks m).
Proof. intros Hm w Hw. specialize (Hm _ Hw). unfold on_tasks. by destruct (m (cw_tasks w)) as [d [x|e]]. Qed.

Lemma reconcile_control_within run now (t : StoredTask) (w : ControlWorld) :
  controllers_keep_queue controller_tick -> allocated run w ->
  queue_within run (dom (pending_rows run (cw_tasks w))) (cw_tasks (reconcile_control_task controller_tick now run t w).1).
Proof.
  intros Hc Ha. pose proof (within_self run (cw_tasks w) Ha) as Hw. unfold reconcile_control_task.
  destruct (task_spec (st_task t)); try done;
    try (destruct (controller_tick now run t w) as [w' r] eqn:Ek; by apply (Hc now run t w w' r)).
  destruct (load_latest_stage_snapshot_before_sequence _ _ _) as [base|]; [|done].
  set (X := dom (pending_rows run (cw_tasks w))) in *.
  assert (stable (E:=StoreError) (fun w : ControlWorld => queue_within run X (cw_tasks w))
    (let! _ := on_tasks (save_run_stage_snapshot now run (set_accumulator_snapshot t accumulator base.2)) in
     on_tasks (complete_run_task now (task_id (st_task t))))) as Hs.
  { apply stable_bind; [apply on_tasks_stable, within_save_snapshot|intros; apply on_tasks_stable, within_complete]. }
  specialize (Hs w Hw). by destruct (se_bind _ _ w) as [w' [x|e]].
Qed.

Lemma control_task_pending now run (t : StoredTask) (w : ControlWorld) :
  controllers_keep_queue controller_tick -> allocated run w ->
  let w' := (reconcile_control_task controller_tick now run t w).1 in
  allocated run w' /\ (nr_pending run w' <= nr_pending run w)%nat.
Proof.
  intros Hc Ha w'. destruct (reconcile_control_within run now t w Hc Ha) as [Hn Hd]. split; [done|].
  unfold nr_pending. rewrite <- !size_dom. by apply subseteq_size.
Qed.

Lemma start_tasks_spec fuel now run (w : ControlWorld) :
  controllers_keep_queue controller_tick -> allocated run w -> (nr_pending run w < fuel)%nat ->
  exists w' r, start_tasks controller_tick fuel now run w = (w', Some r) /\
    (r = Ok tt -> run_active run w' \/ run_finished run w').
Proof.
  intros Hc. revert w. induction fuel as [|fuel IH]; intros w Hw Hfuel; [lia|]. cbn [start_tasks].
  pose proof (on_tasks_stable _ _ (within_activate run (dom (pending_rows run (cw_tasks w))) now run) w (within_self run _ Hw)) as Hn.
  rewrite on_tasks_spec in Hn |- *. pose proof (activate_pending now run (cw_tasks w)) as Hp. pose proof (activate_spec now run (cw_tasks w)) as Ha.
  destruct (activate_next_run_task now run (cw_tasks w)) as [d [[t|]|e]]; cbn [fst snd].
  - destruct (runs_on_sampler_worker _).
    { eexists _, _. split; [done|]. intros _. left. destruct Ha as (id & r & [Hr Hrun]%elem_of_task_queue & _ & _ & _ & Ht & _).
      exists id, (activate_row now r). cbn. by rewrite Ht, lookup_insert_eq. }
    pose proof (control_task_pending now run t (set_cw_tasks d w) Hc (proj1 Hn)) as [Hw1 Hk].
    destruct (reconcile_control_task controller_tick now run t (set_cw_tasks d w)) as [w1 [u|e]]; cbn [fst] in Hw1, Hk;
      [|eexists _, _; done].
    destruct (load_active_run_task run (cw_tasks w1)) as [[t1|]|e] eqn:El.
    + eexists _, _. split; [done|]. intros _. left. by eapply load_active_some.
    + apply IH; [done|]. unfold nr_pending in *. cbn in *. lia.
    + eexists _, _. done.
  - eexists _, _. split; [done|]. intros _. right. exists (set_cw_tasks d w). done.
  - eexists _, _. done.
Qed.

(** A run without an active task is not advanced while batches of it are
    unfinished, when it is gone, or, unless a control task has just completed,
    while nobody works for it. *)
Definition waits (now : i64) (run : i32) (completed : bool) (w : ControlWorld) : Prop :=
  0 < unfinished_batches run w \/ runs_rows (cw_tasks w) !! run = None \/
  (completed = false /\ live_on now wanted run w = false /\ live_on now active run w = false).

Lemma start_if_ready_spec fuel now run completed (w : ControlWorld) :
  controllers_keep_queue controller_tick -> allocated run w -> (nr_pending run w < fuel)%nat ->
  exists w' r, start_if_ready controller_tick fuel now run completed w = (w', Some r) /\
    (r = Ok tt -> run_active run w' \/ run_finished run w' \/ (w' = w /\ waits now run completed w)).
Proof.
  intros Hc Hw Hf. unfold start_if_ready, waits.
  destruct (Z.ltb_spec 0 (unfinished_batches run w)); [eexists _, _; split; [done|]; auto|].
  destruct (bool_decide _) eqn:Eb; cbn [negb].
  2:{ apply bool_decide_eq_false, eq_None_not_Some in Eb. eexists _, _. split; [done|]. auto 10. }
  destruct (live_on now wanted run w) eqn:Ew, (live_on now active run w) eqn:Ea, completed; cbn [negb andb];
    try (destruct (start_tasks_spec fuel now run w Hc Hw Hf) as (w' & r & -> & Hr); eexists _, _; split; [done|]; intros Hok;
         destruct (Hr Hok); auto).
  eexists _, _. split; [done|]. auto 10.
Qed.

(** A step of the control loop ends, with fuel for the pending tasks of the run, on
    each of its branches. *)
Lemma reconcile_run_spec now run (w : ControlWorld) :
  controllers_keep_queue controller_tick -> allocated run w ->
  exists w' r, reconcile_run controller_tick (S (nr_pending run w)) now run w = (w', Some r) /\
    (r = Ok tt ->
     run_active run w' \/ run_finished run w' \/
     (load_active_run_task run (cw_tasks w) = Ok None /\ w' = w /\ waits now run false w) \/
     (exists t, load_active_run_task run (cw_tasks w) = Ok (Some t) /\ runs_in_control_plane (task_spec (st_task t)) = true /\
        reconcile_control_task controller_tick now run t w = (w', Ok tt) /\
        load_active_run_task run (cw_tasks w') = Ok None /\ waits now run true w')).
Proof.
  intros Hc Hw. unfold reconcile_run. destruct (load_active_run_task run (cw_tasks w)) as [[t|]|e] eqn:El.
  - destruct (runs_in_control_plane _) eqn:Ep; [|eexists _, _; split; [done|]; intros _; left; by eapply load_active_some].
    pose proof (control_task_pending now run t w Hc Hw) as [Hw1 Hk].
    destruct (reconcile_control_task controller_tick now run t w) as [w1 [[]|e]] eqn:Et; cbn [fst] in Hw1, Hk; [|eexists _, _; done].
    destruct (load_active_run_task run (cw_tasks w1)) as [[t1|]|e] eqn:El1; [| |eexists _, _; done].
    { eexists _, _. split; [done|]. intros _. left. by eapply load_active_some. }
    destruct (start_if_ready_spec (S (nr_pending run w)) now run true w1 Hc Hw1 ltac:(lia)) as (w' & r & -> & Hr).
    eexists _, _. split; [done|]. intros [?|[?|[-> ?]]]%Hr; [auto..|]. right. right. right. by exists t.
  - destruct (start_if_ready_spec (S (nr_pending run w)) now run false w Hc Hw ltac:(lia)) as (w' & r & -> & Hr).
    eexists _, _. split; [done|]. intros [?|[?|[-> ?]]]%Hr; auto 10.
  - eexists _, _. done.
Qed.

(** a step of the control loop changes nothing while a stage of the run is at
    work on its workers, or while, between two stages, batches of the run are
    unfinished or no live worker is assigned to it. *)
Theorem control_step_waits_for_the_stage fuel now run (w : ControlWorld) :
  (exists t, load_active_run_task run (cw_tasks w) = Ok (Some t) /\ runs_in_control_plane (task_spec (st_task t)) = false) \/
  (load_active_run_task run (cw_tasks w) = Ok None /\
   (0 < unfinished_batches run w \/ (live_on now wanted run w = false /\ live_on now active run w = false))) ->
  reconcile_run controller_tick fuel now run w = (w, Some (Ok tt)).
Proof.
  unfold reconcile_run, start_if_ready. intros [(t & -> & ->)|[-> Hw]]; [done|].
  destruct (Z.ltb_spec 0 (unfinished_batches run w)); [done|].
  destruct Hw as [|[-> ->]]; [lia|]. by destruct (negb _).
Qed.

(** ** The accumulator of a [set_accumulator] task *)

(** once a [set_accumulator] task is done, the stages after it find a stage
    with the fresh accumulator of the task, and with the sampler, the evaluator
    and the transforms of the latest stage before it. *)
Theorem set_accumulator_reaches_later_stages now run (t : StoredTask) accumulator (w w' : ControlWorld) :
  task_spec (st_task t) = SetAccumulator accumulator -> snapshots_below (cw_tasks w) ->
  reconcile_control_task controller_tick now run t w = (w', Ok tt) ->
  exists base s, load_latest_stage_snapshot_before_sequence run (task_sequence_nr (st_task t)) (cw_tasks w) = Some base /\
    load_latest_stage_snapshot_before_sequence run (task_sequence_nr (st_task t) + 1) (cw_tasks w') = Some s /\
    stage_observable_state s.2 = Some (state_from_config accumulator) /\ stage_task_id s.2 = Some (task_id (st_task t)) /\
    stage_sampler_snapshot s.2 = stage_sampler_snapshot base.2 /\ stage_evaluator s.2 = stage_evaluator base.2 /\
    stage_batch_transforms s.2 = stage_batch_transforms base.2.
Proof.
  intros Hspec Hbelow. unfold reconcile_control_task. rewrite Hspec.
  destruct (load_latest_stage_snapshot_before_sequence run _ (cw_tasks w)) as [base|] eqn:Eb; [|done].
  set (s := set_accumulator_snapshot t accumulator base.2). unfold se_bind. rewrite on_tasks_spec.
  unfold save_run_stage_snapshot, se_bind. destruct (insert_run_stage_snapshot now run s (cw_tasks w)) as [d1 [id|e]] eqn:Ei; [|done].
  cbn [fst snd se_ret]. rewrite on_tasks_spec. intros Hw. apply (f_equal fst) in Hw. cbn [fst] in Hw. subst w'.
  apply insert_snapshot_ok in Ei as [-> Hsnap]. exists base.
  set (n := task_sequence_nr (st_task t)). set (d' := (complete_run_task now (task_id (st_task t)) d1).1).
  assert (run_stage_snapshots d' = <[next_snapshot_id (cw_tasks w) := mkSnapshotRow run now s]> (run_stage_snapshots (cw_tasks w))) as Hd
    by (unfold d'; by rewrite complete_snapshots).
  change (cw_tasks _) with d'. pose proof (load_latest_spec d' run (n + 1)) as Hl.
  assert (finished_before d' run (n + 1) (next_snapshot_id (cw_tasks w), s)) as Hs.
  { exists (mkSnapshotRow run now s). cbn. rewrite Hd, lookup_insert_eq. split_and!; [done..|]. fold n. lia. }
  destruct (load_latest_stage_snapshot_before_sequence run (n + 1) d') as [[id q]|]; [|by edestruct Hl].
  destruct Hl as [(row & Hrow & Hq & _ & _ & Hlt) Hmax]. cbn in Hrow, Hq, Hlt.
  assert (id = next_snapshot_id (cw_tasks w)) as ->.
  { destruct (Hmax _ Hs) as (x & y & Hx & Hy & Hlater). unfold row_of in Hx, Hy. cbn in Hx, Hy.
    rewrite Hd, lookup_insert_eq in Hx. rewrite Hrow in Hy. cbn in Hx, Hy. injection Hx as <-. injection Hy as <-.
    unfold later in Hlater. cbn in Hlater. rewrite Hq in Hlater. fold n in Hlater.
    rewrite Hd in Hrow. apply lookup_insert_Some in Hrow as [[<- _]|[_ Hold]]; [done|].
    specialize (Hbelow id row Hold).
    destruct (stage_sequence_nr q) as [k|]; [|done].
    apply orb_false_iff in Hlater as [H1 H2]. zbool. assert (k = n) as -> by lia.
    rewrite Z.eqb_refl in H2. cbn in H2. zbool. lia. }
  rewrite Hd, lookup_insert_eq in Hrow. injection Hrow as <-. cbn in Hq. subst q.
  exists (next_snapshot_id (cw_tasks w), s). done.
Qed.

(** The ticks of nodes that do not lead the deployment do nothing. *)
Lemma only_the_leader_acts fuel now name uuid lock_free (w : ControlWorld) :
  is_task_control_leader now name uuid w = false ->
  control_tick controller_tick fuel now name uuid lock_free w = (w, Some (Ok tt)).
Proof. unfold control_tick. by intros ->. Qed.

End laws.

(** ** The control loop on the run of TaskExamples.v: the instances of its
    properties. *)

#[local] Existing Instances ex_libm ex_observables ex_toml ex_codec ex_states.

Notation ex_world := (@ControlWorld unit ex_toml unit ex_observables ex_codec).

(** A controller that is done at its first tick. *)
Definition ex_tick (now : i64) (run : i32) (t : @StoredTask unit ex_toml unit ex_codec) : @Ctl unit ex_toml unit ex_observables ex_codec unit :=
  on_tasks (complete_run_task now (task_id (st_task t))).

Definition ex_node : NodeRow := ControlPlane.mkNodeRow "u" 100 None (Some (mkTarget SamplerAggregator 1)) None false None None false.
Definition ex_busy : ex_world := mkControl ex_working ∅ {["n"%string := ex_node]} ∅.

Lemma control_step_waits_for_the_stage_witness :
  reconcile_run ex_tick 5 0 1 ex_busy = (ex_busy, Some (Ok tt)).
Proof.
  apply (control_step_waits_for_the_stage ex_tick 5 0 1 ex_busy). left.
  eexists. split; vm_compute; reflexivity.
Defined.

(** The first stage is over, and the [set_accumulator] task has its turn. *)
Definition ex_setting : ex_world :=
  mkControl (activate_next_run_task 5 1 ex_staged).1 ∅ {["n"%string := ex_node]} ∅.
Definition ex_set_task : @StoredTask unit ex_toml unit ex_codec :=
  match load_active_run_task 1 (cw_tasks ex_setting) with
  | Ok (Some t) => t
  | _ => mkStored ex_inference "" None (mkTimes None None None 0) 0 0 None None
  end.
Definition ex_set_done : ex_world := (reconcile_control_task ex_tick 6 1 ex_set_task ex_setting).1.

Lemma ex_setting_below : snapshots_below (cw_tasks ex_setting).
Proof.
  intros id p H. assert (run_stage_snapshots (cw_tasks ex_setting) = <[2 := mkSnapshotRow 1 4 ex_stage]> {[1 := mkSnapshotRow 1 0 (root_snapshot ex_root)]}) as Hs
    by (vm_compute; reflexivity).
  rewrite Hs in H. change (next_snapshot_id (cw_tasks ex_setting)) with 3.
  apply lookup_insert_Some in H as [[<- _]|[_ [<- _]%lookup_singleton_Some]]; lia.
Qed.

Lemma set_accumulator_reaches_later_stages_witness :
  exists s, load_latest_stage_snapshot_before_sequence 1 3 (cw_tasks ex_set_done) = Some s /\
    stage_observable_state s.2 = Some (state_from_config CEmpty) /\ stage_sampler_snapshot s.2 = Some ex_trained.
Proof.
  assert (reconcile_control_task ex_tick 6 1 ex_set_task ex_setting = (ex_set_done, Ok tt)) as H by (vm_compute; reflexivity).
  destruct (set_accumulator_reaches_later_stages ex_tick 6 1 ex_set_task CEmpty ex_setting ex_set_done
    ltac:(vm_compute; reflexivity) ex_setting_below H) as (base & s & Hb & Hs & Ho & _ & Hsam & _).
  exists s. split; [exact Hs|]. split; [exact Ho|]. rewrite Hsam.
  assert (load_latest_stage_snapshot_before_sequence 1 (task_sequence_nr (st_task ex_set_task)) (cw_tasks ex_setting) = Some (2, ex_stage)) as Hb'
    by (vm_compute; reflexivity).
  rewrite Hb' in Hb. injection Hb as <-. reflexivity.
Defined.
