(* ===== verification/Evaluator.v ===== *)
(** src/runners/evaluator.rs: the runner of an evaluator. It claims batches ahead
    of their evaluation, materializes and evaluates them, and submits each result
    in the background until the store acknowledges it.

    The world [W] behind the runner (the store, the clock, fresh claim tokens) is
    an interface, and so are the engines of a task. Their panics are values:
    [call_with_panic_guard] turns them into errors. Background requests are the
    tasks of Queue.v. Worker activity labels, busy-time accounting and the process
    memory of a performance snapshot are left out: no decision reads them. *)
From S2P Require Import Prelude Floats Errors Domain Batch Config LatentBatch Generation AccumulatorTrait Scalar Stratification Vector Gammaloop AccumulatorState Extraction Evaluation Raster WorkQueue Metrics Queue Tasks Runner TaskStore StageContext.

(** ** Engines *)

Inductive PanicPayload := PanicStr (message : string) | PanicString (message : string) | PanicOther.

(** What a call of an engine comes to. *)
Inductive Outcome (A : Type) :=
| Returned (r : result EngineError A)
| Panicked (payload : PanicPayload).
Arguments Returned {A}.
Arguments Panicked {A}.

Inductive EvaluatorRunnerError :=
| EvEngine (e : EngineError)
| EvStore (e : StoreError).

Definition evaluator_error_message (e : EvaluatorRunnerError) : string :=
  match e with EvEngine e => engine_message e | EvStore e => store_error_message e end.

Definition panic_message (payload : PanicPayload) : string :=
  match payload with
  | PanicStr message | PanicString message => message
  | PanicOther => "unknown panic payload"
  end.

Definition call_with_panic_guard {A} (label : string) (o : Outcome A) : result EvaluatorRunnerError A :=
  match o with
  | Returned (Ok a) => Ok a
  | Returned (Err e) => Err (EvEngine e)
  | Panicked payload =>
      Err (EvEngine (EngineE (String.append label (String.append " panicked: " (panic_message payload)))))
  end.

(** [Domain::validate_batch] *)
Definition validate_batch (d : Domain) (batch : list Point) : result string unit :=
  let? _ := try_map (fun p => validate_point_parts d (discrete p) (continuous p)) batch in Ok tt.

(** ** Counters and timings *)

Record EvaluatorRollingAverages := mkRollingAverages {
  ra_total : RollingMetric;
  ra_fetch : RollingMetric;
  ra_fetch_stall : RollingMetric;
  ra_evaluate : RollingMetric;
  ra_materialization : RollingMetric;
  ra_submit : RollingMetric;
  ra_submit_stall : RollingMetric
}.

Record EvaluatorCumulativeMetrics := mkCumulative {
  evaluate_seconds : f64;
  materialize_seconds : f64;
  fetch_wait_seconds : f64;
  submit_seconds : f64;
  submit_wait_seconds : f64
}.

Record EvaluatorPipelineCounters := mkCounters {
  fetch_attempts : i64;
  fetch_hits : i64;
  fetch_stalls : i64;
  queue_starved_attempts : i64;
  submit_attempts : i64;
  submit_slot_hits : i64;
  submit_stalls : i64
}.
Definition counters_default : EvaluatorPipelineCounters := mkCounters 0 0 0 0 0 0 0.
Definition count_fetch_attempt (c : EvaluatorPipelineCounters) : EvaluatorPipelineCounters :=
  mkCounters (fetch_attempts c + 1) (fetch_hits c) (fetch_stalls c) (queue_starved_attempts c) (submit_attempts c)
    (submit_slot_hits c) (submit_stalls c).
Definition count_fetch (hit stalled : bool) (c : EvaluatorPipelineCounters) : EvaluatorPipelineCounters :=
  mkCounters (fetch_attempts c) (fetch_hits c + Z.b2z hit) (fetch_stalls c + Z.b2z stalled) (queue_starved_attempts c)
    (submit_attempts c) (submit_slot_hits c) (submit_stalls c).
Definition count_starved (c : EvaluatorPipelineCounters) : EvaluatorPipelineCounters :=
  mkCounters (fetch_attempts c) (fetch_hits c) (fetch_stalls c) (queue_starved_attempts c + 1) (submit_attempts c)
    (submit_slot_hits c) (submit_stalls c).
Definition count_submit_attempt (c : EvaluatorPipelineCounters) : EvaluatorPipelineCounters :=
  mkCounters (fetch_attempts c) (fetch_hits c) (fetch_stalls c) (queue_starved_attempts c) (submit_attempts c + 1)
    (submit_slot_hits c) (submit_stalls c).
Definition count_slot (hit : bool) (c : EvaluatorPipelineCounters) : EvaluatorPipelineCounters :=
  mkCounters (fetch_attempts c) (fetch_hits c) (fetch_stalls c) (queue_starved_attempts c) (submit_attempts c)
    (submit_slot_hits c + Z.b2z hit) (submit_stalls c + Z.b2z (negb hit)).

Definition ratio (numerator denominator : i64) : f64 :=
  if denominator <=? 0 then 0%float else (f64_of_Z numerator / f64_of_Z denominator)%float.

Record EvaluatorStats := mkEvaluatorStats {
  es_cumulative : EvaluatorCumulativeMetrics;
  batches_completed_total : i64;
  samples_evaluated_total : i64;
  es_rolling : EvaluatorRollingAverages
}.
Definition stats_default : EvaluatorStats :=
  mkEvaluatorStats (mkCumulative 0 0 0 0 0) 0 0
    (mkRollingAverages rolling_default rolling_default rolling_default rolling_default rolling_default rolling_default rolling_default).

Record SubmitOutcome := mkSubmitOutcome {
  processed_samples : usize;
  so_total_time_ms : f64;
  fetch_time_ms : f64;
  fetch_stall_time_ms : f64;
  so_materialization_time_ms : f64;
  so_eval_time_ms : f64;
  submit_time_ms : f64;
  submit_stall_time_ms : f64
}.
Definition set_submit_time_ms (x : f64) (o : SubmitOutcome) : SubmitOutcome :=
  mkSubmitOutcome (processed_samples o) (so_total_time_ms o) (fetch_time_ms o) (fetch_stall_time_ms o)
    (so_materialization_time_ms o) (so_eval_time_ms o) x (submit_stall_time_ms o).

Section evaluator_runner.
Context {J : Type} {TV : TomlValues} {E : Type} {LM : Libm} {OB : Observables} {TC : @TaskCodec J TV E} {SS : @SavedStates J}.
Context {Rng : Type}.

Notation RunTask := (@RunTask J TV E).
Notation TaskTables := (@TaskTables J TV E OB TC).
Notation SamplingConfig := (@SamplingConfig J).
Notation BatchTransformConfig := (@BatchTransformConfig J).

Definition observe_eval_batch (o : SubmitOutcome) (s : EvaluatorStats) : EvaluatorStats :=
  let c := es_cumulative s in
  let r := es_rolling s in
  let n := processed_samples o in
  mkEvaluatorStats
    (mkCumulative (evaluate_seconds c + so_eval_time_ms o / 1000) (materialize_seconds c + so_materialization_time_ms o / 1000)
       (fetch_wait_seconds c + fetch_stall_time_ms o / 1000) (submit_seconds c + submit_time_ms o / 1000)
       (submit_wait_seconds c + submit_stall_time_ms o / 1000))%float
    (batches_completed_total s + 1) (samples_evaluated_total s + n)
    (mkRollingAverages (observe_batch (so_total_time_ms o) n (ra_total r)) (observe_batch (fetch_time_ms o) n (ra_fetch r))
       (observe_batch (fetch_stall_time_ms o) n (ra_fetch_stall r)) (observe_batch (so_eval_time_ms o) n (ra_evaluate r))
       (observe_batch (so_materialization_time_ms o) n (ra_materialization r)) (observe_batch (submit_time_ms o) n (ra_submit r))
       (observe_batch (submit_stall_time_ms o) n (ra_submit_stall r))).

(** ** Batches in the runner's hands *)

Record BatchClaim := mkBatchClaim {
  bc_stratification : option StratificationPlan;
  bc_batch_id : i64;
  bc_claim_token : string;
  bc_task_id : i64;
  bc_requires_training_values : bool;
  bc_latent_batch : LatentBatch Rng;
  bc_accumulator : AccumulatorConfig
}.

Record EvaluatedBatch := mkEvaluatedBatch {
  ed_result : BatchResult;
  ed_total_time_ms : f64;
  ed_materialization_time_ms : f64;
  ed_eval_time_ms : f64;
  ed_processed_samples : usize
}.
Record FailedEvaluation := mkFailedEvaluation {
  fe_message : string;
  fe_compute_time_ms : f64;
  fe_outcome : option BatchFailOutcome
}.
Definition with_outcome (o : BatchFailOutcome) (f : FailedEvaluation) : FailedEvaluation :=
  mkFailedEvaluation (fe_message f) (fe_compute_time_ms f) (Some o).

Record ActiveBatch := mkActiveBatch {
  ab_claim : BatchClaim;
  ab_fetch_time_ms : f64;
  ab_fetch_stall_time_ms : f64;
  ab_evaluation : option (result FailedEvaluation EvaluatedBatch)
}.
Definition set_evaluation (x : option (result FailedEvaluation EvaluatedBatch)) (a : ActiveBatch) : ActiveBatch :=
  mkActiveBatch (ab_claim a) (ab_fetch_time_ms a) (ab_fetch_stall_time_ms a) x.

Record Submission := mkSubmission {
  sm_batch_id : i64;
  sm_task_id : i64;
  sm_claim_token : string;
  sm_result : BatchResult;
  sm_outcome : SubmitOutcome
}.

(** ** Performance snapshots *)

Record EvaluatorPerformanceSnapshot := mkEvaluatorSnapshot {
  ep_run_id : i32;
  ep_node_name : string;
  ep_epoch : string;
  ep_node_uuid : string;
  ep_task_id : option i64;
  ep_stats : EvaluatorStats;
  ep_engine_diagnostics : J;
  (** mean and deviation of each rolling average *)
  ep_averages : list (f64 * f64);
  prefetch_hit_ratio : f64;
  fetch_stall_ratio : f64;
  queue_starvation_ratio : f64;
  submit_slot_hit_ratio : f64;
  submit_stall_ratio : f64;
  completed_samples_total : i64
}.

Definition average (m : RollingMetric) : f64 * f64 := (default 0%float (rolling_value m), rolling_std_dev m).
Definition averages (r : EvaluatorRollingAverages) : list (f64 * f64) :=
  [average (ra_total r); average (ra_fetch r); average (ra_fetch_stall r); average (ra_evaluate r);
   average (ra_materialization r); average (ra_submit r); average (ra_submit_stall r)].

(** ** The world *)

Class EvaluatorWorld (W : Type) := {
  ew_now : W -> Z;
  (** [Uuid::new_v4] *)
  ew_new_token : W -> W * string;
  ew_claim_batch : i32 -> string -> string -> W -> W * result StoreError (option BatchClaim);
  (** [None]: the deadline passed first *)
  ew_wait_for_work : i32 -> W -> W * option (result StoreError unit);
  ew_submit_batch_results : i64 -> string -> string -> BatchResult -> f64 -> W -> W * result StoreError unit;
  ew_fail_batch : i64 -> string -> string -> string -> i32 -> W -> W * result StoreError BatchFailOutcome;
  ew_release_untracked_claims : i32 -> string -> list string -> W -> W * result StoreError Z;
  ew_fail_run_task : i64 -> string -> W -> W * result StoreError unit;
  ew_clear_desired_assignments_for_run : i32 -> W -> W * result StoreError Z;
  ew_load_run_task : i64 -> W -> W * result StoreError (option RunTask);
  (** what the reads of one stage resolution see *)
  ew_stage_tables : W -> W * result StoreError TaskTables;
  (** the active task, and the progress of the run *)
  ew_load_run_sample_progress : i32 -> W -> W * result StoreError (option (option i64 * RunSampleProgress));
  ew_record_evaluator_performance_snapshot : EvaluatorPerformanceSnapshot -> W -> W * result StoreError unit
}.

(** An evaluator, a materializer, a batch transform. *)
Class Engines (Ev Mat Tr : Type) := {
  build_evaluator : E -> result EngineError Ev;
  resolve_domain : E -> result EngineError Domain;
  evaluator_config_eqb : E -> E -> bool;
  build_transform : BatchTransformConfig -> Domain -> result EngineError Tr;
  build_materializer : SamplingConfig -> Domain -> option (@StageHandoffOwned J OB) -> result EngineError Mat;
  mat_validate_domain : Domain -> Mat -> result EngineError unit;
  materialize_batch : LatentBatch Rng -> Mat -> Mat * Outcome (list Point);
  transform_apply : list Point -> Tr -> Tr * Outcome (list Point);
  eval_batch : list Point -> AccumulatorConfig -> EvalBatchOptions -> Ev -> Ev * Outcome BatchResult;
  ev_diagnostics : Ev -> Ev * J
}.

Context {W Ev Mat Tr : Type} {EW : EvaluatorWorld W} {EN : Engines Ev Mat Tr}.

(** ** The state *)

Record LatentPrefetchBuffer := mkPrefetch {
  pf_ready_batch : option BatchClaim;
  pf_claim_token : option string;
  pf_pending : option (JoinHandle W (option BatchClaim))
}.
Record ResultSubmitBuffer := mkSubmitBuffer {
  sb_submission : option Submission;
  sb_pending : option (JoinHandle W SubmitOutcome)
}.

(** What does not change. *)
Record EvaluatorInfo := mkEvaluatorInfo {
  ei_run_id : i32;
  ei_node_name : string;
  ei_node_uuid : string;
  ei_domain : Domain;
  ei_performance_snapshot_interval : Z;
  ei_epoch : string;
  ei_max_batch_retries : i32
}.

Record EvaluatorRunner := mkEvaluatorRunner {
  er_evaluator : Ev;
  er_evaluator_config : E;
  er_current_task_id : option i64;
  er_materializer : option Mat;
  er_prefetch : LatentPrefetchBuffer;
  er_submit : ResultSubmitBuffer;
  er_active : option ActiveBatch;
  er_last_claim_reconciliation : Z;
  er_draining : bool;
  er_last_snapshot_at : Z;
  er_stats : EvaluatorStats;
  er_counters : EvaluatorPipelineCounters;
  er_transforms : list Tr
}.

(** Field assignments. *)
Definition set_er_evaluator (x : Ev) (r : EvaluatorRunner) : EvaluatorRunner :=
  let 'mkEvaluatorRunner _ x1 x2 x3 x4 x5 x6 x7 x8 x9 x10 x11 x12 := r in
  mkEvaluatorRunner x x1 x2 x3 x4 x5 x6 x7 x8 x9 x10 x11 x12.
Definition set_er_evaluator_config (x : E) (r : EvaluatorRunner) : EvaluatorRunner :=
  let 'mkEvaluatorRunner x0 _ x2 x3 x4 x5 x6 x7 x8 x9 x10 x11 x12 := r in
  mkEvaluatorRunner x0 x x2 x3 x4 x5 x6 x7 x8 x9 x10 x11 x12.
Definition set_er_current_task_id (x : option i64) (r : EvaluatorRunner) : EvaluatorRunner :=
  let 'mkEvaluatorRunner x0 x1 _ x3 x4 x5 x6 x7 x8 x9 x10 x11 x12 := r in
  mkEvaluatorRunner x0 x1 x x3 x4 x5 x6 x7 x8 x9 x10 x11 x12.
Definition set_er_materializer (x : option Mat) (r : EvaluatorRunner) : EvaluatorRunner :=
  let 'mkEvaluatorRunner x0 x1 x2 _ x4 x5 x6 x7 x8 x9 x10 x11 x12 := r in
  mkEvaluatorRunner x0 x1 x2 x x4 x5 x6 x7 x8 x9 x10 x11 x12.
Definition set_er_prefetch (x : LatentPrefetchBuffer) (r : EvaluatorRunner) : EvaluatorRunner :=
  let 'mkEvaluatorRunner x0 x1 x2 x3 _ x5 x6 x7 x8 x9 x10 x11 x12 := r in
  mkEvaluatorRunner x0 x1 x2 x3 x x5 x6 x7 x8 x9 x10 x11 x12.
Definition set_er_submit (x : ResultSubmitBuffer) (r : EvaluatorRunner) : EvaluatorRunner :=
  let 'mkEvaluatorRunner x0 x1 x2 x3 x4 _ x6 x7 x8 x9 x10 x11 x12 := r in
  mkEvaluatorRunner x0 x1 x2 x3 x4 x x6 x7 x8 x9 x10 x11 x12.
Definition set_er_active (x : option ActiveBatch) (r : EvaluatorRunner) : EvaluatorRunner :=
  let 'mkEvaluatorRunner x0 x1 x2 x3 x4 x5 _ x7 x8 x9 x10 x11 x12 := r in
  mkEvaluatorRunner x0 x1 x2 x3 x4 x5 x x7 x8 x9 x10 x11 x12.
Definition set_er_last_claim_reconciliation (x : Z) (r : EvaluatorRunner) : EvaluatorRunner :=
  let 'mkEvaluatorRunner x0 x1 x2 x3 x4 x5 x6 _ x8 x9 x10 x11 x12 := r in
  mkEvaluatorRunner x0 x1 x2 x3 x4 x5 x6 x x8 x9 x10 x11 x12.
Definition set_er_draining (x : bool) (r : EvaluatorRunner) : EvaluatorRunner :=
  let 'mkEvaluatorRunner x0 x1 x2 x3 x4 x5 x6 x7 _ x9 x10 x11 x12 := r in
  mkEvaluatorRunner x0 x1 x2 x3 x4 x5 x6 x7 x x9 x10 x11 x12.
Definition set_er_last_snapshot_at (x : Z) (r : EvaluatorRunner) : EvaluatorRunner :=
  let 'mkEvaluatorRunner x0 x1 x2 x3 x4 x5 x6 x7 x8 _ x10 x11 x12 := r in
  mkEvaluatorRunner x0 x1 x2 x3 x4 x5 x6 x7 x8 x x10 x11 x12.
Definition set_er_stats (x : EvaluatorStats) (r : EvaluatorRunner) : EvaluatorRunner :=
  let 'mkEvaluatorRunner x0 x1 x2 x3 x4 x5 x6 x7 x8 x9 _ x11 x12 := r in
  mkEvaluatorRunner x0 x1 x2 x3 x4 x5 x6 x7 x8 x9 x x11 x12.
Definition set_er_counters (x : EvaluatorPipelineCounters) (r : EvaluatorRunner) : EvaluatorRunner :=
  let 'mkEvaluatorRunner x0 x1 x2 x3 x4 x5 x6 x7 x8 x9 x10 _ x12 := r in
  mkEvaluatorRunner x0 x1 x2 x3 x4 x5 x6 x7 x8 x9 x10 x x12.
Definition set_er_transforms (x : list Tr) (r : EvaluatorRunner) : EvaluatorRunner :=
  let 'mkEvaluatorRunner x0 x1 x2 x3 x4 x5 x6 x7 x8 x9 x10 x11 _ := r in
  mkEvaluatorRunner x0 x1 x2 x3 x4 x5 x6 x7 x8 x9 x10 x11 x.

Notation M := (SE (EvaluatorRunner * W) EvaluatorRunnerError).

Definition eget {A} (f : EvaluatorRunner -> A) : M A := se_get (fun s => f s.1).
Definition emodify (f : EvaluatorRunner -> EvaluatorRunner) : M unit := se_modify (fun s => (f s.1, s.2)).
Definition enow : M Z := fun s => (s, Ok (ew_now s.2)).
Definition estore {A} (f : W -> W * result StoreError A) : M A :=
  fun s => let '(w, r) := f s.2 in ((s.1, w), map_err EvStore r).
Definition ecount (f : EvaluatorPipelineCounters -> EvaluatorPipelineCounters) : M unit :=
  emodify (fun r => set_er_counters (f (er_counters r)) r).
Definition on_prefetch {A} (m : SE (LatentPrefetchBuffer * W) EvaluatorRunnerError A) : M A :=
  fun s => let '((b, w), a) := m (er_prefetch s.1, s.2) in ((set_er_prefetch b s.1, w), a).
Definition on_submit {A} (m : SE (ResultSubmitBuffer * W) EvaluatorRunnerError A) : M A :=
  fun s => let '((b, w), a) := m (er_submit s.1, s.2) in ((set_er_submit b s.1, w), a).
(** [unwrap] of a value the caller has set. *)
Definition epanic {A} (message : string) : M A := se_fail (EvEngine (EngineE (String.append "panicked: " message))).

Variable info : EvaluatorInfo.

(** ** Prefetching *)

Notation PB := (SE (LatentPrefetchBuffer * W) EvaluatorRunnerError).

Definition has_pending_work (b : LatentPrefetchBuffer) : bool :=
  bool_decide (is_Some (pf_ready_batch b)) || bool_decide (is_Some (pf_claim_token b)).

Definition prefetch_job (token : string) (w : W) : W * result StoreError (option BatchClaim) :=
  match ew_claim_batch (ei_run_id info) (ei_node_uuid info) token w with
  | (w, Err e) => (w, Err e)
  | (w, Ok (Some claim)) => (w, Ok (Some claim))
  | (w, Ok None) =>
      match ew_wait_for_work (ei_run_id info) w with
      | (w, Some (Err e)) => (w, Err e)
      | (w, _) => (w, Ok None)
      end
  end.

Definition maybe_start_prefetch (draining : bool) : PB unit := fun '(b, w) =>
  if bool_decide (is_Some (pf_ready_batch b)) || bool_decide (is_Some (pf_pending b))
     || (draining && negb (bool_decide (is_Some (pf_claim_token b))))
  then ((b, w), Ok tt)
  else
    let '(w, token) := match pf_claim_token b with Some token => (w, token) | None => ew_new_token w end in
    ((mkPrefetch (pf_ready_batch b) (Some token) (Some (spawn (prefetch_job token))), w), Ok tt).

Definition finish_prefetch : PB unit := fun '(b, w) =>
  match pf_pending b with
  | None => ((b, w), Ok tt)
  | Some h =>
      match await_handle h w with
      | (w, Some (Ok claimed)) => ((mkPrefetch claimed None None, w), Ok tt)
      | (w, Some (Err e)) => ((mkPrefetch (pf_ready_batch b) (pf_claim_token b) None, w), Err (EvStore e))
      | (w, None) =>
          ((mkPrefetch (pf_ready_batch b) (pf_claim_token b) None, w), Err (EvStore (Internal "evaluator prefetch task failed")))
      end
  end.

Record PopOutcome := mkPopOutcome {
  po_claimed : option BatchClaim;
  po_hit : bool;
  po_stalled : bool;
  po_wait_time_ms : f64
}.

Definition pop (draining : bool) : PB PopOutcome :=
  let! finished := se_get (fun s => match pf_pending s.1 with Some h => is_finished h | None => false end) in
  se_when finished finish_prefetch ;!
  let! hit := se_get (fun s => bool_decide (is_Some (pf_ready_batch s.1))) in
  let! started := se_get (fun s => ew_now s.2) in
  se_when (negb hit)
    (maybe_start_prefetch draining ;!
     let! pending := se_get (fun s => bool_decide (is_Some (pf_pending s.1))) in
     se_when pending finish_prefetch) ;!
  let! claimed := se_get (fun s => pf_ready_batch s.1) in
  se_modify (fun s => (mkPrefetch None (pf_claim_token s.1) (pf_pending s.1), s.2)) ;!
  se_when (bool_decide (is_Some claimed)) (maybe_start_prefetch draining) ;!
  let! now := se_get (fun s => ew_now s.2) in
  se_ret (mkPopOutcome claimed hit (negb hit) (if hit then 0%float else elapsed_ms now started)).

(** ** Submitting *)

Notation SB := (SE (ResultSubmitBuffer * W) EvaluatorRunnerError).

Definition is_idle (b : ResultSubmitBuffer) : bool := negb (bool_decide (is_Some (sb_submission b))).

Definition submit_job (s : Submission) (w : W) : W * result StoreError SubmitOutcome :=
  let started := ew_now w in
  match ew_submit_batch_results (sm_batch_id s) (ei_node_uuid info) (sm_claim_token s) (sm_result s) (so_total_time_ms (sm_outcome s)) w with
  | (w, Err e) => (w, Err e)
  | (w, Ok _) => (w, Ok (set_submit_time_ms (elapsed_ms (ew_now w) started) (sm_outcome s)))
  end.

Definition ensure_submit (b : ResultSubmitBuffer) : ResultSubmitBuffer :=
  if bool_decide (is_Some (sb_pending b)) then b
  else
    match sb_submission b with
    | None => b
    | Some s => mkSubmitBuffer (Some s) (Some (spawn (submit_job s)))
    end.

(** [assert!(self.is_idle())]: unwinds when a submission is outstanding. *)
Definition start_submit (s : Submission) : SB unit := fun '(b, w) =>
  if is_idle b then ((ensure_submit (mkSubmitBuffer (Some s) (sb_pending b)), w), Ok tt)
  else ((b, w), Err (EvEngine (EngineE "panicked: assertion failed: self.is_idle()"))).

Definition wait_for_slot : SB (option SubmitOutcome) := fun '(b, w) =>
  let b := ensure_submit b in
  match sb_pending b with
  | None => ((b, w), Ok None)
  | Some h =>
      match await_handle h w with
      | (w, Some (Ok outcome)) => ((mkSubmitBuffer None None, w), Ok (Some outcome))
      | (w, Some (Err e)) =>
          if is_batch_ownership_lost e then ((mkSubmitBuffer None None, w), Ok None)
          else ((mkSubmitBuffer (sb_submission b) None, w), Err (EvStore e))
      | (w, None) => ((mkSubmitBuffer (sb_submission b) None, w), Err (EvStore (Internal "evaluator submit task failed")))
      end
  end.

Definition drain_finished : SB (option SubmitOutcome) := fun '(b, w) =>
  let b := ensure_submit b in
  if match sb_pending b with Some h => is_finished h | None => false end then wait_for_slot (b, w)
  else ((b, w), Ok None).

(** ** The context of a task *)

Record TaskRuntimeContext := mkTaskRuntime {
  tr_evaluator_config : E;
  tr_materializer : Mat;
  tr_batch_transforms : list Tr
}.

Definition internal {A B} (message : string) (m : result A B) : result EvaluatorRunnerError B :=
  map_err (fun _ => EvStore (Internal message)) m.

Definition build_batch_transforms (configs : list BatchTransformConfig) (d : Domain) : result EvaluatorRunnerError (list Tr) :=
  try_map (fun config => internal "failed to build batch transform" (build_transform config d)) configs.

(** [SamplingConfig::sampling_domain] *)
Definition config_sampling_domain (config : SamplingConfig) (integrand : Domain) : result EngineError Domain :=
  let? _ := map_err InvalidInputE (domain_validate integrand) in
  match stratification_of config with
  | Some partition =>
      let? _ := partition_validate partition in
      match sampler_of config with
      | RasterPlane _ | RasterLine _ => Err (InvalidInputE "raster samplers do not support stratification")
      | _ => sampling_domain partition integrand
      end
  | None => Ok integrand
  end.

(** [SamplerInitialization::build_materializer] *)
Definition initialization_materializer (i : @SamplerInitialization J OB) (d : Domain) : result EngineError Mat :=
  build_materializer (initialization_config i) d (materializer_source i).

Definition runtime_of (resolved : @ResolvedStageContext J E OB) : result EvaluatorRunnerError TaskRuntimeContext :=
  let d := ei_domain info in
  let? batch_transforms := build_batch_transforms (rs_batch_transforms resolved) d in
  let? evaluator_domain := internal "failed to resolve evaluator domain" (resolve_domain (rs_evaluator_config resolved)) in
  if negb (domain_eqb evaluator_domain d) then Err (EvStore (Internal "task evaluator domain does not match run domain"))
  else
    let? m := internal "failed to build materializer" (initialization_materializer (rs_sampler resolved) d) in
    let? sampling := map_err EvEngine (config_sampling_domain (initialization_config (rs_sampler resolved)) d) in
    let? _ := internal "failed to validate materializer domain" (mat_validate_domain sampling m) in
    Ok (mkTaskRuntime (rs_evaluator_config resolved) m batch_transforms).

Definition load_task_context (task : i64) : M TaskRuntimeContext :=
  let! loaded := estore (ew_load_run_task task) in
  let! t := se_lift (ok_or (EvStore (Internal "claimed batch references missing task")) loaded) in
  let! tables := estore ew_stage_tables in
  let! resolved := se_lift (map_err EvStore (resolve_stage_context tables (ei_run_id info) t (task_sequence_nr t) None)) in
  se_lift (runtime_of resolved).

Definition ensure_task_context (task : i64) : M unit :=
  let! current := eget er_current_task_id in
  if bool_decide (current = Some task) then se_ret tt
  else
    let! context := load_task_context task in
    let! config := eget er_evaluator_config in
    se_when (negb (evaluator_config_eqb (tr_evaluator_config context) config))
      (let! evaluator := se_lift (internal "failed to build evaluator" (build_evaluator (tr_evaluator_config context))) in
       emodify (set_er_evaluator evaluator) ;!
       emodify (set_er_evaluator_config (tr_evaluator_config context))) ;!
    emodify (set_er_current_task_id (Some task)) ;!
    emodify (set_er_materializer (Some (tr_materializer context))) ;!
    emodify (set_er_transforms (tr_batch_transforms context)).

(** ** Claims *)

(** The claims of this runner, by token. *)
Definition tracked_tokens (r : EvaluatorRunner) : list string :=
  option_list (pf_claim_token (er_prefetch r))
  ++ option_list (bc_claim_token <$> pf_ready_batch (er_prefetch r))
  ++ option_list ((fun a => bc_claim_token (ab_claim a)) <$> er_active r)
  ++ option_list (sm_claim_token <$> sb_submission (er_submit r)).

Definition RECONCILE_INTERVAL : Z := nanos_per_sec.

Definition reconcile_claims : M unit :=
  let! now := enow in
  let! last := eget er_last_claim_reconciliation in
  if Z.max 0 (now - last) <? RECONCILE_INTERVAL then se_ret tt
  else
    let! tokens := eget tracked_tokens in
    let! _ := estore (ew_release_untracked_claims (ei_run_id info) (ei_node_uuid info) tokens) in
    let! now := enow in
    emodify (set_er_last_claim_reconciliation now).

(** ** Evaluating *)

(** Each transform is left as its call leaves it, those after a failing one as
    they were. *)
Fixpoint apply_transforms (ts : list Tr) (batch : list Point) : list Tr * result EvaluatorRunnerError (list Point) :=
  match ts with
  | [] => ([], Ok batch)
  | t :: ts =>
      let '(t, o) := transform_apply batch t in
      match call_with_panic_guard "batch_transform.apply" o with
      | Err e => (t :: ts, Err e)
      | Ok batch => let '(ts, x) := apply_transforms ts batch in (t :: ts, x)
      end
  end.

Definition materialize (claim : BatchClaim) : M (list Point) :=
  let! m := eget er_materializer in
  match m with
  | None => se_fail (EvStore (Internal "evaluator task has no materializer"))
  | Some m =>
      let '(m, o) := materialize_batch (bc_latent_batch claim) m in
      emodify (set_er_materializer (Some m)) ;!
      se_lift (call_with_panic_guard "materializer.materialize_batch" o)
  end.

(** The integrand points of a claim, and the stratum each was requested from. *)
Definition integrand_points (claim : BatchClaim) (batch : list Point) : result EvaluatorRunnerError (list Point * option (list usize)) :=
  match bc_stratification claim with
  | Some plan =>
      let? x := map_err EvEngine (integrand_batch batch plan) in
      Ok (x.1, Some x.2)
  | None => Ok (batch, None)
  end.

Definition check_batch (claim : BatchClaim) (batch : list Point) : result EvaluatorRunnerError unit :=
  if negb (zlen batch =? nr_samples (bc_latent_batch claim)) then
    Err (EvEngine (Eval "materializers and transforms must preserve sample count"))
  else map_err (fun _ => EvEngine (EngineE "materialized batch does not match run domain")) (validate_batch (ei_domain info) batch).

Definition eval_options (claim : BatchClaim) (labels : option (list usize)) : EvalBatchOptions :=
  mkOptions (bc_requires_training_values claim)
    (match bc_stratification claim, labels with Some plan, Some labels => Some (plan, labels) | _, _ => None end).

(** The closure of [evaluate_claim]. *)
Definition evaluate_batch (claim : BatchClaim) (compute_started : Z) : M EvaluatedBatch :=
  let! batch := materialize claim in
  let! x := se_lift (integrand_points claim batch) in
  let! ts := eget er_transforms in
  let '(ts, y) := apply_transforms ts x.1 in
  emodify (set_er_transforms ts) ;!
  let! batch := se_lift y in
  se_lift (check_batch claim batch) ;!
  let! started := enow in
  let! ev := eget er_evaluator in
  let '(ev, o) := eval_batch batch (bc_accumulator claim) (eval_options claim x.2) ev in
  emodify (set_er_evaluator ev) ;!
  let! r := se_lift (call_with_panic_guard "evaluator.eval_batch" o) in
  let! now := enow in
  se_lift (map_err EvEngine (validate_for_batch r (zlen batch) (bc_requires_training_values claim))) ;!
  let materialization_time_ms := elapsed_ms started compute_started in
  let eval_time_ms := elapsed_ms now started in
  se_ret (mkEvaluatedBatch r (materialization_time_ms + eval_time_ms)%float materialization_time_ms eval_time_ms (zlen batch)).

Definition evaluate_claim (claim : BatchClaim) : M (result FailedEvaluation EvaluatedBatch) := fun s =>
  let compute_started := ew_now s.2 in
  match evaluate_batch claim compute_started s with
  | (s, Ok b) => (s, Ok (Ok b))
  | (s, Err e) => (s, Ok (Err (mkFailedEvaluation (evaluator_error_message e) (elapsed_ms (ew_now s.2) compute_started) None)))
  end.

(** ** Performance snapshots *)

Definition performance_snapshot (progress : option (option i64 * RunSampleProgress)) (engine_diagnostics : J) (r : EvaluatorRunner)
    : EvaluatorPerformanceSnapshot :=
  let c := er_counters r in
  let s := er_stats r in
  let task_id := or_else ((fun a => bc_task_id (ab_claim a)) <$> er_active r) (p ← progress; p.1) in
  mkEvaluatorSnapshot (ei_run_id info) (ei_node_name info) (ei_epoch info) (ei_node_uuid info) task_id s engine_diagnostics
    (averages (es_rolling s)) (ratio (fetch_hits c) (fetch_attempts c)) (ratio (fetch_stalls c) (fetch_attempts c))
    (ratio (queue_starved_attempts c) (fetch_attempts c)) (ratio (submit_slot_hits c) (submit_attempts c))
    (ratio (submit_stalls c) (submit_attempts c))
    (match progress with Some p => rp_completed p.2 | None => samples_evaluated_total s end).

Definition flush_performance_snapshot_if_due (force : bool) : M unit :=
  let! now := enow in
  let! last := eget er_last_snapshot_at in
  let interval := ei_performance_snapshot_interval info in
  if negb force && negb ((interval =? 0) || (interval <=? Z.max 0 (now - last))) then se_ret tt
  else
    let! progress := estore (ew_load_run_sample_progress (ei_run_id info)) in
    let! ev := eget er_evaluator in
    let '(ev, d) := ev_diagnostics ev in
    emodify (set_er_evaluator ev) ;!
    let! snapshot := eget (performance_snapshot progress d) in
    estore (ew_record_evaluator_performance_snapshot snapshot) ;!
    let! now := enow in
    emodify (set_er_last_snapshot_at now).

(** ** The outcome of a batch *)

Definition failure_reason (batch_id : i64) (retry_count : i32) (message : string) : string :=
  String.append "batch " (String.append (Scalar.show_i64 batch_id)
    (String.append " failed after " (String.append (Scalar.show_i64 retry_count)
      (String.append "/" (String.append (Scalar.show_i64 (ei_max_batch_retries info))
        (String.append " retries: " message)))))).

(** [None]: another worker owns the batch by now, the failure is dropped. *)
Definition notify_failure (a : ActiveBatch) (failure : FailedEvaluation) : M (option BatchFailOutcome) :=
  match fe_outcome failure with
  | Some outcome => se_ret (Some outcome)
  | None => fun s =>
      match ew_fail_batch (bc_batch_id (ab_claim a)) (ei_node_uuid info) (bc_claim_token (ab_claim a)) (fe_message failure)
              (ei_max_batch_retries info) s.2 with
      | (w, Ok outcome) =>
          ((set_er_active (Some (set_evaluation (Some (Err (with_outcome outcome failure))) a)) s.1, w), Ok (Some outcome))
      | (w, Err e) =>
          if is_batch_ownership_lost e then ((set_er_active None s.1, w), Ok None) else ((s.1, w), Err (EvStore e))
      end
  end.

Definition persist_batch_failure : M unit :=
  let! active := eget er_active in
  match active with
  | Some a =>
      match ab_evaluation a with
      | Some (Err failure) =>
          let! notified := notify_failure a failure in
          match notified with
          | None => se_ret tt
          | Some outcome =>
              match outcome with
              | PermanentlyFailed task n =>
                  estore (ew_fail_run_task task (failure_reason (bc_batch_id (ab_claim a)) n (fe_message failure))) ;!
                  let! _ := estore (ew_clear_desired_assignments_for_run (ei_run_id info)) in se_ret tt
              | Requeued _ _ => se_ret tt
              end ;!
              emodify (set_er_active None) ;!
              flush_performance_snapshot_if_due false
          end
      | _ => epanic "unreachable"
      end
  | None => epanic "active failed batch"
  end.

Definition consume_submitted_result (outcome : option SubmitOutcome) : M unit :=
  match outcome with
  | None => se_ret tt
  | Some o =>
      emodify (fun r => set_er_stats (observe_eval_batch o (er_stats r)) r) ;!
      flush_performance_snapshot_if_due false
  end.

Definition consume_finished_submit : M unit :=
  let! outcome := on_submit drain_finished in
  consume_submitted_result outcome.

(** ** The tick *)

(** A popped claim becomes the active batch: [false] when the queue has none. *)
Definition activate_claim (started : Z) (p : PopOutcome) : M bool :=
  match po_claimed p with
  | None =>
      ecount count_starved ;!
      flush_performance_snapshot_if_due false ;!
      se_ret false
  | Some claim =>
      ecount (count_fetch (po_hit p) (po_stalled p)) ;!
      let! now := enow in
      emodify (set_er_active (Some (mkActiveBatch claim (elapsed_ms now started) (po_wait_time_ms p) None))) ;!
      se_ret true
  end.
Definition fetch_claim : M bool :=
  ecount count_fetch_attempt ;!
  let! started := enow in
  let! draining := eget er_draining in
  let! p := on_prefetch (pop draining) in
  activate_claim started p.

Definition evaluate_active : M unit :=
  let! active := eget er_active in
  match active with
  | None => epanic "called `Option::unwrap()` on a `None` value"
  | Some a =>
      match ab_evaluation a with
      | Some _ => se_ret tt
      | None =>
          ensure_task_context (bc_task_id (ab_claim a)) ;!
          emodify (set_er_active None) ;!
          let! outcome := evaluate_claim (ab_claim a) in
          emodify (set_er_active (Some (set_evaluation (Some outcome) a)))
      end
  end.

(** Room for a submission: the time spent waiting for the previous one. *)
Definition await_slot : M f64 :=
  let! idle := eget (fun r => is_idle (er_submit r)) in
  ecount (count_slot idle) ;!
  if idle then se_ret 0%float
  else
    let! started := enow in
    let! outcome := on_submit wait_for_slot in
    let! now := enow in
    consume_submitted_result outcome ;!
    se_ret (elapsed_ms now started).

Definition submission_of (a : ActiveBatch) (e : EvaluatedBatch) (stall : f64) : Submission :=
  let c := ab_claim a in
  mkSubmission (bc_batch_id c) (bc_task_id c) (bc_claim_token c) (ed_result e)
    (mkSubmitOutcome (ed_processed_samples e) (ed_total_time_ms e) (ab_fetch_time_ms a) (ab_fetch_stall_time_ms a)
       (ed_materialization_time_ms e) (ed_eval_time_ms e) 0%float stall).

Definition submit_active : M unit :=
  let! stall := await_slot in
  let! active := eget er_active in
  emodify (set_er_active None) ;!
  match active with
  | Some a =>
      match ab_evaluation a with
      | Some (Ok e) =>
          ecount count_submit_attempt ;!
          on_submit (start_submit (submission_of a e stall))
      | _ => epanic "unreachable"
      end
  | None => epanic "called `Option::unwrap()` on a `None` value"
  end.

Definition evaluation_failed (r : EvaluatorRunner) : bool :=
  match er_active r with
  | Some a => match ab_evaluation a with Some (Err _) => true | _ => false end
  | None => false
  end.

Definition tick : M unit :=
  reconcile_claims ;!
  consume_finished_submit ;!
  let! active := eget er_active in
  let! fetched := (if bool_decide (is_Some active) then se_ret true else fetch_claim) in
  if negb fetched then se_ret tt
  else
    evaluate_active ;!
    let! failed := eget evaluation_failed in
    if failed then persist_batch_failure else submit_active.

Definition work_left (r : EvaluatorRunner) : bool :=
  bool_decide (is_Some (er_active r)) || has_pending_work (er_prefetch r).

(** [None]: the fuel ran out. *)
Fixpoint drain_loop (fuel : nat) (s : EvaluatorRunner * W) : (EvaluatorRunner * W) * option (result EvaluatorRunnerError unit) :=
  if negb (work_left s.1) then (s, Some (Ok tt))
  else
    match fuel with
    | O => (s, None)
    | S fuel =>
        match tick s with
        | (s, Err e) => (s, Some (Err e))
        | (s, Ok _) => drain_loop fuel s
        end
    end.

Definition finish_submission : M unit :=
  let! outcome := on_submit wait_for_slot in
  consume_submitted_result outcome ;!
  flush_performance_snapshot_if_due true.

Definition stop (fuel : nat) (s : EvaluatorRunner * W) : (EvaluatorRunner * W) * option (result EvaluatorRunnerError unit) :=
  match drain_loop fuel (set_er_draining true s.1, s.2) with
  | (s, Some (Ok _)) => let '(s, r) := finish_submission s in (s, Some r)
  | x => x
  end.

Definition evaluator_runner_new (now : Z) (config : E) (evaluator : Ev) : EvaluatorRunner :=
  mkEvaluatorRunner evaluator config None None (mkPrefetch None None None) (mkSubmitBuffer None None) None
    (now - nanos_per_sec) false now stats_default counters_default [].

(** ** The scheduler *)

(** The background tasks run at any time between two calls. *)
Definition run_prefetch (s : EvaluatorRunner * W) : EvaluatorRunner * W :=
  let b := er_prefetch s.1 in
  match pf_pending b with
  | Some h =>
      let '(h, w) := run_handle h s.2 in
      (set_er_prefetch (mkPrefetch (pf_ready_batch b) (pf_claim_token b) (Some h)) s.1, w)
  | None => s
  end.
Definition run_submit (s : EvaluatorRunner * W) : EvaluatorRunner * W :=
  let b := er_submit s.1 in
  match sb_pending b with
  | Some h =>
      let '(h, w) := run_handle h s.2 in
      (set_er_submit (mkSubmitBuffer (sb_submission b) (Some h)) s.1, w)
  | None => s
  end.

End evaluator_runner.
