(* ===== verification/EvaluatorLaws.v ===== *)
(** What the evaluator runner of Evaluator.v guarantees: it loses no claim, it
    submits checked results only, and it drains when it is stopped. What it relies
    on in the store is the class [ClaimLedger]. *)
From S2P Require Import Prelude Floats Errors Domain Batch Config LatentBatch Generation AccumulatorTrait Scalar Stratification Vector Gammaloop AccumulatorState Extraction Evaluation Raster WorkQueue Metrics Queue Tasks Runner TaskStore StageContext Evaluator.

Section laws.
Context {J : Type} {TV : TomlValues} {E : Type} {LM : Libm} {OB : Observables} {TC : @TaskCodec J TV E} {SS : @SavedStates J}.
Context {Rng W Ev Mat Tr : Type} {EW : @EvaluatorWorld J TV E OB TC Rng W} {EN : @Engines J E OB Rng Ev Mat Tr}.
Context (info : EvaluatorInfo).

Notation EvaluatorRunner := (@EvaluatorRunner E OB Rng W Ev Mat Tr).
Notation LatentPrefetchBuffer := (@LatentPrefetchBuffer Rng W).
Notation ResultSubmitBuffer := (@ResultSubmitBuffer OB W).
Notation BatchClaim := (@BatchClaim Rng).
Notation ActiveBatch := (@ActiveBatch OB Rng).
Notation Submission := (@Submission OB).
Notation run := (ei_run_id info).
Notation uuid := (ei_node_uuid info).

(** ** What the store promises

    [mine w id t]: a batch [id] of the run is claimed by this node under the token
    [t]. [used w t]: the token has been given out. *)
Class ClaimLedger := {
  valid : W -> Prop;
  mine : W -> i64 -> string -> Prop;
  used : W -> string -> Prop;
  issued : BatchClaim -> Prop;
  (** steps of everybody else *)
  others : W -> W -> Prop
}.
Context {CL : ClaimLedger}.

(** [T] is the token this node claims under, if it does. *)
Definition moves (T : option string) (w w' : W) : Prop :=
  valid w' /\ (forall t, used w t -> used w' t) /\ (forall id t, mine w' id t -> mine w id t \/ T = Some t).

Definition quiet {A} (f : W -> W * A) : Prop := forall w w' r, valid w -> f w = (w', r) -> moves None w w'.

(** A batch leaves the hands of its node when its result or its failure is
    recorded, or when the store no longer knows the claim. *)
Definition settles {A} (r : result StoreError A) : bool :=
  match r with Ok _ => true | Err e => is_batch_ownership_lost e end.

Class ClaimLedgerLaws := {
  law_others w w' : others w w' -> valid w -> moves None w w';
  law_new_token w w' t : valid w -> ew_new_token w = (w', t) -> moves None w w' /\ ~ used w t /\ used w' t;
  law_claim token w w' r :
    valid w -> used w token -> ew_claim_batch run uuid token w = (w', r) ->
    moves (Some token) w w' /\
    match r with
    | Ok (Some c) => issued c /\ bc_claim_token c = token /\ (forall id, mine w' id token -> id = bc_batch_id c)
    | Ok None => forall id, ~ mine w' id token
    | Err _ => True
    end;
  law_wait : quiet (ew_wait_for_work run);
  law_submit id token res ms w w' r :
    valid w -> ew_submit_batch_results id uuid token res ms w = (w', r) ->
    moves None w w' /\ (settles r = true -> ~ mine w' id token);
  law_fail id token message max w w' r :
    valid w -> ew_fail_batch id uuid token message max w = (w', r) ->
    moves None w w' /\ (settles r = true -> ~ mine w' id token);
  law_release tokens : quiet (ew_release_untracked_claims run uuid tokens);
  law_fail_task id reason : quiet (ew_fail_run_task id reason);
  law_clear : quiet (ew_clear_desired_assignments_for_run run);
  law_load_task id : quiet (ew_load_run_task id);
  law_tables : quiet ew_stage_tables;
  law_progress : quiet (ew_load_run_sample_progress run);
  law_record s : quiet (ew_record_evaluator_performance_snapshot s)
}.
Context {CLL : ClaimLedgerLaws}.

Lemma moves_refl w : valid w -> moves None w w.
Proof. intros Hv. unfold moves. split_and!; auto. Qed.
Lemma moves_trans T w1 w2 w3 : moves T w1 w2 -> moves T w2 w3 -> moves T w1 w3.
Proof.
  intros (? & ? & H1) (? & ? & H2). unfold moves. split_and!; [done|auto|].
  intros id t Hm. destruct (H2 _ _ Hm); [|by right]. by apply H1.
Qed.
Lemma moves_weaken T w w' : moves None w w' -> moves T w w'.
Proof. intros (? & ? & H). unfold moves. split_and!; [done..|]. intros id t Hm. destruct (H _ _ Hm); [by left|done]. Qed.
Lemma moves_mine w w' id t : moves None w w' -> ~ mine w id t -> ~ mine w' id t.
Proof. intros (_ & _ & H) Hn Hm. destruct (H _ _ Hm); done. Qed.

(** ** Background requests *)

(** What a request for a batch under the token [t] leaves. *)
Definition fetch_outcome (t : string) (w : W) (o : option (result StoreError (option BatchClaim))) : Prop :=
  match o with
  | Some (Ok (Some c)) => issued c /\ bc_claim_token c = t /\ (forall id, mine w id t -> id = bc_batch_id c)
  | Some (Ok None) => forall id, ~ mine w id t
  | _ => True
  end.
Definition submit_outcome (s : Submission) (w : W) (o : option (result StoreError SubmitOutcome)) : Prop :=
  match o with Some r => settles r = true -> ~ mine w (sm_batch_id s) (sm_claim_token s) | None => True end.

(** A handle of the job [job] whose outcomes satisfy [Q]. *)
Definition handle_ok {A} (job : W -> W * result StoreError A) (Q : W -> option (result StoreError A) -> Prop)
    (w : W) (h : JoinHandle W A) : Prop :=
  match jh_done h with None => jh_job h = jh_job (spawn job) | Some o => Q w o end.

Lemma fetch_outcome_moves t w w' o : moves None w w' -> fetch_outcome t w o -> fetch_outcome t w' o.
Proof.
  intros Hw. destruct o as [[[c|]|]|]; [|intros H id; by eapply moves_mine|done..].
  intros (? & ? & H). split_and!; [done..|]. intros id Hm. apply H.
  destruct Hw as (_ & _ & Hm'). by destruct (Hm' _ _ Hm).
Qed.
Lemma submit_outcome_moves T s w w' o :
  moves T w w' -> T <> Some (sm_claim_token s) -> submit_outcome s w o -> submit_outcome s w' o.
Proof.
  intros (_ & _ & Hw) HT. destruct o as [r|]; [|done]. intros H Hs Hm.
  destruct (Hw _ _ Hm); [by apply H|done].
Qed.

Lemma prefetch_job_spec t w w' r :
  valid w -> used w t -> prefetch_job info t w = (w', r) -> moves (Some t) w w' /\ fetch_outcome t w' (Some r).
Proof.
  intros Hv Hu. unfold prefetch_job. destruct (ew_claim_batch run uuid t w) as [w1 r1] eqn:Ec.
  destruct (law_claim _ _ _ _ Hv Hu Ec) as [Hm Hr]. destruct r1 as [[c|]|e].
  - intros [= <- <-]. done.
  - destruct (ew_wait_for_work run w1) as [w2 r2] eqn:Ew.
    assert (moves None w1 w2) as Hq by (eapply law_wait; [apply Hm|exact Ew]).
    assert (moves (Some t) w w2) by (eapply moves_trans; [exact Hm|by apply moves_weaken]).
    destruct r2 as [[?|e]|]; intros [= <- <-]; (split; [done|]); try done;
      eapply (fetch_outcome_moves t w1 w2 (Some (Ok None))); done.
  - intros [= <- <-]. done.
Qed.
Lemma submit_job_spec s w w' r :
  valid w -> submit_job info s w = (w', r) -> moves None w w' /\ submit_outcome s w' (Some r).
Proof.
  intros Hv. unfold submit_job.
  destruct (ew_submit_batch_results _ _ _ _ _ w) as [w1 [r1|e]] eqn:Es; intros [= <- <-];
    destruct (law_submit _ _ _ _ _ _ _ Hv Es) as [? Hs]; split; [done| |done|done].
  intros _. by apply Hs.
Qed.

(** Whoever runs a request, its outcome is that of its job. *)
Lemma handle_outcome {A} (job : W -> W * result StoreError A) Q T w (h : JoinHandle W A) :
  valid w ->
  (forall w' r, job w = (w', r) -> moves T w w' /\ Q w' (Some r)) -> handle_ok job Q w h ->
  let '(w', o) := await_handle h w in moves T w w' /\ Q w' o.
Proof.
  intros Hv Hj. unfold handle_ok, await_handle. destruct (jh_done h) as [o|].
  - intros Ho. split; [|done]. apply moves_weaken. by apply moves_refl.
  - intros ->. simpl. destruct (job w) as [w' r] eqn:Ej. by apply Hj.
Qed.

(** ** The invariant *)

Definition claim_pair (c : BatchClaim) : i64 * string := (bc_batch_id c, bc_claim_token c).
Definition submission_pair (s : Submission) : i64 * string := (sm_batch_id s, sm_claim_token s).

(** The claims in the runner's hands. *)
Definition held (b : LatentPrefetchBuffer) (sb : ResultSubmitBuffer) (a : option ActiveBatch) : list (i64 * string) :=
  option_list (claim_pair <$> pf_ready_batch b) ++ option_list ((fun a => claim_pair (ab_claim a)) <$> a)
  ++ option_list (submission_pair <$> sb_submission sb).

(** A result that passed the checks of the batch it answers. *)
Definition checked (c : BatchClaim) (r : BatchResult) : Prop :=
  validate_for_batch r (nr_samples (bc_latent_batch c)) (bc_requires_training_values c) = Ok tt.
Definition submission_ok (s : Submission) : Prop :=
  exists c, issued c /\ sm_batch_id s = bc_batch_id c /\ sm_task_id s = bc_task_id c /\
    sm_claim_token s = bc_claim_token c /\ checked c (sm_result s).
Definition active_ok (w : W) (a : ActiveBatch) : Prop :=
  issued (ab_claim a) /\
  match ab_evaluation a with
  | Some (Ok e) => checked (ab_claim a) (ed_result e)
  | Some (Err f) => is_Some (fe_outcome f) -> ~ mine w (bc_batch_id (ab_claim a)) (bc_claim_token (ab_claim a))
  | None => True
  end.

Definition prefetch_ok (w : W) (b : LatentPrefetchBuffer) : Prop :=
  match pf_ready_batch b with Some c => issued c /\ pf_claim_token b = None /\ pf_pending b = None | None => True end /\
  match pf_pending b with
  | Some h => exists t, pf_claim_token b = Some t /\ handle_ok (prefetch_job info t) (fetch_outcome t) w h
  | None => True
  end.
Definition submit_buffer_ok (w : W) (sb : ResultSubmitBuffer) : Prop :=
  match sb_submission sb with Some s => submission_ok s | None => True end /\
  match sb_pending sb with
  | Some h => exists s, sb_submission sb = Some s /\ handle_ok (submit_job info s) (submit_outcome s) w h
  | None => True
  end.

(** [x] are the claims a method has taken out of the state. *)
Record inv (x : list (i64 * string)) (b : LatentPrefetchBuffer) (sb : ResultSubmitBuffer) (a : option ActiveBatch) (w : W) : Prop := mkInv {
  iv_valid : valid w;
  iv_cover : forall id t, mine w id t -> pf_claim_token b = Some t \/ (id, t) ∈ x ++ held b sb a;
  iv_used : forall id t, (id, t) ∈ x ++ held b sb a -> used w t /\ pf_claim_token b <> Some t;
  iv_token : forall t, pf_claim_token b = Some t -> used w t;
  iv_prefetch : prefetch_ok w b;
  iv_submit : submit_buffer_ok w sb;
  iv_active : match a with Some a => active_ok w a | None => True end
}.
Definition runner_inv (x : list (i64 * string)) (s : EvaluatorRunner * W) : Prop :=
  inv x (er_prefetch s.1) (er_submit s.1) (er_active s.1) s.2.

Lemma handle_ok_moves {A} (job : W -> W * result StoreError A) (Q : W -> option (result StoreError A) -> Prop) w w' h :
  (forall o, Q w o -> Q w' o) -> handle_ok job Q w h -> handle_ok job Q w' h.
Proof. intros HQ. unfold handle_ok. destruct (jh_done h); auto. Qed.

Lemma prefetch_ok_moves w w' b : moves None w w' -> prefetch_ok w b -> prefetch_ok w' b.
Proof.
  intros Hw [H1 H2]. split; [done|]. destruct (pf_pending b) as [h|]; [|done].
  destruct H2 as (t & Ht & Hh). exists t. split; [done|].
  eapply handle_ok_moves; [|exact Hh]. intros o. by apply fetch_outcome_moves.
Qed.

Lemma submit_buffer_moves T w w' sb :
  moves T w w' -> (forall s, sb_submission sb = Some s -> T <> Some (sm_claim_token s)) -> submit_buffer_ok w sb -> submit_buffer_ok w' sb.
Proof.
  intros Hw HT [H1 H2]. split; [done|]. destruct (sb_pending sb) as [h|]; [|done].
  destruct H2 as (s & Hs & Hh). exists s. split; [done|].
  eapply handle_ok_moves; [|exact Hh]. intros o. eapply submit_outcome_moves; [done|by apply HT].
Qed.

Lemma held_submission x b sb a s : sb_submission sb = Some s -> submission_pair s ∈ x ++ held b sb a.
Proof. intros Hs. unfold held. rewrite Hs. set_solver. Qed.

(** The store moves on, possibly claiming under the runner's own token. *)
Lemma inv_moves T x b b' sb a w w' :
  inv x b sb a w -> moves T w w' -> (T = None \/ T = pf_claim_token b) ->
  pf_claim_token b' = pf_claim_token b -> pf_ready_batch b' = pf_ready_batch b -> prefetch_ok w' b' -> inv x b' sb a w'.
Proof.
  intros [Hv Hc Hu Ht Hp Hs Ha] Hw HT Etok Eready Hp'. pose proof Hw as (Hv' & Hus & Hmi).
  assert (held b' sb a = held b sb a) as Eheld by (unfold held; by rewrite Eready).
  split; [done| | | |done| |].
  - rewrite Etok, Eheld. intros id t Hm. destruct (Hmi _ _ Hm) as [?|Heq]; [by apply Hc|].
    destruct HT; [congruence|]. left. congruence.
  - rewrite Etok, Eheld. intros id t Hin. destruct (Hu _ _ Hin). auto.
  - rewrite Etok. intros t Hpt. auto.
  - eapply submit_buffer_moves; [exact Hw| |done]. intros s Es.
    destruct (Hu (sm_batch_id s) (sm_claim_token s)) as [_ Hne]; [by apply held_submission|].
    destruct HT as [->| ->]; [done|congruence].
  - destruct a as [a|]; [|done]. destruct Ha as [Hi He]. split; [done|].
    destruct (ab_evaluation a) as [[e|f]|]; [done| |done]. intros Hf Hm.
    destruct (Hmi _ _ Hm) as [?|Heq]; [by apply He|].
    destruct (Hu (bc_batch_id (ab_claim a)) (bc_claim_token (ab_claim a))) as [_ Hne]; [unfold held; set_solver|].
    destruct HT as [->| ->]; [done|congruence].
Qed.
Lemma inv_quiet x b sb a w w' : inv x b sb a w -> moves None w w' -> inv x b sb a w'.
Proof.
  intros HI Hw. eapply inv_moves; [done|exact Hw|by left|done|done|]. eapply prefetch_ok_moves; [done|apply HI].
Qed.

(** ** Prefetching *)

Definition pinv (x : list (i64 * string)) sb a (s : LatentPrefetchBuffer * W) : Prop := inv x s.1 sb a s.2.

Lemma finish_prefetch_inv x sb a : stable (pinv x sb a) finish_prefetch.
Proof.
  intros [b w] HI. unfold pinv in *. cbn [fst snd] in HI. unfold finish_prefetch.
  destruct (pf_pending b) as [h|] eqn:Eh; [|done].
  pose proof (iv_prefetch _ _ _ _ _ HI) as [Hr Hp]. rewrite Eh in Hp. destruct Hp as (t & Ht & Hh).
  assert (pf_ready_batch b = None) as Er.
  { destruct (pf_ready_batch b); [|done]. destruct Hr as (_ & ? & ?). congruence. }
  pose proof (handle_outcome _ _ (Some t) w h (iv_valid _ _ _ _ _ HI)
    (fun w' r => prefetch_job_spec t w w' r (iv_valid _ _ _ _ _ HI) (iv_token _ _ _ _ _ HI t Ht)) Hh) as Ho.
  destruct (await_handle h w) as [w' o]. destruct Ho as [Hw Ho].
  assert (inv x (mkPrefetch (pf_ready_batch b) (pf_claim_token b) None) sb a w') as Hkeep.
  { eapply (inv_moves (Some t) x b _ sb a w w'); [done..|by right|done|done|]. split; cbn; [by rewrite Er|done]. }
  destruct o as [[[c|]|e]|]; try done.
  - destruct Ho as (Hi & Htk & Hid). destruct Hkeep as [Hv Hc Hu Hk Hpp Hs Ha]. split; try done; cbn.
    + intros id t' Hm. right. destruct (Hc id t' Hm) as [Heq|Hin]; cbn in *.
      * rewrite Ht in Heq. injection Heq as <-. unfold held; cbn. rewrite (Hid _ Hm), <- Htk. set_solver.
      * unfold held in *; cbn in *. rewrite Er in Hin. set_solver.
    + intros id t' Hin. split; [|done]. unfold held in *; cbn in *. apply elem_of_app in Hin as [Hin|Hin].
      { eapply Hu. apply elem_of_app. by left. }
      apply elem_of_cons in Hin as [Heq|Hin].
      * injection Heq as -> ->. rewrite Htk. by apply Hk.
      * eapply Hu. rewrite Er. cbn. apply elem_of_app. right. exact Hin.
  - destruct Hkeep as [Hv Hc Hu Hk Hpp Hs Ha]. rewrite Er in *. split; try done; cbn in *.
    + intros id t' Hm. right. destruct (Hc id t' Hm) as [Heq|Hin]; [|done].
      rewrite Ht in Heq. injection Heq as <-. by destruct (Ho id).
    + intros id t' Hin. split; [|done]. by eapply Hu.
Qed.

Lemma maybe_start_prefetch_inv x sb a draining s :
  pinv x sb a s -> pinv x sb a (maybe_start_prefetch info draining s).1 /\ (maybe_start_prefetch info draining s).2 = Ok tt.
Proof.
  destruct s as [b w]. intros HI. unfold maybe_start_prefetch.
  case_bool_decide as Hr; [done|]. case_bool_decide as Hp; [done|].
  destruct (draining && _); [done|]. cbn [orb].
  apply eq_None_not_Some in Hr. apply eq_None_not_Some in Hp.
  assert (exists w' t, match pf_claim_token b with Some token => (w, token) | None => ew_new_token w end = (w', t) /\
    moves None w w' /\ used w' t /\ (pf_claim_token b = None -> ~ used w t) /\
    (forall t', pf_claim_token b = Some t' -> t' = t)) as (w' & t & -> & Hw & Hut & Hfresh & Htok).
  { destruct (pf_claim_token b) as [t|] eqn:Et.
    - exists w, t. split_and!; [done|by apply moves_refl, HI| |done|congruence]. by eapply iv_token.
    - destruct (ew_new_token w) as [w' t] eqn:En. exists w', t.
      destruct (law_new_token _ _ _ (iv_valid _ _ _ _ _ HI) En) as (? & ? & ?). done. }
  split; [|done]. unfold pinv in *; cbn [fst snd] in *.
  pose proof (inv_quiet _ _ _ _ _ _ HI Hw) as HI'.
  split; cbn; [apply HI'| | | | |apply HI'|apply HI'].
  - intros id t' Hm. destruct (iv_cover _ _ _ _ _ HI' _ _ Hm) as [Ht|Hin]; [|by right].
    left. f_equal. symmetry. by apply Htok.
  - intros id t' Hin. split; [by eapply (iv_used _ _ _ _ _ HI')|]. intros [= ->].
    destruct (iv_used _ _ _ _ _ HI id t' Hin) as [Hu Hne]. destruct (pf_claim_token b) as [t0|].
    + apply Hne. f_equal. by apply Htok.
    + by apply Hfresh.
  - intros t' [= <-]. done.
  - split; cbn; [by rewrite Hr|]. exists t. split; [done|]. done.
Qed.

Lemma maybe_start_stable x sb a draining : stable (pinv x sb a) (maybe_start_prefetch info draining).
Proof.
  intros s HI. destruct (maybe_start_prefetch_inv x sb a draining s HI) as [H1 H2].
  destruct (maybe_start_prefetch info draining s) as [s' r]. simpl in *. by subst r.
Qed.
Hint Resolve finish_prefetch_inv maybe_start_stable : stable.

Definition popped (x : list (i64 * string)) sb a (p : PopOutcome) (s : LatentPrefetchBuffer * W) : Prop :=
  pinv (option_list (claim_pair <$> po_claimed p) ++ x) sb a s /\
  match po_claimed p with Some c => issued c | None => True end.

(** The ready batch leaves the buffer. *)
Lemma take_ready_inv x b sb a w :
  inv x b sb a w ->
  inv (option_list (claim_pair <$> pf_ready_batch b) ++ x) (mkPrefetch None (pf_claim_token b) (pf_pending b)) sb a w.
Proof.
  intros [Hv Hc Hu Hk [Hr Hp] Hs Ha]. split; try done; cbn.
  - intros id t Hm. destruct (Hc _ _ Hm) as [?|Hin]; [by left|]. right. unfold held in *. set_solver.
  - intros id t Hin. apply (Hu id). unfold held in *. set_solver.
Qed.

Lemma pop_inv x sb a draining : triple (pinv x sb a) (pop info draining) (popped x sb a) (pinv x sb a).
Proof.
  unfold pop. apply stable_seq; [apply stable_get|intros finished].
  apply stable_seq; [apply stable_when, finish_prefetch_inv|intros _].
  apply stable_seq; [apply stable_get|intros hit].
  apply stable_seq; [apply stable_get|intros started].
  apply stable_seq; [change (stable (pinv x sb a) (se_when (negb hit)
    (maybe_start_prefetch info draining ;!
     let! pending := se_get (fun s => bool_decide (is_Some (pf_pending s.1))) in se_when pending finish_prefetch))); stable_auto|intros _].
  intros [b w] HI. unfold se_bind, se_get, se_modify. cbn [fst snd].
  pose proof (take_ready_inv _ _ _ _ _ HI) as Ht.
  pose proof (iv_prefetch _ _ _ _ _ HI) as [Hr _].
  destruct (maybe_start_prefetch_inv _ _ _ draining (mkPrefetch None (pf_claim_token b) (pf_pending b), w) Ht) as [H1 H2].
  cbn -[maybe_start_prefetch elapsed_ms] in *. destruct (pf_ready_batch b) as [c|]; cbn -[maybe_start_prefetch elapsed_ms] in *.
  - destruct (maybe_start_prefetch info draining _) as [s' r]. simpl in H1, H2. subst r. split; [exact H1|apply Hr].
  - split; [exact Ht|done].
Qed.

(** ** Submitting *)

Definition sinv (x : list (i64 * string)) b a (s : ResultSubmitBuffer * W) : Prop := inv x b s.1 a s.2.

Lemma ensure_submit_inv x b a sb w : inv x b sb a w -> inv x b (ensure_submit info sb) a w.
Proof.
  intros HI. unfold ensure_submit. case_bool_decide; [done|].
  destruct (sb_submission sb) as [s|] eqn:Es; [|done].
  destruct HI as [Hv Hc Hu Hk Hp [Hs _] Ha]. rewrite Es in Hs.
  split; try done; unfold held in *; cbn; try rewrite Es in Hc; try rewrite Es in Hu; try done.
  split; cbn; [done|]. exists s. done.
Qed.

(** An acknowledged submission leaves the buffer. *)
Lemma drop_submission_inv x b a sb w s :
  inv x b sb a w -> sb_submission sb = Some s -> ~ mine w (sm_batch_id s) (sm_claim_token s) ->
  inv x b (mkSubmitBuffer None None) a w.
Proof.
  intros [Hv Hc Hu Hk Hp Hs Ha] Es Hn. split; try done; unfold held in *; cbn in *; rewrite Es in *; cbn in *.
  - intros id t Hm. destruct (Hc _ _ Hm) as [?|Hin]; [by left|]. right.
    assert ((id, t) <> submission_pair s) by (intros [= -> ->]; done). set_solver.
  - intros id t Hin. apply (Hu id). set_solver.
Qed.

Lemma wait_for_slot_inv x b a :
  triple (sinv x b a) (wait_for_slot info) (fun _ s => sinv x b a s /\ sb_submission s.1 = None) (sinv x b a).
Proof.
  intros [sb w] HI. unfold wait_for_slot. pose proof (ensure_submit_inv _ _ _ _ _ HI) as HE.
  assert (sb_pending (ensure_submit info sb) = None -> sb_submission (ensure_submit info sb) = None) as Hnone.
  { unfold ensure_submit. case_bool_decide as Hp; [intros Hn; by rewrite Hn in Hp; destruct Hp|].
    by destruct (sb_submission sb) eqn:?. }
  unfold sinv in *; cbn [fst snd] in *. clear HI. revert HE Hnone. generalize (ensure_submit info sb) as sb'. intros sb' HE Hnone.
  destruct (sb_pending sb') as [h|] eqn:Eh; [|by auto].
  pose proof (iv_submit _ _ _ _ _ HE) as [_ Hp]. rewrite Eh in Hp. destruct Hp as (s & Es & Hh).
  pose proof (handle_outcome _ _ None w h (iv_valid _ _ _ _ _ HE)
    (fun w' r => submit_job_spec s w w' r (iv_valid _ _ _ _ _ HE)) Hh) as Ho.
  destruct (await_handle h w) as [w' o]. destruct Ho as [Hw Ho].
  pose proof (inv_quiet _ _ _ _ _ _ HE Hw) as HE'.
  assert (inv x b (mkSubmitBuffer (sb_submission sb') None) a w') as Hretry.
  { destruct HE' as [Hv Hc Hu Hk Hpp [Hs _] Ha]. split; try done. }
  destruct o as [[o|e]|]; cbn in Ho.
  - split; [|done]. eapply drop_submission_inv; [exact HE'|exact Es|by apply Ho].
  - destruct (is_batch_ownership_lost e); [|done]. split; [|done].
    eapply drop_submission_inv; [exact HE'|exact Es|by apply Ho].
  - done.
Qed.

Lemma drain_finished_inv x b a : stable (sinv x b a) (drain_finished info).
Proof.
  intros [sb w] HI. unfold drain_finished. pose proof (ensure_submit_inv _ _ _ _ _ HI) as HE.
  destruct (match sb_pending _ with Some h => _ | None => _ end); [|exact HE].
  pose proof (wait_for_slot_inv x b a (ensure_submit info sb, w) HE) as Hw.
  destruct (wait_for_slot info _) as [s' [o|e]]; [apply Hw|exact Hw].
Qed.

Lemma start_submit_inv x b a s :
  submission_ok s ->
  triple (fun q => sinv (submission_pair s :: x) b a q /\ sb_submission q.1 = None) (start_submit info s)
    (fun _ => sinv x b a) (fun _ => False).
Proof.
  intros Hs [sb w] [HI Hn]. unfold start_submit, is_idle. cbn [fst snd] in *.
  rewrite Hn, bool_decide_false by (by intros [??]). cbn [negb].
  apply ensure_submit_inv. destruct HI as [Hv Hc Hu Hk Hp [_ Hq] Ha].
  split; try done; unfold held in *; cbn in *; rewrite Hn in *; cbn in *.
  - intros id t Hm. destruct (Hc _ _ Hm) as [?|Hin]; [by left|]. right. set_solver.
  - intros id t Hin. apply (Hu id). set_solver.
  - split; cbn; [done|]. destruct (sb_pending sb); [|done]. by destruct Hq as (? & ? & _).
Qed.

(** ** Methods of the runner *)

Notation M := (SE (EvaluatorRunner * W) EvaluatorRunnerError).

Lemma on_prefetch_triple {A} (m : SE (LatentPrefetchBuffer * W) EvaluatorRunnerError A) x a Q :
  (forall sb, triple (pinv x sb a) m (Q sb) (pinv x sb a)) ->
  triple (fun s : EvaluatorRunner * W => runner_inv x s /\ er_active s.1 = a) (on_prefetch m)
    (fun v s => Q (er_submit s.1) v (er_prefetch s.1, s.2) /\ er_active s.1 = a) (runner_inv x).
Proof.
  intros Hm [r w] [HI Ha]. unfold on_prefetch. cbn [fst snd] in *. subst a. specialize (Hm (er_submit r) (er_prefetch r, w) HI).
  destruct (m (er_prefetch r, w)) as [[b w'] [v|e]]; destruct r; cbn in *; [by split|exact Hm].
Qed.

Lemma on_submit_triple {A} (m : SE (ResultSubmitBuffer * W) EvaluatorRunnerError A) x a P Q R :
  (forall b, triple (fun q => sinv x b a q /\ P q.1) m (fun v q => sinv x b a q /\ Q v q.1) (fun q => sinv x b a q /\ R)) ->
  triple (fun s : EvaluatorRunner * W => runner_inv x s /\ er_active s.1 = a /\ P (er_submit s.1)) (on_submit m)
    (fun v s => runner_inv x s /\ er_active s.1 = a /\ Q v (er_submit s.1)) (fun s => runner_inv x s /\ R).
Proof.
  intros Hm [r w] (HI & Ha & HP). unfold on_submit. cbn [fst snd] in *. subst a.
  specialize (Hm (er_prefetch r) (er_submit r, w) (conj HI HP)).
  destruct (m (er_submit r, w)) as [[b w'] [v|e]]; destruct r; cbn in *; [by destruct Hm|exact Hm].
Qed.

(** A condition on the batches in the runner's hands and on the store. *)
Definition same_hands (r r' : EvaluatorRunner) : Prop :=
  er_prefetch r' = er_prefetch r /\ er_submit r' = er_submit r /\ er_active r' = er_active r.
Record on_hands (I : EvaluatorRunner * W -> Prop) : Prop := mkOnHands {
  oh_valid r w : I (r, w) -> valid w;
  oh_world r w w' : I (r, w) -> moves None w w' -> I (r, w');
  oh_engine r r' w : I (r, w) -> same_hands r r' -> I (r', w)
}.

Lemma on_hands_inv x a P :
  on_hands (fun s => runner_inv x s /\ er_active s.1 = a /\ P (er_submit s.1)).
Proof.
  split; unfold runner_inv; cbn [fst snd].
  - by intros r w [HI _]; apply HI.
  - intros r w w' (HI & ? & ?) Hw. split_and!; [by eapply inv_quiet|done..].
  - intros r r' w (HI & ? & ?) (Hp & Hs & Ha). rewrite Hp, Hs, Ha. done.
Qed.

Section engine.
Variable I : EvaluatorRunner * W -> Prop.
Hypothesis HI : on_hands I.

Lemma estore_stable {A} (f : W -> W * result StoreError A) : quiet f -> stable I (estore f).
Proof.
  intros Hf [r w] Hs. unfold estore. cbn [fst snd]. destruct (f w) as [w' [v|e]] eqn:Ef;
    cbn; (eapply oh_world; [done|exact Hs|]); eapply Hf; try exact Ef; by eapply oh_valid.
Qed.
Lemma emodify_stable (f : EvaluatorRunner -> EvaluatorRunner) :
  (forall r, same_hands r (f r)) -> stable I (emodify f).
Proof. intros Hf [r w] Hs. cbn. by eapply oh_engine. Qed.
Lemma enow_stable : stable I (enow (E:=E) (Rng:=Rng) (Ev:=Ev) (Mat:=Mat) (Tr:=Tr)).
Proof. by intros s Hs. Qed.
Lemma eget_stable {A} (f : EvaluatorRunner -> A) : stable I (eget f).
Proof. by intros s Hs. Qed.
Lemma ecount_stable f : stable I (ecount f).
Proof. apply emodify_stable. by intros []. Qed.

Hint Resolve enow_stable eget_stable ecount_stable : stable.
Hint Extern 3 (stable I (estore _)) => apply estore_stable : stable.
Hint Extern 3 (stable I (emodify _)) => apply emodify_stable; by intros [] : stable.
Hint Resolve law_release law_fail_task law_clear law_load_task law_tables law_progress law_record : stable.

Lemma flush_stable force : stable I (flush_performance_snapshot_if_due info force).
Proof. unfold flush_performance_snapshot_if_due. stable_auto. Qed.
Hint Resolve flush_stable : stable.

Lemma consume_stable o : stable I (consume_submitted_result info o).
Proof. unfold consume_submitted_result. stable_auto. Qed.

Lemma ensure_task_context_stable task : stable I (ensure_task_context info task).
Proof. unfold ensure_task_context, load_task_context. stable_auto. Qed.

Lemma reconcile_claims_stable : stable I (reconcile_claims info).
Proof. unfold reconcile_claims. stable_auto. Qed.

Lemma materialize_stable claim : stable I (materialize claim).
Proof. unfold materialize. stable_auto. Qed.
Hint Resolve materialize_stable : stable.

Lemma evaluate_batch_stable claim started : stable I (evaluate_batch info claim started).
Proof. unfold evaluate_batch. stable_auto. Qed.
End engine.

(** *** The evaluation of a claim *)

Lemma evaluate_batch_checked claim started (s s' : EvaluatorRunner * W) e :
  evaluate_batch info claim started s = (s', Ok e) -> checked claim (ed_result e).
Proof.
  unfold evaluate_batch, se_bind, se_lift, eget, enow, emodify, se_get, se_modify, se_ret.
  destruct (materialize claim s) as [s1 [batch|]]; [|done].
  destruct (integrand_points claim batch) as [x|]; [|done]. cbn [fst snd].
  destruct (apply_transforms _ _) as [ts [batch'|]]; [|done].
  destruct (check_batch info claim batch') as [u|] eqn:Ec; [|done]. cbn [fst snd].
  destruct (eval_batch _ _ _ _) as [ev o].
  destruct (call_with_panic_guard _ o) as [r|]; [|done]. cbn [fst snd].
  destruct (validate_for_batch r _ _) as [[]|] eqn:Ev'; [|done]. cbn. intros [= _ <-]. cbn.
  unfold checked. unfold check_batch in Ec. destruct (negb _) eqn:En; [done|]. zbool. by rewrite <- En.
Qed.

Lemma evaluate_claim_triple I claim :
  on_hands I ->
  triple I (evaluate_claim info claim)
    (fun o s => I s /\ match o with Ok e => checked claim (ed_result e) | Err f => fe_outcome f = None end) (fun _ => False).
Proof.
  intros HI s Hs. unfold evaluate_claim.
  pose proof (evaluate_batch_stable I HI claim (ew_now s.2) s Hs) as Hst.
  destruct (evaluate_batch info claim (ew_now s.2) s) as [s' [e|e]] eqn:Eb; [|done].
  split; [exact Hst|]. by eapply evaluate_batch_checked.
Qed.

(** *** The phases of a tick *)

Definition always {A} (_ : A) : Prop := True.

Lemma on_hands_active x a : on_hands (fun s => runner_inv x s /\ er_active s.1 = a).
Proof.
  pose proof (on_hands_inv x a always) as [Hv Hw He]. split.
  - intros r w [H1 H2]. by apply (Hv r w).
  - intros r w w' [H1 H2] Hm. destruct (Hw r w w') as (? & ? & _); done.
  - intros r r' w [H1 H2] Hm. destruct (He r r' w) as (? & ? & _); done.
Qed.
Lemma on_hands_runner x : on_hands (runner_inv x).
Proof.
  split.
  - intros r w H. by apply H.
  - intros r w w' H Hm. by destruct (oh_world _ (on_hands_active x (er_active r)) r w w').
  - intros r r' w H Hm. by destruct (oh_engine _ (on_hands_active x (er_active r)) r r' w).
Qed.

Lemma drain_finished_runner x : stable (runner_inv x) (on_submit (drain_finished info)).
Proof.
  intros [r w] HI. pose proof (on_submit_triple (drain_finished info) x (er_active r) always (fun _ => always) True) as Ht.
  specialize (Ht (fun b => triple_weaken _ _ _ _ _ _ _ (drain_finished_inv x b (er_active r))
    (fun s H => proj1 H) (fun _ s H => conj H Logic.I) (fun s H => conj H Logic.I)) (r, w) (conj HI (conj eq_refl Logic.I))).
  destruct (on_submit _ _) as [s' [o|e]]; apply Ht.
Qed.

Lemma consume_finished_submit_stable x : stable (runner_inv x) (consume_finished_submit info).
Proof.
  unfold consume_finished_submit. apply stable_bind; [apply drain_finished_runner|].
  intros o. apply consume_stable, on_hands_runner.
Qed.

(** The active batch is put back, or set. *)
Lemma set_active_inv x (r : EvaluatorRunner) w a :
  runner_inv (claim_pair (ab_claim a) :: x) (r, w) -> er_active r = None -> active_ok w a ->
  runner_inv x (set_er_active (Some a) r, w).
Proof.
  intros HI Ha Hok. destruct r; cbn in *. unfold runner_inv in *; cbn in *. subst er_active.
  destruct HI as [Hv Hc Hu Hk Hp Hs _]. split; try done; unfold held in *; cbn in *.
  - intros id t Hm. destruct (Hc _ _ Hm) as [?|Hin]; [by left|]. right. set_solver.
  - intros id t Hin. apply (Hu id). set_solver.
Qed.
Lemma clear_active_inv x (r : EvaluatorRunner) w a :
  runner_inv x (r, w) -> er_active r = Some a -> runner_inv (claim_pair (ab_claim a) :: x) (set_er_active None r, w).
Proof.
  intros HI Ha. destruct r; cbn in *. unfold runner_inv in *; cbn in *. subst er_active.
  destruct HI as [Hv Hc Hu Hk Hp Hs _]. split; try done; unfold held in *; cbn in *.
  - intros id t Hm. destruct (Hc _ _ Hm) as [?|Hin]; [by left|]. right. set_solver.
  - intros id t Hin. apply (Hu id). set_solver.
Qed.

Lemma activate_claim_triple started p :
  triple (fun s : EvaluatorRunner * W => popped [] (er_submit s.1) None p (er_prefetch s.1, s.2) /\ er_active s.1 = None)
    (activate_claim info started p)
    (fun fetched s => runner_inv [] s /\ fetched = bool_decide (is_Some (er_active s.1))) (runner_inv []).
Proof.
  unfold activate_claim, popped. destruct (po_claimed p) as [c|].
  - intros [r w] [[HI Hi] Ha]. cbn in HI, Hi, Ha. cbn.
    split; [|by destruct r].
    apply set_active_inv; [|by destruct r|done].
    destruct r; cbn in *. subst er_active. exact HI.
  - pose proof (on_hands_active [] None) as Hoh.
    apply (triple_weaken _ (fun s => runner_inv [] s /\ er_active s.1 = None) _ _
      (fun fetched s => (runner_inv [] s /\ er_active s.1 = None) /\ fetched = false) _ (fun s => runner_inv [] s /\ er_active s.1 = None)).
    + apply stable_seq; [by apply ecount_stable|intros _].
      apply stable_seq; [by apply flush_stable|intros _]. by intros s Hs.
    + intros [r w] [[HI _] Ha]. unfold runner_inv; cbn in *. by rewrite Ha.
    + intros b s [[? ->] ->]. by split.
    + by intros s [].
Qed.

(** From an invariant with a side condition, failing into the invariant. *)
Lemma seq_active {A B} (m : M A) (k : A -> M B) x a Q :
  stable (fun s => runner_inv x s /\ er_active s.1 = a) m ->
  (forall v, triple (fun s => runner_inv x s /\ er_active s.1 = a) (k v) Q (runner_inv x)) ->
  triple (fun s => runner_inv x s /\ er_active s.1 = a) (se_bind m k) Q (runner_inv x).
Proof.
  intros Hm Hk. eapply triple_bind; [|exact Hk]. eapply triple_weaken; [exact Hm|done|done|by intros s []].
Qed.

Lemma fetch_claim_triple :
  triple (fun s : EvaluatorRunner * W => runner_inv [] s /\ er_active s.1 = None) (fetch_claim info)
    (fun fetched s => runner_inv [] s /\ fetched = bool_decide (is_Some (er_active s.1))) (runner_inv []).
Proof.
  unfold fetch_claim. pose proof (on_hands_active [] None) as Hoh.
  apply seq_active; [by apply ecount_stable|intros _].
  apply seq_active; [by apply enow_stable|intros started].
  apply seq_active; [by apply eget_stable|intros draining].
  eapply triple_bind; [|intros p; apply activate_claim_triple].
  apply (on_prefetch_triple _ [] None (fun sb => popped [] sb None)). intros sb. apply pop_inv.
Qed.

Lemma evaluate_active_triple x a :
  triple (fun s => runner_inv x s /\ er_active s.1 = Some a) (evaluate_active info)
    (fun _ s => runner_inv x s /\ exists o, er_active s.1 = Some (set_evaluation (Some o) a)) (runner_inv x).
Proof.
  intros [r w] [HI Ha]. unfold evaluate_active, eget, se_bind at 1, se_get. cbn [fst snd] in *. rewrite Ha.
  destruct (ab_evaluation a) as [o|] eqn:Eo.
  { cbn. split; [done|]. exists o. rewrite Ha. f_equal. destruct a; cbn in *. by subst. }
  assert (issued (ab_claim a)) as Hissued.
  { pose proof (iv_active _ _ _ _ _ HI) as Hact. cbn [fst] in Hact. rewrite Ha in Hact. apply Hact. }
  pose proof (ensure_task_context_stable _ (on_hands_active x (Some a)) (bc_task_id (ab_claim a)) (r, w) (conj HI Ha)) as He.
  unfold se_bind at 1. destruct (ensure_task_context _ _ _) as [[r1 w1] [u|e]]; [|apply He].
  destruct He as [HI1 Ha1]. cbn [fst] in Ha1. unfold se_bind, emodify, se_modify. cbn [fst snd].
  pose proof (clear_active_inv _ _ _ _ HI1 Ha1) as HI2.
  assert (er_active (set_er_active (Ev:=Ev) (Mat:=Mat) (Tr:=Tr) None r1) = None) as Ha2 by by destruct r1.
  pose proof (evaluate_claim_triple _ (ab_claim a) (on_hands_active _ None)
    (set_er_active None r1, w1) (conj HI2 Ha2)) as Hev.
  destruct (evaluate_claim info (ab_claim a) _) as [[r3 w3] [o|e]]; [|done].
  destruct Hev as [[HI3 Ha3] Ho]. cbn [fst snd] in *. split; [|exists o; by destruct r3].
  apply set_active_inv; [exact HI3|done|].
  split; [exact Hissued|cbn; destruct o as [e|f]; [done|rewrite Ho; by intros []]].
Qed.

(** The failure of a batch is recorded; then the batch is let go. *)
Lemma release_active_inv x (r : EvaluatorRunner) w a :
  runner_inv x (r, w) -> er_active r = Some a ->
  ~ mine w (bc_batch_id (ab_claim a)) (bc_claim_token (ab_claim a)) -> runner_inv x (set_er_active None r, w).
Proof.
  intros HI Ha Hn. destruct r; cbn in *. unfold runner_inv in *; cbn in *. subst er_active.
  destruct HI as [Hv Hc Hu Hk Hp Hs _]. split; try done; unfold held in *; cbn in *.
  - intros id t Hm. destruct (Hc _ _ Hm) as [?|Hin]; [by left|]. right.
    assert ((id, t) <> claim_pair (ab_claim a)) by (intros [= -> ->]; done). set_solver.
  - intros id t Hin. apply (Hu id). set_solver.
Qed.

(** A failure that has been recorded. *)
Definition recorded (a : ActiveBatch) : Prop :=
  exists f, ab_evaluation a = Some (Err f) /\ is_Some (fe_outcome f).

Lemma recorded_not_mine x (s : EvaluatorRunner * W) a :
  runner_inv x s -> er_active s.1 = Some a -> recorded a -> ~ mine s.2 (bc_batch_id (ab_claim a)) (bc_claim_token (ab_claim a)).
Proof.
  intros HI Ha (f & Hf & Ho). pose proof (iv_active _ _ _ _ _ HI) as Hact. rewrite Ha in Hact.
  destruct Hact as [_ Hact]. rewrite Hf in Hact. by apply Hact.
Qed.

Lemma replace_active_inv x (r : EvaluatorRunner) w a a' :
  runner_inv x (r, w) -> er_active r = Some a -> ab_claim a' = ab_claim a -> active_ok w a' ->
  runner_inv x (set_er_active (Some a') r, w).
Proof.
  intros HI Ha Hc Hok.
  replace (set_er_active (Some a') r) with (set_er_active (Some a') (set_er_active None r)) by by destruct r.
  apply set_active_inv; [|by destruct r|done]. rewrite Hc. by apply clear_active_inv.
Qed.

Lemma notify_failure_triple x a f :
  ab_evaluation a = Some (Err f) ->
  triple (fun s => runner_inv x s /\ er_active s.1 = Some a) (notify_failure info a f)
    (fun o s => runner_inv x s /\ match o with
       | Some _ => exists a', er_active s.1 = Some a' /\ recorded a'
       | None => er_active s.1 = None end) (runner_inv x).
Proof.
  intros Hf [r w] [HI Ha]. cbn [fst] in Ha. unfold notify_failure. destruct (fe_outcome f) as [o|] eqn:Eo.
  { split; [done|]. exists a. split; [done|]. exists f. by rewrite Eo. }
  cbn [fst snd]. destruct (ew_fail_batch _ _ _ _ _ w) as [w' [o|e]] eqn:Ef;
    destruct (law_fail _ _ _ _ _ _ _ (iv_valid _ _ _ _ _ HI) Ef) as [Hw Hs];
    pose proof (oh_world _ (on_hands_runner x) _ _ _ HI Hw) as HI'.
  - split; [|exists (set_evaluation (Some (Err (with_outcome o f))) a); split; [by destruct r|by eexists]].
    eapply replace_active_inv; [exact HI'|exact Ha|done|]. split; [|by intros _; apply Hs].
    pose proof (iv_active _ _ _ _ _ HI) as Hact. cbn [fst] in Hact. rewrite Ha in Hact. apply Hact.
  - cbn in Hs. destruct (is_batch_ownership_lost e); [|exact HI']. split; [|by destruct r].
    eapply release_active_inv; [exact HI'|done|by apply Hs].
Qed.

Lemma persist_batch_failure_triple x a f :
  ab_evaluation a = Some (Err f) ->
  triple (fun s => runner_inv x s /\ er_active s.1 = Some a) (persist_batch_failure info)
    (fun _ s => runner_inv x s /\ er_active s.1 = None) (runner_inv x).
Proof.
  intros Hf [r w] [HI Ha]. unfold persist_batch_failure, eget, se_bind at 1, se_get. cbn [fst] in *. rewrite Ha, Hf.
  revert HI Ha. enough (triple (fun s => runner_inv x s /\ er_active s.1 = Some a)
    (let! notified := notify_failure info a f in
     match notified with
     | None => se_ret tt
     | Some outcome =>
         match outcome with
         | PermanentlyFailed task n =>
             estore (ew_fail_run_task task (failure_reason info (bc_batch_id (ab_claim a)) n (fe_message f))) ;!
             let! _ := estore (ew_clear_desired_assignments_for_run run) in se_ret tt
         | Requeued _ _ => se_ret tt
         end ;!
         emodify (set_er_active None) ;!
         flush_performance_snapshot_if_due info false
     end) (fun _ s => runner_inv x s /\ er_active s.1 = None) (runner_inv x)) as Ht by (intros HI Ha; exact (Ht (r, w) (conj HI Ha))).
  eapply triple_bind; [by apply notify_failure_triple|]. intros [outcome|]; [|by intros s Hs].
  intros [r1 w1] (HI & a' & Ha & Hrec). revert HI Ha. cbn [fst].
  enough (triple (fun s : EvaluatorRunner * W => runner_inv x s /\ er_active s.1 = Some a')
    (match outcome with
     | PermanentlyFailed task n =>
         estore (ew_fail_run_task task (failure_reason info (bc_batch_id (ab_claim a)) n (fe_message f))) ;!
         let! _ := estore (ew_clear_desired_assignments_for_run run) in se_ret tt
     | Requeued _ _ => se_ret tt
     end ;!
     emodify (set_er_active None) ;!
     flush_performance_snapshot_if_due info false) (fun _ s => runner_inv x s /\ er_active s.1 = None) (runner_inv x)) as Ht
    by (intros HI Ha; exact (Ht (r1, w1) (conj HI Ha))).
  pose proof (on_hands_active x (Some a')) as Hoh. apply seq_active; [|intros _].
  { destruct outcome; [apply stable_ret|]. apply stable_bind; [apply estore_stable, law_fail_task; done|intros _].
    apply stable_bind; [apply estore_stable, law_clear; done|intros _]. apply stable_ret. }
  apply (triple_bind _ _ _ (fun _ s => runner_inv x s /\ er_active s.1 = None)); [|intros _].
  - intros [r2 w2] [HI Ha]. cbn in Ha |- *. split; [|by destruct r2]. eapply release_active_inv; [exact HI|exact Ha|].
    by apply (recorded_not_mine x (r2, w2)).
  - eapply triple_weaken; [apply flush_stable, (on_hands_active x None)|done|done|by intros s []].
Qed.

Definition slot_free (x : list (i64 * string)) (a : option ActiveBatch) (s : EvaluatorRunner * W) : Prop :=
  runner_inv x s /\ er_active s.1 = a /\ sb_submission (er_submit s.1) = None.

Lemma wait_for_slot_runner x a :
  triple (fun s => runner_inv x s /\ er_active s.1 = a) (on_submit (wait_for_slot info))
    (fun _ => slot_free x a) (runner_inv x).
Proof.
  eapply triple_weaken; [apply (on_submit_triple (wait_for_slot info) x a always (fun _ sb => sb_submission sb = None) True)| | |].
  - intros b. eapply triple_weaken; [apply wait_for_slot_inv|by intros q []|by intros o q|done].
  - by intros s [].
  - done.
  - by intros s [].
Qed.

Lemma slot_wait_triple x a :
  triple (fun s => runner_inv x s /\ er_active s.1 = a)
    (let! started := enow in
     let! outcome := on_submit (wait_for_slot info) in
     let! now := enow in
     consume_submitted_result info outcome ;!
     se_ret (elapsed_ms now started)) (fun _ => slot_free x a) (runner_inv x).
Proof.
  apply seq_active; [by apply enow_stable|intros started].
  assert (on_hands (slot_free x a)) as Hoh by exact (on_hands_inv x a (fun sb => sb_submission sb = None)).
  apply (triple_bind _ _ _ (fun _ => slot_free x a)); [apply wait_for_slot_runner|intros outcome].
  eapply (triple_weaken _ (slot_free x a) _ _ (fun _ => slot_free x a) _ (slot_free x a)); [|done|done|by intros s []].
  apply stable_bind; [by apply enow_stable|intros now].
  apply stable_bind; [by apply consume_stable|intros _]. apply stable_ret.
Qed.

Lemma await_slot_triple x a :
  triple (fun s => runner_inv x s /\ er_active s.1 = a) (await_slot info) (fun _ => slot_free x a) (runner_inv x).
Proof.
  intros [r w] [HI Ha]. unfold await_slot, eget, se_bind at 1, se_get. cbn [fst].
  assert (runner_inv x (set_er_counters (count_slot (is_idle (er_submit r)) (er_counters r)) r, w)
    /\ er_active (set_er_counters (count_slot (is_idle (er_submit r)) (er_counters r)) r) = a
    /\ er_submit (set_er_counters (count_slot (is_idle (er_submit r)) (er_counters r)) r) = er_submit r) as (HI1 & Ha1 & Hs1) by by destruct r.
  unfold se_bind at 1, ecount, emodify, se_modify. cbn [fst snd]. destruct (is_idle (er_submit r)) eqn:Ei.
  - split; [exact HI1|]. split; [exact Ha1|]. cbn [fst]. rewrite Hs1. unfold is_idle in Ei.
    apply negb_true_iff, bool_decide_eq_false in Ei. by apply eq_None_not_Some.
  - exact (slot_wait_triple x a _ (conj HI1 Ha1)).
Qed.

Lemma submission_of_ok w a e stall :
  active_ok w a -> ab_evaluation a = Some (Ok e) -> submission_ok (submission_of a e stall).
Proof. intros [Hi He] Hev. rewrite Hev in He. exists (ab_claim a). done. Qed.

Lemma submit_active_triple a e :
  ab_evaluation a = Some (Ok e) ->
  triple (fun s => runner_inv [] s /\ er_active s.1 = Some a) (submit_active info)
    (fun _ s => runner_inv [] s /\ er_active s.1 = None) (runner_inv []).
Proof.
  intros He. unfold submit_active. eapply triple_bind; [apply await_slot_triple|intros stall].
  intros [r w] (HI & Ha & Hs). cbn [fst] in *. unfold eget, emodify, ecount, se_bind, se_get, se_modify.
  cbn [fst snd]. rewrite Ha, He. cbn [fst snd].
  pose proof (iv_active _ _ _ _ _ HI) as Hok. cbn [fst] in Hok. rewrite Ha in Hok.
  pose proof (submission_of_ok _ _ _ stall Hok He) as Hsub.
  pose proof (clear_active_inv _ _ _ _ HI Ha) as HI1.
  unfold emodify, se_modify, on_submit. cbn [fst snd].
  set (r1 := set_er_counters _ _).
  assert (er_prefetch r1 = er_prefetch r /\ er_submit r1 = er_submit r /\ er_active r1 = None) as (Hp1 & Hs1 & Ha1) by by destruct r.
  rewrite Hs1. unfold runner_inv in HI1. cbn [fst snd] in HI1.
  assert (inv (submission_pair (submission_of a e stall) :: []) (er_prefetch r) (er_submit r) None w) as HI2 by by destruct r.
  pose proof (start_submit_inv [] (er_prefetch r) None _ Hsub (er_submit r, w) (conj HI2 Hs)) as Hst.
  destruct (start_submit info _ _) as [[sb w'] [u|err]]; [|done].
  split; [|by destruct r]. unfold runner_inv, sinv in *. cbn [fst snd] in *.
  assert (er_prefetch (set_er_submit sb r1) = er_prefetch r /\ er_submit (set_er_submit sb r1) = sb
          /\ er_active (set_er_submit sb r1) = None) as (-> & -> & ->) by by destruct r.
  exact Hst.
Qed.

(** *** Every tick keeps the invariant *)

Lemma tick_triple :
  triple (runner_inv []) (tick info) (fun _ s => runner_inv [] s /\ er_active s.1 = None) (runner_inv []).
Proof.
  unfold tick. apply stable_seq; [apply reconcile_claims_stable, on_hands_runner|intros _].
  apply stable_seq; [apply consume_finished_submit_stable|intros _].
  intros [r w] HI. unfold eget, se_bind at 1, se_get. cbn [fst].
  eapply (triple_bind _ _ (fun s => runner_inv [] s /\ er_active s.1 = er_active r)
    (fun (fetched : bool) s => runner_inv [] s /\ fetched = bool_decide (is_Some (er_active s.1)))); [| |by split].
  { case_bool_decide as Ha.
    - intros s [HIs Hs]. split; [done|]. rewrite Hs. by rewrite bool_decide_true.
    - apply eq_None_not_Some in Ha. rewrite Ha. apply fetch_claim_triple. }
  intros fetched [r1 w1] [HI1 Ha1]. cbn [fst] in Ha1. case_bool_decide as Hsome; subst fetched; cbn [negb];
    [|split; [exact HI1|by apply eq_None_not_Some]].
  destruct Hsome as [a Ha].
  pose proof (evaluate_active_triple [] a (r1, w1) (conj HI1 Ha)) as Hev. unfold se_bind at 1.
  destruct (evaluate_active info (r1, w1)) as [[r2 w2] [u|e]]; [|exact Hev].
  destruct Hev as (HI2 & o & Ha2). cbn [fst] in Ha2. unfold evaluation_failed, se_bind at 1, eget, se_get. cbn [fst].
  rewrite Ha2. cbn [ab_evaluation set_evaluation]. destruct o as [e|f].
  - exact (submit_active_triple (set_evaluation (Some (Ok e)) a) e eq_refl (r2, w2) (conj HI2 Ha2)).
  - exact (persist_batch_failure_triple [] (set_evaluation (Some (Err f)) a) f eq_refl (r2, w2) (conj HI2 Ha2)).
Qed.

End laws.
