(* ===== verification/EvaluatorDrain.v ===== *)
(** The life of an evaluator runner (src/runners/evaluator.rs): its calls, its
    background requests and the steps of everybody else in any order; and its
    end, when it is stopped. *)
From S2P Require Import Prelude Floats Errors Domain Batch Config LatentBatch Generation AccumulatorTrait Scalar Stratification Vector Gammaloop AccumulatorState Extraction Evaluation Raster WorkQueue Metrics Queue Tasks Runner TaskStore StageContext Evaluator EvaluatorLaws.

Section drain.
Context {J : Type} {TV : TomlValues} {E : Type} {LM : Libm} {OB : Observables} {TC : @TaskCodec J TV E} {SS : @SavedStates J}.
Context {Rng W Ev Mat Tr : Type} {EW : @EvaluatorWorld J TV E OB TC Rng W} {EN : @Engines J E OB Rng Ev Mat Tr}.
Context (info : EvaluatorInfo).
Context {CL : @ClaimLedger Rng W}.

Notation EvaluatorRunner := (@EvaluatorRunner E OB Rng W Ev Mat Tr).
Notation LatentPrefetchBuffer := (@LatentPrefetchBuffer Rng W).
Notation BatchClaim := (@BatchClaim Rng).
Notation M := (SE (EvaluatorRunner * W) EvaluatorRunnerError).
Implicit Types (s : EvaluatorRunner * W).

(** ** Steps *)

Inductive evaluator_step : EvaluatorRunner * W -> EvaluatorRunner * W -> Prop :=
| does_tick s s' x : tick info s = (s', x) -> evaluator_step s s'
| does_stop fuel s s' x : stop info fuel s = (s', x) -> evaluator_step s s'
| runs_prefetch s : evaluator_step s (run_prefetch s)
| runs_submit s : evaluator_step s (run_submit s)
| does_others r w w' : others w w' -> evaluator_step (r, w) (r, w').

(** A new runner of a node that holds no claim. *)
Definition started (s : EvaluatorRunner * W) : Prop :=
  valid s.2 /\ (forall id t, ~ mine s.2 id t) /\
  exists now config evaluator, s.1 = evaluator_runner_new now config evaluator.
Definition reachable (s : EvaluatorRunner * W) : Prop := exists s0, started s0 /\ steps evaluator_step s0 s.

Context {CLL : @ClaimLedgerLaws J TV E OB TC Rng W EW info CL}.

Lemma started_inv s : started s -> runner_inv info [] s.
Proof.
  destruct s as [r w]. intros (Hv & Hn & now & config & evaluator & Hr). cbn [fst snd] in *. subst r. split; cbn; try done.
  - intros id t Hm. by destruct (Hn id t).
  - intros id t Hin. by apply elem_of_nil in Hin.
Qed.

Lemma run_handle_ok {A} (job : W -> W * result StoreError A) Q T w (h : JoinHandle W A) :
  valid w -> (forall w' r, job w = (w', r) -> moves T w w' /\ Q w' (Some r)) -> handle_ok job Q w h ->
  let '(h', w') := run_handle h w in moves T w w' /\ handle_ok job Q w' h'.
Proof.
  intros Hv Hj. unfold handle_ok, run_handle. destruct (jh_done h) as [o|] eqn:Ed.
  - intros Ho. split; [|by rewrite Ed]. apply moves_weaken. by apply moves_refl.
  - intros ->. cbn. destruct (job w) as [w' r] eqn:Ej. by apply Hj.
Qed.

Lemma run_prefetch_inv s : runner_inv info [] s -> runner_inv info [] (run_prefetch s).
Proof.
  destruct s as [r w]. intros HI. unfold run_prefetch. cbn [fst snd].
  destruct (pf_pending (er_prefetch r)) as [h|] eqn:Eh; [|exact HI].
  pose proof (iv_prefetch _ _ _ _ _ _ HI) as [Hr Hp]. cbn [fst] in Hr, Hp. rewrite Eh in Hp. destruct Hp as (t & Ht & Hh).
  pose proof (run_handle_ok _ _ (Some t) w h (iv_valid _ _ _ _ _ _ HI)
    (fun w' x => prefetch_job_spec info t w w' x (iv_valid _ _ _ _ _ _ HI) (iv_token _ _ _ _ _ _ HI t Ht)) Hh) as Ho.
  destruct (run_handle h w) as [h' w']. destruct Ho as [Hw Hh'].
  assert (prefetch_ok info w' (mkPrefetch (pf_ready_batch (er_prefetch r)) (pf_claim_token (er_prefetch r)) (Some h'))) as Hp'.
  { split; cbn; [|by exists t]. destruct (pf_ready_batch (er_prefetch r)); [|done]. destruct Hr as (_ & ? & _). congruence. }
  unfold runner_inv in *. destruct r; cbn in *. by apply (inv_moves info (Some t) _ er_prefetch _ _ _ w w'); try right.
Qed.

Lemma run_submit_inv s : runner_inv info [] s -> runner_inv info [] (run_submit s).
Proof.
  destruct s as [r w]. intros HI. unfold run_submit. cbn [fst snd].
  destruct (sb_pending (er_submit r)) as [h|] eqn:Eh; [|exact HI].
  pose proof (iv_submit _ _ _ _ _ _ HI) as [Hr Hp]. cbn [fst] in Hr, Hp. rewrite Eh in Hp. destruct Hp as (s & Hs & Hh).
  pose proof (run_handle_ok _ _ None w h (iv_valid _ _ _ _ _ _ HI)
    (fun w' x => submit_job_spec info s w w' x (iv_valid _ _ _ _ _ _ HI)) Hh) as Ho.
  destruct (run_handle h w) as [h' w']. destruct Ho as [Hw Hh'].
  pose proof (oh_world _ (on_hands_runner info []) _ _ _ HI Hw) as HI'.
  unfold runner_inv in *. destruct r; cbn in *. destruct HI'. split; try done.
  split; cbn; [done|]. by exists s.
Qed.

Lemma set_draining_inv x d (r : EvaluatorRunner) w : runner_inv info x (r, w) -> runner_inv info x (set_er_draining d r, w).
Proof. by destruct r. Qed.

Lemma drain_loop_inv fuel s : runner_inv info [] s ->
  runner_inv info [] (drain_loop info fuel s).1 /\
  ((drain_loop info fuel s).2 = Some (Ok tt) -> work_left (drain_loop info fuel s).1.1 = false).
Proof.
  revert s. induction fuel as [|fuel IH]; intros s HI; cbn [drain_loop];
    destruct (work_left s.1) eqn:Ew; cbn [negb fst snd]; try done.
  pose proof (tick_triple info s HI) as Ht.
  destruct (tick info s) as [s' [u|e]]; [by apply IH, Ht|done].
Qed.

Lemma finish_submission_triple :
  triple (runner_inv info []) (finish_submission info)
    (fun _ s => runner_inv info [] s /\ sb_submission (er_submit s.1) = None) (runner_inv info []).
Proof.
  intros [r w] HI. unfold finish_submission. revert HI.
  enough (triple (fun s => runner_inv info [] s /\ er_active s.1 = er_active r)
    (let! outcome := on_submit (wait_for_slot info) in
     consume_submitted_result info outcome ;! flush_performance_snapshot_if_due info true)
    (fun _ s => runner_inv info [] s /\ sb_submission (er_submit s.1) = None) (runner_inv info [])) as Ht
    by (intros HI; exact (Ht (r, w) (conj HI eq_refl))).
  set (a := er_active r). clearbody a. clear r w.
  eapply (triple_bind _ _ _ (fun _ => slot_free info [] a)).
  - exact (wait_for_slot_runner info [] a).
  - intros o. assert (on_hands (slot_free (Ev:=Ev) (Mat:=Mat) (Tr:=Tr) (E:=E) info [] a)) as Hoh
      by exact (on_hands_inv info [] a (fun sb => sb_submission sb = None)).
    eapply (triple_weaken _ (slot_free info [] a) _ _ (fun _ => slot_free info [] a) _ (slot_free info [] a));
      [|done|by intros _ s (? & ? & ?)|by intros s []].
    apply stable_bind; [exact (consume_stable info _ Hoh o)|intros _]. exact (flush_stable info _ Hoh true).
Qed.

Lemma stop_inv fuel s : runner_inv info [] s -> runner_inv info [] (stop info fuel s).1.
Proof.
  destruct s as [r w]. intros HI. unfold stop. cbn [fst snd].
  destruct (drain_loop_inv fuel (set_er_draining true r, w) (set_draining_inv _ true _ _ HI)) as [H1 _].
  destruct (drain_loop info fuel _) as [s' [[u|e]|]]; [|done..].
  pose proof (finish_submission_triple s' H1) as Hf. destruct (finish_submission info s') as [s2 [v|e]]; [apply Hf|exact Hf].
Qed.

Lemma reachable_inv s : reachable s -> runner_inv info [] s.
Proof.
  intros (s0 & Hs0 & Hs). apply (steps_invariant evaluator_step (runner_inv info []) s0 s); [|by apply started_inv|done].
  clear s0 s Hs0 Hs. intros s s' HI Hstep. destruct Hstep as [s s' r Et|fuel s s' r Et|s|s|r w w' Ho].
  - pose proof (tick_triple info s HI) as Ht. rewrite Et in Ht. destruct r; [apply Ht|exact Ht].
  - pose proof (stop_inv fuel s HI) as Ht. by rewrite Et in Ht.
  - by apply run_prefetch_inv.
  - by apply run_submit_inv.
  - eapply (oh_world _ (on_hands_runner info [])); [exact HI|]. apply (law_others info w w' Ho), (iv_valid _ _ _ _ _ _ HI).
Qed.

(** ** Draining *)

(** The prefetch buffer and the draining flag, the active batch. *)
Definition pending_is (b : LatentPrefetchBuffer) s : Prop := er_prefetch s.1 = b /\ er_draining s.1 = true.

Section untouched.
Variable I : EvaluatorRunner * W -> Prop.

(** [I] speaks of the prefetch buffer, the flag and the active batch only. *)
Hypothesis I_runner : forall (r r' : EvaluatorRunner) w w',
  er_prefetch r' = er_prefetch r -> er_draining r' = er_draining r -> er_active r' = er_active r -> I (r, w) -> I (r', w').

Lemma keep_store {A} (f : W -> W * result StoreError A) : stable I (estore f).
Proof. intros [r w] Hs. unfold estore. cbn [fst snd]. destruct (f w) as [w' [v|e]]; cbn; by eapply I_runner. Qed.
Lemma keep_modify (f : EvaluatorRunner -> EvaluatorRunner) : (forall r, same_hands r (f r) /\ er_draining (f r) = er_draining r) -> stable I (emodify f).
Proof. intros Hf [r w] Hs. cbn. destruct (Hf r) as [(? & ? & ?) ?]. by eapply I_runner. Qed.
Lemma keep_now : stable I (enow (E:=E) (Rng:=Rng) (Ev:=Ev) (Mat:=Mat) (Tr:=Tr)).
Proof. by intros s Hs. Qed.
Lemma keep_get {A} (f : EvaluatorRunner -> A) : stable I (eget f).
Proof. by intros s Hs. Qed.
Lemma keep_count f : stable I (ecount f).
Proof. apply keep_modify. by intros []. Qed.
Lemma keep_submit {A} (m : SE (ResultSubmitBuffer (W:=W) * W) EvaluatorRunnerError A) : stable I (on_submit m).
Proof.
  intros [r w] Hs. unfold on_submit. cbn [fst snd]. destruct (m (er_submit r, w)) as [[b w'] [v|e]];
    (eapply I_runner; [..|exact Hs]); by destruct r.
Qed.
Hint Resolve keep_store keep_now keep_get keep_count keep_submit : stable.
Hint Extern 3 (stable I (emodify _)) => apply keep_modify; by intros [] : stable.

Lemma keep_flush force : stable I (flush_performance_snapshot_if_due info force).
Proof. unfold flush_performance_snapshot_if_due. stable_auto. Qed.
Hint Resolve keep_flush : stable.
Lemma keep_consume o : stable I (consume_submitted_result info o).
Proof. unfold consume_submitted_result. stable_auto. Qed.
Hint Resolve keep_consume : stable.
Lemma keep_context task : stable I (ensure_task_context info task).
Proof. unfold ensure_task_context, load_task_context. stable_auto. Qed.
Lemma keep_evaluate_batch claim since : stable I (evaluate_batch info claim since).
Proof. unfold evaluate_batch, materialize. stable_auto. Qed.
Lemma keep_evaluate claim : stable I (evaluate_claim info claim).
Proof.
  intros s Hs. unfold evaluate_claim. pose proof (keep_evaluate_batch claim (ew_now s.2) s Hs) as H.
  by destruct (evaluate_batch info claim (ew_now s.2) s) as [s' [e|e]].
Qed.
Lemma keep_reconcile : stable I (reconcile_claims info).
Proof. unfold reconcile_claims. stable_auto. Qed.
Lemma keep_finished : stable I (consume_finished_submit info).
Proof. unfold consume_finished_submit. stable_auto. Qed.
Lemma keep_slot : stable I (await_slot info).
Proof. unfold await_slot. stable_auto. Qed.
End untouched.

(** The phases after the fetch leave the prefetch buffer alone. *)
Lemma pending_runner b : forall (r r' : EvaluatorRunner) w w',
  er_prefetch r' = er_prefetch r -> er_draining r' = er_draining r -> pending_is b (r, w) -> pending_is b (r', w').
Proof. intros r r' w w' Hp Hd [H1 H2]. unfold pending_is in *; cbn in *. by rewrite Hp, Hd. Qed.

Section after_fetch.
Variable b : LatentPrefetchBuffer.
Local Lemma after_runner (r r' : EvaluatorRunner) w w' :
  er_prefetch r' = er_prefetch r -> er_draining r' = er_draining r -> er_active r' = er_active r ->
  pending_is b (r, w) -> pending_is b (r', w').
Proof. intros ? ? _. by apply pending_runner. Qed.
Lemma after_modify (f : EvaluatorRunner -> EvaluatorRunner) :
  (forall r, er_prefetch (f r) = er_prefetch r /\ er_draining (f r) = er_draining r) -> stable (pending_is b) (emodify f).
Proof. intros Hf [r w] Hs. cbn. destruct (Hf r). by eapply pending_runner. Qed.
Hint Extern 3 (stable (pending_is b) (emodify _)) => apply after_modify; by intros [] : stable.
Hint Resolve after_runner keep_store keep_now keep_get keep_count keep_submit keep_flush keep_consume keep_context keep_evaluate keep_slot : stable.

Lemma after_evaluate : stable (pending_is b) (evaluate_active info).
Proof. unfold evaluate_active, epanic. stable_auto. Qed.
Lemma after_activate since p : stable (pending_is b) (activate_claim info since p).
Proof. unfold activate_claim. stable_auto. Qed.
Lemma after_submit : stable (pending_is b) (submit_active info).
Proof. unfold submit_active, epanic. stable_auto. Qed.
Lemma after_notify a f : stable (pending_is b) (notify_failure info a f).
Proof.
  unfold notify_failure. destruct (fe_outcome f); [apply stable_ret|]. intros [r w] Hs. cbn [fst snd].
  destruct (ew_fail_batch _ _ _ _ _ w) as [w' [o|e]]; [by destruct r|].
  destruct (is_batch_ownership_lost e); by destruct r.
Qed.
Hint Resolve after_notify : stable.
Lemma after_failure : stable (pending_is b) (persist_batch_failure info).
Proof. unfold persist_batch_failure, epanic. stable_auto. Qed.
End after_fetch.

(** What a tick does with its active batch. *)
Lemma tail_keeps b s s' u :
  pending_is b s ->
  (evaluate_active info ;!
   let! failed := se_get (fun s => evaluation_failed s.1) in
   if failed then persist_batch_failure info else submit_active info) s = (s', Ok u) -> pending_is b s'.
Proof.
  intros Hb. enough (stable (pending_is b) (evaluate_active info ;!
   let! failed := se_get (fun s => evaluation_failed s.1) in
   if failed then persist_batch_failure info else submit_active info)) as Hs.
  { intros Ht. specialize (Hs s Hb). by rewrite Ht in Hs. }
  apply stable_bind; [apply after_evaluate|intros _]. apply stable_bind; [apply stable_get|intros failed].
  destruct failed; [apply after_failure|apply after_submit].
Qed.

(** When it drains, a runner that looks for work asks only for the batch it may
    already have claimed. *)
Lemma pop_drains x sb a b w b' w' p :
  inv info x b sb a w -> pop info true (b, w) = ((b', w'), Ok p) -> has_pending_work b' = false.
Proof.
  intros HI. pose proof (iv_prefetch _ _ _ _ _ _ HI) as [Hr Hp]. destruct b as [ready token pending]. cbn in *.
  unfold pop, se_bind, se_get, se_when, se_modify, se_ret.
  destruct ready as [c|]; [destruct Hr as (_ & -> & ->)|destruct pending as [h|]; [destruct Hp as (t & -> & _)|destruct token as [t|]]];
    cbn -[await_handle]; intros H; repeat (case_match; simplify_eq/=);
    try (injection H as <- <- _); done.
Qed.

Lemma fetch_drains x s s' fetched :
  runner_inv info x s -> er_draining s.1 = true -> fetch_claim info s = (s', Ok fetched) ->
  er_draining s'.1 = true /\ has_pending_work (er_prefetch s'.1) = false.
Proof.
  destruct s as [r w]. intros HI Hd. cbn [fst] in Hd. unfold fetch_claim. unfold se_bind at 1.
  unfold ecount, emodify, se_modify. cbn [fst snd]. set (r1 := set_er_counters _ r).
  assert (er_prefetch r1 = er_prefetch r /\ er_draining r1 = true) as [Hp1 Hd1] by by destruct r.
  unfold enow, eget, se_bind at 1 2, se_get. cbn [fst snd]. rewrite Hd1.
  unfold se_bind, on_prefetch. cbn [fst snd]. rewrite Hp1.
  destruct (pop info true (er_prefetch r, w)) as [[b w1] [p|e]] eqn:Ep; [|done].
  pose proof (pop_drains _ _ _ _ _ _ _ _ HI Ep) as Hb. cbn [fst snd].
  assert (pending_is b (set_er_prefetch b r1, w1)) as Hpend by by destruct r.
  intros Hact. pose proof (after_activate b (ew_now w) p _ Hpend) as Hk. rewrite Hact in Hk.
  destruct Hk as [Hk1 Hk2]. by rewrite Hk1.
Qed.

(** A tick of a draining runner without an active batch finishes the prefetch. *)
Lemma drain_tick s s' u :
  runner_inv info [] s -> er_draining s.1 = true -> tick info s = (s', Ok u) ->
  runner_inv info [] s' /\ er_draining s'.1 = true /\ er_active s'.1 = None /\
  (er_active s.1 = None -> has_pending_work (er_prefetch s'.1) = false).
Proof.
  intros HI Hd Ht. pose proof (tick_triple info s HI) as HI'. rewrite Ht in HI'. destruct HI' as [HI' Ha'].
  split; [done|]. revert Ht. unfold tick.
  set (I := fun q : EvaluatorRunner * W => er_draining q.1 = true /\ er_active q.1 = er_active s.1).
  assert (forall (r r' : EvaluatorRunner) w w', er_prefetch r' = er_prefetch r -> er_draining r' = er_draining r ->
    er_active r' = er_active r -> I (r, w) -> I (r', w')) as HIr.
  { intros r r' w w' Hp Hdr Ha [H1 H2]. unfold I in *; cbn in *. by rewrite Hdr, Ha. }
  pose proof (keep_reconcile I HIr s (conj Hd eq_refl)) as H1.
  pose proof (reconcile_claims_stable info _ (on_hands_runner info []) s HI) as HI1.
  unfold se_bind at 1. destruct (reconcile_claims info s) as [s1 [[]|]]; [|done].
  pose proof (keep_finished I HIr s1 H1) as H2.
  pose proof (consume_finished_submit_stable info [] s1 HI1) as HI2.
  unfold se_bind at 1. destruct (consume_finished_submit info s1) as [s2 [[]|]]; [|done].
  clear HIr H1 HI1 s1. destruct H2 as [Hd2 Ha2]. unfold eget, se_bind at 1, se_get. rewrite <- Ha2. clear I Hd HI Ha2 s.
  destruct (er_active s2.1) as [a|] eqn:Ha.
  - rewrite bool_decide_true by eauto. cbn [se_bind se_ret negb]. unfold se_bind at 1, se_ret. cbn [negb].
    intros Ht. enough (pending_is (er_prefetch s2.1) s') as [_ Hd'] by done. revert Ht.
    apply tail_keeps. by split.
  - rewrite bool_decide_false by (by intros []). intros Ht.
    unfold se_bind at 1 in Ht. destruct (fetch_claim info s2) as [s3 [fetched|]] eqn:Ef; [|done].
    enough (er_draining s3.1 = true /\ has_pending_work (er_prefetch s3.1) = false) as [Hd3 Hp3].
    { enough (pending_is (er_prefetch s3.1) s') as [Hp' Hd'].
      { split_and!; [done..|]. intros _. by rewrite Hp'. }
      destruct fetched; cbn [negb] in Ht; [|by injection Ht as <-].
      revert Ht. apply tail_keeps. by split. }
    by eapply fetch_drains.
Qed.

Lemma finish_submission_keeps s :
  runner_inv info [] s -> work_left s.1 = false ->
  match finish_submission info s with
  | (s', Ok _) => runner_inv info [] s' /\ work_left s'.1 = false /\ sb_submission (er_submit s'.1) = None
  | (_, Err _) => True
  end.
Proof.
  intros HI Hw. pose proof (finish_submission_triple s HI) as Ht.
  enough (stable (fun s => work_left s.1 = false) (finish_submission info)) as Hs.
  { specialize (Hs s Hw). destruct (finish_submission info s) as [s' [u|e]]; [|done]. by destruct Ht. }
  assert (forall (r r' : EvaluatorRunner) (w w' : W), er_prefetch r' = er_prefetch r -> er_draining r' = er_draining r ->
    er_active r' = er_active r -> work_left (r, w).1 = false -> work_left (r', w').1 = false) as HIr.
  { intros r r' w w' Hp _ Ha Hl. cbn in *. unfold work_left in *. by rewrite Hp, Ha. }
  unfold finish_submission. apply stable_bind; [by apply keep_submit|intros o].
  apply stable_bind; [by apply keep_consume|intros _]. by apply keep_flush.
Qed.

Lemma drain_loop_two s :
  runner_inv info [] s -> er_draining s.1 = true -> exists s' x, drain_loop info 2 s = (s', Some x).
Proof.
  intros HI Hd. cbn [drain_loop]. destruct (work_left s.1); cbn [negb]; [|by eauto].
  destruct (tick info s) as [s1 [u|e]] eqn:E1; [|by eauto].
  destruct (drain_tick _ _ _ HI Hd E1) as (HI1 & Hd1 & Ha1 & _).
  destruct (work_left s1.1); cbn [negb]; [|by eauto].
  destruct (tick info s1) as [s2 [u2|e]] eqn:E2; [|by eauto].
  destruct (drain_tick _ _ _ HI1 Hd1 E2) as (HI2 & Hd2 & Ha2 & Hp2).
  unfold work_left. rewrite Ha2, (Hp2 Ha1). cbn. by eauto.
Qed.

(** ** The guarantees of the runner *)

Lemma nothing_held s :
  runner_inv info [] s -> work_left s.1 = false -> sb_submission (er_submit s.1) = None ->
  forall id t, ~ mine s.2 id t.
Proof.
  intros HI Hw Hs id t Hm. unfold work_left, has_pending_work in Hw. zbool.
  destruct (iv_cover _ _ _ _ _ _ HI _ _ Hm) as [Ht|Hin].
  - destruct H1. by eexists.
  - unfold held in Hin. rewrite Hs in Hin.
    rewrite (proj2 (eq_None_not_Some _) H0), (proj2 (eq_None_not_Some _) H) in Hin.
    by apply elem_of_nil in Hin.
Qed.

(** C22: no claim is lost. In every reachable state of an evaluator runner, whatever
    requests fail, are retried or are answered too late and whatever the other
    workers do meanwhile, each batch that the store has claimed for this node is
    held by the runner: its token is among the tokens it tracks, so the
    reconciliation of claims never takes it away. *)
Theorem claims_are_never_lost s id t : reachable s -> mine s.2 id t -> t ∈ tracked_tokens s.1.
Proof.
  intros HI%reachable_inv Hm. unfold tracked_tokens.
  destruct (iv_cover _ _ _ _ _ _ HI _ _ Hm) as [->|Hin]; [set_solver|].
  rewrite app_nil_l in Hin. unfold held in Hin. rewrite !elem_of_app in Hin. rewrite !elem_of_app.
  destruct (pf_ready_batch _) as [c|], (er_active _) as [a|], (sb_submission _) as [x|]; cbn in *;
    rewrite ?list_elem_of_singleton, ?elem_of_nil in *; unfold claim_pair, submission_pair in *; naive_solver.
Qed.

(** only checked results are submitted. In every reachable state, the result in
    the submission buffer, and the result of the request in flight, answer a claim
    the store issued: same batch, same task, same token; and they passed the checks
    of [validate_for_batch] for that claim's sample count and training request. *)
Theorem submissions_are_checked s :
  reachable s ->
  match sb_submission (er_submit s.1) with Some x => submission_ok x | None => True end /\
  match sb_pending (er_submit s.1) with
  | Some h => exists x, sb_submission (er_submit s.1) = Some x /\ submission_ok x /\
                (jh_done h = None -> jh_job h = jh_job (spawn (submit_job info x)))
  | None => True
  end.
Proof.
  intros HI%reachable_inv. destruct (iv_submit _ _ _ _ _ _ HI) as [Hs Hp]. split; [done|].
  destruct (sb_pending _) as [h|]; [|done]. destruct Hp as (x & Hx & Hh). rewrite Hx in Hs.
  exists x. split_and!; [done..|]. unfold handle_ok in Hh. intros Hd. by rewrite Hd in Hh.
Qed.

(** C23: a stopped runner returns everything. From every reachable state [stop] comes
    to an end within two ticks, and if it succeeds then the runner holds nothing: no
    active batch, no prefetched one, no request for one and no unacknowledged
    result; and the store has no batch claimed for this node. *)
Theorem stop_drains s :
  reachable s ->
  exists s' x, stop info 2 s = (s', Some x) /\
    (x = Ok tt -> work_left s'.1 = false /\ is_idle (er_submit s'.1) = true /\ forall id t, ~ mine s'.2 id t).
Proof.
  intros HI%reachable_inv. destruct s as [r w]. unfold stop. cbn [fst snd].
  pose proof (set_draining_inv [] true _ _ HI) as HI0.
  destruct (drain_loop_two (set_er_draining true r, w) HI0) as (s1 & x & Hl); [by destruct r|].
  pose proof (drain_loop_inv 2 _ HI0) as [HI1 Hw]. rewrite Hl in *. cbn [fst snd] in *.
  destruct x as [u|e]; [|eexists _, _; split; [done|done]].
  destruct u. pose proof (finish_submission_keeps s1 HI1 (Hw eq_refl)) as Hf.
  destruct (finish_submission info s1) as [s2 [u2|e]]; eexists _, _; (split; [reflexivity|]); [|done].
  intros _. destruct Hf as (HI2 & Hw2 & Hs2). split_and!; [done|unfold is_idle; by rewrite Hs2|].
  by apply nothing_held.
Qed.

End drain.
