(* ===== verification/EvaluatorInstance.v ===== *)
(** The PostgreSQL work queue (WorkQueue.v) as the store of an evaluator runner:
    the instance of [ClaimLedger]. Any request may be lost on its way, or its answer
    on the way back; before each request the other workers may commit any
    transactions of theirs. *)
From S2P Require Import Prelude Floats Errors Domain Batch Config LatentBatch Generation AccumulatorTrait Scalar Stratification Vector Gammaloop AccumulatorState Extraction Evaluation Raster WorkQueue Metrics Queue Tasks Runner TaskStore StageContext Evaluator EvaluatorLaws EvaluatorDrain.

(** ** The claims of a node in the tables *)

Section claims.
Context {Eb B V A : Type}.
Variable encode_input : Eb -> result string B.
Variable decode_input : B -> result string Eb.
Variable nr_samples_of : Eb -> usize.
Variables (run : i32) (uuid : string).

Notation db := (DB B V A).
Implicit Types d : db.

Definition claimed_row (t : string) (r : BatchRow) : Prop :=
  run_id r = run /\ status r = Claimed /\ claimed_by_node_uuid r = Some uuid /\ claim_token r = Some t.
Definition claims d (id : i64) (t : string) : Prop := exists r, batches d !! id = Some r /\ claimed_row t r.
Definition no_new_claims d d' : Prop := forall id t, claims d' id t -> claims d id t.

(** A transaction of another worker. *)
Inductive foreign_step : db -> db -> Prop :=
| foreign_insert d r t training ids bs : foreign_step d (insert_batches encode_input nr_samples_of r t training ids bs d).1
| foreign_claim d r uuid' token locked : uuid' <> uuid -> foreign_step d (claim_batch decode_input r uuid' token locked d).1
| foreign_release d r uuid' : foreign_step d (release_claimed_batches_for_worker r uuid' d).1
| foreign_untracked d r uuid' tokens : foreign_step d (release_untracked_claims r uuid' tokens d).1
| foreign_reclaim d r : foreign_step d (reclaim_abandoned_batches r d).1
| foreign_submit d id uuid' token encoded ms : foreign_step d (submit_batch_results id uuid' token encoded ms d).1
| foreign_fail d id uuid' token error m : foreign_step d (fail_batch id uuid' token error m d).1
| foreign_cleanup d r up_to limit : foreign_step d (cleanup_consumed_completed_batches r up_to limit d).1
| foreign_env d ns cks t : foreign_step d (mkDB (batches d) (batch_inputs d) (batch_results d) ns cks t).

Lemma foreign_step_ok d d' : wq_ok d -> foreign_step d d' -> wq_ok d'.
Proof.
  intros Hok Hs. apply (wq_step_ok encode_input decode_input nr_samples_of d); [done|]. destruct Hs;
    [apply step_insert|apply step_claim|apply step_release|apply step_untracked|apply step_reclaim|apply step_submit|apply step_fail
    |apply step_cleanup|apply step_env].
Qed.

(** Rows that are claimed for this node were so before. *)
Lemma no_new_claims_rows d d' :
  (forall id r', batches d' !! id = Some r' -> status r' = Claimed -> claimed_by_node_uuid r' = Some uuid ->
     batches d !! id = Some r') -> no_new_claims d d'.
Proof. intros H id t (r & Hr & Hrun & Hs & Hu & Ht). exists r. split; [by apply H|done]. Qed.

Lemma update_where_claims cond f d :
  (forall r, status (f r) = Pending) -> no_new_claims d (update_where cond f d).1.
Proof.
  intros Hf. apply no_new_claims_rows. intros id r'. rewrite update_where_lookup.
  destruct (batches d !! id) as [r|]; cbn; [|done]. destruct (cond id r); intros [= <-]; [|done].
  by rewrite Hf.
Qed.

Lemma submit_claims id uuid' token encoded ms d d' r :
  submit_batch_results id uuid' token encoded ms d = (d', r) -> no_new_claims d d'.
Proof.
  intros H. apply no_new_claims_rows. intros i r' Hr' Hs Hu.
  apply submit_cases in H as [[-> _]|(row & vs & acc & Hr & _ & _ & _ & [(_ & _ & ->)|(Hst & _ & ->)])]; [done..|].
  cbn in Hr'. rewrite lookup_insert in Hr'. case_decide; [|done]. by injection Hr' as <-.
Qed.

Lemma fail_claims id uuid' token error m d d' r :
  fail_batch id uuid' token error m d = (d', r) -> no_new_claims d d'.
Proof.
  intros H. apply no_new_claims_rows. intros i r' Hr' Hs Hu. revert H Hr'. unfold fail_batch.
  destruct (batches d !! id) as [row|] eqn:Er; [|by intros [= <- _]].
  destruct (negb _); [by intros [= <- _]|]. destruct (status row); intros [= <- _]; try done. cbn.
  rewrite lookup_insert. case_decide; [|done]. intros [= <-]. cbn in Hs. by destruct (_ >=? m).
Qed.

Lemma claim_rows r uuid' token locked d d' x :
  claim_batch decode_input r uuid' token locked d = (d', x) ->
  d' = d \/ exists id row, batches d !! id = Some row /\ next_batch r uuid' token locked d = Some (id, row) /\
              d' = set_batches (<[id := claim_row uuid' token d row]> (batches d)) d.
Proof.
  unfold claim_batch. destruct (existing_claim _ _ _ _) as [[id row]|]; [intros [= <- _]; by left|].
  destruct (next_batch _ _ _ _ _) as [[id row]|] eqn:En; intros [= <- _]; [|by left].
  right. exists id, row. pose proof (next_batch_some _ _ _ _ _ _ _ En) as (? & _). done.
Qed.

Lemma foreign_claims d d' : foreign_step d d' -> no_new_claims d d'.
Proof.
  intros Hs. destruct Hs.
  - apply no_new_claims_rows. intros id r' Hr' Hs Hu.
    destruct (insert_batches _ _ _ _ _ _ _ d) as [d' x] eqn:E. cbn in Hr'.
    apply insert_batches_cases in E as [[-> _]|(_ & Hlen & payload & Hp & H)]; [done|].
    apply insert_rows_spec in H as (_ & _ & Hother & Hnew & _).
    destruct (decide (id ∈ map (fun p => p.1.1) (zip (zip ids bs) payload))) as [Hl|Hl].
    + apply list_elem_of_fmap in Hl as ([[id' b] bytes] & -> & Hl). cbn in *.
      destruct (Hnew _ _ _ Hl) as [Heq _]. rewrite Heq in Hr'. by injection Hr' as <-.
    + destruct (Hother id Hl) as [Heq _]. by rewrite <- Heq.
  - destruct (claim_batch _ _ _ _ _ d) as [d' x] eqn:E. cbn. apply no_new_claims_rows. intros id r' Hr' Hs Hu.
    apply claim_rows in E as [->|(i & row & Hr & _ & ->)]; [done|]. cbn in Hr'. rewrite lookup_insert in Hr'.
    case_decide; [|done]. injection Hr' as <-. cbn in Hu. congruence.
  - by apply update_where_claims.
  - by apply update_where_claims.
  - by apply update_where_claims.
  - destruct (submit_batch_results _ _ _ _ _ d) as [d' x] eqn:E. by eapply submit_claims.
  - destruct (fail_batch _ _ _ _ _ d) as [d' x] eqn:E. by eapply fail_claims.
  - unfold cleanup_consumed_completed_batches. destruct (_ || _)%bool; [by intros id t|]. cbn. apply no_new_claims_rows.
    intros id r'. cbn. rewrite foldr_delete_lookup. by case_bool_decide.
  - by intros id tok.
Qed.

(** *** The requests of the node itself *)

Lemma own_claim token locked d d' x :
  wq_ok d -> claim_batch decode_input run uuid token locked d = (d', x) ->
  (forall id t, claims d' id t -> claims d id t \/ t = token) /\
  match x with
  | Ok (Some c) => forall id, claims d' id token -> id = c.1.1.1
  | Ok None => forall id, ~ claims d' id token
  | Err _ => True
  end.
Proof.
  intros Hok H. split.
  - intros id t Hc. apply claim_rows in H as [->|(i & row & Hr & _ & ->)]; [by left|].
    destruct Hc as (r & Hr' & Hrow). cbn in Hr'. rewrite lookup_insert in Hr'. case_decide; [|left; by exists r].
    injection Hr' as <-. right. destruct Hrow as (_ & _ & _ & [= <-]). done.
  - revert H. unfold claim_batch. destruct (existing_claim run uuid token d) as [[id row]|] eqn:Ex.
    + apply find_map_list in Ex as [Hr Hb]. cbn [fst snd] in *. unfold has_status in Hb. zbool.
      intros [= <- <-]. unfold read_claim. destruct (batch_inputs d !! id) as [bytes|] eqn:Eb'.
      * destruct (decode_input bytes); [|done]. intros i (r & Hri & _ & _ & _ & Ht). cbn.
        by eapply (ok_token _ Hok i id).
      * exfalso. destruct (proj1 (ok_inputs _ Hok id)) as [? ?]; [by eexists|congruence].
    + assert (forall id, ~ claims d id token) as Hno.
      { intros id (r & Hr & Hrun & Hs & Hu & Ht). unfold existing_claim in Ex.
        eapply find_none in Ex; [|apply list_elem_of_In, elem_of_map_to_list, Hr]. cbn in Ex.
        unfold has_status in Ex. rewrite Ht, Hu, Hs, Hrun, Z.eqb_refl, !bool_decide_true in Ex by done. done. }
      destruct (next_batch _ _ _ _ _) as [[id row]|] eqn:En; [|intros [= <- <-]; done].
      apply next_batch_some in En as (Hr & _).
      assert (forall i, claims (set_batches (<[id := claim_row uuid token d row]> (batches d)) d) i token -> i = id) as Hone.
      { intros i (r & Hri & Hrow). cbn in Hri. rewrite lookup_insert in Hri. case_decide; [done|]. destruct (Hno i). by exists r. }
      intros [= <- <-]. unfold read_claim. cbn [batch_inputs set_batches].
      destruct (batch_inputs d !! id) as [bytes|] eqn:Eb'.
      * destruct (decode_input bytes); [|done]. exact Hone.
      * exfalso. destruct (proj1 (ok_inputs _ Hok id)) as [? ?]; [by eexists|congruence].
Qed.

Lemma claim_reads token locked d d' id task training b :
  claim_batch decode_input run uuid token locked d = (d', Ok (Some (id, task, training, b))) ->
  exists bytes, decode_input bytes = Ok b.
Proof.
  unfold claim_batch, read_claim. destruct (existing_claim _ _ _ _) as [[i row]|].
  - destruct (batch_inputs d !! i) as [bytes|]; [|done]. destruct (decode_input bytes) eqn:Ed; [|done].
    intros [= _ _ _ _ <-]. eauto.
  - destruct (next_batch _ _ _ _ _) as [[i row]|]; [|done]. cbn [batch_inputs set_batches].
    destruct (batch_inputs d !! i) as [bytes|]; [|done]. destruct (decode_input bytes) eqn:Ed; [|done].
    intros [= _ _ _ _ <-]. eauto.
Qed.

Lemma own_submit_settles id token encoded ms d d' x :
  (forall e, encoded = Err e -> is_batch_ownership_lost e = false) ->
  submit_batch_results id uuid token encoded ms d = (d', x) -> settles x = true -> ~ claims d' id token.
Proof.
  intros He. unfold submit_batch_results. destruct encoded as [[values acc]|e].
  2:{ intros [= <- <-] Hs. cbn in Hs. by rewrite He in Hs. }
  destruct (batches d !! id) as [row|] eqn:Er.
  2:{ intros [= <- <-] _ (r & Hr & _). congruence. }
  destruct (owned uuid token row) eqn:Eo; cbn [negb].
  - intros H Hset (r & Hr & _ & Hs & _). revert H Hset. destruct (status row) eqn:Est;
      [|destruct (batch_results d !! id)|destruct (batch_results d !! id)|]; intros [= <- <-] Hset; try done; try congruence.
    cbn in Hr. rewrite lookup_insert_eq in Hr. by injection Hr as <-.
  - intros [= <- <-] _ (r & Hr & Hrun & Hs & Hu & Ht). rewrite Er in Hr. injection Hr as <-.
    rewrite (proj2 (owned_spec _ _ _)) in Eo; done.
Qed.

Lemma own_fail_settles id token error m d d' x :
  fail_batch id uuid token error m d = (d', x) -> settles x = true -> ~ claims d' id token.
Proof.
  unfold fail_batch. destruct (batches d !! id) as [row|] eqn:Er.
  2:{ intros [= <- <-] _ (r & Hr & _). congruence. }
  destruct (owned uuid token row) eqn:Eo; cbn [negb].
  - intros H _ (r & Hr & _ & Hs & _). revert H. destruct (status row) eqn:Est; intros [= <- <-]; try congruence.
    cbn in Hr. rewrite lookup_insert_eq in Hr. injection Hr as <-. cbn in Hs. by destruct (_ >=? m).
  - intros [= <- <-] _ (r & Hr & Hrun & Hs & Hu & Ht). rewrite Er in Hr. injection Hr as <-.
    rewrite (proj2 (owned_spec _ _ _)) in Eo; done.
Qed.

End claims.

(** ** The store as a world *)

Inductive Delivery := Delivered | RequestLost | ReplyLost.
(** What happens up to a request: transactions of others, and whether the request
    and its answer arrive. *)
Record Turn (D : Type) := mkTurn { tn_before : D -> D; tn_delivery : Delivery; tn_clock : Z }.
Arguments mkTurn {D}.
Arguments tn_before {D}.
Arguments tn_delivery {D}.
Arguments tn_clock {D}.

Section world.
Context {J : Type} {TV : TomlValues} {E : Type} {OB : Observables} {TC : @TaskCodec J TV E}.
Context {Rng B V A : Type}.
Variable encode_input : EvaluationBatch Rng -> result string B.
Variable decode_input : B -> result string (EvaluationBatch Rng).
Variable nr_samples_of : EvaluationBatch Rng -> usize.
Variable encode_result : BatchResult -> result StoreError (option V * A).
(** The [i]-th token this process draws. *)
Variable uuid_v4 : nat -> string.
Hypothesis uuid_v4_inj : forall i j, uuid_v4 i = uuid_v4 j -> i = j.
Hypothesis encode_result_error : forall r e, encode_result r = Err e -> is_batch_ownership_lost e = false.

Notation db := (DB B V A).

(** The tasks of the run stand still; node assignments and performance snapshots
    are not part of this world. *)
Record EvalWorld := mkEvalWorld {
  vw_db : db;
  vw_turns : list (Turn db);
  vw_clock : Z;
  vw_tokens : nat;
  vw_tasks : @TaskTables J TV E OB TC;
  vw_progress : option (option i64 * RunSampleProgress)
}.
Definition set_vw_db (d : db) (w : EvalWorld) : EvalWorld :=
  mkEvalWorld d (vw_turns w) (vw_clock w) (vw_tokens w) (vw_tasks w) (vw_progress w).

Definition connection_lost : StoreError := Database "connection lost".
Definition request {X} (f : db -> db * result StoreError X) (w : EvalWorld) : EvalWorld * result StoreError X :=
  match vw_turns w with
  | [] => let '(d, r) := f (vw_db w) in (set_vw_db d w, r)
  | t :: ts =>
      let d := tn_before t (vw_db w) in
      let w := mkEvalWorld d ts (vw_clock w + tn_clock t) (vw_tokens w) (vw_tasks w) (vw_progress w) in
      match tn_delivery t with
      | RequestLost => (w, Err connection_lost)
      | Delivered => let '(d, r) := f d in (set_vw_db d w, r)
      | ReplyLost => (set_vw_db (f d).1 w, Err connection_lost)
      end
  end.

Definition claim_of (token : string) (c : Z * Z * bool * EvaluationBatch Rng) : @BatchClaim Rng :=
  let '(id, task, training, b) := c in
  mkBatchClaim (eb_stratification b) id token task training (eb_samples b) (eb_accumulator b).

#[export] Instance eval_world : @EvaluatorWorld J TV E OB TC Rng EvalWorld := {
  ew_now := vw_clock;
  ew_new_token w :=
    (mkEvalWorld (vw_db w) (vw_turns w) (vw_clock w) (S (vw_tokens w)) (vw_tasks w) (vw_progress w), uuid_v4 (vw_tokens w));
  ew_claim_batch run uuid token :=
    request (fun d => let '(d, r) := claim_batch decode_input run uuid token ∅ d in
                      (d, let? c := r in Ok (claim_of token <$> c)));
  ew_wait_for_work run w := (w, None);
  ew_submit_batch_results id uuid token r ms := request (submit_batch_results id uuid token (encode_result r) ms);
  ew_fail_batch id uuid token message max := request (fail_batch id uuid token message max);
  ew_release_untracked_claims run uuid tokens :=
    request (fun d => let '(d, n) := release_untracked_claims run uuid tokens d in (d, Ok n));
  ew_fail_run_task id reason := request (fun d => (d, Ok tt));
  ew_clear_desired_assignments_for_run run := request (fun d => (d, Ok 0));
  ew_load_run_task id w :=
    request (fun d => (d, let? t := load_run_task id (vw_tasks w) in Ok (st_task <$> t))) w;
  ew_stage_tables w := request (fun d => (d, Ok (vw_tasks w))) w;
  ew_load_run_sample_progress run w := request (fun d => (d, Ok (vw_progress w))) w;
  ew_record_evaluator_performance_snapshot s := request (fun d => (d, Ok tt))
}.

Variables (run : i32) (uuid : string).

Notation foreign := (steps (foreign_step encode_input decode_input nr_samples_of uuid)).

Record eval_world_ok (w : EvalWorld) : Prop := mkEvalWorldOk {
  vk_db : wq_ok (vw_db w);
  vk_turns : Forall (fun t => forall d, foreign d (tn_before t d)) (vw_turns w)
}.

#[export] Instance queue_ledger : @ClaimLedger Rng EvalWorld := {
  valid := eval_world_ok;
  mine w := claims run uuid (vw_db w);
  used w t := exists i, (i < vw_tokens w)%nat /\ t = uuid_v4 i;
  issued c := exists bytes b, decode_input bytes = Ok b /\ bc_stratification c = eb_stratification b /\
                bc_latent_batch c = eb_samples b /\ bc_accumulator c = eb_accumulator b;
  others w w' := exists d, foreign (vw_db w) d /\ w' = set_vw_db d w
}.

Lemma foreign_spec (d d' : db) : foreign d d' -> wq_ok d -> wq_ok d' /\ no_new_claims run uuid d d'.
Proof.
  induction 1 as [d|d d1 d2 Hs IH Hstep]; intros Hok; [split; [done|by intros id t]|].
  destruct (IH Hok) as [Hok1 Hn1]. split; [by eapply foreign_step_ok|].
  intros id t Hc. eapply Hn1, foreign_claims; [exact Hstep|done].
Qed.

(** What holds of a transaction holds of the request, however it is delivered. *)
Lemma request_spec {X} (f : db -> db * result StoreError X) (T : option string) (Q : db -> result StoreError X -> Prop) w w' r :
  eval_world_ok w ->
  (forall d, wq_ok d -> wq_ok (f d).1 /\ (forall id t, claims run uuid (f d).1 id t -> claims run uuid d id t \/ T = Some t) /\
     Q (f d).1 (f d).2) ->
  (forall d e, is_batch_ownership_lost e = false -> Q d (Err e)) ->
  request f w = (w', r) -> moves T w w' /\ Q (vw_db w') r.
Proof.
  intros [Hok Ht] Hf Hlost. unfold request. destruct (vw_turns w) as [|t ts] eqn:Ets.
  - destruct (Hf _ Hok) as (H1 & H2 & H3). destruct (f (vw_db w)) as [d x]. cbn in *. intros [= <- <-].
    split; [|done]. split; [|split]; cbn; [split; cbn; [done|by rewrite Ets]|by eauto|done].
  - apply Forall_cons in Ht as [Ht Hts]. destruct (foreign_spec _ _ (Ht (vw_db w)) Hok) as [Hok1 Hn].
    assert (forall d x, (wq_ok d /\ (forall id t', claims run uuid d id t' -> claims run uuid (tn_before t (vw_db w)) id t' \/ T = Some t') /\ Q d x) ->
      moves T w (mkEvalWorld d ts (vw_clock w + tn_clock t) (vw_tokens w) (vw_tasks w) (vw_progress w)) /\ Q d x) as Hgo.
    { intros d x (H1 & H2 & H3). split; [|done]. split; [by split|]. split; cbn; [by eauto|].
      intros id t' Hc. destruct (H2 _ _ Hc) as [Hc'|?]; [left; by apply Hn|by right]. }
    destruct (Hf _ Hok1) as (H1 & H2 & H3). destruct (tn_delivery t).
    + destruct (f (tn_before t (vw_db w))) as [d x]. cbn in *. intros [= <- <-]. by apply Hgo.
    + intros [= <- <-]. apply Hgo. split_and!; [done|by left|by apply Hlost].
    + intros [= <- <-]. apply Hgo. split_and!; [done..|by apply Hlost].
Qed.

Lemma request_quiet {X} (f : db -> db * result StoreError X) :
  (forall d : db, wq_ok d -> wq_ok (f d).1 /\ no_new_claims run uuid d (f d).1) -> quiet (request f).
Proof.
  intros Hf w w' r Hv H. eapply (request_spec f None (fun _ _ => True)); [done| |done|exact H].
  intros d Hd. destruct (Hf d Hd) as [? Hn]. split_and!; [done| |done]. intros id t Hc. left. by apply Hn.
Qed.
Lemma request_read_quiet {X} (r : result StoreError X) : quiet (request (fun d : db => (d, r))).
Proof. apply request_quiet. intros d Hd. split; [done|by intros id t]. Qed.

#[export] Instance queue_ledger_laws (info : EvaluatorInfo) :
  ei_run_id info = run -> ei_node_uuid info = uuid ->
  @ClaimLedgerLaws J TV E OB TC Rng EvalWorld eval_world info queue_ledger.
Proof.
  intros Hrun Huuid. split; cbn; rewrite ?Hrun, ?Huuid.
  - intros w w' (d & Hd & ->) [Hok Ht]. destruct (foreign_spec _ _ Hd Hok) as [? Hn].
    split; [by split|]. split; [done|]. intros id t Hc. left. by apply Hn.
  - intros w w' t Hv [= <- <-]. split_and!.
    + destruct Hv. split; [by split|]. split; cbn; [|by left].
      intros t' (i & Hi & ->). exists i. split; [lia|done].
    + intros (i & Hi & Heq). apply uuid_v4_inj in Heq. lia.
    + exists (vw_tokens w). cbn. split; [lia|done].
  - intros token w w' r Hv _ H.
    refine (request_spec _ (Some token) (fun d x => match x with
       | Ok (Some c) => issued c /\ bc_claim_token c = token /\ (forall id, claims run uuid d id token -> id = bc_batch_id c)
       | Ok None => forall id, ~ claims run uuid d id token
       | Err _ => True end) w w' r Hv _ (fun _ _ _ => Logic.I) H).
    intros d Hd. destruct (claim_batch decode_input run uuid token ∅ d) as [d' x] eqn:Ec. cbn.
    pose proof (claim_batch_ok decode_input run uuid token ∅ d Hd) as Hok. rewrite Ec in Hok.
    destruct (own_claim _ _ _ _ _ _ _ _ Hd Ec) as [Hnew Hx]. split_and!; [done| |].
    { intros id t Hc. destruct (Hnew _ _ Hc) as [?| ->]; [by left|by right]. }
    destruct x as [[[[[id task] training] b]|]|e]; cbn in *; [|done..]. split_and!; [|done..].
    apply claim_reads in Ec as [bytes Hb]. by exists bytes, b.
  - intros w w' r Hv [= <- _]. by apply moves_refl.
  - intros id token res ms w w' r Hv H.
    refine (request_spec _ None (fun d x => settles x = true -> ~ claims run uuid d id token) w w' r Hv _ _ H).
    + intros d Hd. split_and!; [by apply submit_ok| |].
      * destruct (submit_batch_results _ _ _ _ _ d) as [d' x] eqn:Es. intros i t Hc. left. by eapply submit_claims.
      * destruct (submit_batch_results _ _ _ _ _ d) as [d' x] eqn:Es. eapply own_submit_settles; [by apply encode_result_error|exact Es].
    + intros d e He Hs. cbn in Hs. congruence.
  - intros id token message max w w' r Hv H.
    refine (request_spec _ None (fun d x => settles x = true -> ~ claims run uuid d id token) w w' r Hv _ _ H).
    + intros d Hd. split_and!; [by apply fail_ok| |].
      * destruct (fail_batch _ _ _ _ _ d) as [d' x] eqn:Es. intros i t Hc. left. by eapply fail_claims.
      * destruct (fail_batch _ _ _ _ _ d) as [d' x] eqn:Es. by eapply own_fail_settles.
    + intros d e He Hs. cbn in Hs. congruence.
  - intros tokens. apply request_quiet. intros d Hd. cbn. split; [|by apply update_where_claims].
    apply (wq_step_ok encode_input decode_input nr_samples_of d); [done|]. apply step_untracked.
  - intros id reason. apply request_read_quiet.
  - apply request_read_quiet.
  - intros id w w' r Hv H. by eapply request_read_quiet.
  - intros w w' r Hv H. by eapply request_read_quiet.
  - intros w w' r Hv H. by eapply request_read_quiet.
  - intros s. apply request_read_quiet.
Qed.
End world.
