(* ===== verification/EvaluatorExamples.v ===== *)
(** An evaluator runner on the work queue: a claim whose answer is lost, its
    recovery, an evaluation, a submission and the end of the runner; the instances
    of its properties. *)
From S2P Require Import Prelude Floats Errors Domain Batch Config LatentBatch Feedback Generation AccumulatorTrait Scalar Stratification Vector Gammaloop AccumulatorState Extraction Evaluation Raster WorkQueue Metrics Queue Tasks Runner TaskStore TaskQueue StageContext Evaluator EvaluatorLaws EvaluatorDrain EvaluatorInstance.

#[local] Instance ex_libm : Libm := {| hypot a _ := a; powf a _ := a; powi a _ := a |}.
#[local] Instance ex_observables : Observables := {|
  bundle := unit;
  histogram := unit;
  bundle_default := tt;
  histograms _ := [];
  histogram_bins _ := [];
  histogram_sample_count _ := 0;
  bundle_merge_in_place _ _ := Ok tt
|}.
#[local] Instance ex_toml : TomlValues := {| toml := unit; TFloat _ := tt; TInteger _ := tt |}.
#[local] Instance ex_states : @SavedStates unit := {| state_is_null _ := false; state_has_grid _ := true |}.

(** ** The task *)

Definition ex_timing : TimingModel := mkTiming 0%float 0%float 0%float 0%float 0.
Definition ex_config : @SamplingConfig unit :=
  mkSamplingConfig None (NaiveMonteCarlo (mkNaiveParams 0 0 ex_timing ex_timing ex_timing None None)) None None.
Definition ex_accumulator : AccumulatorConfig := CVector ["value"%string] (Component "value") None MaxOrder2.
Definition ex_sample : @RunTaskSpec unit ex_toml unit :=
  Sample Pooled true (mkStopCondition None (Some 10) None None None) None (Some (SrcConfig _ tt))
    (Some (SrcConfig _ ex_config)) (Some (SrcConfig _ ex_accumulator)) None None.

#[local] Instance ex_codec : @TaskCodec unit ex_toml unit := {|
  json_value := unit;
  ControllerTaskOutput := unit;
  encode_task _ := Ok tt;
  decode_task _ := Ok ex_sample;
  encode_measurement _ := Ok tt;
  decode_measurement _ := Ok (MeasurementFailed "");
  encode_controller _ := Ok tt;
  decode_controller _ := Ok tt;
  canonical_task_toml _ := Ok ""%string
|}.
Definition ex_root : @RunStageSnapshot unit unit ex_observables := mkStageSnapshot None "root" None true None None (Some tt) [].
Definition ex_tasks : @TaskTables unit ex_toml unit ex_observables ex_codec :=
  (activate_next_run_task 1 1 (create_run 0 "run" ex_root [mkTaskInput None ex_sample] None empty_tables).1).1.

(** ** Engines over one-dimensional points *)

Definition ex_empty : VectorAccumulatorState := vector_from_config ["value"%string] (Component "value") None MaxOrder2.
Definition ex_result (points : list Point) : BatchResult :=
  mkBatchResult None
    (AVector (foldl (fun a p => (ingest_vector_with_details [1%float] p None None a).1) ex_empty points)).

#[local] Instance ex_engines : @Engines unit unit ex_observables unit unit unit unit := {
  build_evaluator _ := Ok tt;
  resolve_domain _ := Ok (domain_continuous 1);
  evaluator_config_eqb _ _ := true;
  build_transform _ _ := Ok tt;
  build_materializer _ _ _ := Ok tt;
  mat_validate_domain _ _ := Ok tt;
  materialize_batch l _ := (tt, Returned (map_err (fun _ => Eval "malformed batch") (as_batch (payload l))));
  transform_apply points _ := (tt, Returned (Ok points));
  eval_batch points _ _ _ := (tt, Returned (Ok (ex_result points)));
  ev_diagnostics _ := (tt, tt)
}.

(** ** The store: two batches of three samples *)

Fixpoint ex_uuid (n : nat) : string := match n with O => "t"%string | S n => String.append "t" (ex_uuid n) end.
Lemma ex_uuid_inj i j : ex_uuid i = ex_uuid j -> i = j.
Proof.
  revert j. induction i as [|i IH]; intros [|j]; cbn; try done.
  - destruct j; done.
  - destruct i; done.
  - intros [= H]. f_equal. by apply IH.
Qed.

Definition ex_encode (b : EvaluationBatch unit) : result string (EvaluationBatch unit) := Ok b.
Definition ex_encode_result (r : BatchResult) : result StoreError (option unit * BatchResult) := Ok (None, r).
Lemma ex_encode_result_error r e : ex_encode_result r = Err e -> is_batch_ownership_lost e = false.
Proof. done. Qed.

Notation ex_db := (DB (EvaluationBatch unit) unit BatchResult).
Definition ex_batch (n : nat) : EvaluationBatch unit :=
  mkEvaluationBatch None
    (default (mkLatentBatch 0 (IndexedBatch [] [] [] [] [])) (latent_from_batch (replicate n (point_new [0.5%float] [] 1%float))))
    ex_accumulator.
Definition ex_inserted : ex_db :=
  (insert_batches ex_encode (fun b => nr_samples (eb_samples b)) 1 1 false [5; 6] [ex_batch 3; ex_batch 2]
     (mkDB ∅ ∅ ∅ {["n1"%string := mkNode "u1" 100 (Some 1) (Some Evaluator)]} ∅ 10)).1.

(** The answer to the second request, the first claim, is lost. *)
Definition ex_turns : list (Turn ex_db) :=
  [mkTurn (fun d => d) Delivered 0; mkTurn (fun d => (reclaim_abandoned_batches 1 d).1) ReplyLost 5].
Definition ex_world : @EvalWorld unit ex_toml unit ex_observables ex_codec (EvaluationBatch unit) unit BatchResult :=
  mkEvalWorld ex_inserted ex_turns 0 0 ex_tasks None.

#[local] Instance ex_eval_world : @EvaluatorWorld unit ex_toml unit ex_observables ex_codec unit
    (@EvalWorld unit ex_toml unit ex_observables ex_codec (EvaluationBatch unit) unit BatchResult) :=
  eval_world ex_encode ex_encode_result ex_uuid.

Definition ex_info : EvaluatorInfo := mkEvaluatorInfo 1 "n1" "u1" (domain_continuous 1) 1000 "epoch" 3.

Notation ex_state := (@EvaluatorRunner unit ex_observables unit
  (@EvalWorld unit ex_toml unit ex_observables ex_codec (EvaluationBatch unit) unit BatchResult) unit unit unit
  * @EvalWorld unit ex_toml unit ex_observables ex_codec (EvaluationBatch unit) unit BatchResult)%type.

Definition ex_start : ex_state := (evaluator_runner_new 0 tt tt, ex_world).
(** the claim whose answer is lost; its recovery, evaluation and submission *)
Definition ex_failed : ex_state := (tick ex_info ex_start).1.
Definition ex_evaluated : ex_state := (tick ex_info ex_failed).1.
Definition ex_submitted : ex_state := run_submit ex_evaluated.
Definition ex_stopped : ex_state := (stop ex_info 2 ex_submitted).1.

Example ex_claim_lost :
  (tick ex_info ex_start).2 = Err (EvStore connection_lost) /\
  (fun r => (WorkQueue.status r, claim_token r)) <$> batches (vw_db ex_failed.2) !! 5 = Some (Claimed, Some "t"%string) /\
  tracked_tokens ex_failed.1 = ["t"%string].
Proof. vm_compute. done. Qed.

Example ex_batch_evaluated :
  (tick ex_info ex_failed).2 = Ok tt /\ tracked_tokens ex_evaluated.1 = ["tt"; "t"]%string.
Proof. vm_compute. done. Qed.

Example ex_all_done :
  (stop ex_info 2 ex_submitted).2 = Some (Ok tt) /\
  map (fun id => (fun r => WorkQueue.status r) <$> batches (vw_db ex_stopped.2) !! id) [5; 6] = [Some Completed; Some Completed].
Proof. vm_compute. done. Qed.

(** ** The properties on this run *)

#[local] Instance ex_ledger : @ClaimLedger unit
    (@EvalWorld unit ex_toml unit ex_observables ex_codec (EvaluationBatch unit) unit BatchResult) :=
  queue_ledger ex_encode ex_encode (fun b => nr_samples (eb_samples b)) ex_uuid 1 "u1".
#[local] Instance ex_ledger_laws : @ClaimLedgerLaws unit ex_toml unit ex_observables ex_codec unit _ ex_eval_world ex_info ex_ledger :=
  queue_ledger_laws ex_encode ex_encode _ ex_encode_result ex_uuid ex_uuid_inj ex_encode_result_error 1 "u1" ex_info eq_refl eq_refl.

Lemma ex_inserted_ok : wq_ok ex_inserted.
Proof. apply insert_batches_ok. destruct (@empty_db_ok (EvaluationBatch unit) unit BatchResult). by constructor. Qed.

Lemma ex_unclaimed id r : batches ex_inserted !! id = Some r -> WorkQueue.status r = WorkQueue.Pending.
Proof.
  intros Hr%elem_of_map_to_list%list_elem_of_In.
  assert (forallb (fun p => bool_decide (WorkQueue.status p.2 = WorkQueue.Pending)) (map_to_list (batches ex_inserted)) = true) as Hp
    by (vm_compute; reflexivity).
  rewrite forallb_forall in Hp. by apply Hp, bool_decide_eq_true in Hr.
Qed.

Lemma ex_started : started ex_start.
Proof.
  split_and!.
  - split; [apply ex_inserted_ok|]. cbn. apply Forall_cons. split; [intros d; apply steps_refl|].
    apply Forall_singleton. intros d. eapply steps_step; [apply steps_refl|]. exact (foreign_reclaim _ _ _ _ d 1).
  - intros id t (r & Hr & _ & Hs & _). apply ex_unclaimed in Hr. congruence.
  - by exists 0, tt, tt.
Qed.

Lemma ex_failed_reachable : reachable ex_info ex_failed.
Proof.
  exists ex_start. split; [exact ex_started|]. eapply steps_step; [apply steps_refl|].
  eapply does_tick. apply surjective_pairing.
Qed.
Lemma ex_submitted_reachable : reachable ex_info ex_submitted.
Proof.
  destruct ex_failed_reachable as (s0 & Hs0 & Hs). exists s0. split; [exact Hs0|].
  eapply steps_step; [eapply steps_step; [exact Hs|]|apply runs_submit].
  eapply does_tick. apply surjective_pairing.
Qed.
Lemma ex_evaluated_reachable : reachable ex_info ex_evaluated.
Proof.
  destruct ex_failed_reachable as (s0 & Hs0 & Hs). exists s0. split; [exact Hs0|].
  eapply steps_step; [exact Hs|]. eapply does_tick. apply surjective_pairing.
Qed.

(** After the lost answer the claim is tracked by its token. *)
Lemma claims_are_never_lost_witness : "t"%string ∈ tracked_tokens ex_failed.1.
Proof.
  apply (claims_are_never_lost ex_info ex_failed 5 "t" ex_failed_reachable).
  destruct (batches (vw_db ex_failed.2) !! 5) as [r|] eqn:Er; [|by vm_compute in Er].
  exists r. split; [exact Er|]. vm_compute in Er. injection Er as <-. done.
Defined.

Lemma submissions_are_checked_witness :
  exists x, sb_submission (er_submit ex_evaluated.1) = Some x /\ submission_ok x.
Proof.
  destruct (submissions_are_checked ex_info ex_evaluated ex_evaluated_reachable) as [H _].
  destruct (sb_submission (er_submit ex_evaluated.1)) as [x|] eqn:Ex; [|by vm_compute in Ex].
  exists x. split; [done|exact H].
Defined.

Lemma stop_drains_witness :
  exists s', stop ex_info 2 ex_submitted = (s', Some (Ok tt)) /\
    work_left s'.1 = false /\ is_idle (er_submit s'.1) = true /\ forall id t, ~ mine s'.2 id t.
Proof.
  destruct (stop_drains ex_info ex_submitted ex_submitted_reachable) as (s' & x & Hs & H).
  exists s'. destruct x as [[]|e].
  - split; [exact Hs|]. exact (H eq_refl).
  - exfalso. assert ((stop ex_info 2 ex_submitted).2 = Some (Ok tt)) as Hok by apply ex_all_done.
    rewrite Hs in Hok. done.
Defined.
