(* ===== verification/NodeRunner.v ===== *)
(** src/runners/node_runner/mod.rs, active_worker.rs and the supervision half of
    reconcile.rs: one worker process. It renews its lease, polls the assignment
    the control plane wants, runs one role at a time and ticks it until the
    assignment changes or the role ends.

    The world [W] (the store, the clock, signals, the channel of the lease task) is
    an interface, and so is the role behind [dyn RoleRunner]. Building a role is
    the argument [build_runner_for_target]; RoleRunners.v defines it. The
    lease task is a state machine of its own at the end of the file. Durations and
    instants are numbers of nanoseconds. Log records are left out. *)
From Stdlib Require Import SpecFloat FloatOps.
From S2P Require Import Prelude Floats Errors Domain Batch Config LatentBatch Generation AccumulatorTrait Scalar Stratification Vector Gammaloop AccumulatorState Extraction Raster Metrics WorkQueue Assignments Tasks TaskStore StageContext.

(** ** [RetryState] *)

Record RetryState := mkRetry {
  blocked_target : option AssignmentTarget;
  failure_target : option AssignmentTarget;
  (** a [u32] *)
  consecutive_failures : Z
}.
Definition retry_default : RetryState := mkRetry None None 0.

Inductive StartErrorDisposition := Propagate | Retry | Counted (blocked : bool).

Definition u32_saturating_add (a b : Z) : Z := Z.min (2 ^ 32 - 1) (a + b).

Definition reset_for_desired_target_change (desired_target : option AssignmentTarget) (s : RetryState) : RetryState :=
  if bool_decide (desired_target = failure_target s) then s
  else mkRetry (if bool_decide (blocked_target s = desired_target) then blocked_target s else None) desired_target 0.

Definition is_blocked (target : AssignmentTarget) (s : RetryState) : bool := bool_decide (blocked_target s = Some target).

Definition note_failure (target : AssignmentTarget) (max_consecutive_failures : Z) (s : RetryState) : RetryState * bool :=
  let failures :=
    if bool_decide (failure_target s = Some target) then u32_saturating_add (consecutive_failures s) 1 else 1 in
  if max_consecutive_failures <=? failures then (mkRetry (Some target) (Some target) failures, true)
  else (mkRetry (blocked_target s) (Some target) failures, false).

Definition note_start_error (target : AssignmentTarget) (error : StoreError) (max_consecutive_failures : Z) (s : RetryState)
    : RetryState * StartErrorDisposition :=
  if is_database_error error then (s, Propagate)
  else if is_retry_activation error then (s, Retry)
  else let '(s, blocked) := note_failure target max_consecutive_failures s in (s, Counted blocked).

(** ** Durations *)

Definition round_half_even (n d : Z) : Z :=
  let q := n / d in
  let r := n mod d in
  if 2 * r <? d then q else if d <? 2 * r then q + 1 else if Z.even q then q else q + 1.

(** [Duration::from_secs_f64]; [None] is its panic on a value that is negative,
    not a number or out of range. *)
Definition duration_from_secs_f64 (x : f64) : option Z :=
  match Prim2SF x with
  | S754_zero _ => Some 0
  | S754_finite false m e =>
      let n := Z.pos m * nanos_per_sec in
      let nanos := if 0 <=? e then n * 2 ^ e else round_half_even n (2 ^ (- e)) in
      if nanos <? 2 ^ 64 * nanos_per_sec then Some nanos else None
  | _ => None
  end.

Definition as_str (r : WorkerRole) : string :=
  match r with WorkQueue.Evaluator => "evaluator" | SamplerAggregator => "sampler_aggregator" end.

(** The process ends with an error of the store, or by a panic. *)
Inductive NodeExit := ExitError (e : StoreError) | NodePanicked.

Inductive LeaseEvent := LeaseReady | LeaseFatal (startup : bool) (retries : Z) (last_error : string).
(** [try_recv] on the channel of the lease task *)
Inductive Received := Event (e : LeaseEvent) | Empty | Disconnected.
(** what the first [select!] of the process sees *)
Inductive Startup := Interrupted | Announced (e : option LeaseEvent).

Record NodeInfo := mkNodeInfo {
  ni_name : string;
  ni_uuid : string;
  max_consecutive_start_failures : Z;
  reconcile_initial_backoff : Z;
  reconcile_backoff_factor : f64;
  reconcile_max_backoff : Z;
  announce_interval : Z;
  announce_retry_interval : Z;
  announce_failure_timeout : Z
}.

Section node_runner.
Context {J : Type} {TV : TomlValues} {E : Type} {TC : @TaskCodec J TV E}.

Notation StoredTask := (@StoredTask J TV E TC).

Class NodeWorld (W : Type) := {
  nw_now : W -> Z;
  (** time passes *)
  nw_sleep : Z -> W -> W;
  (** time passes until a signal arrives, if one does *)
  nw_sleep_or_signal : Z -> W -> W * bool;
  (** ctrl-c or SIGTERM *)
  nw_signalled : W -> W * bool;
  nw_jitter : W -> W * f64;
  nw_startup : W -> W * Startup;
  nw_try_recv : W -> W * Received;
  nw_get_desired_assignment : string -> W -> W * result StoreError (option AssignmentTarget);
  nw_set_current_assignment : string -> WorkerRole -> i32 -> W -> W * result StoreError unit;
  nw_clear_current_assignment : string -> W -> W * result StoreError unit;
  nw_consume_node_shutdown_request : string -> W -> W * result StoreError bool;
  nw_expire_node_lease : string -> W -> W * result StoreError unit;
  nw_load_active_run_task : i32 -> W -> W * result StoreError (option StoredTask);
  nw_list_run_tasks : i32 -> W -> W * result StoreError (list StoredTask);
  nw_fail_run_task : i64 -> string -> W -> W * result StoreError unit;
  nw_clear_desired_assignments_for_run : i32 -> W -> W * result StoreError Z
}.

(** [dyn RoleRunner] *)
Class RoleRunner (W R : Type) := {
  role_tick : SE (R * W) StoreError bool;
  role_stop : SE (R * W) StoreError unit;
  role_min_tick_time : R -> Z
}.

Context {W R : Type} {NW : NodeWorld W} {RR : RoleRunner W R}.
Context (info : NodeInfo).
Context (build_runner_for_target : AssignmentTarget -> W -> W * result StoreError (option R)).

Record NodeRunner := mkNode {
  (** the worker of the active role is its target *)
  nd_active : option (AssignmentTarget * R);
  nd_retry : RetryState;
  nd_backoff : Z
}.
Definition set_nd_active (x : option (AssignmentTarget * R)) (n : NodeRunner) : NodeRunner := mkNode x (nd_retry n) (nd_backoff n).
Definition set_nd_retry (x : RetryState) (n : NodeRunner) : NodeRunner := mkNode (nd_active n) x (nd_backoff n).
Definition set_nd_backoff (x : Z) (n : NodeRunner) : NodeRunner := mkNode (nd_active n) (nd_retry n) x.

Definition node_new : NodeRunner := mkNode None retry_default (reconcile_initial_backoff info).

Notation M := (SE (NodeRunner * W) NodeExit).

Definition nget {A} (f : NodeRunner -> A) : M A := se_get (fun s => f s.1).
Definition nmodify (f : NodeRunner -> NodeRunner) : M unit := se_modify (fun s => (f s.1, s.2)).
Definition nnow : M Z := fun s => (s, Ok (nw_now s.2)).
Definition nworld {A} (f : W -> W * A) : M A := fun s => let '(w, a) := f s.2 in ((s.1, w), Ok a).
Definition nstore {A} (f : W -> W * result StoreError A) : M A := fun s =>
  let '(w, r) := f s.2 in ((s.1, w), map_err ExitError r).
Definition nsleep (d : Z) : M unit := nworld (fun w => (nw_sleep d w, tt)).

Definition reset_reconcile_backoff : M unit := nmodify (set_nd_backoff (reconcile_initial_backoff info)).

Definition checked_duration (secs : f64) : M Z :=
  match duration_from_secs_f64 secs with Some d => se_ret d | None => se_fail NodePanicked end.

Definition next_reconcile_sleep : M Z :=
  let! current := nget nd_backoff in
  let next_secs := f64_min (as_secs_f64 current * reconcile_backoff_factor info)%float (as_secs_f64 (reconcile_max_backoff info)) in
  let! next := checked_duration next_secs in
  nmodify (set_nd_backoff next) ;!
  let! jitter := nworld nw_jitter in
  checked_duration (f64_max (as_secs_f64 current * jitter)%float 0%float).

Definition current_target (n : NodeRunner) : option AssignmentTarget := fst <$> nd_active n.

Definition sleep_after_database_error : M unit := let! d := next_reconcile_sleep in nsleep d.

(** ** Starting and stopping a role *)

Definition stop_current : M unit := fun '(n, w) =>
  match nd_active n with
  | None => ((n, w), Ok tt)
  | Some (target, r) =>
      let '((_, w), _) := role_stop (r, w) in
      let '(w, _) := nw_clear_current_assignment (ni_uuid info) w in
      ((set_nd_active None n, w), Ok tt)
  end.

(** Both requests are made, their failures logged. *)
Definition fail_task_activation_and_pause_run (run : i32) (task_id : i64) (reason : string) (w : W) : W :=
  let '(w, _) := nw_fail_run_task task_id reason w in
  (nw_clear_desired_assignments_for_run run w).1.

Definition pending_sampler_task (t : StoredTask) : bool :=
  bool_decide (task_state (st_task t) = TPending) && runs_on_sampler_worker (task_spec (st_task t)).

Definition permanent_failure_reason (target : AssignmentTarget) (err : StoreError) : string :=
  String.append (as_str (role target)) (String.append " role permanently failed to start: " (store_error_message err)).

Definition task_to_fail (run : i32) : M (option StoredTask) :=
  let! active := nstore (nw_load_active_run_task run) in
  match active with
  | Some task => se_ret (Some task)
  | None => let! tasks := nstore (nw_list_run_tasks run) in se_ret (find pending_sampler_task tasks)
  end.

(** The role will not be started again: its task fails and the run is paused. *)
Definition give_up_start (target : AssignmentTarget) (err : StoreError) : M unit :=
  let! task := task_to_fail (run_id target) in
  match task with
  | Some task =>
      nworld (fun w => (fail_task_activation_and_pause_run (run_id target) (task_id (st_task task))
                          (permanent_failure_reason target err) w, tt))
  | None => nworld (fun w => ((nw_clear_desired_assignments_for_run (run_id target) w).1, tt))
  end.

Definition build_reconciled_runner (desired_target : option AssignmentTarget) : M (option (AssignmentTarget * R)) :=
  match desired_target with
  | None => se_ret None
  | Some target =>
      let! retry := nget nd_retry in
      if is_blocked target retry then se_ret None
      else
        let! built := nworld (build_runner_for_target target) in
        match built with
        | Ok (Some runner) => se_ret (Some (target, runner))
        | Ok None => se_ret None
        | Err err =>
            let '(retry, disposition) := note_start_error target err (max_consecutive_start_failures info) retry in
            nmodify (set_nd_retry retry) ;!
            match disposition with
            | Propagate => se_fail (ExitError err)
            | Retry => se_ret None
            | Counted now_blocked => se_when now_blocked (give_up_start target err) ;! se_ret None
            end
        end
  end.

Definition note_role_started : M unit := nmodify (set_nd_retry retry_default) ;! reset_reconcile_backoff.

(** The runner is dropped when its registration fails. *)
Definition start (target : AssignmentTarget) (runner : R) : M unit :=
  nstore (nw_set_current_assignment (ni_uuid info) (role target) (run_id target)) ;!
  nmodify (set_nd_active (Some (target, runner))) ;!
  note_role_started.

Definition reconcile (desired_target : option AssignmentTarget) : M unit :=
  nmodify (fun n => set_nd_retry (reset_for_desired_target_change desired_target (nd_retry n)) n) ;!
  let! current := nget current_target in
  if bool_decide (current = desired_target) then se_ret tt
  else
    reset_reconcile_backoff ;!
    stop_current ;!
    let! built := build_reconciled_runner desired_target in
    match built with Some (target, runner) => start target runner | None => se_ret tt end.

(** ** Ends of a role *)

Definition note_start_failure (target : AssignmentTarget) : M bool := fun '(n, w) =>
  let '(retry, now_blocked) := note_failure target (max_consecutive_start_failures info) (nd_retry n) in
  ((set_nd_retry retry n, w), Ok now_blocked).

Definition finish_current_assignment : M unit :=
  nmodify (set_nd_retry retry_default) ;! reset_reconcile_backoff ;! stop_current.

Definition role_failure_reason (target : AssignmentTarget) (err : StoreError) : string :=
  String.append (as_str (role target)) (String.append " role failed: " (store_error_message err)).

Definition fail_current_assignment (target : AssignmentTarget) (err : StoreError) : M unit :=
  let! now_blocked := note_start_failure target in
  reset_reconcile_backoff ;!
  stop_current ;!
  if negb now_blocked && bool_decide (role target = WorkQueue.Evaluator) then se_ret tt
  else
    let! active := nstore (nw_load_active_run_task (run_id target)) in
    match active with
    | Some task =>
        let! _ := nworld (nw_fail_run_task (task_id (st_task task)) (role_failure_reason target err)) in se_ret tt
    | None => se_ret tt
    end ;!
    let! _ := nstore (nw_clear_desired_assignments_for_run (run_id target)) in
    se_ret tt.

(** ** The loop *)

(** [Err(err) if err.is_database_error()] puts the node to sleep: [None]. *)
Definition attempt {A} (m : M A) : M (option A) := fun s =>
  match m s with
  | (s, Ok a) => (s, Ok (Some a))
  | (s, Err (ExitError e)) =>
      if is_database_error e then (sleep_after_database_error ;! se_ret None) s else (s, Err (ExitError e))
  | (s, Err NodePanicked) => (s, Err NodePanicked)
  end.

Definition poll_lease_failure : M bool :=
  let! received := nworld nw_try_recv in
  match received with
  | Event LeaseReady | Empty => se_ret false
  | Event (LeaseFatal _ _ _) => se_ret true
  | Disconnected => se_fail (ExitError (Internal "lease renewal task exited unexpectedly"))
  end.

Inductive Polled := PollRetry | PollShutdown | PollDone.

Definition control_poll : M Polled :=
  let! shutdown_requested := attempt (nstore (nw_consume_node_shutdown_request (ni_uuid info))) in
  match shutdown_requested with
  | None => se_ret PollRetry
  | Some true => se_ret PollShutdown
  | Some false =>
      let! desired := attempt (nstore (nw_get_desired_assignment (ni_name info))) in
      match desired with
      | None => se_ret PollRetry
      | Some desired_target =>
          let! reconciled := attempt (reconcile desired_target) in
          se_ret (match reconciled with None => PollRetry | Some _ => PollDone end)
      end
  end.

Definition tick_role (target : AssignmentTarget) (r : R) : M (result StoreError bool) := fun '(n, w) =>
  let '((r, w), outcome) := role_tick (r, w) in
  ((set_nd_active (Some (target, r)) n, w), Ok outcome).

(** [Ok(done)] or what a failed tick comes to. *)
Definition after_tick (target : AssignmentTarget) (outcome : result StoreError bool) : M bool :=
  match outcome with
  | Ok done => se_ret done
  | Err err =>
      if is_database_error err then sleep_after_database_error ;! se_ret false
      else if is_retry_activation err then finish_current_assignment ;! se_ret false
      else fail_current_assignment target err ;! reset_reconcile_backoff ;! se_ret false
  end.

Inductive Control := Break | Continue (next_control_poll : Z).

Definition poll_at_once : M Control :=
  reset_reconcile_backoff ;! let! now := nnow in se_ret (Continue now).

Definition run_role (next tick_started : Z) (target : AssignmentTarget) (r : R) : M Control :=
  let! outcome := tick_role target r in
  let! done := after_tick target outcome in
  if (done : bool) then finish_current_assignment ;! poll_at_once
  else
    let! active := nget nd_active in
    match active with
    | None => poll_at_once
    | Some (_, r) =>
        let! now := nnow in
        let elapsed := Z.max 0 (now - tick_started) in
        if elapsed <? role_min_tick_time r then
          let! signalled := nworld (nw_sleep_or_signal (role_min_tick_time r - elapsed)) in
          se_ret (if (signalled : bool) then Break else Continue next)
        else se_ret (Continue next)
    end.

Definition idle (next : Z) : M Control :=
  let! d := next_reconcile_sleep in
  let! signalled := nworld (nw_sleep_or_signal d) in
  se_ret (if (signalled : bool) then Break else Continue next).

Definition CONTROL_POLL_INTERVAL : Z := 250 * 10 ^ 6.

Definition poll_if_due (next now : Z) : M (Polled * Z) :=
  if next <=? now then
    let! polled := control_poll in
    match polled with
    | PollDone => let! now := nnow in se_ret (PollDone, now + CONTROL_POLL_INTERVAL)
    | _ => se_ret (polled, next)
    end
  else se_ret (PollDone, next).

(** One iteration. *)
Definition loop_body (next_control_poll : Z) : M Control :=
  let! signalled := nworld nw_signalled in
  if (signalled : bool) then se_ret Break
  else
    let! tick_started := nnow in
    let! lost := poll_lease_failure in
    if (lost : bool) then se_ret Break
    else
      let! now := nnow in
      let! polled := poll_if_due next_control_poll now in
      match polled with
      | (PollShutdown, _) => se_ret Break
      | (PollRetry, next) => se_ret (Continue next)
      | (PollDone, next) =>
          let! active := nget nd_active in
          match active with
          | Some (target, r) => run_role next tick_started target r
          | None => idle next
          end
      end.

(** The loop ends by [Break] or with an error; [None] when [fuel] iterations did
    not end it. *)
Fixpoint run_loop (fuel : nat) (next : Z) (s : NodeRunner * W) : (NodeRunner * W) * option (result NodeExit unit) :=
  match fuel with
  | O => (s, None)
  | S fuel =>
      match loop_body next s with
      | (s, Err e) => (s, Some (Err e))
      | (s, Ok Break) => (s, Some (Ok tt))
      | (s, Ok (Continue next)) => run_loop fuel next s
      end
  end.

Definition wait_for_initial_lease (startup : Startup) : result StoreError bool :=
  match startup with
  | Interrupted => Ok false
  | Announced (Some LeaseReady) => Ok true
  | Announced (Some (LeaseFatal _ _ _)) => Ok false
  | Announced None => Err (Internal "lease renewal task exited before startup completed")
  end.

Definition expire_lease (s : NodeRunner * W) : NodeRunner * W := (s.1, (nw_expire_node_lease (ni_uuid info) s.2).1).

(** An error of the loop leaves at once: no role is stopped, no lease given
    back. *)
Definition node_run (fuel : nat) (w : W) : (NodeRunner * W) * option (result NodeExit unit) :=
  let '(w, startup) := nw_startup w in
  match wait_for_initial_lease startup with
  | Err e => ((node_new, w), Some (Err (ExitError e)))
  | Ok false => (expire_lease (node_new, w), Some (Ok tt))
  | Ok true =>
      match run_loop fuel (nw_now w) (node_new, w) with
      | (s, Some (Ok _)) => (expire_lease (stop_current s).1, Some (Ok tt))
      | outcome => outcome
      end
  end.

End node_runner.

(** ** The lease task *)

Record LeaseState := mkLease {
  ls_startup : bool;
  announce_failures : Z;
  announce_failed_at : option Z
}.
Definition lease_default : LeaseState := mkLease true 0 None.

Inductive LeaseNext := RenewAfter (d : Z) | GaveUp.

(** What a round does with the outcome of its announcement (a request of more
    than five seconds is a database error). [now] is read for the first failure,
    [later] for the time that has passed since. *)
Definition lease_round (info : NodeInfo) (announced : result StoreError unit) (now later : Z) (s : LeaseState)
    : LeaseState * option LeaseEvent * LeaseNext :=
  match announced with
  | Ok _ => (mkLease false 0 None, if ls_startup s then Some LeaseReady else None, RenewAfter (announce_interval info))
  | Err err =>
      let failures := u32_saturating_add (announce_failures s) 1 in
      let failed_at := default now (announce_failed_at s) in
      let s := mkLease (ls_startup s) failures (Some failed_at) in
      if announce_failure_timeout info <=? Z.max 0 (later - failed_at)
      then (s, Some (LeaseFatal (ls_startup s) failures (store_error_message err)), GaveUp)
      else (s, None, RenewAfter (announce_retry_interval info))
  end.

Record LeaseRound := mkRound { lr_announced : result StoreError unit; lr_now : Z; lr_later : Z }.

(** The events of the first rounds of the task; it ends when it gave up. *)
Fixpoint lease_events (info : NodeInfo) (rounds : list LeaseRound) (s : LeaseState) : list LeaseEvent :=
  match rounds with
  | [] => []
  | r :: rounds =>
      match lease_round info (lr_announced r) (lr_now r) (lr_later r) s with
      | (s, event, GaveUp) => option_list event
      | (s, event, RenewAfter _) => option_list event ++ lease_events info rounds s
      end
  end.
