(* ===== verification/NodeLaws.v ===== *)
(** What the supervisor of src/runners/node_runner guarantees whatever the store
    answers and whatever its roles do: the budget of failed starts, and the role
    it runs after each poll. *)
From S2P Require Import Prelude Floats Errors Domain Batch Config LatentBatch Generation AccumulatorTrait Scalar Stratification Vector Gammaloop AccumulatorState Extraction Raster Metrics WorkQueue Assignments Tasks TaskStore StageContext NodeRunner.

(** ** The budget *)

(** The error counts as a failed start. *)
Definition counted (err : StoreError) : bool := negb (is_database_error err) && negb (is_retry_activation err).

Definition exhausted (limit failures : Z) : bool := (0 <? failures) && (limit <=? failures).

(** Failures are counted up to the limit; at the limit, and only there, their
    target is blocked. *)
Record retry_ok (limit : Z) (s : RetryState) : Prop := {
  rt_range : 0 <= consecutive_failures s <= Z.max 1 limit;
  rt_target : 0 < consecutive_failures s -> failure_target s <> None;
  rt_blocked : blocked_target s = if exhausted limit (consecutive_failures s) then failure_target s else None
}.
(** The failures counted are those of [target], which is not blocked. *)
Definition may_fail (target : AssignmentTarget) (s : RetryState) : Prop :=
  (failure_target s = Some target \/ failure_target s = None /\ consecutive_failures s = 0) /\ is_blocked target s = false.

Lemma retry_default_ok limit : retry_ok limit retry_default.
Proof. split; cbn; [lia|lia|done]. Qed.

Lemma reset_ok limit d s : retry_ok limit s -> retry_ok limit (reset_for_desired_target_change d s).
Proof.
  intros Hs. unfold reset_for_desired_target_change. case_bool_decide as Hd; [done|].
  split; cbn; [lia|lia|]. case_bool_decide as Hb; [|done]. rewrite Hb.
  pose proof (rt_blocked _ _ Hs) as Hbl. rewrite Hb in Hbl. destruct (exhausted _ _); congruence.
Qed.

Lemma reset_may_fail limit t s :
  retry_ok limit s -> is_blocked t (reset_for_desired_target_change (Some t) s) = false ->
  may_fail t (reset_for_desired_target_change (Some t) s).
Proof.
  intros Hs Hb. split; [left|done]. unfold reset_for_desired_target_change in *. by case_bool_decide.
Qed.

Lemma may_fail_low limit t s :
  retry_ok limit s -> may_fail t s ->
  blocked_target s = None /\ (consecutive_failures s = 0 \/ consecutive_failures s < limit).
Proof.
  intros [Hr Ht Hbl] [Htarget Hb]. unfold is_blocked in Hb. apply bool_decide_eq_false in Hb.
  assert (blocked_target s = None) as Hnone.
  { rewrite Hbl in Hb |- *. destruct (exhausted _ _) eqn:Ex; [|done]. destruct Htarget as [Hf|[Hf ?]]; [by destruct Hb|done]. }
  split; [done|]. rewrite Hbl in Hnone. destruct (exhausted _ _) eqn:Ex.
  - apply andb_true_iff in Ex as [Hc _]. apply Z.ltb_lt in Hc. by specialize (Ht Hc).
  - unfold exhausted in Ex. destruct (Z.ltb_spec 0 (consecutive_failures s)); cbn in Ex; [|lia].
    apply Z.leb_gt in Ex. by right.
Qed.

Lemma note_failure_ok limit t s s' b :
  retry_ok limit s -> may_fail t s -> note_failure t limit s = (s', b) ->
  retry_ok limit s' /\ failure_target s' = Some t /\ is_blocked t s' = b /\ b = exhausted limit (consecutive_failures s').
Proof.
  intros Hs Hm. pose proof (may_fail_low _ _ _ Hs Hm) as [Hnone Hlow]. pose proof (rt_range _ _ Hs) as Hr.
  unfold note_failure. set (f := if bool_decide _ then _ else _).
  assert (1 <= f <= consecutive_failures s + 1) as Hf.
  { unfold f, u32_saturating_add. case_bool_decide; lia. }
  destruct (Z.leb_spec limit f) as [Hl|Hl]; intros [= <- <-]; unfold is_blocked, exhausted; cbn.
  - rewrite bool_decide_true by done. assert ((0 <? f) && (limit <=? f) = true) as He by lia. rewrite He.
    split; [split; cbn; [lia|done|by unfold exhausted; rewrite He]|done].
  - rewrite Hnone. assert ((0 <? f) && (limit <=? f) = false) as He by lia. rewrite He.
    split; [split; cbn; [lia|done|by unfold exhausted; rewrite He]|done].
Qed.

Section node_laws.
Context {J : Type} {TV : TomlValues} {E : Type} {TC : @TaskCodec J TV E}.
Context {W R : Type} {NW : @NodeWorld J TV E TC W} {RR : RoleRunner W R}.
Context (info : NodeInfo).
Context (build : AssignmentTarget -> W -> W * result StoreError (option R)).

Notation NodeRunner := (@NodeRunner R).
Notation M := (SE (NodeRunner * W) NodeExit).
Notation limit := (max_consecutive_start_failures info).
Implicit Types (n : NodeRunner) (w : W) (s : NodeRunner * W).

(** A role that runs has a fresh budget. *)
Record node_ok n : Prop := {
  no_retry : retry_ok limit (nd_retry n);
  no_fresh : forall t r, nd_active n = Some (t, r) ->
    consecutive_failures (nd_retry n) = 0 /\ (failure_target (nd_retry n) = None \/ failure_target (nd_retry n) = Some t)
}.
Notation ok := (fun s => node_ok s.1).

Lemma fresh_may_fail n t r : node_ok n -> nd_active n = Some (t, r) -> may_fail t (nd_retry n).
Proof.
  intros Hn Ha. pose proof (no_fresh _ Hn _ _ Ha) as [Hc Ht]. split; [destruct Ht; [right|left]; done|].
  unfold is_blocked. rewrite (rt_blocked _ _ (no_retry _ Hn)), Hc. done.
Qed.

Lemma node_new_ok : node_ok (@node_new R info).
Proof. split; [apply retry_default_ok|done]. Qed.

Lemma stable_nget {A} (f : NodeRunner -> A) : stable ok (nget f : M A).
Proof. intros [n w] H. exact H. Qed.
Lemma stable_nnow : stable ok (nnow : M Z).
Proof. intros [n w] H. exact H. Qed.
Lemma stable_nworld {A} (f : W -> W * A) : stable ok (nworld f : M A).
Proof. intros [n w] H. unfold nworld. cbn. destruct (f w). exact H. Qed.
Lemma stable_nstore {A} (f : W -> W * result StoreError A) : stable ok (nstore f : M A).
Proof. intros [n w] H. unfold nstore. cbn. destruct (f w) as [? []]; exact H. Qed.
Lemma stable_nmodify (f : NodeRunner -> NodeRunner) : (forall n, node_ok n -> node_ok (f n)) -> stable ok (nmodify f : M unit).
Proof. intros Hf [n w] H. by apply Hf. Qed.
Lemma stable_backoff d : stable ok (nmodify (set_nd_backoff d) : M unit).
Proof. apply stable_nmodify. intros n [? ?]. by split. Qed.
Lemma stable_reset_backoff : stable ok (reset_reconcile_backoff info : M unit).
Proof. apply stable_backoff. Qed.
Lemma stable_checked d : stable ok (checked_duration d : M Z).
Proof. unfold checked_duration. destruct (duration_from_secs_f64 d); auto with stable. Qed.
Hint Resolve stable_nget stable_nnow stable_nworld stable_nstore stable_backoff stable_reset_backoff stable_checked : stable.

Lemma stable_next_sleep : stable ok (next_reconcile_sleep info : M Z).
Proof. unfold next_reconcile_sleep. stable_auto. Qed.
Lemma stable_sleep_after : stable ok (sleep_after_database_error info : M unit).
Proof. unfold sleep_after_database_error, nsleep. apply stable_bind; [apply stable_next_sleep|]. intros. apply stable_nworld. Qed.
Hint Resolve stable_next_sleep stable_sleep_after : stable.

(** The world after the role was stopped and its registration taken back. *)
Definition stopped n w : W :=
  match nd_active n with
  | None => w
  | Some (_, r) => (nw_clear_current_assignment (ni_uuid info) (role_stop (r, w)).1.2).1
  end.
Lemma stop_current_stops n w : stop_current info (n, w) = ((set_nd_active None n, stopped n w), Ok tt).
Proof.
  unfold stop_current, stopped. destruct n as [[[t r]|] rt b]; [|done]. cbn.
  destruct (role_stop (r, w)) as [[r' w'] x]. cbn. by destruct (nw_clear_current_assignment _ w').
Qed.

(** Stopping restores the invariant from the budget alone. *)
Lemma stop_current_ok :
  triple (fun s => retry_ok limit (nd_retry s.1)) (stop_current info : M unit) (fun _ => ok) ok.
Proof. intros [n w] H. rewrite stop_current_stops. by split. Qed.
Lemma stable_stop : stable ok (stop_current info : M unit).
Proof. eapply triple_weaken; [apply stop_current_ok|by intros s []|done..]. Qed.
Hint Resolve stable_stop : stable.

(** ** One poll *)

(** Nothing runs, and the budget is that of the target. *)
Record idle_for (d : option AssignmentTarget) n : Prop := {
  if_ok : node_ok n;
  if_idle : nd_active n = None;
  if_budget : forall t, d = Some t -> is_blocked t (nd_retry n) = false -> may_fail t (nd_retry n)
}.

Lemma set_retry_ok n x : nd_active n = None -> retry_ok limit x -> node_ok (set_nd_retry x n).
Proof. intros Ha Hx. split; [done|]. cbn. by rewrite Ha. Qed.

Lemma give_up_idle t err : stable (fun s => node_ok s.1 /\ nd_active s.1 = None) (give_up_start t err : M unit).
Proof.
  intros [n w] H. unfold give_up_start, task_to_fail, se_bind, se_ret, nstore, nworld. cbn.
  destruct (nw_load_active_run_task _ w) as [w1 [[task|]|e]]; cbn; [exact H| |exact H].
  destruct (nw_list_run_tasks _ w1) as [w2 [tasks|e]]; cbn; [|exact H]. by destruct (find _ _).
Qed.

Lemma build_reconciled_ok d :
  triple (fun s => idle_for d s.1) (build_reconciled_runner info build d)
    (fun built s => (node_ok s.1 /\ nd_active s.1 = None) /\ match built with Some (t, _) => d = Some t | None => True end)
    (fun s => node_ok s.1 /\ nd_active s.1 = None).
Proof.
  intros [n w] [Hn Ha Hbudget]. cbn [fst] in *. unfold build_reconciled_runner. destruct d as [t|]; [|done].
  unfold se_bind at 1. cbn. destruct (is_blocked t (nd_retry n)) eqn:Eb; [done|].
  specialize (Hbudget t eq_refl Eb). unfold se_bind at 1, nworld. cbn.
  destruct (build t w) as [w1 [[r|]|err]]; cbn; [done..|].
  unfold note_start_error. destruct (is_database_error err); cbn; [by destruct n|].
  destruct (is_retry_activation err); cbn; [by destruct n|].
  destruct (note_failure t limit (nd_retry n)) as [s' b] eqn:Ef.
  apply (note_failure_ok limit) in Ef as (Hs & _); [|apply Hn|done]. cbn.
  pose proof (set_retry_ok n s' Ha Hs) as Hn'. destruct b; cbn; [|by destruct n].
  pose proof (give_up_idle t err (set_nd_retry s' n, w1) (conj Hn' Ha)) as Hg. unfold se_bind.
  destruct (give_up_start t err _) as [s2 [[]|e]]; cbn; by destruct Hg.
Qed.

Lemma start_ok t r :
  triple (fun s => node_ok s.1 /\ nd_active s.1 = None) (start info t r)
    (fun _ s => node_ok s.1 /\ nd_active s.1 = Some (t, r)) (fun s => node_ok s.1 /\ nd_active s.1 = None).
Proof.
  intros [n w] [Hn Ha]. unfold start, se_bind, nstore. cbn.
  destruct (nw_set_current_assignment _ _ _ w) as [w1 [[]|e]]; cbn; [|done].
  split; [|done]. split; cbn; [apply retry_default_ok|]. intros t' r' [= <- <-]. auto.
Qed.

(** What a poll leaves: the wanted role, or none. *)
Definition follows (d : option AssignmentTarget) n : Prop := current_target n = d \/ nd_active n = None.

(** The node once its former role is stopped. *)
Definition idle_node d n : NodeRunner :=
  mkNode None (reset_for_desired_target_change d (nd_retry n)) (reconcile_initial_backoff info).

Lemma reconcile_same d n w :
  current_target n = d ->
  reconcile info build d (n, w) = ((set_nd_retry (reset_for_desired_target_change d (nd_retry n)) n, w), Ok tt).
Proof.
  intros Hd. unfold reconcile, se_bind at 1. cbn. unfold se_bind at 1, nget, se_get. cbn.
  by rewrite bool_decide_true.
Qed.
Lemma reconcile_other d n w :
  current_target n <> d ->
  reconcile info build d (n, w) =
    (let! built := build_reconciled_runner info build d in
     match built with Some (target, runner) => start info target runner | None => se_ret tt end) (idle_node d n, stopped n w).
Proof.
  intros Hd. unfold reconcile, se_bind at 1. cbn. unfold se_bind at 1, nget, se_get. cbn.
  rewrite bool_decide_false by done. unfold se_bind at 1, reset_reconcile_backoff, nmodify, se_modify. cbn [fst snd].
  unfold se_bind at 1. rewrite stop_current_stops. unfold stopped. cbn. by destruct (nd_active n) as [[]|].
Qed.

Lemma idle_node_for d n : node_ok n -> idle_for d (idle_node d n).
Proof.
  intros Hn. split; cbn; [|done|].
  - split; [by apply reset_ok, Hn|done].
  - intros t -> Hb. by apply reset_may_fail with (limit := limit); [apply Hn|].
Qed.

Lemma reconcile_ok d :
  triple ok (reconcile info build d) (fun _ s => node_ok s.1 /\ follows d s.1) (fun s => node_ok s.1 /\ nd_active s.1 = None).
Proof.
  intros [n w] Hn. cbn in Hn. destruct (decide (current_target n = d)) as [Hd|Hd].
  - rewrite reconcile_same by done. split; [|by left]. split; [by apply reset_ok, Hn|]. intros t r Ha. cbn in Ha.
    unfold current_target in Hd. rewrite Ha in Hd. cbn in Hd. subst d. cbn. unfold reset_for_desired_target_change.
    case_bool_decide; [by apply (no_fresh _ Hn t r)|]. cbn. auto.
  - rewrite reconcile_other by done.
    pose proof (build_reconciled_ok d (idle_node d n, stopped n w) (idle_node_for d n Hn)) as Hb.
    unfold se_bind. destruct (build_reconciled_runner info build d _) as [s3 [[[t r]|]|e]].
    + destruct Hb as [Hb ->].
      pose proof (start_ok t r s3 Hb) as Hst. destruct (start info t r s3) as [s4 [[]|e]]; [|done].
      destruct Hst as [? Ha]. split; [done|]. left. unfold current_target. by rewrite Ha.
    + destruct Hb as [[? ?] _]. split; [done|by right].
    + done.
Qed.

(** ** One iteration *)

Lemma stable_attempt {A} (m : M A) : stable ok m -> stable ok (attempt info m).
Proof.
  intros Hm s Hs. specialize (Hm s Hs). unfold attempt. destruct (m s) as [s' [a|[e|]]]; [done| |done].
  destruct (is_database_error e); [|done]. cut (stable ok (sleep_after_database_error info ;! se_ret (A:=option A) None)); [|stable_auto].
  intros Hsl. exact (Hsl s' Hm).
Qed.

Lemma stable_finish : stable ok (finish_current_assignment info : M unit).
Proof.
  unfold finish_current_assignment. apply triple_bind with (Q := fun _ s => retry_ok limit (nd_retry s.1)).
  { intros s _. apply retry_default_ok. }
  intros _. apply triple_bind with (Q := fun _ s => retry_ok limit (nd_retry s.1)); [|intros _; apply stop_current_ok].
  intros s Hs. exact Hs.
Qed.
Lemma stable_reconcile d : stable ok (reconcile info build d).
Proof. eapply triple_weaken; [apply reconcile_ok|done|by intros ? ? []|by intros ? []]. Qed.
Hint Resolve stable_attempt stable_finish stable_reconcile : stable.

(** What a tick that fails for good leaves of the node, if the run can be paused. *)
Definition after_failure t n : NodeRunner :=
  mkNode None (note_failure t limit (nd_retry n)).1 (reconcile_initial_backoff info).

Definition pause_run (now_blocked : bool) t err : M unit :=
  if negb now_blocked && bool_decide (role t = WorkQueue.Evaluator) then se_ret tt
  else
    let! active := nstore (nw_load_active_run_task (run_id t)) in
    match active with
    | Some task => let! _ := nworld (nw_fail_run_task (task_id (st_task task)) (role_failure_reason t err)) in se_ret tt
    | None => se_ret tt
    end ;!
    let! _ := nstore (nw_clear_desired_assignments_for_run (run_id t)) in se_ret tt.
Lemma stable_pause_run b t err : stable ok (pause_run b t err).
Proof. unfold pause_run. stable_auto. Qed.

(** The failed role is stopped before anything else. *)
Lemma fail_current_stops t err n w :
  fail_current_assignment info t err (n, w) =
    pause_run (note_failure t limit (nd_retry n)).2 t err (after_failure t n, stopped n w).
Proof.
  unfold fail_current_assignment, note_start_failure. unfold se_bind at 1. cbn.
  destruct (note_failure t limit (nd_retry n)) as [x b] eqn:Ef. cbn [fst snd].
  unfold se_bind at 1. unfold reset_reconcile_backoff, nmodify, se_modify. cbn [fst snd].
  unfold se_bind at 1. rewrite stop_current_stops.
  unfold after_failure. rewrite Ef. cbn. unfold stopped. cbn. destruct (nd_active n) as [[t' r']|]; done.
Qed.

Lemma after_failure_ok t r n : node_ok n -> nd_active n = Some (t, r) -> node_ok (after_failure t n).
Proof.
  intros Hn Ha. destruct (note_failure t limit (nd_retry n)) as [x b] eqn:Ef.
  pose proof (note_failure_ok limit t _ _ _ (no_retry _ Hn) (fresh_may_fail _ _ _ Hn Ha) Ef) as (Hx & _).
  split; unfold after_failure; rewrite Ef; done.
Qed.

Lemma stable_after_tick t r outcome :
  triple (fun s => node_ok s.1 /\ nd_active s.1 = Some (t, r)) (after_tick info t outcome) (fun _ => ok) ok.
Proof.
  intros [n w] [Hn Ha]. cbn in Hn, Ha. unfold after_tick. destruct outcome as [done|err]; [exact Hn|].
  destruct (is_database_error err).
  { cut (stable ok (sleep_after_database_error info ;! se_ret false)); [|stable_auto]. intros H. exact (H (n, w) Hn). }
  destruct (is_retry_activation err).
  { cut (stable ok (finish_current_assignment info ;! se_ret false)); [|stable_auto]. intros H. exact (H (n, w) Hn). }
  unfold se_bind at 1. rewrite fail_current_stops.
  assert (node_ok (after_failure t n)) as Hf by by apply after_failure_ok with r.
  pose proof (stable_pause_run (note_failure t limit (nd_retry n)).2 t err (after_failure t n, stopped n w) Hf) as Hm.
  destruct (pause_run _ t err _) as [s' [[]|e]]; [|done].
  cut (stable ok (reset_reconcile_backoff info ;! se_ret false)); [|stable_auto]. intros H. exact (H s' Hm).
Qed.

Lemma stable_poll_at_once : stable ok (poll_at_once info : M Control).
Proof. unfold poll_at_once. stable_auto. Qed.
Hint Resolve stable_poll_at_once : stable.

Lemma tick_role_ok t r :
  triple (fun s => node_ok s.1 /\ nd_active s.1 = Some (t, r)) (tick_role t r)
    (fun _ s => node_ok s.1 /\ exists r', nd_active s.1 = Some (t, r')) (fun _ => False).
Proof.
  intros [n w] [[Hr Hf] Ha]. unfold tick_role. destruct (role_tick (r, w)) as [[r' w'] x]. cbn in *.
  split; [|eauto]. split; [done|]. cbn. intros t1 r1 [= <- <-]. by apply Hf with r.
Qed.

Lemma run_role_ok next started t r :
  triple (fun s => node_ok s.1 /\ nd_active s.1 = Some (t, r)) (run_role info next started t r) (fun _ => ok) ok.
Proof.
  unfold run_role. eapply triple_bind with (Q := fun _ s => node_ok s.1 /\ exists r', nd_active s.1 = Some (t, r')).
  { eapply triple_weaken; [apply tick_role_ok|done|done|done]. }
  intros outcome s [Hs [r' Ha]]. unfold se_bind at 1. pose proof (stable_after_tick t r' outcome s (conj Hs Ha)) as Ht.
  destruct (after_tick info t outcome s) as [s' [d|e]]; [|done].
  cut (stable ok (if d then finish_current_assignment info ;! poll_at_once info else
    let! active := nget nd_active in
    match active with
    | None => poll_at_once info
    | Some (_, r) =>
        let! now := nnow in
        let elapsed := Z.max 0 (now - started) in
        if elapsed <? role_min_tick_time r then
          let! signalled := nworld (nw_sleep_or_signal (role_min_tick_time r - elapsed)) in
          se_ret (if (signalled : bool) then Break else Continue next)
        else se_ret (Continue next)
    end)); [|stable_auto]. intros H. exact (H s' Ht).
Qed.

Lemma stable_poll_lease : stable ok (poll_lease_failure : M bool).
Proof. unfold poll_lease_failure. stable_auto. Qed.
Hint Resolve stable_poll_lease : stable.

Lemma stable_control_poll : stable ok (control_poll info build).
Proof.
  unfold control_poll. stable_auto.
Qed.
Hint Resolve stable_control_poll : stable.

Lemma stable_loop_body next : stable ok (loop_body info build next).
Proof.
  unfold loop_body. apply stable_bind; [auto with stable|intros []]; [by stable_auto|].
  apply stable_bind; [auto with stable|intros started]. apply stable_bind; [auto with stable|intros []]; [by stable_auto|].
  apply stable_bind; [auto with stable|intros now]. apply stable_bind.
  { unfold poll_if_due. stable_auto. }
  intros [[] next']; [by stable_auto..|]. intros s Hs. unfold se_bind, nget, se_get.
  destruct (nd_active s.1) as [[t r]|] eqn:Ea; [by apply run_role_ok|].
  cut (stable ok (idle info next' : M Control)); [|unfold idle; stable_auto]. intros H. exact (H s Hs).
Qed.

(** ** The life of a node *)

(** Iterations, each in whatever world it meets. *)
Inductive reachable : NodeRunner -> Prop :=
| reach_new : reachable (@node_new R info)
| reach_body n w next n' w' next' :
    reachable n -> loop_body info build next (n, w) = ((n', w'), Ok (Continue next')) -> reachable n'.

Lemma node_reachable_ok n : reachable n -> node_ok n.
Proof.
  induction 1 as [|n w next n' w' next' _ IH Hb]; [apply node_new_ok|].
  pose proof (stable_loop_body next (n, w) IH) as H. by rewrite Hb in H.
Qed.

(** *** Failed starts *)

(** What the last counted failure leaves. *)
Definition failed_node t n : NodeRunner :=
  mkNode None (note_failure t limit (reset_for_desired_target_change (Some t) (nd_retry n))).1 (reconcile_initial_backoff info).

Lemma reconcile_failed t n w w1 err :
  current_target n <> Some t -> is_blocked t (reset_for_desired_target_change (Some t) (nd_retry n)) = false ->
  build t (stopped n w) = (w1, Err err) -> counted err = true ->
  reconcile info build (Some t) (n, w) =
    se_when (note_failure t limit (reset_for_desired_target_change (Some t) (nd_retry n))).2 (give_up_start t err)
      (failed_node t n, w1).
Proof.
  intros Hc Hb Hw He. rewrite reconcile_other by done. unfold build_reconciled_runner. unfold se_bind at 1, se_bind at 1. cbn.
  rewrite Hb. unfold se_bind at 1, nworld at 1. cbn. rewrite Hw. cbn. unfold note_start_error.
  apply andb_true_iff in He as [Hd Hr]. apply negb_true_iff in Hd, Hr. rewrite Hd, Hr.
  unfold failed_node, idle_node. destruct (note_failure _ _ _) as [x b]. cbn. unfold se_bind. cbn.
  destruct (se_when b _ _) as [s' [[]|e]]; done.
Qed.

Lemma reconcile_blocked t n w :
  nd_active n = None -> blocked_target (nd_retry n) = Some t -> failure_target (nd_retry n) = Some t ->
  reconcile info build (Some t) (n, w) = ((set_nd_backoff (reconcile_initial_backoff info) n, w), Ok tt).
Proof.
  intros Ha Hb Hf. rewrite reconcile_other by (unfold current_target; by rewrite Ha).
  unfold idle_node, reset_for_desired_target_change, stopped. rewrite Hf, Ha, bool_decide_true by done.
  unfold se_bind at 1, build_reconciled_runner, se_bind at 1. cbn. unfold is_blocked. rewrite Hb, bool_decide_true by done.
  unfold set_nd_backoff. by rewrite Ha.
Qed.

(** Polls for a wanted role that does not start. At [k] of them its build fails with
    an error that counts; at the others the build finds nothing to run, fails with an
    error of the database or a request to activate again, or the registration is
    refused. What happens in between is up to the world. *)
Inductive failed_polls t : nat -> NodeRunner -> NodeRunner -> Prop :=
| no_poll n : failed_polls t 0 n n
| one_poll k n w w1 err n1 w2 x n2 :
    is_blocked t (reset_for_desired_target_change (Some t) (nd_retry n)) = false ->
    build t (stopped n w) = (w1, Err err) -> counted err = true ->
    reconcile info build (Some t) (n, w) = ((n1, w2), x) ->
    failed_polls t k n1 n2 -> failed_polls t (S k) n n2
| free_poll k n w n1 w2 x n2 :
    is_blocked t (reset_for_desired_target_change (Some t) (nd_retry n)) = false ->
    (forall w1 err, build t (stopped n w) = (w1, Err err) -> counted err = false) ->
    reconcile info build (Some t) (n, w) = ((n1, w2), x) -> nd_active n1 = None ->
    failed_polls t k n1 n2 -> failed_polls t k n n2.

Definition failures_of t n : Z := consecutive_failures (reset_for_desired_target_change (Some t) (nd_retry n)).

Lemma give_up_keeps t err s : (give_up_start t err s).1.1 = s.1.
Proof.
  destruct s as [n w]. unfold give_up_start, task_to_fail, se_bind, se_ret, nstore, nworld. cbn.
  destruct (nw_load_active_run_task _ w) as [w1 [[task|]|e]]; [done| |done]. cbn.
  destruct (nw_list_run_tasks _ w1) as [w2 [tasks|e]]; [|done]. cbn. by destruct (find _ _).
Qed.

Lemma failed_poll_counts t n w w1 err s x :
  limit < 2 ^ 32 -> node_ok n -> nd_active n = None ->
  is_blocked t (reset_for_desired_target_change (Some t) (nd_retry n)) = false ->
  build t (stopped n w) = (w1, Err err) -> counted err = true ->
  reconcile info build (Some t) (n, w) = (s, x) ->
  s.1 = failed_node t n /\ node_ok s.1 /\ nd_active s.1 = None /\ failure_target (nd_retry s.1) = Some t /\
  consecutive_failures (nd_retry s.1) = failures_of t n + 1 /\
  is_blocked t (nd_retry s.1) = (limit <=? failures_of t n + 1).
Proof.
  intros Hl Hn Ha Hb Hw He. rewrite (reconcile_failed t n w w1 err) by (try done; unfold current_target; by rewrite Ha).
  pose proof (reset_ok limit (Some t) _ (no_retry _ Hn)) as Hr.
  pose proof (reset_may_fail limit t _ (no_retry _ Hn) Hb) as Hm.
  destruct (note_failure t limit _) as [x1 b] eqn:Ef.
  pose proof (note_failure_ok limit t _ _ _ Hr Hm Ef) as (Hx1 & Ht & Hbl & Hbe).
  assert (failed_node t n = mkNode None x1 (reconcile_initial_backoff info)) as Hf by (unfold failed_node; by rewrite Ef).
  assert (consecutive_failures x1 = failures_of t n + 1 /\ b = (limit <=? failures_of t n + 1)) as [Hc ->].
  { pose proof (may_fail_low _ _ _ Hr Hm) as [_ Hlow]. revert Ef. unfold note_failure, failures_of. destruct Hm as [[Htf|[Hnf Hz]] _].
    - rewrite bool_decide_true by done. unfold u32_saturating_add.
      pose proof (rt_range _ _ Hr) as Hrange.
      replace (Z.min (2 ^ 32 - 1) _) with (consecutive_failures (reset_for_desired_target_change (Some t) (nd_retry n)) + 1) by lia.
      destruct (limit <=? _); by intros [= <- <-].
    - rewrite bool_decide_false by (rewrite Hnf; done). rewrite Hz. change (0 + 1) with 1. destruct (limit <=? 1); by intros [= <- <-]. }
  intros Hs. assert (s.1 = failed_node t n) as Hs1.
  { destruct (limit <=? _); cbn in Hs; [|by injection Hs as <- _].
    pose proof (give_up_keeps t err (failed_node t n, w1)) as Hg. by rewrite Hs in Hg. }
  split; [done|]. rewrite Hs1, Hf. split_and!; cbn; done.
Qed.

Lemma failures_idle t n : failures_of t (idle_node (Some t) n) = failures_of t n.
Proof. unfold failures_of, idle_node, reset_for_desired_target_change. cbn. by repeat (case_bool_decide; cbn). Qed.

(** Such a poll counts nothing. *)
Lemma free_poll_idle t n w s x :
  nd_active n = None -> is_blocked t (reset_for_desired_target_change (Some t) (nd_retry n)) = false ->
  (forall w1 err, build t (stopped n w) = (w1, Err err) -> counted err = false) ->
  reconcile info build (Some t) (n, w) = (s, x) -> nd_active s.1 = None -> s.1 = idle_node (Some t) n.
Proof.
  intros Ha Hb Hw. rewrite reconcile_other by (unfold current_target; by rewrite Ha).
  unfold build_reconciled_runner. unfold se_bind at 1, se_bind at 1. cbn. rewrite Hb. unfold se_bind at 1, nworld at 1. cbn.
  destruct (build t (stopped n w)) as [w1 [[r|]|err]]; cbn.
  - unfold start, se_bind, nstore. cbn. destruct (nw_set_current_assignment _ _ _ w1) as [w2 [u|err]]; by intros [= <- _].
  - by intros [= <- _].
  - specialize (Hw _ _ eq_refl). unfold note_start_error. unfold counted in Hw.
    destruct (is_database_error err); cbn in Hw |- *; [by intros [= <- _]|].
    destruct (is_retry_activation err); cbn in Hw |- *; [by intros [= <- _]|done].
Qed.

Lemma failed_polls_count t k n n' :
  limit < 2 ^ 32 -> node_ok n -> nd_active n = None -> failed_polls t k n n' ->
  node_ok n' /\ nd_active n' = None /\ failures_of t n' = failures_of t n + Z.of_nat k.
Proof.
  intros Hl Hn Ha Hp. revert Hn Ha. induction Hp as [n|k n w w1 err n1 w2 x n2 Hb Hw He Hs Hp IH|k n w n1 w2 x n2 Hb Hw Hs Ha1 Hp IH];
    intros Hn Ha; [split_and!; [done..|lia]| |].
  - apply failed_poll_counts with (w1 := w1) (err := err) in Hs as (_ & Hn1 & Ha1 & Ht1 & Hc1 & Hb1); try done. cbn [fst] in *.
    assert (failures_of t n1 = failures_of t n + 1) as Hf1.
    { unfold failures_of at 1, reset_for_desired_target_change. by rewrite bool_decide_true. }
    destruct (IH Hn1 Ha1) as (? & ? & Hc). split_and!; [done..|lia].
  - apply free_poll_idle in Hs; [|done..]. cbn in Hs. subst n1. rewrite failures_idle in IH. apply IH; [|done].
    apply (if_ok _ _ (idle_node_for (Some t) n Hn)).
Qed.

(** Failures of the target itself, if there are any, are what is counted. *)
Lemma failures_positive t n :
  node_ok n -> 0 < failures_of t n ->
  failure_target (nd_retry n) = Some t /\ consecutive_failures (nd_retry n) = failures_of t n /\
  is_blocked t (nd_retry n) = (limit <=? failures_of t n).
Proof.
  intros Hn. unfold failures_of, reset_for_desired_target_change. case_bool_decide as Ht; [|done]. intros Hc. split_and!; [done..|].
  unfold is_blocked. rewrite (rt_blocked _ _ (no_retry _ Hn)), <- Ht. unfold exhausted. rewrite (proj2 (Z.ltb_lt _ _)) by done. cbn.
  destruct (limit <=? _); [by rewrite bool_decide_true|by rewrite bool_decide_false].
Qed.

(** *** A registration that is refused *)

Lemma reconcile_refused t r n w w1 w2 err :
  current_target n <> Some t -> is_blocked t (reset_for_desired_target_change (Some t) (nd_retry n)) = false ->
  build t (stopped n w) = (w1, Ok (Some r)) ->
  nw_set_current_assignment (ni_uuid info) (role t) (run_id t) w1 = (w2, Err err) ->
  reconcile info build (Some t) (n, w) = ((idle_node (Some t) n, w2), Err (ExitError err)).
Proof.
  intros Hc Hb Hw Hset. rewrite reconcile_other by done. unfold build_reconciled_runner, se_bind, nget, se_get, nworld. cbn.
  rewrite Hb. cbn [fst snd]. rewrite Hw. cbn. unfold start, se_bind, nstore. cbn. by rewrite Hset.
Qed.

(** What the poll of an undisturbed iteration meets. *)
Record polls next w w' t : Prop := {
  pl_signal : (nw_signalled w).2 = false;
  pl_lease : exists e, nw_try_recv (nw_signalled w).1 = (w', e) /\ (e = Empty \/ e = Event LeaseReady);
  pl_due : next <= nw_now w';
  pl_shutdown : (nw_consume_node_shutdown_request (ni_uuid info) w').2 = Ok false;
  pl_desired : (nw_get_desired_assignment (ni_name info) (nw_consume_node_shutdown_request (ni_uuid info) w').1).2 = Ok (Some t)
}.
Definition polled_world w' : W :=
  (nw_get_desired_assignment (ni_name info) (nw_consume_node_shutdown_request (ni_uuid info) w').1).1.

Lemma loop_body_exits next n w w' t s err :
  polls next w w' t -> reconcile info build (Some t) (n, polled_world w') = (s, Err (ExitError err)) ->
  is_database_error err = false -> loop_body info build next (n, w) = (s, Err (ExitError err)).
Proof.
  intros [Hs (e & He & Hee) Hdue Hsd Hd] Hr Hdb. unfold loop_body, poll_lease_failure, poll_if_due, control_poll, attempt, nnow.
  unfold se_bind, nworld, nstore, se_ret. cbn [fst snd]. destruct (nw_signalled w) as [w0 b]. cbn in Hs, He |- *. subst b. cbn. rewrite He.
  assert ((match e with
    | Event LeaseReady | Empty => se_ret false
    | Event (LeaseFatal _ _ _) => se_ret true
    | Disconnected => se_fail (ExitError (Internal "lease renewal task exited unexpectedly"))
    end : M bool) (n, w') = ((n, w'), Ok false)) as Hrecv by (by destruct Hee as [->| ->]).
  unfold se_ret in Hrecv. rewrite Hrecv. cbn. rewrite (proj2 (Z.leb_le _ _) Hdue). cbn.
  unfold polled_world in Hr. destruct (nw_consume_node_shutdown_request _ w') as [w1 r1]. cbn in Hsd, Hd, Hr. subst r1. cbn.
  destruct (nw_get_desired_assignment _ w1) as [w2 r2]. cbn in Hd, Hr. subst r2. cbn. by rewrite Hr, Hdb.
Qed.

(** ** The properties *)

(** The start budget of a node. In every reachable state, whatever the store
    answers, the failures counted stay within [max_consecutive_start_failures] (one
    failure, if that is zero), a target is blocked exactly when its budget is
    exhausted, and a role that runs has no failure counted and no target is
    blocked. *)
Lemma retry_state_consistent n :
  reachable n ->
  0 <= consecutive_failures (nd_retry n) <= Z.max 1 limit /\
  (forall t, is_blocked t (nd_retry n) = true <->
     failure_target (nd_retry n) = Some t /\ 0 < consecutive_failures (nd_retry n) /\ limit <= consecutive_failures (nd_retry n)) /\
  (forall t r, nd_active n = Some (t, r) -> consecutive_failures (nd_retry n) = 0 /\ blocked_target (nd_retry n) = None).
Proof.
  intros Hn%node_reachable_ok. pose proof (no_retry _ Hn) as [Hr Ht Hb]. split_and!; [lia..| |].
  - intros t. unfold is_blocked. rewrite bool_decide_eq_true, Hb. unfold exhausted.
    destruct (Z.ltb_spec 0 (consecutive_failures (nd_retry n))), (Z.leb_spec limit (consecutive_failures (nd_retry n))); cbn;
      split; try (intros [= ]; done); try (by intros (? & ? & ?); lia); try tauto. 
  - intros t r Ha. pose proof (no_fresh _ Hn _ _ Ha) as [Hc _]. split; [done|]. by rewrite Hb, Hc.
Qed.

(** C24: the failures of a role that cannot start are limited. While a node wants one
    target and it does not start, every failed build but those that end with an error
    of the database or a request to activate again counts as a failure of the target,
    however many such polls come in between, and so does nothing else; no more than
    [max_consecutive_start_failures] of them (at least one) are possible, the target
    is blocked exactly when they are used up, and from then on a poll neither builds
    nor asks the store for anything, until the target changes. *)
Theorem start_attempts_are_limited t k n n' :
  limit < 2 ^ 32 -> reachable n -> nd_active n = None -> failed_polls t k n n' -> (0 < k)%nat ->
  failures_of t n + Z.of_nat k <= Z.max 1 limit /\
  nd_active n' = None /\ failures_of t n' = failures_of t n + Z.of_nat k /\
  is_blocked t (nd_retry n') = (Z.max 1 limit <=? failures_of t n + Z.of_nat k) /\
  (failures_of t n + Z.of_nat k = Z.max 1 limit -> forall w, exists n'',
     reconcile info build (Some t) (n', w) = ((n'', w), Ok tt) /\ nd_retry n'' = nd_retry n' /\ nd_active n'' = None).
Proof.
  intros Hl Hn%node_reachable_ok Ha Hp Hk.
  destruct (failed_polls_count t k n n' Hl Hn Ha Hp) as (Hn' & Ha' & Hf).
  assert (0 <= failures_of t n) as H0 by apply (reset_ok limit (Some t) _ (no_retry _ Hn)).
  destruct (failures_positive t n' Hn' ltac:(lia)) as (Ht & Hc & Hb).
  pose proof (rt_range _ _ (no_retry _ Hn')) as Hrange. rewrite Hc in Hrange.
  split; [lia|]. do 2 (split; [done|]). rewrite Hb, Hf. split; [lia|].
  intros Hmax w. exists (set_nd_backoff (reconcile_initial_backoff info) n'). split; [|by split].
  apply reconcile_blocked; [done| |done]. unfold is_blocked in Hb.
  rewrite (proj2 (Z.leb_le _ _)) in Hb by lia. by apply bool_decide_eq_true in Hb.
Qed.

(** a poll follows the assignment. If the node already runs what is wanted,
    the poll touches nothing. Otherwise the former role is stopped and its
    registration taken back before anything else; a poll that succeeds then runs
    the wanted role, unless none is wanted, the target is blocked, there is
    nothing to run yet, or the build failed; one that fails runs nothing. *)
Theorem poll_follows_the_assignment d n w n' w' x :
  reachable n -> reconcile info build d (n, w) = ((n', w'), x) ->
  if decide (current_target n = d) then w' = w /\ nd_active n' = nd_active n /\ x = Ok tt
  else
    match x with
    | Ok _ =>
        current_target n' = d \/
        nd_active n' = None /\ exists t, d = Some t /\
          (w' = stopped n w /\ is_blocked t (nd_retry n') = true \/
           exists w1, build t (stopped n w) = (w1, Ok None) /\ w' = w1 \/
           exists err, build t (stopped n w) = (w1, Err err) /\ is_database_error err = false)
    | Err _ => nd_active n' = None
    end.
Proof.
  intros Hn%node_reachable_ok Hrec. case_decide as Hd.
  { rewrite reconcile_same in Hrec by done. by injection Hrec as <- <- <-. }
  pose proof (reconcile_ok d (n, w) Hn) as Hok. rewrite Hrec in Hok. destruct x as [[]|e]; [|by destruct Hok].
  unfold follows in Hok. cbn [fst] in Hok. destruct Hok as [_ [Hf|Ha]]; [by left|]. rewrite reconcile_other in Hrec by done.
  destruct d as [t|]; [right|by left; unfold current_target; rewrite Ha]. split; [done|]. exists t. split; [done|].
  revert Hrec. unfold build_reconciled_runner. unfold se_bind at 1, se_bind at 1. cbn.
  destruct (is_blocked t _) eqn:Eb; [intros [= <- <-]; by left|]. unfold se_bind at 1, nworld at 1. cbn.
  destruct (build t (stopped n w)) as [w1 [[r|]|err]] eqn:Ew; cbn.
  - unfold start, se_bind, nstore. cbn. destruct (nw_set_current_assignment _ _ _ w1) as [w2 [[]|e]]; cbn; [|done].
    intros [= <- _]. done.
  - intros [= _ <-]. right. exists w1. by left.
  - intros Hrec. right. exists w1. right. exists err. split; [done|]. revert Hrec.
    unfold note_start_error. by destruct (is_database_error err).
Qed.

(** C27: a tick that fails is not remembered. When the role of a node fails in a
    tick, for good, the node stops it, takes its registration back and counts one
    failure, whatever happened before: an evaluator is never given up on, and
    neither the task nor the assignments of the run are touched, unless the budget
    is a single failure. *)
Theorem tick_failures_do_not_accumulate n w t r err :
  reachable n -> nd_active n = Some (t, r) -> role t = WorkQueue.Evaluator -> 2 <= limit -> counted err = true ->
  after_tick info t (Err err) (n, w) =
    ((mkNode None (mkRetry None (Some t) 1) (reconcile_initial_backoff info), stopped n w), Ok false).
Proof.
  intros Hn%node_reachable_ok Ha Hrole Hl He. apply andb_true_iff in He as [Hd Hr]. apply negb_true_iff in Hd, Hr.
  pose proof (no_fresh _ Hn _ _ Ha) as [Hc Ht].
  assert (note_failure t limit (nd_retry n) = (mkRetry None (Some t) 1, false)) as Hf.
  { unfold note_failure. rewrite (rt_blocked _ _ (no_retry _ Hn)), Hc.
    assert ((if bool_decide (failure_target (nd_retry n) = Some t) then u32_saturating_add 0 1 else 1) = 1) as ->
      by by case_bool_decide. by rewrite (proj2 (Z.leb_gt _ _)) by lia. }
  unfold after_tick. rewrite Hd, Hr. unfold se_bind at 1. rewrite fail_current_stops, Hf. unfold pause_run. cbn [fst snd].
  rewrite Hrole. cbn. unfold after_failure. by rewrite Hf.
Qed.

(** The role has been built, and whatever its construction did to the tables is
    done, when its registration is refused. *)
Lemma refused_registration_exits fuel next n w w' t r w1 w2 err :
  polls next w w' t -> current_target n <> Some t ->
  is_blocked t (reset_for_desired_target_change (Some t) (nd_retry n)) = false ->
  build t (stopped n (polled_world w')) = (w1, Ok (Some r)) ->
  nw_set_current_assignment (ni_uuid info) (role t) (run_id t) w1 = (w2, Err err) -> is_database_error err = false ->
  run_loop info build (S fuel) next (n, w) = ((idle_node (Some t) n, w2), Some (Err (ExitError err))) /\
  consecutive_failures (nd_retry (idle_node (Some t) n)) = failures_of t n.
Proof.
  intros Hp Hc Hb Hw Hset Hdb. split; [|done]. cbn [run_loop].
  rewrite (loop_body_exits next n w w' t _ err Hp (reconcile_refused t r n _ w1 w2 err Hc Hb Hw Hset) Hdb). done.
Qed.
End node_laws.
