(* ===== verification/RoleRunners.v ===== *)
(** src/runners/node_runner/role_runner.rs and the activation half of reconcile.rs:
    the two roles a node runs, and how each is built from the tables.

    The calls of activation that are not modelled elsewhere (connecting, loading the
    run, the sampler checkpoint) are the class [ActivationWorld]; evaluator metadata
    and the construction of samplers are [ActivationEngines]. A panic while a
    configuration is read off a saved state is an error whose text says so. *)
From S2P Require Import Prelude Floats Errors Domain Batch Config LatentBatch Generation AccumulatorTrait Scalar Stratification Vector Gammaloop AccumulatorState Extraction Evaluation Raster Metrics WorkQueue Assignments Queue Tasks Runner TaskStore StageContext Evaluator NodeRunner.

(** ** The run *)

Record SamplerAggregatorRunnerParams := mkSamplerParams {
  sp_performance_snapshot_interval_ms : Z;
  sp_min_tick_time_ms : Z;
  sp_frontend_sync_interval_ms : Z;
  sp_io_threads : Z;
  sp_db_pool_size : Z;
  sp_queue : SamplerQueueConfig
}.
Record RunSpec (E : Type) := mkRunSpec {
  spec_domain : Domain;
  spec_evaluator : option E;
  spec_evaluator_snapshot_interval_ms : Z;
  spec_sampler_params : SamplerAggregatorRunnerParams
}.
Arguments mkRunSpec {E}.
Arguments spec_domain {E}.
Arguments spec_evaluator {E}.
Arguments spec_evaluator_snapshot_interval_ms {E}.
Arguments spec_sampler_params {E}.

Definition millis (ms : Z) : Z := ms * 10 ^ 6.

Definition MAX_EVALUATOR_DB_CONNECTIONS : Z := 2.
Definition MAX_SAMPLER_DB_CONNECTIONS : Z := 6.
Definition role_db_pool_size (r : WorkerRole) (requested : Z) : Z :=
  clamp 1 (match r with WorkQueue.Evaluator => MAX_EVALUATOR_DB_CONNECTIONS | SamplerAggregator => MAX_SAMPLER_DB_CONNECTIONS end)
    requested.

Definition runner_error_message (e : RunnerError) : string :=
  match e with RunnerEngine e => engine_message e | RunnerStore e => store_error_message e end.

(** [StoreResultExt::store_err]: whatever the error was, it is internal now. *)
Definition store_err {A Err'} (message : Err' -> string) (m : result Err' A) : result StoreError A :=
  map_err (fun e => Internal (message e)) m.

Section roles.
Context {J : Type} {TV : TomlValues} {E : Type} {LM : Libm} {OB : Observables} {TC : @TaskCodec J TV E} {SS : @SavedStates J}.
Context {Rng : Type}.

Notation RunTask := (@RunTask J TV E).
Notation StoredTask := (@StoredTask J TV E TC).
Notation RunStageSnapshot := (@RunStageSnapshot J E OB).
Notation RunnerCheckpoint := (@RunnerCheckpoint J OB Rng).
Notation SamplerInitialization := (@SamplerInitialization J OB).
Notation BatchTransformConfig := (@BatchTransformConfig J).
Notation SamplingConfig := (@SamplingConfig J).
Notation EB := (EvaluationBatch Rng).

Class ActivationWorld (W : Type) := {
  aw_load_run_spec : i32 -> W -> W * result StoreError (option (RunSpec E));
  aw_init_pg_store : Z -> W -> W * result StoreError unit;
  aw_listen_for_batches : i32 -> W -> W * result StoreError unit;
  aw_load_sampler_checkpoint : i32 -> W -> W * result StoreError (option RunnerCheckpoint);
  aw_record_evaluator_metadata : i32 -> J -> W -> W * result StoreError unit;
  aw_restore_sampler_checkpoint : i32 -> RunnerCheckpoint -> W -> W * result StoreError unit;
  aw_load_run_sample_progress : i32 -> W -> W * result StoreError (option RunSampleProgress);
  (** the status [restored] of a task, its samples and the node *)
  aw_record_restored : i32 -> i64 -> i64 -> string -> W -> W * result StoreError unit;
  (** [SamplerIo::new] *)
  aw_start_io : Z -> W -> W * result StoreError unit
}.
Class ActivationEngines (Ev Sm : Type) := {
  evaluator_metadata : Ev -> J;
  validate_accumulator_config : E -> AccumulatorConfig -> result EngineError unit;
  initialize_sampler : SamplerInitialization -> Domain -> option usize -> J -> result EngineError Sm
}.

Context {W Sm Ev Mat Tr : Type} {QW : QueueWorld W EB BatchResult} {RS : @RunnerWorld J TV E OB Rng W} {SO : @SamplerOps J Rng Sm}
  {JS : @Json J OB} {EW : @EvaluatorWorld J TV E OB TC Rng W} {EN : @Engines J E OB Rng Ev Mat Tr} {NW : @NodeWorld J TV E TC W}
  {AW : ActivationWorld W} {AE : ActivationEngines Ev Sm}.

Notation Runner := (@Runner J TV E OB Rng W Sm).
Notation RunnerInfo := (@RunnerInfo J E).
Notation EvaluatorRunner := (@EvaluatorRunner E OB Rng W Ev Mat Tr).
Notation BM := (SE W StoreError).

Context (info : NodeInfo).

(** ** The two roles *)

Record SamplerRole := mkSamplerRole { sr_info : RunnerInfo; sr_runner : Runner; sr_min_tick_time : Z }.
Record EvaluatorRole := mkEvaluatorRole { vr_info : EvaluatorInfo; vr_runner : EvaluatorRunner }.

Definition evaluator_store_error (e : EvaluatorRunnerError) : StoreError :=
  match e with EvStore e => e | _ => Internal (evaluator_error_message e) end.
Definition runner_store_error (e : RunnerError) : StoreError :=
  match e with RunnerStore e => e | _ => Internal (runner_error_message e) end.

Definition evaluator_role_tick : SE (EvaluatorRole * W) StoreError bool := fun '(v, w) =>
  let '((r, w), x) := tick (vr_info v) (vr_runner v, w) in
  ((mkEvaluatorRole (vr_info v) r, w), map_err evaluator_store_error (let? _ := x in Ok false)).

(** Two ticks end the drain (EvaluatorDrain.v); its outcome is only logged. *)
Definition evaluator_role_stop : SE (EvaluatorRole * W) StoreError unit := fun '(v, w) =>
  let '((r, w), x) := stop (vr_info v) 3 (vr_runner v, w) in
  ((mkEvaluatorRole (vr_info v) r, w), match x with Some x => map_err evaluator_store_error x | None => Ok tt end).

Definition on_runner {A Err'} (m : RunnerInfo -> SE (Runner * W) Err' A) : SE (SamplerRole * W) Err' A := fun '(s, w) =>
  let '((r, w), x) := m (sr_info s) (sr_runner s, w) in
  ((mkSamplerRole (sr_info s) r (sr_min_tick_time s), w), x).
Definition se_store_err {S A} (m : SE S RunnerError A) : SE S StoreError A := fun s =>
  let '(s, x) := m s in (s, store_err runner_error_message x).

(** A tick that fails, other than for the database or for a retry, fails the
    task. *)
Definition sampler_role_tick : SE (SamplerRole * W) StoreError bool := fun s =>
  match on_runner runner_tick s with
  | (s, Ok done) => if (done : bool) then (se_store_err (on_runner complete_task) ;! se_ret true) s else (s, Ok false)
  | (s, Err err) =>
      let e := runner_store_error err in
      match err with
      | RunnerStore e' =>
          if is_database_error e' || is_retry_activation e' then (s, Err e)
          else (se_store_err (on_runner (fun _ => fail_task (runner_error_message err))) ;! se_fail e) s
      | _ => (se_store_err (on_runner (fun _ => fail_task (runner_error_message err))) ;! se_fail e) s
      end
  end.

Definition sampler_role_stop : SE (SamplerRole * W) StoreError unit := fun s =>
  let '(s, x) := on_runner persist_state s in (s, map_err runner_store_error x).

Inductive Role := EvaluatorR (v : EvaluatorRole) | SamplerR (s : SamplerRole).

Definition on_role {A} (mv : SE (EvaluatorRole * W) StoreError A) (ms : SE (SamplerRole * W) StoreError A)
    : SE (Role * W) StoreError A := fun '(r, w) =>
  match r with
  | EvaluatorR v => let '((v, w), x) := mv (v, w) in ((EvaluatorR v, w), x)
  | SamplerR s => let '((s, w), x) := ms (s, w) in ((SamplerR s, w), x)
  end.

#[export] Instance roles : RoleRunner W Role := {
  role_tick := on_role evaluator_role_tick sampler_role_tick;
  role_stop := on_role evaluator_role_stop sampler_role_stop;
  role_min_tick_time r := match r with EvaluatorR _ => 0 | SamplerR s => sr_min_tick_time s end
}.

(** ** Activation *)

Definition engine_store {A} (prefix : string) (m : result EngineError A) : result StoreError A :=
  map_err (fun e => Internal (String.append prefix (engine_message e))) m.

Definition init_role_store (r : WorkerRole) (max_connections : Z) : BM unit :=
  aw_init_pg_store (role_db_pool_size r max_connections).

Definition build_evaluator_runner (target : AssignmentTarget) : BM (option Role) :=
  let! spec := aw_load_run_spec (run_id target) in
  match spec with
  | None => se_ret None
  | Some spec =>
      match spec_evaluator spec with
      | None => se_ret None
      | Some evaluator_config =>
          init_role_store (role target) MAX_EVALUATOR_DB_CONNECTIONS ;!
          aw_listen_for_batches (run_id target) ;!
          let! evaluator := se_lift (engine_store "failed to build evaluator: " (build_evaluator evaluator_config)) in
          fun w =>
            let '(w, epoch) := ew_new_token w in
            let i := mkEvaluatorInfo (run_id target) (ni_name info) (ni_uuid info) (spec_domain spec)
                       (millis (spec_evaluator_snapshot_interval_ms spec)) epoch
                       (max_batch_retries (sp_queue (spec_sampler_params spec))) in
            (w, Ok (Some (EvaluatorR (mkEvaluatorRole i (evaluator_runner_new (ew_now w) evaluator_config evaluator)))))
      end
  end.

Definition load_active_sampler_task (run : i32) : BM (option RunTask) :=
  let! task := r_load_active_run_task run in
  match task with
  | Some t => se_ret (if runs_on_sampler_worker (task_spec t) then Some t else None)
  | None => se_ret None
  end.

Definition missing_accumulator_configuration_error : StoreError := Internal "run task has no accumulator configuration".

(** A checkpoint's accumulator, the accumulator of a named source, a fresh one, the
    one of the latest stage. *)
Definition resolve_observable_state_for_sampler_task (restored_snapshot : option RunnerCheckpoint)
    (accumulator_source_snapshot base_stage_snapshot : option RunStageSnapshot) (new_accumulator_config : option AccumulatorConfig)
    : result StoreError AccumulatorState :=
  match restored_snapshot with
  | Some snapshot => Ok (rc_observable_state snapshot)
  | None =>
      match accumulator_source_snapshot with
      | Some source =>
          ok_or (Internal "run task source snapshot has no accumulator state") (stage_observable_state source)
      | None =>
          match new_accumulator_config with
          | Some config => Ok (state_from_config config)
          | None =>
              match base_stage_snapshot with
              | Some base => ok_or missing_accumulator_configuration_error (stage_observable_state base)
              | None => Err missing_accumulator_configuration_error
              end
          end
      end
  end.

Definition checkpoint_for (t : RunTask) (snapshot : option RunnerCheckpoint) : option RunnerCheckpoint :=
  s ← snapshot; if rc_task_id s =? task_id t then Some s else None.
Definition carryover_hint (t : RunTask) (max_batch : usize) (snapshot : option RunnerCheckpoint) : option usize :=
  s ← snapshot; if rc_task_id s =? task_id t then None else Some (reduced_carryover_batch_size (rc_queue s) max_batch).

Definition resolve_effective_sampler_context (run : i32) (t : RunTask)
    : BM (E * SamplerInitialization * list BatchTransformConfig) :=
  let! latest_snapshot := aw_load_sampler_checkpoint run in
  let! tables := ew_stage_tables in
  match resolve_stage_context tables run t (task_sequence_nr t) (rc_sampler_snapshot <$> checkpoint_for t latest_snapshot) with
  | Ok resolved => se_ret (rs_evaluator_config resolved, rs_sampler resolved, rs_batch_transforms resolved)
  | Err err =>
      if String.eqb (store_error_message err) HAVANA_HANDOFF_REQUIRED_ERROR
      then fun w => (fail_task_activation_and_pause_run run (task_id t) (store_error_message err) w, Err err)
      else se_fail err
  end.

(** *** [SamplerAggregatorRunner::new] *)

Definition is_stratified_task (t : RunTask) : bool :=
  match task_spec t with Sample StratifiedEstimator _ _ _ _ _ _ _ _ => true | _ => false end.
Definition explicit_accumulator (t : RunTask) : bool :=
  match task_spec t with Sample _ _ _ _ _ _ (Some (SrcConfig _ _)) _ _ => true | _ => false end.

Definition strata_queries (partition : StratificationConfig) : list DiscreteSubspace :=
  map (fun prefix => prefix_query prefix ∅) (partition_prefixes partition).

(** The sampler is asked for the probabilities of the strata. *)
Definition asks_masses (t : RunTask) (partition : StratificationConfig) (state : AccumulatorState) (restoring : bool) : bool :=
  match state with
  | AStratified _ => false
  | _ =>
      is_ok (let? config := state_config state in validate_accumulator partition config)
      && is_stratified_task t && negb (restoring || negb (state_sample_count state =? 0) || negb (explicit_accumulator t))
  end.

Definition prepare_runner (t : RunTask) (config : SamplingConfig) (proposal_id : string) (sampler : Sm) (state : AccumulatorState)
    (restoring : bool) : Sm * AccumulatorState * result EngineError (option StratificationPlan) :=
  let '(state', plan) :=
    prepare_estimator (is_stratified_task t) (explicit_accumulator t) (stratification_of config)
      (fun prefixes => (s_discrete_mass_batch (map (fun prefix => prefix_query prefix ∅) prefixes) sampler).2)
      proposal_id state restoring in
  let sampler' :=
    match stratification_of config with
    | Some partition =>
        if asks_masses t partition state restoring then (s_discrete_mass_batch (strata_queries partition) sampler).1 else sampler
    | None => sampler
    end in
  (sampler', state', plan).

Definition sampler_runner_new (run : i32) (t : RunTask) (sampler : Sm) (observable : AccumulatorState) (evaluator_config : E)
    (sampler_config : SamplingConfig) (batch_transforms : list BatchTransformConfig) (params : SamplerAggregatorRunnerParams)
    (base_queue_config : SamplerQueueConfig) (initial_batch_size : usize) (run_progress : RunSampleProgress)
    (resume : option RunnerCheckpoint) : BM SamplerRole :=
  se_lift (engine_store "" (let? config := state_config observable in validate_accumulator_config evaluator_config config)) ;!
  fun w =>
    let '(w, proposal_id) := ew_new_token w in
    let '(sampler, observable, plan) :=
      prepare_runner t sampler_config proposal_id sampler observable (bool_decide (is_Some resume)) in
    (let! plan := se_lift (engine_store "" plan) in
     aw_start_io (sp_io_threads params) ;!
     let! now := se_get w_now in
     let i := mkRunnerInfo run (ni_name info) plan evaluator_config sampler_config batch_transforms
                (millis (sp_performance_snapshot_interval_ms params)) (millis (sp_frontend_sync_interval_ms params))
                base_queue_config in
     se_ret (mkSamplerRole i (runner_new i now t sampler observable (sp_queue params) initial_batch_size run_progress resume)
               (millis (sp_min_tick_time_ms params)))) w.

(** *** [build_sampler_runner] *)

(** The activation is given up: the task fails and its run is paused. *)
Definition abandon (run : i32) (t : RunTask) (reason : string) : BM (option Role) := fun w =>
  (fail_task_activation_and_pause_run run (task_id t) reason w, Ok None).

Definition save_first_checkpoint (s : SamplerRole) : BM (option Role) := fun w =>
  let '((s, w), x) := se_store_err (on_runner save_initial_checkpoint) (s, w) in
  (w, let? _ := x in Ok (Some (SamplerR s))).

Definition with_tuning (t : RunTask) (params : SamplerAggregatorRunnerParams) : SamplerAggregatorRunnerParams :=
  mkSamplerParams (sp_performance_snapshot_interval_ms params) (sp_min_tick_time_ms params) (sp_frontend_sync_interval_ms params)
    (sp_io_threads params) (sp_db_pool_size params)
    (match sample_queue_tuning (task_spec t) with Some tuning => apply_tuning tuning (sp_queue params) | None => sp_queue params end).

(** The part after the sampler is built. *)
Definition activate_sampler (run : i32) (spec : RunSpec E) (t : RunTask) (latest : option RunnerCheckpoint)
    (accumulator_source base : option RunStageSnapshot) (evaluator_config : E) (initialization : SamplerInitialization)
    (diagnostic : option AccumulatorConfig) (batch_transforms : list BatchTransformConfig) (sampler : Sm) : BM (option Role) :=
  let params := spec_sampler_params spec in
  let restored := checkpoint_for t latest in
  let! observable :=
    se_lift (resolve_observable_state_for_sampler_task restored accumulator_source base
               (or_else diagnostic (new_accumulator_config (task_spec t)))) in
  let initial_batch_size :=
    default (max_batch_size (sp_queue params)) (carryover_hint t (max_batch_size (sp_queue params)) latest) in
  match restored with Some checkpoint => aw_restore_sampler_checkpoint run checkpoint | None => se_ret tt end ;!
  let! run_progress := aw_load_run_sample_progress run in
  if (0 <? task_completed t) && is_none latest
  then se_fail (Internal "task has completed samples but no resume checkpoint; refusing to restart from fresh state")
  else
    match restored with
    | Some checkpoint => aw_record_restored run (task_id t) (rc_completed_samples checkpoint) (ni_name info)
    | None => se_ret tt
    end ;!
    let! s := sampler_runner_new run t sampler observable evaluator_config (initialization_config initialization) batch_transforms
                (with_tuning t params) (sp_queue params) initial_batch_size (default (mkRunProgress 0 0 0%float) run_progress) restored in
    if is_none restored then save_first_checkpoint s else se_ret (Some (SamplerR s)).

Definition build_sampler_runner (target : AssignmentTarget) : BM (option Role) :=
  let run := run_id target in
  let! spec := aw_load_run_spec run in
  match spec with
  | None => se_ret None
  | Some spec =>
      init_role_store (role target) (sp_db_pool_size (spec_sampler_params spec)) ;!
      let! task := load_active_sampler_task run in
      match task with
      | None => se_ret None
      | Some t =>
          let! latest := aw_load_sampler_checkpoint run in
          let! context := resolve_effective_sampler_context run t in
          let '(evaluator_config, initialization, batch_transforms) := context in
          let! evaluator_domain := se_lift (engine_store "failed to resolve evaluator domain: " (resolve_domain evaluator_config)) in
          if negb (domain_eqb evaluator_domain (spec_domain spec))
          then abandon run t "task evaluator domain does not match run domain"
          else
            let! tables := ew_stage_tables in
            let base := snd <$> load_latest_stage_snapshot_before_sequence run (task_sequence_nr t) tables in
            let! tables := ew_stage_tables in
            let! source := se_lift (resolve_task_source_snapshot tables run t (sample_accumulator_source (task_spec t))) in
            match build_evaluator evaluator_config with
            | Err err =>
                abandon run t (String.append "failed to build evaluator for sampler metadata: " (engine_message err))
            | Ok evaluator =>
                let metadata := evaluator_metadata evaluator in
                aw_record_evaluator_metadata run metadata ;!
                let sample_budget := n ← nr_expected_samples (task_spec t); if 0 <=? n then Some n else None in
                let! diagnostic :=
                  se_lift (match diagnostic_accumulator_config initialization with
                           | Some config => let? config := engine_store "" config in Ok (Some config)
                           | None => Ok None
                           end) in
                match initialize_sampler initialization (spec_domain spec) sample_budget metadata with
                | Err err => abandon run t (String.append "failed to build sampler: " (engine_message err))
                | Ok sampler =>
                    activate_sampler run spec t latest (snd <$> source) base evaluator_config initialization diagnostic
                      batch_transforms sampler
                end
            end
      end
  end.

Definition build_runner_for_target (target : AssignmentTarget) : BM (option Role) :=
  match role target with
  | WorkQueue.Evaluator => build_evaluator_runner target
  | SamplerAggregator => build_sampler_runner target
  end.
End roles.
