(* ===== verification/RoleLaws.v ===== *)
(** What activation guarantees (src/runners/node_runner/reconcile.rs and
    role_runner.rs): a sampler that starts on a task with a checkpoint resumes it,
    and what an error during activation or at the end of a task comes to. *)
From S2P Require Import Prelude Floats Errors Domain Batch Config LatentBatch Generation AccumulatorTrait Scalar Stratification Vector Gammaloop AccumulatorState Extraction Evaluation Raster Metrics WorkQueue Assignments Queue Tasks Runner TaskStore StageContext Evaluator NodeRunner NodeLaws RoleRunners.

Lemma se_bind_ok {S E A B} (m : SE S E A) (k : A -> SE S E B) s s' b :
  (let! x := m in k x) s = (s', Ok b) -> exists s1 a, m s = (s1, Ok a) /\ k a s1 = (s', Ok b).
Proof. unfold se_bind. destruct (m s) as [s1 [a|e]]; [eauto|done]. Qed.

Lemma se_lift_ok {S E A} (m : result E A) (s s' : S) a : se_lift m s = (s', Ok a) -> s' = s /\ m = Ok a.
Proof. unfold se_lift. by intros [= <- <-]. Qed.

Section role_laws.
Context {J : Type} {TV : TomlValues} {E : Type} {LM : Libm} {OB : Observables} {TC : @TaskCodec J TV E} {SS : @SavedStates J}.
Context {Rng : Type}.
Context {W Sm Ev Mat Tr : Type} {QW : QueueWorld W (EvaluationBatch Rng) BatchResult} {RS : @RunnerWorld J TV E OB Rng W}
  {SO : @SamplerOps J Rng Sm} {JS : @Json J OB} {EW : @EvaluatorWorld J TV E OB TC Rng W} {EN : @Engines J E OB Rng Ev Mat Tr}
  {NW : @NodeWorld J TV E TC W} {AW : @ActivationWorld J E OB Rng W} {AE : @ActivationEngines J E OB Ev Sm}.

Notation RunTask := (@RunTask J TV E).
Notation RunnerCheckpoint := (@RunnerCheckpoint J OB Rng).
Notation SamplerRole := (@SamplerRole J TV E OB Rng W Sm).

Context (info : NodeInfo).

(** A restored accumulator goes into the estimator as it is. *)
Lemma prepare_estimator_restoring stratified explicit strat masses id state state' plan :
  prepare_estimator stratified explicit strat masses id state true = (state', Ok plan) -> state' = state.
Proof.
  unfold prepare_estimator. destruct strat as [partition|]; [|destruct (_ || _); by intros [= <- _]].
  match goal with |- match ?p with _ => _ end = _ -> _ => destruct p as [[s1 p1]|e] eqn:Ep end; [|done].
  intros [= <- _]. apply result_bind_ok in Ep as (c & _ & Ep). apply result_bind_ok in Ep as (_ & _ & Ep).
  destruct stratified.
  - destruct state as [s|s|s|s|s]; cbn in Ep; try done. destruct (negb _); cbn in Ep; [done|].
    apply result_bind_ok in Ep as (_ & _ & Ep). by injection Ep.
  - destruct state as [s|s|s|s|s]; cbn [andb negb orb] in Ep; [done|..];
      apply result_bind_ok in Ep as (pr & _ & Ep); apply result_bind_ok in Ep as (co & _ & Ep);
      apply result_bind_ok in Ep as (_ & _ & Ep); by injection Ep.
Qed.

Lemma prepare_restoring (t : RunTask) (config : @SamplingConfig J) id (sampler : Sm) state sampler' state' plan :
  prepare_runner t config id sampler state true = (sampler', state', Ok plan) -> state' = state.
Proof.
  unfold prepare_runner. destruct (prepare_estimator _ _ _ _ _ _ _) as [state1 plan1] eqn:Ep.
  intros [= _ -> ->]. by eapply prepare_estimator_restoring.
Qed.

(** ** Resuming *)

Lemma sampler_runner_new_resumes run (t : RunTask) sampler observable econfig sconfig transforms params base size progress c w w' (s : SamplerRole) :
  sampler_runner_new info run t sampler observable econfig sconfig transforms params base size progress (Some c) w = (w', Ok s) ->
  exists now sampler', ri_run_id (sr_info s) = run /\
    sr_runner s = runner_new (sr_info s) now t sampler' observable (sp_queue params) size progress (Some c).
Proof.
  intros H. unfold sampler_runner_new in H. apply se_bind_ok in H as (w1 & [] & _ & H). cbv beta in H.
  destruct (ew_new_token w1) as [w2 id]. destruct (prepare_runner t sconfig id sampler observable _) as [[sampler1 observable1] plan] eqn:Ep.
  apply se_bind_ok in H as (w3 & p & [-> Hp]%se_lift_ok & H).
  destruct plan as [plan|e]; [|done]. apply prepare_restoring in Ep as ->.
  apply se_bind_ok in H as (w4 & [] & _ & H). apply se_bind_ok in H as (w5 & now & _ & [= _ <-]).
  by exists now, sampler1.
Qed.

(** C26: an interrupted sampler is resumed. If the checkpoint of the run belongs to
    the active task, a sampler that is activated has had the tables rolled back to
    that checkpoint, and stands where the checkpoint was taken: the counts of the
    task, the buffered draw and its feedback, the accumulator and the cursors into
    the queue are those of the checkpoint, whatever the stage's own configuration
    says. *)
Theorem activation_resumes_its_checkpoint run spec (t : RunTask) latest source base econfig init diagnostic transforms sampler w w'
    (s : SamplerRole) (c : RunnerCheckpoint) :
  checkpoint_for t latest = Some c ->
  activate_sampler (Ev:=Ev) (Mat:=Mat) (Tr:=Tr) info run spec t latest source base econfig init diagnostic transforms sampler w
    = (w', Ok (Some (SamplerR s))) ->
  (exists w1, aw_restore_sampler_checkpoint run c w = (w1, Ok tt)) /\
  ri_run_id (sr_info s) = run /\
  let r := sr_runner s in
  task_id (task r) = task_id t /\ task_spec (task r) = task_spec t /\
  task_produced (task r) = produced_samples_total (rc_runtime_state c) /\
  task_completed (task r) = rc_completed_samples c /\
  generation (runtime_state r) = generation (rc_runtime_state c) /\
  accumulator_checkpoint_state (runtime_state r) = accumulator_checkpoint_state (rc_runtime_state c) /\
  observable_state r = rc_observable_state c /\
  queue_last_completed (sampler_queue r) = last_completed_batch_id (rc_queue c) /\
  last_produced_batch_id (q_checkpoint (sampler_queue r)) = last_produced_batch_id (rc_queue c).
Proof.
  intros Hc H. unfold activate_sampler in H. rewrite Hc in H.
  apply se_bind_ok in H as (w0 & observable & [-> Ho]%se_lift_ok & H). injection Ho as <-.
  apply se_bind_ok in H as (w1 & [] & Hrestore & H). split; [by exists w1|].
  apply se_bind_ok in H as (w2 & progress & _ & H). destruct (_ && _)%bool; [done|].
  apply se_bind_ok in H as (w3 & [] & _ & H). apply se_bind_ok in H as (w4 & s1 & Hnew & H).
  cbn in H. injection H as _ <-. apply sampler_runner_new_resumes in Hnew as (now & sampler' & Hrun & ->).
  by split_and!.
Qed.

(** ** Errors *)

(** A stage that needs a Havana grid and finds none is not paused by the
    activation that notices it. The test made on the error compares its text,
    which has a prefix, with the message inside; it never holds. The resolution
    fails with what its reads left of the world, as any other error does. *)
Lemma missing_handoff_is_not_recognized run (t : RunTask) w w1 latest w2 tables err :
  aw_load_sampler_checkpoint run w = (w1, Ok latest) -> ew_stage_tables w1 = (w2, Ok tables) ->
  resolve_stage_context tables run t (task_sequence_nr t) (rc_sampler_snapshot <$> checkpoint_for t latest) = Err err ->
  store_error_message err <> HAVANA_HANDOFF_REQUIRED_ERROR /\
  resolve_effective_sampler_context run t w = (w2, Err err).
Proof.
  intros Hl Ht Hr.
  assert (store_error_message err <> HAVANA_HANDOFF_REQUIRED_ERROR) as Hne by (destruct err; done).
  split; [done|]. unfold resolve_effective_sampler_context, se_bind. rewrite Hl, Ht, Hr.
  rewrite (proj2 (String.eqb_neq _ _)) by done. done.
Qed.

Notation Role := (@Role J TV E OB Rng W Sm Ev Mat Tr).

(** C28: an error at the end of a task fails the task. When a tick reports that the
    sampler is done and completing the task fails, the error loses its kind: even
    an interrupted connection, or a request to start again from the checkpoint,
    which the node would sit out in a tick, comes back as an internal error. The
    node stops the role, marks the active task of the run failed and takes the
    assignments of the run away. *)
Theorem completion_errors_fail_the_task t (n : @NodeRunner Role) (s s1 s2 : SamplerRole) w w1 w2 e w3 (task : @StoredTask J TV E TC) w4 k :
  role t = SamplerAggregator ->
  on_runner runner_tick (s, w) = ((s1, w1), Ok true) -> on_runner complete_task (s1, w1) = ((s2, w2), Err e) ->
  let err := Internal (runner_error_message e) in
  let n2 := set_nd_active (Some (t, SamplerR s2)) n in
  nw_load_active_run_task (run_id t) (stopped info n2 w2) = (w3, Ok (Some task)) ->
  nw_clear_desired_assignments_for_run (run_id t)
    (nw_fail_run_task (task_id (st_task task)) (role_failure_reason t err) w3).1 = (w4, Ok k) ->
  (let! outcome := tick_role t (SamplerR s) in after_tick info t outcome) (n, w) =
    ((after_failure info t n2, w4), Ok false).
Proof.
  intros Hrole Htick Hcomplete err n2 Hload Hclear.
  assert (role_tick (SamplerR s : Role, w) = ((SamplerR s2, w2), Err err)) as Ht.
  { cbn. unfold sampler_role_tick. rewrite Htick. unfold se_bind, se_store_err. by rewrite Hcomplete. }
  unfold se_bind at 1, tick_role. rewrite Ht. cbn [after_tick is_database_error is_retry_activation err].
  change (set_nd_active (Some (t, SamplerR s2)) n) with n2. unfold se_bind at 1. rewrite fail_current_stops.
  unfold pause_run. rewrite Hrole. rewrite (bool_decide_false (SamplerAggregator = WorkQueue.Evaluator)) by done.
  rewrite andb_false_r. unfold se_bind, nstore, nworld. cbn [fst snd]. rewrite Hload. cbn [map_err fst snd].
  destruct (nw_fail_run_task _ _ w3) as [w5 x]. cbn [fst snd se_ret] in Hclear |- *. by rewrite Hclear.
Qed.
End role_laws.
