(* ===== verification/NodeInstance.v ===== *)
(** The tables of the deployment as the world of a node: the task tables, the node
    registry and the requests a node makes of them, any of which may be lost, or its
    answer. What giving up on a role does to the tables, and what happens when two
    nodes want to be the sampler of one run. *)
From S2P Require Import Prelude Floats Errors Domain Batch Config LatentBatch Generation AccumulatorTrait Scalar Stratification Vector Gammaloop AccumulatorState Extraction Evaluation Raster Metrics WorkQueue Assignments ControlPlane Queue Tasks Runner TaskStore TaskQueue StageContext StageResolution TaskControl TaskControlLaws Evaluator EvaluatorLaws EvaluatorDrain EvaluatorInstance NodeRunner NodeLaws.

(** The two violations the store names; the others stay database errors. *)
Definition map_sqlx (message : string) : StoreError :=
  if String.eqb message "idx_nodes_current_sampler_run"
  then InvalidInput "run already has a current sampler_aggregator node; clear the existing current sampler before starting another node"
  else if String.eqb message "run_tasks_name_unique" then InvalidInput "task name must be unique within a run"
  else Database message.

Section plane.
Context {J : Type} {TV : TomlValues} {E : Type} {LM : Libm} {OB : Observables} {TC : @TaskCodec J TV E}.

Notation ControlWorld := (@ControlWorld J TV E OB TC).
Notation StoredTask := (@StoredTask J TV E TC).

Record PlaneDb := mkPlaneDb {
  pd_control : ControlWorld;
  pd_launches : gmap i64 LaunchRow;
  pd_externals : gmap (i64 * string) ExternalRow
}.
Definition plane_tables (d : PlaneDb) : Tables :=
  let t := control_tables (pd_control d) in mkTables (nodes t) (runs t) (pd_launches d) (pd_externals d).
Definition put_tables (t : Tables) (d : PlaneDb) : PlaneDb :=
  mkPlaneDb (set_cw_nodes (nodes t) (pd_control d)) (launches t) (externals t).
Definition plane_tasks (d : PlaneDb) := cw_tasks (pd_control d).
Definition put_tasks t (d : PlaneDb) : PlaneDb := mkPlaneDb (set_cw_tasks t (pd_control d)) (pd_launches d) (pd_externals d).

(** Signals and lease events that are still to come; none when the lists are
    used up. *)
Record PlaneWorld := mkPlane {
  pw_db : PlaneDb;
  pw_turns : list (Turn PlaneDb);
  pw_clock : Z;
  pw_signals : list bool;
  pw_lease : list Received
}.
Definition set_pw_db (d : PlaneDb) (w : PlaneWorld) : PlaneWorld :=
  mkPlane d (pw_turns w) (pw_clock w) (pw_signals w) (pw_lease w).
Definition pass (d : Z) (w : PlaneWorld) : PlaneWorld :=
  mkPlane (pw_db w) (pw_turns w) (pw_clock w + d) (pw_signals w) (pw_lease w).

(** The database's clock counts microseconds. *)
Definition db_now (w : PlaneWorld) : i64 := pw_clock w / 1000.

Definition plane_request {X} (f : i64 -> PlaneDb -> PlaneDb * result StoreError X) (w : PlaneWorld) : PlaneWorld * result StoreError X :=
  match pw_turns w with
  | [] => let '(d, r) := f (db_now w) (pw_db w) in (set_pw_db d w, r)
  | t :: ts =>
      let w := mkPlane (tn_before t (pw_db w)) ts (pw_clock w + tn_clock t) (pw_signals w) (pw_lease w) in
      match tn_delivery t with
      | RequestLost => (w, Err connection_lost)
      | Delivered => let '(d, r) := f (db_now w) (pw_db w) in (set_pw_db d w, r)
      | ReplyLost => (set_pw_db (f (db_now w) (pw_db w)).1 w, Err connection_lost)
      end
  end.

Definition on_plane_tables {X} (f : i64 -> Tables -> Tables * result string X) : i64 -> PlaneDb -> PlaneDb * result StoreError X :=
  fun now d => let '(t, r) := f now (plane_tables d) in (put_tables t d, map_err map_sqlx r).
Definition on_plane_tasks {X} (f : i64 -> @Tx J TV E OB TC X) : i64 -> PlaneDb -> PlaneDb * result StoreError X :=
  fun now d => let '(t, r) := f now (plane_tasks d) in (put_tasks t d, r).

Definition get_desired_assignment (name : string) (d : Tables) : option AssignmentTarget := n ← nodes d !! name; wanted n.

Definition next_signal (w : PlaneWorld) : PlaneWorld * bool :=
  match pw_signals w with
  | [] => (w, false)
  | s :: l => (mkPlane (pw_db w) (pw_turns w) (pw_clock w) l (pw_lease w), s)
  end.

#[export] Instance plane_world : @NodeWorld J TV E TC PlaneWorld := {
  nw_now := pw_clock;
  nw_sleep := pass;
  nw_sleep_or_signal d w := next_signal (pass d w);
  nw_signalled := next_signal;
  nw_jitter w := (w, 1%float);
  nw_startup w := (w, Announced (Some LeaseReady));
  nw_try_recv w :=
    match pw_lease w with
    | [] => (w, Empty)
    | e :: l => (mkPlane (pw_db w) (pw_turns w) (pw_clock w) (pw_signals w) l, e)
    end;
  nw_get_desired_assignment name := plane_request (fun _ d => (d, Ok (get_desired_assignment name (plane_tables d))));
  nw_set_current_assignment uuid r run := plane_request (on_plane_tables (fun now => set_current_assignment now uuid r run));
  nw_clear_current_assignment uuid := plane_request (on_plane_tables (fun now => clear_current_assignment now uuid));
  nw_consume_node_shutdown_request uuid :=
    plane_request (on_plane_tables (fun _ t => let '(t, b) := consume_node_shutdown_request uuid t in (t, Ok b)));
  nw_expire_node_lease uuid := plane_request (on_plane_tables (fun now t => (expire_node_lease now uuid t, Ok tt)));
  nw_load_active_run_task run := plane_request (on_plane_tasks (fun _ t => (t, load_active_run_task run t)));
  nw_list_run_tasks run := plane_request (on_plane_tasks (fun _ t => (t, list_run_tasks run t)));
  nw_fail_run_task id reason := plane_request (on_plane_tasks (fun now => fail_run_task now id reason));
  nw_clear_desired_assignments_for_run run :=
    plane_request (on_plane_tables (fun _ t =>
      (clear_desired_assignments_for_run run t,
       Ok (rows_matching (fun _ n => on_tree t run (wanted n) || on_run run (pool n)) t))))
}.

(** *** The two workers' tables apart *)

Lemma plane_tables_put_tasks_nodes t d : nodes (plane_tables (put_tasks t d)) = nodes (plane_tables d).
Proof. done. Qed.
Lemma put_plane_tables d : put_tables (plane_tables d) d = d.
Proof. by destruct d as [[] ? ?]. Qed.
Lemma plane_tasks_put t d : plane_tasks (put_tasks t d) = t.
Proof. done. Qed.
Lemma put_plane_tasks d : put_tasks (plane_tasks d) d = d.
Proof. by destruct d as [[] ? ?]. Qed.

(** *** Failing a task *)

Lemma fail_row_fits (now : i64) id reason (r : @RunTaskRow J TV E TC) (d : @TaskTables J TV E OB TC) :
  tasks_ok d -> run_tasks d !! id = Some r -> row_conflict id (fail_row now reason r) (run_tasks d) = None.
Proof.
  intros Hok Hr. apply row_conflict_none. split; [exact (ok_progress _ Hok _ _ Hr)|]. intros other o Ho Hne.
  pose proof (ok_unlike _ Hok id other r o Hr Ho (not_eq_sym Hne)) as Hu. intros Hrun. destruct (Hu Hrun) as (? & ? & _).
  split_and!; [done..|]. by intros [? _].
Qed.

Lemma fail_run_task_fails now id reason r (d : @TaskTables J TV E OB TC) :
  tasks_ok d -> run_tasks d !! id = Some r -> is_pending r || is_active r = true ->
  fail_run_task now id reason d = (set_run_tasks (<[id := fail_row now reason r]> (run_tasks d)) d, Ok tt).
Proof.
  intros Hok Hr Hs. unfold fail_run_task, transaction, update_task, se_bind, update_row. rewrite Hr, Hs.
  unfold se_bind, write_row. by rewrite (fail_row_fits now id reason r d Hok Hr).
Qed.

Lemma load_active_row run (d : @TaskTables J TV E OB TC) (t : StoredTask) :
  load_active_run_task run d = Ok (Some t) ->
  exists r, run_tasks d !! task_id (st_task t) = Some r /\ rt_run_id r = run /\ rt_state r = TActive.
Proof.
  unfold load_active_run_task. destruct (find _ _) as [[id r]|] eqn:Ef; [|done].
  intros H. apply result_bind_ok in H as (t' & Hd & [= <-]).
  apply find_queue in Ef as (Hr & Hrun & Ha & _). apply bool_decide_eq_true in Ha.
  exists r. split_and!; [|done|done]. revert Hd. unfold protocol, decode_task_row.
  destruct (let? _ := _ in _) eqn:Ed; [|done]. intros [= <-].
  repeat (apply result_bind_ok in Ed as (? & _ & Ed)). by injection Ed as <-.
Qed.

(** *** Requests that get through *)

Lemma plane_request_quiet {X} (f : i64 -> PlaneDb -> PlaneDb * result StoreError X) w :
  pw_turns w = [] -> plane_request f w = (set_pw_db (f (db_now w) (pw_db w)).1 w, (f (db_now w) (pw_db w)).2).
Proof. intros Hq. unfold plane_request. rewrite Hq. by destruct (f _ _). Qed.

Definition cleared (run : i32) (d : PlaneDb) : PlaneDb := put_tables (clear_desired_assignments_for_run run (plane_tables d)) d.

Lemma clear_quiet run w :
  pw_turns w = [] -> (nw_clear_desired_assignments_for_run run w).1 = set_pw_db (cleared run (pw_db w)) w.
Proof. intros Hq. cbn. by rewrite plane_request_quiet. Qed.

Lemma cleared_nodes run d name node :
  nodes (plane_tables (cleared run d)) !! name = Some node ->
  on_tree (plane_tables (cleared run d)) run (wanted node) = false /\ on_run run (pool node) = false.
Proof.
  change (nodes (plane_tables (cleared run d))) with (nodes (clear_desired_assignments_for_run run (plane_tables d))).
  change (on_tree (plane_tables (cleared run d))) with (on_tree (plane_tables d)).
  unfold clear_desired_assignments_for_run. rewrite lookup_update_nodes.
  destruct (nodes (plane_tables d) !! name) as [n0|]; [|done]. cbn [fmap option_fmap option_map]. intros [= <-].
  destruct (_ || _)%bool eqn:Ec; [done|]. by apply orb_false_iff in Ec.
Qed.

(** The tables when a run is given up on. *)
Definition given_up now t (task : StoredTask) err (d : PlaneDb) : PlaneDb :=
  cleared (run_id t) (put_tasks (fail_run_task now (task_id (st_task task)) (permanent_failure_reason t err) (plane_tasks d)).1 d).

Lemma give_up_quiet {R} t err (n : @NodeRunner R) w (task : StoredTask) :
  pw_turns w = [] -> load_active_run_task (run_id t) (plane_tasks (pw_db w)) = Ok (Some task) ->
  give_up_start t err (n, w) = ((n, set_pw_db (given_up (db_now w) t task err (pw_db w)) w), Ok tt).
Proof.
  intros Hq Hl. unfold give_up_start, task_to_fail, nstore, nworld, se_bind, se_ret. cbn [fst snd nw_load_active_run_task plane_world].
  rewrite plane_request_quiet by done. unfold on_plane_tasks at 1 2. cbn [fst snd]. rewrite Hl. cbn [map_err fst snd].
  unfold fail_task_activation_and_pause_run. cbn [nw_fail_run_task plane_world]. rewrite put_plane_tasks.
  rewrite plane_request_quiet by done. unfold on_plane_tasks.
  change (db_now (set_pw_db (pw_db w) w)) with (db_now w). change (pw_db (set_pw_db (pw_db w) w)) with (pw_db w).
  destruct (fail_run_task _ _ _ _) as [tasks x] eqn:Ef. cbn [fst snd]. rewrite clear_quiet by done.
  unfold given_up. rewrite Ef. done.
Qed.

Section node.
Context {R : Type} {RR : RoleRunner PlaneWorld R}.
Context (info : NodeInfo).
Context (build : AssignmentTarget -> PlaneWorld -> PlaneWorld * result StoreError (option R)).
Notation limit := (max_consecutive_start_failures info).

(** giving up on a role pauses its run. When the last failure of its start
    budget is counted and the requests get through, the active task of the run is
    failed with the reason, the other tasks stay as they are, no node is left with
    an assignment in the tree of the run or in its pool, and the node will not try
    again. *)
Theorem exhausted_start_pauses_the_run t n w w1 err (task : StoredTask) :
  NodeLaws.reachable info build n -> nd_active n = None ->
  is_blocked t (reset_for_desired_target_change (Some t) (nd_retry n)) = false ->
  limit < 2 ^ 32 -> limit <= failures_of t n + 1 ->
  build t w = (w1, Err err) -> counted err = true ->
  pw_turns w1 = [] -> TaskQueue.reachable (plane_tasks (pw_db w1)) ->
  load_active_run_task (run_id t) (plane_tasks (pw_db w1)) = Ok (Some task) ->
  exists n' w', reconcile info build (Some t) (n, w) = ((n', w'), Ok tt) /\
    nd_active n' = None /\ is_blocked t (nd_retry n') = true /\
    (exists r, run_tasks (plane_tasks (pw_db w')) !! task_id (st_task task) = Some r /\ rt_run_id r = run_id t /\
       rt_state r = TFailed /\ rt_failure_reason r = Some (permanent_failure_reason t err)) /\
    (forall other, other <> task_id (st_task task) ->
       run_tasks (plane_tasks (pw_db w')) !! other = run_tasks (plane_tasks (pw_db w1)) !! other) /\
    (forall name node, nodes (plane_tables (pw_db w')) !! name = Some node ->
       on_tree (plane_tables (pw_db w')) (run_id t) (wanted node) = false /\ on_run (run_id t) (pool node) = false).
Proof.
  intros Hn%node_reachable_ok Ha Hb Hl Hlast Hw He Hq Hd%TaskQueue.reachable_ok Hload.
  assert (stopped info n w = w) as Hstop by (unfold stopped; by rewrite Ha).
  destruct (reconcile info build (Some t) (n, w)) as [s x] eqn:Hs. pose proof Hs as Hs'.
  rewrite (reconcile_failed info build t n w w1 err) in Hs' by (try done; first [by rewrite Hstop|unfold current_target; by rewrite Ha]).
  apply (failed_poll_counts info build t n w w1 err s x) in Hs as (Hsn & _ & Hsa & _ & _ & Hblocked); try done; [|by rewrite Hstop].
  rewrite (proj2 (Z.leb_le _ _) Hlast) in Hblocked.
  assert ((note_failure t limit (reset_for_desired_target_change (Some t) (nd_retry n))).2 = true) as Hnote.
  { destruct (note_failure _ _ _) as [x1 b] eqn:Ef. cbn.
    pose proof (note_failure_ok limit t _ _ _ (reset_ok limit (Some t) _ (no_retry info n Hn))
      (reset_may_fail limit t _ (no_retry info n Hn) Hb) Ef) as (_ & _ & <- & _).
    rewrite Hsn in Hblocked. unfold failed_node in Hblocked. by rewrite Ef in Hblocked. }
  rewrite Hnote in Hs'. cbn [se_when] in Hs'. rewrite (give_up_quiet t err _ w1 task Hq Hload) in Hs'. injection Hs' as <- <-.
  eexists _, _. split; [reflexivity|]. split; [done|]. split; [exact Hblocked|].
  apply load_active_row in Hload as (r & Hr & Hrun & Hst).
  assert (run_tasks (plane_tasks (given_up (db_now w1) t task err (pw_db w1))) =
    <[task_id (st_task task) := fail_row (db_now w1) (permanent_failure_reason t err) r]> (run_tasks (plane_tasks (pw_db w1)))) as Htasks.
  { change (plane_tasks (given_up _ _ _ _ _)) with (fail_run_task (db_now w1) (task_id (st_task task)) (permanent_failure_reason t err) (plane_tasks (pw_db w1))).1.
    rewrite (fail_run_task_fails _ _ _ r) by (try done; unfold is_pending, is_active; by rewrite Hst). done. }
  change (pw_db (set_pw_db ?d w1)) with d. rewrite Htasks. split_and!.
  - exists (fail_row (db_now w1) (permanent_failure_reason t err) r). by rewrite lookup_insert_eq.
  - intros other Hne. by rewrite lookup_insert_ne by done.
  - intros name node. apply cleared_nodes.
Qed.

(** *** Two nodes and one sampler *)

Lemma update_nodes_none matches set d :
  (forall name n, nodes d !! name = Some n -> matches name n = false) -> update_nodes matches set d = d.
Proof.
  intros H. destruct d as [ns rs ls es]. unfold update_nodes, set_nodes. cbn in *. f_equal. apply map_eq. intros name.
  rewrite map_lookup_imap. destruct (ns !! name) as [n|] eqn:En; [|done]. cbn. by rewrite (H name n En).
Qed.

(** Another live node still works as the sampler that [node] is to be. *)
Record sampler_taken now t uuid (d : Tables) : Prop := {
  st_role : role t = SamplerAggregator;
  st_mine : exists name node, nodes d !! name = Some node /\ nr_uuid node = uuid /\ live now node = true;
  st_other : exists other node', nodes d !! other = Some node' /\ nr_uuid node' <> uuid /\ live now node' = true /\ active node' = Some t
}.

Lemma taken_sampler_is_refused now t uuid d :
  sampler_taken now t uuid d ->
  set_current_assignment now uuid (role t) (run_id t) d = (clear_expired_assignments now d, Err "idx_nodes_current_sampler_run"%string).
Proof.
  intros [Hrole (name & node & Hn & Hu & Hl) (other & node' & Ho & Hou & Hol & Hact)].
  pose proof (clear_expired_live _ _ _ _ Hn Hl) as Hn1. pose proof (clear_expired_live _ _ _ _ Ho Hol) as Ho1.
  unfold set_current_assignment. cbv zeta. set (d1 := clear_expired_assignments now d) in *.
  assert (live_uuid now uuid name node = true) as Hm by (unfold live_uuid; by rewrite Hu, String.eqb_refl, Hl).
  assert (live_uuid now uuid other node' = false) as Hom by (unfold live_uuid; by rewrite (proj2 (String.eqb_neq _ _) Hou)).
  destruct (rows_matching (live_uuid now uuid) d1 =? 0) eqn:Ez.
  { apply Z.eqb_eq in Ez. rewrite rows_matching_zero in Ez. specialize (Ez name node Hn1). congruence. }
  rewrite bool_decide_true; [done|]. set (d2 := update_nodes _ _ d1).
  exists name, (set_active (Some (mkTarget (role t) (run_id t))) node). split.
  { unfold d2. rewrite lookup_update_nodes, Hn1. cbn. by rewrite Hm. }
  exists other, node'. split; [unfold d2; rewrite lookup_update_nodes, Ho1; cbn; by rewrite Hom|].
  split; [congruence|]. cbn. rewrite Hrole, Hact. destruct t as [rt run]. cbn in Hrole |- *. by subst.
Qed.

(** C25: a handover of a sampler ends the process that takes over. A node that is to
    be the sampler of a run, while another live node still is, builds the role, with
    all that activation does to the tables of the run, and is then refused the
    registration; the error is none of the database, so the loop of the process
    ends with it, at the first attempt: nothing is counted as a failed start, and
    the lease is not given back. *)
Theorem sampler_handover_ends_the_process fuel next n w t r w1 node :
  nd_active n = None -> is_blocked t (reset_for_desired_target_change (Some t) (nd_retry n)) = false ->
  pw_turns w = [] -> pw_signals w = [] -> pw_lease w = [] -> next <= pw_clock w ->
  nodes (plane_tables (pw_db w)) !! ni_name info = Some node -> wanted node = Some t ->
  (forall name n', nodes (plane_tables (pw_db w)) !! name = Some n' -> nr_uuid n' = ni_uuid info -> shutdown_requested n' = false) ->
  build t w = (w1, Ok (Some r)) -> pw_turns w1 = [] ->
  sampler_taken (db_now w1) t (ni_uuid info) (plane_tables (pw_db w1)) ->
  exists n' w' message,
    run_loop info build (S fuel) next (n, w) = ((n', w'), Some (Err (ExitError (InvalidInput message)))) /\
    consecutive_failures (nd_retry n') = failures_of t n /\
    pw_db w' = put_tables (clear_expired_assignments (db_now w1) (plane_tables (pw_db w1))) (pw_db w1).
Proof.
  intros Ha Hb Hq Hsig Hlease Hdue Hnode Hwanted Hshut Hw Hq1 Htaken.
  assert (next_signal w = (w, false)) as Hs by (unfold next_signal; by rewrite Hsig).
  assert (consume_node_shutdown_request (ni_uuid info) (plane_tables (pw_db w)) = (plane_tables (pw_db w), false)) as Hc.
  { unfold consume_node_shutdown_request. set (m := fun _ _ => _ && _).
    assert (forall name n', nodes (plane_tables (pw_db w)) !! name = Some n' -> m name n' = false) as Hm.
    { intros name n' Hn'. unfold m, uuid_is. destruct (String.eqb_spec (nr_uuid n') (ni_uuid info)) as [Hu|]; [|done].
      by rewrite (Hshut name n' Hn' Hu). }
    rewrite update_nodes_none by done. rewrite (proj2 (rows_matching_zero _ _) Hm). done. }
  assert (nw_consume_node_shutdown_request (ni_uuid info) w = (w, Ok false)) as Hcons.
  { cbn [nw_consume_node_shutdown_request plane_world]. rewrite plane_request_quiet by done. unfold on_plane_tables. rewrite Hc. cbn.
    rewrite put_plane_tables. by destruct w. }
  assert (nw_get_desired_assignment (ni_name info) w = (w, Ok (Some t))) as Hget.
  { cbn [nw_get_desired_assignment plane_world]. rewrite plane_request_quiet by done. cbn [fst snd]. unfold get_desired_assignment.
    rewrite Hnode. cbn. rewrite Hwanted. by destruct w. }
  assert (polls info next w w t) as Hp.
  { split; cbn [nw_signalled plane_world nw_now]; rewrite ?Hs, ?Hcons, ?Hget; try done.
    - exists Empty. split; [|by left]. cbn. by rewrite Hlease.
    - cbn [fst]. by rewrite Hget. }
  assert (polled_world info w = w) as Hpw by (unfold polled_world; by rewrite Hcons; cbn [fst]; rewrite Hget).
  assert (stopped info n w = w) as Hstop by (unfold stopped; by rewrite Ha).
  set (db := put_tables (clear_expired_assignments (db_now w1) (plane_tables (pw_db w1))) (pw_db w1)).
  set (err := map_sqlx "idx_nodes_current_sampler_run").
  assert (nw_set_current_assignment (ni_uuid info) (role t) (run_id t) w1 = (set_pw_db db w1, Err err)) as Hset.
  { cbn [nw_set_current_assignment plane_world]. rewrite plane_request_quiet by done. unfold on_plane_tables.
    by rewrite (taken_sampler_is_refused _ _ _ _ Htaken). }
  assert (build t (stopped info n (polled_world info w)) = (w1, Ok (Some r))) as Hw' by by rewrite Hpw, Hstop.
  destruct (refused_registration_exits info build fuel next n w w t r w1 (set_pw_db db w1) err Hp) as [Hrun Hcount];
    [unfold current_target; by rewrite Ha|done..|].
  eexists _, _, _. split; [exact Hrun|]. by split.
Qed.
End node.
End plane.
