(* ===== verification/NodeExamples.v ===== *)
(** Nodes at work: a role that cannot start, an evaluator that fails in a tick, two
    nodes that want to be one sampler, a sampler that is resumed and one whose last
    request fails; the instances of the properties of the node runner. *)
From S2P Require Import Prelude Floats Errors Domain Batch Config LatentBatch Feedback Generation AccumulatorTrait Scalar Stratification Vector Gammaloop AccumulatorState Extraction Evaluation Raster Metrics WorkQueue Assignments ControlPlane Queue Tasks Runner TaskStore TaskQueue StageContext StageResolution TaskControl TaskControlLaws Evaluator EvaluatorLaws EvaluatorDrain EvaluatorInstance EvaluatorExamples NodeRunner NodeLaws RoleRunners RoleLaws NodeInstance.

#[local] Existing Instances ex_libm ex_observables ex_toml ex_states ex_codec ex_engines.

Notation PW := (@PlaneWorld unit ex_toml unit ex_observables ex_codec).

(** ** The deployment: run 1 at work, and two nodes *)

Definition no_db_row (uuid : string) (wants works : option AssignmentTarget) : NodeRow :=
  ControlPlane.mkNodeRow uuid 1000 wants wants works false None None false.
Definition sampler_1 : AssignmentTarget := mkTarget SamplerAggregator 1.
Definition evaluator_1 : AssignmentTarget := mkTarget WorkQueue.Evaluator 1.

Definition node_db (target : AssignmentTarget) (other : option AssignmentTarget) : @PlaneDb unit ex_toml unit ex_observables ex_codec :=
  mkPlaneDb (mkControl ex_tasks ∅ {["a"%string := no_db_row "ua" (Some target) None; "b"%string := no_db_row "ub" None other]} ∅) ∅ ∅.
Definition node_world (target : AssignmentTarget) (other : option AssignmentTarget) : PW := mkPlane (node_db target other) [] 0 [] [].

Definition node_info : NodeInfo :=
  mkNodeInfo "a" "ua" 3 (50 * 10 ^ 6) 2%float (2000 * 10 ^ 6) (2 * 10 ^ 9) (500 * 10 ^ 6) (30 * 10 ^ 9).
Definition impatient : NodeInfo :=
  mkNodeInfo "a" "ua" 1 (50 * 10 ^ 6) 2%float (2000 * 10 ^ 6) (2 * 10 ^ 9) (500 * 10 ^ 6) (30 * 10 ^ 9).

(** A role whose ticks fail after the first [n]. *)
Definition broken : StoreError := Internal "broken".
#[local] Instance broken_role : RoleRunner PW nat := {
  role_tick s := match s.1 with O => (s, Err broken) | S n => ((n, s.2), Ok false) end;
  role_stop s := (s, Ok tt);
  role_min_tick_time _ := 0
}.
Definition cannot_build (t : AssignmentTarget) (w : PW) : PW * result StoreError (option nat) := (w, Err broken).
(** A build that fails, with an error of the database from second 1 on. *)
Definition flaky_build (t : AssignmentTarget) (w : PW) : PW * result StoreError (option nat) :=
  (w, Err (if pw_clock w <? 10 ^ 9 then broken else Database "connection reset")).
Definition builds (t : AssignmentTarget) (w : PW) : PW * result StoreError (option nat) := (w, Ok (Some 1%nat)).

Notation ex_node := (@NodeRunner nat).

(** *** A role that cannot start *)

Definition flaky_poll (n : ex_node) (w : PW) : (ex_node * PW) * result NodeExit unit := reconcile node_info flaky_build (Some sampler_1) (n, w).
Definition world_1 : PW := node_world sampler_1 None.
Definition world_2 : PW := pass (10 ^ 9) world_1.
Definition failed_once : ex_node := (flaky_poll (node_new node_info) world_1).1.1.
Definition failed_free : ex_node := (flaky_poll failed_once world_2).1.1.
Definition failed_twice : ex_node := (flaky_poll failed_free world_1).1.1.
Definition failed_thrice : ex_node := (flaky_poll failed_twice world_1).1.1.

Lemma node_eta {A B C} (p : A * B * C) : p = ((p.1.1, p.1.2), p.2).
Proof. by destruct p as [[]]. Qed.

Lemma failed_three_times : failed_polls node_info flaky_build sampler_1 3 (node_new node_info) failed_thrice.
Proof.
  refine (one_poll _ _ _ 2 _ world_1 _ broken failed_once _ _ _ _ eq_refl eq_refl (node_eta (flaky_poll (node_new node_info) world_1)) _);
    [vm_compute; reflexivity|].
  refine (free_poll _ _ _ 2 _ world_2 failed_free _ _ _ _ _ (node_eta (flaky_poll failed_once world_2)) eq_refl _);
    [vm_compute; reflexivity|by intros w1 err [= _ <-]|].
  refine (one_poll _ _ _ 1 _ world_1 _ broken failed_twice _ _ _ _ eq_refl eq_refl (node_eta (flaky_poll failed_free world_1)) _);
    [vm_compute; reflexivity|].
  refine (one_poll _ _ _ 0 _ world_1 _ broken failed_thrice _ _ _ _ eq_refl eq_refl (node_eta (flaky_poll failed_twice world_1)) (no_poll _ _ _ _));
    vm_compute; reflexivity.
Qed.

Lemma start_attempts_are_limited_witness :
  failures_of sampler_1 failed_thrice = 3 /\ is_blocked sampler_1 (nd_retry failed_thrice) = true /\
  exists n, reconcile node_info flaky_build (Some sampler_1) (failed_thrice, world_1) = ((n, world_1), Ok tt).
Proof.
  destruct (start_attempts_are_limited node_info flaky_build sampler_1 3 (node_new node_info) failed_thrice
    ltac:(reflexivity) (reach_new _ _) eq_refl failed_three_times ltac:(lia)) as (_ & _ & Hf & Hb & Hw).
  split; [rewrite Hf; vm_compute; reflexivity|]. split; [rewrite Hb; vm_compute; reflexivity|].
  destruct (Hw ltac:(vm_compute; reflexivity) world_1) as (n & Hn & _). by exists n.
Defined.

(** *** A role that starts *)

Definition started : (ex_node * PW) * result NodeExit unit :=
  reconcile node_info builds (Some evaluator_1) (node_new node_info, node_world evaluator_1 None).

Lemma poll_follows_the_assignment_witness : current_target started.1.1 = Some evaluator_1.
Proof.
  pose proof (poll_follows_the_assignment node_info builds (Some evaluator_1) (node_new node_info) (node_world evaluator_1 None)
    started.1.1 started.1.2 started.2 (reach_new _ _) (node_eta _)) as H.
  rewrite decide_False in H by done. assert (started.2 = Ok tt) as Hok by (vm_compute; reflexivity). rewrite Hok in H.
  destruct H as [H|[H _]]; [exact H|].
  assert (nd_active started.1.1 = Some (evaluator_1, 1%nat)) as Ha by (vm_compute; reflexivity). congruence.
Defined.

(** An evaluator whose second tick fails. *)
Definition working : (ex_node * PW) * result NodeExit Control :=
  loop_body node_info builds 0 (node_new node_info, node_world evaluator_1 None).

Lemma working_reachable : NodeLaws.reachable node_info builds working.1.1.
Proof.
  eapply (reach_body node_info builds _ (node_world evaluator_1 None) 0 _ working.1.2 (250 * 10 ^ 6)); [apply reach_new|].
  change (working = ((working.1.1, working.1.2), Ok (Continue (250 * 10 ^ 6)))).
  assert (working.2 = Ok (Continue (250 * 10 ^ 6))) as <- by (vm_compute; reflexivity). apply node_eta.
Qed.

Lemma tick_failures_do_not_accumulate_witness :
  exists w, after_tick node_info evaluator_1 (Err broken) working.1
    = ((mkNode None (mkRetry None (Some evaluator_1) 1) (50 * 10 ^ 6), w), Ok false).
Proof.
  exists (stopped node_info working.1.1 working.1.2).
  destruct (working.1) as [n w] eqn:Ew. 
  assert (NodeLaws.reachable node_info builds n) as Hn by (pose proof working_reachable as H; by rewrite Ew in H).
  assert (nd_active n = Some (evaluator_1, 0%nat)) as Ha.
  { replace n with working.1.1 by (by rewrite Ew). vm_compute. reflexivity. }
  apply (tick_failures_do_not_accumulate node_info builds n w evaluator_1 0%nat broken Hn Ha); [reflexivity|vm_compute; discriminate|reflexivity].
Defined.

(** *** Giving up *)

Lemma ex_tasks_reachable : TaskQueue.reachable ex_tasks.
Proof.
  eapply steps_step; [eapply steps_step; [apply steps_refl|]|].
  - exists (OpCreateRun 0 "run" ex_root [mkTaskInput None ex_sample] None). split; [|reflexivity]. vm_compute. done.
  - exists (OpActivate 1 1). split; [done|reflexivity].
Qed.

Lemma exhausted_start_pauses_the_run_witness :
  exists n' w', reconcile impatient cannot_build (Some sampler_1) (node_new impatient, node_world sampler_1 None) = ((n', w'), Ok tt) /\
    exists id r, run_tasks (plane_tasks (pw_db w')) !! id = Some r /\ rt_state r = TFailed.
Proof.
  destruct (load_active_run_task 1 ex_tasks) as [[task|]|e] eqn:El; [|vm_compute in El; discriminate..].
  destruct (exhausted_start_pauses_the_run impatient cannot_build sampler_1 (node_new impatient) (node_world sampler_1 None)
    (node_world sampler_1 None) broken task (reach_new _ _) eq_refl eq_refl ltac:(reflexivity) ltac:(vm_compute; discriminate)
    eq_refl eq_refl eq_refl ex_tasks_reachable El) as (n' & w' & Hr & _ & _ & (r & Hr1 & _ & Hs & _) & _).
  exists n', w'. split; [exact Hr|]. by exists (task_id (st_task task)), r.
Defined.

(** *** A handover *)

Definition contested : PW := node_world sampler_1 (Some sampler_1).

Lemma sampler_handover_ends_the_process_witness :
  exists n' w' message, run_loop node_info builds 1 0 (node_new node_info, contested)
    = ((n', w'), Some (Err (ExitError (InvalidInput message)))).
Proof.
  assert (forall name n', nodes (plane_tables (pw_db contested)) !! name = Some n' -> nr_uuid n' = ni_uuid node_info ->
    shutdown_requested n' = false) as Hshut.
  { intros name n' Hn' _. cbn in Hn'. apply lookup_insert_Some in Hn' as [[_ <-]|[_ [_ <-]%lookup_singleton_Some]]; reflexivity. }
  assert (sampler_taken (db_now contested) sampler_1 (ni_uuid node_info) (plane_tables (pw_db contested))) as Htaken.
  { split; [reflexivity| |].
    - exists "a"%string, (no_db_row "ua" (Some sampler_1) None). by vm_compute.
    - exists "b"%string, (no_db_row "ub" None (Some sampler_1)). by vm_compute. }
  destruct (sampler_handover_ends_the_process node_info builds 0 0 (node_new node_info) contested sampler_1 1%nat contested
    (no_db_row "ua" (Some sampler_1) None) eq_refl eq_refl eq_refl eq_refl eq_refl ltac:(vm_compute; discriminate)
    ltac:(vm_compute; reflexivity) eq_refl Hshut eq_refl eq_refl Htaken) as (n' & w' & message & Hr & _).
  exists n', w', message. exact Hr.
Defined.
