(* ===== verification/RoleExamples.v ===== *)
(** A sampler role on the tables of NodeExamples.v: a task that resumes its
    checkpoint, and a task whose last request meets a lost connection. *)
From S2P Require Import Prelude Floats Errors Domain Batch Config LatentBatch Feedback Generation AccumulatorTrait Scalar Stratification Vector Gammaloop AccumulatorState Extraction Evaluation Raster Metrics WorkQueue Assignments ControlPlane Queue Tasks Runner TaskStore TaskQueue StageContext StageResolution TaskControl TaskControlLaws Evaluator EvaluatorLaws EvaluatorDrain EvaluatorInstance EvaluatorExamples NodeRunner NodeLaws RoleRunners RoleLaws NodeInstance NodeExamples.

#[local] Existing Instances ex_libm ex_observables ex_toml ex_states ex_codec ex_engines.

(** ** The requests of a sampler: an idle queue; completing a task fails *)

#[local] Instance idle_queue : QueueWorld PW (EvaluationBatch unit) BatchResult := {
  w_now := pw_clock;
  w_next_batch_ids n w := (w, seqZ 1 n);
  w_insert_batches _ _ _ _ _ w := (w, Ok (mkInsertBatchesMetrics 0%float 0 0%float 0%float 0%float 0%float));
  w_fetch_completed_batches _ _ _ _ _ w := (w, Ok []);
  w_get_batch_queue_counts _ _ _ w := (w, Ok (mkBatchQueueCounts 0 0 0 0));
  w_reclaim_abandoned_batches _ w := (w, Ok 0);
  w_cleanup_consumed_completed_batches _ _ _ w := (w, Ok 0);
  w_count_active_evaluator_nodes _ w := (w, Ok 1);
  w_get_queue_blocker _ _ _ w := (w, Ok None);
  w_notify_work_available _ w := (w, Ok tt)
}.
#[local] Instance lost_at_the_end : @RunnerWorld unit ex_toml unit ex_observables unit PW := {
  r_load_active_run_task _ w := (w, Ok None);
  r_campaign_sample_allowance _ _ w := (w, Ok None);
  r_save_aggregation _ _ _ _ _ w := (w, Ok tt);
  r_update_run_task_progress _ _ _ w := (w, Ok tt);
  r_save_run_sample_progress _ _ w := (w, Ok tt);
  r_record_sampler_performance_snapshot _ _ _ w := (w, Ok tt);
  r_get_registered_workers _ w := (w, Ok []);
  r_record_checkpoint_status _ _ w := (w, Ok tt);
  r_save_sampler_checkpoint _ _ _ w := (w, Ok tt);
  r_extract_task_measurement _ _ w := (w, Err "no measurement"%string);
  r_persist_task_measurement_output _ _ w := (w, Ok tt);
  r_complete_run_task _ w := (w, Err connection_lost);
  r_fail_run_task _ _ w := (w, Ok tt)
}.
#[local] Instance counting_sampler : @SamplerOps unit unit Z := {
  s_generate n s := (s, Ok (GBatch (mkLatentBatch n (IndexedBatch [] [] [] [] [])) None));
  s_feedback f s := (s + feedback_len f, Ok tt);
  s_discrete_mass_batch l s := (s, Ok (map (fun _ => None) l));
  s_persisted_output s := (s, Ok None);
  s_snapshot s := (s, Ok tt);
  s_diagnostics s := (s, tt)
}.
#[local] Instance unit_json : @Json unit ex_observables := {
  json_is_null _ := false;
  accumulator_json _ := Ok tt;
  accumulator_persistent_json _ := Ok tt;
  with_discrete_mass _ _ := tt
}.
#[local] Instance no_evaluator : @EvaluatorWorld unit ex_toml unit ex_observables ex_codec unit PW := {
  ew_now := pw_clock;
  ew_new_token w := (w, "token"%string);
  ew_claim_batch _ _ _ w := (w, Ok None);
  ew_wait_for_work _ w := (w, None);
  ew_submit_batch_results _ _ _ _ _ w := (w, Ok tt);
  ew_fail_batch _ _ _ _ _ w := (w, Err connection_lost);
  ew_release_untracked_claims _ _ _ w := (w, Ok 0);
  ew_fail_run_task _ _ w := (w, Ok tt);
  ew_clear_desired_assignments_for_run _ w := (w, Ok 0);
  ew_load_run_task _ w := (w, Ok None);
  ew_stage_tables w := (w, Ok (plane_tasks (pw_db w)));
  ew_load_run_sample_progress _ w := (w, Ok None);
  ew_record_evaluator_performance_snapshot _ w := (w, Ok tt)
}.

(** ** A task of ten samples, all of them drawn and ingested *)

Definition role_queue : SamplerQueueConfig := mkQueueConfig 100%float 64 1024 None 2 8 2 16 3.
Definition role_params : SamplerAggregatorRunnerParams := mkSamplerParams 1000 0 1000 1 4 role_queue.
Definition role_spec : RunSpec unit := mkRunSpec (domain_continuous 1) (Some tt) 1000 role_params.
Definition role_task (produced completed : i64) : @RunTask unit ex_toml unit :=
  mkRunTask 1 1 "integrate" 1 ex_sample TActive produced completed None.
Definition ten_samples : AccumulatorState := accumulator (ex_result (replicate 10 (point_new [0.5%float] [] 1%float))).
Definition role_progress : SamplerProgress unit := mkProgress generation_default 1 10 1 10 0%float Ready.
Definition role_checkpoint : @RunnerCheckpoint unit ex_observables unit :=
  mkRunnerCheckpoint 10 1 (mkSavedSampler ex_config tt) ten_samples role_progress (mkQueueCheckpoint (Some 1) (Some 1) 16).

#[local] Instance at_checkpoint : @ActivationWorld unit unit ex_observables unit PW := {
  aw_load_run_spec _ w := (w, Ok (Some role_spec));
  aw_init_pg_store _ w := (w, Ok tt);
  aw_listen_for_batches _ w := (w, Ok tt);
  aw_load_sampler_checkpoint _ w := (w, Ok (Some role_checkpoint));
  aw_record_evaluator_metadata _ _ w := (w, Ok tt);
  aw_restore_sampler_checkpoint _ _ w := (w, Ok tt);
  aw_load_run_sample_progress _ w := (w, Ok None);
  aw_record_restored _ _ _ _ w := (w, Ok tt);
  aw_start_io _ w := (w, Ok tt)
}.
#[local] Instance unit_engines : @ActivationEngines unit unit ex_observables unit Z := {
  evaluator_metadata _ := tt;
  validate_accumulator_config _ _ := Ok tt;
  initialize_sampler _ _ _ _ := Ok 0
}.

Notation ExRole := (@Role unit ex_toml unit ex_observables unit PW Z unit unit unit).
Definition role_world : PW := node_world sampler_1 None.
Definition activated : PW * result StoreError (option ExRole) :=
  activate_sampler node_info 1 role_spec (role_task 3 2) (Some role_checkpoint) None None tt (RestoreSaved (mkSavedSampler ex_config tt)) None [] 0
    role_world.
Definition activated_role : option (@SamplerRole unit ex_toml unit ex_observables unit PW Z) :=
  match activated.2 with Ok (Some (SamplerR s)) => Some s | _ => None end.

Definition done_role : @SamplerRole unit ex_toml unit ex_observables unit PW Z :=
  let i := mkRunnerInfo 0 "" None tt ex_config [] 0 0 role_queue in
  default (mkSamplerRole i (runner_new i 0 (role_task 0 0) 0 ten_samples role_queue 1 (mkRunProgress 0 0 0%float) None) 0)
    activated_role.

Lemma role_is_activated :
  activate_sampler (Ev:=unit) (Mat:=unit) (Tr:=unit) node_info 1 role_spec (role_task 3 2) (Some role_checkpoint) None None tt
    (RestoreSaved (mkSavedSampler ex_config tt)) None [] 0 role_world = (activated.1, Ok (Some (SamplerR done_role))).
Proof. vm_compute. reflexivity. Qed.

Lemma activation_resumes_its_checkpoint_witness :
  task_completed (task (sr_runner done_role)) = rc_completed_samples role_checkpoint /\
  observable_state (sr_runner done_role) = rc_observable_state role_checkpoint.
Proof.
  destruct (activation_resumes_its_checkpoint node_info 1 role_spec (role_task 3 2) (Some role_checkpoint) None None tt
    (RestoreSaved (mkSavedSampler ex_config tt)) None [] 0 role_world activated.1 done_role role_checkpoint eq_refl role_is_activated)
    as (_ & _ & _ & _ & _ & Hc & _ & _ & Ho & _).
  split; [exact Hc|exact Ho].
Defined.

(** ** The end of the task *)

#[local] Notation ticked := (on_runner runner_tick (done_role, role_world)).
#[local] Notation lost := (on_runner complete_task (ticked.1.1, ticked.1.2)).
Definition role_node : @NodeRunner ExRole := node_new node_info.
#[local] Notation lost_node := (set_nd_active (Some (sampler_1, SamplerR lost.1.1 : ExRole)) role_node).
#[local] Notation loaded := (nw_load_active_run_task (run_id sampler_1) (stopped node_info lost_node lost.1.2)).
#[local] Notation lost_error := (Internal (runner_error_message (RunnerStore connection_lost))).
Definition loaded_task : @StoredTask unit ex_toml unit ex_codec :=
  match loaded.2 with Ok (Some t) => t | _ => mkStored (role_task 0 0) "" None (mkTimes None None None 0) 0 0 None None end.
#[local] Notation failed_and_cleared :=
  (nw_clear_desired_assignments_for_run (run_id sampler_1)
     (nw_fail_run_task (task_id (st_task loaded_task)) (role_failure_reason sampler_1 lost_error) loaded.1).1).

Lemma outcome_of {A B C} (p : A * B * C) c : p.2 = c -> p = ((p.1.1, p.1.2), c).
Proof. intros <-. apply node_eta. Qed.
Lemma result_of {A C} (p : A * C) c : p.2 = c -> p = (p.1, c).
Proof. intros <-. apply surjective_pairing. Qed.

Lemma ticked_done : ticked = ((ticked.1.1, ticked.1.2), Ok true).
Proof. apply outcome_of. vm_compute. reflexivity. Qed.
Lemma completion_lost : lost = ((lost.1.1, lost.1.2), Err (RunnerStore connection_lost)).
Proof. apply outcome_of. vm_compute. reflexivity. Qed.
Lemma task_loaded : loaded = (loaded.1, Ok (Some loaded_task)).
Proof. apply result_of. vm_compute. reflexivity. Qed.
Lemma all_cleared : failed_and_cleared = (failed_and_cleared.1, Ok 1).
Proof. apply result_of. vm_compute. reflexivity. Qed.

(** The task that had drawn and ingested all its samples is failed. *)
Lemma completion_errors_fail_the_task_witness :
  (let! outcome := tick_role sampler_1 (SamplerR done_role : ExRole) in after_tick node_info sampler_1 outcome) (role_node, role_world)
    = ((after_failure node_info sampler_1 lost_node, failed_and_cleared.1), Ok false).
Proof.
  exact (completion_errors_fail_the_task (Ev:=unit) (Mat:=unit) (Tr:=unit) node_info sampler_1 role_node done_role ticked.1.1 lost.1.1
    role_world ticked.1.2 lost.1.2 (RunnerStore connection_lost) loaded.1 loaded_task failed_and_cleared.1 1 eq_refl
    ticked_done completion_lost task_loaded all_cleared).
Defined.
