(* ===== verification/QueueProtocol.v ===== *)
(** The contract of the sampler's queue (src/runners/queue.rs) over a shared
    store: results come back in the order their batches were ingested, each
    exactly once, whatever the evaluators do and however the background inserts,
    fetches and cleanups interleave.

    [QueueStore] is what the queue relies on in the store; [Inv] is the
    invariant of the queue and its outstanding tasks; [pstep] is the protocol of
    a runner: queue calls, scheduler steps and steps of the outside world. *)
From S2P Require Import Prelude Floats Errors WorkQueue Metrics Queue.

(** ** The store the queue relies on *)

(** A task's batches as the store holds them: the payload and, once evaluated,
    the completed batch. *)
Class QueueView (W Eb R : Type) := {
  v_rows : W -> gmap Z (Eb * option (CompletedBatch R));
  (** identifiers handed out so far are at most this *)
  v_issued : W -> Z;
  (** the completed batch holds the evaluation of the payload *)
  v_evaluates : Eb -> CompletedBatch R -> Prop;
  v_valid : W -> Prop;
  (** the identifier generator has not wrapped *)
  v_in_range : W -> Prop
}.

Section view.
Context {W Eb R : Type} {QV : QueueView W Eb R}.

Definition row_evolves (x y : option (Eb * option (CompletedBatch R))) : Prop :=
  match x, y with
  | None, None => True
  | Some (eb, o), Some (eb', o') => eb = eb' /\ (forall cb, o = Some cb -> o' = Some cb)
  | _, _ => False
  end.

(** What other processes may do to the batches after the cursor: evaluate
    them, never remove them or revise a result. *)
Definition evolves (c : Z) (w w' : W) : Prop :=
  v_valid w' /\ v_issued w <= v_issued w' /\ forall id, c < id -> row_evolves (v_rows w !! id) (v_rows w' !! id).

Fixpoint completed_rows (l : list (Z * (Eb * option (CompletedBatch R)))) : list (CompletedBatch R) :=
  match l with
  | (_, (_, Some cb)) :: l => cb :: completed_rows l
  | _ => []
  end.
Definition rows_after (c : Z) (w : W) : list (Z * (Eb * option (CompletedBatch R))) :=
  filter (fun p => c < p.1) (by_key (v_rows w)).
End view.

Class QueueStore (W Eb R : Type) {QW : QueueWorld W Eb R} {QV : QueueView W Eb R} (run : i32) (task : i64) := {
  rows_valid w id eb cb :
    v_valid w -> v_rows w !! id = Some (eb, Some cb) -> cb_batch_id cb = id /\ v_evaluates eb cb;
  ids_in_range n w : v_in_range (w_next_batch_ids n w).1 -> v_in_range w;
  ids_law n w w' ids :
    v_valid w -> 0 <= n -> w_next_batch_ids n w = (w', ids) -> v_in_range w' ->
    v_valid w' /\ v_issued w <= v_issued w' /\ v_rows w' = v_rows w /\ zlen ids = n /\ StronglySorted Z.lt ids /\
    Forall (fun id => v_issued w < id <= v_issued w') ids;
  insert_in_range tr ids bs w : v_in_range (w_insert_batches run task tr ids bs w).1 -> v_in_range w;
  (** an insert adds its own rows, unevaluated; when it fails it may have
      committed or not *)
  insert_law tr ids bs w w' r :
    v_valid w -> w_insert_batches run task tr ids bs w = (w', r) -> length ids = length bs -> NoDup ids ->
    (forall id, id ∈ ids -> v_rows w !! id = None) ->
    v_valid w' /\ v_issued w' = v_issued w /\
    (forall id, v_rows w' !! id = v_rows w !! id \/
       exists eb, (id, eb) ∈ zip ids bs /\ v_rows w' !! id = Some (eb, None)) /\
    (forall x, r = Ok x -> forall id, id ∈ ids -> is_Some (v_rows w' !! id));
  fetch_in_range limit after w : v_in_range (w_fetch_completed_batches run task limit true after w).1 -> v_in_range w;
  (** an ordered fetch reads the completed rows that follow the cursor without
      a gap *)
  fetch_law limit after w w' r c :
    v_valid w -> w_fetch_completed_batches run task limit true after w = (w', r) ->
    evolves c w w' /\
    forall l, r = Ok l -> l = completed_rows (ztake limit (rows_after (default 0 after) w));
  cleanup_in_range up_to limit w :
    v_in_range (w_cleanup_consumed_completed_batches run up_to limit w).1 -> v_in_range w;
  cleanup_law up_to limit w :
    v_valid w -> evolves up_to w (w_cleanup_consumed_completed_batches run up_to limit w).1;
  (** the other calls leave the rows alone *)
  counts_in_range t after w : v_in_range (w_get_batch_queue_counts run t after w).1 -> v_in_range w;
  counts_law t after w c : v_valid w -> evolves c w (w_get_batch_queue_counts run t after w).1;
  reclaim_in_range w : v_in_range (w_reclaim_abandoned_batches run w).1 -> v_in_range w;
  reclaim_law w c : v_valid w -> evolves c w (w_reclaim_abandoned_batches run w).1;
  evaluators_in_range w : v_in_range (w_count_active_evaluator_nodes run w).1 -> v_in_range w;
  evaluators_law w c : v_valid w -> evolves c w (w_count_active_evaluator_nodes run w).1;
  blocker_in_range t after w : v_in_range (w_get_queue_blocker run t after w).1 -> v_in_range w;
  blocker_law t after w c : v_valid w -> evolves c w (w_get_queue_blocker run t after w).1;
  notify_in_range w : v_in_range (w_notify_work_available run w).1 -> v_in_range w;
  notify_law w c : v_valid w -> evolves c w (w_notify_work_available run w).1
}.

(** ** The invariant *)

Section protocol.
Context {W Eb R : Type} {QW : QueueWorld W Eb R} {QV : QueueView W Eb R}.
Variables (run : i32) (task : i64).
Notation CB := (CompletedBatch R).
Notation sq := (SamplerQueue W Eb R).

Definition cursor (q : sq) : Z := default 0 (queue_last_completed q).

(** [P] pairs the identifiers handed out with the ingested batches. *)
Definition row_result (p : Z * Eb) (cb : CB) : Prop := cb_batch_id cb = p.1 /\ v_evaluates p.2 cb.
Definition delivers (P : list (Z * Eb)) (l : list CB) : Prop :=
  exists P1 P2, P = P1 ++ P2 /\ Forall2 row_result P1 l.
Definition present (w : W) (cb : CB) : Prop := is_Some (v_rows w !! cb_batch_id cb).
Definition settled (c : Z) (w : W) (id : Z) : Prop := id <= c \/ is_Some (v_rows w !! id).
Definition ok_done {A} (h : JoinHandle W A) : Prop := exists a, jh_done h = Some (Some (Ok a)).

(** An insert that has not run will add fresh rows, those of its bundle. *)
Definition insert_ok (P : list (Z * Eb)) (own : Z -> Z) (c : Z) (w : W) (t : PendingInsertTask W) : Prop :=
  first_batch_id t <= v_issued w /\
  (jh_done (handle t) = None ->
   exists tr ids bs, handle t = spawn (insert_job run task tr ids bs) /\ length ids = length bs /\ NoDup ids /\
     (forall p, p ∈ zip ids bs -> p ∈ P /\ own p.1 = first_batch_id t /\ c < p.1 /\ v_rows w !! p.1 = None) /\
     (forall p, p ∈ P -> own p.1 = first_batch_id t -> p.1 ∈ ids)).

(** A fetch reads below every insert that may still be invisible. *)
Definition fetch_ok (P : list (Z * Eb)) (last : option i64) (w : W) (D : list CB)
    (h : JoinHandle W (list CB * Z)) : Prop :=
  match jh_done h with
  | None =>
      exists limit before, h = spawn (fetch_job run task limit last before) /\ before <= v_issued w /\
        forall p, p ∈ P -> p.1 < before -> settled (default 0 last) w p.1
  | Some (Some (Ok (l, _))) => delivers P (D ++ l) /\ Forall (present w) l
  | _ => True
  end.

Definition cleanup_ok (c : Z) (h : JoinHandle W Z) : Prop :=
  jh_done h = None -> exists up_to, h = spawn (cleanup_job run up_to) /\ up_to <= c.

(** [P], [own]: the identifiers given to the ingested batches and the bundle
    of each; [T]: the insert tasks; [D]: the marked results; [U]: the results
    handed out and not marked yet. *)
Record view (P : list (Z * Eb)) (own : Z -> Z) (T : list (PendingInsertTask W)) (ing : list Eb)
    (D U : list CB) (q : sq) (w : W) : Prop := mkView {
  vw_valid : v_valid w;
  vw_ids : q_run_id q = run /\ q_task_id q = task /\ insert_error q = None;
  vw_ing : map snd P ++ map fst (pending_insert q) = ing;
  vw_sorted : StronglySorted Z.lt (map fst P);
  vw_issued : Forall (fun p => p.1 <= v_issued w) P;
  vw_cursor : cursor q <= v_issued w;
  vw_rows : forall id eb o, v_rows w !! id = Some (eb, o) -> cursor q < id -> (id, eb) ∈ P;
  vw_own : forall p, p ∈ P -> own p.1 <= p.1;
  vw_unsettled : forall p, p ∈ P -> settled (cursor q) w p.1 \/
    exists t, t ∈ T /\ first_batch_id t = own p.1 /\ ~ ok_done (handle t);
  vw_tasks : Forall (insert_ok P own (cursor q) w) T;
  vw_nodup : NoDup (map first_batch_id T);
  vw_delivers : delivers P (D ++ U ++ ready_processed q);
  vw_unmarked : U = [] \/ ready_processed q = [];
  vw_marked : Forall (fun cb => cb_batch_id cb <= cursor q) D;
  vw_rest : Forall (fun p => cursor q < p.1) (drop (length D) P);
  vw_present : Forall (present w) (U ++ ready_processed q);
  vw_fetch : forall h, pending_processed_fetch q = Some h ->
    U = [] /\ ready_processed q = [] /\ fetch_ok P (queue_last_completed q) w D h;
  vw_cleanup : forall h, pending_completed_cleanup q = Some h -> cleanup_ok (cursor q) h
}.

Definition Inv (ing : list Eb) (D U : list CB) (q : sq) (w : W) : Prop :=
  exists P own, view P own (pending_insert_tasks q) ing D U q w.

(** *** Rows under evolution *)

Lemma row_evolves_refl (x : option (Eb * option CB)) : row_evolves x x.
Proof. destruct x as [[? ?]|]; simpl; auto. Qed.
Lemma row_evolves_is_Some (x y : option (Eb * option CB)) : row_evolves x y -> is_Some x <-> is_Some y.
Proof. destruct x as [[? ?]|], y as [[? ?]|]; simpl; intros; split; intros [? ?]; try done; eauto. Qed.
Lemma evolves_mono c c' w w' : c <= c' -> evolves c w w' -> evolves c' w w'.
Proof. intros Hc (? & ? & H). split_and!; [done..|]. intros id ?. apply H. lia. Qed.
Lemma evolves_same c w w' :
  v_valid w' -> v_issued w <= v_issued w' -> v_rows w' = v_rows w -> evolves c w w'.
Proof. intros ? ? E. split_and!; [done..|]. intros id _. rewrite E. apply row_evolves_refl. Qed.

Lemma settled_evolves c w w' id : evolves c w w' -> settled c w id -> settled c w' id.
Proof.
  intros (_ & _ & H) [?|Hs]; [by left|]. destruct (decide (id <= c)); [by left|]. right.
  rewrite <- (row_evolves_is_Some _ _ (H id ltac:(lia))). done.
Qed.

Lemma present_evolves c w w' cb : evolves c w w' -> c < cb_batch_id cb -> present w cb -> present w' cb.
Proof. intros (_ & _ & H) Hc Hp. unfold present. by rewrite <- (row_evolves_is_Some _ _ (H _ Hc)). Qed.

Lemma insert_ok_evolves P own c w w' t : evolves c w w' -> insert_ok P own c w t -> insert_ok P own c w' t.
Proof.
  intros (_ & Hi & H) [Hf Ht]. split; [lia|]. intros Hn. destruct (Ht Hn) as (tr & ids & bs & ? & ? & ? & Hz & ?).
  exists tr, ids, bs. split_and!; [done..| |done].
  intros p Hp. destruct (Hz p Hp) as (? & ? & Hc & Hr). split_and!; [done..|].
  specialize (H _ Hc). rewrite Hr in H. destruct (v_rows w' !! p.1) as [[? ?]|]; simpl in *; done.
Qed.

(** *** Deliveries *)

Lemma delivers_app_r P X l : delivers P l -> delivers (P ++ X) l.
Proof. intros (P1 & P2 & -> & H). exists P1, (P2 ++ X). by rewrite <- app_assoc. Qed.
Lemma delivers_app_l P l k : delivers P (l ++ k) -> delivers P l.
Proof.
  intros (P1 & P2 & -> & H). apply Forall2_app_inv_r in H as (Q1 & Q2 & H1 & _ & ->).
  exists Q1, (Q2 ++ P2). by rewrite <- app_assoc.
Qed.

(** The results beyond the marked ones come from rows beyond the cursor. *)
Lemma delivers_beyond P D l c :
  delivers P (D ++ l) -> Forall (fun p => c < p.1) (drop (length D) P) -> Forall (fun cb => c < cb_batch_id cb) l.
Proof.
  intros (P1 & P2 & -> & H) Hd. apply Forall2_app_inv_r in H as (Q1 & Q2 & H1 & H2 & ->).
  rewrite <- app_assoc, drop_app_length' in Hd by (symmetry; by eapply Forall2_length in H1).
  apply Forall_app in Hd as [Hd _]. clear H1. induction H2 as [|p cb Q2 l [Hid _] H2 IH]; [constructor|].
  apply Forall_cons in Hd as [? Hd]. constructor; [by rewrite Hid|auto].
Qed.

Lemma present_all_evolves P D l c w w' :
  evolves c w w' -> delivers P (D ++ l) -> Forall (fun p => c < p.1) (drop (length D) P) ->
  Forall (present w) l -> Forall (present w') l.
Proof.
  intros Hev Hd Hr Hp. pose proof (delivers_beyond _ _ _ _ Hd Hr) as Hb.
  rewrite Forall_forall in Hp, Hb |- *. intros cb Hcb. eapply present_evolves; eauto.
Qed.

Lemma fetch_ok_evolves P last w w' D h :
  evolves (default 0 last) w w' -> Forall (fun p => default 0 last < p.1) (drop (length D) P) ->
  fetch_ok P last w D h -> fetch_ok P last w' D h.
Proof.
  intros Hev Hr. unfold fetch_ok. destruct (jh_done h) as [[[[l d]|e]|]|]; [|done..|].
  - intros [Hd Hp]. split; [done|]. by eapply present_all_evolves.
  - intros (limit & before & ? & ? & Hs). exists limit, before. destruct Hev as (? & ? & ?).
    split_and!; [done|lia|]. intros p Hp Hlt. eapply settled_evolves; [done|auto].
Qed.

(** Whatever the world does to the rows, the invariant stays. *)
Lemma view_evolves P own T ing D U q w w' :
  view P own T ing D U q w -> evolves (cursor q) w w' -> view P own T ing D U q w'.
Proof.
  intros [] Hev. pose proof Hev as (Hv & Hi & Hrow). constructor; try done.
  - eapply Forall_impl; [done|]. simpl. lia.
  - lia.
  - intros id eb o Hid Hc. specialize (Hrow id Hc). rewrite Hid in Hrow.
    destruct (v_rows w !! id) as [[eb' o']|] eqn:E; simpl in Hrow; [|done]. destruct Hrow as [-> _]. eauto.
  - intros p Hp. destruct (vw_unsettled0 p Hp); [left; by eapply settled_evolves|by right].
  - eapply Forall_impl; [done|]. intros. by eapply insert_ok_evolves.
  - by eapply present_all_evolves.
  - intros h Hh. destruct (vw_fetch0 h Hh) as (? & ? & ?). split_and!; [done..|]. by eapply fetch_ok_evolves.
Qed.

(** *** An ordered fetch below the outstanding inserts delivers the next
    results *)

Lemma fetch_next before limit (L : list (Z * (Eb * option CB))) rest :
  StronglySorted key_lt L -> StronglySorted Z.lt (map fst rest) ->
  (forall id eb o, (id, (eb, o)) ∈ L -> (id, eb) ∈ rest) ->
  (forall p, p ∈ rest -> p.1 < before -> exists o, (p.1, (p.2, o)) ∈ L) ->
  (forall id eb cb, (id, (eb, Some cb)) ∈ L -> cb_batch_id cb = id /\ v_evaluates eb cb) ->
  exists Q1 Q2, rest = Q1 ++ Q2 /\
    Forall2 row_result Q1 (take_while (fun cb => cb_batch_id cb <? before) (completed_rows (take limit L))) /\
    Forall (fun p => p.1 ∈ map fst L) Q1.
Proof.
  revert limit rest. induction L as [|[i [eb o]] L IH]; intros limit rest HL Hrest Hsub Hsup Hok.
  { exists [], rest. destruct limit; split_and!; try done; constructor. }
  destruct limit as [|limit]; [exists [], rest; split_and!; try done; constructor|].
  destruct o as [cb|]; [|exists [], rest; split_and!; try done; constructor]. cbn [take completed_rows take_while].
  destruct (Hok i eb cb ltac:(left)) as [Hid Hev]. rewrite Hid.
  destruct (i <? before) eqn:Hb; zbool; [|exists [], rest; split_and!; try done; constructor].
  apply StronglySorted_inv in HL as [HL Hi]. rewrite Forall_forall in Hi.
  destruct rest as [|[j e] rest]; [specialize (Hsub i eb _ ltac:(left)); by apply elem_of_nil in Hsub|].
  simpl in Hrest. apply StronglySorted_inv in Hrest as [Hrest Hj]. rewrite Forall_forall in Hj.
  assert ((j, e) = (i, eb)) as Heq.
  { specialize (Hsub i eb (Some cb) ltac:(left)). apply elem_of_cons in Hsub as [?|Hin]; [done|].
    apply (list_elem_of_fmap_2 fst) in Hin. specialize (Hj _ Hin). simpl in Hj.
    destruct (Hsup (j, e) ltac:(left) ltac:(simpl; lia)) as [o' Ho]. simpl in Ho.
    apply elem_of_cons in Ho as [Ho|Ho]; [simplify_eq; lia|]. specialize (Hi _ Ho). unfold key_lt in Hi. simpl in Hi. lia. }
  simplify_eq. destruct (IH limit rest) as (Q1 & Q2 & -> & HQ & HL1); [done|done| | | |].
  - intros id eb' o' Hin. specialize (Hi _ Hin). unfold key_lt in Hi. simpl in Hi.
    specialize (Hsub id eb' o' ltac:(by right)). apply elem_of_cons in Hsub as [?|?]; [simplify_eq; lia|done].
  - intros p Hp Hlt. destruct (Hsup p ltac:(by right) Hlt) as [o' Ho]. exists o'.
    apply elem_of_cons in Ho as [Ho|Ho]; [|done]. apply (list_elem_of_fmap_2 fst) in Hp.
    specialize (Hj _ Hp). simplify_eq. lia.
  - intros id eb' cb' Hin. apply Hok. by right.
  - exists ((cb_batch_id cb, eb) :: Q1), Q2. split_and!; [done| |].
    + constructor; [done|done].
    + constructor; [left|]. eapply Forall_impl; [exact HL1|]. intros p Hp. by right.
Qed.
End protocol.

(** ** The scheduler preserves the invariant *)

Section scheduler.
Context {W Eb R : Type} {QW : QueueWorld W Eb R} {QV : QueueView W Eb R}.
Context (run : i32) (task : i64) {QS : QueueStore W Eb R run task}.
Notation CB := (CompletedBatch R).
Notation view := (view run task).

Definition with_handle (h : JoinHandle W InsertBatchesMetrics) (t : PendingInsertTask W) : PendingInsertTask W :=
  mkPendingInsertTask (first_batch_id t) (batch_count t) (local_pending_at_start t) (db_pending_at_start t) h.

Lemma view_perm P own T T' ing D U q (w : W) : T ≡ₚ T' -> view P own T ing D U q w -> view P own T' ing D U q w.
Proof.
  intros HT []. constructor; try done.
  - intros p Hp. destruct (vw_unsettled0 p Hp) as [?|(t & Ht & ?)]; [by left|right].
    exists t. by rewrite <- HT.
  - by rewrite <- HT.
  - by rewrite <- HT.
Qed.

Lemma view_run_insert P own t T ing D U q w h' w' :
  view P own (t :: T) ing D U q w -> run_handle (handle t) w = (h', w') ->
  view P own (with_handle h' t :: T) ing D U q w'.
Proof.
  intros Hview Hrun. unfold run_handle in Hrun. destruct (jh_done (handle t)) as [r|] eqn:Hdone.
  { simplify_eq. by destruct t. }
  pose proof Hview as []. apply Forall_cons in vw_tasks0 as [[Hfirst Ht] HT].
  destruct (Ht Hdone) as (tr & ids & bs & Hspawn & Hlen & Hnd & Hzip & Hall). rewrite Hspawn in Hrun. simpl in Hrun.
  unfold insert_job in Hrun. destruct (w_insert_batches run task tr ids bs w) as [w1 r] eqn:Hins. simplify_eq.
  assert (forall id, id ∈ ids -> exists eb, (id, eb) ∈ zip ids bs) as Hz.
  { intros id (i & Hi)%list_elem_of_lookup. destruct (lookup_lt_is_Some_2 bs i) as [eb Heb].
    - rewrite <- Hlen. by eapply lookup_lt_Some.
    - exists eb. apply list_elem_of_lookup. exists i. by apply lookup_zip_Some. }
  destruct (insert_law tr ids bs w w' r) as (Hv & Hiss & Hrows & Hok); [done..| |].
  { intros id [eb Hin]%Hz. by apply Hzip in Hin as (_ & _ & _ & ?). }
  assert (forall id, is_Some (v_rows w !! id) -> is_Some (v_rows w' !! id)) as Hmono.
  { intros id Hs. destruct (Hrows id) as [->|(eb & _ & ->)]; [done|by eexists]. }
  assert (forall c id, settled c w id -> settled c w' id) as Hset by (intros c id [?|?]; [by left|right; auto]).
  assert (forall l : list CB, Forall (present w) l -> Forall (present w') l) as Hpres.
  { intros l Hl. eapply Forall_impl; [exact Hl|]. intros cb. apply Hmono. }
  simpl in vw_nodup0. apply NoDup_cons in vw_nodup0 as [Hnin Hnodup].
  constructor; try done; try (rewrite Hiss; done); auto.
  - intros id eb o Hid Hc. destruct (Hrows id) as [E|(eb' & Hin & E)]; rewrite E in Hid; [eauto|].
    simplify_eq. by apply Hzip in Hin as (? & _).
  - intros p Hp. destruct (vw_unsettled0 p Hp) as [?|(t' & Ht' & Hf & Hno)]; [left; auto|].
    apply elem_of_cons in Ht' as [->|Ht']; [|right; exists t'; split; [by right|done]].
    destruct r as [x|e].
    + left. right. apply (Hok x); [done|]. by apply Hall.
    + right. eexists. split; [left|]. split; [done|]. simpl. intros [? ?]. done.
  - constructor.
    + split; [simpl; lia|]. done.
    + rewrite Forall_forall in HT |- *. intros t' Ht'. destruct (HT t' Ht') as [Hf' Hu']. split; [lia|].
      intros Hd'. destruct (Hu' Hd') as (tr' & ids' & bs' & ? & ? & ? & Hzip' & ?).
      exists tr', ids', bs'. split_and!; [done..| |done]. intros p Hp. destruct (Hzip' p Hp) as (? & Hown & ? & Hnone).
      split_and!; [done..|]. destruct (Hrows p.1) as [->|(eb & Hin & _)]; [done|].
      apply Hzip in Hin as (_ & Hown' & _). simpl in Hown'. destruct Hnin. rewrite <- Hown', Hown.
      by apply (list_elem_of_fmap_2 first_batch_id).
  - simpl. by constructor.
  - intros h Hh. destruct (vw_fetch0 h Hh) as (? & ? & Hf). split_and!; [done..|].
    unfold fetch_ok in *. destruct (jh_done h) as [[[[l d]|e]|]|]; [|done..|].
    + destruct Hf as [? ?]. split; [done|auto].
    + destruct Hf as (limit & before & ? & ? & Hs). exists limit, before. split_and!; [done|lia|]. eauto.
Qed.

Lemma view_run_fetch P own T ing D U q w h h' w' :
  view P own T ing D U q w -> pending_processed_fetch q = Some h -> run_handle h w = (h', w') ->
  view P own T ing D U (set_pending_processed_fetch (Some h') q) w'.
Proof.
  intros Hview Hh Hrun. unfold run_handle in Hrun. destruct (jh_done h) as [r|] eqn:Hdone.
  { simplify_eq. rewrite <- Hh. by destruct q. }
  pose proof Hview as []. destruct (vw_fetch0 h Hh) as (-> & Hready & Hf). unfold fetch_ok in Hf. rewrite Hdone in Hf.
  destruct Hf as (limit & before & Hspawn & Hbefore & Hset). rewrite Hspawn in Hrun. simpl in Hrun.
  unfold fetch_job, timed in Hrun.
  destruct (w_fetch_completed_batches run task limit true (queue_last_completed q) w) as [w1 r] eqn:Hfetch.
  simplify_eq. destruct (fetch_law limit _ w w' r (cursor q) vw_valid0 Hfetch) as [Hev Hl].
  pose proof (view_evolves _ _ _ _ _ _ _ _ _ _ _ Hview Hev) as []. constructor; try done.
  simpl. intros h'' [= <-]. split_and!; [done..|]. unfold fetch_ok. simpl.
  destruct r as [l|e]; simpl; [|done]. specialize (Hl l eq_refl).
  rewrite Hready, !app_nil_r in vw_delivers0. destruct vw_delivers0 as (P1 & P2 & -> & HD).
  assert (drop (length D) (P1 ++ P2) = P2) as Hdrop by (apply drop_app_length'; symmetry; by eapply Forall2_length).
  rewrite Hdrop in vw_rest0.
  destruct (fetch_next before (Z.to_nat limit) (rows_after (cursor q) w) P2) as (Q1 & Q2 & -> & HQ & HQL).
  - apply StronglySorted_filter, by_key_sorted.
  - rewrite map_app in vw_sorted0. by eapply StronglySorted_app_1_r in vw_sorted0.
  - intros id eb o [Hc Hin]%list_elem_of_filter. simpl in Hc. apply elem_of_by_key in Hin.
    specialize (vw_rows0 id eb o Hin Hc). apply elem_of_app in vw_rows0 as [Hin1|]; [|done].
    rewrite Forall_forall in vw_marked0. apply list_elem_of_lookup in Hin1 as [i Hi].
    destruct (Forall2_lookup_l _ _ _ _ _ HD Hi) as (cb & Hcb & [Hid _]). simpl in Hid.
    specialize (vw_marked0 cb (list_elem_of_lookup_2 _ _ _ Hcb)). lia.
  - intros [id eb] Hp Hlt. simpl in *. assert ((id, eb) ∈ P1 ++ P2) as HpP by (apply elem_of_app; by right).
    rewrite Forall_forall in vw_rest0. specialize (vw_rest0 _ Hp). simpl in vw_rest0.
    destruct (Hset (id, eb) HpP Hlt) as [Hle|[[eb' o] Hrow]]; simpl in *; [unfold cursor in *; lia|].
    exists o. assert (eb' = eb) as ->.
    { specialize (vw_rows0 id eb' o Hrow vw_rest0).
      assert (NoDup (map fst (P1 ++ P2))) as Hnd.
      { clear -vw_sorted0. induction vw_sorted0 as [|x l _ IH Hx]; constructor; [|done].
        rewrite Forall_forall in Hx. intros Hin. specialize (Hx x Hin). lia. }
      apply list_elem_of_lookup in HpP as [i Hi]. apply list_elem_of_lookup in vw_rows0 as [j Hj].
      pose proof (NoDup_lookup (map fst (P1 ++ P2)) i j id Hnd) as E.
      change (map fst (P1 ++ P2)) with (fst <$> (P1 ++ P2)) in E. rewrite !list_lookup_fmap, Hi, Hj in E.
      specialize (E eq_refl eq_refl). subst j. congruence. }
    apply list_elem_of_filter. split; [done|]. by apply elem_of_by_key.
  - intros id eb cb [_ Hin]%list_elem_of_filter. apply elem_of_by_key in Hin. by apply (rows_valid w).
  - subst l. unfold ztake. split.
    + exists (P1 ++ Q1), Q2. rewrite <- app_assoc. split; [done|]. by apply Forall2_app.
    + apply Forall_forall. intros cb Hcb. apply list_elem_of_lookup in Hcb as [i Hi].
      destruct (Forall2_lookup_r _ _ _ _ _ HQ Hi) as ([id eb] & Hp & [Hid _]). simpl in Hid.
      apply list_elem_of_lookup_2 in Hp. rewrite Forall_forall in HQL. specialize (HQL _ Hp). simpl in HQL.
      apply list_elem_of_fmap in HQL as ([id' x] & E & [Hc Hin]%list_elem_of_filter). simpl in *. subst id'.
      apply elem_of_by_key in Hin. destruct Hev as (_ & _ & Hev). unfold present. rewrite Hid.
      rewrite <- (row_evolves_is_Some _ _ (Hev id Hc)). by eexists.
Qed.

Lemma cleanup_evolves c (w : W) h h' w' :
  v_valid w -> cleanup_ok run c h -> run_handle h w = (h', w') -> evolves c w w'.
Proof.
  intros Hv Hok Hrun. unfold run_handle in Hrun. destruct (jh_done h) as [r|] eqn:Hdone.
  { simplify_eq. apply evolves_same; [done|lia|done]. }
  destruct (Hok Hdone) as (up_to & Hspawn & Hup).
  rewrite Hspawn in Hrun. simpl in Hrun. unfold cleanup_job, timed in Hrun.
  pose proof (cleanup_law up_to COMPLETED_CLEANUP_BATCH_LIMIT w Hv) as Hev.
  destruct (w_cleanup_consumed_completed_batches run up_to COMPLETED_CLEANUP_BATCH_LIMIT w) as [w1 r].
  simplify_eq. by apply (evolves_mono up_to).
Qed.

Lemma run_handle_done {A} (h : JoinHandle W A) w : jh_done (run_handle h w).1 <> None.
Proof. unfold run_handle. destruct (jh_done h) eqn:E; simpl; [by rewrite E|]. by destruct (jh_job h w). Qed.

Lemma view_run_cleanup P own T ing D U q w h h' w' :
  view P own T ing D U q w -> pending_completed_cleanup q = Some h -> run_handle h w = (h', w') ->
  view P own T ing D U (set_pending_completed_cleanup (Some h') q) w'.
Proof.
  intros Hview Hh Hrun.
  pose proof (cleanup_evolves _ _ _ _ _ (vw_valid _ _ _ _ _ _ _ _ _ _ Hview) (vw_cleanup _ _ _ _ _ _ _ _ _ _ Hview h Hh) Hrun) as Hev.
  pose proof (run_handle_done h w) as Hd. rewrite Hrun in Hd.
  pose proof (view_evolves _ _ _ _ _ _ _ _ _ _ _ Hview Hev) as []. constructor; try done.
  simpl. intros h'' [= <-] E. by destruct Hd.
Qed.
End scheduler.

(** ** The queue preserves the invariant *)

Section operations.
Context {W Eb R : Type} {QW : QueueWorld W Eb R} {QV : QueueView W Eb R} {LM : Libm}.
Context (run : i32) (task : i64) {QS : QueueStore W Eb R run task}.
Notation CB := (CompletedBatch R).
Notation sq := (SamplerQueue W Eb R).
Notation M := (SE (sq * W) StoreError).
Notation view := (view run task).
Notation Inv := (Inv run task).

(** The outstanding jobs never bring the identifiers back in range. *)
Definition tame {A} (h : JoinHandle W A) : Prop := forall w, v_in_range (jh_job h w).1 -> v_in_range w.
Record tame_queue (q : sq) : Prop := mkTame {
  tame_ids : q_run_id q = run /\ q_task_id q = task;
  tame_inserts : Forall (fun t => tame (handle t)) (pending_insert_tasks q);
  tame_fetch : forall h, pending_processed_fetch q = Some h -> tame h;
  tame_cleanup : forall h, pending_completed_cleanup q = Some h -> tame h
}.

Lemma tame_spawn {A} (f : W -> W * result StoreError A) :
  (forall w, v_in_range (f w).1 -> v_in_range w) -> tame (spawn f).
Proof. intros H w. simpl. specialize (H w). by destruct (f w). Qed.
Lemma tame_await {A} (h : JoinHandle W A) w : tame h -> v_in_range (await_handle h w).1 -> v_in_range w.
Proof. intros Ht. unfold await_handle. destruct (jh_done h); [done|]. apply Ht. Qed.
Lemma tame_run {A} (h : JoinHandle W A) w : tame h -> tame (run_handle h w).1.
Proof. intros Ht. unfold run_handle. destruct (jh_done h); [done|]. by destruct (jh_job h w). Qed.

(** Hoare triples over the runs that end with the identifiers in range. *)
Definition triple {A} (P : sq * W -> Prop) (m : M A) (Q : result StoreError A -> sq * W -> Prop) : Prop :=
  forall s, tame_queue s.1 ->
    tame_queue (m s).1.1 /\ (v_in_range (m s).1.2 -> v_in_range s.2 /\ (P s -> Q (m s).2 (m s).1)).

Lemma outcome_bind {A B} P (m : M A) (k : A -> M B) Q Q' :
  triple P m Q -> (forall a, triple (Q (Ok a)) (k a) Q') -> (forall e s, Q (Err e) s -> Q' (Err e) s) ->
  triple P (se_bind m k) Q'.
Proof.
  intros Hm Hk He s Ht. unfold se_bind. destruct (Hm s Ht) as [Ht1 Hm1]. destruct (m s) as [s1 [a|e]]; simpl in *.
  - destruct (Hk a s1 Ht1) as [Ht2 HQ]. split; [done|]. intros Hr. destruct (HQ Hr) as [Hr1 ?].
    destruct (Hm1 Hr1). split; [done|]. auto.
  - split; [done|]. intros Hr. destruct (Hm1 Hr) as [? HQ]. split; [done|]. auto.
Qed.
Lemma triple_conseq {A} (P P' : sq * W -> Prop) (m : M A) (Q Q' : result StoreError A -> sq * W -> Prop) :
  triple P' m Q' -> (forall s, P s -> P' s) -> (forall r s, Q' r s -> Q r s) -> triple P m Q.
Proof. intros Hm HP HQ s Ht. destruct (Hm s Ht) as [? H]. split; [done|]. intros Hr. destruct (H Hr). auto. Qed.
Lemma triple_ext {A} P (m m' : M A) Q : (forall s, m s = m' s) -> triple P m' Q -> triple P m Q.
Proof. intros E H s. rewrite E. apply H. Qed.
Lemma triple_ret {A} P (a : A) (Q : result StoreError A -> sq * W -> Prop) :
  (forall s, P s -> Q (Ok a) s) -> triple P (se_ret a) Q.
Proof. intros H s Ht. split; [done|]. intros Hr. split; [done|]. apply H. Qed.
Lemma triple_fail {A} P (e : StoreError) (Q : result StoreError A -> sq * W -> Prop) :
  (forall s, P s -> Q (Err e) s) -> triple P (se_fail e) Q.
Proof. intros H s Ht. split; [done|]. intros Hr. split; [done|]. apply H. Qed.
Lemma triple_gets {A B} P (f : sq -> A) (k : A -> M B) Q :
  (forall q, tame_queue q -> triple (fun s => P s /\ s.1 = q) (k (f q)) Q) -> triple P (se_bind (gets f) k) Q.
Proof. intros H s Ht. destruct (H s.1 Ht s Ht) as [? HQ]. split; [done|]. intros Hr. destruct (HQ Hr). auto. Qed.
Lemma triple_now {B} P (k : Z -> M B) Q :
  (forall a, triple P (k a) Q) -> triple P (se_bind now_ms k) Q.
Proof. intros H s Ht. apply (H _ s Ht). Qed.
Lemma triple_modify {B} P P' (f : sq -> sq) (k : unit -> M B) Q :
  triple P' (k tt) Q -> (forall q, tame_queue q -> tame_queue (f q)) -> (forall q w, P (q, w) -> P' (f q, w)) ->
  triple P (se_bind (modify f) k) Q.
Proof.
  intros H Hf HP s Ht. destruct (H (f s.1, s.2) (Hf _ Ht)) as [? HQ]. split; [done|].
  intros Hr. destruct (HQ Hr). split; [done|]. intros. apply H2, HP. by destruct s.
Qed.
Lemma triple_world {A B} P P' (f : W -> W * A) (k : A -> M B) Q :
  (forall w, v_in_range (f w).1 -> v_in_range w) ->
  (forall a, triple (P' a) (k a) Q) ->
  (forall q w, v_in_range (f w).1 -> P (q, w) -> P' (f w).2 (q, (f w).1)) ->
  triple P (se_bind (world f) k) Q.
Proof.
  intros Hf H HP s Ht. unfold se_bind, world in *. specialize (Hf s.2). specialize (HP s.1 s.2).
  destruct (f s.2) as [w a]. simpl in *. destruct (H a (s.1, w) Ht) as [Ht1 HQ]. split; [done|].
  intros Hr. destruct (HQ Hr) as [Hr1 HQ1]. split; [auto|]. intros. apply HQ1, HP; [done|]. by destruct s.
Qed.

Definition bad (s : sq * W) : Prop := insert_error s.1 <> None.
Definition I (ing : list Eb) (D U : list CB) (s : sq * W) : Prop := Inv ing D U s.1 s.2.
(** An operation keeps the invariant, or fails with a poisoned queue. *)
Definition kept {A} ing D U (r : result StoreError A) (s : sq * W) : Prop :=
  match r with Ok _ => I ing D U s | Err _ => I ing D U s \/ bad s end.
Definition keeps {A} ing D U (m : M A) : Prop := triple (I ing D U) m (kept ing D U).

Lemma keeps_bind {A B} ing D U (m : M A) (k : A -> M B) :
  keeps ing D U m -> (forall a, keeps ing D U (k a)) -> keeps ing D U (se_bind m k).
Proof. intros Hm Hk. eapply outcome_bind; [exact Hm|exact Hk|done]. Qed.
Lemma triple_then {A B} P ing D U (m : M A) (k : A -> M B) :
  triple P m (kept ing D U) -> (forall a, keeps ing D U (k a)) -> triple P (se_bind m k) (kept ing D U).
Proof. intros Hm Hk. eapply outcome_bind; [exact Hm|exact Hk|done]. Qed.
Lemma keeps_ret {A} ing D U (a : A) : keeps ing D U (se_ret a).
Proof. by apply triple_ret. Qed.
Lemma keeps_fail {A} ing D U (e : StoreError) : keeps ing D U (se_fail e : M A).
Proof. apply triple_fail. by left. Qed.

(** The fields the invariant reads. *)
Definition core (q : sq) :=
  (q_run_id q, q_task_id q, insert_error q, pending_insert q, queue_last_completed q, ready_processed q,
   pending_processed_fetch q, pending_completed_cleanup q).
Definition untouched (f : sq -> sq) : Prop :=
  forall q, core (f q) = core q /\ pending_insert_tasks (f q) = pending_insert_tasks q.

Lemma tame_untouched f q : untouched f -> tame_queue q -> tame_queue (f q).
Proof.
  intros Hf []. destruct (Hf q) as [Hc Ht]. unfold core in Hc. injection Hc as E1 E2 _ _ _ _ E3 E4.
  by constructor; rewrite ?Ht, ?E1, ?E2, ?E3, ?E4.
Qed.

Lemma view_core P own T ing D U q q' (w : W) : core q = core q' -> view P own T ing D U q w -> view P own T ing D U q' w.
Proof.
  destruct q, q'. unfold core, queue_last_completed. simpl. intros E H. simplify_eq.
  match goal with E : last_completed_batch_id _ = last_completed_batch_id _ |- _ => rename E into El end.
  destruct H. unfold cursor, queue_last_completed in *. simpl in *. rewrite El in *.
  constructor; unfold cursor, queue_last_completed; simpl; assumption.
Qed.

Lemma triple_modify_core {B} ing D U (f : sq -> sq) (k : unit -> M B) :
  untouched f -> keeps ing D U (k tt) -> keeps ing D U (se_bind (modify f) k).
Proof.
  intros Hf Hk. eapply triple_modify; [exact Hk|intros; by apply tame_untouched|]. intros q w (P & own & H). exists P, own. simpl in *.
  rewrite (proj2 (Hf q)). eapply view_core; [symmetry; apply Hf|exact H].
Qed.
Lemma keeps_modify ing D U (f : sq -> sq) : untouched f -> keeps ing D U (modify f).
Proof.
  intros Hf s Ht. split; [by apply tame_untouched|]. intros Hr. split; [done|].
  intros (P & own & H). exists P, own. simpl in *. rewrite (proj2 (Hf s.1)). eapply view_core; [symmetry; apply Hf|exact H].
Qed.

(** Calls of the store that leave the rows alone. *)
Lemma triple_world_try {A} ing D U q0 (f : W -> W * result StoreError A) :
  (forall w, v_in_range (f w).1 -> v_in_range w) -> (forall w, v_valid w -> evolves (cursor q0) w (f w).1) ->
  triple (fun s => I ing D U s /\ s.1 = q0) (world_try f) (kept ing D U).
Proof.
  intros Hr Hev s Ht. unfold world_try. specialize (Hr s.2). specialize (Hev s.2).
  destruct (f s.2) as [w r]. simpl in *. split; [done|]. intros Hin. split; [auto|]. intros [(P & own & H) <-].
  assert (I ing D U (s.1, w)) as HI by (exists P, own; eapply view_evolves; [exact H|apply Hev, H]).
  destruct r; simpl; auto.
Qed.
Lemma keeps_world_try {A} ing D U (f : W -> W * result StoreError A) :
  (forall w, v_in_range (f w).1 -> v_in_range w) -> (forall w c, v_valid w -> evolves c w (f w).1) ->
  keeps ing D U (world_try f).
Proof.
  intros Hr Hev s Ht. destruct (triple_world_try ing D U s.1 f Hr (fun w => Hev w _) s Ht) as [? H].
  split; [done|]. intros Hin. destruct (H Hin). auto.
Qed.

(** *** Inserting *)

Lemma next_bundle_prefix size (l : list (Eb * bool)) : exists k, l = next_bundle size l ++ k.
Proof.
  destruct l as [|[b t] l]; [by exists []|]. unfold next_bundle.
  destruct (take_while_prefix (fun p : Eb * bool => Bool.eqb p.2 t) (ztake size ((b, t) :: l))) as [k Hk].
  exists (k ++ zdrop size ((b, t) :: l)). by rewrite app_assoc, <- Hk, ztake_zdrop.
Qed.
Lemma next_bundle_split size (l : list (Eb * bool)) :
  l = next_bundle size l ++ zdrop (zlen (next_bundle size l)) l.
Proof.
  destruct (next_bundle_prefix size l) as [k Hk]. rewrite Hk at 1. f_equal.
  rewrite Hk at 2. unfold zdrop, zlen. by rewrite Nat2Z.id, drop_app_length.
Qed.

Lemma sorted_head_le (ids : list Z) x : StronglySorted Z.lt ids -> x ∈ ids -> default 0 (head ids) <= x.
Proof.
  intros Hs Hx. destruct Hs as [|y l _ Hf]; [by apply elem_of_nil in Hx|]. simpl.
  rewrite Forall_forall in Hf. apply elem_of_cons in Hx as [->|Hx]; [lia|]. specialize (Hf x Hx). lia.
Qed.
Lemma sorted_NoDup (ids : list Z) : StronglySorted Z.lt ids -> NoDup ids.
Proof.
  induction 1 as [|x l _ IH Hx]; constructor; [|done]. rewrite Forall_forall in Hx.
  intros Hin. specialize (Hx x Hin). lia.
Qed.

Lemma view_new_bundle P own T ing D U q (w w' : W) ids bundle rest tr cp lp dp bs last :
  view P own T ing D U q w -> pending_insert q = bundle ++ rest -> bs = map fst bundle -> 0 < zlen bundle ->
  v_valid w' -> v_issued w <= v_issued w' -> v_rows w' = v_rows w -> zlen ids = zlen bundle ->
  StronglySorted Z.lt ids -> Forall (fun id => v_issued w < id <= v_issued w') ids ->
  let t := mkPendingInsertTask (default 0 (head ids)) cp lp dp (spawn (insert_job run task tr ids bs)) in
  let own' id := if bool_decide (id ∈ ids) then default 0 (head ids) else own id in
  view (P ++ zip ids bs) own' (T ++ [t]) ing D U
    (set_q_checkpoint (mkQueueCheckpoint (queue_last_completed q) last (batch_size_current (q_checkpoint q)))
       (set_pending_insert rest q)) w'.
Proof.
  intros H Hpend -> Hpos Hv Hiss Hrows Hlen Hsort Hids t own'.
  pose proof (view_evolves _ _ _ _ _ _ _ _ _ _ _ H (evolves_same (cursor q) w w' Hv Hiss Hrows)) as H'.
  destruct H as [_ _ _ _ Hissw Hcur _ _ _ HTw _ _ _ _ _ _ Hfetchw _]. destruct H' as [].
  assert (length ids = length (map fst bundle)) as Hl by (rewrite length_map; unfold zlen in Hlen; lia).
  assert (default 0 (head ids) ∈ ids) as Hhead by (destruct ids; [unfold zlen in *; simpl in *; lia|left]).
  rewrite Forall_forall in Hids.
  assert (forall p, p ∈ P -> p.1 <= v_issued w) as HP by (by rewrite Forall_forall in Hissw).
  assert (forall p, p ∈ P -> own' p.1 = own p.1) as Hown'.
  { intros p Hp. unfold own'. rewrite bool_decide_false; [done|]. intros Hin. specialize (HP p Hp). specialize (Hids _ Hin). lia. }
  assert (forall p, p ∈ zip ids (map fst bundle) -> p.1 ∈ ids /\ own' p.1 = default 0 (head ids)) as Hnew.
  { intros [id eb] Hp%elem_of_zip_l. simpl. split; [done|]. unfold own'. by rewrite bool_decide_true. }
  assert (map fst (zip ids (map fst bundle)) = ids) as Hzf by (apply (fst_zip ids); lia).
  assert (map snd (zip ids (map fst bundle)) = map fst bundle) as Hzs by (apply (snd_zip ids); lia).
  specialize (Hids _ Hhead) as Hh.
  constructor; simpl; try done.
  - rewrite map_app, Hzs, <- app_assoc, <- map_app, <- Hpend. done.
  - rewrite map_app, Hzf. apply StronglySorted_app_2; [|done|done].
    intros x y (p & -> & Hp)%list_elem_of_fmap Hy. specialize (HP p Hp). specialize (Hids y Hy). lia.
  - apply Forall_app. split; [done|]. apply Forall_forall. intros p Hp. apply Hnew in Hp as [Hp _]. specialize (Hids _ Hp). lia.
  - intros id eb o Hid Hc. apply elem_of_app. left. eauto.
  - intros p [Hp|Hp]%elem_of_app; [rewrite Hown' by done; auto|].
    apply Hnew in Hp as [Hp ->]. by apply sorted_head_le.
  - intros p [Hp|Hp]%elem_of_app.
    + destruct (vw_unsettled0 p Hp) as [?|(t' & ? & ? & ?)]; [by left|right]. exists t'.
      rewrite Hown' by done. split_and!; [apply elem_of_app; by left|done|done].
    + right. exists t. apply Hnew in Hp as [_ ->]. split_and!; [apply elem_of_app; right; left|done|].
      intros [? E]. simpl in E. done.
  - apply Forall_app. split; [|constructor; [|constructor]].
    + rewrite Forall_forall in vw_tasks0, HTw |- *. intros t' Ht'. destruct (vw_tasks0 t' Ht') as [Hf Hu]. split; [done|].
      intros Hd. destruct (Hu Hd) as (tr' & ids' & bs' & ? & ? & ? & Hz & Hall). exists tr', ids', bs'.
      split_and!; [done..| |].
      * intros p Hp. destruct (Hz p Hp) as (? & ? & ? & ?). rewrite Hown' by done.
        split_and!; [apply elem_of_app; by left|done..].
      * intros p [Hp|Hp]%elem_of_app Ho; [apply Hall; [done|]; by rewrite Hown' in Ho|].
        apply Hnew in Hp as [_ Ho']. destruct (HTw t' Ht') as [Hf' _]. lia.
    + split; [simpl; lia|]. intros _. exists tr, ids, (map fst bundle). split_and!; [done|done|by apply sorted_NoDup| |].
      * intros p Hp. destruct (Hnew p Hp) as [Hin ->]. specialize (Hids _ Hin).
        split_and!; [apply elem_of_app; by right|done|unfold cursor, queue_last_completed in *; simpl in *; lia|].
        destruct (v_rows w' !! p.1) as [[eb o]|] eqn:E; [|done].
        specialize (vw_rows0 _ _ _ E ltac:(lia)). specialize (HP _ vw_rows0). simpl in HP. lia.
      * intros p [Hp|Hp]%elem_of_app Ho; [|by apply Hnew in Hp as [? _]].
        rewrite Hown' in Ho by done. simpl in Ho. specialize (vw_own0 p Hp). specialize (HP p Hp). lia.
  - rewrite map_app. simpl. apply NoDup_app. split_and!; [done| |constructor; [apply not_elem_of_nil|constructor]].
    intros x (t' & -> & Ht')%list_elem_of_fmap Hx%list_elem_of_singleton. rewrite Forall_forall in HTw.
    destruct (HTw t' Ht') as [? _]. lia.
  - by apply delivers_app_r.
  - destruct vw_delivers0 as (P1 & P2 & -> & HF). apply Forall2_app_inv_r in HF as (Q1 & Q2 & HQ & _ & ->).
    apply Forall2_length in HQ. rewrite <- !app_assoc in *. rewrite !drop_app_length' in * by done.
    apply Forall_app in vw_rest0 as [? ?]. rewrite !Forall_app. split_and!; [done..|].
    apply Forall_forall. intros p Hp. apply Hnew in Hp as [Hp _]. specialize (Hids _ Hp).
    unfold cursor, queue_last_completed in *. simpl in *. lia.
  - intros h Hh'. destruct (vw_fetch0 h Hh') as (? & ? & Hf). destruct (Hfetchw h Hh') as (_ & _ & Hfw).
    split_and!; [done..|]. unfold fetch_ok in *. destruct (jh_done h) as [[[[l d]|e]|]|]; [|done..|].
    + destruct Hf as [? ?]. split; [by apply delivers_app_r|done].
    + destruct Hfw as (limit & before & -> & Hb & Hs). exists limit, before. split_and!; [done|lia|].
      intros p [Hp|Hp]%elem_of_app Hlt.
      * eapply settled_evolves; [|by apply Hs]. by apply evolves_same.
      * apply Hnew in Hp as [Hp _]. specialize (Hids _ Hp). lia.
Qed.

Lemma view_set_last P own T ing D U q (w : W) c :
  last_completed_batch_id c = queue_last_completed q -> view P own T ing D U q w ->
  view P own T ing D U (set_q_checkpoint c q) w.
Proof. intros Hc. apply view_core. unfold core, queue_last_completed in *. simpl. by rewrite Hc. Qed.

Lemma pump_once_inv q w q' w' :
  pump_once q w = (q', w') -> v_in_range w' -> pending_insert q <> [] ->
  v_in_range w /\ forall ing D U, Inv ing D U q w -> Inv ing D U q' w'.
Proof.
  unfold pump_once. intros Heq Hr Hne.
  set (bundle := next_bundle (Z.max (max_insert_bundle_size (q_config q)) 1) (pending_insert q)) in *.
  assert (0 < zlen bundle) as Hpos.
  { pose proof (next_bundle_nonempty (Z.max (max_insert_bundle_size (q_config q)) 1) (pending_insert q) ltac:(lia) Hne).
    unfold bundle, zlen. lia. }
  destruct (w_next_batch_ids (zlen bundle) w) as [w1 ids] eqn:Hids. simplify_eq.
  pose proof (ids_in_range (run:=run) (task:=task) (zlen bundle) w) as Hback. rewrite Hids in Hback. split; [auto|].
  intros ing D U (P & own & H).
  destruct (ids_law (run:=run) (task:=task) _ _ _ _ (vw_valid _ _ _ _ _ _ _ _ _ _ H) (Z.lt_le_incl _ _ Hpos) Hids Hr)
    as (Hv & Hiss & Hrows & Hlen & Hsort & Hf).
  eapply view_new_bundle in H; [|apply next_bundle_split|done..].
  destruct (vw_ids _ _ _ _ _ _ _ _ _ _ H) as (Hrun & Htask & _). simpl in Hrun, Htask.
  eexists _, _. simpl. rewrite Hrun, Htask. refine (view_core _ _ _ _ _ _ _ _ _ _ H). done.
  Unshelve. exact (last ids).
Qed.

Lemma pump_inv fuel q w q' w' :
  pump fuel q w = (q', w') -> v_in_range w' ->
  v_in_range w /\ forall ing D U, Inv ing D U q w -> Inv ing D U q' w'.
Proof.
  revert q w. induction fuel as [|fuel IH]; intros q w; simpl; [intros; by simplify_eq|].
  destruct (pump_wanted q) eqn:Hw; [|intros; by simplify_eq].
  destruct (pump_once q w) as [q1 w1] eqn:E. intros Hp Hr. destruct (IH _ _ Hp Hr) as [Hr1 HI].
  destruct (pump_once_inv _ _ _ _ E Hr1) as [? HI1]; [|split; [done|auto]].
  unfold pump_wanted in Hw. by destruct (pending_insert q); zbool.
Qed.

Lemma tame_pump fuel q w : tame_queue q -> tame_queue (pump fuel q w).1.
Proof.
  revert q w. induction fuel as [|fuel IH]; intros q w Ht; simpl; [done|].
  destruct (pump_wanted q); [|done]. destruct (pump_once q w) as [q1 w1] eqn:E. apply IH.
  unfold pump_once in E. destruct (w_next_batch_ids _ w) as [w2 ids]. simplify_eq. destruct Ht.
  constructor; simpl; [done| |done|done]. apply Forall_app. split; [done|]. constructor; [|constructor].
  destruct tame_ids0 as [-> ->]. apply tame_spawn. intros w3. apply insert_in_range.
Qed.

Lemma keeps_pump ing D U : keeps ing D U ensure_insert_pump.
Proof.
  intros s Ht. unfold ensure_insert_pump. pose proof (tame_pump (length (pending_insert s.1)) s.1 s.2 Ht).
  destruct (pump _ _ _) as [q' w'] eqn:E. split; [done|]. intros Hr.
  destruct (pump_inv _ _ _ _ _ E Hr) as [? HI]. split; [done|]. apply HI.
Qed.

(** *** Awaiting tasks *)

Lemma await_is_run {A} (h : JoinHandle W A) w w' r :
  await_handle h w = (w', r) -> exists h', run_handle h w = (h', w') /\ jh_done h' = Some r.
Proof.
  unfold await_handle, run_handle. destruct (jh_done h) eqn:E.
  - intros. simplify_eq. eauto.
  - destruct (jh_job h w) as [w1 r1]. intros. simplify_eq. eauto.
Qed.

Lemma view_drop_done P own t T ing D U q (w : W) :
  view P own (t :: T) ing D U q w -> ok_done (handle t) -> view P own T ing D U q w.
Proof.
  intros [] Hok. simpl in *. apply NoDup_cons in vw_nodup0 as [? ?]. apply Forall_cons in vw_tasks0 as [? ?].
  constructor; try done. intros p Hp. destruct (vw_unsettled0 p Hp) as [?|(t' & Ht & ? & Hno)]; [by left|right].
  apply elem_of_cons in Ht as [->|?]; [done|eauto].
Qed.


(** *** Consuming tasks *)

Lemma keeps_gets {B} ing D U (f : sq -> B) : keeps ing D U (gets f).
Proof. intros s Ht. split; [done|]. intros Hr. split; [done|]. done. Qed.
Lemma keeps_gets_bind {A B} ing D U (f : sq -> A) (k : A -> M B) :
  (forall a, keeps ing D U (k a)) -> keeps ing D U (se_bind (gets f) k).
Proof. intros Hk. apply keeps_bind; [apply keeps_gets|done]. Qed.
Lemma keeps_now_bind {B} ing D U (k : Z -> M B) : (forall a, keeps ing D U (k a)) -> keeps ing D U (se_bind now_ms k).
Proof. intros Hk. by apply triple_now. Qed.

Lemma view_set_cleanup P own T ing D U q (w : W) x :
  view P own T ing D U q w -> (forall h, x = Some h -> cleanup_ok run (cursor q) h) ->
  view P own T ing D U (set_pending_completed_cleanup x q) w.
Proof. intros [] Hx. by constructor. Qed.
Lemma view_no_fetch P own T ing D U q (w : W) :
  view P own T ing D U q w -> view P own T ing D U (set_pending_processed_fetch None q) w.
Proof. intros []. by constructor. Qed.

Lemma keeps_consume_cleanup ing D U (h : JoinHandle W Z) :
  tame h ->
  triple (fun s => I ing D U s /\ cleanup_ok run (cursor s.1) h) (consume_completed_cleanup_task h) (kept ing D U).
Proof.
  intros Hh. unfold consume_completed_cleanup_task. eapply (triple_world _ (fun _ => I ing D U)).
  - intros w. by apply tame_await.
  - intros [[d|e]|].
    + apply keeps_now_bind. intros ?. apply triple_modify_core; [done|]. apply keeps_ret.
    + apply keeps_fail.
    + apply keeps_fail.
  - intros q w Hr [(P & own & H) Hok]. destruct (await_handle h w) as [w' r] eqn:E.
    apply await_is_run in E as (h' & E & _). exists P, own. eapply view_evolves; [exact H|].
    eapply (cleanup_evolves run task); [apply H|exact Hok|exact E].
Qed.

Lemma keeps_take_cleanup ing D U {B} (g : option (JoinHandle W Z) -> M B) :
  keeps ing D U (g None) ->
  (forall h, tame h -> triple (fun s => I ing D U s /\ cleanup_ok run (cursor s.1) h) (g (Some h)) (kept ing D U)) ->
  keeps ing D U
    (let! task := gets pending_completed_cleanup in
     modify (set_pending_completed_cleanup None) ;! g task).
Proof.
  intros Hnone Hsome. apply triple_gets. intros q0 Ht0.
  apply (triple_modify _ (fun s => I ing D U s /\ forall h, pending_completed_cleanup q0 = Some h -> cleanup_ok run (cursor s.1) h)).
  - destruct (pending_completed_cleanup q0) as [h|] eqn:E.
    + eapply triple_conseq; [by apply Hsome, Ht0|intros s [HI Hc]; exact (conj HI (Hc h eq_refl))|done].
    + eapply triple_conseq; [exact Hnone|by intros s [? _]|done].
  - intros q []. by constructor.
  - intros q w [(P & own & H) Heq]. simpl in *. subst q0. split.
    + exists P, own. by apply view_set_cleanup.
    + intros h Hh. eapply (vw_cleanup _ _ _ _ _ _ _ _ _ _ H). done.
Qed.

Lemma keeps_finish_maintenance ing D U : keeps ing D U finish_background_maintenance.
Proof.
  unfold finish_background_maintenance. eapply (triple_modify _ (I ing D U)).
  - apply (keeps_take_cleanup ing D U (fun task =>
             match task with Some task => let! _ := consume_completed_cleanup_task task in se_ret tt | None => se_ret tt end)).
    + apply keeps_ret.
    + intros h Hh. apply triple_then; [by apply keeps_consume_cleanup|intros ?; apply keeps_ret].
  - intros q []. by constructor.
  - intros q w (P & own & H). exists P, own. by apply view_no_fetch.
Qed.

Lemma keeps_cleanup_completed ing D U : keeps ing D U cleanup_completed_batches.
Proof.
  unfold cleanup_completed_batches.
  assert (keeps ing D U (let! last := gets queue_last_completed in
    match last with
    | None => se_ret None
    | Some _ => let! started := now_ms in let! _ := cleanup_consumed in let! now := now_ms in
        modify (set_last_completed_cleanup_at now) ;! se_ret (Some (now - started))
    end)) as Hk.
  { apply keeps_gets_bind. intros [c|]; [|apply keeps_ret]. apply keeps_now_bind. intros ?. apply keeps_bind.
    - unfold cleanup_consumed. apply triple_gets. intros q0 [[Hrun _] _ _ _]. simpl.
      destruct (queue_last_completed q0) as [up_to|] eqn:E; [|by apply triple_ret; intros s [? _]].
      rewrite Hrun. apply triple_world_try.
      + intros w. apply (cleanup_in_range (run:=run) (task:=task)).
      + intros w Hv. unfold cursor. rewrite E. by apply (cleanup_law (run:=run) (task:=task)).
    - intros _. apply keeps_now_bind. intros ?. apply triple_modify_core; [done|]. apply keeps_ret. }
  apply (keeps_take_cleanup ing D U (fun task =>
    match task with Some task => let! _ := consume_completed_cleanup_task task in se_ret tt | None => se_ret tt end ;! _)).
  - apply keeps_bind; [apply keeps_ret|done].
  - intros h Hh. apply triple_then; [|done]. apply triple_then; [by apply keeps_consume_cleanup|intros ?; apply keeps_ret].
Qed.

(** *** Consuming inserts *)

Lemma await_all_in_range (tasks : list (PendingInsertTask W)) w :
  Forall (fun t => tame (handle t)) tasks -> v_in_range (await_all tasks w) -> v_in_range w.
Proof.
  intros Hf. revert w. induction Hf as [|t tasks Ht _ IH]; simpl; [done|]. intros w Hr. eapply tame_await; eauto.
Qed.

(** The fields a failed insert leaves. *)
Lemma consume_cleanup_error h (s : sq * W) :
  insert_error (consume_completed_cleanup_task h s).1.1 = insert_error s.1.
Proof.
  unfold consume_completed_cleanup_task, se_bind, world. destruct (await_handle h s.2) as [w [[d|e]|]]; done.
Qed.
Lemma finish_maintenance_error (s : sq * W) : insert_error (finish_background_maintenance s).1.1 = insert_error s.1.
Proof.
  unfold finish_background_maintenance, se_bind, modify, gets, se_modify, se_get, se_ret. simpl.
  destruct (pending_completed_cleanup s.1) as [h|]; [|done].
  match goal with |- context [consume_completed_cleanup_task h ?x] => pose proof (consume_cleanup_error h x) as E end.
  by destruct (consume_completed_cleanup_task h _) as [s' [d|e]].
Qed.

Lemma triple_poison e (Q : result StoreError unit -> sq * W -> Prop) :
  (forall s, bad s -> Q (Err e) s) ->
  triple (fun _ => True)
    (modify (set_insert_error (Some e)) ;!
     let! tasks := gets pending_insert_tasks in
     modify (set_pending_insert_tasks []) ;!
     world (fun w => (await_all tasks w, tt)) ;!
     se_ignore finish_background_maintenance ;!
     se_fail e) Q.
Proof.
  intros HQ. apply (triple_modify _ bad); [|intros q []; by constructor|done].
  apply triple_gets. intros q [_ Hf _ _].
  apply (triple_modify _ bad); [|intros q' []; by constructor|by intros q' w [? _]].
  apply (triple_world _ (fun _ => bad)); [intros w; by apply await_all_in_range| |done]. intros _.
  eapply (outcome_bind _ _ _ (fun r s => is_ok r = true /\ bad s)); [|intros ?; apply triple_fail; intros s [_ ?]; by apply HQ|by intros ? ? [? _]].
  intros s Ht. unfold se_ignore. destruct (keeps_finish_maintenance [] [] [] s Ht) as [? H].
  pose proof (finish_maintenance_error s) as E. simpl. split; [done|]. intros Hr. destruct (H Hr). split; [done|].
  unfold bad. by rewrite E.
Qed.

Lemma keeps_consume_insert ing D U t :
  tame (handle t) ->
  triple (fun s => exists P own, view P own (t :: pending_insert_tasks s.1) ing D U s.1 s.2)
    (consume_insert_task t) (kept ing D U).
Proof.
  intros Ht. unfold consume_insert_task.
  apply (triple_world _ (fun r s => forall x, r = Some (Ok x) -> I ing D U s)).
  - intros w. by apply tame_await.
  - assert (forall e, triple (fun _ : sq * W => True)
      (modify (set_insert_error (Some e)) ;!
       let! tasks := gets pending_insert_tasks in
       modify (set_pending_insert_tasks []) ;!
       world (fun w => (await_all tasks w, tt)) ;!
       se_ignore finish_background_maintenance ;!
       se_fail e) (kept ing D U)) as Hpoison by (intros e; apply triple_poison; by right).
    assert (forall {A} (m : M A), keeps ing D U m -> forall x : InsertBatchesMetrics,
      triple (fun s => forall y, Some (Ok (E:=StoreError) x) = Some (Ok y) -> I ing D U s) m (kept ing D U)) as Hweak.
    { intros A m Hm x. eapply triple_conseq; [exact Hm|intros s Hs; by apply (Hs x)|done]. }
    intros [[x|e]|]; cbn match.
    + apply Hweak. apply triple_modify_core; [done|]. apply triple_gets. intros q0 [[Hrun _] _ _ _]. simpl.
      eapply triple_conseq; [|intros s [Hs _]; exact Hs|done]. rewrite Hrun.
      destruct (pending_insert q0); [destruct (pending_insert_tasks q0)|]; try apply keeps_ret.
      apply keeps_world_try; [intros w; apply (notify_in_range (task:=task))|intros w c; apply (notify_law (task:=task))].
    + eapply triple_conseq; [apply Hpoison|done|done].
    + eapply triple_conseq; [apply Hpoison|done|done].
  - intros q w Hr (P & own & H) x Hx. simpl in *. destruct (await_handle (handle t) w) as [w' r] eqn:E. simpl in Hx. subst r.
    apply await_is_run in E as (h' & E & Hd). exists P, own. eapply (view_run_insert run task) in H; [|exact E].
    eapply view_drop_done; [exact H|]. by exists x.
Qed.

Lemma view_set_tasks P own T T' ing D U q (w : W) :
  view P own T ing D U q w -> view P own T ing D U (set_pending_insert_tasks T' q) w.
Proof. by apply view_core. Qed.

(** Taking a task off the list and consuming it. *)
Lemma keeps_consume_at {B} ing D U i q0 t rest (k : unit -> M B) :
  tame_queue q0 -> swap_remove i (pending_insert_tasks q0) = Some (t, rest) ->
  (forall a, keeps ing D U (k a)) ->
  triple (fun s => I ing D U s /\ s.1 = q0)
    (modify (set_pending_insert_tasks rest) ;! let! a := consume_insert_task t in k a) (kept ing D U).
Proof.
  intros Htame Hswap Hk. assert (pending_insert_tasks q0 !! i = Some t) as Hi.
  { unfold swap_remove in Hswap. destruct (pending_insert_tasks q0 !! i); by simplify_eq. }
  destruct (swap_remove_perm _ _ _ Hi) as (l & Hl & Hperm & _). rewrite Hswap in Hl. simplify_eq.
  destruct Htame as [_ Ht _ _]. rewrite Hperm in Ht. apply Forall_cons in Ht as [Ht Hrest].
  apply (triple_modify _ (fun s => exists P own, view P own (t :: pending_insert_tasks s.1) ing D U s.1 s.2)).
  - apply triple_then; [by apply keeps_consume_insert|done].
  - intros q [? _ ? ?]. by constructor.
  - intros q w [(P & own & H) Hq]. simpl in *. subst q. exists P, own. apply view_set_tasks.
    by eapply view_perm.
Qed.

Lemma keeps_drain_inserts ing D U fuel index : keeps ing D U (drain_inserts fuel index).
Proof.
  revert index. induction fuel as [|fuel IH]; intros index; [apply keeps_ret|]. cbn [drain_inserts].
  apply triple_gets. intros q0 Hq0. destruct (pending_insert_tasks q0 !! index) as [t|] eqn:Hi.
  - destruct (is_finished (handle t)).
    + destruct (swap_remove_perm _ _ _ Hi) as (l & Hl & _). rewrite Hl. by apply (keeps_consume_at _ _ _ index).
    + eapply triple_conseq; [apply IH|by intros s [? _]|done].
  - apply triple_ret. by intros s [? _].
Qed.

Lemma keeps_drain_finished_insert ing D U : keeps ing D U drain_finished_insert.
Proof.
  apply keeps_gets_bind. intros [e|]; [apply keeps_fail|]. apply keeps_gets_bind. intros. apply keeps_drain_inserts.
Qed.

Lemma keeps_flush ing D U : keeps ing D U flush.
Proof.
  apply keeps_gets_bind. intros q0. match goal with |- keeps _ _ _ (flush_loop ?n) => generalize n end.
  intros fuel. clear q0. induction fuel as [|fuel IH]; [apply keeps_ret|]. cbn [flush_loop].
  apply keeps_bind; [apply keeps_drain_finished_insert|]. intros _. apply keeps_gets_bind. intros q.
  assert (keeps ing D U
    (ensure_insert_pump ;!
     let! tasks := gets pending_insert_tasks in
     match swap_remove 0 tasks with
     | None => se_ret tt
     | Some (task, rest) => modify (set_pending_insert_tasks rest) ;! consume_insert_task task ;! flush_loop fuel
     end)) as Hk.
  { apply keeps_bind; [apply keeps_pump|]. intros _. apply triple_gets. intros q0 Hq0.
    destruct (swap_remove 0 (pending_insert_tasks q0)) as [[t rest]|] eqn:E.
    - by apply (keeps_consume_at _ _ _ 0%nat).
    - apply triple_ret. by intros s [? _]. }
  destruct (pending_insert_tasks q); [destruct (pending_insert q)|]; [apply keeps_ret|exact Hk..].
Qed.

Lemma keeps_ingest nr_samples_of ing D U bs fb :
  triple (I ing D U) (ingest nr_samples_of bs fb) (kept (ing ++ bs) D U).
Proof.
  unfold ingest. apply (triple_modify _ (I ing D U)).
  - apply (triple_modify _ (I (ing ++ bs) D U)).
    + apply keeps_pump.
    + intros q []. by constructor.
    + intros q w (P & own & []). exists P, own. simpl in *. constructor; try done. simpl.
      by rewrite map_app, map_map, map_id, app_assoc, vw_ing0.
  - intros q []. by constructor.
  - intros q w (P & own & H). exists P, own. simpl in *. eapply view_core; [|exact H]. done.
Qed.

(** *** Fetching *)

Lemma min_list_le (l : list Z) m : min_list l = Some m -> m ∈ l /\ forall x, x ∈ l -> m <= x.
Proof.
  destruct l as [|y l]; [done|]. simpl. intros [= <-]. induction l as [|z l IH]; simpl.
  - split; [left|]. intros x Hx%list_elem_of_singleton. lia.
  - destruct IH as [Hin Hle]. split.
    + destruct (Z.min_spec z (foldr Z.min y l)) as [[_ ->]|[_ ->]]; [right; left|].
      apply elem_of_cons in Hin as [->|Hin]; [left|right; by right].
    + intros x [->|[->|Hx]%elem_of_cons]%elem_of_cons.
      * specialize (Hle y ltac:(left)). lia.
      * lia.
      * specialize (Hle x ltac:(by right)). lia.
Qed.

Lemma keeps_drain_fetch ing D U : keeps ing D U drain_finished_processed_fetch.
Proof.
  unfold drain_finished_processed_fetch. apply triple_gets. intros q0 Hq0.
  destruct (pending_processed_fetch q0) as [h|] eqn:Hh; [|apply triple_ret; by intros s [? _]].
  destruct (is_finished h) eqn:Hfin; [|apply triple_ret; by intros s [? _]].
  unfold is_finished in Hfin. destruct (jh_done h) as [r|] eqn:Hd; [|done].
  apply (triple_modify _ (fun s => I ing D U s /\ forall l d, r = Some (Ok (l, d)) ->
    I ing D U (set_ready_processed (ready_processed s.1 ++ l) s.1, s.2))).
  - apply (triple_ext _ _ (match r with
      | Some (Ok (completed, duration)) =>
          modify (fun q => set_ready_processed (ready_processed q ++ completed)
            (on_metrics (observe_fetch duration (zlen completed) (Z.max (completed_batch_fetch_limit (q_config q)) 1)) q))
      | Some (Err e) => se_fail e
      | None => se_fail (Internal "sampler queue completed-batch fetch task failed")
      end)).
    { intros [q w]. unfold consume_processed_fetch_task, await_handle, se_bind, world. rewrite Hd. done. }
    destruct r as [[[l d]|e]|]; [|apply triple_fail; intros s [? _]; by left..].
    intros s Ht. split; [by destruct Ht|]. intros Hr. split; [done|]. intros [_ HI].
    destruct (HI l d eq_refl) as (P & own & H). exists P, own. simpl in *. eapply view_core; [|exact H]. done.
  - intros q []. by constructor.
  - intros q w [(P & own & H) Hq]. simpl in *. subst q. split; [exists P, own; by apply view_no_fetch|].
    intros l d ->. destruct H. destruct (vw_fetch0 h Hh) as (-> & Hready & Hf). unfold fetch_ok in Hf. rewrite Hd in Hf.
    destruct Hf as [Hdel Hpres]. exists P, own. simpl in *. rewrite Hready in *. simpl in *.
    constructor; simpl; rewrite ?Hready; try done. by left.
Qed.

(** A new fetch starts at the cursor, below the outstanding inserts. *)
Lemma view_prefetch P own T ing D q (w w' : W) limit before :
  view P own T ing D [] q w -> ready_processed q = [] ->
  v_valid w' -> v_issued w <= v_issued w' -> v_rows w' = v_rows w -> before <= v_issued w' ->
  (forall t, t ∈ T -> before <= first_batch_id t) ->
  view P own T ing D []
    (set_pending_processed_fetch (Some (spawn (fetch_job run task limit (queue_last_completed q) before))) q) w'.
Proof.
  intros H Hready Hv Hiss Hrows Hb HT.
  pose proof (view_evolves _ _ _ _ _ _ _ _ _ _ _ H (evolves_same (cursor q) w w' Hv Hiss Hrows)) as [].
  constructor; try done. simpl. intros h [= <-]. split_and!; [done..|]. unfold fetch_ok. simpl.
  exists limit, before. split_and!; [done..|]. intros p Hp Hlt.
  destruct (vw_unsettled0 p Hp) as [?|(t & Ht & Hf & _)]; [done|]. specialize (HT t Ht). specialize (vw_own0 p Hp). lia.
Qed.

Lemma keeps_prefetch ing D : keeps ing D [] ensure_processed_prefetch.
Proof.
  unfold ensure_processed_prefetch. apply triple_gets. intros q0 Hq0. simpl.
  destruct (ready_processed q0) as [|cb l] eqn:Hready; [|apply triple_ret; by intros s [? _]].
  destruct (pending_processed_fetch q0) as [h|] eqn:Hh; [apply triple_ret; by intros s [? _]|].
  set (limit := Z.max (completed_batch_fetch_limit (q_config q0)) 1). destruct Hq0 as [[Hrun Htask] _ _ _].
  assert (forall before, triple
    (fun s => s.1 = q0 /\ exists P own w, view P own (pending_insert_tasks q0) ing D [] q0 w /\ v_valid s.2 /\
       v_issued w <= v_issued s.2 /\ v_rows s.2 = v_rows w /\ before <= v_issued s.2 /\
       forall t, t ∈ pending_insert_tasks q0 -> before <= first_batch_id t)
    (modify (set_pending_processed_fetch
        (Some (spawn (fetch_job (q_run_id q0) (q_task_id q0) limit (queue_last_completed q0) before)))))
    (kept ing D [])) as Hlast.
  { intros before [q w'] [? ? ? ?]. split.
    - constructor; simpl; try done. intros h [= <-]. rewrite Hrun, Htask. apply tame_spawn. intros w1.
      unfold fetch_job, timed. pose proof (fetch_in_range (run:=run) (task:=task) limit (queue_last_completed q0) w1).
      by destruct (w_fetch_completed_batches run task limit true (queue_last_completed q0) w1).
    - intros Hr. split; [done|]. intros (Hq & P & own & w & H & ? & ? & ? & ? & ?). simpl in *. subst q.
      exists P, own. simpl. rewrite Hrun, Htask. by eapply view_prefetch. }
  destruct (min_list (map first_batch_id (pending_insert_tasks q0))) as [b|] eqn:Hmin.
  - apply min_list_le in Hmin as [Hin Hle].
    eapply triple_ext; [intros s; reflexivity|]. eapply triple_conseq; [apply (Hlast b)| |done].
    intros s [(P & own & H) Hq]. split; [done|]. rewrite <- Hq. exists P, own, s.2.
    apply list_elem_of_fmap in Hin as (t & -> & Hint).
    split_and!; [done|apply H|lia|done| |].
    + apply vw_tasks in H. rewrite Forall_forall in H. rewrite Hq in H. by destruct (H t Hint).
    + intros t' Ht'. apply Hle. rewrite Hq in Ht'. by apply (list_elem_of_fmap_2 first_batch_id).
  - assert (pending_insert_tasks q0 = []) as Hnil by (destruct (pending_insert_tasks q0); done).
    eapply triple_ext.
    { intros s. transitivity ((let! ids := world (w_next_batch_ids 1) in
        modify (set_pending_processed_fetch (Some (spawn
          (fetch_job (q_run_id q0) (q_task_id q0) limit (queue_last_completed q0) (default 0 (head ids))))))) s); [|reflexivity].
      unfold se_bind, world. by destruct (w_next_batch_ids 1 s.2). }
    eapply triple_world; [intros w; apply (ids_in_range (run:=run) (task:=task))|intros ids; apply Hlast|].
    intros q w Hr [(P & own & H) Hq]. simpl in *. subst q. split; [done|]. exists P, own, w.
    destruct (w_next_batch_ids 1 w) as [w' ids] eqn:Hids. simpl in *.
    destruct (ids_law (run:=run) (task:=task) 1 w w' ids) as (Hv & Hi & Hrows & Hlen & _ & Hf);
      [apply H|done|exact Hids|done|].
    split_and!; [done..| |].
    + destruct ids as [|i ids]; [done|]. apply Forall_cons in Hf as [? _]. simpl. lia.
    + rewrite Hnil. by intros t ?%elem_of_nil.
Qed.

Lemma keeps_take_ready ing D :
  triple (I ing D []) take_ready_processed
    (fun r s => match r with Ok l => I ing D l s | Err _ => False end).
Proof.
  intros s Ht. split; [by destruct Ht|]. intros Hr. split; [done|]. intros (P & own & []). exists P, own. simpl in *.
  constructor; simpl; rewrite ?app_nil_r; try done; [by right|].
  intros h Hh. destruct (vw_fetch0 h Hh) as (_ & -> & ?). done.
Qed.

Definition got {A} (f : A -> list CB) ing D (r : result StoreError A) (s : sq * W) : Prop :=
  match r with Ok a => I ing D (f a) s | Err _ => I ing D [] s \/ bad s end.

Lemma got_bind {A B} (f : B -> list CB) ing D (m : M A) (k : A -> M B) :
  keeps ing D [] m -> (forall a, triple (I ing D []) (k a) (got f ing D)) ->
  triple (I ing D []) (se_bind m k) (got f ing D).
Proof. intros Hm Hk. eapply outcome_bind; [exact Hm|exact Hk|done]. Qed.

Lemma got_take ing D : triple (I ing D []) take_ready_processed (got id ing D).
Proof. eapply triple_conseq; [apply keeps_take_ready|done|]. by intros [l|e] s. Qed.

Lemma get_processed_ok ing D : triple (I ing D []) get_processed (got id ing D).
Proof.
  apply got_bind; [apply keeps_drain_finished_insert|intros _].
  apply got_bind; [apply keeps_pump|intros _].
  apply got_bind; [apply keeps_drain_fetch|intros _].
  apply got_bind; [apply keeps_prefetch|intros _]. apply got_take.
Qed.
Lemma get_processed_ready_ok ing D : triple (I ing D []) get_processed_ready (got id ing D).
Proof.
  apply got_bind; [apply keeps_drain_finished_insert|intros _].
  apply got_bind; [apply keeps_pump|intros _].
  apply got_bind; [apply keeps_drain_fetch|intros _]. apply got_take.
Qed.

(** Results that are dropped before they are marked come back later. *)
Lemma I_drop ing D U s : I ing D U s -> I ing D [] s.
Proof.
  intros (P & own & []). exists P, own. constructor; try done; simpl.
  - destruct vw_unmarked0 as [->|E]; [done|]. rewrite E in *. rewrite app_nil_r in *. by eapply delivers_app_l.
  - by left.
  - by apply Forall_app in vw_present0 as [_ ?].
  - intros h Hh. destruct (vw_fetch0 h Hh) as (_ & ? & ?). done.
Qed.

(** *** The rest of a tick *)

Lemma keeps_ensure_cleanup ing D U : keeps ing D U ensure_completed_cleanup_if_due.
Proof.
  unfold ensure_completed_cleanup_if_due. apply triple_gets. intros q0 Hq0. simpl.
  destruct (pending_completed_cleanup q0) eqn:Hnone; [apply triple_ret; by intros s [? _]|].
  destruct (queue_last_completed q0) as [c|] eqn:Hc; [|apply triple_ret; by intros s [? _]].
  apply triple_now. intros now. destruct (now - last_completed_cleanup_at q0 <? COMPLETED_CLEANUP_INTERVAL);
    [apply triple_ret; by intros s [? _]|].
  intros s [Hids ? ? _]. destruct Hq0 as [[Hrun _] _ _ _]. split.
  - constructor; simpl; try done. intros h [= <-]. rewrite Hrun. apply tame_spawn. intros w.
    unfold cleanup_job, timed. pose proof (cleanup_in_range (run:=run) (task:=task) c COMPLETED_CLEANUP_BATCH_LIMIT w).
    by destruct (w_cleanup_consumed_completed_batches run c COMPLETED_CLEANUP_BATCH_LIMIT w) as [? [?|?]].
  - intros Hr. split; [done|]. intros [(P & own & H) <-]. exists P, own. simpl. apply view_set_cleanup; [done|].
    intros h [= <-] _. exists c. rewrite Hrun. split; [done|]. unfold cursor. by rewrite Hc.
Qed.

Lemma keeps_drain_cleanup ing D U : keeps ing D U drain_finished_completed_cleanup.
Proof.
  unfold drain_finished_completed_cleanup. apply triple_gets. intros q0 Hq0.
  destruct (pending_completed_cleanup q0) as [h|] eqn:Hh; [|apply triple_ret; by intros s [? _]].
  destruct (is_finished h); [|apply triple_ret; by intros s [? _]].
  apply (triple_modify _ (fun s => I ing D U s /\ cleanup_ok run (cursor s.1) h)).
  - apply triple_then; [apply keeps_consume_cleanup, Hq0; done|]. intros ?. apply keeps_ret.
  - intros q []. by constructor.
  - intros q w [(P & own & H) Hq]. simpl in *. subst q. split; [exists P, own; by apply view_set_cleanup|].
    by eapply (vw_cleanup _ _ _ _ _ _ _ _ _ _ H).
Qed.

(** Store calls parametrised by the queue's own identifiers. *)
Lemma triple_gets_ids {A B} ing D U (f : sq -> A) (k : A -> M B) :
  (forall q, q_run_id q = run -> q_task_id q = task -> keeps ing D U (k (f q))) -> keeps ing D U (se_bind (gets f) k).
Proof.
  intros Hk. apply triple_gets. intros q [[? ?] _ _ _]. eapply triple_conseq; [by apply Hk|by intros s [? _]|done].
Qed.

Lemma keeps_reclaim ing D U : keeps ing D U reclaim_abandoned_batches_if_due.
Proof.
  apply keeps_now_bind. intros started. apply triple_gets_ids. intros q Hrun Htask. simpl.
  destruct (_ <? RECLAIM_INTERVAL); [apply keeps_ret|]. rewrite Hrun.
  apply keeps_bind; [apply keeps_world_try; [apply (reclaim_in_range (task:=task))|intros w c; apply (reclaim_law (task:=task))]|].
  intros _. apply keeps_bind.
  { apply keeps_world_try; [apply (blocker_in_range (task:=task))|intros w c; apply (blocker_law (task:=task))]. }
  intros b. apply triple_modify_core; [done|]. apply keeps_now_bind. intros ?. apply triple_modify_core; [done|]. apply keeps_ret.
Qed.

Lemma keeps_queue_counts ing D U : keeps ing D U queue_counts.
Proof.
  apply keeps_bind.
  - apply triple_gets_ids. intros q Hrun Htask. simpl. rewrite Hrun. apply keeps_bind.
    + apply keeps_world_try; [intros w; apply (counts_in_range (task:=task))|intros w c; apply (counts_law (task:=task))].
    + intros c. apply triple_modify_core; [done|]. apply keeps_ret.
  - intros c. apply keeps_gets.
Qed.

Lemma keeps_needs_generation ing D U counts : keeps ing D U (needs_generation counts).
Proof.
  apply triple_gets_ids. intros q -> _. apply keeps_bind.
  - apply keeps_world_try; [apply (evaluators_in_range (task:=task))|intros w c; apply (evaluators_law (task:=task))].
  - intros n. do 2 (apply triple_modify_core; [done|]). apply keeps_ret.
Qed.

Lemma got_after {A B} (f : B -> list CB) ing D U (m : M A) (k : A -> M B) :
  keeps ing D U m -> (forall a, triple (I ing D U) (k a) (got f ing D)) ->
  triple (I ing D U) (se_bind m k) (got f ing D).
Proof.
  intros Hm Hk. eapply outcome_bind; [exact Hm|exact Hk|]. intros e s [?|?]; [left; by eapply I_drop|by right].
Qed.

Lemma tick_ok ing D : triple (I ing D []) tick (got qt_completed ing D).
Proof.
  unfold tick. eapply outcome_bind; [apply get_processed_ok| |done]. intros l. cbn [got id].
  apply got_after; [apply keeps_drain_cleanup|intros cleanup].
  apply got_after; [apply keeps_ensure_cleanup|intros _].
  apply got_after; [apply keeps_reclaim|intros reclaim].
  apply triple_now. intros started. apply got_after; [apply keeps_queue_counts|intros counts]. apply triple_now. intros now.
  eapply (triple_modify _ (I ing D l)); [by apply triple_ret|intros q; by apply tame_untouched|].
  intros q w (P & own & H). exists P, own. simpl in *. eapply view_core; [|exact H]. done.
Qed.

(** *** Marking results *)

Lemma delivers_split P D U :
  delivers P (D ++ U) ->
  exists P1 PU P3, P = P1 ++ PU ++ P3 /\ Forall2 row_result P1 D /\ Forall2 row_result PU U.
Proof.
  intros (P1 & P2 & -> & H). apply Forall2_app_inv_r in H as (Q1 & Q2 & ? & ? & ->).
  exists Q1, Q2, P2. by rewrite app_assoc.
Qed.

Lemma row_result_ids PU U : Forall2 row_result PU U -> map fst PU = map cb_batch_id U.
Proof. induction 1 as [|p cb ? ? [? _] _ IH]; [done|]. simpl. by f_equal. Qed.

Lemma sorted_last_max (l : list Z) x : StronglySorted Z.lt l -> last l = Some x -> forall y, y ∈ l -> y <= x.
Proof.
  induction 1 as [|z l Hs IH Hf]; [done|]. intros Hl y Hy. destruct l as [|z' l].
  - simpl in Hl. simplify_eq. apply list_elem_of_singleton in Hy. lia.
  - rewrite last_cons_cons in Hl. rewrite Forall_forall in Hf. specialize (IH Hl).
    apply elem_of_cons in Hy as [->|Hy]; [|auto]. specialize (Hf z' ltac:(left)). specialize (IH z' ltac:(left)). lia.
Qed.

Lemma view_mark P own T ing D U q (w : W) cb :
  view P own T ing D U q w -> last U = Some cb ->
  view P own T ing (D ++ U) []
    (set_q_checkpoint (mkQueueCheckpoint (Some (cb_batch_id cb)) (last_produced_batch_id (q_checkpoint q))
       (batch_size_current (q_checkpoint q))) q) w.
Proof.
  intros H Hlast. pose proof H as [].
  assert (U <> []) as HU by (by intros ->). destruct vw_unmarked0 as [?|Hready]; [done|].
  assert (pending_processed_fetch q = None) as Hnofetch.
  { destruct (pending_processed_fetch q) as [h|] eqn:E; [|done]. by destruct (vw_fetch0 h eq_refl). }
  rewrite Hready, app_nil_r in vw_delivers0, vw_present0.
  destruct (delivers_split _ _ _ vw_delivers0) as (P1 & PU & P3 & -> & HD & HPU).
  pose proof (Forall2_length _ _ _ HD) as HlenD. pose proof (Forall2_length _ _ _ HPU) as HlenU.
  rewrite drop_app_length' in vw_rest0 by done. pose proof (row_result_ids _ _ HPU) as Hids.
  rewrite !map_app in vw_sorted0. apply StronglySorted_app_1_r in vw_sorted0 as Hs23.
  assert (last (map fst PU) = Some (cb_batch_id cb)) as HlastP.
  { rewrite Hids. change (map cb_batch_id U) with (cb_batch_id <$> U). by rewrite fmap_last, Hlast. }
  pose proof (sorted_last_max _ _ (StronglySorted_app_1_l _ _ _ Hs23) HlastP) as Hmax.
  apply Forall_app in vw_rest0 as [HrU Hr3]. rewrite Forall_forall in HrU, Hr3.
  assert (cb_batch_id cb ∈ map fst PU) as HcbPU by (by apply last_Some_elem_of).
  apply list_elem_of_fmap in HcbPU as (pcb & Hpcb & HpcbU). specialize (HrU pcb HpcbU) as Hcur. rewrite <- Hpcb in Hcur.
  assert (forall p, p ∈ P3 -> cb_batch_id cb < p.1) as H3.
  { intros p Hp. apply (StronglySorted_app_1_elem_of _ _ _ _ _ Hs23).
    - by apply last_Some_elem_of.
    - by apply (list_elem_of_fmap_2 fst). }
  assert (forall p, p ∈ P1 ++ PU ++ P3 -> cursor q < p.1 -> p.1 <= cb_batch_id cb -> is_Some (v_rows w !! p.1)) as Hbetween.
  { intros p Hp Hlo Hhi. apply elem_of_app in Hp as [Hp|[Hp|Hp]%elem_of_app].
    - rewrite Forall_forall in vw_marked0. apply list_elem_of_lookup in Hp as [i Hi].
      destruct (Forall2_lookup_l _ _ _ _ _ HD Hi) as (cb' & Hcb' & [Hid _]).
      specialize (vw_marked0 cb' (list_elem_of_lookup_2 _ _ _ Hcb')). lia.
    - rewrite Forall_forall in vw_present0. apply list_elem_of_lookup in Hp as [i Hi].
      destruct (Forall2_lookup_l _ _ _ _ _ HPU Hi) as (cb' & Hcb' & [Hid _]). rewrite <- Hid.
      apply vw_present0. by eapply list_elem_of_lookup_2.
    - specialize (H3 p Hp). lia. }
  assert (forall id, settled (cursor q) w id -> settled (cb_batch_id cb) w id) as Hset by (intros id [?|?]; [left; lia|by right]).
  set (q' := set_q_checkpoint _ q). assert (cursor q' = cb_batch_id cb) as Hcq by done.
  constructor; rewrite ?Hcq; simpl; try done.
  - rewrite !map_app. done.
  - rewrite Forall_forall in vw_issued0. rewrite Hpcb. apply vw_issued0. rewrite !elem_of_app. auto.
  - intros id eb o Hid ?. apply (vw_rows0 id eb o Hid). lia.
  - intros p Hp. destruct (vw_unsettled0 p Hp); [left; auto|by right].
  - rewrite Forall_forall in vw_tasks0 |- *. intros t Ht. destruct (vw_tasks0 t Ht) as [Hf Hu]. split; [done|].
    intros Hd. destruct (Hu Hd) as (tr & ids & bs & ? & ? & ? & Hz & ?). exists tr, ids, bs. split_and!; [done..| |done].
    intros p Hp. destruct (Hz p Hp) as (HpP & ? & ? & Hnone). split_and!; [done..| |done].
    destruct (decide (p.1 <= cb_batch_id cb)) as [Hle|]; [|lia].
    destruct (Hbetween p HpP ltac:(lia) Hle) as [x Hx]. congruence.
  - rewrite Hready, app_nil_r. done.
  - by left.
  - apply Forall_app. split.
    + eapply Forall_impl; [exact vw_marked0|]. simpl. lia.
    + apply Forall_forall. intros cb' Hcb'. apply Hmax. rewrite Hids. by apply (list_elem_of_fmap_2 cb_batch_id).
  - rewrite length_app, app_assoc, drop_app_length'; [by apply Forall_forall|]. rewrite length_app. lia.
  - rewrite Hready. constructor.
  - rewrite Hnofetch. done.
  - intros h Hh Hd. destruct (vw_cleanup0 h Hh Hd) as (up_to & ? & ?). exists up_to. split; [done|lia].
Qed.

Lemma mark_processed_ok ing D U : triple (I ing D U) (mark_processed U) (kept ing (D ++ U) []).
Proof.
  unfold mark_processed. destruct (last U) as [cb|] eqn:Hlast.
  - apply (triple_modify _ (I ing (D ++ U) [])); [apply keeps_ensure_cleanup|intros q []; by constructor|].
    intros q w (P & own & H). exists P, own. simpl in *. by apply view_mark.
  - assert (U = []) as -> by (by apply last_None in Hlast). rewrite app_nil_r.
    apply keeps_bind; [apply keeps_ret|]. intros _. apply keeps_ensure_cleanup.
Qed.
End operations.
