(* ===== verification/QueueInstance.v ===== *)
(** The PostgreSQL work queue (WorkQueue.v) and the batch identifiers
    (BatchIds.v) as the store of the sampler's queue: the instance of
    [QueueStore], and the evaluators' transactions as the steps of the outside
    world it allows. *)
From S2P Require Import Prelude Floats Errors BatchIds WorkQueue Metrics Queue QueueProtocol.

(** The database, the process's identifier generator and the clock (in
    nanoseconds). *)
Record World (B V J : Type) := mkWorld {
  wd_db : DB B V J;
  wd_ids : BatchIdGenerator;
  wd_clock : Z
}.
Arguments mkWorld {B V J}.
Arguments wd_db {B V J}.
Arguments wd_ids {B V J}.
Arguments wd_clock {B V J}.

Definition nanos_per_milli : Z := 1000000.

Section instance.
Context {Eb B V J : Type}.
Variable encode_input : Eb -> result string B.
Variable decode_input : B -> result string Eb.
Variable nr_samples_of : Eb -> usize.
Variables (run : i32) (task : i64).
(** What an evaluator's result says of the batch it evaluated. *)
Variable honest : Eb -> CompletedBatch (ResultRow V J) -> Prop.
Hypothesis codec : forall b bytes, encode_input b = Ok bytes -> decode_input bytes = Ok b.

Notation db := (DB B V J).
Notation world := (World B V J).
Notation CB := (CompletedBatch (ResultRow V J)).
Implicit Types (d : db) (w : world).

Definition with_db d w : world := mkWorld d (wd_ids w) (wd_clock w).
Definition on_db {A} (f : db -> db * A) w : world * A := let '(d, a) := f (wd_db w) in (with_db d w, a).
Definition clock_millis w : u64 := wd_clock w / nanos_per_milli.

Definition batch_ids_now (n : usize) w : world * list i64 :=
  let '(g, ids) := next_ids (wd_ids w) (replicate (Z.to_nat n) (clock_millis w)) in
  (mkWorld (wd_db w) g (wd_clock w), ids).

Definition no_metrics : InsertBatchesMetrics := mkInsertBatchesMetrics 0%float 0 0%float 0%float 0%float 0%float.

Definition completed_of (id : Z) (r : BatchRow) (x : ResultRow V J) : CB :=
  mkCompletedBatch id (task_id r) (requires_training_values r) (batch_size r) x (r_total_eval_time_ms x).
Definition completed_batch (c : CompletedRow) : CB :=
  mkCompletedBatch (cr_batch_id c) (cr_task_id c) (cr_requires_training_values c) (cr_batch_size c) (cr_result c)
    (r_total_eval_time_ms (cr_result c)).

#[export] Instance db_world : QueueWorld world Eb (ResultRow V J) := {
  w_now w := wd_clock w;
  w_next_batch_ids := batch_ids_now;
  w_insert_batches r t training ids bs :=
    on_db (fun d => let '(d, x) := insert_batches encode_input nr_samples_of r t training ids bs d in
                    (d, let? _ := x in Ok no_metrics));
  w_fetch_completed_batches r t limit strict after :=
    on_db (fun d => (d, Ok (map completed_batch (fetch_completed_batches r t limit strict after d))));
  w_get_batch_queue_counts r t after :=
    on_db (fun d => (d, Ok (get_batch_queue_counts r (default 0 t) after d)));
  w_reclaim_abandoned_batches r :=
    on_db (fun d => let '(d, n) := reclaim_abandoned_batches r d in (d, Ok n));
  w_cleanup_consumed_completed_batches r up_to limit :=
    on_db (fun d => let '(d, n) := cleanup_consumed_completed_batches r up_to limit d in (d, Ok n));
  w_count_active_evaluator_nodes r := on_db (fun d => (d, Ok (count_active_evaluator_nodes r d)));
  w_get_queue_blocker r t after := on_db (fun d => (d, Ok (get_queue_blocker r t after d)));
  w_notify_work_available r := on_db (fun d => (d, Ok tt))
}.

(** A row of the task, as the queue sees it. *)
Definition view_row d (id : Z) (r : BatchRow) : option (Eb * option CB) :=
  if of_task run task r then
    match decode_input <$> batch_inputs d !! id with
    | Some (Ok eb) =>
        Some (eb, if has_status Completed r then completed_of id r <$> batch_results d !! id else None)
    | _ => None
    end
  else None.
Definition task_rows d : gmap Z (Eb * option CB) := map_imap (view_row d) (batches d).

(** Every row decodes, every result is an honest evaluation. *)
Record world_ok w : Prop := mkWorldOk {
  wk_db : wq_ok (wd_db w);
  wk_decodes : forall id r, batches (wd_db w) !! id = Some r -> of_task run task r = true -> is_Some (task_rows (wd_db w) !! id);
  wk_honest : forall id eb cb, task_rows (wd_db w) !! id = Some (eb, Some cb) -> honest eb cb;
  wk_ids : generator_ok (wd_ids w);
  wk_clock : 0 <= wd_clock w
}.

#[export] Instance db_view : QueueView world Eb (ResultRow V J) := {
  v_rows w := task_rows (wd_db w);
  v_issued w := next_floor (wd_ids w) - 1;
  v_evaluates := honest;
  v_valid := world_ok;
  v_in_range w := last_millis (wd_ids w) < 2 ^ 41
}.

Lemma task_rows_lookup d id : task_rows d !! id = batches d !! id ≫= view_row d id.
Proof. apply map_lookup_imap. Qed.

(** *** Transactions that keep the rows *)

(** What evaluators do to a row: its batch stays, a completed one is final. *)
Definition row_kept d d' (id : Z) : Prop :=
  batch_inputs d' !! id = batch_inputs d !! id /\
  match batches d !! id, batches d' !! id with
  | Some r, Some r' =>
      run_id r' = run_id r /\ task_id r' = task_id r /\ batch_size r' = batch_size r /\
      requires_training_values r' = requires_training_values r /\
      (status r = Completed -> status r' = Completed /\ batch_results d' !! id = batch_results d !! id)
  | None, None => True
  | _, _ => False
  end.

Lemma row_kept_evolves d d' id : row_kept d d' id -> row_evolves (task_rows d !! id) (task_rows d' !! id).
Proof.
  intros [Hin H]. rewrite !task_rows_lookup.
  destruct (batches d !! id) as [r|], (batches d' !! id) as [r'|]; simpl; try done.
  destruct H as (Hrun & Htask & Hsize & Htr & Hst). unfold view_row, of_task. rewrite Hrun, Htask, Hin.
  destruct ((run_id r =? run) && (task_id r =? task)); [|done].
  destruct (decode_input <$> batch_inputs d !! id) as [[eb|]|]; simpl; try done. split; [done|].
  intros cb. unfold has_status. case_bool_decide as Hs; [|done]. destruct (Hst Hs) as [Hs' ->].
  rewrite bool_decide_true by done. unfold completed_of. rewrite Htask, Hsize, Htr. done.
Qed.

Lemma row_kept_refl d id : row_kept d d id.
Proof. split; [done|]. by destruct (batches d !! id). Qed.

Lemma evolves_same_db c w : world_ok w -> evolves c w (with_db (wd_db w) w).
Proof. intros Hok. apply evolves_same; [by destruct w|done|done]. Qed.

Lemma row_evolves_Some (x y : option (Eb * option CB)) : row_evolves x y -> is_Some x -> is_Some y.
Proof. destruct x as [[? ?]|], y as [[? ?]|]; simpl; intros ? [? ?]; try done; eauto. Qed.

(** A transaction that keeps the rows and stores honest results only. *)
Lemma kept_evolves c w d' :
  world_ok w -> wq_ok d' -> (forall id, row_kept (wd_db w) d' id) ->
  (forall id eb cb, task_rows d' !! id = Some (eb, Some cb) ->
     task_rows (wd_db w) !! id = Some (eb, Some cb) \/ honest eb cb) ->
  evolves c w (with_db d' w).
Proof.
  intros [] Hd' Hkept Hhon. split_and!; simpl; [|lia|intros id _; by apply row_kept_evolves].
  constructor; simpl; try done.
  - intros id r' Hr' Ht. specialize (Hkept id). pose proof (row_kept_evolves _ _ _ Hkept) as He.
    destruct Hkept as [_ Hk]. rewrite Hr' in Hk. destruct (batches (wd_db w) !! id) as [r|] eqn:Hr; [|done].
    destruct Hk as (Hrun & Htask & _). eapply row_evolves_Some; [exact He|]. apply (wk_decodes0 id r Hr).
    unfold of_task in *. by rewrite <- Hrun, <- Htask.
  - intros id eb cb H. destruct (Hhon id eb cb H); [by eapply wk_honest0|done].
Qed.

(** *** Inserting *)

Lemma world_insert_law tr ids bs w w' r :
  world_ok w -> w_insert_batches run task tr ids bs w = (w', r) -> length ids = length bs -> NoDup ids ->
  (forall id, id ∈ ids -> task_rows (wd_db w) !! id = None) ->
  world_ok w' /\ wd_ids w' = wd_ids w /\
  (forall id, task_rows (wd_db w') !! id = task_rows (wd_db w) !! id \/
     exists eb, (id, eb) ∈ zip ids bs /\ task_rows (wd_db w') !! id = Some (eb, None)) /\
  (forall x, r = Ok x -> forall id, id ∈ ids -> is_Some (task_rows (wd_db w') !! id)).
Proof.
  intros Hok H Hlen Hnd Hfresh. simpl in H. unfold on_db in H.
  pose proof (insert_batches_ok encode_input nr_samples_of run task tr ids bs (wd_db w) (wk_db _ Hok)) as Hok'.
  destruct (insert_batches encode_input nr_samples_of run task tr ids bs (wd_db w)) as [d' x] eqn:E. simplify_eq/=.
  apply insert_batches_cases in E as [[-> Hx]|(-> & Hlen' & payload & Hp & Hf)].
  { split; [destruct w, Hok; by constructor|]. split; [done|]. split; [by left|]. intros y Hy id Hid.
    destruct Hx as [[-> ->]|[e ->]]; [|done]. destruct ids; [by apply elem_of_nil in Hid|done]. }
  apply insert_rows_spec in Hf as (Hfree & _ & Hother & Hin & Hres & _).
  pose proof (try_map_length _ _ _ Hp) as Hplen. rewrite zip_ids in Hfree, Hother by (done || (unfold zlen; lia)).
  assert (forall id eb, (id, eb) ∈ zip ids bs -> task_rows d' !! id = Some (eb, None)) as Hnew.
  { intros id eb Hz. apply list_elem_of_lookup in Hz as [i Hi]. apply lookup_zip_Some in Hi as [Hid Heb].
    pose proof (proj1 (try_map_Forall2 _ _ _) Hp) as HF. destruct (Forall2_lookup_l _ _ _ _ _ HF Heb) as (bytes & Hb & Henc).
    destruct (Hin id eb bytes) as [Hrow Hinput].
    { apply list_elem_of_lookup. exists i. apply lookup_zip_Some. split; [|done]. apply lookup_zip_Some. done. }
    rewrite task_rows_lookup, Hrow. simpl. unfold view_row, of_task. simpl. rewrite !Z.eqb_refl, Hinput. simpl.
    by rewrite (codec _ _ Henc). }
  assert (forall id, id ∈ ids -> exists eb, (id, eb) ∈ zip ids bs) as Hz.
  { intros id (i & Hi)%list_elem_of_lookup. destruct (lookup_lt_is_Some_2 bs i) as [eb Heb].
    - rewrite <- Hlen. by eapply lookup_lt_Some.
    - exists eb. apply list_elem_of_lookup. exists i. by apply lookup_zip_Some. }
  assert (forall id, id ∉ ids -> task_rows d' !! id = task_rows (wd_db w) !! id) as Hold.
  { intros id Hid. rewrite !task_rows_lookup. destruct (Hother id Hid) as [-> Hinp].
    destruct (batches (wd_db w) !! id); simpl; [|done]. unfold view_row. by rewrite Hinp, Hres. }
  split; [|split; [done|split]].
  - destruct Hok. constructor; simpl; try done.
    + intros id r' Hr' Ht. destruct (decide (id ∈ ids)) as [Hid|Hid].
      * destruct (Hz id Hid) as [eb Heb]. rewrite (Hnew _ _ Heb). by eexists.
      * rewrite Hold by done. destruct (Hother id Hid) as [Hb _]. rewrite Hb in Hr'. eauto.
    + intros id eb cb Hrow. destruct (decide (id ∈ ids)) as [Hid|Hid].
      * destruct (Hz id Hid) as [eb' Heb]. rewrite (Hnew _ _ Heb) in Hrow. done.
      * rewrite Hold in Hrow by done. eauto.
  - intros id. destruct (decide (id ∈ ids)) as [Hid|Hid]; [right|left; auto].
    destruct (Hz id Hid) as [eb Heb]. eauto.
  - intros y _ id Hid. destruct (Hz id Hid) as [eb Heb]. rewrite (Hnew _ _ Heb). by eexists.
Qed.

(** *** Fetching *)

#[local] Instance Ok_inj {E A} : Inj (=) (=) (@Ok E A).
Proof. by intros x y [= ->]. Qed.

Lemma key_lt_antisym {A} : AntiSymm (=) (@key_lt A).
Proof. intros x y. unfold key_lt. lia. Qed.
Lemma sorted_key_NoDup {A} (l : list (Z * A)) : StronglySorted key_lt l -> NoDup l.
Proof.
  induction 1 as [|x l _ IH Hx]; constructor; [|done]. rewrite Forall_forall in Hx.
  intros Hin. specialize (Hx x Hin). unfold key_lt in Hx. lia.
Qed.
Lemma sorted_key_ext {A} (l k : list (Z * A)) :
  StronglySorted key_lt l -> StronglySorted key_lt k -> (forall p, p ∈ l <-> p ∈ k) -> l = k.
Proof.
  intros Hl Hk H. pose proof (@key_lt_antisym A). apply (StronglySorted_unique key_lt); [done|done|].
  apply NoDup_Permutation; [by apply sorted_key_NoDup..|done].
Qed.

Definition row_view d (p : Z * BatchRow) : option (Z * (Eb * option CB)) := (fun x => (p.1, x)) <$> view_row d p.1 p.2.

Lemma omap_sorted d l : StronglySorted key_lt l -> StronglySorted key_lt (omap (row_view d) l).
Proof.
  induction 1 as [|p l _ IH Hp]; simpl; [constructor|]. destruct (row_view d p) as [q|] eqn:E; [|done].
  constructor; [done|]. apply Forall_forall. intros q' (p' & Hp' & E')%list_elem_of_omap.
  pose proof (proj1 (Forall_forall _ _) Hp p' Hp') as Hlt. clear Hp. unfold row_view, key_lt in *. destruct (view_row d p.1 p.2), (view_row d p'.1 p'.2); simplify_eq/=. exact Hlt.
Qed.

Lemma rows_after_candidates c w : rows_after c w = omap (row_view (wd_db w)) (candidates run task c (wd_db w)).
Proof.
  apply sorted_key_ext.
  - apply StronglySorted_filter, by_key_sorted.
  - apply omap_sorted, candidates_sorted.
  - intros [id x]. unfold rows_after. rewrite list_elem_of_filter, elem_of_by_key, list_elem_of_omap. simpl.
    rewrite task_rows_lookup. split.
    + intros [Hc (r & Hr & Hv)%bind_Some]. exists (id, r). rewrite candidates_elem. unfold row_view. simpl. rewrite Hv.
      unfold view_row, of_task in Hv. destruct ((run_id r =? run) && (task_id r =? task)) eqn:E; [|done]. by zbool.
    + intros ([id' r] & (Hr & _ & _ & Hc)%candidates_elem & Hv). unfold row_view in Hv. simpl in *.
      destruct (view_row (wd_db w) id' r) eqn:E; simplify_eq/=. rewrite Hr. done.
Qed.

Lemma fetched_rows d n l :
  wq_ok d -> Forall (fun p => batches d !! p.1 = Some p.2 /\ is_Some (view_row d p.1 p.2)) l ->
  completed_rows (take n (omap (row_view d) l)) =
  map completed_batch (omap (join_result d) (take_while (fun p => has_status Completed p.2) (take n l))).
Proof.
  intros Hok Hl. revert n. induction Hl as [|[id r] l [Hr [[eb o] Hv]] _ IH]; intros n; [by destruct n|].
  destruct n as [|n]; [done|]. simpl in Hr, Hv. cbn [omap list_omap]. unfold row_view at 1. simpl. rewrite Hv. simpl.
  unfold view_row in Hv. destruct (of_task run task r); [|done].
  destruct (decode_input <$> batch_inputs d !! id) as [[eb'|]|]; simplify_eq. simpl.
  destruct (has_status Completed r) eqn:Hs; [|done]. unfold has_status in Hs. zbool.
  destruct (ok_completed d Hok _ _ Hr Hs) as ([x Hx] & _). rewrite Hx. simpl. unfold join_result at 1. simpl. rewrite Hx. simpl.
  unfold completed_batch at 1, completed_of. simpl. f_equal. apply IH.
Qed.

Lemma world_fetch_law limit after w w' r c :
  world_ok w -> w_fetch_completed_batches run task limit true after w = (w', r) ->
  evolves c w w' /\ forall l, r = Ok l -> l = completed_rows (ztake limit (rows_after (default 0 after) w)).
Proof.
  intros Hok H. unfold w_fetch_completed_batches, db_world, on_db in H. apply pair_equal_spec in H as [<- <-].
  split; [by apply evolves_same_db|]. intros l E. apply (inj Ok) in E as <-. rewrite rows_after_candidates, fetch_strict_eq. unfold completed_prefix, ztake.
  symmetry. apply fetched_rows; [apply Hok|]. apply Forall_forall. intros [id row] Hp.
  apply candidates_elem in Hp as (Hr & Hrun & Htask & _). split; [done|].
  assert (of_task run task row = true) as Ht by (unfold of_task; rewrite Hrun, Htask, !Z.eqb_refl; done).
  pose proof (wk_decodes _ Hok id row Hr Ht) as Hs. by rewrite task_rows_lookup, Hr in Hs.
Qed.

(** *** Cleaning up *)

Lemma world_cleanup_law up_to limit w :
  world_ok w -> evolves up_to w (w_cleanup_consumed_completed_batches run up_to limit w).1.
Proof.
  intros Hok. simpl. unfold on_db, cleanup_consumed_completed_batches.
  destruct ((up_to <=? 0) || (limit =? 0)); [by apply evolves_same_db|].
  set (ids := cleanup_ids run up_to limit (wd_db w)). cbn [fst].
  assert (forall id, id ∈ ids -> id <= up_to) as Hids.
  { intros id Hid. unfold ids, cleanup_ids in Hid. apply list_elem_of_fmap in Hid as ([i r] & -> & Hin).
    apply elem_of_ztake, list_elem_of_filter in Hin as [Hc _].
    unfold cleanup_candidate in Hc. zbool. simpl. lia. }
  assert (forall id, task_rows (delete_ids ids (wd_db w)) !! id =
            if bool_decide (id ∈ ids) then None else task_rows (wd_db w) !! id) as Hrows.
  { intros id. rewrite !task_rows_lookup. simpl. unfold view_row. simpl.
    rewrite !foldr_delete_lookup. by case_bool_decide. }
  split_and!; simpl; [|lia|].
  - destruct Hok. constructor; simpl; try done.
    + by apply delete_ids_ok.
    + intros id r. rewrite foldr_delete_lookup, Hrows. case_bool_decide; [done|eauto].
    + intros id eb cb. rewrite Hrows. case_bool_decide; [done|eauto].
  - intros id Hid. rewrite Hrows, bool_decide_false; [apply row_evolves_refl|]. intros Hin. specialize (Hids id Hin). lia.
Qed.

(** *** The other processes *)

Definition same_batch_fields (r r' : BatchRow) : Prop :=
  run_id r' = run_id r /\ task_id r' = task_id r /\ batch_size r' = batch_size r /\
  requires_training_values r' = requires_training_values r.

Lemma update_kept cond f d id :
  (forall i r, cond i r = true -> status r = Claimed) -> (forall r, same_batch_fields r (f r)) ->
  row_kept d (update_where cond f d).1 id.
Proof.
  intros Hc Hf. split; [done|]. rewrite update_where_lookup. destruct (batches d !! id) as [r|]; simpl; [|done].
  destruct (cond id r) eqn:E; [|done]. destruct (Hf r) as (? & ? & ? & ?). split_and!; try done.
  intros Hs. apply Hc in E. congruence.
Qed.

(** No result appears when the results table stays and no row becomes
    completed. *)
Lemma no_new_results d d' :
  (forall id, row_kept d d' id) ->
  (forall id r r', batches d !! id = Some r -> batches d' !! id = Some r' -> status r' = Completed -> status r = Completed) ->
  forall id eb cb, task_rows d' !! id = Some (eb, Some cb) -> task_rows d !! id = Some (eb, Some cb).
Proof.
  intros Hk Hs id eb cb H. pose proof (row_kept_evolves _ _ _ (Hk id)) as He. rewrite H in He.
  destruct (task_rows d !! id) as [[eb' o]|] eqn:E; [|done]. destruct He as [-> Ho].
  destruct o as [cb'|]; [specialize (Ho cb' eq_refl); congruence|]. exfalso.
  rewrite task_rows_lookup in H, E. destruct (batches d' !! id) as [r'|] eqn:Hr'; [|done].
  destruct (batches d !! id) as [r|] eqn:Hr; [|done]. specialize (Hs id r r' Hr Hr'). simpl in H, E.
  destruct (Hk id) as [Hin Hrow]. rewrite Hr, Hr' in Hrow. destruct Hrow as (? & ? & ? & ? & Hc).
  unfold view_row, of_task in H, E.
  destruct ((run_id r' =? run) && (task_id r' =? task)); [|done].
  destruct ((run_id r =? run) && (task_id r =? task)); [|done].
  destruct (decode_input <$> batch_inputs d' !! id) as [[?|]|]; [|done..].
  destruct (decode_input <$> batch_inputs d !! id) as [[?|]|]; [|done..].
  unfold has_status in *. destruct (decide (status r' = Completed)) as [Hc'|Hc'].
  - rewrite bool_decide_true in H by done. specialize (Hs Hc'). rewrite bool_decide_true in E by done.
    destruct (Hc Hs) as [_ Hx]. rewrite Hx in H. by destruct (batch_results d !! id).
  - by rewrite bool_decide_false in H.
Qed.

Lemma update_evolves c cond f w :
  world_ok w -> (forall i r, cond i r = true -> status r = Claimed) -> (forall r, same_batch_fields r (f r)) ->
  (forall r, status (f r) = Pending /\ claim_token (f r) = None) ->
  evolves c w (with_db (update_where cond f (wd_db w)).1 w).
Proof.
  intros Hok Hc Hf Hs. assert (forall id, row_kept (wd_db w) (update_where cond f (wd_db w)).1 id) as Hk by (intros; by apply update_kept).
  apply kept_evolves; [done|apply update_where_ok; [apply Hok|exact Hc|exact Hs]|done|].
  intros id eb cb H. left. eapply no_new_results; [exact Hk| |exact H].
  intros i r r' Hr. rewrite update_where_lookup, Hr. simpl. intros [= <-]. destruct (cond i r); [|done].
  destruct (Hs r) as [-> _]. done.
Qed.

Lemma world_reclaim_law c w : world_ok w -> evolves c w (w_reclaim_abandoned_batches run w).1.
Proof.
  intros Hok. simpl. unfold on_db, reclaim_abandoned_batches. apply update_evolves; try done.
  intros i r H. unfold has_status in H. by zbool.
Qed.

Lemma world_ids_law n w w' ids :
  world_ok w -> 0 <= n -> w_next_batch_ids n w = (w', ids) -> v_in_range w' ->
  v_valid w' /\ v_issued w <= v_issued w' /\ v_rows w' = v_rows w /\ zlen ids = n /\ StronglySorted Z.lt ids /\
  Forall (fun id => v_issued w < id <= v_issued w') ids.
Proof.
  intros [] Hn. simpl. unfold batch_ids_now. destruct (next_ids _ _) as [g ids'] eqn:E. intros H Hr. simplify_eq/=.
  assert (Forall (fun t => 0 <= t) (replicate (Z.to_nat n) (clock_millis w))) as Hclock.
  { apply Forall_replicate. unfold clock_millis, nanos_per_milli. apply Z.div_pos; lia. }
  destruct (next_ids_ok _ _ _ _ wk_ids0 Hclock E Hr) as (Hg & Hs & Hlen & Hf & Hfl & _).
  rewrite length_replicate in Hlen. unfold zlen. split_and!; [by constructor|lia|done|lia|done|].
  eapply Forall_impl; [exact Hf|]. simpl. lia.
Qed.

Lemma advance_clock_mono self t : last_millis (advance_clock self t) < 2 ^ 41 -> last_millis self < 2 ^ 41.
Proof.
  unfold advance_clock, u64_saturating_succ, usize_max. rewrite Z.gtb_ltb, Z.geb_leb.
  destruct (_ <? _) eqn:E1; zbool; simpl; [lia|]. destruct (_ <=? _); simpl; lia.
Qed.
Lemma next_ids_mono clock self : last_millis (next_ids self clock).1 < 2 ^ 41 -> last_millis self < 2 ^ 41.
Proof.
  revert self. induction clock as [|t clock IH]; intros self; simpl; [done|].
  unfold next_id. destruct (next_ids _ clock) as [g ids] eqn:E. simpl. intros H.
  apply (advance_clock_mono _ t). specialize (IH (mkBatchIdGenerator (last_millis (advance_clock self t))
    (u16_saturating_succ (counter (advance_clock self t))) (process_entropy (advance_clock self t)))).
  rewrite E in IH. simpl in IH. auto.
Qed.

#[export] Instance db_store : QueueStore world Eb (ResultRow V J) run task.
Proof.
  split; simpl; unfold on_db; simpl; try done.
  - intros w id eb cb Hok H. split; [|by eapply wk_honest].
    rewrite task_rows_lookup in H. destruct (batches (wd_db w) !! id) as [r|]; [|done]. simpl in H.
    unfold view_row in H. destruct (of_task run task r); [|done].
    destruct (decode_input <$> batch_inputs (wd_db w) !! id) as [[?|]|]; [|done..]. simplify_eq.
    destruct (has_status Completed r); [|done]. destruct (batch_results (wd_db w) !! id); by simplify_eq/=.
  - intros n w. unfold batch_ids_now. pose proof (next_ids_mono (replicate (Z.to_nat n) (clock_millis w)) (wd_ids w)).
    by destruct (next_ids _ _).
  - apply world_ids_law.
  - intros tr ids bs w. by destruct (insert_batches _ _ _ _ _ _ _ _) as [? ?].
  - intros tr ids bs w w' r Hok H Hlen Hnd Hfresh.
    destruct (world_insert_law tr ids bs w w' r) as (? & Hi & ? & ?); try done. by rewrite Hi.
  - apply world_fetch_law.
  - intros up_to limit w. by destruct (cleanup_consumed_completed_batches _ _ _ _).
  - apply world_cleanup_law.
  - intros ? ? w c. apply evolves_same_db.
  - intros w c. apply world_reclaim_law.
  - intros w c. apply evolves_same_db.
  - intros ? ? w c. apply evolves_same_db.
  - intros w c. apply evolves_same_db.
Qed.

(** *** Evaluators *)

Definition honest_submission d (id : i64) (encoded : result StoreError (option V * J)) (ms : f64) : Prop :=
  forall r eb values accumulator, batches d !! id = Some r -> decode_input <$> batch_inputs d !! id = Some (Ok eb) ->
    of_task run task r = true -> encoded = Ok (values, accumulator) ->
    honest eb (completed_of id r (mkResultRow values accumulator (Some ms) (now d))).

(** The transactions of evaluators and supervisors, and the passing of time. *)
Inductive evaluator_step : world -> world -> Prop :=
| eval_claim w r uuid token locked :
    evaluator_step w (with_db (claim_batch decode_input r uuid token locked (wd_db w)).1 w)
| eval_release w r uuid : evaluator_step w (with_db (release_claimed_batches_for_worker r uuid (wd_db w)).1 w)
| eval_untracked w r uuid tokens : evaluator_step w (with_db (release_untracked_claims r uuid tokens (wd_db w)).1 w)
| eval_reclaim w r : evaluator_step w (with_db (reclaim_abandoned_batches r (wd_db w)).1 w)
| eval_submit w id uuid token encoded ms :
    honest_submission (wd_db w) id encoded ms ->
    evaluator_step w (with_db (submit_batch_results id uuid token encoded ms (wd_db w)).1 w)
| eval_fail w id uuid token error limit :
    evaluator_step w (with_db (fail_batch id uuid token error limit (wd_db w)).1 w)
| eval_nodes w ns cks t :
    evaluator_step w (with_db (mkDB (batches (wd_db w)) (batch_inputs (wd_db w)) (batch_results (wd_db w)) ns cks t) w)
| eval_time w t : wd_clock w <= t -> evaluator_step w (mkWorld (wd_db w) (wd_ids w) t).

(** Replacing one row by another of the same batch. *)
Lemma insert_row_kept d bs' id r r' :
  batches d !! id = Some r -> same_batch_fields r r' -> status r <> Completed -> bs' = <[id := r']> (batches d) ->
  forall id', row_kept d (set_batches bs' d) id'.
Proof.
  intros Hr (? & ? & ? & ?) Hs -> id'. split; [done|]. simpl. rewrite lookup_insert. case_decide as E.
  - subst. rewrite Hr. split_and!; done.
  - by destruct (batches d !! id').
Qed.

Lemma insert_row_evolves c w id r r' :
  world_ok w -> wq_ok (set_batches (<[id := r']> (batches (wd_db w))) (wd_db w)) ->
  batches (wd_db w) !! id = Some r -> same_batch_fields r r' -> status r <> Completed -> status r' <> Completed ->
  evolves c w (with_db (set_batches (<[id := r']> (batches (wd_db w))) (wd_db w)) w).
Proof.
  intros Hok Hwq Hr Hf Hs Hs'.
  assert (forall i, row_kept (wd_db w) (set_batches (<[id := r']> (batches (wd_db w))) (wd_db w)) i) as Hk
    by (by eapply insert_row_kept).
  apply kept_evolves; [done|done|exact Hk|].
  intros i eb cb H. left. eapply no_new_results; [exact Hk| |exact H]. simpl.
  intros j r1 r2 Hr1. rewrite lookup_insert. case_decide; intros Hr2 Hc; simplify_eq; done.
Qed.

Lemma submit_evolves c w id uuid token encoded ms :
  world_ok w -> honest_submission (wd_db w) id encoded ms ->
  evolves c w (with_db (submit_batch_results id uuid token encoded ms (wd_db w)).1 w).
Proof.
  intros Hok Hh. pose proof (submit_ok id uuid token encoded ms (wd_db w) (wk_db _ Hok)) as Hwq.
  destruct (submit_batch_results id uuid token encoded ms (wd_db w)) as [d' res] eqn:E.
  apply submit_cases in E as [[-> _]|(row & vs & acc & Hr & -> & _ & _ & [(_ & _ & ->)|(Hs & Hx & ->)])];
    [by apply evolves_same_db..|]. simpl in *. set (d' := mkDB _ _ _ _ _ _) in *.
  assert (forall i, row_kept (wd_db w) d' i) as Hk.
  { intros i. split; [done|]. simpl. rewrite !lookup_insert. case_decide as E.
    - subst. rewrite Hr. split_and!; [done..|]. intros. congruence.
    - by destruct (batches (wd_db w) !! i). }
  apply kept_evolves; [done|done|exact Hk|]. intros i eb cb H. destruct (decide (i = id)) as [->|Hne].
  - right. rewrite task_rows_lookup in H. simpl in H. rewrite lookup_insert_eq in H. simpl in H.
    unfold view_row in H. unfold d' in H. simpl in H. destruct (of_task run task (complete_row _ row)) eqn:Ht; [|done].
    destruct (decode_input <$> batch_inputs (wd_db w) !! id) as [[eb'|]|] eqn:Hin; [|done..].
    rewrite lookup_insert_eq in H. injection H as -> <-. exact (Hh row eb vs acc Hr Hin Ht eq_refl).
  - left. rewrite !task_rows_lookup in *. simpl in *. rewrite lookup_insert_ne in H by done.
    destruct (batches (wd_db w) !! i); [|done]. simpl in *. unfold view_row in *. simpl in H.
    by rewrite lookup_insert_ne in H.
Qed.

Lemma evaluator_evolves w w' c : world_ok w -> evaluator_step w w' -> evolves c w w'.
Proof.
  intros Hok Hstep. destruct Hstep.
  - pose proof (claim_batch_ok decode_input r uuid token locked (wd_db w) (wk_db _ Hok)) as Hwq. unfold claim_batch in *.
    destruct (existing_claim r uuid token (wd_db w)) as [[? ?]|]; [by apply evolves_same_db|].
    destruct (next_batch r uuid token locked (wd_db w)) as [[id row]|] eqn:E; [|by apply evolves_same_db].
    apply next_batch_some in E as (Hrow & _ & Hs & _). apply (insert_row_evolves _ _ _ row); try done. congruence.
  - apply update_evolves; try done. intros ? r' H. unfold has_status in H. by zbool.
  - apply update_evolves; try done. intros ? r' H. unfold has_status in H. by zbool.
  - apply update_evolves; try done. intros ? r' H. unfold has_status in H. by zbool.
  - by apply submit_evolves.
  - pose proof (fail_ok id uuid token error limit (wd_db w) (wk_db _ Hok)) as Hwq. unfold fail_batch in *.
    destruct (batches (wd_db w) !! id) as [row|] eqn:Hrow; [|by apply evolves_same_db].
    destruct (negb _); [by apply evolves_same_db|]. destruct (status row) eqn:Hs; try by apply evolves_same_db.
    apply (insert_row_evolves _ _ _ row); try done; [congruence|]. simpl. by destruct (_ >=? _).
  - apply kept_evolves; [done| | |].
    + eapply (wq_step_ok encode_input decode_input nr_samples_of); [apply Hok|apply step_env].
    + intros id. split; [done|]. simpl. by destruct (batches (wd_db w) !! id).
    + intros id eb cb H. left. exact H.
  - destruct Hok. split_and!; simpl; [constructor; simpl; try done; lia|lia|]. intros. apply row_evolves_refl.
Qed.

(** C35: the evaluators are the environment the sampler's queue assumes.
    Claiming, releasing, reclaiming, submitting and failing batches keeps
    every batch of the task and every stored result, so the delivery
    guarantee holds over this database. *)
Theorem evaluators_respect_queue w w' c (Hok : world_ok w) (Hstep : evaluator_step w w') : evolves c w w'.
Proof. by apply evaluator_evolves. Qed.
End instance.

(** ** A concrete store

    Batches and results are integers; an honest result is twice the batch. *)

Definition ex_codec (z : Z) : result string Z := Ok z.
Definition ex_honest (eb : Z) (cb : CompletedBatch (ResultRow Z unit)) : Prop := r_values (cb_result cb) = Some (2 * eb).
Lemma ex_codec_ok b bytes : ex_codec b = Ok bytes -> ex_codec bytes = Ok b.
Proof. unfold ex_codec. congruence. Qed.

Definition ex_nodes : gmap string Node := {[ "n1" := mkNode "u1" 100 (Some 1) (Some Evaluator) ]}.
Definition ex_world : World Z Z unit := mkWorld (mkDB ∅ ∅ ∅ ex_nodes ∅ 7) (generator_new 3) 5000000000.
Abbreviation ex_store := (db_store (J:=unit) ex_codec ex_codec (fun _ => 16) 1 2 ex_honest ex_codec_ok).

Lemma ex_world_ok : world_ok ex_codec 1 2 ex_honest ex_world.
Proof.
  constructor; simpl.
  - destruct (empty_db_ok (B:=Z) (V:=Z) (J:=unit)). by constructor.
  - intros id r H. by rewrite lookup_empty in H.
  - intros id eb cb H. rewrite task_rows_lookup in H. simpl in H. by rewrite lookup_empty in H.
  - by vm_compute.
  - done.
Qed.

Lemma evaluators_respect_queue_witness :
  evolves (QV:=db_view ex_codec 1 2 ex_honest) 0 ex_world
    (with_db (claim_batch ex_codec 1 "u1" "t1" ∅ (wd_db ex_world)).1 ex_world).
Proof.
  apply (evaluators_respect_queue ex_codec ex_codec (fun _ => 16) 1 2 ex_honest);
    [exact ex_world_ok|apply eval_claim].
Defined.
