(* ===== verification/QueueDelivery.v ===== *)
(** The delivery theorem of the sampler's queue: the protocol of a runner as a
    step relation, and what every reachable state has delivered. *)
From S2P Require Import Prelude Floats Errors BatchIds WorkQueue Metrics Queue QueueProtocol QueueInstance.

Section delivery.
Context {W Eb R : Type} {QW : QueueWorld W Eb R} {QV : QueueView W Eb R} {LM : Libm}.
Context (run : i32) (task : i64) {QS : QueueStore W Eb R run task}.
Variable nr_samples_of : Eb -> usize.
Notation CB := (CompletedBatch R).
Notation sq := (SamplerQueue W Eb R).
Notation M := (SE (sq * W) StoreError).

(** A runner's queue and the world, with the batches ingested so far, the
    results already marked and those handed out but not marked. *)
Record Session := mkSession {
  ps_queue : sq;
  ps_world : W;
  ps_ingested : list Eb;
  ps_marked : list CB;
  ps_unmarked : list CB
}.

(** Calls that neither take nor hand out batches. *)
Inductive maintenance : forall A, M A -> Prop :=
| m_flush : maintenance unit flush
| m_finish : maintenance unit finish_background_maintenance
| m_cleanup : maintenance (option Z) cleanup_completed_batches
| m_needs_generation counts : maintenance bool (needs_generation counts)
| m_apply_config c : maintenance unit (modify (apply_config c))
| m_observe size ms : maintenance unit (modify (observe_completed_eval_batch size ms))
| m_production_size remaining : maintenance unit (modify (fun q => (production_batch_size remaining q).1))
| m_metrics : maintenance unit (modify (fun q => (take_metrics_snapshot q).1)).

(** Calls that hand out results. *)
Inductive delivering : forall A, M A -> (A -> list CB) -> Prop :=
| d_get : delivering _ get_processed id
| d_ready : delivering _ get_processed_ready id
| d_tick : delivering _ tick qt_completed.

Inductive pstep : Session -> Session -> Prop :=
| step_world q w w' ing D U :
    evolves (cursor q) w w' -> pstep (mkSession q w ing D U) (mkSession q w' ing D U)
| step_run_insert q w i t h' w' ing D U :
    pending_insert_tasks q !! i = Some t -> run_handle (handle t) w = (h', w') ->
    pstep (mkSession q w ing D U)
      (mkSession (set_pending_insert_tasks (<[i := with_handle h' t]> (pending_insert_tasks q)) q) w' ing D U)
| step_run_fetch q w h h' w' ing D U :
    pending_processed_fetch q = Some h -> run_handle h w = (h', w') ->
    pstep (mkSession q w ing D U) (mkSession (set_pending_processed_fetch (Some h') q) w' ing D U)
| step_run_cleanup q w h h' w' ing D U :
    pending_completed_cleanup q = Some h -> run_handle h w = (h', w') ->
    pstep (mkSession q w ing D U) (mkSession (set_pending_completed_cleanup (Some h') q) w' ing D U)
| step_ingest q w q' w' r bs fb ing D U :
    ingest nr_samples_of bs fb (q, w) = ((q', w'), r) ->
    pstep (mkSession q w ing D U) (mkSession q' w' (ing ++ bs) D U)
| step_deliver A (m : M A) f q w q' w' r ing D :
    delivering A m f -> m (q, w) = ((q', w'), r) ->
    pstep (mkSession q w ing D []) (mkSession q' w' ing D (match r with Ok a => f a | Err _ => [] end))
| step_mark q w q' w' r ing D U :
    mark_processed U (q, w) = ((q', w'), r) ->
    pstep (mkSession q w ing D U) (mkSession q' w' ing (D ++ U) [])
| step_maintain A (m : M A) q w q' w' r ing D U :
    maintenance A m -> m (q, w) = ((q', w'), r) ->
    pstep (mkSession q w ing D U) (mkSession q' w' ing D U).

(** Steps that stay within the identifier range. *)
Definition session_step (s s' : Session) : Prop := pstep s s' /\ v_in_range (ps_world s').

(** A queue that resumes at a cursor over the rows [P] stored after it. *)
Definition resumes (P : list (Z * Eb)) (c : Z) (w : W) : Prop :=
  v_valid w /\ c <= v_issued w /\ StronglySorted Z.lt (map fst P) /\
  Forall (fun p => c < p.1 <= v_issued w /\ is_Some (v_rows w !! p.1)) P /\
  (forall id eb o, v_rows w !! id = Some (eb, o) -> c < id -> (id, eb) ∈ P).

Definition session_new (now : Z) config checkpoint (P : list (Z * Eb)) (w : W) : Session :=
  mkSession (queue_new now run task config checkpoint) w (map snd P) [] [].

(** *** The invariant of a session *)

Definition delivered_ok (s : Session) : Prop :=
  (exists done rest, ps_ingested s = done ++ rest /\ Forall2 v_evaluates done (ps_marked s ++ ps_unmarked s)) /\
  StronglySorted Z.lt (map cb_batch_id (ps_marked s ++ ps_unmarked s)).

Definition session_ok (s : Session) : Prop :=
  delivered_ok s /\
  (bad (ps_queue s, ps_world s) \/
   tame_queue run task (ps_queue s) /\
   I run task (ps_ingested s) (ps_marked s) (ps_unmarked s) (ps_queue s, ps_world s)).

Lemma I_delivered q w ing D U : I run task ing D U (q, w) -> delivered_ok (mkSession q w ing D U).
Proof.
  intros (P & own & []). simpl in *. rewrite app_assoc in vw_delivers.
  apply delivers_app_l in vw_delivers as (P1 & P2 & -> & H). split; simpl.
  - exists (map snd P1), (map snd P2 ++ map fst (pending_insert q)). rewrite <- vw_ing, map_app, app_assoc. split; [done|].
    clear -H. induction H as [|p cb ? ? [_ ?] _ IH]; by constructor.
  - rewrite map_app in vw_sorted. apply StronglySorted_app_1_l in vw_sorted. by rewrite <- (row_result_ids _ _ H).
Qed.

Lemma session_new_ok now config checkpoint P w :
  resumes P (default 0 (last_completed_batch_id checkpoint)) w ->
  session_ok (session_new now config checkpoint P w).
Proof.
  intros (Hv & Hc & Hs & Hf & Hrows).
  assert (I run task (map snd P) [] [] (queue_new now run task config checkpoint, w)) as HI.
  { exists P, (fun id => id). rewrite Forall_forall in Hf. constructor; simpl; try done.
    - apply app_nil_r.
    - apply Forall_forall. intros p Hp. by destruct (Hf p Hp) as [[? ?] ?].
    - intros p Hp. left. right. by destruct (Hf p Hp).
    - constructor.
    - by exists [], P.
    - by left.
    - apply Forall_forall. intros p Hp. by destruct (Hf p Hp) as [[? ?] ?]. }
  split; [by apply I_delivered|]. right. split; [|exact HI]. by constructor; simpl.
Qed.

(** *** A poisoned queue stays poisoned *)

Definition stays {A} (m : M A) : Prop := forall s, bad s -> bad (m s).1.

Lemma stays_bind {A B} (m : M A) (k : A -> M B) : stays m -> (forall a, stays (k a)) -> stays (se_bind m k).
Proof. intros Hm Hk s Hs. unfold se_bind. specialize (Hm s Hs). destruct (m s) as [s1 [a|e]]; [by apply Hk|done]. Qed.
Lemma stays_ret {A} (a : A) : stays (se_ret a).
Proof. by intros s ?. Qed.
Lemma stays_fail {A} e : stays (se_fail e : M A).
Proof. by intros s ?. Qed.
Lemma stays_gets {A} (f : sq -> A) : stays (gets f).
Proof. by intros s ?. Qed.
Lemma stays_now : stays now_ms.
Proof. by intros s ?. Qed.
Lemma stays_modify (f : sq -> sq) : (forall q, insert_error (f q) = insert_error q) -> stays (modify f).
Proof. intros Hf s Hs. unfold bad in *. simpl. by rewrite Hf. Qed.
Lemma stays_world {A} (f : W -> W * A) : stays (world f).
Proof. intros s Hs. unfold world. by destruct (f s.2). Qed.
Lemma stays_world_try {A} (f : W -> W * result StoreError A) : stays (world_try f).
Proof. intros s Hs. unfold world_try. by destruct (f s.2). Qed.

Create HintDb stays.
#[local] Hint Resolve stays_ret stays_fail stays_gets stays_now stays_world stays_world_try : stays.
#[local] Hint Extern 2 (stays (modify _)) => (apply stays_modify; intros; reflexivity) : stays.
Ltac stays :=
  repeat first [ apply stays_bind; [|intros ?]
               | progress eauto with stays
               | match goal with |- context [match ?x with _ => _ end] => destruct x end ].

Lemma bad_drain (q : sq) w : bad (q, w) -> exists e, drain_finished_insert (q, w) = ((q, w), Err e).
Proof.
  unfold bad, drain_finished_insert, se_bind, gets, se_get. simpl.
  destruct (insert_error q) as [e|]; [|done]. intros _. by exists e.
Qed.

Lemma bad_delivers A (m : M A) f q w : delivering A m f -> bad (q, w) -> exists e, m (q, w) = ((q, w), Err e).
Proof.
  intros Hm Hb. destruct (bad_drain q w Hb) as [e He].
  destruct Hm; exists e; unfold tick, get_processed, get_processed_ready, se_bind in *; by rewrite He.
Qed.

Lemma pump_error fuel q w : insert_error (pump fuel q w).1 = insert_error q.
Proof.
  revert q w. induction fuel as [|fuel IH]; intros q w; simpl; [done|]. destruct (pump_wanted q); [|done].
  unfold pump_once. destruct (w_next_batch_ids _ w). by rewrite IH.
Qed.

Lemma bad_flush q w : bad (q, w) -> bad (flush (q, w)).1.
Proof.
  intros Hb. destruct (bad_drain q w Hb) as [e He]. unfold flush, se_bind, gets, se_get. simpl.
  unfold se_bind. by rewrite He.
Qed.

Lemma stays_consume_cleanup h : stays (consume_completed_cleanup_task h).
Proof. unfold consume_completed_cleanup_task. stays. Qed.
#[local] Hint Resolve stays_consume_cleanup : stays.

Lemma stays_maintenance A (m : M A) : maintenance A m -> stays m.
Proof.
  intros Hm. destruct Hm.
  - intros [q w]. apply bad_flush.
  - unfold finish_background_maintenance. stays.
  - unfold cleanup_completed_batches, cleanup_consumed. stays.
  - unfold needs_generation. stays.
  - stays.
  - apply stays_modify. intros q. unfold observe_completed_eval_batch, tune_batch_size. cbn zeta. by break.
  - apply stays_modify. intros q. unfold production_batch_size. by destruct (training_batch_size _ _ _ _).
  - stays.
Qed.

Lemma untouched_observe size ms : untouched (W:=W) (Eb:=Eb) (R:=R) (observe_completed_eval_batch size ms).
Proof. intros q. unfold observe_completed_eval_batch, tune_batch_size. cbn zeta. by break. Qed.
Lemma untouched_production remaining : untouched (W:=W) (Eb:=Eb) (R:=R) (fun q => (production_batch_size remaining q).1).
Proof. intros q. unfold production_batch_size. by destruct (training_batch_size _ _ _ _). Qed.

Lemma keeps_maintenance A (m : M A) ing D U : maintenance A m -> keeps run task ing D U m.
Proof.
  intros Hm. destruct Hm.
  - apply (keeps_flush run task).
  - apply (keeps_finish_maintenance run task).
  - apply (keeps_cleanup_completed run task).
  - apply (keeps_needs_generation run task).
  - by apply keeps_modify.
  - apply keeps_modify, untouched_observe.
  - apply keeps_modify, untouched_production.
  - by apply keeps_modify.
Qed.

Lemma deliver_triple A (m : M A) f ing D : delivering A m f -> triple run task (I run task ing D []) m (got run task f ing D).
Proof. intros []; [apply (get_processed_ok run task)|apply (get_processed_ready_ok run task)|apply (tick_ok run task)]. Qed.

(** The stays lemmas of the remaining calls. *)
Lemma stays_pump : stays ensure_insert_pump.
Proof.
  intros s Hs. unfold ensure_insert_pump, bad. simpl. pose proof (pump_error (length (pending_insert s.1)) s.1 s.2) as E.
  destruct (pump _ _ _). simpl in *. by rewrite E.
Qed.
Lemma stays_ingest bs fb : stays (ingest nr_samples_of bs fb).
Proof. unfold ingest. do 2 (apply stays_bind; [by apply stays_modify|intros ?]). apply stays_pump. Qed.
Lemma stays_mark (U : list CB) : stays (mark_processed U).
Proof. unfold mark_processed, ensure_completed_cleanup_if_due. stays. Qed.

(** Dropping results handed out, or ingesting more, keeps the deliveries. *)
Lemma delivered_change q w q' w' ing bs D U :
  delivered_ok (mkSession q w ing D U) -> delivered_ok (mkSession q' w' (ing ++ bs) D U).
Proof.
  intros [(done & rest & E & H) Hs]. split; [|done]. exists done, (rest ++ bs). simpl in *. by rewrite E, app_assoc.
Qed.
(** One call: the triple carries the invariant, a poisoned queue stays so. *)
Lemma session_call {A} (m : M A) q w q' w' r ing D U ing' D' U' :
  triple run task (I run task ing D U) m (fun _ s => I run task ing' D' U' s \/ bad s) -> stays m ->
  m (q, w) = ((q', w'), r) -> v_in_range w' -> session_ok (mkSession q w ing D U) ->
  delivered_ok (mkSession q' w' ing' D' U') ->
  session_ok (mkSession q' w' ing' D' U').
Proof.
  intros Hm Hst E Hr [_ [Hbad|[Ht HI]]] Hd; (split; [done|]); simpl in *.
  - left. specialize (Hst _ Hbad). by rewrite E in Hst.
  - destruct (Hm (q, w) Ht) as [Ht' H]. rewrite E in Ht', H. simpl in *. destruct (H Hr) as [_ H'].
    destruct (H' HI); [by right|by left].
Qed.

Lemma tame_set_task q i t h' : tame_queue run task q -> pending_insert_tasks q !! i = Some t -> tame h' ->
  tame_queue run task (set_pending_insert_tasks (<[i := with_handle h' t]> (pending_insert_tasks q)) q).
Proof. intros [] Hi Hh. constructor; simpl; try done. by apply Forall_insert. Qed.

Lemma insert_perm {A} i (l : list A) x y :
  l !! i = Some x -> exists k, l ≡ₚ x :: k /\ <[i := y]> l ≡ₚ y :: k.
Proof.
  intros Hi. exists (take i l ++ drop (S i) l). split.
  - rewrite <- (take_drop_middle l i x Hi) at 1. symmetry. apply Permutation_middle.
  - rewrite insert_take_drop by (by eapply lookup_lt_Some). symmetry. apply Permutation_middle.
Qed.

(** The scheduler's and the world's steps keep the invariant of a healthy
    queue. *)
Lemma session_quiet q w q' w' ing D U :
  insert_error q' = insert_error q ->
  (tame_queue run task q -> I run task ing D U (q, w) -> tame_queue run task q' /\ I run task ing D U (q', w')) ->
  session_ok (mkSession q w ing D U) -> session_ok (mkSession q' w' ing D U).
Proof.
  intros He HI [Hd [Hbad|[Ht H]]]; (split; [exact Hd|]); simpl in *.
  - left. unfold bad in *. simpl in *. by rewrite He.
  - right. auto.
Qed.

Lemma session_step_ok s s' : session_ok s -> session_step s s' -> session_ok s'.
Proof.
  intros Hok [Hstep Hr]. destruct Hstep as [q w w' ing D U Hev|q w i t h' w' ing D U Hi Hrun|q w h h' w' ing D U Hh Hrun
    |q w h h' w' ing D U Hh Hrun|q w q' w' r bs fb ing D U E|A m f q w q' w' r ing D Hm E|q w q' w' r ing D U E|A m q w q' w' r ing D U Hm E]; simpl in Hr.
  - apply (session_quiet q w); [done| |done]. intros Ht (P & own & H). split; [done|]. exists P, own. by eapply view_evolves.
  - apply (session_quiet q w); [done| |done]. intros Ht (P & own & H). simpl in *. split.
    + apply tame_set_task; [done|done|]. destruct Ht as [_ Hf _ _]. rewrite Forall_forall in Hf.
      specialize (Hf t (list_elem_of_lookup_2 _ _ _ Hi)). apply (tame_run _ w) in Hf. by rewrite Hrun in Hf.
    + destruct (insert_perm _ _ _ (with_handle h' t) Hi) as (k & Hk & Hk'). exists P, own. simpl.
      apply view_set_tasks. eapply view_perm; [symmetry; exact Hk'|]. eapply (view_run_insert run task); [|exact Hrun].
      by eapply view_perm.
  - apply (session_quiet q w); [done| |done]. intros [] (P & own & H). simpl in *. split.
    + constructor; simpl; try done. intros ? [= <-]. specialize (tame_fetch h Hh). apply (tame_run _ w) in tame_fetch. by rewrite Hrun in tame_fetch.
    + exists P, own. by eapply (view_run_fetch run task).
  - apply (session_quiet q w); [done| |done]. intros [] (P & own & H). simpl in *. split.
    + constructor; simpl; try done. intros ? [= <-]. specialize (tame_cleanup h Hh). apply (tame_run _ w) in tame_cleanup. by rewrite Hrun in tame_cleanup.
    + exists P, own. by eapply (view_run_cleanup run task).
  - eapply session_call; [|apply stays_ingest|exact E|done|exact Hok|eapply delivered_change, Hok].
    eapply triple_conseq; [apply (keeps_ingest run task)|done|]. intros [?|?] s0; [by left|done].
  - destruct Hok as [Hd [Hbad|[Ht HI]]].
    + destruct (bad_delivers A m f q w Hm Hbad) as [e He]. rewrite E in He. simplify_eq. split; [exact Hd|by left].
    + destruct (deliver_triple A m f ing D Hm (q, w) Ht) as [Ht' H]. rewrite E in Ht', H. simpl in *.
      destruct (H Hr) as [_ H']. specialize (H' HI). destruct r as [a|e]; simpl in H'.
      * split; [by apply I_delivered|]. by right.
      * split; [exact Hd|]. destruct H' as [?|?]; [by right|by left].
  - assert (delivered_ok (mkSession q' w' ing (D ++ U) [])) as Hd.
    { destruct Hok as [[Hd Hs] _]. unfold delivered_ok. simpl in *. by rewrite app_nil_r. }
    eapply session_call; [|apply stays_mark|exact E|done|exact Hok|exact Hd].
    eapply triple_conseq; [apply (mark_processed_ok run task)|done|]. intros [?|?] s0; [by left|done].
  - eapply session_call; [|by eapply stays_maintenance|exact E|done|exact Hok|apply Hok].
    eapply triple_conseq; [by apply keeps_maintenance|done|]. intros [?|?] s0; [by left|done].
Qed.

Lemma session_valid s : session_ok s -> insert_error (ps_queue s) = None -> v_valid (ps_world s).
Proof. intros [_ [Hb|[_ (P & own & H)]]] He; [done|]. apply H. Qed.

(** The result of a call, as the next state. *)
Definition after_call {A} (m : M A) (ing : list Eb) (D U : list CB) (s : Session) : Session :=
  let r := m (ps_queue s, ps_world s) in mkSession r.1.1 r.1.2 ing D U.

Definition do_ingest (bs : list Eb) (fb : bool) (s : Session) : Session :=
  after_call (ingest nr_samples_of bs fb) (ps_ingested s ++ bs) (ps_marked s) (ps_unmarked s) s.
Definition do_get (s : Session) : Session :=
  after_call get_processed (ps_ingested s) (ps_marked s)
    (match (get_processed (ps_queue s, ps_world s)).2 with Ok l => l | Err _ => [] end) s.
Definition do_mark (s : Session) : Session :=
  after_call (mark_processed (ps_unmarked s)) (ps_ingested s) (ps_marked s ++ ps_unmarked s) [] s.
(** The scheduler runs the first insert, or the fetch. *)
Definition do_run_insert (s : Session) : Session :=
  match pending_insert_tasks (ps_queue s) with
  | t :: _ =>
      let r := run_handle (handle t) (ps_world s) in
      mkSession (set_pending_insert_tasks (<[0%nat := with_handle r.1 t]> (pending_insert_tasks (ps_queue s))) (ps_queue s))
        r.2 (ps_ingested s) (ps_marked s) (ps_unmarked s)
  | [] => s
  end.
Definition do_run_fetch (s : Session) : Session :=
  match pending_processed_fetch (ps_queue s) with
  | Some h =>
      let r := run_handle h (ps_world s) in
      mkSession (set_pending_processed_fetch (Some r.1) (ps_queue s)) r.2 (ps_ingested s) (ps_marked s) (ps_unmarked s)
  | None => s
  end.
Definition do_world (f : W -> W) (s : Session) : Session :=
  mkSession (ps_queue s) (f (ps_world s)) (ps_ingested s) (ps_marked s) (ps_unmarked s).

Lemma do_ingest_step bs fb s : pstep s (do_ingest bs fb s).
Proof.
  destruct s as [q w ing D U]. unfold do_ingest, after_call. cbn [ps_queue ps_world ps_ingested ps_marked ps_unmarked].
  destruct (ingest nr_samples_of bs fb (q, w)) as [[q' w'] r] eqn:E. exact (step_ingest q w q' w' r bs fb ing D U E).
Qed.
Lemma do_get_step s : ps_unmarked s = [] -> pstep s (do_get s).
Proof.
  destruct s as [q w ing D U]. unfold do_get, after_call. cbn [ps_queue ps_world ps_ingested ps_marked ps_unmarked].
  intros ->. destruct (get_processed (q, w)) as [[q' w'] r] eqn:E. exact (step_deliver _ _ id q w q' w' r ing D d_get E).
Qed.
Lemma do_mark_step s : pstep s (do_mark s).
Proof.
  destruct s as [q w ing D U]. unfold do_mark, after_call. cbn [ps_queue ps_world ps_ingested ps_marked ps_unmarked].
  destruct (mark_processed U (q, w)) as [[q' w'] r] eqn:E. exact (step_mark q w q' w' r ing D U E).
Qed.
Lemma do_run_insert_step s : pending_insert_tasks (ps_queue s) <> [] -> pstep s (do_run_insert s).
Proof.
  destruct s as [q w ing D U]. unfold do_run_insert. cbn [ps_queue ps_world ps_ingested ps_marked ps_unmarked].
  destruct (pending_insert_tasks q) as [|t l] eqn:E; [done|]. intros _. rewrite <- E.
  apply step_run_insert; [by rewrite E|apply surjective_pairing].
Qed.
Lemma do_run_fetch_step s : pending_processed_fetch (ps_queue s) <> None -> pstep s (do_run_fetch s).
Proof.
  destruct s as [q w ing D U]. unfold do_run_fetch. cbn [ps_queue ps_world ps_ingested ps_marked ps_unmarked].
  destruct (pending_processed_fetch q) as [h|] eqn:E; [|done]. intros _.
  eapply step_run_fetch; [exact E|apply surjective_pairing].
Qed.
Lemma do_world_step f s : evolves (cursor (ps_queue s)) (ps_world s) (f (ps_world s)) -> pstep s (do_world f s).
Proof. destruct s. apply step_world. Qed.

(** C1: ordered exactly-once delivery. However the evaluators, the background
    inserts, fetches and cleanups and the runner's calls interleave, inserts
    and fetches failing included, the results handed out so far are the
    evaluations of the first batches of the task, in the order they were
    ingested, none skipped and none repeated. *)
Theorem queue_delivers_in_order now config checkpoint P w s
    (Hresume : resumes P (default 0 (last_completed_batch_id checkpoint)) w)
    (Hsteps : steps session_step (session_new now config checkpoint P w) s) :
  (exists evaluated rest, ps_ingested s = evaluated ++ rest /\
     Forall2 v_evaluates evaluated (ps_marked s ++ ps_unmarked s)) /\
  StronglySorted Z.lt (map cb_batch_id (ps_marked s ++ ps_unmarked s)).
Proof.
  enough (session_ok s) as [Hd _] by exact Hd.
  eapply steps_invariant; [exact session_step_ok|by apply session_new_ok|done].
Qed.
End delivery.

(** ** A session over the concrete store *)

#[local] Instance ex_libm : Libm := {| hypot a _ := a; powf a _ := a; powi a _ := a |}.

Notation ex_session := (@Session (World Z Z unit) Z (ResultRow Z unit)).
Definition ex_config : SamplerQueueConfig := mkQueueConfig 100%float 64 1024 None 4 8 2 16 3.
#[local] Instance ex_qw : QueueWorld (World Z Z unit) Z (ResultRow Z unit) := db_world ex_codec (fun _ => 16).
#[local] Instance ex_qv : QueueView (World Z Z unit) Z (ResultRow Z unit) := db_view ex_codec 1 2 ex_honest.
#[local] Instance ex_qs : QueueStore (World Z Z unit) Z (ResultRow Z unit) 1 2 :=
  db_store ex_codec ex_codec (fun _ => 16) 1 2 ex_honest ex_codec_ok.

Definition ex_s0 : ex_session := session_new 1 2 5000000000 ex_config (mkQueueCheckpoint None None 16) [] ex_world.
Definition ex_s1 : ex_session := do_ingest (fun _ => 16) [50; 60] false ex_s0.
Definition ex_s2 : ex_session := do_run_insert ex_s1.
Definition ex_s3 : ex_session := do_get ex_s2.
Definition ex_claim (w : World Z Z unit) : World Z Z unit :=
  with_db (claim_batch ex_codec 1 "u1" "t1" ∅ (wd_db w)).1 w.
Definition ex_id : Z := 20971520192.
Definition ex_submit (w : World Z Z unit) : World Z Z unit :=
  with_db (submit_batch_results ex_id "u1" "t1" (Ok (Some 100, tt)) 1%float (wd_db w)).1 w.
Definition ex_s4 : ex_session := do_world ex_claim ex_s3.
Definition ex_s5 : ex_session := do_world ex_submit ex_s4.
Definition ex_s6 : ex_session := do_run_fetch ex_s5.
Definition ex_s7 : ex_session := do_get ex_s6.
Definition ex_s8 : ex_session := do_mark ex_s7.

Abbreviation ex_step := (session_step (QW:=ex_qw) (QV:=ex_qv) (fun _ => 16)).

Lemma ex_resumes : resumes (QV:=ex_qv) [] 0 ex_world.
Proof.
  split_and!; [exact ex_world_ok|by vm_compute|constructor|constructor|].
  intros id eb o H. exfalso. unfold v_rows, ex_qv, db_view in H. rewrite task_rows_lookup in H.
  simpl in H. by rewrite lookup_empty in H.
Qed.

Lemma ex_steps_3 : steps ex_step ex_s0 ex_s3.
Proof.
  eapply steps_step; [eapply steps_step; [eapply steps_step; [apply steps_refl|]|]|].
  - split; [exact (do_ingest_step (fun _ => 16) [50; 60] false ex_s0)|by vm_compute].
  - split; [apply (do_run_insert_step (fun _ => 16) ex_s1); by vm_compute|by vm_compute].
  - split; [apply (do_get_step (fun _ => 16) ex_s2); by vm_compute|by vm_compute].
Qed.

Lemma ex_valid s : steps ex_step ex_s0 s -> insert_error (ps_queue s) = None -> v_valid (ps_world s).
Proof.
  intros Hs He. apply (session_valid 1 2); [|done].
  assert (session_ok 1 2 ex_s0) as H0 by exact (session_new_ok 1 2 _ _ (mkQueueCheckpoint None None 16) _ _ ex_resumes).
  eapply steps_invariant; [intros x y; apply (session_step_ok 1 2)|exact H0|exact Hs].
Qed.

Lemma ex_steps_5 : steps ex_step ex_s0 ex_s5.
Proof.
  assert (steps ex_step ex_s0 ex_s4) as H4.
  { eapply steps_step; [exact ex_steps_3|]. split; [|by vm_compute]. apply do_world_step.
    apply (evaluator_evolves ex_codec ex_codec (fun _ => 16) 1 2 ex_honest).
    - apply (ex_valid ex_s3); [exact ex_steps_3|by vm_compute].
    - apply eval_claim. }
  eapply steps_step; [exact H4|]. split; [|by vm_compute]. apply do_world_step.
  apply (evaluator_evolves ex_codec ex_codec (fun _ => 16) 1 2 ex_honest).
  - apply (ex_valid ex_s4); [exact H4|by vm_compute].
  - apply eval_submit. intros r eb values accumulator _ Hin _ E. injection E as <- <-.
    assert (batch_inputs (wd_db (ps_world ex_s4)) !! ex_id = Some 50) as Hb by (by vm_compute).
    rewrite Hb in Hin. injection Hin as <-. reflexivity.
Qed.

Lemma ex_steps : steps ex_step ex_s0 ex_s8.
Proof.
  assert (pending_processed_fetch (ps_queue ex_s5) <> None) as H5.
  { intros E. assert (match pending_processed_fetch (ps_queue ex_s5) with Some _ => true | None => false end = true) as Hb
      by (by vm_compute). rewrite E in Hb. done. }
  assert (ps_unmarked ex_s6 = []) as H6 by (by vm_compute).
  apply (steps_step _ _ ex_s7); [apply (steps_step _ _ ex_s6); [apply (steps_step _ _ ex_s5); [exact ex_steps_5|]|]|].
  - split; [unfold ex_s6; apply do_run_fetch_step; exact H5|by vm_compute].
  - split; [unfold ex_s7; apply do_get_step; exact H6|by vm_compute].
  - split; [unfold ex_s8; apply do_mark_step|by vm_compute].
Qed.

Example ex_delivered : map (fun cb => (cb_batch_id cb, r_values (cb_result cb))) (ps_marked ex_s8) = [(ex_id, Some 100)].
Proof. by vm_compute. Qed.

Lemma queue_delivers_in_order_witness :
  (exists evaluated rest, ps_ingested ex_s8 = evaluated ++ rest /\
     Forall2 ex_honest evaluated (ps_marked ex_s8 ++ ps_unmarked ex_s8)) /\
  StronglySorted Z.lt (map cb_batch_id (ps_marked ex_s8 ++ ps_unmarked ex_s8)).
Proof.
  exact (queue_delivers_in_order 1 2 (fun _ => 16) 5000000000 ex_config (mkQueueCheckpoint None None 16) [] ex_world ex_s8
           ex_resumes ex_steps).
Defined.
