(* ===== verification/Json.v ===== *)
(** JSON and TOML values as the source uses them, the conversions between them of
    src/runners/hyperparameter_tuning.rs, and the combination of histograms of
    src/services/results.rs.

    Objects are maps in key order (serde_json without [preserve_order]); so are
    tables, whose equality in the toml crate does not see the order. An integer
    number is in the range of [i64] or [u64], a float number is finite. *)
From S2P Require Import Prelude Floats Errors.

(** ** Values *)

Inductive Json :=
| JNull
| JBool (b : bool)
| JInt (z : Z)
| JFloat (x : f64)
| JString (s : string)
| JArray (l : list Json)
| JObject (m : list (string * Json)).

Inductive Toml :=
| TString (s : string)
| TInt (z : i64)
| TFlt (x : f64)
| TBool (b : bool)
| TDatetime (s : string)
| TArray (l : list Toml)
| TTable (m : list (string * Toml)).

(** [BTreeMap::insert] *)
Fixpoint obj_insert {A} (k : string) (v : A) (m : list (string * A)) : list (string * A) :=
  match m with
  | [] => [(k, v)]
  | (k', v') :: rest =>
      match String.compare k k' with
      | Lt => (k, v) :: m
      | Eq => (k, v) :: rest
      | Gt => (k', v') :: obj_insert k v rest
      end
  end.
Definition obj_get {A} (k : string) (m : list (string * A)) : option A := snd <$> find (fun p => String.eqb k p.1) m.
Definition obj_of {A} (l : list (string * A)) : list (string * A) := foldl (fun m p => obj_insert p.1 p.2 m) [] l.
Definition obj_remove {A} (k : string) (m : list (string * A)) : list (string * A) := filter (fun p => p.1 <> k) m.

(** *** Accessors of [serde_json::Value] *)

Definition as_object (j : Json) : option (list (string * Json)) := match j with JObject m => Some m | _ => None end.
Definition as_array (j : Json) : option (list Json) := match j with JArray l => Some l | _ => None end.
Definition as_f64 (j : Json) : option f64 := match j with JInt z => Some (f64_of_Z z) | JFloat x => Some x | _ => None end.
Definition as_i64 (j : Json) : option i64 := match j with JInt z => if z <=? i64_max then Some z else None | _ => None end.
Definition jget (k : string) (j : Json) : option Json := m ← as_object j; obj_get k m.
Definition or_null (o : option Json) : Json := default JNull o.

Fixpoint json_eqb (a b : Json) : bool :=
  match a, b with
  | JNull, JNull => true
  | JBool x, JBool y => eqb x y
  | JInt x, JInt y => x =? y
  | JFloat x, JFloat y => PrimFloat.eqb x y
  | JString x, JString y => String.eqb x y
  | JArray l, JArray k =>
      (fix go (l k : list Json) : bool :=
         match l, k with
         | [], [] => true
         | x :: l, y :: k => json_eqb x y && go l k
         | _, _ => false
         end) l k
  | JObject m, JObject n =>
      (fix go (m n : list (string * Json)) : bool :=
         match m, n with
         | [], [] => true
         | (p, x) :: m, (q, y) :: n => String.eqb p q && json_eqb x y && go m n
         | _, _ => false
         end) m n
  | _, _ => false
  end.

(** ** Tuning parameters *)

(** serde's view of a TOML value: a float that is not finite is [null], a datetime
    is an object with one private key. *)
Fixpoint toml_to_json (t : Toml) : Json :=
  match t with
  | TString s => JString s
  | TInt z => JInt z
  | TFlt x => if PrimFloat.is_finite x then JFloat x else JNull
  | TBool b => JBool b
  | TDatetime s => JObject [("$__toml_private_datetime"%string, JString s)]
  | TArray l => JArray (map toml_to_json l)
  | TTable m => JObject (map (fun p => (p.1, toml_to_json p.2)) m)
  end.

Fixpoint json_to_toml (j : Json) : result StoreError Toml :=
  match j with
  | JNull => Err (Internal "cannot convert null tuning parameter to TOML")
  | JBool b => Ok (TBool b)
  | JInt z => if z <=? i64_max then Ok (TInt z) else Ok (TFlt (f64_of_Z z))
  | JFloat x => Ok (TFlt x)
  | JString s => Ok (TString s)
  | JArray l =>
      let? l := (fix go (l : list Json) : result StoreError (list Toml) :=
                   match l with
                   | [] => Ok []
                   | x :: l => let? t := json_to_toml x in let? ts := go l in Ok (t :: ts)
                   end) l in
      Ok (TArray l)
  | JObject m =>
      let? m := (fix go (m : list (string * Json)) : result StoreError (list (string * Toml)) :=
                   match m with
                   | [] => Ok []
                   | (k, x) :: m => let? t := json_to_toml x in let? ts := go m in Ok ((k, t) :: ts)
                   end) m in
      Ok (TTable m)
  end.

(** [BTreeMap<String, toml::Value>] *)
Definition parameters_to_json (parameters : list (string * Toml)) : Json :=
  JObject (map (fun p => (p.1, toml_to_json p.2)) parameters).
Definition parameters_from_json (j : Json) : result StoreError (list (string * Toml)) :=
  let? m := ok_or (Internal "tuning trial parameters must be an object") (as_object j) in
  try_map (fun p => let? t := json_to_toml p.2 in Ok (p.1, t)) m.

(** What survives: no datetime, no float that is not finite. *)
Fixpoint plain (t : Toml) : bool :=
  match t with
  | TInt z => z <=? i64_max
  | TFlt x => PrimFloat.is_finite x
  | TDatetime _ => false
  | TArray l => forallb plain l
  | TTable m => forallb (fun p => plain p.2) m
  | _ => true
  end.

(** ** Histograms (src/services/results.rs) *)

Section histograms.
Context {LM : Libm}.

Fixpoint combine_bin (inputs : list (option (f64 * Json * Json))) (value variance : f64) : option (f64 * f64) :=
  match inputs with
  | [] => Some (value, PrimFloat.sqrt variance)
  | input :: inputs =>
      input ← input;
      let '(coefficient, sample_count, bin) := input in
      n ← as_f64 sample_count;
      sum ← jget "sum_weights" bin ≫= as_f64;
      sum_sq ← jget "sum_weights_squared" bin ≫= as_f64;
      if PrimFloat.leb n 0 then None
      else
        let mean := PrimFloat.div sum n in
        let error_sq :=
          if PrimFloat.ltb 1 n then
            f64_max (PrimFloat.div (PrimFloat.sub sum_sq (PrimFloat.div (PrimFloat.mul sum sum) n))
                       (PrimFloat.mul n (PrimFloat.sub n 1))) 0
          else 0%float in
        combine_bin inputs (PrimFloat.add value (PrimFloat.mul coefficient mean))
          (PrimFloat.add variance (PrimFloat.mul (powi coefficient 2) error_sq))
  end.

Definition bin_layout (bin : Json) : Json :=
  JObject (obj_of (map (fun key => (key, or_null (jget key bin))) ["x_min"; "x_max"; "bin_id"; "label"]%string)).

Definition histogram_layout (histogram : Json) : option Json :=
  object ← as_object histogram;
  let kept := omap (fun key => v ← obj_get key object; Some (key, v))
    ["kind"; "phase"; "value_transform"; "x_min"; "x_max"; "discrete_min_bin_id"; "discrete_ordering"]%string in
  bins ← obj_get "bins" object ≫= as_array;
  Some (JObject (obj_insert "bins" (JArray (map bin_layout bins)) (obj_of kept))).

Definition histogram_bin_range (histogram bin : Json) (index : usize) : f64 * f64 :=
  match jget "x_min" bin ≫= as_f64, jget "x_max" bin ≫= as_f64 with
  | Some start, Some stop => (start, stop)
  | _, _ =>
      let id :=
        match jget "bin_id" bin ≫= as_f64 with
        | Some id => id
        | None =>
            match jget "discrete_min_bin_id" histogram ≫= as_f64 with
            | Some minimum => PrimFloat.add minimum (f64_of_Z index)
            | None => f64_of_Z index
            end
        end in
      (id, PrimFloat.add id 1)
  end.

(** [json!] of a float *)
Definition jfloat (x : f64) : Json := if PrimFloat.is_finite x then JFloat x else JNull.

Definition combine_bins (inputs : list (f64 * Json)) (pick : Json -> option Json) : option (f64 * f64) :=
  combine_bin (map (fun p => n ← jget "sample_count" p.2; bin ← pick p.2; Some (p.1, n, bin)) inputs) 0%float 0%float.

Definition combined_bin (inputs : list (f64 * Json)) (template : Json) (index : usize) (template_bin : Json) : option Json :=
  combined ← combine_bins inputs (fun histogram => bins ← jget "bins" histogram ≫= as_array; zget bins index);
  let '(value, error) := combined in
  let '(start, stop) := histogram_bin_range template template_bin index in
  let bin := obj_of [("start", jfloat start); ("stop", jfloat stop); ("value", jfloat value); ("error", jfloat error)]%string in
  Some (JObject (foldl (fun bin key => match jget key template_bin with Some v => obj_insert key v bin | None => bin end) bin
                   ["label"; "bin_id"]%string)).

Definition combine_edge (inputs : list (f64 * Json)) (template : Json) (combined : option (list (string * Json))) (key : string)
    : option (list (string * Json)) :=
  combined ← combined;
  match jget key template with
  | None => Some (obj_remove key combined)
  | Some _ =>
      edge ← combine_bins inputs (jget key);
      Some (obj_insert key (JObject (obj_of [("value", jfloat edge.1); ("error", jfloat edge.2)]%string)) combined)
  end.

Definition combine_histogram (inputs : list (f64 * Json)) : option Json :=
  template ← snd <$> head inputs;
  template_bins ← jget "bins" template ≫= as_array;
  layout ← histogram_layout template;
  if existsb (fun p => match histogram_layout p.2 with Some l => negb (json_eqb l layout) | None => true end) inputs then None
  else
    bins ← mapM (fun p => combined_bin inputs template p.1 p.2) (zip (seqZ 0 (zlen template_bins)) template_bins);
    object ← as_object template;
    combined ← foldl (combine_edge inputs template) (Some (obj_insert "bins" (JArray bins) object)) ["underflow_bin"; "overflow_bin"]%string;
    let count := zsum (omap (fun p : f64 * Json => jget "sample_count" p.2 ≫= as_i64) inputs) in
    Some (JObject (obj_remove "statistics" (obj_insert "sample_count" (JInt count) combined))).

(** [inputs]: the coefficient of a result and the JSON of its accumulator, if it
    has one. *)
Definition bundle_histograms (value : option Json) : option (list (string * Json)) :=
  value ← value; bundle ← jget "bundle" value; jget "histograms" bundle ≫= as_object.

Definition combine_named (inputs : list (f64 * list (string * Json))) (name : string) : option Json :=
  histograms ← mapM (fun p : f64 * list (string * Json) => h ← obj_get name p.2; Some (p.1, h)) inputs;
  combine_histogram histograms.

Definition combine_independent_observables (inputs : list (f64 * option Json)) : option Json :=
  children ← mapM (fun p : f64 * option Json => h ← bundle_histograms p.2; Some (p.1, h)) inputs;
  let names := fst <$> obj_of (map (fun name => (name, tt)) (concat (map (fun p => fst <$> p.2) children))) in
  match names with
  | [] => None
  | _ =>
      let histograms := omap (fun name => h ← combine_named children name; Some (name, h)) names in
      let omitted := filter (fun name => combine_named children name = None) names in
      let primary :=
        match find (fun name => bool_decide (is_Some (obj_get name histograms))) ["higgs_pt"; "integral"]%string with
        | Some name => Some name
        | None => fst <$> head histograms
        end in
      Some (JObject (obj_of
        [("primary_histogram_name", match primary with Some name => JString name | None => JNull end);
         ("histograms", JObject histograms);
         ("omitted_incompatible_histograms", JArray (map JString omitted))]%string))
  end.
End histograms.

(** ** Lemmas *)

Section induction.
Context (P : Toml -> Prop).
Context (Hs : forall s, P (TString s)) (Hi : forall z, P (TInt z)) (Hf : forall x, P (TFlt x)) (Hb : forall b, P (TBool b))
  (Hd : forall s, P (TDatetime s)) (Ha : forall l, Forall P l -> P (TArray l))
  (Ht : forall m, Forall (fun p => P p.2) m -> P (TTable m)).
Fixpoint Toml_ind' (t : Toml) : P t :=
  match t with
  | TString s => Hs s
  | TInt z => Hi z
  | TFlt x => Hf x
  | TBool b => Hb b
  | TDatetime s => Hd s
  | TArray l => Ha l ((fix go l : Forall P l := match l with [] => Forall_nil_2 P | x :: l => Forall_cons_2 P x l (Toml_ind' x) (go l) end) l)
  | TTable m =>
      Ht m ((fix go m : Forall (fun p => P p.2) m :=
               match m with
               | [] => Forall_nil_2 _
               | p :: m => Forall_cons_2 (fun p => P p.2) p m (Toml_ind' p.2) (go m)
               end) m)
  end.
End induction.

Lemma plain_round_trip t : plain t = true -> json_to_toml (toml_to_json t) = Ok t.
Proof.
  induction t as [s|z|x|b|s|l IH|m IH] using Toml_ind'; cbn; intros Hp; try done.
  - by rewrite Hp.
  - by rewrite Hp.
  - match goal with |- (let? _ := ?f _ in _) = _ => assert (f (map toml_to_json l) = Ok l) as -> end; [|done].
    induction IH as [|t l Ht _ IHl]; [done|]. apply andb_true_iff in Hp as [Ht' Hl]. cbn. rewrite Ht by done. cbn. by rewrite IHl.
  - match goal with |- (let? _ := ?f _ in _) = _ => assert (f (map (fun p => (p.1, toml_to_json p.2)) m) = Ok m) as -> end; [|done].
    induction IH as [|[k t] m Ht _ IHm]; [done|]. apply andb_true_iff in Hp as [Ht' Hm]. cbn in *. rewrite Ht by done. cbn. by rewrite IHm.
Qed.

Lemma parameters_round_trip parameters :
  forallb (fun p => plain p.2) parameters = true -> parameters_from_json (parameters_to_json parameters) = Ok parameters.
Proof.
  unfold parameters_from_json, parameters_to_json. cbn [as_object ok_or result_bind].
  induction parameters as [|[k t] l IH]; [done|]. cbn. intros [Ht Hl]%andb_true_iff.
  rewrite plain_round_trip by done. cbn. by rewrite IH.
Qed.
