(* ===== verification/ChildResults.v ===== *)
(** What the three controllers share: src/runners/controller_child.rs (children and
    their published results, the end of a controller), the measurements of
    src/services/measurement.rs, and the output types of src/core/tasks.rs.

    The requests a controller makes are the class [ControllerStore]. A service
    error is its text. *)
From S2P Require Import Prelude Floats Errors Domain Batch Config LatentBatch Generation AccumulatorTrait Scalar Stratification Vector FullVector Gammaloop Stratified AccumulatorState Extraction Raster WorkQueue Assignments Queue Tasks Runner TaskStore StageContext.

(** ** Outputs (src/core/tasks.rs) *)

Record ResultSourceRef := mkSourceRef {
  src_run_id : i32;
  src_task_id : i64;
  src_snapshot_id : option string;
  src_sample_count : i64
}.

Record ControllerChildOutput := mkChildOutput {
  child_run_id : option i32;
  child_status : ControllerChildState;
  result_source : option ResultSourceRef;
  child_throughput : option f64;
  child_measurement : option TaskMeasurementOutput;
  child_failure : option string
}.
Definition planned : ControllerChildOutput := mkChildOutput None CPlanned None None None None.
Definition child_fail (reason : string) (c : ControllerChildOutput) : ControllerChildOutput :=
  mkChildOutput (child_run_id c) CFailed (result_source c) (child_throughput c) (child_measurement c) (Some reason).

(** [results] of a completed measurement, the largest of its sample counts *)
Definition completed_results (o : option TaskMeasurementOutput) : option (list MeasurementResult) :=
  match o with Some (MeasurementCompleted results) => Some results | _ => None end.
Definition max_sample_count (results : list MeasurementResult) : option i64 :=
  match results with
  | [] => None
  | r :: results => Some (foldl (fun n r => Z.max n (mr_sample_count r)) (mr_sample_count r) results)
  end.

Section children.
Context {J : Type} {TV : TomlValues} {E : Type} {LM : Libm} {OB : Observables} {TC : @TaskCodec J TV E}.

Notation RunTask := (@RunTask J TV E).
Notation StoredTask := (@StoredTask J TV E TC).

(** ** Measurements (src/services/measurement.rs) *)

Definition extract_single_metric (accumulator : AccumulatorState) (selector : AccumulatorMetricSelector)
    (completed_samples_per_second : option f64) : result string MeasurementResult :=
  ok_or "measurement metric is unavailable"%string
    (extract_accumulator_metric_with_runtime accumulator selector completed_samples_per_second).

Definition mean_of (name : string) : AccumulatorMetricSelector := mkSelector MMean (Some name).
Definition central_selectors (accumulator : AccumulatorState) : list AccumulatorMetricSelector :=
  match accumulator with
  | AStratified s => map mean_of (plan_components (st_plan s))
  | AVector v => map (fun c => mean_of (named_name c)) (components v)
  | AGammaloop g => map (fun c => mean_of (named_name c)) (components (estimate g))
  | AEmpty _ | AFullVector _ => []
  end.
Definition extract_central_value_metrics (accumulator : AccumulatorState) : result string (list MeasurementResult) :=
  let? metrics := try_map (fun selector => extract_single_metric accumulator selector None) (central_selectors accumulator) in
  match metrics with
  | [] => Err "central_value measurement is unavailable"%string
  | _ => Ok metrics
  end.

Definition extract_measurement_metrics (accumulator : AccumulatorState) (m : TaskMeasurementSpec)
    (completed_samples_per_second : option f64) : result string (list MeasurementResult) :=
  match selection_metric_selector (selection m) with
  | Some selector =>
      let? metric := extract_single_metric accumulator selector completed_samples_per_second in Ok [metric]
  | None => extract_central_value_metrics accumulator
  end.
Definition project_measurement_results := extract_measurement_metrics.

Definition absolute_component_results (accumulator : AccumulatorState) (results : list MeasurementResult)
    : list MeasurementResult :=
  omap (fun r => extract_accumulator_metric accumulator (mkSelector MAbsMean (mr_component r)))
    (filter (fun r => mr_name r = MMean) results).

Definition resolve_measurement_source_task (tasks : list StoredTask) (source_task_name : string) : result string StoredTask :=
  match filter (fun t => task_name (st_task t) = source_task_name) tasks with
  | [] => Err "measurement.source_task not found"%string
  | [task] => Ok task
  | _ => Err "measurement.source_task is ambiguous"%string
  end.

(** ** Requests *)

Record ListedNode := mkListed { ln_node : RegisteredNode; ln_current : option AssignmentTarget }.

Record ChildRunRequest := mkChildRequest {
  cr_parent_run_id : i32;
  cr_parent_task_id : i64;
  cr_spawn_kind : string;
  cr_spawn_label : string;
  cr_run : ChildRunSource;
  cr_replacements : gmap string toml
}.

Class ControllerStore (Output W : Type) := {
  (** the labelled children in reverse order of their start *)
  cs_child_runs : i32 -> i64 -> string -> W -> W * result StoreError (list (option string * i32));
  cs_create_child_run : ChildRunRequest -> W -> W * result string i32;
  cs_list_run_tasks : i32 -> W -> W * result StoreError (list StoredTask);
  (** the JSON of a live accumulator, and what reading it gives *)
  cs_current_accumulator : i32 -> W -> W * result StoreError (option (result string AccumulatorState));
  cs_task_snapshot : i32 -> i64 -> W -> W * result StoreError (option (string * AccumulatorState));
  cs_task_snapshot_id : i32 -> i64 -> W -> W * result StoreError (option string);
  (** [completed_samples_per_second] of the newest performance record *)
  cs_sampler_performance : i32 -> W -> W * result StoreError (list f64);
  cs_worker_pool_branches : i32 -> W -> W * result StoreError (list (i32 * i32 * bool));
  cs_list_nodes : W -> W * result StoreError (list ListedNode);
  cs_update_desired_assignments : list NodeAssignmentUpdate -> W -> W * result StoreError bool;
  cs_allocate_campaign_samples : i64 -> list (i32 * i64) -> W -> W * result StoreError (gmap i32 i64);
  cs_persist_controller_output : i64 -> Output -> W -> W * result StoreError unit;
  cs_persist_measurement_output : i64 -> TaskMeasurementOutput -> W -> W * result StoreError unit;
  cs_update_run_task_progress : i64 -> i64 -> i64 -> W -> W * result StoreError unit;
  cs_complete_run_task : i64 -> W -> W * result StoreError unit;
  cs_fail_run_task : i64 -> string -> W -> W * result StoreError unit
}.

Context {Output W : Type} {CS : ControllerStore Output W}.

Notation M := (SE W StoreError).

(** [store_err()] on a service error *)
Definition service {A} (m : SE W string A) : M A := fun w => let '(w, r) := m w in (w, map_err Internal r).

(** The children by label: of two with one label the earlier one stays. *)
Definition load_controller_children (run : i32) (t : RunTask) : M (gmap string i32) :=
  let! runs := cs_child_runs run (task_id t) (task_kind_str (task_spec t)) in
  se_ret (foldl (fun m p => match p.1 with Some label => <[label := p.2]> m | None => m end) ∅ runs).

Definition apply_controller_assignment_plan (run : i32) (selected : list i32) : M bool :=
  let! rows := cs_worker_pool_branches run in
  let! nodes := cs_list_nodes in
  cs_update_desired_assignments (controller_assignment_updates (ln_node <$> nodes) (with_branches rows (plan_new run selected))).

(** Placements are released before the terminal state is published; the next
    tick tries again when they changed meanwhile. *)
Definition finish_controller (run : i32) (id : i64) (outcome : result string unit) : M bool :=
  let! released := apply_controller_assignment_plan run [] in
  if negb released then se_ret false
  else
    match outcome with
    | Ok _ => cs_complete_run_task id
    | Err reason => cs_fail_run_task id reason
    end ;!
    se_ret true.

(** ** The result of a child *)

Record ChildTaskResult := mkChildResult {
  result_state : RunTaskState;
  result_output : option TaskMeasurementOutput;
  result_ref : ResultSourceRef;
  result_accumulator : option AccumulatorState;
  result_task : StoredTask
}.

Definition task_failure_reason_of (state : RunTaskState) (name : string) (failure_reason : option string)
    (output : option TaskMeasurementOutput) : option string :=
  if bool_decide (state = TFailed) then
    Some (match output with
          | Some (MeasurementFailed reason) => reason
          | _ => default (String.append "child task '" (String.append name "' failed")) failure_reason
          end)
  else None.

Definition result_failure_reason (r : ChildTaskResult) : option string :=
  let t := st_task (result_task r) in
  task_failure_reason_of (result_state r) (task_name t) (task_failure_reason t) (result_output r).

Definition controller_output (r : ChildTaskResult) : ControllerChildOutput :=
  let failure_reason :=
    or_else (result_failure_reason r)
      (match result_output r with Some (MeasurementFailed reason) => Some reason | _ => None end) in
  mkChildOutput (Some (src_run_id (result_ref r)))
    (if bool_decide (is_Some failure_reason) then CFailed else child_state_from (result_state r))
    (Some (result_ref r)) None (result_output r) failure_reason.

(** The accumulator of a result and the snapshot it was read from. *)
Definition load_result_accumulator (run : i32) (t : StoredTask) (include_accumulator : bool)
    : M (option AccumulatorState * option string) :=
  let active := bool_decide (task_state (st_task t) = TActive) in
  if negb include_accumulator then
    if (active : bool) then se_ret (None, None)
    else let! id := cs_task_snapshot_id run (task_id (st_task t)) in se_ret (None, id)
  else if (active : bool) then
    let! value := cs_current_accumulator run in
    match value with
    | None => se_ret (None, None)
    | Some value => let! a := se_lift (map_err Internal value) in se_ret (Some a, None)
    end
  else
    let! snapshot := cs_task_snapshot run (task_id (st_task t)) in
    se_ret (snd <$> snapshot, fst <$> snapshot).

Definition load_child_task_result_inner (run : i32) (source_task : string) (include_accumulator : bool) : M ChildTaskResult :=
  let! tasks := (fun w => let '(w, r) := cs_list_run_tasks run w in
                          (w, map_err (fun e => Internal (store_error_message e)) r)) in
  let! t := se_lift (map_err Internal (resolve_measurement_source_task tasks source_task)) in
  let! loaded := load_result_accumulator run t include_accumulator in
  let sample_count :=
    match loaded.1 with
    | Some a => state_sample_count a
    | None =>
        default (task_completed (st_task t))
          (results ← completed_results (st_measurement t); max_sample_count results)
    end in
  se_ret (mkChildResult (task_state (st_task t)) (st_measurement t)
            (mkSourceRef run (task_id (st_task t)) loaded.2 sample_count) loaded.1 t).
Definition load_child_task_result (run : i32) (source_task : string) : M ChildTaskResult :=
  load_child_task_result_inner run source_task true.
Definition load_child_task_result_reference (run : i32) (source_task : string) : M ChildTaskResult :=
  load_child_task_result_inner run source_task false.

(** ** The newest published result of a child *)

Definition is_publishing (t : StoredTask) : bool :=
  match task_spec (st_task t) with Sample _ true _ _ _ _ _ _ _ => true | _ => false end.
Definition ran (t : StoredTask) : bool :=
  match task_state (st_task t) with TActive | TCompleted => true | _ => false end.

Definition usable (t : StoredTask) (r : ChildTaskResult) : bool :=
  (bool_decide (task_state (st_task t) = TCompleted) || (0 <? task_completed (st_task t)))
  && match result_accumulator r with Some a => 0 <? state_sample_count a | None => false end.

(** From the newest candidate on. *)
Fixpoint first_usable (run : i32) (candidates : list StoredTask) : M (option ChildTaskResult) :=
  match candidates with
  | [] => se_ret None
  | t :: candidates =>
      let! r := load_child_task_result run (task_name (st_task t)) in
      if usable t r then se_ret (Some r) else first_usable run candidates
  end.

Definition final_stage_ready (final_task : StoredTask) (r : ChildTaskResult) : bool :=
  (src_task_id (result_ref r) =? task_id (st_task final_task))
  && (1 <? task_completed (st_task final_task))
  && ran final_task
  && match result_accumulator r with Some a => 1 <? state_sample_count a | None => false end.

Definition child_failure_text (t : StoredTask) : string :=
  String.append "child task '" (String.append (task_name (st_task t))
    match task_failure_reason (st_task t) with
    | Some reason => String.append "' failed: " reason
    | None => "' failed"%string
    end).

(** The state of the whole queue of the child. *)
Definition queue_state (tasks : list StoredTask) (r : ChildTaskResult) : ChildTaskResult :=
  match find (fun t => bool_decide (task_state (st_task t) = TFailed)) tasks with
  | Some failed =>
      mkChildResult TFailed (Some (MeasurementFailed (child_failure_text failed))) (result_ref r) (result_accumulator r) (result_task r)
  | None =>
      mkChildResult (if forallb (fun t => bool_decide (task_state (st_task t) = TCompleted)) tasks then TCompleted else TActive)
        (result_output r) (result_ref r) (result_accumulator r) (result_task r)
  end.

Definition load_published_child_result (run : i32) : M (ChildTaskResult * bool * i64) :=
  let! tasks := cs_list_run_tasks run in
  let publishing := filter (fun t => is_publishing t = true) tasks in
  match last publishing with
  | None => se_fail (Internal "campaign child has no publishing sample task")
  | Some final_task =>
      (** the sum is taken to fit *)
      let work_samples := zsum (map (fun t => task_completed (st_task t)) tasks) in
      let! selected := first_usable run (filter (fun t => ran t = true) (rev publishing)) in
      let! r :=
        match selected with
        | Some r => se_ret r
        | None => load_child_task_result run (task_name (st_task final_task))
        end in
      se_ret (queue_state tasks r, final_stage_ready final_task r, work_samples)
  end.
End children.
