(* ===== verification/ControllerLaws.v ===== *)
(** What the requests of a controller keep, for the laws of the three controllers: a
    predicate that only the completion of the controller's task can break is kept by
    everything the controllers share. *)
From S2P Require Import Prelude Floats Errors Domain Batch Config LatentBatch Generation AccumulatorTrait Scalar Stratification Vector FullVector Gammaloop Stratified AccumulatorState Extraction Raster WorkQueue Assignments Queue Tasks Runner TaskStore StageContext ChildResults.

Lemma stable_service {S A} (I : S -> Prop) (m : SE S string A) : stable I m -> stable I (service m).
Proof. intros Hm s HI. specialize (Hm s HI). unfold service. by destruct (m s) as [s' [a|e]]. Qed.

Lemma sublist_fmap {A B} (f : A -> B) l k : l `sublist_of` k -> f <$> l `sublist_of` f <$> k.
Proof. induction 1; cbn; by constructor. Qed.

(** Whatever [m] returns satisfies [Q]. *)
Definition yields {S E A} (m : SE S E A) (Q : A -> Prop) : Prop := forall s s' a, m s = (s', Ok a) -> Q a.
Lemma yields_bind {S E A B} (m : SE S E A) (k : A -> SE S E B) P Q :
  yields m P -> (forall a, P a -> yields (k a) Q) -> yields (se_bind m k) Q.
Proof.
  intros Hm Hk s s' b Hb. unfold se_bind in Hb. destruct (m s) as [s1 [a|e]] eqn:Em; [|done]. exact (Hk a (Hm _ _ _ Em) _ _ _ Hb).
Qed.
Lemma yields_ret {S E A} (a : A) (Q : A -> Prop) : Q a -> yields (se_ret (S:=S) (E:=E) a) Q.
Proof. intros HQ s s' b [= _ <-]. done. Qed.
Lemma yields_lift {S E A} (m : result E A) (Q : A -> Prop) : (forall a, m = Ok a -> Q a) -> yields (se_lift (S:=S) m) Q.
Proof. intros HQ s s' a Ha. unfold se_lift in Ha. destruct m as [x|e]; [|done]. injection Ha as _ <-. by apply HQ. Qed.
(** A result is that of some run. *)
Lemma yields_run {S E A} (m : SE S E A) (Q : A -> Prop) : yields m Q -> yields m (fun a => Q a /\ exists s s', m s = (s', Ok a)).
Proof. intros Hm s s' a Hs. split; [by eapply Hm|by exists s, s']. Qed.
Lemma yields_any {S E A} (m : SE S E A) : yields m (fun _ => True).
Proof. done. Qed.

Section requests.
Context {J : Type} {TV : TomlValues} {E : Type} {LM : Libm} {OB : Observables} {TC : @TaskCodec J TV E}.
Context {Output W : Type} {CS : @ControllerStore J TV E OB TC Output W}.

(** Every request but the completion of the task keeps [P]. *)
Class OnlyCompletion (P : W -> Prop) := {
  oc_child_runs run id kind : stable P (cs_child_runs run id kind);
  oc_create request : stable P (cs_create_child_run request);
  oc_list_run_tasks run : stable P (cs_list_run_tasks run);
  oc_current_accumulator run : stable P (cs_current_accumulator run);
  oc_task_snapshot run id : stable P (cs_task_snapshot run id);
  oc_task_snapshot_id run id : stable P (cs_task_snapshot_id run id);
  oc_sampler_performance run : stable P (cs_sampler_performance run);
  oc_worker_pool_branches run : stable P (cs_worker_pool_branches run);
  oc_list_nodes : stable P cs_list_nodes;
  oc_update_desired updates : stable P (cs_update_desired_assignments updates);
  oc_allocate id requests : stable P (cs_allocate_campaign_samples id requests);
  oc_persist_controller id output : stable P (cs_persist_controller_output id output);
  oc_persist_measurement id output : stable P (cs_persist_measurement_output id output);
  oc_progress id produced completed : stable P (cs_update_run_task_progress id produced completed);
  oc_fail id reason : stable P (cs_fail_run_task id reason)
}.

Context (P : W -> Prop) {OC : OnlyCompletion P}.
Local Hint Resolve oc_child_runs oc_create oc_list_run_tasks oc_current_accumulator oc_task_snapshot oc_task_snapshot_id
  oc_sampler_performance oc_worker_pool_branches oc_list_nodes oc_update_desired oc_allocate oc_persist_controller
  oc_persist_measurement oc_progress oc_fail : stable.

Lemma open_apply_plan run selected : stable P (apply_controller_assignment_plan run selected).
Proof. unfold apply_controller_assignment_plan. stable_auto. Qed.
Local Hint Resolve open_apply_plan : stable.

Lemma open_children run t : stable P (load_controller_children run t).
Proof. unfold load_controller_children. stable_auto. Qed.

Lemma open_failed run id reason : stable P (finish_controller run id (Err reason)).
Proof. unfold finish_controller. stable_auto. Qed.

Lemma open_result id name b : stable P (load_child_task_result_inner id name b).
Proof.
  unfold load_child_task_result_inner. apply stable_bind.
  { intros w HP. pose proof (oc_list_run_tasks id w HP) as H. by destruct (cs_list_run_tasks id w) as [w' [a|e]]. }
  intros tasks. unfold load_result_accumulator. stable_auto.
Qed.
Lemma open_child_result id name : stable P (load_child_task_result id name).
Proof. apply open_result. Qed.
Lemma open_child_reference id name : stable P (load_child_task_result_reference id name).
Proof. apply open_result. Qed.
Local Hint Resolve open_child_result : stable.
Lemma open_first_usable id l : stable P (first_usable id l).
Proof. induction l as [|x l IH]; cbn [first_usable]; [apply stable_ret|]. stable_auto. Qed.
End requests.

#[export] Hint Resolve oc_child_runs oc_create oc_list_run_tasks oc_current_accumulator oc_task_snapshot oc_task_snapshot_id
  oc_sampler_performance oc_worker_pool_branches oc_list_nodes oc_update_desired oc_allocate oc_persist_controller
  oc_persist_measurement oc_progress oc_fail stable_service open_apply_plan open_children open_failed open_child_result
  open_child_reference open_first_usable : stable.
