(* ===== verification/Campaign.v ===== *)
(** src/runners/integration_campaign.rs: the controller of an integration campaign. It
    creates its children, observes their published results, combines them, hands out
    sample budgets in quanta and places the workers of its pool.

    The requests are those of ControllerStore (ChildResults.v) and the persistence of
    a derived result; the JSON of an accumulator is the class [AccumulatorJson]. *)
From S2P Require Import Prelude Floats Errors Domain Batch Config LatentBatch Generation AccumulatorTrait Scalar Stratification Vector FullVector Gammaloop Stratified AccumulatorState Extraction Raster WorkQueue Assignments Queue Tasks Runner TaskStore StageContext Json ChildResults.
From Stdlib Require Import SpecFloat FloatOps.

#[export] Instance EstimateKind_eq_dec : EqDecision EstimateKind.
Proof. solve_decision. Defined.

(** [f64::total_cmp] as the order of integers. The sign of a NaN is the machine's:
    [nan_below] says whether it is negative. *)
Definition total_key (nan_below : bool) (x : f64) : Z :=
  match Prim2SF x with
  | S754_zero s => if s then -1 else 0
  | S754_infinity s => if s then - 2 ^ 3000 else 2 ^ 3000
  | S754_nan => if nan_below then - 2 ^ 3001 else 2 ^ 3001
  | S754_finite s m e => let magnitude := 2 * (Z.pos m * 2 ^ (e + 1074)) in if s then - magnitude else magnitude
  end.

Record CampaignChildOutput := mkCampaignChildOutput {
  co_name : string;
  co_coefficient : f64;
  co_child : ControllerChildOutput;
  co_selected : bool;
  co_score : option f64;
  co_absolute_results : option (list MeasurementResult)
}.
Record CampaignOutput := mkCampaignOutput {
  out_completed_children : usize;
  out_running_children : usize;
  out_total_children : usize;
  out_total_samples : i64;
  out_selected : list i32;
  out_max_active_runs : usize;
  out_sampler_workers : usize;
  out_evaluator_workers : usize;
  out_worker_capacity : usize;
  out_draining : bool;
  out_combined : option TaskMeasurementOutput;
  out_result_snapshot_id : option string;
  out_children : list CampaignChildOutput
}.
Definition set_draining (x : bool) (o : CampaignOutput) : CampaignOutput :=
  mkCampaignOutput (out_completed_children o) (out_running_children o) (out_total_children o) (out_total_samples o) (out_selected o)
    (out_max_active_runs o) (out_sampler_workers o) (out_evaluator_workers o) (out_worker_capacity o) x (out_combined o)
    (out_result_snapshot_id o) (out_children o).

Record DerivedResultSnapshot := mkDerived {
  dr_sources : list ResultSourceRef;
  dr_metrics : list MeasurementResult;
  dr_observables : option Json
}.

Section campaign.
Context {J : Type} {TV : TomlValues} {E : Type} {LM : Libm} {OB : Observables} {TC : @TaskCodec J TV E}.

(** ** What a tick knows of a child *)

Record ChildState := mkChildState {
  final_ready : bool;
  work_samples : i64;
  cs_name : string;
  cs_coefficient : f64;
  cs_run_id : i32;
  cs_status : ControllerChildState;
  cs_task_state : RunTaskState;
  cs_result_source : ResultSourceRef;
  cs_accumulator : option AccumulatorState;
  cs_throughput : option f64;
  cs_measurement : option TaskMeasurementOutput;
  cs_failure_reason : option string
}.

Definition results (c : ChildState) : option (list MeasurementResult) := completed_results (cs_measurement c).
Definition sample_count (c : ChildState) : i64 := default 0 (results c ≫= max_sample_count).

Definition needs_pilot (minimum : i64) (c : ChildState) : bool :=
  negb (final_ready c) || (sample_count c <? minimum)
  || match results c with Some r => existsb (fun m => is_none (mr_uncertainty m)) r | None => true end.

Definition squared (x : f64) : f64 := powi x 2.

Definition score_variance (c : ChildState) : option f64 :=
  results ← results c;
  foldl (fun sum r => sum ← sum; uncertainty ← mr_uncertainty r;
           Some (PrimFloat.add sum (PrimFloat.mul (squared (cs_coefficient c)) (squared uncertainty))))
    (Some 0%float) results.
Definition score (a : IntegrationCampaignAllocationAlgorithm) (c : ChildState) : option f64 :=
  variance ← score_variance c;
  match a with
  | LargestVariance => Some variance
  | VarianceReductionRate =>
      throughput ← cs_throughput c;
      Some (PrimFloat.div (PrimFloat.mul variance throughput) (f64_of_Z (Z.max (sample_count c) 1)))
  end.

(** ** Scheduling *)

Context (nan_below : bool).

Definition granted_to (grants : gmap i32 i64) (run : i32) : i64 := default 0 (grants !! run).
(** Its quantum is not used up. *)
Definition unfinished (grants : gmap i32 i64) (c : ChildState) : bool := work_samples c <? granted_to grants (cs_run_id c).

(** [a.cmp(b)] of booleans *)
Definition bool_cmp (a b : bool) : comparison := Z.compare (Z.b2z a) (Z.b2z b).
Definition then_cmp (a b : comparison) : comparison := match a with Eq => b | _ => a end.

Definition child_cmp (allocation : IntegrationCampaignAllocationSpec) (grants : gmap i32 i64) (incumbents : list i32)
    (a b : ChildState) : comparison :=
  let pilot := needs_pilot (min_samples_per_child allocation) in
  let key c := total_key nan_below (default 0%float (score (algorithm allocation) c)) in
  let incumbent c := bool_decide (cs_run_id c ∈ incumbents) in
  then_cmp (bool_cmp (unfinished grants b) (unfinished grants a))
    (then_cmp (bool_cmp (pilot b) (pilot a))
      (then_cmp (if pilot a then Z.compare (work_samples a) (work_samples b) else Z.compare (key b) (key a))
        (then_cmp (bool_cmp (incumbent b) (incumbent a)) (Z.compare (cs_run_id a) (cs_run_id b))))).
Definition child_le allocation grants incumbents (a b : ChildState) : Prop :=
  child_cmp allocation grants incumbents a b <> Gt.
#[export] Instance child_le_dec allocation grants incumbents : RelDecision (child_le allocation grants incumbents).
Proof. intros a b. unfold Decision, child_le. destruct (child_cmp _ _ _ _ _); [by left|by left|right; intros H; by apply H]. Defined.

Definition still_running (states : list ChildState) (grants : gmap i32 i64) (id : i32) : bool :=
  existsb (fun c => (cs_run_id c =? id) && unfinished grants c) states.

Definition kept_incumbents (states : list ChildState) grants (incumbents : list i32) (eligible : gset i32) (capacity : usize) : list i32 :=
  ztake capacity (filter (fun id => id ∈ eligible /\ still_running states grants id = true) incumbents).

Definition candidates (states : list ChildState) (selected : list i32) (eligible : gset i32) : list ChildState :=
  filter (fun c => cs_run_id c ∈ eligible /\ cs_run_id c ∉ selected) states.

Definition schedule_children (states : list ChildState) (grants : gmap i32 i64) (incumbents : list i32) (eligible : gset i32)
    (allocation : IntegrationCampaignAllocationSpec) (capacity : usize) : list i32 :=
  let selected := kept_incumbents states grants incumbents eligible capacity in
  selected ++ (cs_run_id <$> ztake (usize_saturating_sub capacity (zlen selected))
                 (merge_sort (child_le allocation grants incumbents) (candidates states selected eligible))).

(** ** Combination *)

Record Combining := mkCombining {
  cb_value : f64;
  cb_variance : f64;
  cb_samples : i64;
  cb_basic_mean : f64;
  cb_basic_variance : option f64;
  cb_has_basic : bool
}.
Definition same_metric (a b : MeasurementResult) : bool :=
  bool_decide (mr_name a = mr_name b) && bool_decide (mr_component a = mr_component b).

Definition combine_child (template : MeasurementResult) (acc : option Combining) (c : ChildState) : option Combining :=
  acc ← acc;
  results ← results c;
  r ← find (fun r => same_metric r template) results;
  let '(mean, error) := match mr_basic r with Some b => (be_mean b, be_error b) | None => (mr_value r, mr_uncertainty r) end in
  uncertainty ← mr_uncertainty r;
  let k := cs_coefficient c in
  Some (mkCombining (PrimFloat.add (cb_value acc) (PrimFloat.mul k (mr_value r)))
          (PrimFloat.add (cb_variance acc) (PrimFloat.mul (squared k) (squared uncertainty)))
          (i64_saturating_add (cb_samples acc) (mr_sample_count r))
          (PrimFloat.add (cb_basic_mean acc) (PrimFloat.mul k mean))
          (sum ← cb_basic_variance acc; e ← error; Some (PrimFloat.add sum (PrimFloat.mul (squared k) (squared e))))
          (cb_has_basic acc || bool_decide (is_Some (mr_basic r)))).

Definition combine_metric (states : list ChildState) (template : MeasurementResult) : option MeasurementResult :=
  acc ← foldl (combine_child template) (Some (mkCombining 0 0 0 0 (Some 0%float) false)) states;
  Some (mkMeasurement ECombined
          (if cb_has_basic acc && PrimFloat.is_finite (cb_basic_mean acc) then
             Some (mkBasicEstimate (cb_basic_mean acc)
                     (v ← cb_basic_variance acc; if PrimFloat.is_finite v then Some (PrimFloat.sqrt v) else None))
           else None)
          (mr_name template) (mr_component template) (cb_value acc) (Some (PrimFloat.sqrt (cb_variance acc))) (cb_samples acc)).

Definition combine_measurements (states : list ChildState) : option (list MeasurementResult) :=
  if existsb (fun c => is_none (results c)) states then None
  else
    first ← head states ≫= results;
    mapM (combine_metric states) first.

(** ** When to stop *)

Definition error_target_met (stop : IntegrationCampaignStopCondition) (r : MeasurementResult) : bool :=
  match mr_uncertainty r with
  | None => false
  | Some error =>
      match campaign_absolute_error stop with Some target => PrimFloat.leb error target | None => false end
      || match campaign_relative_error stop with
         | Some target =>
             negb (PrimFloat.eqb (mr_value r) 0) && PrimFloat.leb (PrimFloat.div error (PrimFloat.abs (mr_value r))) target
         | None => false
         end
  end.

Definition campaign_should_stop (results : list MeasurementResult) (total_samples : i64) (pilots_complete : bool)
    (stop : IntegrationCampaignStopCondition) : bool :=
  if total_samples <? min_total_samples stop then false
  else if match max_total_samples stop with Some maximum => maximum <=? total_samples | None => false end then true
  else if negb pilots_complete then false
  else
    (bool_decide (is_Some (campaign_absolute_error stop)) || bool_decide (is_Some (campaign_relative_error stop)))
    && forallb (error_target_met stop) results.

(** ** Output *)

Definition worker_capacity (allocation : IntegrationCampaignAllocationSpec) (worker_counts : usize * usize) : usize :=
  Z.min (Z.min (max_active_runs allocation) worker_counts.1) (worker_counts.2 / min_evaluators_per_run allocation).

Definition child_output (allocation : IntegrationCampaignAllocationSpec) (selected : gset i32) (c : ChildState) : CampaignChildOutput :=
  mkCampaignChildOutput (cs_name c) (cs_coefficient c)
    (mkChildOutput (Some (cs_run_id c)) (cs_status c) (Some (cs_result_source c)) (cs_throughput c) (cs_measurement c) (cs_failure_reason c))
    (bool_decide (cs_run_id c ∈ selected))
    (s ← score (algorithm allocation) c; if PrimFloat.is_finite s then Some s else None)
    (a ← cs_accumulator c; Some (absolute_component_results a (default [] (results c)))).

Definition is_completed (c : ChildState) : bool := bool_decide (cs_task_state c = TCompleted).

Definition build_output (states : list ChildState) (selected : list i32) (total_samples : i64) (worker_counts : usize * usize)
    (combined : option TaskMeasurementOutput) (snapshot : option string) (allocation : IntegrationCampaignAllocationSpec) : CampaignOutput :=
  let selected : gset i32 := list_to_set selected in
  mkCampaignOutput (zlen (filter (fun c => is_completed c = true) states)) (Z.of_nat (size selected)) (zlen states) total_samples
    (ascending selected) (max_active_runs allocation) worker_counts.1 worker_counts.2 (worker_capacity allocation worker_counts)
    false combined snapshot (map (child_output allocation selected) states).

(** ** The tick *)

Definition source_ref_eqb (a b : ResultSourceRef) : bool :=
  (src_run_id a =? src_run_id b) && (src_task_id a =? src_task_id b) && bool_decide (src_snapshot_id a = src_snapshot_id b)
  && (src_sample_count a =? src_sample_count b).
Definition opt_f64_eqb (a b : option f64) : bool :=
  match a, b with Some x, Some y => PrimFloat.eqb x y | None, None => true | _, _ => false end.
Definition measurement_eqb (a b : MeasurementResult) : bool :=
  bool_decide (mr_estimator a = mr_estimator b)
  && match mr_basic a, mr_basic b with
     | Some x, Some y => PrimFloat.eqb (be_mean x) (be_mean y) && opt_f64_eqb (be_error x) (be_error y)
     | None, None => true
     | _, _ => false
     end
  && same_metric a b && PrimFloat.eqb (mr_value a) (mr_value b) && opt_f64_eqb (mr_uncertainty a) (mr_uncertainty b)
  && (mr_sample_count a =? mr_sample_count b).
Fixpoint list_eqb {A B} (eqb : A -> B -> bool) (l : list A) (k : list B) : bool :=
  match l, k with
  | [], [] => true
  | x :: l, y :: k => eqb x y && list_eqb eqb l k
  | _, _ => false
  end.

(** [AccumulatorState::to_json] *)
Class AccumulatorJson := { accumulator_json : AccumulatorState -> option Json }.
Context {AJ : AccumulatorJson}.

Class CampaignStore (W : Type) := {
  ct_persist_result_snapshot : i32 -> i64 -> DerivedResultSnapshot -> W -> W * result StoreError string
}.
Context {W : Type} {CS : @ControllerStore J TV E OB TC CampaignOutput W} {CT : CampaignStore W}.

Notation M := (SE W StoreError).
Notation RunTask := (@RunTask J TV E).

Definition SPAWN_KIND : string := "integration_campaign".

Context (run : i32) (t : RunTask) (children : list IntegrationCampaignChildSpec) (measurement : TaskMeasurementSpec)
  (stop_condition : IntegrationCampaignStopCondition) (allocation : IntegrationCampaignAllocationSpec)
  (previous : option CampaignOutput).

Definition child_request (c : IntegrationCampaignChildSpec) : ChildRunRequest :=
  mkChildRequest run (task_id t) SPAWN_KIND (cc_name c) (cc_run c) (list_to_map (cc_replacements c)).

(** The children that are missing are created in the order of the task. *)
Fixpoint create_children (l : list IntegrationCampaignChildSpec) (by_label : gmap string i32) : M (gmap string i32) :=
  match l with
  | [] => se_ret by_label
  | c :: l =>
      if bool_decide (is_Some (by_label !! cc_name c)) then create_children l by_label
      else
        let! id := service (cs_create_child_run (child_request c)) in
        create_children l (<[cc_name c := id]> by_label)
  end.

(** The newest positive rate, or the one of the last output. *)
Definition latest_throughput (id : i32) : M (option f64) :=
  let! history := cs_sampler_performance id in
  se_ret (find (fun rate => PrimFloat.is_finite rate && PrimFloat.ltb 0 rate) history).
Definition previous_throughput (id : i32) : option f64 :=
  o ← previous;
  c ← find (fun c => bool_decide (child_run_id (co_child c) = Some id)) (out_children o);
  child_throughput (co_child c).

(** A failed output stays; any other is what the measurement of the campaign
    reads off the accumulator. *)
Definition project (throughput : option f64) (r : ChildTaskResult) : ChildTaskResult :=
  match result_output r with
  | Some (MeasurementFailed _) => r
  | _ =>
      let projected :=
        a ← result_accumulator r;
        metrics ← result_ok (project_measurement_results a measurement throughput);
        Some (MeasurementCompleted metrics) in
      mkChildResult (result_state r) projected (result_ref r) (result_accumulator r) (result_task r)
  end.

Definition campaign_failure (name reason : string) : string :=
  String.append "campaign child '" (String.append name (String.append "' failed: " reason)).

Definition observe_child (by_label : gmap string i32) (c : IntegrationCampaignChildSpec) : M ChildState :=
  let! id := se_lift (ok_or (Internal "created campaign child is missing") (by_label !! cc_name c)) in
  let! published := load_published_child_result id in
  let '(persisted, ready, work) := published in
  let! latest := latest_throughput id in
  let throughput := or_else latest (previous_throughput id) in
  let persisted := project throughput persisted in
  let observed := controller_output persisted in
  se_ret (mkChildState ready work (cc_name c) (coefficient c) id (child_status observed) (result_state persisted)
            (result_ref persisted) (result_accumulator persisted) throughput (child_measurement observed)
            (campaign_failure (cc_name c) <$> child_failure observed)).

Fixpoint observe_children (by_label : gmap string i32) (l : list IntegrationCampaignChildSpec) : M (list ChildState) :=
  match l with
  | [] => se_ret []
  | c :: l => let! s := observe_child by_label c in let! rest := observe_children by_label l in se_ret (s :: rest)
  end.

Definition child_ids (by_label : gmap string i32) : gset i32 := list_to_set (map_to_list by_label).*2.

(** Children with a placed sampler first, in ascending order, then the selection
    of the last output. *)
Definition incumbents_of (ids : gset i32) (workers : list ListedNode) : list i32 :=
  let targets := omap (fun n => desired_assignment (ln_node n)) workers in
  let placed := ascending (list_to_set (run_id <$> filter (fun a => role a = SamplerAggregator /\ run_id a ∈ ids) targets)) in
  let saved := match previous with Some o => out_selected o | None => [] end in
  foldl (fun l id => if bool_decide (id ∈ l) then l else l ++ [id]) placed saved.

Definition worker_counts_of (ids : gset i32) (workers : list ListedNode) : usize * usize :=
  let targets := filter (fun a => run_id a = run \/ run_id a ∈ ids) (omap (fun n => desired_assignment (ln_node n)) workers) in
  (zlen (filter (fun a => role a = SamplerAggregator) targets), zlen (filter (fun a => role a = WorkQueue.Evaluator) targets)).

(** A derived result is stored when it is new and every child has samples. *)
Definition unchanged_result (states : list ChildState) (metrics : list MeasurementResult) : bool :=
  match previous with
  | None => false
  | Some o =>
      list_eqb (fun old new => match result_source (co_child old) with
                               | Some source => source_ref_eqb source (cs_result_source new)
                               | None => false
                               end) (out_children o) states
      && match out_combined o with
         | Some (MeasurementCompleted r) => list_eqb measurement_eqb r metrics
         | _ => false
         end
  end.
Definition persist_derived_result (states : list ChildState) (metrics : option (list MeasurementResult)) : M (option string) :=
  let previous_id := o ← previous; out_result_snapshot_id o in
  match metrics with
  | None => se_ret previous_id
  | Some metrics =>
      if unchanged_result states metrics then se_ret previous_id
      else
        match mapM (fun c => a ← cs_accumulator c; Some (cs_coefficient c, a)) states with
        | None => se_ret previous_id
        | Some inputs =>
            if existsb (fun p => state_sample_count p.2 <=? 0) inputs then se_ret previous_id
            else
              let! id := ct_persist_result_snapshot run (task_id t)
                (mkDerived (cs_result_source <$> states) metrics
                   (combine_independent_observables (map (fun p => (p.1, accumulator_json p.2)) inputs))) in
              se_ret (Some id)
        end
  end.

Definition persist_output (o : CampaignOutput) : M unit := cs_persist_controller_output (task_id t) o.
Definition finish := finish_controller (Output:=CampaignOutput) run (task_id t).

Definition first_failure (states : list ChildState) : option string := head (omap cs_failure_reason states).

Definition BUDGET_EXHAUSTED : string := "campaign sample budget exhausted before every child published a usable result".
Definition CHILDREN_EXHAUSTED : string := "integration campaign exhausted all child runs before reaching its stop condition".

(** What a tick has gathered when it decides. *)
Record Situation := mkSituation {
  si_ids : gset i32;
  si_states : list ChildState;
  si_workers : list ListedNode;
  si_grants : gmap i32 i64;
  si_snapshot : option string
}.
Definition si_combined (s : Situation) : option (list MeasurementResult) := combine_measurements (si_states s).
Definition si_total (s : Situation) : i64 := zsum (map work_samples (si_states s)).
Definition si_outstanding (s : Situation) : bool :=
  existsb (fun c => negb (is_completed c) && unfinished (si_grants s) c) (si_states s).
Definition si_unallocated (s : Situation) : option i64 :=
  (fun cap => i64_saturating_sub cap (zsum (map_to_list (si_grants s)).*2)) <$> max_total_samples stop_condition.
Definition pilots_complete (s : Situation) : bool :=
  forallb (fun c => final_ready c && (min_samples_per_child allocation <=? sample_count c)) (si_states s).
Definition final_results_ready (s : Situation) : bool := forallb final_ready (si_states s).
Definition si_failure (s : Situation) : option string :=
  match first_failure (si_states s) with
  | Some reason => Some reason
  | None =>
      if (is_none (si_combined s) || negb (final_results_ready s))
         && match max_total_samples stop_condition with Some limit => limit <=? si_total s | None => false end
      then Some BUDGET_EXHAUSTED else None
  end.
Definition target_reached (s : Situation) : bool :=
  match si_combined s with
  | Some results => campaign_should_stop results (si_total s) (pilots_complete s) stop_condition
  | None => false
  end.
Definition is_draining (s : Situation) : bool :=
  si_outstanding s && (target_reached s || match previous with Some o => out_draining o | None => false end).
Definition can_allocate (s : Situation) : bool := negb (bool_decide (si_unallocated s = Some 0)) && negb (is_draining s).
Definition eligible (s : Situation) : gset i32 :=
  list_to_set (cs_run_id <$> filter (fun c => is_completed c = false /\ (can_allocate s || unfinished (si_grants s) c) = true) (si_states s)).
Definition output_of (s : Situation) (selected : list i32) : CampaignOutput :=
  build_output (si_states s) selected (si_total s) (worker_counts_of (si_ids s) (si_workers s))
    (MeasurementCompleted <$> si_combined s) (si_snapshot s) allocation.
(** A worker still runs a child. *)
Definition child_running (s : Situation) : bool :=
  existsb (fun n => match ln_current n with Some a => bool_decide (run_id a ∈ si_ids s) | None => false end) (si_workers s).

Definition quantum (c : ChildState) : i64 :=
  let pilot_remaining :=
    i64_saturating_sub (Z.max (min_samples_per_child allocation) 2) (if final_ready c then sample_count c else 0) in
  if needs_pilot (min_samples_per_child allocation) c && (0 <? pilot_remaining)
  then Z.min (allocation_window_samples allocation) pilot_remaining
  else allocation_window_samples allocation.
Definition request_for (s : Situation) (id : i32) : option (i32 * i64) :=
  c ← find (fun c => cs_run_id c =? id) (si_states s);
  if unfinished (si_grants s) c then None
  else Some (id, i64_saturating_add (work_samples c) (quantum c)).
Definition requests_of (s : Situation) (selected : list i32) : list (i32 * i64) :=
  if can_allocate s then omap (request_for s) selected else [].

Definition capacity_of (s : Situation) : usize := worker_capacity allocation (worker_counts_of (si_ids s) (si_workers s)).
Definition selection (s : Situation) : list i32 :=
  schedule_children (si_states s) (si_grants s) (incumbents_of (si_ids s) (si_workers s)) (eligible s) allocation (capacity_of s).

(** *** Ends and continuation *)

Definition conclude_failed (s : Situation) (reason : string) : M bool :=
  persist_output (output_of s []) ;! finish (Err reason).

(** The target is reached and all granted work is in: the workers are released
    before the campaign completes. *)
Definition conclude_reached (s : Situation) : M bool :=
  if child_running s then
    persist_output (set_draining true (output_of s [])) ;!
    let! _ := apply_controller_assignment_plan (Output:=CampaignOutput) run [] in
    se_ret false
  else
    persist_output (output_of s []) ;!
    match si_combined s with
    | Some results => cs_persist_measurement_output (Output:=CampaignOutput) (task_id t) (MeasurementCompleted results)
    | None => se_ret tt
    end ;!
    finish (Ok tt).

(** Grants are committed before the placements. *)
Definition go_on (s : Situation) : M bool :=
  let selected := selection s in
  let requests := requests_of s selected in
  match requests with
  | [] => se_ret tt
  | _ => let! _ := cs_allocate_campaign_samples (Output:=CampaignOutput) (task_id t) requests in se_ret tt
  end ;!
  let! _ := apply_controller_assignment_plan (Output:=CampaignOutput) run selected in
  persist_output (set_draining (is_draining s) (output_of s selected)) ;!
  se_ret false.

Definition conclude (s : Situation) : M bool :=
  match si_failure s with
  | Some reason => conclude_failed s reason
  | None =>
      if target_reached s && negb (si_outstanding s) then conclude_reached s
      else if bool_decide (eligible s = ∅) then conclude_failed s CHILDREN_EXHAUSTED
      else go_on s
  end.

Definition gather : M Situation :=
  let! by_label := load_controller_children (Output:=CampaignOutput) run t in
  let! by_label := create_children children by_label in
  let! states := observe_children by_label children in
  let! workers := cs_list_nodes (Output:=CampaignOutput) in
  let! grants := cs_allocate_campaign_samples (Output:=CampaignOutput) (task_id t) [] in
  let! snapshot := persist_derived_result states (combine_measurements states) in
  se_ret (mkSituation (child_ids by_label) states workers grants snapshot).

Definition campaign_tick : M bool := let! s := gather in conclude s.
End campaign.
