(* ===== verification/CampaignLaws.v ===== *)
(** What an integration campaign guarantees (src/runners/integration_campaign.rs):
    which children get the worker slots, how large their sample budgets can be, and
    when the campaign ends. *)
From S2P Require Import Prelude Lex Floats Errors CampaignBudget Domain Batch Config LatentBatch Generation AccumulatorTrait Scalar Stratification Vector FullVector Gammaloop Stratified AccumulatorState Extraction Raster WorkQueue Assignments Queue Tasks Runner TaskStore StageContext Json ChildResults ControllerLaws Campaign.

(** ** The order of the candidates *)

Lemma lex_ltb_total a b : length a = length b -> lex_ltb a b = false -> lex_ltb b a = false -> a = b.
Proof.
  revert b. induction a as [|x a IH]; intros [|y b]; simpl; try done. intros [= Hl] Hab Hba. zbool.
  assert (x = y) as -> by lia. rewrite Z.eqb_refl in *. cbn in *. f_equal. by apply IH.
Qed.

Lemma lex_le_trans a b c :
  length a = length b -> length b = length c -> lex_ltb b a = false -> lex_ltb c b = false -> lex_ltb c a = false.
Proof.
  intros Hab Hbc H1 H2. destruct (lex_ltb c a) eqn:Hca; [|done].
  destruct (lex_ltb a b) eqn:E; [by rewrite (lex_ltb_trans _ _ _ Hca E) in H2|].
  rewrite (lex_ltb_total a b Hab E H1) in Hca. congruence.
Qed.

Fixpoint lex_compare (a b : list Z) : comparison :=
  match a, b with x :: a, y :: b => then_cmp (x ?= y) (lex_compare a b) | _, _ => Eq end.

Lemma lex_compare_le a b : length a = length b -> lex_compare a b <> Gt <-> lex_ltb b a = false.
Proof.
  revert b. induction a as [|x a IH]; intros [|y b]; simpl; try done. intros [= Hl]. specialize (IH b Hl).
  destruct (Z.compare_spec x y) as [->|Hc|Hc]; cbn [then_cmp].
  - by rewrite Z.ltb_irrefl, Z.eqb_refl.
  - rewrite (proj2 (Z.ltb_ge y x)), (proj2 (Z.eqb_neq y x)) by lia. done.
  - rewrite (proj2 (Z.ltb_lt y x)) by lia. done.
Qed.

Lemma bool_cmp_opp a b : bool_cmp a b = (- Z.b2z b ?= - Z.b2z a).
Proof. by destruct a, b. Qed.

Lemma NoDup_fmap_eq {A B} (f : A -> B) l x y : NoDup (f <$> l) -> x ∈ l -> y ∈ l -> f x = f y -> x = y.
Proof.
  induction l as [|z l IH]; [by intros _ ?%elem_of_nil|]. cbn.
  intros [Hz Hnd]%NoDup_cons [->|Hx]%elem_of_cons [->|Hy]%elem_of_cons Heq; [done| | |auto].
  - exfalso. apply Hz. rewrite Heq. by apply list_elem_of_fmap_2.
  - exfalso. apply Hz. rewrite <- Heq. by apply list_elem_of_fmap_2.
Qed.

Section schedule.
Context {J : Type} {TV : TomlValues} {E : Type} {LM : Libm} {OB : Observables} {TC : @TaskCodec J TV E}.
Context (nan_below : bool) (allocation : IntegrationCampaignAllocationSpec) (grants : gmap i32 i64) (incumbents : list i32).

Notation ChildState := (@ChildState OB).
Notation le := (child_le nan_below allocation grants incumbents).

Definition child_key (c : ChildState) : list Z :=
  let pilot := needs_pilot (min_samples_per_child allocation) c in
  [- Z.b2z (unfinished grants c); - Z.b2z pilot;
   if pilot then work_samples c else - total_key nan_below (default 0%float (score (algorithm allocation) c));
   - Z.b2z (bool_decide (cs_run_id c ∈ incumbents)); cs_run_id c].

(** The comparison of the source is that of the keys. *)
Lemma child_le_key a b : le a b <-> lex_ltb (child_key b) (child_key a) = false.
Proof.
  rewrite <- lex_compare_le by done. unfold child_le.
  assert (child_cmp nan_below allocation grants incumbents a b = lex_compare (child_key a) (child_key b)) as ->; [|done].
  unfold child_cmp, child_key. cbv zeta. rewrite !bool_cmp_opp. cbn [lex_compare].
  destruct (Z.compare_spec (- Z.b2z (unfinished grants a)) (- Z.b2z (unfinished grants b))); [cbn [then_cmp]|done..].
  destruct (needs_pilot _ a), (needs_pilot _ b); cbn [Z.b2z then_cmp]; [| done | done |].
  - do 3 f_equal. by destruct (cs_run_id a ?= cs_run_id b).
  - change (- 0 ?= - 0) with Eq. cbn [then_cmp]. f_equal; [by rewrite Z.compare_opp|].
    f_equal. by destruct (cs_run_id a ?= cs_run_id b).
Qed.

#[export] Instance child_le_total : Total le.
Proof.
  intros a b. destruct (lex_ltb (child_key b) (child_key a)) eqn:Hba; [right|left; by apply child_le_key].
  apply child_le_key. destruct (lex_ltb (child_key a) (child_key b)) eqn:Hab; [|done].
  pose proof (lex_ltb_trans _ _ _ Hab Hba) as H. by rewrite lex_ltb_irrefl in H.
Qed.
#[export] Instance child_le_trans : Transitive le.
Proof. intros a b c Hab%child_le_key Hbc%child_le_key. apply child_le_key. by apply (lex_le_trans _ (child_key b)). Qed.

Lemma child_le_unfinished a b : le a b -> unfinished grants b = true -> unfinished grants a = true.
Proof.
  intros Hle%child_le_key Hb. destruct (unfinished grants a) eqn:Ha; [done|]. exfalso. revert Hle.
  unfold child_key. rewrite Ha, Hb. done.
Qed.

Lemma kept_elem states (eligible : gset i32) capacity id :
  id ∈ kept_incumbents states grants incumbents eligible capacity ->
  id ∈ incumbents /\ id ∈ eligible /\ still_running states grants id = true.
Proof. unfold kept_incumbents. intros H%elem_of_ztake. apply list_elem_of_filter in H. naive_solver. Qed.

Lemma still_running_state states c :
  NoDup (cs_run_id <$> states) -> c ∈ states -> still_running states grants (cs_run_id c) = true -> unfinished grants c = true.
Proof.
  intros Hnd Hc (c' & Hin & [Hid Hu]%andb_true_iff)%existsb_exists. apply list_elem_of_In in Hin. apply Z.eqb_eq in Hid.
  by rewrite <- (NoDup_fmap_eq cs_run_id states c' c).
Qed.

Lemma zlen_ztake_le {A} n (l : list A) : 0 <= n -> zlen (ztake n l) <= n.
Proof.
  intros Hn. destruct (Z.le_gt_cases n (zlen l)); [rewrite zlen_ztake by lia; lia|]. rewrite ztake_all by lia. lia.
Qed.

(** An element that was cut off: the cut is full, and everything kept precedes. *)
Lemma cut_sorted {A} (R : A -> A -> Prop) n (l : list A) x :
  0 <= n -> StronglySorted R l -> x ∈ l -> x ∉ ztake n l -> zlen (ztake n l) = n /\ forall y, y ∈ ztake n l -> R y x.
Proof.
  intros Hn Hs Hx Hcut. split.
  - destruct (Z.le_gt_cases n (zlen l)); [apply zlen_ztake; lia|]. rewrite ztake_all in Hcut by lia. done.
  - rewrite <- (ztake_zdrop n l) in Hs, Hx. apply elem_of_app in Hx as [?|Hx]; [done|]. intros y Hy.
    revert Hs Hy Hx. generalize (ztake n l), (zdrop n l). clear. intros l k.
    induction l as [|z l IH]; [by intros _ ?%elem_of_nil|]. cbn. intros [Hs Hz]%StronglySorted_inv [->|Hy]%elem_of_cons Hx; [|auto].
    rewrite Forall_forall in Hz. apply Hz, elem_of_app. by right.
Qed.

(** C9: the slots go where they are needed. The selected children are distinct,
    eligible and no more than the capacity. A child is left out only when every slot
    is taken, and then not for a worse one: a child whose granted quantum is not used
    up comes before any other, and whoever took a slot without an unfinished quantum
    of its own precedes the one left out in the order of the campaign (pilots by the
    least work, then the largest score; ties keep the incumbent, then the lower
    run). *)
Theorem slots_go_to_the_best (states : list ChildState) (eligible : gset i32) capacity :
  NoDup (cs_run_id <$> states) -> NoDup incumbents -> 0 <= capacity ->
  let selected := schedule_children nan_below states grants incumbents eligible allocation capacity in
  NoDup selected /\ zlen selected <= capacity /\
  (forall id, id ∈ selected -> id ∈ eligible /\ id ∈ cs_run_id <$> states) /\
  (forall c, c ∈ states -> cs_run_id c ∈ eligible -> cs_run_id c ∉ selected ->
    zlen selected = capacity /\
    forall c', c' ∈ states -> cs_run_id c' ∈ selected ->
      (unfinished grants c = true -> unfinished grants c' = true) /\ (unfinished grants c' = true \/ le c' c)).
Proof.
  intros Hnd Hinc Hcap selected. unfold selected, schedule_children.
  set (kept := kept_incumbents states grants incumbents eligible capacity).
  set (sorted := merge_sort _ _). set (room := usize_saturating_sub capacity (zlen kept)).
  assert (zlen kept <= capacity) as Hkept by by apply zlen_ztake_le.
  assert (room = capacity - zlen kept) as Hroom by (unfold room, usize_saturating_sub; lia).
  assert (sorted ≡ₚ candidates states kept eligible) as Hperm by apply merge_sort_Permutation.
  assert (forall c, c ∈ sorted <-> c ∈ states /\ cs_run_id c ∈ eligible /\ cs_run_id c ∉ kept) as Hsorted.
  { intros c. rewrite Hperm. unfold candidates. rewrite list_elem_of_filter. naive_solver. }
  assert (StronglySorted le sorted) as Hss by apply (StronglySorted_merge_sort le _).
  assert (forall id, id ∈ cs_run_id <$> ztake room sorted -> exists c, c ∈ ztake room sorted /\ id = cs_run_id c /\ c ∈ states /\
    cs_run_id c ∈ eligible /\ cs_run_id c ∉ kept) as Htaken.
  { intros id (c & -> & Hc)%list_elem_of_fmap. exists c. split; [done|]. split; [done|]. by apply elem_of_ztake, Hsorted in Hc. }
  split_and!.
  - apply NoDup_app. split_and!.
    + unfold kept, kept_incumbents. eapply sublist_NoDup; [|apply sublist_take]. by apply NoDup_filter.
    + intros id Hk (c & _ & -> & _ & _ & Hn)%Htaken. by apply Hn.
    + apply (sublist_NoDup _ (cs_run_id <$> sorted)); [|apply sublist_fmap, sublist_take].
      rewrite Hperm. unfold candidates. apply (sublist_NoDup _ (cs_run_id <$> states)); [done|apply sublist_fmap, sublist_filter].
  - rewrite zlen_app, zlen_map. pose proof (zlen_ztake_le room sorted ltac:(lia)). lia.
  - intros id [(_ & He & Hr)%kept_elem|(c & _ & -> & Hc & He & _)%Htaken]%elem_of_app; (split; [done|]).
    + apply existsb_exists in Hr as (c & Hin & [Hid _]%andb_true_iff). apply Z.eqb_eq in Hid as <-.
      by apply list_elem_of_fmap_2, list_elem_of_In.
    + by apply list_elem_of_fmap_2.
  - intros c Hc He Hout. assert (cs_run_id c ∉ kept) as Hk by (intros H; apply Hout, elem_of_app; by left).
    assert (c ∈ sorted) as Hin by by apply Hsorted.
    assert (c ∉ ztake room sorted) as Hcut by (intros H; apply Hout, elem_of_app; right; by apply list_elem_of_fmap_2).
    destruct (cut_sorted le room sorted c ltac:(lia) Hss Hin Hcut) as [Hlen Hbefore].
    split; [rewrite zlen_app, zlen_map; lia|]. intros c' Hc' [Hk'|(c2 & Ht & Heq & Hc2 & _)%Htaken]%elem_of_app.
    + apply kept_elem in Hk' as (_ & _ & Hr). pose proof (still_running_state _ _ Hnd Hc' Hr). naive_solver.
    + assert (c' = c2) as -> by by apply (NoDup_fmap_eq cs_run_id states).
      pose proof (Hbefore _ Ht) as Hle. split; [by apply child_le_unfinished|by right].
Qed.
End schedule.

(** ** Budgets *)

Lemma grant_requests_le requests grants remaining d d' grants' id g (bound : Z) :
  (forall total, (id, total) ∈ requests -> total <= bound) ->
  grant_requests requests grants remaining d = (d', Ok grants') -> grants' !! id = Some g ->
  exists g0, grants !! id = Some g0 /\ g <= Z.max g0 bound.
Proof.
  revert grants remaining d. induction requests as [|[child total] requests IH]; intros grants remaining d Hb Hr Hg; cbn in Hr.
  { injection Hr as <- <-. exists g. split; [done|lia]. }
  assert (forall total, (id, total) ∈ requests -> total <= bound) as Hb' by (intros ? ?; apply Hb; by right).
  destruct (grants !! child) as [g1|] eqn:H1; [|done]. destruct (_ =? 0); [by apply (IH _ _ _ Hb' Hr)|].
  destruct (IH _ _ _ Hb' Hr Hg) as (g0 & H0 & Hle). rewrite lookup_insert in H0. case_decide as Hc; [subst child|by exists g0].
  injection H0 as <-. exists g1. split; [done|]. specialize (Hb total ltac:(left)). unfold i64_saturating_sub, i64_min, i64_max in Hle. lia.
Qed.

Lemma allocate_le campaign requests d d' grants' id g (bound : Z) :
  (forall total, (id, total) ∈ requests -> total <= bound) ->
  allocate_campaign_samples campaign requests d = (d', Ok grants') -> grants' !! id = Some g ->
  g <= Z.max (Z.max (granted id d) (produced_of id d)) bound.
Proof.
  intros Hb Ha Hg. unfold allocate_campaign_samples, allocate_tx in Ha.
  destruct (campaigns d !! campaign) as [[limit open]|]; [|done].
  set (d1 := reclaim_budgets campaign (seed_budgets campaign d)) in Ha.
  assert (forall g0, grants_of campaign d1 !! id = Some g0 -> g0 <= Z.max (granted id d) (produced_of id d)) as Hinit.
  { intros g0 Hg0%lookup_grants_of. unfold d1 in Hg0. rewrite lookup_reclaim, lookup_seed in Hg0.
    change (produced_of id (seed_budgets campaign d)) with (produced_of id d) in Hg0. unfold granted.
    destruct (budgets d !! id) as [[c0 g1]|]; cbn in Hg0; [|case_decide; [|done]; cbn in Hg0];
      simplify_eq; destruct (_ && _); lia. }
  destruct (checked_total _) as [total|]; [|done]. destruct (_ <? _); [done|]. destruct open.
  - destruct (grant_requests _ _ _ _) as [d2 [grants2|e]] eqn:Er; [|done]. injection Ha as <- <-.
    destruct (grant_requests_le _ _ _ _ _ _ id g bound Hb Er Hg) as (g0 & H0 & Hle). specialize (Hinit _ H0). lia.
  - injection Ha as <- <-. specialize (Hinit _ Hg). lia.
Qed.

Lemma find_unique_key {A} (key : A -> Z) (l : list A) x :
  NoDup (key <$> l) -> x ∈ l -> find (fun y => key y =? key x) l = Some x.
Proof.
  induction l as [|y l IH]; [by intros _ ?%elem_of_nil|]. cbn. intros [Hy Hnd]%NoDup_cons [->|Hx]%elem_of_cons.
  { by rewrite Z.eqb_refl. }
  destruct (Z.eqb_spec (key y) (key x)) as [He|_]; [|by apply IH]. exfalso. apply Hy. rewrite He. by apply list_elem_of_fmap_2.
Qed.

Section requests.
Context {J : Type} {TV : TomlValues} {E : Type} {LM : Libm} {OB : Observables} {TC : @TaskCodec J TV E}.
Context (t : @RunTask J TV E) (stop : IntegrationCampaignStopCondition) (allocation : IntegrationCampaignAllocationSpec)
  (previous : option CampaignOutput).

Lemma requested_total (s : @Situation OB) selected c total :
  NoDup (cs_run_id <$> si_states s) -> c ∈ si_states s -> (cs_run_id c, total) ∈ requests_of stop allocation previous s selected ->
  is_draining stop allocation previous s = false /\ granted_to (si_grants s) (cs_run_id c) <= work_samples c /\
  total = i64_saturating_add (work_samples c) (quantum allocation c).
Proof.
  intros Hnd Hc Hin. unfold requests_of in Hin. destruct (can_allocate stop allocation previous s) eqn:Ecan; [|by apply elem_of_nil in Hin].
  apply andb_true_iff in Ecan as [_ Hdrain]. apply negb_true_iff in Hdrain. split; [done|].
  apply list_elem_of_omap in Hin as (id & _ & Hr). unfold request_for in Hr.
  destruct (find _ _) as [c'|] eqn:Ef; [|done]. cbn in Hr. destruct (unfinished _ c') eqn:Eu; [done|]. injection Hr as -> <-.
  rewrite (find_unique_key cs_run_id _ c Hnd Hc) in Ef. injection Ef as <-. split; [|done]. by apply Z.ltb_ge in Eu.
Qed.

Lemma requested_window (s : @Situation OB) selected c total :
  NoDup (cs_run_id <$> si_states s) -> c ∈ si_states s -> 0 <= work_samples c -> 0 < allocation_window_samples allocation ->
  (cs_run_id c, total) ∈ requests_of stop allocation previous s selected ->
  total <= work_samples c + allocation_window_samples allocation.
Proof.
  intros Hnd Hc H0 Hw Hin. destruct (requested_total s selected c total Hnd Hc Hin) as (_ & _ & ->).
  unfold i64_saturating_add, quantum, i64_min, i64_max.
  destruct (_ && _) eqn:Ep; [apply andb_true_iff in Ep as [_ Ep%Z.ltb_lt]|]; lia.
Qed.

(** C10: the budgets of a campaign run at most one allocation window ahead of its work.
    Whatever the controller asks for, after the allocation the grant of a child is at
    most what it was (or what the child had produced), or its accepted samples plus
    one window; and a grant only grows if the child had drawn and accepted all it was
    granted before and the campaign is not draining. *)
Theorem budgets_one_window_ahead (s : @Situation OB) selected b b' grants' c g :
  NoDup (cs_run_id <$> si_states s) -> c ∈ si_states s -> 0 <= work_samples c -> 0 < allocation_window_samples allocation ->
  allocate_campaign_samples (task_id t) (requests_of stop allocation previous s selected) b = (b', Ok grants') ->
  grants' !! cs_run_id c = Some g ->
  let before := Z.max (granted (cs_run_id c) b) (produced_of (cs_run_id c) b) in
  g <= Z.max before (work_samples c + allocation_window_samples allocation) /\
  (before < g -> granted_to (si_grants s) (cs_run_id c) <= work_samples c /\ is_draining stop allocation previous s = false).
Proof.
  intros Hnd Hc H0 Hw Ha Hg before. split.
  - apply (allocate_le _ _ _ _ _ _ _ _ ltac:(intros total; by apply (requested_window s selected c total)) Ha Hg).
  - intros Hlt. destruct (decide (Exists (fun r => r.1 = cs_run_id c) (requests_of stop allocation previous s selected))) as [Hr|Hr].
    + apply Exists_exists in Hr as ([id total] & Hin & Hid). cbn in Hid. subst id.
      by destruct (requested_total s selected c total Hnd Hc Hin) as (Hd & Hu & _).
    + exfalso. assert (g <= Z.max before before); [|lia]. refine (allocate_le _ _ _ _ _ _ _ before _ Ha Hg).
      intros total Hin. destruct Hr. apply Exists_exists. by exists (cs_run_id c, total).
Qed.
End requests.

(** ** Ends *)

Section ends.
Context {J : Type} {TV : TomlValues} {E : Type} {LM : Libm} {OB : Observables} {TC : @TaskCodec J TV E}.
Context {AJ : @AccumulatorJson OB}.
Context {W : Type} {CS : @ControllerStore J TV E OB TC CampaignOutput W} {CT : CampaignStore W}.
Context (nan_below : bool) (run : i32) (t : @RunTask J TV E) (children : list IntegrationCampaignChildSpec)
  (measurement : TaskMeasurementSpec) (stop : IntegrationCampaignStopCondition) (allocation : IntegrationCampaignAllocationSpec)
  (previous : option CampaignOutput).

Notation Situation := (@Situation OB).
Notation gathers := (gather run t children measurement previous).
Notation concludes := (conclude nan_below run t stop allocation previous).

(** *** Outstanding work *)

Lemma outstanding_state (s : Situation) :
  si_outstanding s = true -> exists c, c ∈ si_states s /\ is_completed c = false /\ unfinished (si_grants s) c = true.
Proof.
  intros (c & Hc & [Hd Hu]%andb_true_iff)%existsb_exists. exists c. apply negb_true_iff in Hd. by rewrite list_elem_of_In.
Qed.

Lemma outstanding_eligible (s : Situation) c :
  c ∈ si_states s -> is_completed c = false -> unfinished (si_grants s) c = true -> cs_run_id c ∈ eligible stop allocation previous s.
Proof.
  intros Hc Hd Hu. apply elem_of_list_to_set, list_elem_of_fmap_2, list_elem_of_filter. split; [|done]. by rewrite Hu, orb_true_r.
Qed.

Lemma schedule_takes_unfinished (states : list (@ChildState OB)) grants incumbents eligible capacity c :
  0 < capacity -> c ∈ states -> cs_run_id c ∈ eligible -> unfinished grants c = true ->
  exists c', c' ∈ states /\ cs_run_id c' ∈ schedule_children nan_below states grants incumbents eligible allocation capacity /\
    unfinished grants c' = true.
Proof.
  intros Hcap Hc He Hu. unfold schedule_children.
  destruct (kept_incumbents states grants incumbents eligible capacity) as [|id kept] eqn:Ek.
  - set (sorted := merge_sort _ _). assert (sorted ≡ₚ candidates states [] eligible) as Hperm by apply merge_sort_Permutation.
    assert (c ∈ sorted) as Hin by (rewrite Hperm; apply list_elem_of_filter; split; [split; [done|apply not_elem_of_nil]|done]).
    pose proof (StronglySorted_merge_sort (child_le nan_below allocation grants incumbents) (candidates states [] eligible)) as Hs.
    fold sorted in Hs. destruct sorted as [|h l]; [by apply elem_of_nil in Hin|]. exists h.
    assert (h ∈ candidates states [] eligible) as Hh by (rewrite <- Hperm; left). apply list_elem_of_filter in Hh as [_ Hh].
    split; [done|]. split.
    + unfold usize_saturating_sub, zlen. cbn [length app]. replace (Z.max 0 (capacity - Z.of_nat 0)) with capacity by lia.
      unfold ztake. destruct (Z.to_nat capacity) eqn:En; [lia|]. cbn. left.
    + apply elem_of_cons in Hin as [->|Hin]; [done|]. apply StronglySorted_inv in Hs as [_ Hs]. rewrite Forall_forall in Hs.
      by apply (child_le_unfinished nan_below allocation grants incumbents h c (Hs c Hin)).
  - assert (id ∈ kept_incumbents states grants incumbents eligible capacity) as (_ & _ & Hr)%kept_elem by (rewrite Ek; left).
    apply existsb_exists in Hr as (c' & Hin & [Hid Hu']%andb_true_iff). apply Z.eqb_eq in Hid as <-. exists c'.
    split; [by apply list_elem_of_In|]. split; [by left|done].
Qed.

(** C8: granted work is never abandoned. While a child that is not finished has part
    of its granted samples to draw, and no child has failed, a tick neither completes
    nor fails the campaign, even if its error target is met: it goes on, and as soon
    as there are workers for one child, a child with granted work is selected. *)
Theorem granted_work_goes_on (s : Situation) :
  si_failure stop s = None -> si_outstanding s = true ->
  concludes s = go_on nan_below run t stop allocation previous s /\
  (0 < capacity_of run allocation s ->
   exists c, c ∈ si_states s /\ cs_run_id c ∈ selection nan_below run stop allocation previous s /\ unfinished (si_grants s) c = true).
Proof.
  intros Hf Ho. destruct (outstanding_state s Ho) as (c & Hc & Hd & Hu). pose proof (outstanding_eligible s c Hc Hd Hu) as He.
  split.
  - unfold conclude. rewrite Hf, Ho, andb_false_r. rewrite bool_decide_false; [done|]. intros Hempty. rewrite Hempty in He. set_solver.
  - intros Hcap. unfold selection. by apply (schedule_takes_unfinished _ _ _ _ _ c).
Qed.

(** *** Completion *)

Class KeepsResults (P : W -> Prop) := keeps_results run id r : stable P (ct_persist_result_snapshot run id r).
Context (P : W -> Prop) {OC : OnlyCompletion P} {KR : KeepsResults P}.
Local Hint Resolve keeps_results : stable.

Lemma open_observe_children by_label l : stable P (observe_children measurement previous by_label l).
Proof.
  induction l as [|c l IH]; cbn [observe_children]; [apply stable_ret|].
  unfold observe_child, load_published_child_result, latest_throughput. stable_auto.
Qed.
Lemma open_create_children l by_label : stable P (create_children run t l by_label).
Proof.
  revert by_label. induction l as [|c l IH]; intros by_label; cbn [create_children]; [apply stable_ret|].
  destruct (bool_decide _); [done|]. apply stable_bind; [apply stable_service; auto with stable|auto].
Qed.
Local Hint Resolve open_observe_children open_create_children : stable.

Lemma open_gather : stable P gathers.
Proof. unfold gather, load_controller_children, persist_derived_result. stable_auto. Qed.

Lemma open_conclude s : (target_reached stop allocation s && negb (si_outstanding s) && negb (child_running s) = true -> is_Some (si_failure stop s)) ->
  stable P (concludes s).
Proof.
  intros Hend. unfold conclude, conclude_failed, conclude_reached, go_on, persist_output, finish, finish_controller.
  destruct (si_failure stop s) as [reason|]; [stable_auto|].
  destruct (target_reached stop allocation s && negb (si_outstanding s)) eqn:Et; [|stable_auto].
  destruct (child_running s); [stable_auto|]. by destruct (Hend eq_refl).
Qed.

(** C7: a campaign completes when its work is in. If a tick completes the task of the
    campaign, then no child had failed, the results of all children combine to an
    estimate that meets the stop condition, every granted sample of an unfinished
    child had been drawn and accepted, and no worker was running a child any more. *)
Theorem campaign_completes_drained w w' r :
  P w -> campaign_tick nan_below run t children measurement stop allocation previous w = (w', r) -> ~ P w' ->
  exists s w1 results,
    gathers w = (w1, Ok s) /\ first_failure (si_states s) = None /\ combine_measurements (si_states s) = Some results /\
    campaign_should_stop results (zsum (map work_samples (si_states s))) (pilots_complete allocation s) stop = true /\
    (forall c, c ∈ si_states s -> is_completed c = false -> granted_to (si_grants s) (cs_run_id c) <= work_samples c) /\
    (forall n a, n ∈ si_workers s -> ln_current n = Some a -> run_id a ∉ si_ids s).
Proof.
  intros HP Htick Hend. unfold campaign_tick, se_bind in Htick. pose proof (open_gather w HP) as Hg.
  destruct (gathers w) as [w1 [s|e]] eqn:Eg; [|by injection Htick as <- _].
  destruct (decide (target_reached stop allocation s && negb (si_outstanding s) && negb (child_running s) = true /\ si_failure stop s = None)) as [[Hd Hf]|Hd].
  - apply andb_true_iff in Hd as [[Ht Ho]%andb_true_iff Hc]. apply negb_true_iff in Ho, Hc.
    unfold target_reached in Ht. destruct (si_combined s) as [results|] eqn:Hr; [|done].
    exists s, w1, results. split_and!; [done| |done|exact Ht| |].
    + unfold si_failure in Hf. by destruct (first_failure _).
    + intros c Hin Hopen. apply existsb_false in Ho. rewrite Forall_forall in Ho. specialize (Ho c Hin). cbn in Ho.
      rewrite Hopen in Ho. unfold unfinished in Ho. cbn in Ho. by apply Z.ltb_ge in Ho.
    + intros n a Hin Ha Hid. apply existsb_false in Hc. rewrite Forall_forall in Hc. specialize (Hc n Hin). cbn in Hc.
      rewrite Ha in Hc. by apply bool_decide_eq_false in Hc.
  - exfalso. apply Hend. pose proof (open_conclude s) as Hs. specialize (Hs ltac:(intros H; destruct (si_failure stop s); [done|]; destruct Hd; by split) w1 Hg).
    rewrite Htick in Hs. by destruct r.
Qed.
End ends.
