(* ===== verification/CampaignInstance.v ===== *)
(** The tables of the deployment as the world of an integration campaign: tasks,
    nodes, sample budgets and performance records. Any request may be lost, or its
    answer, and anything the other processes do may happen before it. No
    request of the controller but the completion itself completes the task. *)
From S2P Require Import Prelude Floats Errors CampaignBudget Domain Batch Config LatentBatch Generation AccumulatorTrait Scalar Stratification Vector FullVector Gammaloop Stratified AccumulatorState Extraction Evaluation Raster Metrics WorkQueue Assignments ControlPlane Queue Tasks Runner TaskStore TaskQueue StageContext StageResolution TaskControl TaskControlLaws Evaluator EvaluatorLaws EvaluatorDrain EvaluatorInstance NodeRunner NodeLaws NodeInstance Json ChildResults ControllerLaws Campaign CampaignLaws.

Section instance.
Context {J : Type} {TV : TomlValues} {E : Type} {LM : Libm} {OB : Observables} {TC : @TaskCodec J TV E}.

Notation ControlWorld := (@ControlWorld J TV E OB TC).
Notation TaskTables := (@TaskTables J TV E OB TC).
Notation RunTaskRow := (@RunTaskRow J TV E TC).
Notation RunTaskInput := (@RunTaskInput J TV E).
Notation RunStageSnapshot := (@RunStageSnapshot J E OB).
Notation Tx := (@Tx J TV E OB TC).

(** Reading an accumulator, writing the output of a controller, and the child
    definition of src/api/run_definition.rs, are given. *)
Context {Output : Type}.
Context (read_accumulator : json_value -> result string AccumulatorState).
Context (controller_output_of : Output -> ControllerTaskOutput).
Context (instantiate_child : ChildRunSource -> gmap string toml -> result string (string * RunStageSnapshot * list RunTaskInput)).
Context (server : Server).

Record CampaignDb := mkCampaignDb {
  cd_control : ControlWorld;
  (** campaign_sample_budgets *)
  cd_budgets : gmap i32 (i64 * i64);
  cd_rates : gmap i32 (list f64);
  (** the derived results, newest first *)
  cd_results : list (i64 * DerivedResultSnapshot)
}.
Definition cd_tasks (d : CampaignDb) : TaskTables := cw_tasks (cd_control d).
Definition put_cd_tasks (x : TaskTables) (d : CampaignDb) : CampaignDb :=
  mkCampaignDb (set_cw_tasks x (cd_control d)) (cd_budgets d) (cd_rates d) (cd_results d).
Definition put_cd_nodes (x : gmap string NodeRow) (d : CampaignDb) : CampaignDb :=
  mkCampaignDb (set_cw_nodes x (cd_control d)) (cd_budgets d) (cd_rates d) (cd_results d).
Definition put_cd_budgets (x : gmap i32 (i64 * i64)) (d : CampaignDb) : CampaignDb :=
  mkCampaignDb (cd_control d) x (cd_rates d) (cd_results d).

(** The columns the budget statements read. *)
Definition campaign_row (r : RunTaskRow) : option (option i64 * bool) :=
  match decode_task (rt_task r) with
  | Ok (IntegrationCampaign _ _ stop _) => Some (max_total_samples stop, is_active r)
  | _ => None
  end.
Definition task_count (r : RunTaskRow) : TaskCount := mkTaskCount (rt_run_id r) (rt_produced r) (bool_decide (rt_state r = TCompleted)).
Definition budget_view (d : CampaignDb) : BudgetDB :=
  mkBudgetDB (omap campaign_row (run_tasks (cd_tasks d)))
    (omap (fun row => p ← runs_parent row; parent_task_id p) (runs_rows (cd_tasks d)))
    (task_count <$> run_tasks (cd_tasks d)) (cd_budgets d).

(** *** Requests *)

Record CampaignWorld := mkCampaignWorld { cg_db : CampaignDb; cg_turns : list (Turn CampaignDb); cg_now : i64 }.

Definition campaign_request {Er X} (lost : Er) (f : i64 -> CampaignDb -> CampaignDb * result Er X) (w : CampaignWorld)
    : CampaignWorld * result Er X :=
  match cg_turns w with
  | [] => let '(d, r) := f (cg_now w) (cg_db w) in (mkCampaignWorld d [] (cg_now w), r)
  | t :: ts =>
      let now := cg_now w + tn_clock t in
      let d := tn_before t (cg_db w) in
      match tn_delivery t with
      | RequestLost => (mkCampaignWorld d ts now, Err lost)
      | Delivered => let '(d, r) := f now d in (mkCampaignWorld d ts now, r)
      | ReplyLost => (mkCampaignWorld (f now d).1 ts now, Err lost)
      end
  end.

Definition on_cd_tasks {X} (f : i64 -> Tx X) : i64 -> CampaignDb -> CampaignDb * result StoreError X :=
  fun now d => let '(t, r) := f now (cd_tasks d) in (put_cd_tasks t d, r).
Definition reading {Er X} (f : i64 -> CampaignDb -> result Er X) : i64 -> CampaignDb -> CampaignDb * result Er X :=
  fun now d => (d, f now d).
Notation request := (campaign_request connection_lost).

(** ORDER BY started_at DESC, id DESC: runs start in the order of their ids. *)
Definition child_runs (run : i32) (task : i64) (kind : string) (d : TaskTables) : list (option string * i32) :=
  rev (omap (fun p : i32 * RunsRow =>
    parent ← runs_parent p.2;
    if (parent_run_id parent =? run) && bool_decide (parent_task_id parent = Some task) && String.eqb (spawn_kind parent) kind
    then Some (spawn_label parent, p.1) else None) (by_key (runs_rows d))).

Definition create_child_run (now : i64) (r : ChildRunRequest) (d : CampaignDb) : CampaignDb * result string i32 :=
  let kind := trim (cr_spawn_kind r) in
  if is_empty kind then (d, Err "child run spawn_kind must be non-empty"%string)
  else
    match instantiate_child (cr_run r) (cr_replacements r) with
    | Err e => (d, Err e)
    | Ok (name, initial, tasks) =>
        let parent := mkParent (cr_parent_run_id r) (Some (cr_parent_task_id r)) kind (Some (cr_spawn_label r)) in
        let '(t, x) := create_run now name initial tasks (Some parent) (cd_tasks d) in
        (put_cd_tasks t d, map_err store_error_message x)
    end.

(** ORDER BY id DESC LIMIT 1 *)
Definition latest_task_snapshot (run : i32) (task : i64) (d : TaskTables) : option (i64 * SnapshotRow) :=
  find (fun p => (sn_run_id p.2 =? run) && bool_decide (stage_task_id (sn_stage p.2) = Some task))
    (rev (by_key (run_stage_snapshots d))).
Definition get_latest_task_stage_snapshot (run : i32) (task : i64) (d : TaskTables) : result StoreError (option (string * AccumulatorState)) :=
  match latest_task_snapshot run task d with
  | None => Ok None
  | Some (id, p) =>
      match stage_observable_state (sn_stage p) with
      | Some a => Ok (Some (Scalar.show_i64 id, a))
      | None => Err (Database "failed to decode observable_state from run_stage_snapshots")
      end
  end.

Definition listed_nodes (now : i64) (d : CampaignDb) : list ListedNode :=
  (fun p : string * NodeRow => mkListed (Assignments.mkNode p.1 (nr_uuid p.2) (wanted p.2)) (ControlPlane.active p.2))
    <$> by_name (filter (fun p => ControlPlane.live now p.2 = true) (cw_nodes (cd_control d))).

Definition update_desired (now : i64) (updates : list NodeAssignmentUpdate) (d : CampaignDb) : CampaignDb * result StoreError bool :=
  let '(t, r) := update_desired_assignments server now updates (control_tables (cd_control d)) in
  (put_cd_nodes (nodes t) d, map_err map_sqlx r).

Definition allocate (campaign : i64) (requests : list (i32 * i64)) (d : CampaignDb) : CampaignDb * result StoreError (gmap i32 i64) :=
  let '(b, r) := allocate_campaign_samples campaign requests (budget_view d) in
  (put_cd_budgets (budgets b) d, map_err map_sqlx r).

#[export] Instance campaign_store : @ControllerStore J TV E OB TC Output CampaignWorld := {
  cs_child_runs run id kind := request (reading (fun _ d => Ok (child_runs run id kind (cd_tasks d))));
  cs_create_child_run r := campaign_request (store_error_message connection_lost) (fun now => create_child_run now r);
  cs_list_run_tasks run := request (reading (fun _ d => list_run_tasks run (cd_tasks d)));
  cs_current_accumulator run := request (reading (fun _ d =>
    Ok (read_accumulator <$> (row ← runs_rows (cd_tasks d) !! run; current_observable row))));
  cs_task_snapshot run id := request (reading (fun _ d => get_latest_task_stage_snapshot run id (cd_tasks d)));
  cs_task_snapshot_id run id := request (reading (fun _ d =>
    Ok ((fun p => Scalar.show_i64 p.1) <$> latest_task_snapshot run id (cd_tasks d))));
  cs_sampler_performance run := request (reading (fun _ d => Ok (take 1 (default [] (cd_rates d !! run)))));
  cs_worker_pool_branches run := request (reading (fun _ d => Ok (worker_pool_branches run (control_tables (cd_control d)))));
  cs_list_nodes := request (reading (fun now d => Ok (listed_nodes now d)));
  cs_update_desired_assignments updates := request (fun now => update_desired now updates);
  cs_allocate_campaign_samples id requests := request (fun _ => allocate id requests);
  cs_persist_controller_output id o := request (on_cd_tasks (fun _ => persist_task_controller_output id (controller_output_of o)));
  cs_persist_measurement_output id o := request (on_cd_tasks (fun _ => persist_task_measurement_output id o));
  cs_update_run_task_progress id produced completed := request (on_cd_tasks (fun _ => update_run_task_progress id produced completed));
  cs_complete_run_task id := request (on_cd_tasks (fun now => complete_run_task now id));
  cs_fail_run_task id reason := request (on_cd_tasks (fun now => fail_run_task now id reason))
}.
#[export] Instance campaign_results : CampaignStore CampaignWorld := {
  ct_persist_result_snapshot _ id r := request (fun _ d =>
    let n := zlen (cd_results d) + 1 in
    (mkCampaignDb (cd_control d) (cd_budgets d) (cd_rates d) ((id, r) :: cd_results d), Ok (Scalar.show_i64 n)))
}.

(** *** What requests keep *)

Definition turns_keep (P : CampaignDb -> Prop) (w : CampaignWorld) : Prop :=
  P (cg_db w) /\ Forall (fun t : Turn CampaignDb => forall d, P d -> P (tn_before t d)) (cg_turns w).

Lemma request_stable {Er X} (lost : Er) (P : CampaignDb -> Prop) (f : i64 -> CampaignDb -> CampaignDb * result Er X) :
  (forall now d, P d -> P (f now d).1) -> stable (turns_keep P) (campaign_request lost f).
Proof.
  intros Hf w [HP Hts]. unfold campaign_request. destruct (cg_turns w) as [|t ts] eqn:Et.
  - pose proof (Hf (cg_now w) (cg_db w) HP). destruct (f _ _) as [d [x|e]]; split; cbn; done.
  - apply Forall_cons in Hts as [Ht Hts]. specialize (Ht _ HP). set (now := cg_now w + tn_clock t).
    pose proof (Hf now _ Ht) as Hd. destruct (tn_delivery t); cbn; [|by split|by split].
    destruct (f now _) as [d [x|e]]; by split.
Qed.

Lemma reading_stable {Er X} (lost : Er) (P : CampaignDb -> Prop) (f : i64 -> CampaignDb -> result Er X) :
  stable (turns_keep P) (campaign_request lost (reading f)).
Proof. by apply request_stable. Qed.

Lemma on_tasks_keeps (P : CampaignDb -> Prop) (Q : TaskTables -> Prop) {X} (f : i64 -> Tx X) :
  (forall now, stable Q (f now)) -> (forall d, P d -> Q (cd_tasks d)) -> (forall d x, P d -> Q x -> P (put_cd_tasks x d)) ->
  forall now d, P d -> P (on_cd_tasks f now d).1.
Proof.
  intros Hf HQ HP now d Hd. unfold on_cd_tasks. specialize (Hf now (cd_tasks d) (HQ d Hd)).
  destruct (f now (cd_tasks d)) as [t [x|e]]; by apply HP.
Qed.

(** Every request but the completion keeps what the statements on the tasks keep. *)
Lemma requests_keep (Q : TaskTables -> Prop) :
  (forall now name initial tasks parent, stable Q (create_run now name initial tasks parent)) ->
  (forall id o, stable Q (persist_task_controller_output id o)) -> (forall id o, stable Q (persist_task_measurement_output id o)) ->
  (forall id produced completed, stable Q (update_run_task_progress id produced completed)) ->
  (forall now id reason, stable Q (fail_run_task now id reason)) ->
  OnlyCompletion (CS:=campaign_store) (turns_keep (fun d => Q (cd_tasks d))).
Proof.
  intros Hcreate Hcontroller Hmeasurement Hprogress Hfail.
  split; intros; cbn [campaign_store campaign_results cs_child_runs cs_create_child_run cs_list_run_tasks cs_current_accumulator
    cs_task_snapshot cs_task_snapshot_id cs_sampler_performance cs_worker_pool_branches cs_list_nodes cs_update_desired_assignments
    cs_allocate_campaign_samples cs_persist_controller_output cs_persist_measurement_output cs_update_run_task_progress cs_fail_run_task];
    try apply reading_stable; apply request_stable; try (apply (on_tasks_keeps (fun d => Q (cd_tasks d)) Q); auto; done).
  - intros now d Hd. unfold create_child_run. destruct (is_empty _); [done|]. destruct (instantiate_child _ _) as [[[name initial] tasks]|e]; [|done].
    cbv zeta. match goal with |- context [create_run now name initial tasks ?p] => pose proof (Hcreate now name initial tasks p (cd_tasks d) Hd) as H;
      destruct (create_run now name initial tasks p (cd_tasks d)) as [t' [x|e]] end; exact H.
  - intros now d Hd. unfold update_desired. by destruct (update_desired_assignments _ _ _ _) as [t r].
  - intros now d Hd. unfold allocate. by destruct (allocate_campaign_samples _ _ _) as [b r].
Qed.

(** *** The task of the campaign stays open *)

Section open.
Context (id0 : i64).

Definition open_task (d : TaskTables) : Prop := forall r, run_tasks d !! id0 = Some r -> rt_state r <> TCompleted.

Lemma write_row_open id r : (id = id0 -> rt_state r <> TCompleted) -> stable open_task (write_row id r).
Proof.
  intros Hr d Hd. unfold write_row. destruct (row_conflict _ _ _); [done|]. intros r'. cbn. rewrite lookup_insert.
  case_decide as Hi; [|apply Hd]. intros [= <-]. auto.
Qed.
Lemma update_row_open id p f : (forall r, rt_state r <> TCompleted -> rt_state (f r) <> TCompleted) -> stable open_task (update_row id p f).
Proof.
  intros Hf d Hd. unfold update_row. destruct (run_tasks d !! id) as [r|] eqn:Er; [|done]. destruct (p r); [|done].
  apply (stable_bind open_task); [|intros; apply stable_ret|done]. apply write_row_open. intros ->. by apply Hf, Hd.
Qed.
Lemma transaction_open {X} (m : Tx X) : stable open_task m -> stable open_task (transaction m).
Proof. intros Hm d Hd. specialize (Hm d Hd). unfold transaction. by destruct (m d) as [d' [x|e]]. Qed.
Lemma insert_row_open r : rt_state r <> TCompleted -> stable open_task (insert_row r).
Proof.
  intros Hr d Hd. unfold insert_row. cbv zeta. destruct (bool_decide _); [|done].
  apply (stable_bind open_task); [|intros; apply stable_ret|done]. by apply write_row_open.
Qed.
Lemma insert_initial_tasks_open now run next tasks : stable open_task (insert_initial_tasks now run next tasks).
Proof.
  revert next. induction tasks as [|input tasks IH]; intros next; cbn [insert_initial_tasks]; [apply stable_ret|]. cbv zeta.
  do 3 (apply stable_bind; [first [apply stable_lift | by apply insert_row_open]|intros ?]). apply IH.
Qed.
Lemma insert_snapshot_open now run s : stable open_task (insert_run_stage_snapshot now run s).
Proof. intros d Hd. unfold insert_run_stage_snapshot. cbv zeta. destruct (negb _); [done|]. destruct (stage_task_id s); repeat (destruct (_ : bool)); done. Qed.

Lemma create_run_open now name initial tasks parent : stable open_task (create_run now name initial tasks parent).
Proof.
  assert (stable open_task (create_new_run now name initial tasks parent)) as Hnew.
  { unfold create_new_run. apply stable_bind; [by intros d Hd|intros id]. apply stable_bind; [apply insert_snapshot_open|intros s].
    apply stable_bind; [apply insert_initial_tasks_open|intros; apply stable_ret]. }
  apply transaction_open. destruct parent as [p|]; [|done]. apply stable_bind.
  { intros d Hd. unfold lock_run. by destruct (bool_decide _). }
  intros []. apply stable_bind; [by intros d Hd|]. by intros [id|]; [apply stable_ret|].
Qed.

Lemma outputs_open id value (g : json_value -> RunTaskRow -> RunTaskRow) :
  (forall v r, rt_state (g v r) = rt_state r) -> stable open_task (let! v := se_lift (E:=StoreError) value in update_task id (fun _ => true) (g v)).
Proof.
  intros Hg. apply stable_bind; [apply stable_lift|intros v]. unfold update_task.
  apply stable_bind; [apply update_row_open; intros r; by rewrite Hg|intros; apply stable_ret].
Qed.

Lemma progress_open id produced completed : stable open_task (update_run_task_progress id produced completed).
Proof. unfold update_run_task_progress, update_task. apply stable_bind; [by apply update_row_open|intros; apply stable_ret]. Qed.
Lemma fail_open now id reason : stable open_task (fail_run_task now id reason).
Proof. apply transaction_open. unfold update_task. apply stable_bind; [by apply update_row_open|intros; apply stable_ret]. Qed.

(** The environment keeps the task open too: only its controller completes it. *)
Definition task_open : CampaignWorld -> Prop := turns_keep (fun d => open_task (cd_tasks d)).

#[export] Instance controller_alone_completes : OnlyCompletion (CS:=campaign_store) task_open.
Proof.
  apply requests_keep; intros.
  - apply create_run_open.
  - by apply outputs_open.
  - by apply outputs_open.
  - apply progress_open.
  - apply fail_open.
Qed.
#[export] Instance results_keep_it_open : KeepsResults task_open.
Proof. intros run id r. by apply request_stable. Qed.
End open.
End instance.
