(* ===== verification/CampaignExamples.v ===== *)
(** A campaign over one child: it creates its child, places the workers of its pool on
    it, draws the last samples of the budget and completes; the instances of the
    properties of campaigns. *)
From S2P Require Import Prelude Floats Errors CampaignBudget Domain Batch Config LatentBatch Generation AccumulatorTrait Scalar Stratification Vector FullVector Gammaloop Stratified AccumulatorState Extraction Evaluation Raster Metrics WorkQueue Assignments ControlPlane Queue Tasks Runner TaskStore TaskQueue StageContext StageResolution TaskControl TaskControlLaws Evaluator EvaluatorLaws EvaluatorDrain EvaluatorInstance EvaluatorExamples NodeRunner NodeLaws NodeInstance Json ChildResults ControllerLaws Campaign CampaignLaws CampaignInstance.

#[local] Existing Instances ex_libm ex_observables ex_toml ex_states.

(** ** The task *)

Definition ca_children : list IntegrationCampaignChildSpec := [mkCampaignChild "a" 2%float (InlineRun "a") []].
Definition ca_measurement : TaskMeasurementSpec := task_measurement_default.
Definition ca_stop : IntegrationCampaignStopCondition := mkCampaignStop 0 (Some 10) None None.
Definition ca_allocation : IntegrationCampaignAllocationSpec := mkAllocation LargestVariance 1 1 100 2.
Definition ca_spec : @RunTaskSpec unit ex_toml unit := IntegrationCampaign ca_children ca_measurement ca_stop ca_allocation.

#[local] Instance ca_codec : @TaskCodec unit ex_toml unit := {|
  json_value := string;
  ControllerTaskOutput := CampaignOutput;
  encode_task t := Ok (task_kind_str t);
  decode_task v := if String.eqb v "sample" then Ok ex_sample else Ok ca_spec;
  encode_measurement _ := Ok "measured"%string;
  decode_measurement _ := Ok (MeasurementFailed "");
  encode_controller _ := Ok "output"%string;
  decode_controller _ := Err "output"%string;
  canonical_task_toml _ := Ok ""%string
|}.
#[local] Instance ca_json : @AccumulatorJson ex_observables := {| Campaign.accumulator_json _ := None |}.

Definition ca_root : @RunStageSnapshot unit unit ex_observables := mkStageSnapshot None "root" None true None None (Some tt) [].
Definition ca_instantiate (_ : ChildRunSource) (_ : gmap string unit) : result string (string * _ * list _) :=
  Ok ("a"%string, ca_root, [mkTaskInput (Some "integrate"%string) ex_sample]).
Definition ten_points : AccumulatorState := accumulator (ex_result (replicate 10 (point_new [0.5%float] [] 1%float))).
Definition ca_read (_ : string) : result string AccumulatorState := Ok ten_points.

Notation CaDb := (@CampaignDb unit ex_toml unit ex_observables ca_codec).
Notation CaWorld := (@CampaignWorld unit ex_toml unit ex_observables ca_codec).

Definition ca_server : Server := mkServer 100 3.
#[local] Instance ca_store : @ControllerStore unit ex_toml unit ex_observables ca_codec CampaignOutput CaWorld :=
  campaign_store ca_read id ca_instantiate ca_server.
#[local] Instance ca_results : CampaignStore CaWorld := campaign_results.

(** Run 1 is the campaign; one sampler and one evaluator are in its pool. *)
Definition ca_created : @TaskTables unit ex_toml unit ex_observables ca_codec :=
  (activate_next_run_task 1 1 (create_run 0 "campaign" ca_root [mkTaskInput None ca_spec] None empty_tables).1).1.
Definition ca_node (uuid : string) (r : WorkerRole) : NodeRow :=
  let target := Some (mkTarget r 1) in ControlPlane.mkNodeRow uuid 1000 target target None false None None false.
Definition ca_nodes : gmap string NodeRow :=
  {["s"%string := ca_node "us" SamplerAggregator; "e"%string := ca_node "ue" WorkQueue.Evaluator]}.
Definition ca_kinds : gmap i32 string := {[1 := "integration_campaign"%string; 2 := "integration"%string]}.
Definition ca_world (t : @TaskTables unit ex_toml unit ex_observables ca_codec) nodes budgets turns : CaWorld :=
  mkCampaignWorld (mkCampaignDb (mkControl t ca_kinds nodes ∅) budgets ∅ []) turns 2.

Definition ca_task : @RunTask unit ex_toml unit := mkRunTask 1 1 "campaign" 1 ca_spec TActive 0 0 None.
Definition ca_tick (w : CaWorld) := campaign_tick false 1 ca_task ca_children ca_measurement ca_stop ca_allocation None w.
Definition ca_gather (w : CaWorld) := gather 1 ca_task ca_children ca_measurement None w.

(** The first tick creates run 2 and gives it a budget and the workers. *)
Definition ca_begun : CaWorld * result StoreError bool := ca_tick (ca_world ca_created ca_nodes ∅ []).

Definition placements_of (w : CaWorld) : list (string * option AssignmentTarget) :=
  (fun p => (p.1, wanted p.2)) <$> map_to_list (cw_nodes (cd_control (cg_db w))).
Example ca_begins :
  ca_begun.2 = Ok false /\ cd_budgets (cg_db ca_begun.1) = {[2 := (1, 2)]} /\
  placements_of ca_begun.1 = [("s", Some (mkTarget SamplerAggregator 2)); ("e", Some (mkTarget WorkQueue.Evaluator 2))]%string.
Proof. vm_compute. auto. Qed.

(** The child at work, [n] of its samples drawn. *)
Definition ca_child_tasks (n : i64) : @TaskTables unit ex_toml unit ex_observables ca_codec :=
  let t := (activate_next_run_task 3 2 (cw_tasks (cd_control (cg_db ca_begun.1)))).1 in
  let t := set_runs (alter (fun r => mkRunsRow (runs_name r) (runs_parent r) (Some "live"%string)) 2 (runs_rows t)) t in
  (update_run_task_progress 2 n n t).1.
Definition ca_drawn (n granted : i64) : CaWorld := ca_world (ca_child_tasks n) ca_nodes {[2 := (1, granted)]} [].
Definition ca_situation (w : CaWorld) : Situation :=
  match (ca_gather w).2 with Ok s => s | Err _ => mkSituation ∅ [] [] ∅ None end.

(** *** Slots *)

Definition ca_child (id : i32) (work : i64) : ChildState :=
  mkChildState true work "c" 1%float id CActive TActive (mkSourceRef id 1 None work) None None None None.

(** The sampler of run 2 has used up its budget, run 3 has not. *)
Lemma slots_go_to_the_best_witness :
  let states := [ca_child 2 50; ca_child 3 20] in
  let grants : gmap i32 i64 := {[2 := 50; 3 := 40]} in
  schedule_children false states grants [2] (list_to_set [2; 3]) ca_allocation 1 = [3] /\
  zlen (schedule_children false states grants [2] (list_to_set [2; 3]) ca_allocation 1) <= 1.
Proof.
  intros states grants. split; [by vm_compute|].
  apply (slots_go_to_the_best false ca_allocation grants [2] states (list_to_set [2; 3]) 1);
    [by apply (bool_decide_unpack _); vm_compute|by apply (bool_decide_unpack _); vm_compute|lia].
Defined.

Lemma granted_work_goes_on_witness :
  let s := ca_situation (ca_drawn 5 8) in
  conclude false 1 ca_task ca_stop ca_allocation None s = go_on false 1 ca_task ca_stop ca_allocation None s.
Proof. intros s. apply (granted_work_goes_on false 1 ca_task ca_stop ca_allocation None s); vm_compute; reflexivity. Defined.

(** *** Budgets *)

Definition ca_short : Situation := ca_situation (ca_drawn 4 4).
Definition ca_budgets : BudgetDB := budget_view (cg_db (ca_drawn 4 4)).
Definition ca_requests : list (i32 * i64) := requests_of ca_stop ca_allocation None ca_short [2].
Definition ca_granted : BudgetDB * result string (gmap i32 i64) := allocate_campaign_samples 1 ca_requests ca_budgets.

Definition ca_short_child : ChildState := Eval vm_compute in default (ca_child 2 0) (head (si_states ca_short)).

Lemma budgets_one_window_ahead_witness :
  ca_requests = [(2, 104)] /\ ca_granted.2 = Ok {[2 := 10]} /\ 10 <= Z.max (Z.max (granted 2 ca_budgets) (produced_of 2 ca_budgets)) (4 + 100).
Proof.
  split; [vm_compute; reflexivity|]. split; [vm_compute; reflexivity|].
  apply (budgets_one_window_ahead ca_task ca_stop ca_allocation None ca_short [2] ca_budgets ca_granted.1 {[2 := 10]}
    ca_short_child 10);
    [by apply (bool_decide_unpack _); vm_compute| |vm_compute; done|vm_compute; done|vm_compute; reflexivity|vm_compute; reflexivity].
  assert (si_states ca_short = [ca_short_child]) as -> by (vm_compute; reflexivity). left.
Defined.

(** *** The end *)

Definition ca_end : CaWorld * result StoreError bool := ca_tick (ca_drawn 10 10).

Lemma campaign_completes_drained_witness :
  ca_end.2 = Ok true /\ exists s w1 results, ca_gather (ca_drawn 10 10) = (w1, Ok s) /\ combine_measurements (si_states s) = Some results /\
    campaign_should_stop results 10 (pilots_complete ca_allocation s) ca_stop = true.
Proof.
  split; [vm_compute; reflexivity|].
  destruct (campaign_completes_drained false 1 ca_task ca_children ca_measurement ca_stop ca_allocation None (task_open 1)
    (ca_drawn 10 10) ca_end.1 ca_end.2) as (s & w1 & results & Hg & _ & Hc & Hs & _ & _).
  - split; [|by constructor]. intros r Hr. vm_compute in Hr. injection Hr as <-. done.
  - exact (surjective_pairing ca_end).
  - intros [Hopen _]. refine (Hopen _ _ _); [vm_compute; reflexivity|done].
  - exists s, w1, results. split_and!; [done|done|].
    replace 10 with (zsum (map work_samples (si_states s))); [done|].
    assert (s = ca_situation (ca_drawn 10 10)) as -> by by (unfold ca_situation, ca_gather; rewrite Hg). by vm_compute.
Defined.
