(* ===== verification/ParameterScan.v ===== *)
(** src/runners/parameter_scan.rs: one child run for each point of a parameter grid,
    at most [max_concurrent_runs] at a time.

    TOML values are those of Json.v. The counters of a tick are read off the points
    it has observed, which is what the loop of the source counts. *)
From S2P Require Import Prelude Floats Errors ParameterGrid Domain Batch Config LatentBatch Generation AccumulatorTrait Scalar Stratification Vector FullVector Gammaloop Stratified AccumulatorState Extraction Raster WorkQueue Assignments Queue Tasks Runner TaskStore StageContext Json ChildResults.

#[export] Instance toml_values : TomlValues := {| toml := Toml; TFloat := TFlt; TInteger := TInt |}.

Record ParameterScanPointOutput := mkScanPoint {
  point_index : usize;
  parameter_values : Json;
  point_child : ControllerChildOutput
}.
Record ParameterScanOutput := mkScanOutput {
  scan_parameters : list string;
  completed_points : usize;
  running_points : usize;
  total_points : usize;
  scan_points : list ParameterScanPointOutput
}.

(** What a controller counts: an observed child that is at work, or at its end. *)
Definition child_works (c : ControllerChildOutput) : bool :=
  match child_status c with CPending | CActive => true | _ => false end.
Definition child_done (c : ControllerChildOutput) : bool := bool_decide (child_status c = CCompleted).
Definition child_failed (c : ControllerChildOutput) : bool := bool_decide (child_status c = CFailed).
(** It is given workers. *)
Definition child_runnable (c : ControllerChildOutput) : option i32 :=
  if child_done c || child_failed c then None else child_run_id c.

Section scan.
Context {J : Type} {E : Type} {LM : Libm} {OB : Observables} {TC : @TaskCodec J toml_values E}.
Context {W : Type} {CS : @ControllerStore J toml_values E OB TC ParameterScanOutput W}.

Notation M := (SE W StoreError).
Notation RunTask := (@RunTask J toml_values E).
Notation ParameterGridItem := (@ParameterGridItem Toml).

Definition PARAMETER_SCAN_SPAWN_KIND : string := "parameter_scan".

Definition parameter_scan_grid_items (parameters : list ParameterScanParameterSpec) : result StoreError (list ParameterGridItem) :=
  try_map (fun p => let? values := map_err Internal (source_values (sp_source p)) in Ok (mkParameterGridItem (sp_name p) values))
    parameters.
Definition parameter_scan_names (parameters : list ParameterScanParameterSpec) : list string := map sp_name parameters.

(** [serde_json::to_value] of a [BTreeMap] *)
Definition grid_point_json (m : gmap string Toml) : Json := parameters_to_json (by_name m).

Context (run : i32) (t : RunTask) (parameters : list ParameterScanParameterSpec) (measurement : MeasurementSpec)
  (template : ChildRunTemplate) (max_concurrent_runs : usize).

(** A completed task without a measurement is a failure. *)
Definition require_measurement (c : ControllerChildOutput) : ControllerChildOutput :=
  if child_done c && is_none (child_measurement c) then child_fail "source task completed without measurement output" c else c.

Definition observe_point (items : list ParameterGridItem) (by_label : gmap string i32) (index : usize) : M ParameterScanPointOutput :=
  let! replacements := se_lift (cartesian_grid_point items index) in
  let! observed :=
    match by_label !! show_i64 index with
    | Some id =>
        let! r := load_child_task_result_reference (Output:=ParameterScanOutput) id (source_task measurement) in
        se_ret (controller_output r)
    | None => se_ret planned
    end in
  se_ret (mkScanPoint index (grid_point_json replacements) (require_measurement observed)).

Fixpoint observe_points (items : list ParameterGridItem) (by_label : gmap string i32) (indices : list usize)
    : M (list ParameterScanPointOutput) :=
  match indices with
  | [] => se_ret []
  | index :: indices =>
      let! p := observe_point items by_label index in
      let! ps := observe_points items by_label indices in
      se_ret (p :: ps)
  end.

Definition count_points (p : ControllerChildOutput -> bool) (points : list ParameterScanPointOutput) : usize :=
  zlen (filter (fun q => p (point_child q) = true) points).
Definition point_failure (p : ParameterScanPointOutput) : option string :=
  (fun reason =>
     String.append "scan point " (String.append (show_i64 (point_index p))
       (String.append " child run " (String.append (match child_run_id (point_child p) with Some id => String.append "Some(" (String.append (show_i64 id) ")") | None => "None" end)
         (String.append " failed: " reason)))))
    <$> child_failure (point_child p).
Definition failed_reason (points : list ParameterScanPointOutput) : option string := head (omap point_failure points).

Definition scan_output (points : list ParameterScanPointOutput) : ParameterScanOutput :=
  mkScanOutput (parameter_scan_names parameters) (count_points child_done points) (count_points child_works points)
    (zlen points) points.
Definition scan_persist_output (points : list ParameterScanPointOutput) : M unit :=
  cs_persist_controller_output (task_id t) (scan_output points).
Definition scan_finish (outcome : result string unit) : M bool := finish_controller (Output:=ParameterScanOutput) run (task_id t) outcome.

(** [bindings.extend(replacements)] *)
Definition bindings (replacements : gmap string Toml) : gmap string Toml := replacements ∪ list_to_map (ct_replacements template).
Definition point_request (index : usize) (replacements : gmap string Toml) : ChildRunRequest :=
  mkChildRequest run (task_id t) PARAMETER_SCAN_SPAWN_KIND (show_i64 index) (ct_run template) (bindings replacements).

(** The runs created for the points that have none, in order, up to [capacity]. *)
Fixpoint create_points (items : list ParameterGridItem) (by_label : gmap string i32) (capacity : usize) (indices : list usize) : M (list i32) :=
  match indices with
  | [] => se_ret []
  | index :: indices =>
      if capacity =? 0 then se_ret []
      else if bool_decide (is_Some (by_label !! show_i64 index)) then create_points items by_label capacity indices
      else
        let! replacements := se_lift (cartesian_grid_point items index) in
        let! id := service (cs_create_child_run (point_request index replacements)) in
        let! ids := create_points items by_label (capacity - 1) indices in
        se_ret (id :: ids)
  end.

Definition runnable_points (points : list ParameterScanPointOutput) : list i32 := omap (fun p => child_runnable (point_child p)) points.

Definition scan_advance (items : list ParameterGridItem) (total : usize) (by_label : gmap string i32) (points : list ParameterScanPointOutput)
    : M bool :=
  let! created := create_points items by_label (usize_saturating_sub max_concurrent_runs (count_points child_works points)) (seqZ 0 total) in
  let! _ := apply_controller_assignment_plan (Output:=ParameterScanOutput) run (runnable_points points ++ created) in
  scan_persist_output points ;!
  se_ret false.

Definition scan_conclude (items : list ParameterGridItem) (total : usize) (by_label : gmap string i32) (points : list ParameterScanPointOutput)
    : M bool :=
  match failed_reason points with
  | Some reason => scan_persist_output points ;! scan_finish (Err reason)
  | None =>
      if count_points child_done points =? total then scan_persist_output points ;! scan_finish (Ok tt)
      else scan_advance items total by_label points
  end.

Definition scan_tick : M bool :=
  let! items := se_lift (parameter_scan_grid_items parameters) in
  let! total := se_lift (cartesian_grid_len items) in
  let! by_label := load_controller_children (Output:=ParameterScanOutput) run t in
  let! points := observe_points items by_label (seqZ 0 total) in
  scan_conclude items total by_label points.
End scan.
