(* ===== verification/ScanLaws.v ===== *)
(** When a parameter scan ends (src/runners/parameter_scan.rs), and how many runs it
    creates. *)
From S2P Require Import Prelude Floats Errors ParameterGrid Domain Batch Config LatentBatch Generation AccumulatorTrait Scalar Stratification Vector FullVector Gammaloop Stratified AccumulatorState Extraction Raster WorkQueue Assignments Queue Tasks Runner TaskStore StageContext Json ChildResults ControllerLaws ParameterScan.

(** All of [l] when as many are kept. *)
Lemma filter_full {A} (P : A -> Prop) `{forall x, Decision (P x)} (l : list A) : (length l <= length (filter P l))%nat -> Forall P l.
Proof.
  induction l as [|x l IH]; [constructor|]. rewrite filter_cons. case_decide as Hx; cbn; intros Hl.
  - constructor; [done|]. apply IH. lia.
  - pose proof (length_filter P l). lia.
Qed.

Section scan.
Context {J : Type} {E : Type} {LM : Libm} {OB : Observables} {TC : @TaskCodec J toml_values E}.
Context {W : Type} {CS : @ControllerStore J toml_values E OB TC ParameterScanOutput W}.
Context (run : i32) (t : @RunTask J toml_values E) (parameters : list ParameterScanParameterSpec) (measurement : MeasurementSpec)
  (template : ChildRunTemplate) (max_concurrent_runs : usize).

Notation observes := (observe_points measurement).
Notation tick := (scan_tick run t parameters measurement template max_concurrent_runs).

(** *** Observed points *)

(** A point of index [index]: its values are those of the grid, and a child that is
    done has a measurement and is the run with its label. *)
Definition point_ok (items : list (@ParameterGridItem Toml)) (by_label : gmap string i32) (index : usize) (p : ParameterScanPointOutput) : Prop :=
  point_index p = index /\
  (exists values, cartesian_grid_point items index = Ok values /\ parameter_values p = grid_point_json values) /\
  (child_done (point_child p) = true ->
    is_Some (child_measurement (point_child p)) /\ child_run_id (point_child p) = by_label !! show_i64 index /\
    is_Some (by_label !! show_i64 index)).

Lemma reference_run id name :
  yields (load_child_task_result_reference (Output:=ParameterScanOutput) id name) (fun r => src_run_id (result_ref r) = id).
Proof.
  eapply yields_bind; [apply yields_any|]. intros tasks _. eapply yields_bind; [apply yields_any|]. intros task _.
  eapply yields_bind; [apply yields_any|]. intros loaded _. by apply yields_ret.
Qed.

Lemma observe_point_ok items by_label index : yields (observe_point measurement items by_label index) (point_ok items by_label index).
Proof.
  apply (yields_bind _ _ (fun values => cartesian_grid_point items index = Ok values)); [by apply yields_lift|]. intros values Hvalues.
  eapply (yields_bind _ _ (fun c => child_done c = true -> child_run_id c = by_label !! show_i64 index /\ is_Some (by_label !! show_i64 index))).
  - destruct (by_label !! show_i64 index) as [id|]; [|by apply yields_ret].
    eapply yields_bind; [apply reference_run|]. intros r Hr. apply yields_ret. intros _. cbn. by rewrite Hr.
  - intros c Hc. apply yields_ret. split; [done|]. split; [by exists values|]. cbn. unfold require_measurement.
    destruct (child_done c) eqn:Hd; cbn; [|by rewrite Hd]. destruct (child_measurement c) eqn:Hm; cbn; [|done].
    intros _. rewrite Hm. split; [done|]. by apply Hc.
Qed.

Lemma observe_points_ok items by_label indices : yields (observes items by_label indices) (Forall2 (point_ok items by_label) indices).
Proof.
  induction indices as [|index indices IH]; cbn [observe_points]; [by apply yields_ret|].
  eapply yields_bind; [apply observe_point_ok|]. intros p Hp. eapply yields_bind; [apply IH|]. intros ps Hps. apply yields_ret. by constructor.
Qed.

(** *** Completion *)

Context (P : W -> Prop) {OC : OnlyCompletion P}.

Lemma open_observe_points items by_label indices : stable P (observes items by_label indices).
Proof. induction indices as [|index indices IH]; cbn [observe_points]; [apply stable_ret|]. unfold observe_point. stable_auto. Qed.
Lemma open_create_points items by_label capacity indices : stable P (create_points run t template items by_label capacity indices).
Proof.
  revert capacity. induction indices as [|index indices IH]; intros capacity; cbn [create_points]; [apply stable_ret|]. stable_auto.
Qed.
Local Hint Resolve open_observe_points open_create_points : stable.

Lemma open_scan_conclude items total by_label points :
  (failed_reason points = None -> count_points child_done points <> total) ->
  stable P (scan_conclude run t parameters template max_concurrent_runs items total by_label points).
Proof.
  intros Hend. unfold scan_conclude, scan_finish, scan_persist_output, scan_advance. destruct (failed_reason points); [stable_auto|].
  rewrite (proj2 (Z.eqb_neq _ _)) by auto. stable_auto.
Qed.

(** a parameter scan ends when every point is measured. If a tick completes its
    task, then by what it observed of the child runs it loaded each point of the grid,
    in the order of the grid, has a child run with its index as label, which has
    completed with a measurement, and none has failed. *)
Theorem scan_completes_measured w w' r :
  P w -> tick w = (w', r) -> ~ P w' ->
  exists items total w1 w2 by_label points,
    parameter_scan_grid_items parameters = Ok items /\ cartesian_grid_len items = Ok total /\
    load_controller_children run t w = (w1, Ok by_label) /\ observes items by_label (seqZ 0 total) w1 = (w2, Ok points) /\
    failed_reason points = None /\
    Forall2 (fun index p => point_ok items by_label index p /\ child_done (point_child p) = true) (seqZ 0 total) points.
Proof.
  intros HP Htick Hend. unfold scan_tick in Htick.
  unfold se_bind, se_lift in Htick. destruct (parameter_scan_grid_items parameters) as [items|e] eqn:Ei; [|by injection Htick as <- _].
  destruct (cartesian_grid_len items) as [total|e] eqn:Et; [|by injection Htick as <- _].
  pose proof (open_children P run t w HP) as H1. destruct (load_controller_children run t w) as [w1 [by_label|e]]; [|by injection Htick as <- _].
  pose proof (open_observe_points items by_label (seqZ 0 total) w1 H1) as H2.
  destruct (observes items by_label (seqZ 0 total) w1) as [w2 [points|e]] eqn:Eo; [|by injection Htick as <- _].
  pose proof (observe_points_ok items by_label (seqZ 0 total) _ _ _ Eo) as Hok.
  destruct (decide (failed_reason points = None /\ count_points child_done points = total)) as [[Hf Hc]|Hno].
  - exists items, total, w1, w2, by_label, points. split_and!; [done..|].
    assert (Forall (fun p => child_done (point_child p) = true) points) as Hdone.
    { refine (filter_full (fun p => child_done (point_child p) = true) points _). unfold count_points, zlen in Hc.
      apply Forall2_length in Hok. rewrite <- Hok, length_seqZ. lia. }
    clear -Hok Hdone. induction Hok as [|index p indices ps Hp Hps IH]; [constructor|]. apply Forall_cons in Hdone as [Hd Hdone].
    constructor; [done|auto].
  - exfalso. apply Hend. pose proof (open_scan_conclude items total by_label points) as Hs.
    specialize (Hs ltac:(intros Hf Hc; by destruct Hno) w2 H2). rewrite Htick in Hs. by destruct r.
Qed.

(** *** Concurrency *)

(** A scan creates the runs of the first points that have none, and no more than its
    limit leaves room for. *)
Lemma create_points_count items by_label capacity indices :
  0 <= capacity ->
  yields (create_points run t template items by_label capacity indices)
    (fun ids => zlen ids = Z.min capacity (zlen (filter (fun index => by_label !! show_i64 index = None) indices))).
Proof.
  revert capacity. induction indices as [|index indices IH]; intros capacity Hcap; cbn [create_points].
  { apply yields_ret. change (zlen (filter _ [])) with 0. rewrite zlen_nil. lia. }
  destruct (Z.eqb_spec capacity 0) as [->|Hne]; [apply yields_ret; rewrite zlen_nil; pose proof (zlen_nonneg (filter (fun index => by_label !! show_i64 index = None) (index :: indices))); lia|].
  rewrite filter_cons. case_bool_decide as Hb.
  - rewrite decide_False; [by apply IH|]. intros Hn. rewrite Hn in Hb. by destruct Hb.
  - rewrite decide_True by (by apply eq_None_not_Some). eapply yields_bind; [apply yields_any|]. intros values _.
    eapply yields_bind; [apply yields_any|]. intros id _. eapply yields_bind; [apply IH; lia|]. intros ids Hids. apply yields_ret.
    rewrite !zlen_cons, Hids. lia.
Qed.
End scan.
