(* ===== verification/Tuning.v ===== *)
(** src/runners/hyperparameter_tuning.rs: the trials of a hyperparameter search.

    The random generator (rand_xoshiro) and the optimizer service (egobox_ego) are
    the classes [Rng] and [EgoboxService]. An assignment of parameters is a list in key
    order, as the [BTreeMap] it is; a fault of [suggest], a panic included, is an
    error text. Texts of failed trials are shortened. *)
From S2P Require Import Prelude Floats Errors ParameterGrid Domain Batch Config LatentBatch Generation AccumulatorTrait Scalar Stratification Vector FullVector Gammaloop Stratified AccumulatorState Extraction Raster WorkQueue Assignments Queue Tasks Runner TaskStore StageContext Json ChildResults ParameterScan.

(** ** Third-party code *)

Class Rng := {
  rng : Type;
  seed_from_u64 : u64 -> rng;
  (** [random_range] of a float range, of [0..n] in i64 and of [0..n] in usize *)
  random_float : f64 -> f64 -> rng -> f64 * rng;
  random_i64 : i64 -> rng -> i64 * rng;
  random_usize : usize -> rng -> usize * rng
}.
(** What rand documents of it. *)
Class RngLaws (R : Rng) := {
  random_i64_range n g : 0 < n -> 0 <= (random_i64 n g).1 < n;
  random_usize_range n g : 0 < n -> 0 <= (random_usize n g).1 < n
}.

Inductive XType :=
| XFloat (min max : f64)
| XInt (min max : i32)
| XOrd (values : list f64)
| XEnum (n : usize).

Record EgorConfig := mkEgorConfig {
  ego_seed : option u64;
  ego_n_doe : usize;
  ego_batch : usize;
  ego_strategy : option EgoboxQeiStrategy;
  ego_optmod : option usize;
  ego_n_start : option usize;
  ego_infill : EgoboxInfillStrategy
}.
Class EgoboxService := {
  (** rows of inputs and their values; the suggested rows *)
  suggest : EgorConfig -> list XType -> list (list f64) -> list f64 -> result string (list (list f64))
}.

(** ** Values *)

Definition Parameters := list (string * Toml).
Notation Domain := HyperparameterTuningParameterDomain (only parsing).

(** [toml::Value == toml::Value] *)
Fixpoint toml_eqb (a b : Toml) : bool :=
  match a, b with
  | TString x, TString y => String.eqb x y
  | TInt x, TInt y => x =? y
  | TFlt x, TFlt y => PrimFloat.eqb x y
  | TBool x, TBool y => eqb x y
  | TDatetime x, TDatetime y => String.eqb x y
  | TArray l, TArray k =>
      (fix go (l k : list Toml) : bool :=
         match l, k with
         | [], [] => true
         | x :: l, y :: k => toml_eqb x y && go l k
         | _, _ => false
         end) l k
  | TTable m, TTable n =>
      (fix go (m n : list (string * Toml)) : bool :=
         match m, n with
         | [], [] => true
         | (p, x) :: m, (q, y) :: n => String.eqb p q && toml_eqb x y && go m n
         | _, _ => false
         end) m n
  | _, _ => false
  end.

Definition u64_wrap (z : Z) : u64 := z mod 2 ^ 64.
Definition splitmix64 (x : u64) : u64 :=
  let x := u64_wrap (x + 0x9e3779b97f4a7c15) in
  let z := u64_wrap (Z.lxor x (Z.shiftr x 30) * 0xbf58476d1ce4e5b9) in
  let z := u64_wrap (Z.lxor z (Z.shiftr z 27) * 0x94d049bb133111eb) in
  Z.lxor z (Z.shiftr z 31).

Definition i64_checked_sub (a b : i64) : option i64 := if (i64_min <=? a - b) && (a - b <=? i64_max) then Some (a - b) else None.

Definition categorical_domain_values (source : ParameterValueSourceSpec) : result StoreError (list Toml) :=
  map_err Internal (source_values source).

Definition integer_domain_values (d : HyperparameterTuningIntegerDomain) : result StoreError (list i64) :=
  match integer_values (int_min d) (int_max d) (default 1 (int_step d)) with
  | [] => Err (Internal "integer parameter domain is empty")
  | values => Ok values
  end.

Definition grid_parameter_values (d : Domain) : result StoreError (list Toml) :=
  match d with
  | HInteger domain => Ok (map TInt (integer_values (int_min domain) (int_max domain) (default 1 (int_step domain))))
  | HCategorical source => categorical_domain_values source
  | HFloat _ => Err (Internal "grid_search does not support float parameter domains yet; use integer/categorical domains")
  end.
Definition hyperparameter_grid_items (parameters : list (string * Domain)) : result StoreError (list (@ParameterGridItem Toml)) :=
  try_map (fun '(name, d) => let? values := grid_parameter_values d in Ok (mkParameterGridItem name values)) parameters.

(** ** Sampling *)

Section sampling.
Context {R : Rng}.

(** [count] wraps, as in a release build. A step is positive, as validated. *)
Definition sample_parameter (d : Domain) (g : rng) : result StoreError (Toml * rng) :=
  match d with
  | HFloat domain => let '(x, g) := random_float (float_min domain) (float_max domain) g in Ok (TFlt x, g)
  | HInteger domain =>
      let step := default 1 (int_step domain) in
      let? span := ok_or (Internal "integer parameter domain bounds overflow while sampling") (i64_checked_sub (int_max domain) (int_min domain)) in
      let count := wrap_i64 (Z.quot span step + 1) in
      if count <=? 0 then Err (Internal "integer parameter domain is empty")
      else let '(offset, g) := random_i64 count g in Ok (TInt (int_min domain + offset * step), g)
  | HCategorical source =>
      let? values := categorical_domain_values source in
      let '(index, g) := random_usize (zlen values) g in
      let? value := ok_or (Internal "index out of bounds") (zget values index) in
      Ok (value, g)
  end.

Fixpoint sample_parameters (parameters : list (string * Domain)) (g : rng) : result StoreError (Parameters * rng) :=
  match parameters with
  | [] => Ok ([], g)
  | (name, d) :: parameters =>
      let? r := sample_parameter d g in
      let? rest := sample_parameters parameters r.2 in
      Ok ((name, r.1) :: rest.1, rest.2)
  end.

Definition trial_rng (seed : option u64) (index : usize) : rng := seed_from_u64 (Z.lxor (default 0 seed) (splitmix64 index)).
Definition seeded_parameters (seed : option u64) (parameters : list (string * Domain)) (index : usize) : result StoreError Parameters :=
  let? r := sample_parameters parameters (trial_rng seed index) in Ok r.1.
End sampling.

(** ** Points of the optimizer *)

Record ParameterEncoder := mkEncoder { enc_parameters : list (string * Domain); xtypes : list XType }.

Definition i32_range (z : i64) : bool := (- 2 ^ 31 <=? z) && (z <=? i32_max).
Definition domain_to_egobox_xtype (d : Domain) : result StoreError XType :=
  match d with
  | HFloat domain => Ok (XFloat (float_min domain) (float_max domain))
  | HInteger domain =>
      if (default 1 (int_step domain) =? 1) && i32_range (int_min domain) && i32_range (int_max domain)
      then Ok (XInt (int_min domain) (int_max domain))
      else let? values := integer_domain_values domain in Ok (XOrd (map f64_of_Z values))
  | HCategorical source =>
      let? values := categorical_domain_values source in
      if zlen values <? 2 then Err (Internal "egobox categorical parameter needs at least two values")
      else Ok (XEnum (zlen values))
  end.
Definition encoder_new (parameters : list (string * Domain)) : result StoreError ParameterEncoder :=
  let? xtypes := try_map (fun p => domain_to_egobox_xtype p.2) parameters in
  Ok (mkEncoder parameters xtypes).

Fixpoint position (p : Toml -> bool) (l : list Toml) : option usize :=
  match l with
  | [] => None
  | x :: l => if p x then Some 0 else Z.succ <$> position p l
  end.

Definition encode_parameter_value (d : Domain) (value : Toml) : result StoreError f64 :=
  match d with
  | HFloat _ =>
      match value with
      | TFlt x => Ok x
      | TInt z => Ok (f64_of_Z z)
      | _ => Err (Internal "egobox float parameter must be numeric")
      end
  | HInteger _ =>
      match value with
      | TInt z => Ok (f64_of_Z z)
      | _ => Err (Internal "egobox integer parameter must be integer")
      end
  | HCategorical source =>
      let? values := categorical_domain_values source in
      ok_or (Internal "egobox categorical parameter has value outside its domain")
        (f64_of_Z <$> position (fun candidate => toml_eqb candidate value) values)
  end.

(** [min_by]: of equally close values the first. *)
Definition closer (value : f64) (best z : i64) : i64 :=
  let distance z := PrimFloat.abs (PrimFloat.sub (f64_of_Z z) value) in
  if PrimFloat.ltb (distance z) (distance best) then z else best.
Definition take_closest_i64 (values : list i64) (value : f64) : i64 :=
  match values with [] => 0 | z :: values => foldl (closer value) z values end.

Definition decode_parameter_value (d : Domain) (value : f64) : result StoreError Toml :=
  match d with
  | HFloat domain => Ok (TFlt (f64_clamp (float_min domain) (float_max domain) value))
  | HInteger domain => let? values := integer_domain_values domain in Ok (TInt (take_closest_i64 values value))
  | HCategorical source =>
      let? values := categorical_domain_values source in
      let index := f64_as_usize (f64_clamp 0 (f64_of_Z (usize_saturating_sub (zlen values) 1)) (f64_round value)) in
      ok_or (Internal "index out of bounds") (zget values index)
  end.

Definition encode (e : ParameterEncoder) (parameters : Parameters) : result StoreError (list f64) :=
  try_map (fun '(name, d) =>
    let? value := ok_or (Internal "egobox trial is missing parameter") (obj_get name parameters) in
    encode_parameter_value d value) (enc_parameters e).
Definition decode (e : ParameterEncoder) (encoded : list f64) : result StoreError Parameters :=
  if negb (zlen encoded =? zlen (enc_parameters e)) then Err (Internal "egobox suggested another number of parameters")
  else try_map (fun '(p, x) => let? value := decode_parameter_value p.2 x in Ok (p.1, value)) (zip (enc_parameters e) encoded).

Definition same_point (point candidate : list f64) : bool :=
  (zlen point =? zlen candidate)
  && forallb (fun '(l, r) => PrimFloat.ltb (PrimFloat.abs (PrimFloat.sub l r)) 1e-9%float) (zip point candidate).
Definition contains_encoded (existing : list (list f64)) (candidate : list f64) : bool :=
  existsb (fun point => same_point point candidate) existing.

(** The values of every domain, [None] as soon as one is a float. *)
Fixpoint finite_values (parameters : list (string * Domain)) : result StoreError (option (list (string * list Toml))) :=
  match parameters with
  | [] => Ok (Some [])
  | (_, HFloat _) :: _ => Ok None
  | (name, d) :: parameters =>
      let? values := match d with
                     | HInteger domain => let? values := integer_domain_values domain in Ok (map TInt values)
                     | HCategorical source => categorical_domain_values source
                     | HFloat _ => Ok []
                     end in
      let? rest := finite_values parameters in
      Ok (rest ← rest; Some ((name, values) :: rest))
  end.

(** The first assignment in lexicographic order that is not [existing]. *)
Fixpoint find_distinct_finite_point (e : ParameterEncoder) (existing : list (list f64)) (values : list (string * list Toml))
    (point : Parameters) : result StoreError (option Parameters) :=
  match values with
  | [] =>
      let? code := encode e point in
      Ok (if contains_encoded existing code then None else Some point)
  | (name, candidates) :: values =>
      (fix go (candidates : list Toml) : result StoreError (option Parameters) :=
         match candidates with
         | [] => Ok None
         | value :: candidates =>
             let? found := find_distinct_finite_point e existing values (obj_insert name value point) in
             match found with Some point => Ok (Some point) | None => go candidates end
         end) candidates
  end.
Definition first_distinct_finite_point (e : ParameterEncoder) (existing : list (list f64)) : result StoreError (option Parameters) :=
  let? values := finite_values (enc_parameters e) in
  match values with
  | None => Ok None
  | Some values => find_distinct_finite_point e existing values []
  end.

Section encoder.
Context {R : Rng}.

(** [inr]: no attempt gave a new point; the last one. *)
Fixpoint try_distinct (fuel : nat) (e : ParameterEncoder) (existing : list (list f64)) (last : option Parameters) (g : rng)
    : result StoreError (Parameters + option Parameters) :=
  match fuel with
  | O => Ok (inr last)
  | S fuel =>
      let? r := sample_parameters (enc_parameters e) g in
      let? code := encode e r.1 in
      if contains_encoded existing code then try_distinct fuel e existing (Some r.1) r.2 else Ok (inl r.1)
  end.
Definition random_distinct_point (e : ParameterEncoder) (g : rng) (existing : list (list f64)) : result StoreError Parameters :=
  let? attempt := try_distinct 64 e existing None g in
  match attempt with
  | inl point => Ok point
  | inr last =>
      let? finite := first_distinct_finite_point e existing in
      match finite with
      | Some point => Ok point
      | None => ok_or (Internal "failed to sample egobox fallback point") last
      end
  end.
End encoder.

(** ** Plans *)

Record OptimizerTrialCandidate := mkCandidate { cand_index : usize; cand_parameters : Parameters }.
Record OptimizerObservation := mkObservation { obs_parameters : Parameters; obs_value : f64 }.
Record PreviousTrial := mkPreviousTrial {
  pt_index : usize;
  pt_status : ControllerChildState;
  pt_parameters : Parameters;
  pt_objective : option f64
}.
Record OptimizerTrialPlan := mkTrialPlan { plan_total : usize; plan_candidates : list OptimizerTrialCandidate }.

Definition effective_egobox_initial_design (params : EgoboxOptimizerParams) (parameter_count : usize) : usize :=
  Z.max (Z.max (initial_design params) (parameter_count + 1)) 2.

Definition existing_encoded_points (e : ParameterEncoder) (existing_trial_indices : gset Z) (previous : gmap Z PreviousTrial)
    : result StoreError (list (list f64)) :=
  try_map (fun p => encode e (pt_parameters p)) (omap (fun index => previous !! index) (ascending existing_trial_indices)).

Section plans.
Context {R : Rng} {EG : EgoboxService}.

(** One candidate after the other; each joins the existing points. *)
Fixpoint egobox_random_candidates (params : EgoboxOptimizerParams) (e : ParameterEncoder) (existing : list (list f64)) (indices : list usize)
    : result StoreError (list OptimizerTrialCandidate) :=
  match indices with
  | [] => Ok []
  | index :: indices =>
      let? point := random_distinct_point e (trial_rng (eg_seed params) index) existing in
      let? code := encode e point in
      let? rest := egobox_random_candidates params e (existing ++ [code]) indices in
      Ok (mkCandidate index point :: rest)
  end.
Definition egobox_random_fallback_candidates (params : EgoboxOptimizerParams) (e : ParameterEncoder) (next_indices : list usize)
    (existing_trial_indices : gset Z) (previous : gmap Z PreviousTrial) : result StoreError (list OptimizerTrialCandidate) :=
  let? existing := existing_encoded_points e existing_trial_indices previous in
  egobox_random_candidates params e existing next_indices.

(** Row [offset] of the suggestion, or its last; a point that exists is drawn anew. *)
Fixpoint egobox_suggested_candidates (params : EgoboxOptimizerParams) (e : ParameterEncoder) (suggested : list (list f64)) (offset : usize)
    (existing : list (list f64)) (indices : list usize) : result StoreError (list OptimizerTrialCandidate) :=
  match indices with
  | [] => Ok []
  | index :: indices =>
      let row := Z.min offset (usize_saturating_sub (zlen suggested) 1) in
      let? encoded := ok_or (Internal "index out of bounds") (zget suggested row) in
      let? point :=
        if contains_encoded existing encoded then random_distinct_point e (trial_rng (eg_seed params) index) existing
        else decode e encoded in
      let? code := encode e point in
      let? rest := egobox_suggested_candidates params e suggested (offset + 1) (existing ++ [code]) indices in
      Ok (mkCandidate index point :: rest)
  end.

Definition egor_config (params : EgoboxOptimizerParams) (parameter_count batch : usize) : EgorConfig :=
  mkEgorConfig (eg_seed params) (effective_egobox_initial_design params parameter_count) (Z.max batch 1) (qei_strategy params)
    (qei_optmod params) (n_start params) (default Ei (infill params)).

Definition suggest_egobox_candidates (params : EgoboxOptimizerParams) (e : ParameterEncoder) (observations : list OptimizerObservation)
    (mode : MeasurementMode) (next_indices : list usize) (existing_trial_indices : gset Z) (previous : gmap Z PreviousTrial)
    : result StoreError (list OptimizerTrialCandidate) :=
  let? x_data := try_map (fun o => encode e (obs_parameters o)) observations in
  let y_data := map (fun o => match mode with Minimize => obs_value o | Maximize => PrimFloat.opp (obs_value o) end) observations in
  match suggest (egor_config params (zlen (enc_parameters e)) (zlen next_indices)) (xtypes e) x_data y_data with
  | Err _ => egobox_random_fallback_candidates params e next_indices existing_trial_indices previous
  | Ok suggested =>
      let? existing := existing_encoded_points e existing_trial_indices previous in
      egobox_suggested_candidates params e suggested 0 existing next_indices
  end.

Definition seeded_candidates (seed : option u64) (parameters : list (string * Domain)) (indices : list usize)
    : result StoreError (list OptimizerTrialCandidate) :=
  try_map (fun index => let? point := seeded_parameters seed parameters index in Ok (mkCandidate index point)) indices.

(** [sort_by_key], stable *)
Definition index_le (a b : OptimizerTrialCandidate) : Prop := cand_index a <= cand_index b.
#[export] Instance index_le_dec : RelDecision index_le.
Proof. intros a b. unfold index_le. apply _. Defined.

Definition known_candidates (total : usize) (previous : gmap Z PreviousTrial) : list OptimizerTrialCandidate :=
  map (fun p => mkCandidate (pt_index p) (pt_parameters p)) (filter (fun p => pt_index p < total) (by_key previous).*2).
(** The first indices that have no child run. *)
Definition free_indices (total : usize) (existing_trial_indices : gset Z) (n : usize) : list usize :=
  ztake n (filter (fun index => index ∉ existing_trial_indices) (seqZ 0 total)).
Definition desired_trials (params : EgoboxOptimizerParams) (existing_trial_indices : gset Z) (candidate_capacity : usize) : usize :=
  Z.min (Z.min candidate_capacity (parallel_candidates params))
    (usize_saturating_sub (eg_max_trials params) (Z.of_nat (size existing_trial_indices))).

Definition egobox_trial_plan (params : EgoboxOptimizerParams) (parameters : list (string * Domain)) (existing_trial_indices : gset Z)
    (previous : gmap Z PreviousTrial) (observations : list OptimizerObservation) (mode : MeasurementMode) (candidate_capacity : usize)
    : result StoreError OptimizerTrialPlan :=
  let total := eg_max_trials params in
  let known := known_candidates total previous in
  let desired := desired_trials params existing_trial_indices candidate_capacity in
  if desired =? 0 then Ok (mkTrialPlan total known)
  else
    let? e := encoder_new parameters in
    let next := free_indices total existing_trial_indices desired in
    let? fresh :=
      if zlen observations <=? effective_egobox_initial_design params (zlen parameters)
      then seeded_candidates (eg_seed params) parameters next
      else suggest_egobox_candidates params e observations mode next existing_trial_indices previous in
    Ok (mkTrialPlan total (merge_sort index_le (known ++ fresh))).

Definition plan_optimizer_trials (optimizer : HyperparameterTuningOptimizerSpec) (parameters : list (string * Domain))
    (existing_trial_indices : gset Z) (previous : gmap Z PreviousTrial) (observations : list OptimizerObservation)
    (mode : MeasurementMode) (candidate_capacity : usize) : result StoreError OptimizerTrialPlan :=
  match optimizer with
  | RandomSearch params =>
      let? candidates := seeded_candidates (rs_seed params) parameters (seqZ 0 (rs_max_trials params)) in
      Ok (mkTrialPlan (rs_max_trials params) candidates)
  | GridSearch =>
      let? items := hyperparameter_grid_items parameters in
      let? total := cartesian_grid_len items in
      let? candidates := try_map (fun index => let? point := cartesian_grid_point items index in Ok (mkCandidate index (by_name point)))
                           (seqZ 0 total) in
      Ok (mkTrialPlan total candidates)
  | Egobox params => egobox_trial_plan params parameters existing_trial_indices previous observations mode candidate_capacity
  end.
End plans.
