(* ===== verification/TuningTick.v ===== *)
(** src/runners/hyperparameter_tuning.rs: the controller of a hyperparameter search.
    It plans trials (Tuning.v), creates a child run for each and reads its objective
    off the measurement of the child. *)
From S2P Require Import Prelude Floats Errors ParameterGrid Domain Batch Config LatentBatch Generation AccumulatorTrait Scalar Stratification Vector FullVector Gammaloop Stratified AccumulatorState Extraction Raster WorkQueue Assignments Queue Tasks Runner TaskStore StageContext Json ChildResults ParameterScan Tuning.

Record HyperparameterTrialOutput := mkTrial {
  trial_index : usize;
  trial_parameters : Json;
  trial_child : ControllerChildOutput;
  objective_estimator : option EstimateKind;
  objective_basic : option BasicEstimate;
  objective_value : option f64;
  objective_uncertainty : option f64
}.
Record HyperparameterTuningOutput := mkTuningOutput {
  tuning_total : usize;
  tuning_completed : usize;
  tuning_running : usize;
  tuning_failed : usize;
  best_trial_index : option usize;
  best_objective_value : option f64;
  best_result_source : option ResultSourceRef;
  tuning_trials : list HyperparameterTrialOutput
}.

(** ** What a tick knows of the trials before it *)

Definition previous_trial (trial : HyperparameterTrialOutput) : result StoreError PreviousTrial :=
  let? parameters := parameters_from_json (trial_parameters trial) in
  Ok (mkPreviousTrial (trial_index trial) (child_status (trial_child trial)) parameters (objective_value trial)).
Definition previous_trial_parameters (output : option HyperparameterTuningOutput) : result StoreError (gmap Z PreviousTrial) :=
  match output with
  | None => Ok ∅
  | Some output => try_fold (fun m trial => let? p := previous_trial trial in Ok (<[trial_index trial := p]> m)) ∅ (tuning_trials output)
  end.
Definition observation (p : PreviousTrial) : option OptimizerObservation :=
  value ← pt_objective p; if PrimFloat.is_finite value then Some (mkObservation (pt_parameters p) value) else None.
Definition previous_trial_observations (output : option HyperparameterTuningOutput) : result StoreError (list OptimizerObservation) :=
  let? previous := previous_trial_parameters output in Ok (omap observation (by_key previous).*2).

(** ** Objectives *)

Definition objective_selector (objective : MeasurementSpec) : AccumulatorMetricName * option string :=
  match selection_metric_selector (selection (measurement objective)) with
  | Some selector => (sel_name selector, sel_component selector)
  | None => (MMean, None)
  end.
Definition selected_by (selector : AccumulatorMetricName * option string) (r : MeasurementResult) : bool :=
  bool_decide (mr_name r = selector.1)
  && match selector.2, mr_component r with
     | Some expected, Some actual => String.eqb expected actual
     | Some _, None => false
     | None, _ => true
     end.
Definition objective_result (objective : MeasurementSpec) (results : list MeasurementResult) : result string MeasurementResult :=
  match filter (fun r => selected_by (objective_selector objective) r = true) results with
  | [r] => Ok r
  | [] => Err "objective measurement did not produce its metric"%string
  | _ => Err "objective measurement produced multiple results; set objective.selection.component"%string
  end.

Definition better (mode : MeasurementMode) (value current : f64) : bool :=
  match mode with Minimize => PrimFloat.ltb value current | Maximize => PrimFloat.ltb current value end.
Definition best_step (mode : MeasurementMode) (best : option (usize * f64)) (trial : HyperparameterTrialOutput) : option (usize * f64) :=
  match objective_value trial with
  | None => best
  | Some value =>
      match best with
      | None => Some (trial_index trial, value)
      | Some (_, current) => if better mode value current then Some (trial_index trial, value) else best
      end
  end.
Definition best_trial (trials : list HyperparameterTrialOutput) (mode : MeasurementMode) : option (usize * f64) :=
  foldl (best_step mode) None trials.

(** The child of a trial, with its objective. *)
Definition trial_failure (reason : string) (index : usize) (parameters : Json) (observed : ControllerChildOutput) : HyperparameterTrialOutput :=
  mkTrial index parameters (child_fail (String.append "trial " (String.append (show_i64 index) (String.append " objective " reason))) observed)
    None None None None.
Definition judge_trial (objective : MeasurementSpec) (index : usize) (parameters : Json) (failed : bool) (observed : ControllerChildOutput)
    : HyperparameterTrialOutput :=
  let unjudged := mkTrial index parameters observed None None None None in
  if failed then unjudged
  else
    match child_measurement observed with
    | Some (MeasurementCompleted results) =>
        match objective_result objective results with
        | Ok r => mkTrial index parameters observed (Some (mr_estimator r)) (mr_basic r) (Some (mr_value r)) (mr_uncertainty r)
        | Err reason => trial_failure (String.append "failed: " reason) index parameters observed
        end
    | Some (MeasurementFailed reason) => trial_failure (String.append "measurement failed: " reason) index parameters observed
    | None =>
        if child_done observed
        then trial_failure "failed: source task completed without measurement output" index parameters observed
        else unjudged
    end.

Section tuning.
Context {J : Type} {E : Type} {LM : Libm} {OB : Observables} {TC : @TaskCodec J toml_values E} {R : Rng} {EG : EgoboxService}.
Context {W : Type} {CS : @ControllerStore J toml_values E OB TC HyperparameterTuningOutput W}.

Notation M := (SE W StoreError).
Notation RunTask := (@RunTask J toml_values E).
Notation Output := HyperparameterTuningOutput.

Definition HYPERPARAMETER_TUNING_SPAWN_KIND : string := "hyperparameter_tuning".

Context (run : i32) (t : RunTask) (optimizer : HyperparameterTuningOptimizerSpec) (objective : MeasurementSpec)
  (parameters : list (string * HyperparameterTuningParameterDomain)) (template : ChildRunTemplate) (max_concurrent_trials : usize)
  (previous : option Output).

Notation Candidates := (list (Z * Parameters)).

(** *** Observation *)

Definition observe_trial (by_label : gmap string i32) (index : usize) (values : Parameters) : M HyperparameterTrialOutput :=
  let json := parameters_to_json values in
  match by_label !! show_i64 index with
  | None => se_ret (mkTrial index json planned None None None None)
  | Some id =>
      let! r := load_child_task_result_reference (Output:=Output) id (source_task objective) in
      se_ret (judge_trial objective index json (bool_decide (is_Some (result_failure_reason r))) (controller_output r))
  end.
Fixpoint observe_trials (by_label : gmap string i32) (candidates : Candidates) : M (list HyperparameterTrialOutput) :=
  match candidates with
  | [] => se_ret []
  | (index, values) :: candidates =>
      let! trial := observe_trial by_label index values in
      let! trials := observe_trials by_label candidates in
      se_ret (trial :: trials)
  end.

Definition has_run (by_label : gmap string i32) (trial : HyperparameterTrialOutput) : bool := bool_decide (is_Some (by_label !! show_i64 (trial_index trial))).
(** The counters of the loop, which skips the trials without a run. *)
Definition count_trials (by_label : gmap string i32) (p : ControllerChildOutput -> bool) (trials : list HyperparameterTrialOutput) : usize :=
  zlen (filter (fun q => (has_run by_label q && p (trial_child q)) = true) trials).
Definition still_works (c : ControllerChildOutput) : bool := negb (child_done c || child_failed c).

(** *** Output *)

Definition tuning_output (total : usize) (by_label : gmap string i32) (trials : list HyperparameterTrialOutput) : Output :=
  let best := best_trial trials (mode (measurement objective)) in
  mkTuningOutput total (count_trials by_label child_done trials) (count_trials by_label still_works trials)
    (count_trials by_label child_failed trials) (fst <$> best) (snd <$> best)
    (b ← best; q ← find (fun q => trial_index q =? b.1) trials; result_source (trial_child q)) trials.
Definition tuning_persist_output (total : usize) (by_label : gmap string i32) (trials : list HyperparameterTrialOutput) : M unit :=
  cs_persist_controller_output (task_id t) (tuning_output total by_label trials).
Definition tuning_finish (outcome : result string unit) : M bool := finish_controller (Output:=Output) run (task_id t) outcome.
(** [total as i64, completed as i64] *)
Definition tuning_progress (total : usize) (by_label : gmap string i32) (trials : list HyperparameterTrialOutput) : M unit :=
  cs_update_run_task_progress (Output:=Output) (task_id t) (wrap_i64 total) (wrap_i64 (count_trials by_label child_done trials)).

(** *** New trials *)

Definition trial_request (index : usize) (values : Parameters) : ChildRunRequest :=
  mkChildRequest run (task_id t) HYPERPARAMETER_TUNING_SPAWN_KIND (show_i64 index) (ct_run template) (bindings template (list_to_map values)).

(** [Err]: why the first run that could not be created was not. *)
Fixpoint create_trials (by_label : gmap string i32) (capacity : usize) (candidates : Candidates) : M (result string (list i32)) :=
  match candidates with
  | [] => se_ret (Ok [])
  | (index, values) :: candidates =>
      if capacity =? 0 then se_ret (Ok [])
      else if bool_decide (is_Some (by_label !! show_i64 index)) then create_trials by_label capacity candidates
      else fun w =>
        match cs_create_child_run (trial_request index values) w with
        | (w, Err e) => (w, Ok (Err (String.append "failed to create tuning trial " (String.append (show_i64 index) (String.append ": " e)))))
        | (w, Ok id) =>
            (let! rest := create_trials by_label (capacity - 1) candidates in
             se_ret (let? ids := rest in Ok (id :: ids))) w
        end
  end.

Definition runnable_trials (trials : list HyperparameterTrialOutput) : list i32 := omap (fun q => child_runnable (trial_child q)) trials.

Definition tuning_advance (total : usize) (by_label : gmap string i32) (candidates : Candidates) (trials : list HyperparameterTrialOutput)
    : M bool :=
  let! created := create_trials by_label (usize_saturating_sub max_concurrent_trials (count_trials by_label still_works trials)) candidates in
  match created with
  | Err reason => tuning_persist_output total by_label trials ;! tuning_finish (Err reason)
  | Ok ids =>
      let! _ := apply_controller_assignment_plan (Output:=Output) run (runnable_trials trials ++ ids) in
      tuning_progress total by_label trials ;!
      tuning_persist_output total by_label trials ;!
      se_ret false
  end.

Definition tuning_conclude (total : usize) (by_label : gmap string i32) (candidates : Candidates) (trials : list HyperparameterTrialOutput)
    : M bool :=
  let failed := count_trials by_label child_failed trials in
  if 0 <? failed then
    tuning_persist_output total by_label trials ;!
    tuning_finish (Err (String.append "hyperparameter tuning failed: failed_trials=" (show_i64 failed)))
  else if count_trials by_label child_done trials + failed =? total then
    tuning_persist_output total by_label trials ;!
    tuning_progress total by_label trials ;!
    tuning_finish (Ok tt)
  else tuning_advance total by_label candidates trials.

(** *** The tick *)

Definition trial_indices (by_label : gmap string i32) : gset Z := list_to_set (omap (fun p => parse_usize p.1) (map_to_list by_label)).
Definition trial_at_work (by_label : gmap string i32) (p : PreviousTrial) : bool :=
  bool_decide (is_Some (by_label !! show_i64 (pt_index p))) && negb (bool_decide (pt_status p = CCompleted)) && negb (bool_decide (pt_status p = CFailed)).
Definition tuning_plan (by_label : gmap string i32) : result StoreError OptimizerTrialPlan :=
  let? before := previous_trial_parameters previous in
  let? observations := previous_trial_observations previous in
  let at_work := zlen (filter (fun p => trial_at_work by_label p.2 = true) (by_key before)) in
  plan_optimizer_trials optimizer parameters (trial_indices by_label) before observations (mode (measurement objective))
    (usize_saturating_sub max_concurrent_trials at_work).
(** Of two candidates of one index the later one stays. *)
Definition candidates_by_index (plan : OptimizerTrialPlan) : Candidates :=
  by_key (foldl (fun m c => <[cand_index c := cand_parameters c]> m) ∅ (plan_candidates plan)).

Definition tuning_tick : M bool :=
  let! by_label := load_controller_children (Output:=Output) run t in
  let! plan := se_lift (tuning_plan by_label) in
  let candidates := candidates_by_index plan in
  let! trials := observe_trials by_label candidates in
  tuning_conclude (plan_total plan) by_label candidates trials.
End tuning.
