(* ===== verification/TuningLaws.v ===== *)
(** When a hyperparameter search ends, and the trial that keeps a search by egobox
    from ending (src/runners/hyperparameter_tuning.rs). *)
From S2P Require Import Prelude Floats Errors ParameterGrid Domain Batch Config LatentBatch Generation AccumulatorTrait Scalar Stratification Vector FullVector Gammaloop Stratified AccumulatorState Extraction Raster WorkQueue Assignments Queue Tasks Runner TaskStore StageContext Json ChildResults ControllerLaws ParameterScan ScanLaws Tuning TuningTick.

(** ** Which indices are planned *)

Section plans.
Context {R : Rng} {EG : EgoboxService}.

Lemma try_map_index (f : Z -> result StoreError OptimizerTrialCandidate) l k :
  (forall a c, f a = Ok c -> cand_index c = a) -> try_map f l = Ok k -> cand_index <$> k = l.
Proof.
  intros Hf Hk%try_map_Forall2. induction Hk as [|a c l k Ha _ IH]; [done|]. cbn. by rewrite (Hf a c Ha), IH.
Qed.

Lemma seeded_indices seed parameters indices k : seeded_candidates seed parameters indices = Ok k -> cand_index <$> k = indices.
Proof.
  apply try_map_index. intros index c. destruct (seeded_parameters seed parameters index); [|done]. by intros [= <-].
Qed.

Lemma random_indices params e existing indices k : egobox_random_candidates params e existing indices = Ok k -> cand_index <$> k = indices.
Proof.
  revert existing k. induction indices as [|index indices IH]; intros existing k Hk; cbn in Hk; [by injection Hk as <-|].
  destruct (random_distinct_point _ _ _) as [point|]; [|done]. cbn in Hk. destruct (encode e point) as [code|]; [|done]. cbn in Hk.
  destruct (egobox_random_candidates _ _ _ indices) as [rest|] eqn:Er; [|done]. injection Hk as <-. cbn. by rewrite (IH _ _ Er).
Qed.

Lemma suggested_indices params e suggested offset existing indices k :
  egobox_suggested_candidates params e suggested offset existing indices = Ok k -> cand_index <$> k = indices.
Proof.
  revert offset existing k. induction indices as [|index indices IH]; intros offset existing k Hk; cbn in Hk; [by injection Hk as <-|].
  destruct (ok_or _ _) as [encoded|]; [|done]. cbn in Hk.
  destruct (if contains_encoded existing encoded then _ else _) as [point|]; [|done]. cbn in Hk.
  destruct (encode e point) as [code|]; [|done]. cbn in Hk.
  destruct (egobox_suggested_candidates _ _ _ _ _ indices) as [rest|] eqn:Er; [|done]. injection Hk as <-. cbn. by rewrite (IH _ _ _ Er).
Qed.

Lemma fresh_indices params e observations m next existing previous k :
  suggest_egobox_candidates params e observations m next existing previous = Ok k -> cand_index <$> k = next.
Proof.
  unfold suggest_egobox_candidates, egobox_random_fallback_candidates. intros Hk. destruct (try_map _ _); [|done]. cbn in Hk.
  destruct (suggest _ _ _ _); (destruct (existing_encoded_points _ _ _); [|done]); cbn in Hk.
  - by eapply suggested_indices.
  - by eapply random_indices.
Qed.

Lemma free_index total existing n index : index ∈ free_indices total existing n -> 0 <= index < total /\ index ∉ existing.
Proof.
  intros Hin. unfold free_indices in Hin. apply elem_of_ztake in Hin. apply list_elem_of_filter in Hin as [Hn Hin%elem_of_seqZ]. split; [lia|done].
Qed.

(** Trials that are listed under their index, which is a [usize]. *)
Definition listed (previous : gmap Z PreviousTrial) : Prop := forall i p, previous !! i = Some p -> pt_index p = i /\ 0 <= i.

Lemma known_index total previous c :
  listed previous -> c ∈ known_candidates total previous -> 0 <= cand_index c < total /\ is_Some (previous !! cand_index c).
Proof.
  intros Hl (p & -> & [Ht Hp]%list_elem_of_filter)%list_elem_of_fmap. cbn.
  apply list_elem_of_fmap in Hp as ([i q] & -> & Hq%elem_of_by_key). cbn in *. destruct (Hl i q Hq) as [Hi H0].
  rewrite Hi in *. split; [lia|by exists q].
Qed.

(** A search by egobox only plans trials it has listed before and trials without a
    run. *)
Lemma egobox_planned params parameters existing previous observations m capacity plan c :
  listed previous -> egobox_trial_plan params parameters existing previous observations m capacity = Ok plan ->
  c ∈ plan_candidates plan ->
  plan_total plan = eg_max_trials params /\ 0 <= cand_index c < eg_max_trials params /\
  (is_Some (previous !! cand_index c) \/ cand_index c ∉ existing).
Proof.
  intros Hl Hplan Hc. unfold egobox_trial_plan in Hplan. destruct (_ =? 0).
  { injection Hplan as <-. destruct (known_index _ _ _ Hl Hc). eauto. }
  destruct (encoder_new parameters) as [e|]; [|done]. cbn in Hplan.
  set (next := free_indices _ _ _) in Hplan.
  destruct (if _ <=? _ then _ else _) as [fresh|] eqn:Ef; [|done]. injection Hplan as <-. cbn in Hc |- *.
  assert (cand_index <$> fresh = next) as Hfresh by (destruct (_ <=? _); [by eapply seeded_indices|by eapply fresh_indices]).
  rewrite merge_sort_Permutation in Hc. apply elem_of_app in Hc as [Hc|Hc].
  - destruct (known_index _ _ _ Hl Hc). eauto.
  - apply (list_elem_of_fmap_2 cand_index) in Hc. rewrite Hfresh in Hc. destruct (free_index _ _ _ _ Hc). eauto.
Qed.

Lemma planned_index optimizer parameters existing previous observations m capacity plan c :
  listed previous -> plan_optimizer_trials optimizer parameters existing previous observations m capacity = Ok plan ->
  c ∈ plan_candidates plan -> 0 <= cand_index c < plan_total plan.
Proof.
  intros Hl Hplan Hc. destruct optimizer as [params| |params]; cbn in Hplan.
  - destruct (seeded_candidates _ _ _) as [k|] eqn:Ek; [|done]. injection Hplan as <-. cbn in *.
    apply (list_elem_of_fmap_2 cand_index) in Hc. rewrite (seeded_indices _ _ _ _ Ek) in Hc. apply elem_of_seqZ in Hc. lia.
  - destruct (hyperparameter_grid_items parameters) as [items|]; [|done]. cbn in Hplan. destruct (cartesian_grid_len items) as [total|]; [|done]. cbn in Hplan.
    destruct (try_map _ _) as [k|] eqn:Ek; [|done]. injection Hplan as <-. cbn in *.
    apply (list_elem_of_fmap_2 cand_index) in Hc. apply try_map_index in Ek; [rewrite Ek in Hc; apply elem_of_seqZ in Hc; lia|].
    intros index c'. destruct (cartesian_grid_point items index); [|done]. by intros [= <-].
  - destruct (egobox_planned _ _ _ _ _ _ _ _ _ Hl Hplan Hc) as (-> & Hi & _). done.
Qed.
End plans.

(** ** Sampled values *)

Definition in_domain (d : HyperparameterTuningParameterDomain) (v : Toml) : Prop :=
  match d, v with
  | HFloat _, TFlt _ => True
  | HInteger d, TInt z => int_min d <= z <= int_max d /\ exists k, z = int_min d + k * default 1 (int_step d)
  | HCategorical source, v => exists values, source_values source = Ok values /\ v ∈ values
  | _, _ => False
  end.

(** A drawn value is one of its domain, whatever the generator. *)
Lemma sampled_in_domain {R : Rng} {RL : RngLaws R} name d g v g' :
  domain_spec_validate name d = Ok tt -> sample_parameter d g = Ok (v, g') -> in_domain d v.
Proof.
  intros Hd Hs. unfold domain_spec_validate in Hd. destruct (validate_source_name name); [|done]. cbn in Hd.
  destruct d as [domain|domain|source]; cbn in Hs.
  - destruct (random_float _ _ g). by injection Hs as <- <-.
  - rewrite Z.gtb_ltb in Hd. destruct (Z.ltb_spec (int_max domain) (int_min domain)) as [|Hmax]; [done|]. set (step := default 1 (int_step domain)) in *.
    assert (0 < step) as Hstep by (unfold step; destruct (int_step domain) as [s|]; cbn in *; [|lia]; destruct (s <=? 0) eqn:Es; [done|]; lia).
    unfold i64_checked_sub in Hs. destruct (_ && _) eqn:Er; [|done]. apply andb_true_iff in Er as [_ Er%Z.leb_le]. cbn in Hs.
    rewrite Z.quot_div_nonneg in Hs by lia. set (count := wrap_i64 _) in Hs. destruct (Z.leb_spec count 0) as [|Hc]; [done|].
    pose proof (random_i64_range count g Hc) as Hi. destruct (random_i64 count g) as [offset g2]. injection Hs as <- <-. cbn in Hi |- *.
    pose proof (Z.div_pos (int_max domain - int_min domain) step ltac:(lia) Hstep) as H0.
    pose proof (Z.mul_div_le (int_max domain - int_min domain) step Hstep) as Hm.
    assert (count = (int_max domain - int_min domain) / step + 1 \/ count <= 0) as Hcount.
    { unfold count, wrap_i64. assert ((int_max domain - int_min domain) / step <= int_max domain - int_min domain) by (apply Z.div_le_upper_bound; nia).
      unfold i64_max in Er. destruct (decide ((int_max domain - int_min domain) / step = 2 ^ 63 - 1)) as [->|]; [right; by vm_compute|left].
      rewrite Z.mod_small; lia. }
    split; [nia|by exists offset].
  - unfold categorical_domain_values in Hs. destruct (source_values source) as [values|] eqn:Evs; [|done]. cbn in Hs.
    destruct (random_usize _ g) as [index g2]. destruct (ok_or _ _) as [x|] eqn:Ex; [|done]. injection Hs as <- <-.
    unfold ok_or in Ex. destruct (zget _ _) as [y|] eqn:Ey; [|done]. injection Ex as ->.
    exists values. split; [done|]. by eapply zget_elem.
Qed.

(** ** Trials *)

Lemma count_below (l : list Z) n : NoDup l -> (forall i, i ∈ l -> 0 <= i < n) -> zlen l <= Z.max 0 n.
Proof.
  intros Hnd Hl. assert (l ⊆+ seqZ 0 n) as Hsub by (apply NoDup_submseteq; [done|]; intros i Hi%Hl; by apply elem_of_seqZ).
  apply submseteq_length in Hsub. rewrite length_seqZ in Hsub. unfold zlen. lia.
Qed.

Lemma full_range (l : list Z) n : NoDup l -> (forall i, i ∈ l -> 0 <= i < n) -> n <= zlen l -> forall i, 0 <= i < n -> i ∈ l.
Proof.
  intros Hnd Hl Hn i Hi. assert (l ⊆+ seqZ 0 n) as Hsub by (apply NoDup_submseteq; [done|]; intros j Hj%Hl; by apply elem_of_seqZ).
  apply submseteq_length_Permutation in Hsub as Hperm; [|rewrite length_seqZ; unfold zlen in Hn; lia].
  rewrite Hperm. by apply elem_of_seqZ.
Qed.

Lemma fold_candidates_index (l : list OptimizerTrialCandidate) (m : gmap Z Parameters) i v :
  foldl (fun m c => <[cand_index c := cand_parameters c]> m) m l !! i = Some v -> is_Some (m !! i) \/ exists c, c ∈ l /\ cand_index c = i.
Proof.
  revert m. induction l as [|c l IH]; intros m; cbn; [intros H; left; by exists v|].
  intros [[v' Hv]|(c' & Hc & Hi)]%IH.
  - apply lookup_insert_Some in Hv as [[Hi _]|[_ Hv]]; [right; exists c; split; [left|done]|left; by exists v'].
  - right. exists c'. split; [by right|done].
Qed.

Lemma planned_candidates plan i : i ∈ (candidates_by_index plan).*1 -> exists c, c ∈ plan_candidates plan /\ cand_index c = i.
Proof.
  intros ([k v] & -> & Hv%elem_of_by_key)%list_elem_of_fmap. cbn. by destruct (fold_candidates_index _ _ _ _ Hv) as [[v' []%lookup_empty_Some]|].
Qed.
Lemma candidates_distinct plan : NoDup (candidates_by_index plan).*1.
Proof. unfold candidates_by_index. rewrite by_key_perm. apply NoDup_fst_map_to_list. Qed.

Lemma listed_trials output previous :
  (forall o q, output = Some o -> q ∈ tuning_trials o -> 0 <= trial_index q) -> previous_trial_parameters output = Ok previous ->
  listed previous /\ forall i, is_Some (previous !! i) -> exists o, output = Some o /\ i ∈ trial_index <$> tuning_trials o.
Proof.
  destruct output as [o|]; cbn; [|intros _ [= <-]; split; [by intros i p|by intros i [p Hp]]].
  intros H0. specialize (H0 o). assert (forall q, q ∈ tuning_trials o -> 0 <= trial_index q) as Hpos by auto. clear H0.
  assert (forall l m m', (forall q, q ∈ l -> q ∈ tuning_trials o) ->
    listed m -> (forall i, is_Some (m !! i) -> i ∈ trial_index <$> tuning_trials o) ->
    try_fold (fun m trial => let? p := previous_trial trial in Ok (<[trial_index trial := p]> m)) m l = Ok m' ->
    listed m' /\ forall i, is_Some (m' !! i) -> i ∈ trial_index <$> tuning_trials o) as Hfold.
  { induction l as [|q l IH]; intros m m' Hl Hm Hi Hf; cbn in Hf; [by injection Hf as <-|].
    destruct (previous_trial q) as [p|] eqn:Ep; [|done]. cbn in Hf. apply (IH _ _ ltac:(intros; apply Hl; by right)) in Hf; [done| |].
    - intros i p' [[<- <-]|[_ Hp]]%lookup_insert_Some; [|by apply Hm]. unfold previous_trial in Ep.
      destruct (parameters_from_json _); [|done]. injection Ep as <-. split; [done|]. apply Hpos, Hl. left.
    - intros i [p' [[<- _]|[_ Hp]]%lookup_insert_Some]; [|apply Hi; by exists p']. apply list_elem_of_fmap_2, Hl. left. }
  intros Hf. destruct (Hfold (tuning_trials o) ∅ previous ltac:(done) ltac:(done) ltac:(by intros i [p Hp]) Hf) as [Hl Hi]. split; [done|]. eauto.
Qed.

Section tuning.
Context {J : Type} {E : Type} {LM : Libm} {OB : Observables} {TC : @TaskCodec J toml_values E} {R : Rng} {EG : EgoboxService}.
Context {W : Type} {CS : @ControllerStore J toml_values E OB TC HyperparameterTuningOutput W}.
Context (run : i32) (t : @RunTask J toml_values E) (optimizer : HyperparameterTuningOptimizerSpec) (objective : MeasurementSpec)
  (parameters : list (string * HyperparameterTuningParameterDomain)) (template : ChildRunTemplate) (max_concurrent_trials : usize)
  (previous : option HyperparameterTuningOutput).

Notation plans := (tuning_plan optimizer objective parameters max_concurrent_trials previous).
Notation tick := (tuning_tick run t optimizer objective parameters template max_concurrent_trials previous).
Notation concludes := (tuning_conclude run t objective template max_concurrent_trials).
Notation advances := (tuning_advance run t objective template max_concurrent_trials).

(** Indices are of type [usize]. *)
Definition indices_ok : Prop := forall o q, previous = Some o -> q ∈ tuning_trials o -> 0 <= trial_index q.

(** The trial of a candidate whose run is measured: the run with its label was
    read when it had completed without a failure, its source task had published
    measurements, and the objective is the one of them that is selected. *)
Definition measured_trial (by_label : gmap string i32) (index : usize) (values : Parameters) (q : HyperparameterTrialOutput) : Prop :=
  trial_index q = index /\ trial_parameters q = parameters_to_json values /\
  exists id read read' child results m,
    by_label !! show_i64 index = Some id /\
    load_child_task_result_reference (Output:=HyperparameterTuningOutput) id (source_task objective) read = (read', Ok child) /\
    src_run_id (result_ref child) = id /\ result_state child = TCompleted /\ result_failure_reason child = None /\
    result_output child = Some (MeasurementCompleted results) /\ objective_result objective results = Ok m /\
    trial_child q = controller_output child /\ objective_value q = Some (mr_value m).

(** A trial has the index of its candidate, and when it is done it is measured. *)
Definition trial_ok (by_label : gmap string i32) (c : Z * Parameters) (q : HyperparameterTrialOutput) : Prop :=
  trial_index q = c.1 /\ (child_done (trial_child q) = true -> measured_trial by_label c.1 c.2 q).

Lemma judged_ok by_label index values id read read' r :
  by_label !! show_i64 index = Some id -> src_run_id (result_ref r) = id ->
  load_child_task_result_reference (Output:=HyperparameterTuningOutput) id (source_task objective) read = (read', Ok r) ->
  trial_ok by_label (index, values)
    (judge_trial objective index (parameters_to_json values) (bool_decide (is_Some (result_failure_reason r))) (controller_output r)).
Proof.
  intros Hid Hr Hread. unfold judge_trial, trial_ok. case_bool_decide as Hf.
  - split; [done|]. intros Hd. exfalso. destruct Hf as [reason Hf]. unfold controller_output in Hd. rewrite Hf in Hd. done.
  - apply eq_None_not_Some in Hf. destruct (child_measurement (controller_output r)) as [[results|reason]|] eqn:Hm.
    + destruct (objective_result objective results) as [m|e] eqn:Ho; (split; [done|]); intros Hd; [|done]. cbn in Hm, Hd.
      split_and!; [done..|]. exists id, read, read', r, results, m. split_and!; try done.
      unfold controller_output in Hd. rewrite Hf, Hm in Hd. by destruct (result_state r).
    + split; [done|]. by intros Hd.
    + destruct (child_done (controller_output r)) eqn:Hd; (split; [done|]); cbn; [done|by rewrite Hd].
Qed.

Lemma reference_of_run id name :
  yields (load_child_task_result_reference (Output:=HyperparameterTuningOutput) id name) (fun r => src_run_id (result_ref r) = id).
Proof.
  eapply yields_bind; [apply yields_any|]. intros tasks _. eapply yields_bind; [apply yields_any|]. intros task _.
  eapply yields_bind; [apply yields_any|]. intros loaded _. by apply yields_ret.
Qed.

Lemma observe_trials_ok by_label candidates :
  yields (observe_trials objective by_label candidates) (Forall2 (trial_ok by_label) candidates).
Proof.
  induction candidates as [|[index values] candidates IH]; cbn [observe_trials]; [by apply yields_ret|].
  apply (yields_bind _ _ (trial_ok by_label (index, values))).
  - unfold observe_trial. destruct (by_label !! show_i64 index) as [id|] eqn:Hid; [|by apply yields_ret].
    eapply yields_bind; [apply yields_run, reference_of_run|]. intros r (Hr & read & read' & Hread). apply yields_ret. by eapply judged_ok.
  - intros q Hq. eapply yields_bind; [apply IH|]. intros trials Htrials. apply yields_ret. by constructor.
Qed.

Lemma observed_indices by_label candidates trials :
  Forall2 (trial_ok by_label) candidates trials -> trial_index <$> trials = candidates.*1.
Proof. induction 1 as [|c q ? ? [Hq _] _ IH]; [done|]. cbn. by rewrite Hq, IH. Qed.

Lemma planned_in_range by_label plan i :
  indices_ok -> plans by_label = Ok plan -> i ∈ (candidates_by_index plan).*1 -> 0 <= i < plan_total plan.
Proof.
  intros Hpos Hplan (c & Hc & <-)%planned_candidates. unfold tuning_plan in Hplan.
  destruct (previous_trial_parameters previous) as [before|] eqn:Eb; [|done]. cbn in Hplan.
  destruct (previous_trial_observations previous) as [observations|]; [|done]. cbn in Hplan.
  destruct (listed_trials _ _ Hpos Eb) as [Hl _]. by apply (planned_index _ _ _ _ _ _ _ _ c Hl Hplan).
Qed.

(** When as many trials are done as are planned, each candidate is measured. *)
Lemma all_trials_measured by_label plan trials :
  indices_ok -> plans by_label = Ok plan -> Forall2 (trial_ok by_label) (candidates_by_index plan) trials ->
  count_trials by_label child_done trials = plan_total plan ->
  forall i, 0 <= i < plan_total plan ->
    exists values q, (i, values) ∈ candidates_by_index plan /\ q ∈ trials /\ measured_trial by_label i values q.
Proof.
  intros Hpos Hplan Hok Hc i Hrange. pose proof (observed_indices _ _ _ Hok) as Hi.
  assert (NoDup (trial_index <$> trials)) as Hnd by (rewrite Hi; apply candidates_distinct).
  assert (forall j, j ∈ trial_index <$> trials -> 0 <= j < plan_total plan) as Hin.
  { intros j Hj. rewrite Hi in Hj. by apply (planned_in_range by_label). }
  set (finished := filter (fun q => (has_run by_label q && child_done (trial_child q)) = true) trials).
  assert (i ∈ trial_index <$> finished) as (q & Hqi & Hq)%list_elem_of_fmap.
  { apply (full_range _ (plan_total plan)); [|intros j Hj; apply Hin|unfold zlen; rewrite length_fmap; unfold count_trials, zlen in Hc; fold finished in Hc; lia|done].
    - apply (sublist_NoDup _ (trial_index <$> trials)); [done|]. apply sublist_fmap, sublist_filter.
    - apply list_elem_of_fmap in Hj as (q & -> & [_ Hq]%list_elem_of_filter). by apply list_elem_of_fmap_2. }
  apply list_elem_of_filter in Hq as [[_ Hd]%andb_true_iff Hq].
  destruct (proj1 (list_elem_of_lookup _ _) Hq) as [n Hn].
  destruct (Forall2_lookup_r _ _ _ _ _ Hok Hn) as ([j values] & Hcand & Hj & Hmeasured). cbn in Hj, Hmeasured.
  assert (j = i) as -> by congruence. exists values, q. split_and!; [by eapply list_elem_of_lookup_2|done|auto].
Qed.

(** *** Completion *)

Section completion.
Context (P : W -> Prop) {OC : OnlyCompletion P}.

Lemma open_observe_trials by_label candidates : stable P (observe_trials objective by_label candidates).
Proof. induction candidates as [|[index values] l IH]; cbn [observe_trials]; [apply stable_ret|]. unfold observe_trial. stable_auto. Qed.
Lemma open_create_trials by_label capacity candidates : stable P (create_trials run t template by_label capacity candidates).
Proof.
  revert capacity. induction candidates as [|[index values] l IH]; intros capacity; cbn [create_trials]; [apply stable_ret|].
  destruct (_ =? 0); [apply stable_ret|]. destruct (bool_decide _); [auto|]. intros w HP.
  pose proof (oc_create (trial_request run t template index values) w HP) as Hw.
  destruct (cs_create_child_run _ w) as [w' [id|e]]; [|done]. revert w' Hw. change (stable P (let! rest := create_trials run t template by_label (capacity - 1) l in se_ret (let? ids := rest in Ok (id :: ids)))). stable_auto.
Qed.
Local Hint Resolve open_observe_trials open_create_trials : stable.

Lemma open_tuning_conclude total by_label candidates trials :
  (count_trials by_label child_failed trials = 0 -> count_trials by_label child_done trials <> total) ->
  stable P (concludes total by_label candidates trials).
Proof.
  intros Hend. unfold tuning_conclude, tuning_advance, tuning_finish, tuning_persist_output, tuning_progress.
  destruct (Z.ltb_spec 0 (count_trials by_label child_failed trials)) as [_|Hf]; [stable_auto|].
  pose proof (zlen_nonneg (filter (fun q => (has_run by_label q && child_failed (trial_child q)) = true) trials)) as H0.
  fold (count_trials by_label child_failed trials) in H0. rewrite (proj2 (Z.eqb_neq _ _)) by lia. stable_auto.
Qed.

(** C11: a search ends when every trial has an objective. If a tick completes its task,
    then among the trials it observed, those of its plan for the child runs it loaded,
    none has failed, and for each index below the number of trials the planned
    candidate was tried: the run with its label was read when it had completed with
    measurements, and the value of the trial is that of the objective they contain. *)
Theorem tuning_completes_measured w w' r :
  indices_ok -> P w -> tick w = (w', r) -> ~ P w' ->
  exists w1 w2 by_label plan trials,
    load_controller_children run t w = (w1, Ok by_label) /\ plans by_label = Ok plan /\
    observe_trials objective by_label (candidates_by_index plan) w1 = (w2, Ok trials) /\
    count_trials by_label child_failed trials = 0 /\ count_trials by_label child_done trials = plan_total plan /\
    forall i, 0 <= i < plan_total plan ->
      exists values q, (i, values) ∈ candidates_by_index plan /\ q ∈ trials /\ measured_trial by_label i values q.
Proof.
  intros Hpos HP Htick Hend. unfold tuning_tick, se_bind, se_lift in Htick.
  pose proof (open_children P run t w HP) as H1.
  destruct (load_controller_children run t w) as [w1 [by_label|e]]; [|by injection Htick as <- _].
  destruct (plans by_label) as [plan|e] eqn:Ep; [|by injection Htick as <- _].
  pose proof (open_observe_trials by_label (candidates_by_index plan) w1 H1) as H2.
  destruct (observe_trials objective by_label (candidates_by_index plan) w1) as [w2 [trials|e]] eqn:Eo; [|by injection Htick as <- _].
  pose proof (observe_trials_ok by_label (candidates_by_index plan) _ _ _ Eo) as Hok.
  destruct (decide (count_trials by_label child_failed trials = 0 /\ count_trials by_label child_done trials = plan_total plan)) as [[Hf Hc]|Hno].
  - exists w1, w2, by_label, plan, trials. split_and!; [done..|]. by apply all_trials_measured.
  - exfalso. apply Hend. pose proof (open_tuning_conclude (plan_total plan) by_label (candidates_by_index plan) trials) as Hs.
    specialize (Hs ltac:(intros Hf Hc; by destruct Hno) w2 H2). rewrite Htick in Hs. by destruct r.
Qed.
End completion.

(** *** The trial that is lost *)

(** C12: a run that was created for a trial in a tick whose output was not stored keeps
    a search by egobox from ever ending. If there is a run for index [i] but the last
    output lists no such trial, then no plan contains [i] again: whatever the tick
    observed, unless a trial failed it goes on as if work were left, and the output it
    stores again lists no trial [i]. *)
Theorem lost_trial_blocks_egobox params by_label plan w w' trials i :
  optimizer = Egobox params -> indices_ok -> 0 <= i < eg_max_trials params ->
  i ∈ trial_indices by_label -> (forall o, previous = Some o -> i ∉ trial_index <$> tuning_trials o) ->
  plans by_label = Ok plan -> observe_trials objective by_label (candidates_by_index plan) w = (w', Ok trials) ->
  i ∉ trial_index <$> tuning_trials (tuning_output objective (plan_total plan) by_label trials) /\
  (count_trials by_label child_failed trials = 0 ->
   concludes (plan_total plan) by_label (candidates_by_index plan) trials = advances (plan_total plan) by_label (candidates_by_index plan) trials).
Proof.
  intros -> Hpos Hrange Hi Hlost Hplan Ho. pose proof (observed_indices _ _ _ (observe_trials_ok by_label (candidates_by_index plan) _ _ _ Ho)) as His.
  assert (plan_total plan = eg_max_trials params /\ forall j, j ∈ trial_index <$> trials -> 0 <= j < eg_max_trials params /\ j <> i) as [Htotal Hin].
  { unfold tuning_plan in Hplan. destruct (previous_trial_parameters previous) as [before|] eqn:Eb; [|done]. cbn [result_bind] in Hplan.
    destruct (previous_trial_observations previous) as [observations|]; [|done]. cbn [result_bind plan_optimizer_trials] in Hplan.
    destruct (listed_trials _ _ Hpos Eb) as [Hl Hknown]. split.
    - unfold egobox_trial_plan in Hplan. destruct (_ =? 0); [by injection Hplan as <-|]. destruct (encoder_new _); [|done]. cbn [result_bind] in Hplan.
      destruct (if _ <=? _ then _ else _); [|done]. by injection Hplan as <-.
    - intros j Hj. rewrite His in Hj. apply planned_candidates in Hj as (c & Hc & <-).
      destruct (egobox_planned _ _ _ _ _ _ _ _ _ Hl Hplan Hc) as (_ & Hr & Hor). split; [done|]. intros Heq. rewrite Heq in Hor.
      destruct Hor as [Hk|Hk]; [|done]. destruct (Hknown i Hk) as (o & Ho' & Hin). by apply (Hlost o Ho'). }
  split; [intros Hj; by destruct (Hin i Hj)|]. intros Hf. unfold tuning_conclude. rewrite Hf. cbn [Z.ltb Z.compare].
  rewrite (proj2 (Z.eqb_neq _ _)); [done|]. rewrite Htotal, Z.add_0_r. intros Hc.
  assert (NoDup (trial_index <$> trials)) as Hnd by (rewrite His; apply candidates_distinct).
  assert (i ∈ trial_index <$> trials) as Hbad; [|by destruct (Hin i Hbad)].
  apply (full_range _ (eg_max_trials params)); [done|intros j Hj; by apply Hin| |done].
  unfold zlen. rewrite length_fmap. pose proof (length_filter (fun q => (has_run by_label q && child_done (trial_child q)) = true) trials).
  unfold count_trials, zlen in Hc. lia.
Qed.
End tuning.
