(* ===== verification/TuningExamples.v ===== *)
(** A search whose first tick loses its last requests, a search and a scan that end;
    the instances of the properties of scans and searches. *)
From S2P Require Import Prelude Floats Errors ParameterGrid CampaignBudget Domain Batch Config LatentBatch Generation AccumulatorTrait Scalar Stratification Vector FullVector Gammaloop Stratified AccumulatorState Extraction Evaluation Raster Metrics WorkQueue Assignments ControlPlane Queue Tasks Runner TaskStore TaskQueue StageContext StageResolution TaskControl TaskControlLaws Evaluator EvaluatorLaws EvaluatorDrain EvaluatorInstance EvaluatorExamples NodeRunner NodeLaws NodeInstance Json ChildResults ControllerLaws Campaign CampaignLaws CampaignInstance ParameterScan ScanLaws Tuning TuningTick TuningLaws.

#[local] Existing Instances ex_libm ex_observables ex_states.

(** ** A child: one sampling task *)

Definition tu_sample : @RunTaskSpec unit toml_values unit :=
  Sample Pooled true (mkStopCondition None (Some 10) None None None) None None None None None None.
Definition tu_metric : MeasurementResult := mkMeasurement EPooled None MMean (Some "value"%string) 0.25%float (Some 0.5%float) 10.
Definition tu_objective : MeasurementSpec := mkMeasurementSpec "integrate" task_measurement_default.
Definition tu_domains : list (string * HyperparameterTuningParameterDomain) := [("x"%string, HInteger (mkIntegerDomain 0 9 None))].
Definition tu_template : ChildRunTemplate := mkChildTemplate (InlineRun "a") [].
Definition tu_egobox : EgoboxOptimizerParams := mkEgobox 1 None 0 1 None None None None.
Definition tu_random : HyperparameterTuningOptimizerSpec := RandomSearch (mkRandomSearch 1 (Some 7)).
Definition tu_spec : @RunTaskSpec unit toml_values unit := HyperparameterTuning tu_random tu_objective tu_domains tu_template 2.

#[local] Instance tu_codec : @TaskCodec unit toml_values unit := {|
  json_value := string;
  ControllerTaskOutput := unit;
  encode_task t := Ok (task_kind_str t);
  decode_task v := if String.eqb v "sample" then Ok tu_sample else Ok tu_spec;
  encode_measurement _ := Ok "measured"%string;
  decode_measurement _ := Ok (MeasurementCompleted [tu_metric]);
  encode_controller _ := Ok "output"%string;
  decode_controller _ := Ok tt;
  canonical_task_toml _ := Ok ""%string
|}.
#[local] Instance tu_rng : Rng := {|
  rng := Z;
  seed_from_u64 z := z;
  random_float lo hi g := (lo, g + 1);
  random_i64 n g := (g mod n, g + 1);
  random_usize n g := (g mod n, g + 1)
|}.
#[local] Instance tu_rng_laws : RngLaws tu_rng.
Proof. split; intros; cbn; apply Z.mod_pos_bound; lia. Qed.
#[local] Instance tu_service : EgoboxService := {| suggest _ _ _ _ := Err "no surrogate"%string |}.

Definition tu_root : @RunStageSnapshot unit unit ex_observables := mkStageSnapshot None "root" None true None None (Some tt) [].
Definition tu_instantiate (_ : ChildRunSource) (_ : gmap string Toml) : result string (string * _ * list _) :=
  Ok ("trial"%string, tu_root, [mkTaskInput (Some "integrate"%string) tu_sample]).

Notation TuTables := (@TaskTables unit toml_values unit ex_observables tu_codec).
Notation TuDb := (@CampaignDb unit toml_values unit ex_observables tu_codec).
Notation TuWorld := (@CampaignWorld unit toml_values unit ex_observables tu_codec).

#[local] Instance tu_store : @ControllerStore unit toml_values unit ex_observables tu_codec HyperparameterTuningOutput TuWorld :=
  campaign_store (fun _ => Err "no accumulator"%string) (fun _ => tt) tu_instantiate (mkServer 100 3).
#[local] Instance sc_store : @ControllerStore unit toml_values unit ex_observables tu_codec ParameterScanOutput TuWorld :=
  campaign_store (fun _ => Err "no accumulator"%string) (fun _ => tt) tu_instantiate (mkServer 100 3).

Definition tu_created : TuTables :=
  (activate_next_run_task 1 1 (create_run 0 "search" tu_root [mkTaskInput None tu_spec] None empty_tables).1).1.
Definition tu_world (d : TuTables) (turns : list (Turn TuDb)) : TuWorld :=
  mkCampaignWorld (mkCampaignDb (mkControl d ∅ ∅ ∅) ∅ ∅ []) turns 2.
Definition tu_task : @RunTask unit toml_values unit := mkRunTask 1 1 "search" 1 tu_spec TActive 0 0 None.
Definition tu_turn (d : Delivery) : Turn TuDb := mkTurn (fun d => d) d 0.

(** ** A lost trial *)

Definition tu_tick optimizer previous := tuning_tick 1 tu_task optimizer tu_objective tu_domains tu_template 2 previous.
Definition tu_lost : TuWorld * result StoreError bool :=
  tu_tick (Egobox tu_egobox) None
    (tu_world tu_created (map tu_turn [Delivered; Delivered; Delivered; Delivered; RequestLost])).

(** The child is run and measured all the same. *)
Definition tu_measured_tables (d : TuTables) : TuTables :=
  let d := (activate_next_run_task 3 2 d).1 in
  let d := (update_run_task_progress 2 10 10 d).1 in
  let d := (persist_task_measurement_output 2 (MeasurementCompleted [tu_metric]) d).1 in
  (complete_run_task 4 2 d).1.
Definition tu_stuck : TuWorld := tu_world (tu_measured_tables (cw_tasks (cd_control (cg_db tu_lost.1)))) [].

(** The search goes on, with nothing left to run. *)
Example tu_never_ends : tu_lost.2 = Err connection_lost /\ (tu_tick (Egobox tu_egobox) None tu_stuck).2 = Ok false.
Proof. vm_compute. auto. Qed.

Lemma lost_trial_blocks_egobox_witness :
  let by_label : gmap string i32 := {["0"%string := 2]} in
  (load_controller_children (Output:=HyperparameterTuningOutput) 1 tu_task tu_stuck).2 = Ok by_label /\
  forall w, tuning_conclude 1 tu_task tu_objective tu_template 2 1 by_label [] [] w = tuning_advance 1 tu_task tu_objective tu_template 2 1 by_label [] [] w.
Proof.
  intros by_label. split; [by vm_compute|]. intros w.
  destruct (lost_trial_blocks_egobox 1 tu_task (Egobox tu_egobox) tu_objective tu_domains tu_template 2 None tu_egobox by_label (mkTrialPlan 1 [])
    tu_stuck tu_stuck [] 0 eq_refl) as [_ Hgo]; [done|done|by apply (bool_decide_unpack _); vm_compute|done|by vm_compute|done|].
  exact (f_equal (fun m => m w) (Hgo eq_refl)).
Defined.

(** ** A search that ends *)
Definition tu_begun : TuWorld * result StoreError bool := tu_tick tu_random None (tu_world tu_created []).
Definition tu_measured : TuWorld := tu_world (tu_measured_tables (cw_tasks (cd_control (cg_db tu_begun.1)))) [].
Definition tu_end : TuWorld * result StoreError bool := tu_tick tu_random None tu_measured.

Lemma tuning_completes_measured_witness :
  tu_end.2 = Ok true /\ exists w1 w2 by_label plan trials,
    load_controller_children (Output:=HyperparameterTuningOutput) 1 tu_task tu_measured = (w1, Ok by_label) /\
    tuning_plan tu_random tu_objective tu_domains 2 None by_label = Ok plan /\
    observe_trials tu_objective by_label (candidates_by_index plan) w1 = (w2, Ok trials) /\
    count_trials by_label child_failed trials = 0 /\ count_trials by_label child_done trials = plan_total plan /\
    forall i, 0 <= i < plan_total plan ->
      exists values q, (i, values) ∈ candidates_by_index plan /\ q ∈ trials /\ measured_trial tu_objective by_label i values q.
Proof.
  split; [by vm_compute|].
  apply (tuning_completes_measured 1 tu_task tu_random tu_objective tu_domains tu_template 2 None (task_open 1) tu_measured tu_end.1 tu_end.2).
  - done.
  - split; [|by constructor]. intros r Hr. vm_compute in Hr. injection Hr as <-. done.
  - exact (surjective_pairing tu_end).
  - intros [Hopen _]. refine (Hopen _ _ _); [vm_compute; reflexivity|done].
Defined.

(** ** A scan of one point *)

Definition sc_parameters : list ParameterScanParameterSpec := [mkScanParameter "x" (SValues [TInt 3])].
Definition sc_task : @RunTask unit toml_values unit :=
  mkRunTask 1 1 "scan" 1 (ParameterScan sc_parameters tu_objective tu_template 2) TActive 0 0 None.
Definition sc_tick := scan_tick 1 sc_task sc_parameters tu_objective tu_template 2.
Definition sc_begun : TuWorld * result StoreError bool := sc_tick (tu_world tu_created []).
Definition sc_measured : TuWorld := tu_world (tu_measured_tables (cw_tasks (cd_control (cg_db sc_begun.1)))) [].
Definition sc_end : TuWorld * result StoreError bool := sc_tick sc_measured.

Lemma scan_completes_measured_witness :
  sc_end.2 = Ok true /\ exists items total by_label points,
    parameter_scan_grid_items sc_parameters = Ok items /\ cartesian_grid_len items = Ok total /\
    Forall2 (fun index p => point_ok items by_label index p /\ child_done (point_child p) = true) (seqZ 0 total) points.
Proof.
  split; [by vm_compute|].
  destruct (scan_completes_measured 1 sc_task sc_parameters tu_objective tu_template 2 (task_open 1) sc_measured sc_end.1 sc_end.2)
    as (items & total & w1 & w2 & by_label & points & Hi & Ht & _ & _ & _ & Hp).
  - split; [|by constructor]. intros r Hr. vm_compute in Hr. injection Hr as <-. done.
  - exact (surjective_pairing sc_end).
  - intros [Hopen _]. refine (Hopen _ _ _); [vm_compute; reflexivity|done].
  - by exists items, total, by_label, points.
Defined.
