(* ===== verification/ControlInstance.v ===== *)
(** The control loop of TaskControl.v with its controllers: the ticks of the parameter
    scan, the hyperparameter search and the integration campaign, on the tables of the
    deployment. They add no task to the queue of their own run, so a step of the
    loop ends and leaves no run behind. *)
From S2P Require Import Prelude Floats Errors ParameterGrid CampaignBudget Domain Batch Config LatentBatch Generation AccumulatorTrait Scalar Stratification Vector FullVector Gammaloop Stratified AccumulatorState Extraction Evaluation Raster Metrics WorkQueue Assignments ControlPlane Queue Tasks Runner TaskStore TaskQueue StageContext StageResolution TaskControl TaskExamples TaskControlLaws Evaluator EvaluatorLaws EvaluatorDrain EvaluatorInstance EvaluatorExamples NodeRunner NodeLaws NodeInstance Json ChildResults ControllerLaws Campaign CampaignLaws CampaignInstance ParameterScan ScanLaws Tuning TuningTick TuningLaws TuningExamples.

(** ** Whole ticks keep what their requests keep *)

Section ticks.
Context {J : Type} {E : Type} {LM : Libm} {OB : Observables} {TC : @TaskCodec J toml_values E}.
Context {R : Rng} {EG : EgoboxService} {AJ : @AccumulatorJson OB}.
Context {W : Type}.
Context (P : W -> Prop) (run : i32) (t : @RunTask J toml_values E).

Lemma finish_keeps {Output} {CS : @ControllerStore J toml_values E OB TC Output W} {OC : OnlyCompletion P} id outcome :
  (forall id, stable P (cs_complete_run_task id)) -> stable P (finish_controller run id outcome).
Proof.
  intros Hc. unfold finish_controller. apply stable_bind; [auto with stable|]. intros [|]; [|apply stable_ret]. cbn [negb].
  apply stable_bind; [|intros; apply stable_ret]. destruct outcome; auto with stable.
Qed.

Lemma scan_tick_keeps {CS : @ControllerStore J toml_values E OB TC ParameterScanOutput W} {OC : OnlyCompletion P}
    parameters measurement template max_concurrent_runs :
  (forall id, stable P (cs_complete_run_task id)) ->
  stable P (scan_tick run t parameters measurement template max_concurrent_runs).
Proof.
  intros Hc. pose proof (fun id outcome => finish_keeps id outcome Hc) as Hf.
  unfold scan_tick, scan_conclude, scan_finish, scan_persist_output, scan_advance.
  do 2 (apply stable_bind; [apply stable_lift|intros ?]).
  apply stable_bind; [auto with stable|intros by_label]. apply stable_bind; [by apply open_observe_points|intros points].
  destruct (failed_reason points); [stable_auto|]. destruct (_ =? _); [stable_auto|].
  apply stable_bind; [by apply open_create_points|intros ids]. stable_auto.
Qed.

Lemma tuning_tick_keeps {CS : @ControllerStore J toml_values E OB TC HyperparameterTuningOutput W} {OC : OnlyCompletion P}
    optimizer objective parameters template max_concurrent_trials previous :
  (forall id, stable P (cs_complete_run_task id)) ->
  stable P (tuning_tick run t optimizer objective parameters template max_concurrent_trials previous).
Proof.
  intros Hc. pose proof (fun id outcome => finish_keeps id outcome Hc) as Hf.
  unfold tuning_tick, tuning_conclude, tuning_finish, tuning_persist_output, tuning_progress, tuning_advance.
  apply stable_bind; [auto with stable|intros by_label]. apply stable_bind; [apply stable_lift|intros plan]. cbv zeta.
  apply stable_bind; [by apply open_observe_trials|intros trials].
  destruct (0 <? _); [stable_auto|]. destruct (_ =? _); [stable_auto|].
  apply stable_bind; [by apply open_create_trials|intros created]. stable_auto.
Qed.

Lemma campaign_tick_keeps {CS : @ControllerStore J toml_values E OB TC CampaignOutput W} {CT : CampaignStore W}
    {OC : OnlyCompletion P} {KR : KeepsResults P} nan_below children measurement stop allocation previous :
  (forall id, stable P (cs_complete_run_task id)) ->
  stable P (campaign_tick nan_below run t children measurement stop allocation previous).
Proof.
  intros Hc. pose proof (fun id outcome => finish_keeps id outcome Hc) as Hf.
  unfold campaign_tick. apply stable_bind; [by apply open_gather|intros s].
  unfold conclude, conclude_failed, conclude_reached, go_on, persist_output, finish. stable_auto.
Qed.
End ticks.

(** ** The controllers of the loop *)

(** ControllerTaskOutput of src/core/tasks.rs; the type of this name in the codec
    stands for it. *)
Inductive ControllerOutput :=
| ScanOutput (output : ParameterScanOutput)
| TuningOutput (output : HyperparameterTuningOutput)
| CampaignTaskOutput (output : CampaignOutput).
Definition hyperparameter_tuning (o : ControllerOutput) : option HyperparameterTuningOutput :=
  match o with TuningOutput output => Some output | _ => None end.
Definition integration_campaign (o : ControllerOutput) : option CampaignOutput :=
  match o with CampaignTaskOutput output => Some output | _ => None end.

Section controllers.
Context {J : Type} {E : Type} {LM : Libm} {OB : Observables} {TC : @TaskCodec J toml_values E}.
Context {R : Rng} {EG : EgoboxService} {AJ : @AccumulatorJson OB}.
Context (to_stored : ControllerOutput -> ControllerTaskOutput) (of_stored : ControllerTaskOutput -> ControllerOutput).
Context (nan_below : bool) (read_accumulator : json_value -> result string AccumulatorState).
Context (instantiate_child : ChildRunSource -> gmap string toml ->
  result string (string * @RunStageSnapshot J E OB * list (@RunTaskInput J toml_values E))).
Context (server : Server).

Notation ControlWorld := (@ControlWorld J toml_values E OB TC).
Notation CampaignDb := (@CampaignDb J toml_values E OB TC).
Notation StoredTask := (@StoredTask J toml_values E TC).
Notation Ctl := (@Ctl J toml_values E OB TC).

(** What a tick meets outside the tables of the loop: the sample budgets, the
    performance records and the derived results, and which of its requests or
    their answers get lost. *)
Record Surroundings := mkSurroundings {
  su_budgets : gmap i32 (i64 * i64);
  su_rates : gmap i32 (list f64);
  su_results : list (i64 * DerivedResultSnapshot);
  su_faults : list (Delivery * Z)
}.
Context (surroundings : i64 -> i32 -> StoredTask -> Surroundings).

Definition tick_world (now : i64) (s : Surroundings) (w : ControlWorld) : @CampaignWorld J toml_values E OB TC :=
  mkCampaignWorld (mkCampaignDb w (su_budgets s) (su_rates s) (su_results s))
    ((fun f => mkTurn (fun d => d) f.1 f.2) <$> su_faults s) now.

Notation store Output wrap := (campaign_store (Output:=Output) read_accumulator wrap instantiate_child server).

Definition controller_tick (now : i64) (run : i32) (st : StoredTask) : Ctl unit := fun w =>
  let t := st_task st in
  let world := tick_world now (surroundings now run st) w in
  let '(world, r) :=
    match task_spec t with
    | ParameterScan parameters measurement child max_concurrent_runs =>
        scan_tick (CS:=store ParameterScanOutput (fun o => to_stored (ScanOutput o)))
          run t parameters measurement child max_concurrent_runs world
    | HyperparameterTuning optimizer objective parameters child max_concurrent_trials =>
        tuning_tick (CS:=store HyperparameterTuningOutput (fun o => to_stored (TuningOutput o)))
          run t optimizer objective parameters child max_concurrent_trials
          (st_controller st ≫= fun o => hyperparameter_tuning (of_stored o)) world
    | IntegrationCampaign children measurement stop allocation =>
        campaign_tick (CS:=store CampaignOutput (fun o => to_stored (CampaignTaskOutput o)))
          nan_below run t children measurement stop allocation
          (st_controller st ≫= fun o => integration_campaign (of_stored o)) world
    | _ => (world, Ok false)
    end in
  (cd_control (cg_db world), let? _ := r in Ok tt).

(** *** They keep the queue of their run *)

Section kept.
Context (run0 : i32) (X : gset i64).

Definition queue_kept : @CampaignWorld J toml_values E OB TC -> Prop := turns_keep (fun d => queue_within run0 X (cd_tasks d)).

Lemma requests_keep_queue {Output} (wrap : Output -> ControllerTaskOutput) : OnlyCompletion (CS:=store Output wrap) queue_kept.
Proof.
  apply requests_keep; intros.
  - apply within_create_run.
  - by apply within_outputs.
  - by apply within_outputs.
  - apply within_progress.
  - apply within_fail.
Qed.
Lemma completion_keeps_queue {Output} (wrap : Output -> ControllerTaskOutput) id :
  stable queue_kept (cs_complete_run_task (ControllerStore:=store Output wrap) id).
Proof.
  apply request_stable. apply (on_tasks_keeps (fun d => queue_within run0 X (cd_tasks d)) (queue_within run0 X)); [|done..].
  intros now. apply within_complete.
Qed.
Lemma results_keep_queue : KeepsResults (CT:=campaign_results) queue_kept.
Proof. intros run id r. by apply request_stable. Qed.

Lemma tick_world_kept now s (w : ControlWorld) : queue_within run0 X (cw_tasks w) -> queue_kept (tick_world now s w).
Proof. intros Hw. split; [done|]. cbn. induction (su_faults s) as [|f l IH]; cbn; by constructor. Qed.
End kept.

Lemma controllers_keep : controllers_keep_queue controller_tick.
Proof.
  intros now run st w w' r Ha Hk. set (X := dom (pending_rows run (cw_tasks w))).
  pose proof (tick_world_kept run X now (surroundings now run st) w (within_self run _ Ha)) as H0.
  assert (forall (m : SE _ StoreError bool), stable (queue_kept run X) m ->
    queue_within run X (cd_tasks (cg_db (m (tick_world now (surroundings now run st) w)).1))) as Hm.
  { intros m Hm. specialize (Hm _ H0). destruct (m _) as [w1 [x|e]]; apply Hm. }
  enough (queue_within run X (cw_tasks w')) as [? ?] by done.
  unfold controller_tick in Hk. cbv zeta in Hk.
  destruct (task_spec (st_task st)); try by (injection Hk as <- _; apply H0).
  all: match type of Hk with (let '(_, _) := ?m ?w in _) = _ => specialize (Hm m); destruct (m w) as [w1 x] end;
    injection Hk as <- _; apply Hm.
  - apply scan_tick_keeps; [apply requests_keep_queue|intros; apply completion_keeps_queue].
  - apply tuning_tick_keeps; [apply requests_keep_queue|intros; apply completion_keeps_queue].
  - apply campaign_tick_keeps; [apply requests_keep_queue|apply results_keep_queue|intros; apply completion_keeps_queue].
Qed.

(** C21: a step of the control loop on a run ends, with fuel for the pending tasks of the
    run, and when it succeeds it leaves the run in one of these ways: with an active
    task; finished, its queue exhausted and its workers sent home; as it was, between
    two stages, because batches of it are unfinished, it is gone, or nobody works for
    it; or just after its control task completed, because batches of it are unfinished
    or it is gone. The controllers are those of the program, any of whose requests may
    be lost; the run has an id that was given out, and within the step nobody else
    writes to the tables. *)
Theorem control_step_starts_or_finishes now run (w : ControlWorld) :
  allocated run w ->
  exists w' r, reconcile_run controller_tick (S (nr_pending run w)) now run w = (w', Some r) /\
    (r = Ok tt ->
     run_active run w' \/ run_finished run w' \/
     (load_active_run_task run (cw_tasks w) = Ok None /\ w' = w /\ waits now run false w) \/
     (exists t, load_active_run_task run (cw_tasks w) = Ok (Some t) /\ runs_in_control_plane (task_spec (st_task t)) = true /\
        reconcile_control_task controller_tick now run t w = (w', Ok tt) /\
        load_active_run_task run (cw_tasks w') = Ok None /\ waits now run true w')).
Proof. apply reconcile_run_spec, controllers_keep. Qed.
End controllers.

(** ** A step that ends a search: the run of TuningExamples.v *)

#[local] Existing Instances ex_libm ex_observables ex_states tu_codec tu_rng tu_service tu_store.
#[local] Instance co_json : @AccumulatorJson ex_observables := {| Campaign.accumulator_json _ := None |}.

Definition co_stored (_ : ControllerOutput) : @ControllerTaskOutput _ _ _ tu_codec := tt.
Definition co_output (_ : @ControllerTaskOutput _ _ _ tu_codec) : ControllerOutput := ScanOutput (mkScanOutput [] 0 0 0 []).
Definition co_read (_ : @json_value _ _ _ tu_codec) : result string (@AccumulatorState ex_observables) := Err "no accumulator"%string.
Definition co_tick : i64 -> i32 -> @StoredTask unit toml_values unit tu_codec -> @Ctl unit toml_values unit ex_observables tu_codec unit :=
  controller_tick co_stored co_output false co_read tu_instantiate (mkServer 100 3) (fun _ _ _ => mkSurroundings ∅ ∅ [] []).
Definition co_measured : @ControlWorld unit toml_values unit ex_observables tu_codec := cd_control (cg_db tu_measured).

Lemma control_step_starts_or_finishes_witness :
  exists w' r, reconcile_run co_tick (S (nr_pending 1 co_measured)) 2 1 co_measured = (w', Some r) /\ r = Ok tt /\
    (run_active 1 w' \/ run_finished 1 w' \/
     (load_active_run_task 1 (cw_tasks co_measured) = Ok None /\ w' = co_measured /\ waits 2 1 false co_measured) \/
     (exists t, load_active_run_task 1 (cw_tasks co_measured) = Ok (Some t) /\ runs_in_control_plane (task_spec (st_task t)) = true /\
        reconcile_control_task co_tick 2 1 t co_measured = (w', Ok tt) /\
        load_active_run_task 1 (cw_tasks w') = Ok None /\ waits 2 1 true w')).
Proof.
  assert ((reconcile_run co_tick (S (nr_pending 1 co_measured)) 2 1 co_measured).2 = Some (Ok tt)) as Hr by (vm_compute; reflexivity).
  destruct (control_step_starts_or_finishes co_stored co_output false co_read tu_instantiate (mkServer 100 3) (fun _ _ _ => mkSurroundings ∅ ∅ [] []) 2 1 co_measured
    ltac:(vm_compute; reflexivity)) as (w' & r & Hw & H).
  exists w', r. split; [exact Hw|]. assert (r = Ok tt) as Hok.
  { change (reconcile_run co_tick (S (nr_pending 1 co_measured)) 2 1 co_measured = (w', Some r)) in Hw. rewrite Hw in Hr. by injection Hr. }
  split; [exact Hok|]. exact (H Hok).
Defined.

(** The search completes in this step, and the run has no other task. *)
Example co_search_ends :
  rt_state <$> (run_tasks (cw_tasks (reconcile_run co_tick (S (nr_pending 1 co_measured)) 2 1 co_measured).1) !! 1) = Some TCompleted.
Proof. by vm_compute. Qed.
