(* ===== verification/NaiveMonteCarlo.v ===== *)
(** src/sampling/sampler_aggregator/naive_monte_carlo.rs with
    src/utils/synthetic_timing.rs: uniform points of a domain, drawn in training
    windows: a window is fed back whole before the next one is drawn.

    The generator (rand_xoshiro) is the class [McRng], the platform functions of the
    synthetic times [TimingMath]. Sleeping, measured times and the statistics of both
    are left out: no result depends on them. Counters are [Z]; each grows by the
    samples it counts. *)
From S2P Require Import Prelude Floats Errors Domain Batch Config LatentBatch Feedback Generation AccumulatorTrait Scalar Stratification Vector Gammaloop AccumulatorState Extraction Evaluation Raster Metrics WorkQueue Queue Tasks Runner.

Class McRng := {
  mc_rng : Type;
  mc_seed : u64 -> mc_rng;
  (** [random_range(0..n)] and [random::<f64>()] *)
  mc_index : usize -> mc_rng -> mc_rng * usize;
  mc_unit : mc_rng -> mc_rng * f64
}.
Definition unit_interval (x : f64) : bool := PrimFloat.leb 0 x && PrimFloat.leb x 1.
Class McRngLaws (R : McRng) := {
  mc_index_range n g : 0 < n -> 0 <= (mc_index n g).2 < n;
  mc_unit_range g : unit_interval (mc_unit g).2 = true
}.
Class TimingMath := { ln : f64 -> f64; cos : f64 -> f64; sin : f64 -> f64 }.

Section naive.
Context {R : McRng} {TM : TimingMath}.

(** ** Synthetic times (src/utils/synthetic_timing.rs) *)

(** [Duration::try_from_secs_f64(x).is_ok()] *)
Definition representable (x : f64) : bool := PrimFloat.leb 0 x && PrimFloat.ltb x (f64_of_Z (2 ^ 64)).
Definition timing_value_ok (x : f64) : bool := PrimFloat.is_finite x && negb (PrimFloat.ltb x 0) && representable x.
Definition timing_validate (m : TimingModel) : result EngineError unit :=
  if forallb timing_value_ok [per_sample_seconds m; overhead_seconds m; sigma_per_sample_seconds m; sigma_overhead_seconds m]
  then Ok tt
  else Err (InvalidInputE "timing seconds must be finite, nonnegative and representable").

(** Seconds, and whether they were clipped at zero. *)
Definition timing_duration (m : TimingModel) (samples : usize) (work_key : u64) : result EngineError (f64 * bool) :=
  let? _ := timing_validate m in
  let n := f64_of_Z samples in
  let seconds :=
    if PrimFloat.eqb (sigma_per_sample_seconds m) 0 && PrimFloat.eqb (sigma_overhead_seconds m) 0
    then PrimFloat.add (PrimFloat.mul n (per_sample_seconds m)) (overhead_seconds m)
    else
      let '(g, u) := mc_unit (mc_seed (Z.lxor (timing_seed m) work_key)) in
      let radius := PrimFloat.sqrt (PrimFloat.mul (-2) (ln (PrimFloat.sub 1 u))) in
      let angle := PrimFloat.mul 6.283185307179586 (mc_unit g).2 in
      let per_sample := PrimFloat.add (per_sample_seconds m) (PrimFloat.mul (PrimFloat.mul (sigma_per_sample_seconds m) radius) (cos angle)) in
      PrimFloat.add (PrimFloat.add (PrimFloat.mul n per_sample) (overhead_seconds m))
        (PrimFloat.mul (PrimFloat.mul (sigma_overhead_seconds m) radius) (sin angle)) in
  if negb (PrimFloat.is_finite seconds) || negb (representable (f64_max seconds 0))
  then Err (InvalidInputE "synthetic batch duration overflow")
  else Ok (f64_max seconds 0, PrimFloat.ltb seconds 0).
Definition wait (m : TimingModel) (samples : usize) (work_key : u64) : result EngineError unit :=
  let? _ := timing_duration m samples work_key in Ok tt.

(** ** The sampler *)

Record NaiveSampler := mkNaive {
  nm_domain : Domain;
  nm_params : NaiveMonteCarloSamplerParams;
  nm_rng : mc_rng;
  produced_samples : u64;
  returned_samples : u64;
  pending_training_samples : usize;
  window_returned : usize;
  updates : u64;
  produced_batches_total : usize
}.
Definition set_nm_rng (g : mc_rng) (s : NaiveSampler) : NaiveSampler :=
  mkNaive (nm_domain s) (nm_params s) g (produced_samples s) (returned_samples s) (pending_training_samples s) (window_returned s)
    (updates s) (produced_batches_total s).
Definition count_batch (s : NaiveSampler) : NaiveSampler :=
  mkNaive (nm_domain s) (nm_params s) (nm_rng s) (produced_samples s) (returned_samples s) (pending_training_samples s)
    (window_returned s) (updates s) (produced_batches_total s + 1).
Definition set_nm_params (p : NaiveMonteCarloSamplerParams) (s : NaiveSampler) : NaiveSampler :=
  mkNaive (nm_domain s) p (nm_rng s) (produced_samples s) (returned_samples s) (pending_training_samples s) (window_returned s)
    (updates s) (produced_batches_total s).

Notation window s := (training_window_samples (nm_params s)).

Definition timings_validate (p : NaiveMonteCarloSamplerParams) : result EngineError unit :=
  let? _ := timing_validate (generation_timing p) in
  let? _ := timing_validate (ingest_timing p) in
  timing_validate (update_timing p).

Definition from_params_and_domain (p : NaiveMonteCarloSamplerParams) (d : Domain) : result EngineError NaiveSampler :=
  let? _ := timings_validate p in
  Ok (mkNaive d p (mc_seed (np_seed p)) 0 0 0 0 0 0).

(** The difference of the source; [training_windows_hold] shows it is one of naturals. *)
Definition training_samples_remaining (s : NaiveSampler) : option usize :=
  if 0 <? window s then Some (window s - window_returned s - pending_training_samples s) else None.

Definition naive_validate_domain (d : Domain) (s : NaiveSampler) : result EngineError unit :=
  if domain_eqb d (nm_domain s) then Ok tt else Err (Build "naive_monte_carlo sampler domain mismatch").

(** A snapshot is the state without its parameters. *)
Definition from_snapshot (p : NaiveMonteCarloSamplerParams) (snapshot : NaiveSampler) (d : Domain) : result EngineError NaiveSampler :=
  let s := set_nm_params p snapshot in
  let? _ := naive_validate_domain d s in
  let? _ := timings_validate p in
  if (0 <? window s) && ((window s <=? window_returned s) || (window s - window_returned s <? pending_training_samples s))
  then Err (Build "invalid synthetic training window snapshot")
  else Ok s.

(** *** Points *)

Definition finite_weight (w : f64) : result EngineError f64 :=
  if PrimFloat.is_finite w then Ok w else Err (EngineE "uniform sampling weight overflow").

Fixpoint draw_indices (cards : list usize) (g : mc_rng) : mc_rng * list Z :=
  match cards with
  | [] => (g, [])
  | n :: cards => let '(g, i) := mc_index n g in let '(g, l) := draw_indices cards g in (g, wrap_i64 i :: l)
  end.
Fixpoint draw_units (n : nat) (g : mc_rng) : mc_rng * list f64 :=
  match n with
  | O => (g, [])
  | S n => let '(g, x) := mc_unit g in let '(g, l) := draw_units n g in (g, x :: l)
  end.

(** The coordinates and the weight of a uniform point. *)
Fixpoint sample_domain_point (d : Domain) (g : mc_rng) : mc_rng * result EngineError row :=
  match d with
  | Rectangular _ cards continuous_dims =>
      if existsb (fun c => c =? 0) cards
      then (g, Err (EngineE "naive_monte_carlo cannot sample rectangular domains with zero-cardinality discrete axes"))
      else
        let '(g, discrete) := draw_indices cards g in
        let '(g, continuous) := draw_units (Z.to_nat continuous_dims) g in
        (g, let? w := finite_weight (foldl (fun w n => PrimFloat.mul w (f64_of_Z n)) 1%float cards) in Ok (discrete, continuous, w))
  | Discrete _ _ branches =>
      match branches with
      | [] => (g, Err (EngineE "naive_monte_carlo cannot sample a discrete domain with no branches"))
      | _ =>
          let '(g, i) := mc_index (zlen branches) g in
          (fix pick (bs : list DomainBranch) (k : nat) : mc_rng * result EngineError row :=
             match bs, k with
             | [], _ => (g, Err (EngineE "index out of bounds"))
             | mkDomainBranch index d :: _, O =>
                 let '(g, r) := sample_domain_point d g in
                 (g, let? r := r in
                     let? w := finite_weight (PrimFloat.mul (f64_of_Z (zlen branches)) (row_weight r)) in
                     Ok (wrap_i64 index :: row_discrete r, row_continuous r, w))
             | _ :: bs, S k => pick bs k
             end) branches (Z.to_nat i)
      end
  end.

Notation Builder := IndexedBatchBuilder.
Fixpoint draw_points (n : nat) (d : Domain) (b : Builder) (g : mc_rng) : mc_rng * result EngineError Builder :=
  match n with
  | O => (g, Ok b)
  | S n =>
      match sample_domain_point d g with
      | (g, Ok r) => draw_points n d (builder_push b (row_discrete r) (row_continuous r) (row_weight r)) g
      | (g, Err e) => (g, Err e)
      end
  end.

(** *** The operations of a sampler *)

Notation M := (SE NaiveSampler EngineError).

Definition injected (s : NaiveSampler) : bool :=
  match fail_on_produce_batch_nr (nm_params s) with
  | Some n => (0 <? n) && (produced_batches_total s =? n)
  | None => false
  end.
(** After the loop *)
Definition count_drawn (n : usize) (g : mc_rng) (s : NaiveSampler) : NaiveSampler :=
  mkNaive (nm_domain s) (nm_params s) g (produced_samples s + n) (returned_samples s)
    (if 0 <? window s then pending_training_samples s + n else pending_training_samples s) (window_returned s) (updates s)
    (produced_batches_total s).

Definition naive_generate (max_samples : usize) : M (Generation mc_rng) := fun s =>
  if max_samples =? 0 then (s, Err (InvalidInputE "max_samples must be positive"))
  else
    let remaining := training_samples_remaining s in
    if bool_decide (remaining = Some 0) then (s, Ok Waiting)
    else
      let n := match remaining with Some r => Z.min max_samples r | None => max_samples end in
      let s := count_batch s in
      if injected s then (s, Err (EngineE "naive_monte_carlo injected produce failure"))
      else
        match wait (generation_timing (nm_params s)) n (Z.lxor (produced_samples s) 0x67656e) with
        | Err e => (s, Err e)
        | Ok _ =>
            match draw_points (Z.to_nat n) (nm_domain s) builder_new (nm_rng s) with
            | (g, Err e) => (set_nm_rng g s, Err e)
            | (g, Ok b) => (count_drawn n g s, Ok (GBatch (mkLatentBatch n (builder_finish b)) remaining))
            end
        end.

Definition count_returned (n : usize) (s : NaiveSampler) : NaiveSampler :=
  mkNaive (nm_domain s) (nm_params s) (nm_rng s) (produced_samples s) (returned_samples s + n) (pending_training_samples s - n)
    (window_returned s + n) (updates s) (produced_batches_total s).
Definition count_update (s : NaiveSampler) : NaiveSampler :=
  mkNaive (nm_domain s) (nm_params s) (nm_rng s) (produced_samples s) (returned_samples s) (pending_training_samples s) 0
    (updates s + 1) (produced_batches_total s).

Definition naive_feedback (f : Feedback) : M unit := fun s =>
  let n := feedback_len f in
  if n =? 0 then (s, Ok tt)
  else if (window s =? 0) || (pending_training_samples s <? n) then (s, Err (EngineE "unexpected synthetic training values"))
  else
    match wait (ingest_timing (nm_params s)) n (Z.lxor (returned_samples s) 0x696e67) with
    | Err e => (s, Err e)
    | Ok _ =>
        let s := count_returned n s in
        if window_returned s =? window s then
          match wait (update_timing (nm_params s)) (window_returned s) (Z.lxor (updates s) 0x757064) with
          | Err e => (s, Err e)
          | Ok _ => (count_update s, Ok tt)
          end
        else (s, Ok tt)
    end.

(** ** Probabilities *)

(** [usize::try_from(value)] below the cardinality *)
Definition in_axis (value : i64) (cardinality : usize) : bool := (0 <=? value) && (value <? cardinality).

Fixpoint rectangular_probability (cards : list usize) (fixed : gmap Z i64) (dim : usize) (p : f64) : option f64 :=
  match cards with
  | [] => Some p
  | c :: cards =>
      if c =? 0 then None
      else
        match fixed !! dim with
        | Some value => if in_axis value c then rectangular_probability cards fixed (dim + 1) (PrimFloat.div p (f64_of_Z c)) else None
        | None => rectangular_probability cards fixed (dim + 1) p
        end
  end.
Definition deepest_below (fixed : gmap Z i64) (depth : usize) : bool := bool_decide (map_Forall (fun dim _ => dim < depth) fixed).

Fixpoint discrete_subspace_probability (d : Domain) (fixed : gmap Z i64) (depth : usize) : f64 :=
  match d with
  | Rectangular _ cards _ =>
      match rectangular_probability cards fixed depth 1%float with
      | None => 0%float
      | Some p => if deepest_below fixed (depth + zlen cards) then p else 0%float
      end
  | Discrete _ _ branches =>
      let share d := PrimFloat.div (discrete_subspace_probability d fixed (depth + 1)) (f64_of_Z (zlen branches)) in
      match fixed !! depth with
      | Some value =>
          if value <? 0 then 0%float
          else
            (fix find (bs : list DomainBranch) : f64 :=
               match bs with
               | [] => 0%float
               | mkDomainBranch i d :: bs => if i =? value then share d else find bs
               end) branches
      | None =>
          (fix sum (acc : f64) (bs : list DomainBranch) : f64 :=
             match bs with
             | [] => acc
             | mkDomainBranch _ d :: bs => sum (PrimFloat.add acc (share d)) bs
             end) 0%float branches
      end
  end.

Definition naive_discrete_mass_batch (subspaces : list DiscreteSubspace) : M (list (option f64)) := fun s =>
  (s, Ok (map (fun subspace => Some (discrete_subspace_probability (nm_domain s) subspace 0)) subspaces)).

Definition naive_pdf (d : Domain) (discrete : list Z) (continuous : list f64) : option f64 :=
  match continuous_dims_at_discrete_path d discrete with
  | Err _ => None
  | Ok width =>
      if negb (zlen continuous =? width) || existsb (fun x => negb (PrimFloat.is_finite x)) continuous then None
      else if existsb (fun x => negb (unit_interval x)) continuous then Some 0%float
      else Some (discrete_subspace_probability d (list_to_map (imap (fun i x => (Z.of_nat i, x)) discrete)) 0)
  end.
Definition naive_pdf_batch (points : list (list Z * list f64)) : M (list (option f64)) := fun s =>
  (s, Ok (map (fun p => naive_pdf (nm_domain s) p.1 p.2) points)).

(** The sampler behind the interface of the runner, with the JSON of a state. *)
Context {J : Type} (to_json : NaiveSampler -> J) (diagnostics_json : NaiveSampler -> J).
#[export] Instance naive_sampler : @SamplerOps J mc_rng NaiveSampler := {
  s_generate := naive_generate;
  s_feedback := naive_feedback;
  s_discrete_mass_batch := naive_discrete_mass_batch;
  s_persisted_output s := (s, Ok None);
  s_snapshot s := (s, Ok (to_json s));
  s_diagnostics s := (s, diagnostics_json s)
}.
End naive.
