(* ===== verification/NaiveLaws.v ===== *)
(** Training windows of the naive sampler are barriers, and what it draws are points of
    its domain (src/sampling/sampler_aggregator/naive_monte_carlo.rs). *)
From S2P Require Import Prelude Floats Errors Domain Batch Config LatentBatch Feedback Generation AccumulatorTrait Scalar Stratification Vector Gammaloop AccumulatorState Extraction Evaluation Raster Metrics WorkQueue Queue Tasks Runner NaiveMonteCarlo.

Section laws.
Context {R : McRng} {TM : TimingMath}.
Notation window s := (training_window_samples (nm_params s)).

(** ** Windows *)

(** The counters of a sampler that was created with a positive window. *)
Record windows_ok (s : NaiveSampler) : Prop := {
  wo_window : 0 < window s;
  wo_produced : produced_samples s = returned_samples s + pending_training_samples s;
  wo_returned : returned_samples s = updates s * window s + window_returned s;
  wo_pending : 0 <= pending_training_samples s;
  wo_partial : 0 <= window_returned s;
  wo_room : window_returned s + pending_training_samples s <= window s
}.

(** A draw, values that come back (with an error as well), and a restart from the
    snapshot of the state. *)
Inductive naive_step : NaiveSampler -> NaiveSampler -> Prop :=
| step_generate s n : 0 <= n -> naive_step s (naive_generate n s).1
| step_feedback s f : naive_step s (naive_feedback f s).1
| step_restart s s' d : from_snapshot (nm_params s) s d = Ok s' -> naive_step s s'.

Lemma remaining_some s r : training_samples_remaining s = Some r -> 0 < window s /\ r = window s - window_returned s - pending_training_samples s.
Proof. unfold training_samples_remaining. destruct (Z.ltb_spec 0 (window s)); [intros [= <-]; done|done]. Qed.

Lemma generate_windows n s : 0 <= n -> windows_ok s -> windows_ok (naive_generate n s).1.
Proof.
  intros Hn [Hw Hp Hr Hpend Hpart Hroom]. unfold naive_generate. destruct (n =? 0); [done|]. cbv zeta.
  destruct (bool_decide _) eqn:Eb; [done|]. apply bool_decide_eq_false in Eb. destruct (injected _); [done|].
  destruct (wait _ _ _); [|done]. destruct (draw_points _ _ _ _) as [g [b|e]]; [|done]. cbn [fst].
  unfold training_samples_remaining in *. rewrite (proj2 (Z.ltb_lt _ _) Hw) in *.
  unfold count_drawn, count_batch. cbn. rewrite (proj2 (Z.ltb_lt _ _) Hw). split; cbn; try lia.
Qed.

Lemma feedback_windows f s : windows_ok s -> windows_ok (naive_feedback f s).1.
Proof.
  intros [Hw Hp Hr Hpend Hpart Hroom]. unfold naive_feedback. cbv zeta.
  pose proof (zlen_nonneg (unmasked_values f)) as H0. fold (feedback_len f) in H0.
  destruct (feedback_len f =? 0); [done|]. destruct (_ || _) eqn:Eg; [done|]. apply orb_false_iff in Eg as [_ Eg%Z.ltb_ge].
  destruct (wait _ _ _); [|done].
  assert (windows_ok (count_returned (feedback_len f) s)) as Hs by (split; cbn; lia).
  destruct (Z.eqb_spec (window_returned (count_returned (feedback_len f) s)) (window (count_returned (feedback_len f) s))) as [He|_]; [|done].
  destruct (wait _ _ _); [|done]. cbn [fst]. destruct Hs as [Hw' Hp' Hr' Hpend' Hpart' Hroom']. cbn in *. split; cbn; lia.
Qed.

Lemma restart_windows s s' d : windows_ok s -> from_snapshot (nm_params s) s d = Ok s' -> windows_ok s'.
Proof.
  intros Hs. unfold from_snapshot. cbv zeta. destruct (naive_validate_domain _ _); [|done]. destruct (timings_validate _); [|done]. cbn [result_bind].
  destruct (_ && _); [done|]. intros [= <-]. by destruct s.
Qed.

Lemma new_windows p d s : 0 < training_window_samples p -> from_params_and_domain p d = Ok s -> windows_ok s.
Proof. intros Hw. unfold from_params_and_domain. destruct (timings_validate p); [|done]. intros [= <-]. split; cbn; lia. Qed.

(** C32: training windows are barriers. Whatever is drawn, fed back or refused, and
    however often the sampler is restored from its snapshot: what a draw may still
    take of the window is a natural number; every sample is returned or pending;
    before update [k] no sample beyond the [k]-th window is drawn; and the sampler
    only waits when all samples of its window are drawn and some are not returned,
    or the update of a full window has failed. *)
Theorem training_windows_hold p d s0 s :
  0 < training_window_samples p -> from_params_and_domain p d = Ok s0 -> steps naive_step s0 s ->
  (exists r, training_samples_remaining s = Some r /\ 0 <= r <= window s) /\
  produced_samples s = returned_samples s + pending_training_samples s /\
  produced_samples s <= (updates s + 1) * window s /\
  (forall n, (naive_generate n s).2 = Ok Waiting -> 0 < pending_training_samples s \/ window_returned s = window s).
Proof.
  intros Hw H0 Hs. assert (windows_ok s) as [Hw' Hp Hr Hpend Hpart Hroom].
  { eapply (steps_invariant naive_step windows_ok); [|by eapply new_windows|exact Hs].
    intros x y Hx Hstep. destruct Hstep as [x n Hn|x f|x y d' Hr];
      [by apply generate_windows|by apply feedback_windows|exact (restart_windows _ _ _ Hx Hr)]. }
  split_and!; [|done|nia|].
  - exists (window s - window_returned s - pending_training_samples s). unfold training_samples_remaining.
    rewrite (proj2 (Z.ltb_lt _ _) Hw'). split; [done|lia].
  - intros n. unfold naive_generate. destruct (n =? 0); [done|]. cbv zeta. destruct (bool_decide _) eqn:Eb.
    + apply bool_decide_eq_true, remaining_some in Eb. intros _. lia.
    + destruct (injected _); [done|]. destruct (wait _ _ _); [|done]. by destruct (draw_points _ _ _ _) as [g [b|e]].
Qed.

(** ** Points *)

Definition all_unit (l : list f64) : Prop := Forall (fun x => unit_interval x = true) l.

Context {RL : McRngLaws R}.

(** The casts to [i64] lose nothing below its bound. *)
Lemma wrap_i64_id z : 0 <= z <= i64_max -> wrap_i64 z = z.
Proof. unfold wrap_i64, i64_max. intros Hz. rewrite Z.mod_small; lia. Qed.

Lemma draw_indices_ok cards g :
  existsb (fun c => c =? 0) cards = false -> Forall (fun c => 0 <= c <= i64_max) cards ->
  Forall2 (fun x n => 0 <= x < n) (draw_indices cards g).2 cards.
Proof.
  revert g. induction cards as [|n cards IH]; intros g; cbn [existsb draw_indices]; [constructor|].
  intros [Hn Hz]%orb_false_iff [H0 Hcards]%Forall_cons. apply Z.eqb_neq in Hn.
  pose proof (mc_index_range n g ltac:(lia)) as Hi. destruct (mc_index n g) as [g' i]. cbn in Hi.
  specialize (IH g' Hz Hcards). destruct (draw_indices cards g') as [g2 l].
  constructor; [|done]. rewrite wrap_i64_id; lia.
Qed.

Lemma draw_units_ok n g : zlen (draw_units n g).2 = Z.of_nat n /\ all_unit (draw_units n g).2.
Proof.
  revert g. induction n as [|n IH]; intros g; cbn [draw_units]; [split; [done|constructor]|].
  pose proof (mc_unit_range g) as Hx. destruct (mc_unit g) as [g' x]. destruct (IH g') as [Hl Hu]. destruct (draw_units n g') as [g2 l].
  cbn in *. split; [rewrite zlen_cons; lia|by constructor].
Qed.

Lemma finite_weight_ok w x : finite_weight w = Ok x -> x = w.
Proof. unfold finite_weight. destruct (PrimFloat.is_finite w); [|done]. by intros [= <-]. Qed.

(** A point of the domain: a path to a leaf, and as many coordinates as it asks for. *)
Definition row_ok (d : Domain) (r : row) : Prop :=
  validate_point_parts d (row_discrete r) (row_continuous r) = Ok tt /\ all_unit (row_continuous r).

Lemma row_ok_discrete l role bs b r w :
  increasing bs -> b ∈ bs -> 0 <= branch_index b -> row_ok (branch_domain b) r ->
  row_ok (Discrete l role bs) (branch_index b :: row_discrete r, row_continuous r, w).
Proof.
  intros Hinc Hb Hpos [Hv Hu]. split; [|done]. unfold validate_point_parts in *. cbn [row_discrete row_continuous fst snd] in *.
  rewrite leaf_path_discrete, (proj2 (Z.ltb_ge _ _)), (find_increasing bs b Hinc Hb) by lia. exact Hv.
Qed.

(** The branch that is drawn. *)
Lemma sample_discrete l role bs g g' r :
  sample_domain_point (Discrete l role bs) g = (g', Ok r) ->
  exists b g1 q w, b ∈ bs /\ sample_domain_point (branch_domain b) g1 = (g', Ok q) /\
    r = (wrap_i64 (branch_index b) :: row_discrete q, row_continuous q, w).
Proof.
  assert (forall (n : Z) g1 sub k,
    (fix pick (bs : list DomainBranch) (k : nat) : mc_rng * result EngineError row :=
       match bs, k with
       | [], _ => (g1, Err (EngineE "index out of bounds"))
       | mkDomainBranch index d :: _, O =>
           let '(g, r) := sample_domain_point d g1 in
           (g, let? r := r in
               let? w := finite_weight (PrimFloat.mul (f64_of_Z n) (row_weight r)) in
               Ok (wrap_i64 index :: row_discrete r, row_continuous r, w))
       | _ :: bs, S k => pick bs k
       end) sub k = (g', Ok r) ->
    exists b q w, b ∈ sub /\ sample_domain_point (branch_domain b) g1 = (g', Ok q) /\
      r = (wrap_i64 (branch_index b) :: row_discrete q, row_continuous q, w)) as Hpick.
  { intros n g1. induction sub as [|[index d] sub IH]; intros [|k]; [done..| |].
    - destruct (sample_domain_point d g1) as [g2 [q|e]] eqn:Eq; [|done]. cbn [result_bind].
      destruct (finite_weight _) as [w|e]; [|done]. intros [= <- <-]. exists (mkDomainBranch index d), q, w.
      split; [left|done].
    - intros (b & q & w & Hb & Hq)%IH. exists b, q, w. split; [by right|done]. }
  destruct bs as [|b0 bs]; [done|]. cbn [sample_domain_point]. destruct (mc_index _ g) as [g1 i]. intros Hk.
  destruct (Hpick (zlen (b0 :: bs)) g1 (b0 :: bs) (Z.to_nat i) Hk) as (b & q & w & Hb). by exists b, g1, q, w.
Qed.

Lemma sample_point_ok d seen g g' r :
  domain_sized d = true -> validate_visit d seen = Ok tt -> sample_domain_point d g = (g', Ok r) -> row_ok d r.
Proof.
  revert seen g g' r. induction d as [l role bs IH|strata cards dims] using Domain_ind'; intros seen g g' r Hsz Hd Hs.
  - apply validate_visit_discrete in Hd as ((_ & Hmax & Hinc)%branches_malformed_spec & _ & Hbs). apply domain_sized_discrete in Hsz.
    apply sample_discrete in Hs as (b & g1 & q & w & Hb & Hq & ->). rewrite Forall_forall in IH, Hbs, Hsz, Hmax.
    destruct (Hsz _ Hb) as [Hpos Hszb]. specialize (Hmax _ Hb). cbn in Hmax. rewrite (wrap_i64_id (branch_index b)) by done. apply row_ok_discrete; [done..|]. exact (IH _ Hb _ _ _ _ Hszb (Hbs _ Hb) Hq).
  - cbn [sample_domain_point] in Hs. destruct (existsb (fun c => c =? 0) cards) eqn:Ez; [done|].
    cbn [domain_sized] in Hsz. apply andb_true_iff in Hsz as [[_ Hcards]%andb_true_iff Hdims]. apply Z.leb_le in Hdims.
    pose proof (draw_indices_ok cards g Ez) as Hp. destruct (draw_indices cards g) as [g1 discrete].
    pose proof (draw_units_ok (Z.to_nat dims) g1) as [Hn Hu].
    destruct (draw_units (Z.to_nat dims) g1) as [g2 continuous]. cbn [fst snd] in *. destruct (finite_weight _) as [w|e]; [|done].
    injection Hs as _ <-. split; [|done]. unfold validate_point_parts. cbn [row_discrete row_continuous fst snd].
    rewrite (proj2 (leaf_path_rectangular strata cards dims discrete dims)).
    + cbn [result_bind]. by rewrite (proj2 (Z.eqb_eq _ _)) by lia.
    + split; [done|]. apply Hp. apply forallb_True_iff in Hcards. eapply Forall_impl; [exact Hcards|].
      intros n [Hn0 Hn1]%andb_true_iff. apply Z.leb_le in Hn0, Hn1. done.
Qed.

Lemma draw_points_rows n d b rows g g' b' :
  domain_sized d = true -> domain_validate d = Ok tt -> builds b rows -> draw_points n d b g = (g', Ok b') ->
  exists drawn, builds b' (rows ++ drawn) /\ length drawn = n /\ Forall (row_ok d) drawn.
Proof.
  intros Hsz Hd. revert b rows g. induction n as [|n IH]; intros b rows g Hb; cbn [draw_points].
  - intros [= _ <-]. exists []. by rewrite app_nil_r.
  - destruct (sample_domain_point d g) as [g1 [r|e]] eqn:Er; [|done].
    intros (drawn & Hb' & Hl & Hok)%(IH _ _ _ (builds_push b rows r Hb)). exists (r :: drawn).
    rewrite cons_middle, app_assoc. split; [done|]. split; [by cbn; rewrite Hl|]. constructor; [|done].
    exact (sample_point_ok d false g g1 r Hsz Hd Er).
Qed.

(** *** Errors *)

Definition overflow_error : EngineError := EngineE "uniform sampling weight overflow".

Lemma finite_weight_error w e : finite_weight w = Err e -> e = overflow_error.
Proof. unfold finite_weight. destruct (PrimFloat.is_finite w); [done|]. by intros [= <-]. Qed.

(** The branch that is drawn exists. *)
Lemma sample_discrete_error l role bs g g' e :
  bs <> [] -> sample_domain_point (Discrete l role bs) g = (g', Err e) ->
  e = overflow_error \/ exists b g1, b ∈ bs /\ sample_domain_point (branch_domain b) g1 = (g', Err e).
Proof.
  assert (forall (n : Z) g1 sub k, (k < length sub)%nat ->
    (fix pick (bs : list DomainBranch) (k : nat) : mc_rng * result EngineError row :=
       match bs, k with
       | [], _ => (g1, Err (EngineE "index out of bounds"))
       | mkDomainBranch index d :: _, O =>
           let '(g, r) := sample_domain_point d g1 in
           (g, let? r := r in
               let? w := finite_weight (PrimFloat.mul (f64_of_Z n) (row_weight r)) in
               Ok (wrap_i64 index :: row_discrete r, row_continuous r, w))
       | _ :: bs, S k => pick bs k
       end) sub k = (g', Err e) ->
    e = overflow_error \/ exists b, b ∈ sub /\ sample_domain_point (branch_domain b) g1 = (g', Err e)) as Hpick.
  { intros n g1. induction sub as [|[index d] sub IH]; intros [|k] Hk; [cbn in Hk; lia..| |].
    - destruct (sample_domain_point d g1) as [g2 [q|e']] eqn:Eq; cbn [result_bind].
      + destruct (finite_weight _) as [w|e'] eqn:Ew; [done|]. intros [= <- <-]. left. by apply finite_weight_error in Ew.
      + intros [= <- <-]. right. exists (mkDomainBranch index d). split; [left|done].
    - intros [->|(b & Hb & Hq)]%IH; [by left| |cbn in Hk; lia]. right. exists b. split; [by right|done]. }
  destruct bs as [|b0 bs]; [done|]. intros _. cbn [sample_domain_point].
  pose proof (mc_index_range (zlen (b0 :: bs)) g) as Hi. destruct (mc_index _ g) as [g1 i]. cbn [snd] in Hi. intros Hk.
  apply (Hpick (zlen (b0 :: bs)) g1 (b0 :: bs) (Z.to_nat i)) in Hk.
  - destruct Hk as [->|(b & Hb)]; [by left|]. right. by exists b, g1.
  - unfold zlen in Hi. cbn [length] in *. lia.
Qed.

Lemma sample_point_error d seen g g' e :
  validate_visit d seen = Ok tt -> sample_domain_point d g = (g', Err e) -> e = overflow_error.
Proof.
  revert seen g g'. induction d as [l role bs IH|strata cards dims] using Domain_ind'; intros seen g g' Hd Hs.
  - apply validate_visit_discrete in Hd as ((Hne & _ & _)%branches_malformed_spec & _ & Hbs). rewrite Forall_forall in IH, Hbs.
    apply sample_discrete_error in Hs as [->|(b & g1 & Hb & Hq)]; [done| |done]. exact (IH _ Hb _ _ _ (Hbs _ Hb) Hq).
  - cbn [validate_visit] in Hd. cbn [sample_domain_point] in Hs. destruct (existsb (fun c => c =? 0) cards); [done|].
    destruct (draw_indices cards g) as [g1 discrete]. destruct (draw_units (Z.to_nat dims) g1) as [g2 continuous].
    destruct (finite_weight _) as [w|e'] eqn:Ew; [done|]. injection Hs as _ <-. by apply finite_weight_error in Ew.
Qed.

Lemma draw_points_error n d b g g' e :
  domain_validate d = Ok tt -> draw_points n d b g = (g', Err e) -> e = overflow_error.
Proof.
  intros Hd. revert b g. induction n as [|n IH]; intros b g; cbn [draw_points]; [done|].
  destruct (sample_domain_point d g) as [g1 [r|e']] eqn:Er; [apply IH|]. intros [= _ <-]. by eapply sample_point_error.
Qed.

Definition draw_errors : list EngineError :=
  [InvalidInputE "max_samples must be positive"; EngineE "naive_monte_carlo injected produce failure";
   InvalidInputE "timing seconds must be finite, nonnegative and representable"; InvalidInputE "synthetic batch duration overflow";
   overflow_error].

Lemma wait_error m n key e : wait m n key = Err e -> e ∈ draw_errors.
Proof.
  unfold wait, timing_duration, timing_validate. destruct (forallb _ _); cbn [result_bind].
  - destruct (_ || _); cbn [result_bind]; [|done]. intros [= <-]. set_solver.
  - intros [= <-]. set_solver.
Qed.

(** What a batch promises to the one who asked for [m] samples. *)
Record drawn (m : usize) (s s' : NaiveSampler) (batch : LatentBatch mc_rng) (remaining : option usize) (rows : list row) : Prop := {
  dr_rows : latent_rows batch rows;
  dr_valid : Forall (row_ok (nm_domain s)) rows;
  dr_size : 0 < nr_samples batch <= m;
  dr_room : remaining = training_samples_remaining s /\ forall r, remaining = Some r -> nr_samples batch <= r;
  dr_count : produced_samples s' = produced_samples s + nr_samples batch;
  dr_decoded : zlen (concat (map row_continuous rows)) <= usize_max -> as_batch (payload batch) = Ok (map row_point rows)
}.

(** C31: over a valid domain a draw gives points of it, or waits, or names its error.
    A batch announces as many samples as it decodes to, at least one, at most as many
    as were asked for and as the window still takes; each is a point of the domain
    (the discrete path of a leaf, the number of coordinates of that leaf, all between
    0 and 1). It waits only when the window has no room. It never ends the task nor indexes a missing
    branch or axis: the errors are those of the request, the injected failure, the
    synthetic time, and a weight that overflows. *)
Theorem draws_are_valid_points m s :
  domain_sized (nm_domain s) = true -> domain_validate (nm_domain s) = Ok tt ->
  0 <= m -> (forall r, training_samples_remaining s = Some r -> 0 <= r) ->
  match (naive_generate m s).2 with
  | Ok (GBatch batch remaining) => exists rows, drawn m s (naive_generate m s).1 batch remaining rows
  | Ok Waiting => training_samples_remaining s = Some 0
  | Ok Finished => False
  | Err e => e ∈ draw_errors
  end.
Proof.
  intros Hsz Hd Hm Hrem. unfold naive_generate. destruct (Z.eqb_spec m 0) as [|Hm0]; [cbn [snd]; set_solver|]. cbv zeta.
  destruct (bool_decide _) eqn:Er; [by apply bool_decide_eq_true in Er|]. apply bool_decide_eq_false in Er.
  destruct (injected _); [cbn [snd]; set_solver|]. destruct (wait _ _ _) eqn:Ew; [|by apply wait_error in Ew].
  destruct (draw_points _ _ _ _) as [g [b|e]] eqn:Ed; cbn [fst snd].
  2:{ apply draw_points_error in Ed as ->; [set_solver|done]. }
  set (n := match training_samples_remaining s with Some r => Z.min m r | None => m end) in *.
  assert (0 < n <= m /\ forall r, training_samples_remaining s = Some r -> n <= r) as (Hn & Hr).
  { subst n. destruct (training_samples_remaining s) as [r|]; [|split; [lia|done]]. specialize (Hrem r eq_refl).
    assert (r <> 0) by congruence. split; [lia|intros ? [= <-]; lia]. }
  destruct (draw_points_rows _ _ _ [] _ _ _ Hsz Hd builds_new Ed) as (rows & [_ Henc] & Hl & Hok).
  exists rows. split; [|done|exact Hn|split; [done|exact Hr]|done|by apply as_batch_rows].
  split; [exact Henc|]. cbn. unfold zlen. lia.
Qed.
End laws.

(** ** A run

    Two windows of three samples over a branch with two axes and one without. *)
#[export] Instance stepped_rng : McRng := {
  mc_rng := Z;
  mc_seed s := s;
  mc_index n g := (g + 1, g mod n);
  mc_unit g := (g + 1, 0.5%float)
}.
#[export] Instance stepped_rng_laws : McRngLaws stepped_rng.
Proof. split; [intros n g Hn; cbn; apply Z.mod_pos_bound; lia|done]. Qed.
#[export] Instance flat_timing_math : TimingMath := { ln x := x; cos x := x; sin x := x }.

Definition no_time : TimingModel := mkTiming 0 0 0 0 7.
Definition three_per_window : NaiveMonteCarloSamplerParams := mkNaiveParams 5 3 no_time no_time no_time None None.
Definition two_branches : Domain :=
  Discrete None Integrand
    [mkDomainBranch 7 (domain_continuous 0); mkDomainBranch 42 (domain_rectangular_with_cardinalities 3 [2; 3])].
Definition fresh_sampler : NaiveSampler := mkNaive two_branches three_per_window 5 0 0 0 0 0 0.
Definition two_drawn : NaiveSampler := (naive_generate 2 fresh_sampler).1.
Definition window_drawn : NaiveSampler := (naive_generate 8 two_drawn).1.
Definition window_fed : NaiveSampler := (naive_feedback (feedback_new [1; 2; 3]%float) window_drawn).1.

Example a_window_is_a_barrier :
  (naive_generate 4 window_drawn).2 = Ok Waiting /\ updates window_fed = 1 /\ training_samples_remaining window_fed = Some 3 /\
  map (fun '(p, x) => naive_pdf two_branches p x) [([7], []); ([42; 1; 0], [0.5; 0.5; 0.5]%float); ([42; 1; 3], [0.5; 0.5; 0.5]%float); ([7], [0.5]%float)] =
  [Some 0.5%float; Some (1 / 2 / 3 / 2)%float; None; None].
Proof. vm_compute. done. Qed.

Lemma training_windows_hold_witness :
  from_params_and_domain three_per_window two_branches = Ok fresh_sampler /\
  exists r, training_samples_remaining window_fed = Some r /\ 0 <= r <= 3.
Proof.
  split; [vm_compute; reflexivity|].
  apply (training_windows_hold three_per_window two_branches fresh_sampler window_fed);
    [reflexivity|vm_compute; reflexivity|].
  eapply steps_step; [eapply steps_step; [eapply steps_step; [apply steps_refl|]|]|].
  - exact (step_generate fresh_sampler 2 ltac:(lia)).
  - exact (step_generate two_drawn 8 ltac:(lia)).
  - exact (step_feedback window_drawn (feedback_new [1; 2; 3]%float)).
Defined.

Lemma draws_are_valid_points_witness :
  exists batch remaining rows,
    (naive_generate 2 fresh_sampler).2 = Ok (GBatch batch remaining) /\ drawn 2 fresh_sampler two_drawn batch remaining rows.
Proof.
  pose proof (draws_are_valid_points 2 fresh_sampler) as H.
  assert (exists batch remaining, (naive_generate 2 fresh_sampler).2 = Ok (GBatch batch remaining)) as (batch & remaining & E).
  { eexists _, _. vm_compute. reflexivity. }
  rewrite E in H. destruct H as [rows Hrows].
  - reflexivity.
  - reflexivity.
  - lia.
  - intros r. vm_compute. by intros [= <-].
  - by exists batch, remaining, rows.
Defined.
