(* ===== verification/HavanaGrid.v ===== *)
(** The grids of src/sampling/havana_grid.rs and the queries on them of
    src/sampling/sampler_aggregator/havana.rs: a grid that is built for a domain and the
    check that it still fits one, densities of points and masses of subspaces.

    The grid is Symbolica's, the class [SymbolicaGrid]. Of its fields the code reads the
    edges of its bins, the probabilities of its branches and its nesting: [GridShape]. *)
From S2P Require Import Prelude Floats Errors Domain Batch Config LatentBatch Feedback Generation AccumulatorTrait Scalar Stratification Vector Gammaloop AccumulatorState Extraction Evaluation Raster Metrics WorkQueue Queue Tasks Runner Havana NaiveMonteCarlo.

(** [partitionings] are the edges of the bins of each coordinate. *)
Inductive GridShape : Type :=
| GContinuous (partitionings : list (list f64))
| GDiscrete (bins : list GridBin)
| GUniform (discrete_bins : list usize) (partitionings : list (list f64))
with GridBin : Type :=
| mkBin (pdf : f64) (sub_grid : option GridShape).
Definition bin_pdf (b : GridBin) : f64 := match b with mkBin pdf _ => pdf end.
Definition sub_grid (b : GridBin) : option GridShape := match b with mkBin _ g => g end.

Class SymbolicaGrid {R : McRng} := {
  sgrid : Type;
  grid_shape : sgrid -> GridShape;
  grid_sample : sgrid -> mc_rng -> Sample -> mc_rng * Sample;
  sample_new : Sample;
  get_weight : Sample -> f64;
  add_training_sample : Sample -> f64 -> sgrid -> sgrid * result string unit;
  grid_update : f64 -> f64 -> sgrid -> sgrid;
  (** [ContinuousGrid::new(dims, bins, samples_for_update, None, false)],
      [DiscreteGrid::new(bins, ratio, false)] *)
  continuous_grid : usize -> usize -> usize -> result string sgrid;
  discrete_grid : list (option sgrid) -> f64 -> result string sgrid;
  (** [activate_symbolica_oem_license] *)
  activate_license : result string unit
}.
Definition build_err {A} (m : result string A) : result EngineError A := map_err Build m.

(** ** Construction *)

Section build.
Context {R : McRng} {SG : SymbolicaGrid}.

Definition DEFAULT_DISCRETE_MAX_PROB_RATIO : f64 := 30%float.

Fixpoint build_rectangular_havana_grid (continuous_dims : usize) (cards : list usize) (p : HavanaSamplerParams)
    : result EngineError sgrid :=
  match cards with
  | cardinality :: tail =>
      if cardinality =? 0 then Err (Build "havana sampler requires rectangular discrete cardinalities > 0")
      else
        let? bins := try_map (fun _ => let? g := build_rectangular_havana_grid continuous_dims tail p in Ok (Some g)) (seqZ 0 cardinality) in
        build_err (discrete_grid bins DEFAULT_DISCRETE_MAX_PROB_RATIO)
  | [] =>
      if continuous_dims =? 0 then Err (Build "havana sampler requires continuous_dims > 0")
      else build_err (continuous_grid continuous_dims (hp_bins p) (hp_samples_for_update p))
  end.

Fixpoint build_havana_grid (d : Domain) (p : HavanaSamplerParams) : result EngineError sgrid :=
  let? _ := build_err activate_license in
  match d with
  | Rectangular _ cards continuous_dims => build_rectangular_havana_grid continuous_dims cards p
  | Discrete _ _ branches =>
      if list_is_nil branches then Err (Build "havana sampler requires at least one discrete branch")
      else
        let? bins :=
          (fix each (bs : list DomainBranch) : result EngineError (list (option sgrid)) :=
             match bs with
             | [] => Ok []
             | mkDomainBranch _ d :: bs =>
                 let? g := build_havana_grid d p in
                 let? gs := each bs in
                 Ok (Some g :: gs)
             end) branches in
        build_err (discrete_grid bins DEFAULT_DISCRETE_MAX_PROB_RATIO)
  end.
End build.

(** ** The check against a domain *)

Definition try_each {A} (f : A -> result EngineError unit) (l : list A) : result EngineError unit :=
  try_fold (fun _ x => f x) tt l.

Definition validate_sub (f : GridShape -> result EngineError unit) (b : GridBin) : result EngineError unit :=
  match sub_grid b with
  | None => Err (Build "missing a nested grid")
  | Some g => f g
  end.

Fixpoint validate_rectangular_havana_grid (g : GridShape) (continuous_dims : usize) (cards : list usize)
    : result EngineError unit :=
  match cards with
  | cardinality :: tail =>
      match g with
      | GDiscrete bins =>
          if negb (zlen bins =? cardinality) then Err (Build "expects other rectangular discrete branches")
          else try_each (validate_sub (fun g => validate_rectangular_havana_grid g continuous_dims tail)) bins
      | _ => Err (Build "expects rectangular discrete dimensions, got a continuous grid")
      end
  | [] =>
      match g with
      | GContinuous partitionings =>
          if zlen partitionings =? continuous_dims then Ok tt else Err (Build "expects other continuous_dims")
      | _ => Err (Build "expects a continuous grid")
      end
  end.

Fixpoint validate_havana_grid_domain (g : GridShape) (d : Domain) : result EngineError unit :=
  match d with
  | Rectangular _ cards continuous_dims => validate_rectangular_havana_grid g continuous_dims cards
  | Discrete _ _ branches =>
      match g with
      | GDiscrete bins =>
          if negb (zlen bins =? zlen branches) then Err (Build "expects other discrete branches")
          else
            (fix each (bs : list DomainBranch) (bins : list GridBin) : result EngineError unit :=
               match bs, bins with
               | mkDomainBranch _ d :: bs, bin :: bins =>
                   let? _ := validate_sub (fun g => validate_havana_grid_domain g d) bin in each bs bins
               | _, _ => Ok tt
               end) branches bins
      | GUniform _ _ => Err (Build "does not support uniform grids")
      | GContinuous _ => Err (Build "expects discrete dimensions, got a continuous grid")
      end
  end.

(** [None] is the panic of an index out of range. *)
Definition branch_domain_at (d : Domain) (index : usize) : option Domain :=
  match d with
  | Discrete _ _ branches => option_map branch_domain (zget branches index)
  | Rectangular strata_dims cards continuous_dims =>
      match cards with
      | [] => None
      | _ :: tail => Some (Rectangular (usize_saturating_sub strata_dims 1) tail continuous_dims)
      end
  end.

(** ** The density of a point *)

(** The index of [binary_search_by], found or not, over edges that increase. *)
Fixpoint edges_below (x : f64) (edges : list f64) : usize :=
  match edges with
  | [] => 0
  | e :: edges => if PrimFloat.ltb e x then 1 + edges_below x edges else 0
  end.

Definition dimension_pdf (edges : list f64) (x : f64) (pdf : f64) : result EngineError f64 :=
  let bin_index := if PrimFloat.leb 1 x then usize_saturating_sub (zlen edges) 2 else usize_saturating_sub (edges_below x edges) 1 in
  let? lower := ok_or (EngineE "continuous grid partitioning is empty") (zget edges bin_index) in
  let? upper := ok_or (EngineE "continuous grid partitioning is missing the upper edge") (zget edges (bin_index + 1)) in
  let width := PrimFloat.sub upper lower in
  if PrimFloat.leb width 0 then Err (EngineE "continuous grid has non-positive bin width")
  else Ok (PrimFloat.mul pdf (PrimFloat.div 1 (PrimFloat.mul (f64_of_Z (zlen edges - 1)) width))).

Fixpoint dimensions_pdf (partitionings : list (list f64)) (xs : list f64) (pdf : f64) : result EngineError f64 :=
  match partitionings, xs with
  | edges :: partitionings, x :: xs =>
      if negb (unit_interval x) then Ok 0%float
      else let? pdf := dimension_pdf edges x pdf in dimensions_pdf partitionings xs pdf
  | _, _ => Ok pdf
  end.

Definition continuous_grid_pdf (partitionings : list (list f64)) (xs : list f64) : result EngineError f64 :=
  if negb (zlen partitionings =? zlen xs) then Err (EngineE "continuous point dimension mismatch")
  else dimensions_pdf partitionings xs 1%float.

Fixpoint uniform_path (discrete : list Z) (bins : list usize) : result EngineError bool :=
  match discrete, bins with
  | index :: discrete, nr_bins :: bins =>
      if index <? 0 then Err (EngineE "negative discrete index in uniform-grid pdf query")
      else if nr_bins <=? index then Ok false else uniform_path discrete bins
  | _, _ => Ok true
  end.

(** [recurse]: the density below a grid and the number of indices read so far. *)
Fixpoint pdf_recurse (g : GridShape) (discrete : list Z) (xs : list f64) (discrete_index : usize)
    : result EngineError (f64 * usize) :=
  match g with
  | GContinuous partitionings => let? p := continuous_grid_pdf partitionings xs in Ok (p, discrete_index)
  | GDiscrete bins =>
      let? branch_idx := ok_or (EngineE "discrete point dimension mismatch for havana pdf query") (zget discrete discrete_index) in
      if branch_idx <? 0 then Err (EngineE "negative discrete index in havana pdf query")
      else
        (fix pick (bins : list GridBin) (k : nat) : result EngineError (f64 * usize) :=
           match bins, k with
           | [], _ => Ok (0%float, discrete_index)
           | mkBin pdf sub :: _, O =>
               let? child :=
                 match sub with
                 | Some g => pdf_recurse g discrete xs (discrete_index + 1)
                 | None =>
                     if list_is_nil xs then Ok (1%float, discrete_index + 1)
                     else Err (EngineE "continuous coordinates provided for discrete-only havana grid")
                 end in
               Ok (PrimFloat.mul pdf child.1, child.2)
           | _ :: bins, S k => pick bins k
           end) bins (Z.to_nat branch_idx)
  | GUniform discrete_bins partitionings =>
      if negb (zlen discrete =? zlen discrete_bins) then Err (EngineE "uniform-grid discrete dimension mismatch in havana pdf query")
      else
        let? inside := uniform_path discrete discrete_bins in
        if negb inside then Ok (0%float, discrete_index)
        else
          let discrete_mass := foldl (fun acc n => PrimFloat.div acc (f64_of_Z n)) 1%float discrete_bins in
          let? p := continuous_grid_pdf partitionings xs in Ok (PrimFloat.mul discrete_mass p, discrete_index)
  end.

Definition grid_pdf (g : GridShape) (discrete : list Z) (xs : list f64) : result EngineError (option f64) :=
  let? p := pdf_recurse g discrete xs 0 in
  if negb (p.2 =? zlen discrete) then Err (EngineE "extra discrete coordinates remained after havana pdf traversal")
  else Ok (Some p.1).

(** [pdf_batch] of both samplers: a path outside of the domain has density zero. *)
Definition havana_pdf (g : GridShape) (d : Domain) (p : list Z * list f64) : result EngineError (option f64) :=
  match map_discrete_path d p.1 false with
  | Err _ => Ok (Some 0%float)
  | Ok mapped => grid_pdf g mapped p.2
  end.

(** ** The mass of a subspace *)

Definition positive_pdf (x : f64) : bool := PrimFloat.is_finite x && PrimFloat.ltb 0 x.
Definition bin_probability (bins : list GridBin) (index : usize) : f64 :=
  let pdf_sum := f64_sum (List.filter positive_pdf (map bin_pdf bins)) in
  if PrimFloat.ltb 0 pdf_sum then
    match zget bins index with
    | Some b => if positive_pdf (bin_pdf b) then PrimFloat.div (bin_pdf b) pdf_sum else 0%float
    | None => 0%float
    end
  else if list_is_nil bins then 0%float
  else PrimFloat.div 1 (f64_of_Z (zlen bins)).

(** [fixed_dims.keys().any(|dim| *dim >= depth)] *)
Definition fixed_from (fixed : gmap Z i64) (depth : usize) : bool := negb (deepest_below fixed depth).
Definition index_panic : EngineError := EngineE "index out of bounds".

Fixpoint uniform_mass (bins : list usize) (fixed : gmap Z i64) (dim : usize) (pdf : f64) : result EngineError (option f64) :=
  match bins with
  | [] => Ok (Some pdf)
  | nr_bins :: bins =>
      if nr_bins =? 0 then Ok None
      else
        match fixed !! dim with
        | Some value =>
            if value <? 0 then Err (EngineE "negative discrete index in havana uniform discrete_mass query")
            else if nr_bins <=? value then Ok None
            else uniform_mass bins fixed (dim + 1) (PrimFloat.div pdf (f64_of_Z nr_bins))
        | None => uniform_mass bins fixed (dim + 1) pdf
        end
  end.

(** The bin a label selects. *)
Definition bin_of_label (d : Domain) (value : i64) : option usize :=
  match d with
  | Discrete _ _ branches => position (fun b => branch_index b =? value) branches
  | Rectangular _ _ _ => Some value
  end.

Fixpoint grid_discrete_subspace_pdf (g : GridShape) (d : Domain) (fixed : gmap Z i64) (depth : usize) : result EngineError f64 :=
  match g with
  | GContinuous _ => Ok (if fixed_from fixed depth then 0%float else 1%float)
  | GDiscrete bins =>
      let child index sub :=
        match sub with
        | Some g => let? d := ok_or index_panic (branch_domain_at d index) in grid_discrete_subspace_pdf g d fixed (depth + 1)
        | None => Ok (if fixed_from fixed (depth + 1) then 0%float else 1%float)
        end in
      match fixed !! depth with
      | Some value =>
          if value <? 0 then Err (EngineE "negative discrete index in havana discrete_mass query")
          else
            match bin_of_label d value with
            | None => Ok 0%float
            | Some value =>
                (fix pick (rest : list GridBin) (k : nat) : result EngineError f64 :=
                   match rest, k with
                   | [], _ => Ok 0%float
                   | mkBin _ sub :: _, O =>
                       let? c := child value sub in Ok (PrimFloat.mul (bin_probability bins value) c)
                   | _ :: rest, S k => pick rest k
                   end) bins (Z.to_nat value)
            end
      | None =>
          (fix sum (rest : list GridBin) (index : usize) (pdf : f64) : result EngineError f64 :=
             match rest with
             | [] => Ok pdf
             | mkBin _ sub :: rest =>
                 let? c := child index sub in
                 sum rest (index + 1) (PrimFloat.add pdf (PrimFloat.mul (bin_probability bins index) c))
             end) bins 0 0%float
      end
  | GUniform discrete_bins _ =>
      let? p := uniform_mass discrete_bins fixed depth 1%float in
      Ok (match p with
          | None => 0%float
          | Some p => if fixed_from fixed (depth + zlen discrete_bins) then 0%float else p
          end)
  end.
