(* ===== verification/HavanaTraining.v ===== *)
(** src/sampling/sampler_aggregator/havana.rs: the sampler that trains a grid, its
    snapshot, and the samplers and materializers that read the grid it leaves.

    Diagnostics only report; the statistics of the grid in them are Symbolica's. *)
From S2P Require Import Prelude Floats Errors Domain Batch Config LatentBatch Feedback Generation AccumulatorTrait Scalar Stratification Vector Gammaloop AccumulatorState Extraction Evaluation Raster Metrics WorkQueue Queue Tasks Runner StageContext Havana NaiveMonteCarlo HavanaGrid.

Section training.
Context {R : McRng} {SG : SymbolicaGrid} {LM : Libm}.

Definition validate_havana_sampler_params (p : HavanaSamplerParams) : result EngineError unit :=
  if hp_bins p =? 0 then Err (Build "havana sampler requires bins > 0")
  else if hp_samples_for_update p =? 0 then Err (Build "havana sampler requires samples_for_update > 0")
  else if negb (PrimFloat.is_finite (initial_training_rate p)) || PrimFloat.ltb (initial_training_rate p) 0
  then Err (Build "havana sampler requires initial_training_rate >= 0")
  else if negb (PrimFloat.is_finite (final_training_rate p)) || PrimFloat.ltb (final_training_rate p) 0
  then Err (Build "havana sampler requires final_training_rate >= 0")
  else Ok tt.

(** ** State *)

Record HavanaSampler := mkHavana {
  hs_domain : Domain;
  reusable_samples : list Sample;
  hs_batches_produced : usize;
  hs_samples_produced : usize;
  hs_batches_ingested : usize;
  hs_samples_ingested : usize;
  samples_for_update : usize;
  stop_training_after_n_samples : usize;
  hs_initial_rate : f64;
  hs_final_rate : f64;
  hs_grid : sgrid;
  hs_rng : mc_rng;
  pending_training_samples : list (list Sample)
}.
Definition set_drawing (reusable : list Sample) (rng : mc_rng) (s : HavanaSampler) : HavanaSampler :=
  mkHavana (hs_domain s) reusable (hs_batches_produced s) (hs_samples_produced s) (hs_batches_ingested s) (hs_samples_ingested s)
    (samples_for_update s) (stop_training_after_n_samples s) (hs_initial_rate s) (hs_final_rate s) (hs_grid s) rng (pending_training_samples s).
Definition set_hs_grid (g : sgrid) (s : HavanaSampler) : HavanaSampler :=
  mkHavana (hs_domain s) (reusable_samples s) (hs_batches_produced s) (hs_samples_produced s) (hs_batches_ingested s)
    (hs_samples_ingested s) (samples_for_update s) (stop_training_after_n_samples s) (hs_initial_rate s) (hs_final_rate s) g (hs_rng s)
    (pending_training_samples s).

Definition havana_from_params_and_domain (p : HavanaSamplerParams) (d : Domain) (stop : usize) : result EngineError HavanaSampler :=
  let? _ := validate_havana_sampler_params p in
  if stop =? 0 then Err (Build "havana sampler requires sample task nr_samples > 0")
  else
    let? grid := build_havana_grid d p in
    Ok (mkHavana d [] 0 0 0 0 (hp_samples_for_update p) stop (initial_training_rate p) (final_training_rate p) grid (mc_seed (hp_seed p)) []).

(** ** Windows *)

Definition pending_training_sample_count (s : HavanaSampler) : usize := zsum (map zlen (pending_training_samples s)).

Definition inflight_or_ingested (s : HavanaSampler) : usize :=
  usize_saturating_add (hs_samples_ingested s) (pending_training_sample_count s).
Definition remaining_training_samples_to_produce (s : HavanaSampler) : usize :=
  usize_saturating_sub (stop_training_after_n_samples s) (inflight_or_ingested s).
Definition remaining_training_samples (s : HavanaSampler) : usize :=
  usize_saturating_sub (stop_training_after_n_samples s) (hs_samples_ingested s).

Definition training_window_samples_remaining (s : HavanaSampler) : usize :=
  let remaining_training := remaining_training_samples_to_produce s in
  if remaining_training =? 0 then 0
  else
    let completed_windows := hs_samples_ingested s / samples_for_update s in
    let current_window_end := usize_saturating_mul (usize_saturating_add completed_windows 1) (samples_for_update s) in
    Z.min remaining_training (usize_saturating_sub current_window_end (inflight_or_ingested s)).

(** The rate after [ingested] samples. *)
Definition training_rate (rate0 rate1 : f64) (stop ingested : usize) : f64 :=
  let progress := PrimFloat.div (f64_of_Z (Z.min ingested stop)) (f64_of_Z stop) in
  if PrimFloat.leb rate0 0 || PrimFloat.leb rate1 0
  then PrimFloat.add rate0 (PrimFloat.mul (PrimFloat.sub rate1 rate0) progress)
  else PrimFloat.mul rate0 (powf (PrimFloat.div rate1 rate0) progress).
Definition current_training_rate (s : HavanaSampler) : f64 :=
  training_rate (hs_initial_rate s) (hs_final_rate s) (stop_training_after_n_samples s) (hs_samples_ingested s).

(** ** Draws *)

(** The point of a sample: renamed path, coordinates, weight. *)
Definition sample_row (d : Domain) (sample : Sample) : result EngineError row :=
  let? c := sample_components get_weight sample in
  let? path := map_discrete_path d c.1.1 true in
  Ok (path, c.1.2, c.2).

(** [samples.resize_with(n, Sample::new)] *)
Definition resize_samples (n : usize) (l : list Sample) : list Sample :=
  ztake n l ++ replicate (Z.to_nat (n - zlen l)) sample_new.

Notation Builder := IndexedBatchBuilder.
(** [for sample in &mut samples]: the buffers, overwritten one by one. *)
Fixpoint draw_samples (buffers : list Sample) (g : sgrid) (d : Domain) (b : Builder) (rng : mc_rng)
    : mc_rng * result EngineError (list Sample * Builder) :=
  match buffers with
  | [] => (rng, Ok ([], b))
  | sample :: buffers =>
      let '(rng, sample) := grid_sample g rng sample in
      match sample_row d sample with
      | Err e => (rng, Err e)
      | Ok r =>
          let '(rng, rest) := draw_samples buffers g d (builder_push b (row_discrete r) (row_continuous r) (row_weight r)) rng in
          (rng, let? rest := rest in Ok (sample :: rest.1, rest.2))
      end
  end.

Definition push_drawn (samples : list Sample) (n : usize) (rng : mc_rng) (s : HavanaSampler) : HavanaSampler :=
  mkHavana (hs_domain s) [] (hs_batches_produced s + 1) (hs_samples_produced s + n) (hs_batches_ingested s) (hs_samples_ingested s)
    (samples_for_update s) (stop_training_after_n_samples s) (hs_initial_rate s) (hs_final_rate s) (hs_grid s) rng
    (pending_training_samples s ++ [samples]).

Notation M := (SE HavanaSampler EngineError).

Definition training_generate (max_samples : usize) : M (Generation mc_rng) := fun s =>
  if max_samples =? 0 then (s, Err (InvalidInputE "max_samples must be positive"))
  else if stop_training_after_n_samples s <=? hs_samples_produced s then (s, Ok Finished)
  else
    let remaining := training_window_samples_remaining s in
    if remaining =? 0 then (s, Ok Waiting)
    else
      let nr_samples := Z.min remaining max_samples in
      let buffers := resize_samples nr_samples (reusable_samples s) in
      match draw_samples buffers (hs_grid s) (hs_domain s) builder_new (hs_rng s) with
      | (rng, Err e) => (set_drawing [] rng s, Err e)
      | (rng, Ok (samples, b)) =>
          (push_drawn samples nr_samples rng s, Ok (GBatch (mkLatentBatch nr_samples (builder_finish b)) (Some remaining)))
      end.

(** ** Training *)

Fixpoint train_loop (pairs : list (f64 * Sample)) (g : sgrid) : sgrid * result EngineError unit :=
  match pairs with
  | [] => (g, Ok tt)
  | (eval, sample) :: pairs =>
      match add_training_sample sample (PrimFloat.div eval (get_weight sample)) g with
      | (g, Err e) => (g, Err (EngineE e))
      | (g, Ok _) => train_loop pairs g
      end
  end.

Definition pop_trained (front : list Sample) (rest : list (list Sample)) (train_len : usize) (s : HavanaSampler) : HavanaSampler :=
  mkHavana (hs_domain s) front (hs_batches_produced s) (hs_samples_produced s) (hs_batches_ingested s + 1)
    (usize_saturating_add (hs_samples_ingested s) train_len) (samples_for_update s) (stop_training_after_n_samples s)
    (hs_initial_rate s) (hs_final_rate s) (hs_grid s) (hs_rng s) rest.

(** The updates of the windows between two counts. *)
Definition update_windows (before : usize) (train_len : usize) (s : HavanaSampler) : HavanaSampler :=
  let previous_bucket := before / samples_for_update s in
  let current_bucket := hs_samples_ingested s / samples_for_update s in
  if (0 <? train_len) && (previous_bucket <? current_bucket) then
    let rate := current_training_rate s in
    set_hs_grid (Nat.iter (Z.to_nat (current_bucket - previous_bucket)) (grid_update rate rate) (hs_grid s)) s
  else s.

Definition training_feedback (f : Feedback) : M unit := fun s =>
  let values := feedback_values f in
  match pending_training_samples s with
  | [] => (s, Err (EngineE "havana sampler received training weights with no pending training batch"))
  | samples :: rest =>
      if negb (zlen values =? zlen samples) then (s, Err (EngineE "training/sample size mismatch in Havana sampler"))
      else
        let before := hs_samples_ingested s in
        let train_len := Z.min (remaining_training_samples s) (zlen values) in
        match train_loop (ztake train_len (zip values samples)) (hs_grid s) with
        | (g, Err e) => (set_hs_grid g s, Err e)
        | (g, Ok _) => (update_windows before train_len (pop_trained samples rest train_len (set_hs_grid g s)), Ok tt)
        end
  end.

(** ** Snapshots *)

Record HavanaSamplerSnapshot := mkHavanaSnapshot {
  hn_domain : Domain;
  hn_batches_produced : usize;
  hn_samples_produced : usize;
  hn_batches_ingested : usize;
  hn_samples_ingested : usize;
  hn_stop : usize;
  hn_grid : sgrid;
  hn_rng : mc_rng;
  hn_pending : list (list Sample)
}.
Definition to_snapshot (s : HavanaSampler) : HavanaSamplerSnapshot :=
  mkHavanaSnapshot (hs_domain s) (hs_batches_produced s) (hs_samples_produced s) (hs_batches_ingested s) (hs_samples_ingested s)
    (stop_training_after_n_samples s) (hs_grid s) (hs_rng s) (pending_training_samples s).

Definition domain_mismatch : EngineError := Build "Havana snapshot domain does not match the requested layout".

Definition havana_from_snapshot (p : HavanaSamplerParams) (n : HavanaSamplerSnapshot) (d : Domain) : result EngineError HavanaSampler :=
  let? _ := build_err activate_license in
  let? _ := validate_havana_sampler_params p in
  if negb (domain_eqb (hn_domain n) d) then Err domain_mismatch
  else
    let? _ := validate_havana_grid_domain (grid_shape (hn_grid n)) d in
    Ok (mkHavana d [] (hn_batches_produced n) (hn_samples_produced n) (hn_batches_ingested n) (hn_samples_ingested n)
          (hp_samples_for_update p) (hn_stop n) (initial_training_rate p) (final_training_rate p) (hn_grid n) (hn_rng n) (hn_pending n)).

(** ** Queries *)

Definition training_validate_domain (d : Domain) (s : HavanaSampler) : result EngineError unit :=
  validate_havana_grid_domain (grid_shape (hs_grid s)) d.
Definition training_pdf_batch (points : list (list Z * list f64)) : M (list (option f64)) := fun s =>
  (s, try_map (havana_pdf (grid_shape (hs_grid s)) (hs_domain s)) points).
Definition training_discrete_mass_batch (subspaces : list DiscreteSubspace) : M (list (option f64)) := fun s =>
  (s, try_map (fun fixed => let? p := grid_discrete_subspace_pdf (grid_shape (hs_grid s)) (hs_domain s) fixed 0 in Ok (Some p)) subspaces).

(** The training sampler behind the interface of the runner, with the JSON of a state. *)
Context {J : Type} (to_json : HavanaSamplerSnapshot -> J) (diagnostics_json : HavanaSampler -> J).
#[export] Instance training_sampler : @SamplerOps J mc_rng HavanaSampler := {
  s_generate := training_generate;
  s_feedback := training_feedback;
  s_discrete_mass_batch := training_discrete_mass_batch;
  s_persisted_output s := (s, Ok None);
  s_snapshot s := (s, Ok (to_json (to_snapshot s)));
  s_diagnostics s := (s, diagnostics_json s)
}.

(** ** Inference *)

(** The domain and the grid of a [HavanaInferenceSampler], and its moving part. *)
Record InferenceSampler := mkInference {
  inf_domain : Domain;
  inf_grid : sgrid;
  inf_state : @Havana.HavanaInferenceSampler mc_rng
}.

Definition into_inference (seed : option u64) (s : HavanaSampler) : InferenceSampler :=
  mkInference (hs_domain s) (hs_grid s)
    (mkHavanaInferenceSampler (match seed with Some seed => mc_seed seed | None => hs_rng s end) 0 0).

(** [HavanaInferenceSamplerSnapshot] has the fields of its sampler. *)
Definition inference_from_snapshot (n : InferenceSampler) (d : Domain) : result EngineError InferenceSampler :=
  let? _ := build_err activate_license in
  if negb (domain_eqb (inf_domain n) d) then Err domain_mismatch
  else
    let? _ := validate_havana_grid_domain (grid_shape (inf_grid n)) d in
    Ok (mkInference d (inf_grid n) (inf_state n)).

Definition inference_generate (max_samples : usize) : SE InferenceSampler EngineError (Generation mc_rng) := fun s =>
  match havana_generate (grid_sample (inf_grid s)) sample_new max_samples (inf_state s) with
  | (state, Ok batch) => (mkInference (inf_domain s) (inf_grid s) state, Ok (GBatch batch None))
  | (state, Err e) => (mkInference (inf_domain s) (inf_grid s) state, Err e)
  end.
Definition inference_feedback (f : Feedback) : SE InferenceSampler EngineError unit := fun s =>
  if negb (feedback_is_empty f) then (s, Err (EngineE "havana inference sampler does not accept training weights")) else (s, Ok tt).

Definition inference_pdf_batch (points : list (list Z * list f64)) : SE InferenceSampler EngineError (list (option f64)) := fun s =>
  (s, try_map (havana_pdf (grid_shape (inf_grid s)) (inf_domain s)) points).
Definition inference_discrete_mass_batch (subspaces : list DiscreteSubspace) : SE InferenceSampler EngineError (list (option f64)) := fun s =>
  (s, try_map (fun fixed => let? p := grid_discrete_subspace_pdf (grid_shape (inf_grid s)) (inf_domain s) fixed 0 in Ok (Some p)) subspaces).

Context (inference_json inference_diagnostics : InferenceSampler -> J).
#[export] Instance inference_sampler : @SamplerOps J mc_rng InferenceSampler := {
  s_generate := inference_generate;
  s_feedback := inference_feedback;
  s_discrete_mass_batch := inference_discrete_mass_batch;
  s_persisted_output s := (s, Ok None);
  s_snapshot s := (s, Ok (inference_json s));
  s_diagnostics s := (s, inference_diagnostics s)
}.

Context {SS : @SavedStates J}.
(** The JSON of the two snapshots, and of the [grid] and [domain] of either. *)
Variable decode_training : J -> option HavanaSamplerSnapshot.
Variable decode_inference : J -> option InferenceSampler.
Variable decode_grid : J -> option sgrid.
Variable decode_domain : J -> option Domain.

(** [HavanaInferenceSampler::from_params_and_snapshot] *)
Definition inference_from_saved (seed : option u64) (saved : @SavedSampler J) (d : Domain) : result EngineError InferenceSampler :=
  let? _ := saved_validate saved in
  match sampler_of (saved_config saved) with
  | HavanaTraining training_params =>
      let? n := ok_or (Build "failed to decode havana sampler snapshot for inference handoff") (decode_training (saved_state saved)) in
      let? training := havana_from_snapshot training_params n d in
      Ok (into_inference seed training)
  | Tasks.HavanaInferenceSampler _ =>
      let? n := ok_or (Build "failed to decode havana inference sampler snapshot") (decode_inference (saved_state saved)) in
      let? s := inference_from_snapshot n d in
      Ok (mkInference (inf_domain s) (inf_grid s)
            (mkHavanaInferenceSampler (match seed with Some seed => mc_seed seed | None => his_rng (inf_state s) end) 0 0))
  | _ => Err (Build "havana_inference sampler requires a havana snapshot for handoff")
  end.

(** [HavanaInferenceMaterializer::new]: the grid and the domain it replays. *)
Definition materializer_new (handoff : option (@SavedSampler J)) : result EngineError (sgrid * Domain) :=
  let? _ := build_err activate_license in
  let? saved := ok_or (Build "havana inference materializer requires a saved Havana grid")
                  (match handoff with Some saved => if contains_havana_grid saved then Some saved else None | None => None end) in
  let? grid := ok_or (Build "failed to decode havana grid for materializer handoff") (decode_grid (saved_state saved)) in
  let? d := ok_or (Build "invalid Havana domain") (decode_domain (saved_state saved)) in
  let? _ := map_err Build (domain_validate d) in
  let? _ := validate_havana_grid_domain (grid_shape grid) d in
  Ok (grid, d).
End training.
