(* ===== verification/HavanaLaws.v ===== *)
(** The training sampler of src/sampling/sampler_aggregator/havana.rs against a
    reference that draws one sample at a time and trains on it at once: batch sizes, the
    delay of the values and restarts change neither the draws nor the grid. *)
From S2P Require Import Prelude Floats Errors Domain Batch Config LatentBatch Feedback Generation AccumulatorTrait Scalar Stratification Vector Gammaloop AccumulatorState Extraction Evaluation Raster Metrics WorkQueue Queue Tasks Runner StageContext Havana NaiveMonteCarlo NaiveLaws HavanaGrid HavanaTraining.

(** What the documentation of the grid promises: a draw overwrites the sample it is
    given, and training samples change the draws at the next update only. *)
Class GridLaws {R : McRng} (SG : SymbolicaGrid) := {
  sample_overwrites g r s s' : grid_sample g r s = grid_sample g r s';
  sample_until_update x v g r s : grid_sample (add_training_sample x v g).1 r s = grid_sample g r s
}.

(** ** Windows of numbers *)

Lemma window_inside w i j : 0 < w -> 0 <= i <= j -> j < (i / w + 1) * w -> i / w = j / w.
Proof. intros. Z.div_mod_to_equations. nia. Qed.
Lemma window_end w i : 0 < w -> 0 <= i -> (i + 1) mod w = 0 <-> (i + 1) / w = i / w + 1.
Proof. intros. split; intros; Z.div_mod_to_equations; nia. Qed.
Lemma window_not_end w i : 0 < w -> 0 <= i -> (i + 1) mod w <> 0 <-> (i + 1) / w = i / w.
Proof. intros. split; intros; Z.div_mod_to_equations; nia. Qed.

Section laws.
Context {R : McRng} {SG : SymbolicaGrid} {LM : Libm} {GL : GridLaws SG}.

(** ** The reference *)

Section online.
(** What an evaluator returns for a sample; the parameters, and the grid and the
    generator training starts from. *)
Variable value : Sample -> f64.
Variable p : HavanaSamplerParams.
Variable stop : usize.
Variable grid0 : sgrid.
Variable rng0 : mc_rng.

Definition rate_after (n : Z) : f64 := training_rate (initial_training_rate p) (final_training_rate p) stop n.
Definition train_one (n : Z) (sample : Sample) (g : sgrid) : sgrid :=
  let g := (add_training_sample sample (PrimFloat.div (value sample) (get_weight sample)) g).1 in
  if n mod hp_samples_for_update p =? 0 then grid_update (rate_after n) (rate_after n) g else g.

(** The grid and the generator after [n] samples. *)
Fixpoint online (n : nat) : sgrid * mc_rng :=
  match n with
  | O => (grid0, rng0)
  | S n =>
      let '(rng, sample) := grid_sample (online n).1 (online n).2 sample_new in
      (train_one (Z.of_nat (S n)) sample (online n).1, rng)
  end.
Definition online_sample (n : nat) : Sample := (grid_sample (online n).1 (online n).2 sample_new).2.
Definition online_samples (from n : nat) : list Sample := map online_sample (seq from n).

Definition same_draws (g g' : sgrid) : Prop := forall r s, grid_sample g r s = grid_sample g' r s.

Lemma online_S n : online (S n) = (train_one (Z.of_nat (S n)) (online_sample n) (online n).1, (grid_sample (online n).1 (online n).2 sample_new).1).
Proof. unfold online_sample. cbn [online]. by destruct (grid_sample _ _ _). Qed.

Notation w := (hp_samples_for_update p).

(** Inside of a window all draws are those of its first grid. *)
Lemma online_window i j :
  0 < w -> (i <= j)%nat -> Z.of_nat i / w = Z.of_nat j / w -> same_draws (online j).1 (online i).1.
Proof.
  intros Hw Hij. induction Hij as [|j Hij IH]; intros Hsame r s; [done|]. rewrite online_S. cbn [fst]. unfold train_one.
  assert (Z.of_nat i / w <= Z.of_nat j / w <= Z.of_nat (S j) / w) as Hm.
  { split; apply Z.div_le_mono; lia. }
  assert (Z.of_nat (S j) / w = Z.of_nat j / w) as Hj by lia.
  assert (Z.of_nat (S j) mod w <> 0) as Hmod.
  { rewrite Nat2Z.inj_succ, <- Z.add_1_r in *. by apply window_not_end; [done|lia|]. }
  rewrite (proj2 (Z.eqb_neq _ _) Hmod). rewrite sample_until_update. apply IH. lia.
Qed.

(** *** Draws *)

Lemma draw_samples_online buffers g d b rows k rng' samples b' :
  (forall j, (k <= j < k + length buffers)%nat -> same_draws (online j).1 g) -> builds b rows ->
  draw_samples buffers g d b (online k).2 = (rng', Ok (samples, b')) ->
  rng' = (online (k + length buffers)).2 /\ samples = online_samples k (length buffers) /\
  exists more, builds b' (rows ++ more) /\ try_map (sample_row d) samples = Ok more.
Proof.
  revert b rows k samples. induction buffers as [|s buffers IH]; intros b rows k samples Hg Hb; cbn [draw_samples length].
  - intros [= <- <- <-]. rewrite Nat.add_0_r. split_and!; [done|done|]. exists []. by rewrite app_nil_r.
  - pose proof (Hg k ltac:(cbn; lia) (online k).2 s) as Hk.
    rewrite <- Hk, (sample_overwrites _ _ s sample_new). clear Hk.
    assert (grid_sample (online k).1 (online k).2 sample_new = ((online (S k)).2, online_sample k)) as ->.
    { rewrite online_S. apply surjective_pairing. }
    destruct (sample_row d (online_sample k)) as [r|e] eqn:Er; [|done].
    destruct (draw_samples buffers g d _ (online (S k)).2) as [rng [[rest bb]|e]] eqn:Ed; [|done]. intros [= <- <- <-].
    destruct (IH (builder_push b (row_discrete r) (row_continuous r) (row_weight r)) (rows ++ [r]) (S k) rest) as (-> & -> & more & Hm & Ht); [|by apply builds_push|exact Ed|].
    { intros j Hj. apply Hg. cbn. lia. }
    replace (k + S (length buffers))%nat with (S k + length buffers)%nat by lia. split_and!; [done|done|].
    exists (r :: more). rewrite cons_middle, app_assoc. split; [done|]. cbn [try_map fst snd]. by rewrite Er, Ht.
Qed.

Lemma resize_samples_length n l : 0 <= n -> length (resize_samples n l) = Z.to_nat n.
Proof. intros. unfold resize_samples, ztake, zlen. rewrite length_app, length_take, length_replicate. lia. Qed.

(** *** Training *)

(** Training on the next samples of the reference, without an update before the last. *)
Lemma train_loop_online len k g' :
  0 < w -> (forall j, (k <= j < k + len)%nat -> j <> (k + len - 1)%nat -> Z.of_nat (S j) mod w <> 0) ->
  train_loop (zip (map value (online_samples k len)) (online_samples k len)) (online k).1 = (g', Ok tt) ->
  (online (k + len)).1 =
  (if (0 <? Z.of_nat len) && (Z.of_nat (k + len) mod w =? 0) then grid_update (rate_after (Z.of_nat (k + len))) (rate_after (Z.of_nat (k + len))) g' else g').
Proof.
  intros Hw. revert k. induction len as [|len IH]; intros k Hmod; cbn [online_samples seq map zip zip_with train_loop].
  - intros [= <-]. by rewrite Nat.add_0_r.
  - destruct (add_training_sample _ _ _) as [g1 [[]|e]] eqn:Ea; [|done]. intros Ht.
    assert ((online (S k)).1 = train_one (Z.of_nat (S k)) (online_sample k) (online k).1) as Hk by by rewrite online_S.
    unfold train_one in Hk. rewrite Ea in Hk. cbn [fst] in Hk.
    destruct len as [|len].
    + cbn in Ht. injection Ht as <-. replace (k + 1)%nat with (S k) by lia. by rewrite Hk.
    + replace (k + S (S len))%nat with (S k + S len)%nat in * by lia.
      rewrite (proj2 (Z.eqb_neq _ _)) in Hk by (apply Hmod; lia). rewrite (IH (S k)).
      * done.
      * intros j Hj Hne. apply Hmod; lia.
      * rewrite Hk. exact Ht.
Qed.

(** ** The sampler follows the reference *)

Variable d : Domain.
Hypothesis Hw : 0 < w.
Hypothesis Hstop : stop <= usize_max.

Record follows (s : HavanaSampler) : Prop := {
  fw_domain : hs_domain s = d;
  fw_update : samples_for_update s = w;
  fw_stop : stop_training_after_n_samples s = stop;
  fw_initial : hs_initial_rate s = initial_training_rate p;
  fw_final : hs_final_rate s = final_training_rate p;
  fw_ingested : 0 <= hs_samples_ingested s;
  fw_produced : hs_samples_produced s = hs_samples_ingested s + pending_training_sample_count s;
  fw_budget : hs_samples_produced s <= stop;
  fw_window : hs_samples_produced s <= (hs_samples_ingested s / w + 1) * w;
  fw_grid : hs_grid s = (online (Z.to_nat (hs_samples_ingested s))).1;
  fw_rng : hs_rng s = (online (Z.to_nat (hs_samples_produced s))).2;
  fw_pending : concat (pending_training_samples s) =
    online_samples (Z.to_nat (hs_samples_ingested s)) (Z.to_nat (pending_training_sample_count s));
  fw_nonempty : Forall (fun batch => batch <> []) (pending_training_samples s)
}.

(** A draw, the values of the oldest draw, a restart from the snapshot. *)
Inductive havana_step : HavanaSampler -> HavanaSampler -> Prop :=
| hstep_generate s s' n g : 0 <= n -> training_generate n s = (s', Ok g) -> havana_step s s'
| hstep_feedback s s' f front rest :
    pending_training_samples s = front :: rest -> feedback_values f = map value front ->
    training_feedback f s = (s', Ok tt) -> havana_step s s'
| hstep_restart s s' d' : havana_from_snapshot p (to_snapshot s) d' = Ok s' -> havana_step s s'.

Lemma pending_count_nonneg s : 0 <= pending_training_sample_count s.
Proof. apply zsum_nonneg, Forall_map, Forall_forall. intros. apply zlen_nonneg. Qed.

(** The saturating arithmetic never saturates. *)
Lemma window_remaining s :
  follows s -> let r := training_window_samples_remaining s in
  0 <= r /\ hs_samples_produced s + r <= stop /\ hs_samples_produced s + r <= (hs_samples_ingested s / w + 1) * w /\
  (r = 0 -> hs_samples_produced s = stop \/ hs_samples_produced s = (hs_samples_ingested s / w + 1) * w).
Proof.
  intros H. pose proof (pending_count_nonneg s) as Hp. cbv zeta. unfold training_window_samples_remaining.
  assert (remaining_training_samples_to_produce s = stop - hs_samples_produced s) as ->.
  { unfold remaining_training_samples_to_produce, inflight_or_ingested, usize_saturating_sub, usize_saturating_add.
    rewrite (fw_stop _ H), (fw_produced _ H). pose proof (fw_budget _ H). rewrite (fw_produced _ H) in *. lia. }
  assert (inflight_or_ingested s = hs_samples_produced s) as ->.
  { unfold inflight_or_ingested, usize_saturating_add. pose proof (fw_budget _ H). rewrite (fw_produced _ H) in *. lia. }
  pose proof (fw_budget _ H). pose proof (fw_window _ H). pose proof (fw_ingested _ H). pose proof (fw_produced _ H).
  destruct (Z.eqb_spec (stop - hs_samples_produced s) 0); [lia|].
  rewrite (fw_update _ H). unfold usize_saturating_add, usize_saturating_mul, usize_saturating_sub.
  assert (hs_samples_ingested s / w + 1 <= usize_max) as Hm.
  { transitivity (hs_samples_ingested s + 1); [|lia]. pose proof (Z.div_le_upper_bound (hs_samples_ingested s) w (hs_samples_ingested s)). nia. }
  rewrite (Z.min_r usize_max (hs_samples_ingested s / w + 1) Hm).
  generalize dependent ((hs_samples_ingested s / w + 1) * w). intros. lia.
Qed.

Lemma online_samples_app k n m : online_samples k (n + m) = online_samples k n ++ online_samples (k + n) m.
Proof. unfold online_samples. by rewrite seq_app, map_app. Qed.
Lemma online_samples_length k n : length (online_samples k n) = n.
Proof. unfold online_samples. by rewrite length_map, length_seq. Qed.

Lemma generate_follows n s s' batch remaining :
  follows s -> 0 <= n -> training_generate n s = (s', Ok (GBatch batch remaining)) ->
  follows s' /\ exists rows, latent_rows batch rows /\ 0 < nr_samples batch <= n /\
    try_map (sample_row d) (online_samples (Z.to_nat (hs_samples_produced s)) (Z.to_nat (nr_samples batch))) = Ok rows.
Proof.
  intros H Hn. unfold training_generate. destruct (Z.eqb_spec n 0) as [|Hn0]; [done|]. destruct (_ <=? _); [done|]. cbv zeta.
  pose proof (window_remaining s H) as (Hr0 & Hrs & Hrw & _). pose proof (pending_count_nonneg s) as Hp.
  set (r := training_window_samples_remaining s) in *. destruct (Z.eqb_spec r 0) as [|Hr]; [done|].
  assert (0 < Z.min r n) as Hnr by lia. set (nr := Z.min r n) in *. rewrite (fw_rng _ H), (fw_domain _ H).
  pose proof (fw_ingested _ H) as Hi. pose proof (fw_produced _ H) as Hpr.
  destruct (draw_samples _ _ _ _ _) as [rng [[samples b]|e]] eqn:Ed; [|done]. intros [= <- <- <-].
  apply (draw_samples_online _ _ _ _ []) in Ed as (-> & -> & more & [_ Henc] & Hmore); [|intros j Hj|apply builds_new].
  2:{ rewrite (fw_grid _ H). rewrite resize_samples_length in Hj by lia. apply online_window; [done|lia|].
      apply window_inside; [done|lia|]. rewrite Z2Nat.id by lia. nia. }
  rewrite resize_samples_length in * by lia. rewrite <- Z2Nat.inj_add in * by lia. split.
  - assert (pending_training_sample_count (push_drawn (online_samples (Z.to_nat (hs_samples_produced s)) (Z.to_nat nr)) nr
        (online (Z.to_nat (hs_samples_produced s + nr))).2 s) = pending_training_sample_count s + nr) as Hc.
    { unfold pending_training_sample_count, push_drawn. cbn [pending_training_samples]. rewrite map_app, zsum_app. cbn.
      unfold zlen. rewrite online_samples_length. lia. }
    destruct H as [Hd Hu Hst H0 H1 _ _ _ Hwin Hg Hrng Hpd Hne].
    split; rewrite ?Hc; unfold push_drawn; cbn [hs_domain samples_for_update stop_training_after_n_samples hs_initial_rate hs_final_rate hs_samples_ingested hs_samples_produced hs_grid hs_rng pending_training_samples];
      [done..|lia|lia|lia|done|done| |].
    + rewrite concat_app, Hpd. cbn. rewrite app_nil_r, (Z2Nat.inj_add _ nr), online_samples_app by lia. do 2 f_equal. lia.
    + apply Forall_app. split; [done|]. constructor; [|constructor]. intros E%(f_equal length). rewrite online_samples_length in E. cbn in E. lia.
  - exists more. split_and!; [|cbn; lia|cbn; lia|done]. split; [exact Henc|]. cbn [nr_samples].
    apply try_map_Forall2, Forall2_length in Hmore. rewrite online_samples_length in Hmore. unfold zlen. lia.
Qed.

(** The updates of a batch that stays in its window. *)
Lemma bucket_of i len :
  0 <= i -> 0 < len -> i + len <= (i / w + 1) * w ->
  (i / w <? (i + len) / w) = ((i + len) mod w =? 0) /\ (i / w < (i + len) / w -> (i + len) / w - i / w = 1).
Proof.
  intros Hi Hl He. assert (0 <= i / w) by (apply Z.div_pos; lia).
  destruct (Z.eq_dec (i + len) ((i / w + 1) * w)) as [->|Hne].
  - rewrite Z.div_mul, Z.mod_mul by lia. split; [|lia]. by rewrite (proj2 (Z.ltb_lt _ _)) by lia.
  - assert (i / w = (i + len) / w) as Hd by (apply window_inside; lia). split; [|lia].
    rewrite (proj2 (Z.ltb_ge _ _)) by lia. symmetry. apply Z.eqb_neq. intros Hm. apply Z.div_exact in Hm; [|lia].
    rewrite <- Hd in Hm. pose proof (Z.mul_div_le i w Hw). lia.
Qed.

Lemma feedback_follows s s' f front rest :
  follows s -> pending_training_samples s = front :: rest -> feedback_values f = map value front ->
  training_feedback f s = (s', Ok tt) ->
  follows s' /\ hs_samples_ingested s' = hs_samples_ingested s + zlen front /\ hs_samples_produced s' = hs_samples_produced s.
Proof.
  intros H Hpd Hv. unfold training_feedback. cbv zeta. rewrite Hpd, Hv, zlen_lmap, Z.eqb_refl. cbn [negb].
  pose proof (fw_ingested _ H) as Hi. pose proof (fw_produced _ H) as Hp. pose proof (fw_budget _ H) as Hb. pose proof (fw_window _ H) as Hwin.
  pose proof (fw_nonempty _ H) as Hne. rewrite Hpd in Hne. apply Forall_cons in Hne as [Hf Hne].
  assert (0 < zlen front) as Hl by (destruct front; [done|rewrite zlen_cons; pose proof (zlen_nonneg front); lia]).
  assert (pending_training_sample_count s = zlen front + zsum (map zlen rest)) as Hc by (unfold pending_training_sample_count; by rewrite Hpd).
  assert (0 <= zsum (map zlen rest)) as Hrest by (apply zsum_nonneg, Forall_map, Forall_forall; intros; apply zlen_nonneg).
  assert (Z.min (remaining_training_samples s) (zlen front) = zlen front) as ->.
  { unfold remaining_training_samples, usize_saturating_sub. rewrite (fw_stop _ H). lia. }
  assert (ztake (zlen front) (zip (map value front) front) = zip (map value front) front) as ->.
  { apply ztake_all. unfold zlen. rewrite length_zip_with, length_map. lia. }
  pose proof (fw_pending _ H) as Hcat. rewrite Hpd, Hc, Z2Nat.inj_add, online_samples_app in Hcat by lia. cbn [concat] in Hcat.
  apply app_inj_1 in Hcat as [Hfront Hcat]; [|rewrite online_samples_length; unfold zlen; lia].
  destruct (train_loop _ _) as [g [[]|e]] eqn:Et; [|done]. intros [= <-].
  rewrite Hfront, (fw_grid _ H) in Et. apply train_loop_online in Et; [|done|].
  2:{ intros j Hj Hne'. rewrite Nat2Z.inj_succ, <- Z.add_1_r. apply window_not_end; [done|lia|].
      transitivity (hs_samples_ingested s / w); [symmetry|]; apply window_inside; lia. }
  rewrite Z2Nat.id, <- Z2Nat.inj_add, Z2Nat.id in Et by lia. rewrite (proj2 (Z.ltb_lt 0 (zlen front)) Hl) in Et. cbn [andb] in Et.
  destruct (bucket_of (hs_samples_ingested s) (zlen front) Hi Hl) as [Hbk Hone]; [lia|].
  assert (usize_saturating_add (hs_samples_ingested s) (zlen front) = hs_samples_ingested s + zlen front) as Hsat by (unfold usize_saturating_add; lia).
  set (s1 := pop_trained front rest (zlen front) (set_hs_grid g s)).
  assert (hs_samples_ingested s1 = hs_samples_ingested s + zlen front) as Hi1 by exact Hsat.
  assert (update_windows (hs_samples_ingested s) (zlen front) s1 = set_hs_grid (online (Z.to_nat (hs_samples_ingested s + zlen front))).1 s1) as ->.
  { unfold update_windows. rewrite Hi1, (proj2 (Z.ltb_lt 0 (zlen front)) Hl). assert (samples_for_update s1 = w) as -> by exact (fw_update _ H).
    cbn [andb]. rewrite Hbk, Et. destruct (_ =? 0) eqn:Em; [|done]. rewrite Hone by (apply Z.ltb_lt; by rewrite Hbk).
    assert (current_training_rate s1 = rate_after (hs_samples_ingested s + zlen front)) as ->; [|done].
    unfold current_training_rate. rewrite Hi1. unfold s1. cbn [hs_initial_rate hs_final_rate stop_training_after_n_samples pop_trained set_hs_grid].
    by rewrite (fw_initial _ H), (fw_final _ H), (fw_stop _ H). }
  split; [|split; [exact Hi1|done]].
  destruct H as [Hd Hu Hst H0 H1 _ _ _ _ Hg Hrng _ _].
  unfold s1. split; cbn; rewrite ?Hsat; try done; unfold pending_training_sample_count in *; cbn [pending_training_samples set_hs_grid pop_trained] in *.
  - lia.
  - fold (zsum (map zlen rest)). lia.
  - transitivity ((hs_samples_ingested s / w + 1) * w); [done|]. apply Z.mul_le_mono_nonneg_r; [lia|].
    apply Z.add_le_mono_r, Z.div_le_mono; lia.
  - rewrite Z2Nat.inj_add by lia. exact Hcat.
Qed.

Lemma restart_follows s s' d' : follows s -> havana_from_snapshot p (to_snapshot s) d' = Ok s' -> follows s'.
Proof.
  intros H. unfold havana_from_snapshot. destruct (build_err _); [|done]. destruct (validate_havana_sampler_params p); [|done].
  cbn [result_bind]. destruct (domain_eqb _ _) eqn:Ed; [|done]. destruct (validate_havana_grid_domain _ _); [|done].
  intros [= <-]. apply domain_eqb_eq in Ed. destruct H. by split; cbn in *; subst.
Qed.

Lemma step_follows s s' : follows s -> havana_step s s' -> follows s'.
Proof.
  intros H Hs. destruct Hs as [s s' n [batch remaining| |] Hn Hg|s s' f front rest Hp Hv Hf|s s' d' Hr].
  - by apply generate_follows in Hg as [? _].
  - unfold training_generate in Hg. break; done.
  - unfold training_generate in Hg. break; done.
  - by apply (feedback_follows s s' f front rest) in Hf as [? _].
  - by eapply restart_follows.
Qed.
End online.

Lemma new_follows p d stop s value :
  havana_from_params_and_domain p d stop = Ok s -> 0 < hp_samples_for_update p -> 0 <= stop ->
  follows value p stop (hs_grid s) (mc_seed (hp_seed p)) d s.
Proof.
  unfold havana_from_params_and_domain. destruct (validate_havana_sampler_params p); [|done]. cbn [result_bind].
  destruct (stop =? 0); [done|]. destruct (build_havana_grid d p) as [grid|]; [|done]. intros [= <-] Hw Hs.
  split; cbn; try done. rewrite Z.div_0_l by lia. lia.
Qed.

(** C29: the draws and the grid of a training run are those of a reference that draws one
    sample at a time and trains on it at once, with an update after every
    [samples_for_update] samples at the rate of that moment. Whatever the sizes of the
    draws, however late the values come back and however often the sampler is restored
    from its snapshot: the grid is that of the reference after the ingested samples, the
    generator that after the drawn ones, what is pending are the samples in between, and
    the next batch holds the points of the next samples. *)
Theorem training_ignores_the_schedule value p d stop s0 s :
  havana_from_params_and_domain p d stop = Ok s0 -> 0 < hp_samples_for_update p -> 0 <= stop <= usize_max ->
  steps (havana_step value p) s0 s ->
  let reference := online value p stop (hs_grid s0) (mc_seed (hp_seed p)) in
  let samples := online_samples value p stop (hs_grid s0) (mc_seed (hp_seed p)) in
  let ingested := Z.to_nat (hs_samples_ingested s) in
  let produced := Z.to_nat (hs_samples_produced s) in
  hs_grid s = (reference ingested).1 /\ hs_rng s = (reference produced).2 /\
  concat (pending_training_samples s) = samples ingested (produced - ingested)%nat /\
  forall n s' batch remaining, 0 <= n -> training_generate n s = (s', Ok (GBatch batch remaining)) ->
    exists rows, latent_rows batch rows /\ 0 < nr_samples batch <= n /\
      try_map (sample_row d) (samples produced (Z.to_nat (nr_samples batch))) = Ok rows.
Proof.
  intros H0 Hw Hstop Hsteps. cbv zeta.
  assert (follows value p stop (hs_grid s0) (mc_seed (hp_seed p)) d s) as H.
  { eapply (steps_invariant (havana_step value p) (follows value p stop (hs_grid s0) (mc_seed (hp_seed p)) d)); [| |exact Hsteps].
    - intros x y Hx. apply step_follows; [done|lia|exact Hx].
    - apply new_follows; [done..|lia]. }
  split_and!; [exact (fw_grid _ _ _ _ _ _ _ H)|exact (fw_rng _ _ _ _ _ _ _ H)| |].
  - rewrite (fw_pending _ _ _ _ _ _ _ H), (fw_produced _ _ _ _ _ _ _ H). f_equal.
    pose proof (fw_ingested _ _ _ _ _ _ _ H). pose proof (pending_count_nonneg s). lia.
  - intros n s' batch remaining Hn Hg. eapply generate_follows in Hg as [_ (rows & Hrows)]; [by exists rows|exact Hw|by destruct Hstop|exact H|exact Hn].
Qed.
End laws.
