(* ===== verification/HavanaGridLaws.v ===== *)
(** A Havana grid is nested like its domain from its construction on, and what is drawn
    from it are points of the domain
    (src/sampling/havana_grid.rs, src/sampling/sampler_aggregator/havana.rs). *)
From S2P Require Import Prelude Floats Errors Domain Batch Config LatentBatch Feedback Generation AccumulatorTrait Scalar Stratification Vector Gammaloop AccumulatorState Extraction Evaluation Raster Metrics WorkQueue Queue Tasks Runner StageContext Havana NaiveMonteCarlo NaiveLaws HavanaGrid HavanaTraining HavanaLaws.

(** ** Nesting *)

(** What is left of a grid when training forgets the numbers. *)
Fixpoint nesting (g : GridShape) : GridShape :=
  match g with
  | GContinuous partitionings => GContinuous (map (fun _ => []) partitionings)
  | GDiscrete bins =>
      GDiscrete ((fix each (bins : list GridBin) : list GridBin :=
                    match bins with
                    | [] => []
                    | mkBin _ sub :: bins => mkBin 0 (option_map nesting sub) :: each bins
                    end) bins)
  | GUniform discrete_bins partitionings => GUniform discrete_bins (map (fun _ => []) partitionings)
  end.

(** A sample of a grid: bins that exist, coordinates between 0 and 1. *)
Fixpoint fits (s : Sample) (g : GridShape) : Prop :=
  match s, g with
  | SContinuous _ xs, GContinuous partitionings => zlen xs = zlen partitionings /\ all_unit xs
  | SDiscrete _ index child, GDiscrete bins =>
      exists bin, zget bins index = Some bin /\
        match child, sub_grid bin with
        | Some s, Some g => fits s g
        | None, None => True
        | _, _ => False
        end
  | SUniform _ indices xs, GUniform discrete_bins partitionings =>
      Forall2 (fun i n => 0 <= i < n) indices discrete_bins /\ zlen xs = zlen partitionings /\ all_unit xs
  | _, _ => False
  end.

(** What the constructors, training and sampling of the grid do to its nesting. *)
Class GridFits {R : McRng} (SG : SymbolicaGrid) := {
  continuous_grid_shape dims bins n g :
    continuous_grid dims bins n = Ok g -> exists ps, grid_shape g = GContinuous ps /\ zlen ps = dims;
  discrete_grid_shape bins ratio g :
    discrete_grid bins ratio = Ok g -> exists bs, grid_shape g = GDiscrete bs /\ map sub_grid bs = map (option_map grid_shape) bins;
  nesting_trained x v g : nesting (grid_shape (add_training_sample x v g).1) = nesting (grid_shape g);
  nesting_updated a b g : nesting (grid_shape (grid_update a b g)) = nesting (grid_shape g);
  sample_fits g r s : fits (grid_sample g r s).2 (grid_shape g)
}.

(** ** The check, by its cases *)

Lemma try_each_ok {A} (f : A -> result EngineError unit) l : try_each f l = Ok tt <-> Forall (fun x => f x = Ok tt) l.
Proof.
  unfold try_each. induction l as [|x l IH]; cbn [try_fold]; [by split|]. rewrite Forall_cons, <- IH.
  destruct (f x) as [[]|e]; naive_solver.
Qed.

Lemma validate_sub_ok f b : validate_sub f b = Ok tt <-> exists g, sub_grid b = Some g /\ f g = Ok tt.
Proof. unfold validate_sub. destruct (sub_grid b); naive_solver. Qed.

Definition sub_ok (f : GridShape -> result EngineError unit) (sub : option GridShape) : Prop := exists g, sub = Some g /\ f g = Ok tt.

Lemma validate_rectangular_cons g dims n cards :
  validate_rectangular_havana_grid g dims (n :: cards) = Ok tt <->
  exists bins, g = GDiscrete bins /\ zlen bins = n /\ Forall (sub_ok (fun g => validate_rectangular_havana_grid g dims cards)) (map sub_grid bins).
Proof.
  destruct g as [|bins|]; cbn [validate_rectangular_havana_grid]; try (split; [done|by intros (? & ? & _)]).
  destruct (Z.eqb_spec (zlen bins) n) as [Hn|Hn]; cbn [negb].
  - rewrite try_each_ok. transitivity (Forall (sub_ok (fun g => validate_rectangular_havana_grid g dims cards)) (map sub_grid bins)).
    + rewrite (Forall_ext _ (fun b => sub_ok (fun g => validate_rectangular_havana_grid g dims cards) (sub_grid b))) by (intros b; apply validate_sub_ok).
      symmetry. apply Forall_map.
    + split; [by exists bins|]. by intros (? & [= <-] & _ & H).
  - split; [done|]. by intros (? & [= <-] & ? & _).
Qed.

Lemma validate_rectangular_nil g dims :
  validate_rectangular_havana_grid g dims [] = Ok tt <-> exists ps, g = GContinuous ps /\ zlen ps = dims.
Proof.
  destruct g as [ps| |]; cbn; try (split; [done|by intros (? & ? & _)]).
  destruct (Z.eqb_spec (zlen ps) dims); split; [by exists ps|done|done|by intros (? & [= <-] & ?)].
Qed.

Lemma validate_discrete g l role bs :
  validate_havana_grid_domain g (Discrete l role bs) = Ok tt <->
  exists bins, g = GDiscrete bins /\
    Forall2 (fun b sub => sub_ok (fun g => validate_havana_grid_domain g (branch_domain b)) sub) bs (map sub_grid bins).
Proof.
  destruct g as [|bins|]; cbn [validate_havana_grid_domain]; try (split; [done|by intros (? & ? & _)]).
  destruct (Z.eqb_spec (zlen bins) (zlen bs)) as [Hn|Hn]; cbn [negb].
  - transitivity (Forall2 (fun b sub => sub_ok (fun g => validate_havana_grid_domain g (branch_domain b)) sub) bs (map sub_grid bins));
      [|split; [by exists bins|by intros (? & [= <-] & ?)]].
    revert bins Hn. induction bs as [|[i d] bs IH]; intros [|bin bins]; rewrite ?zlen_cons, ?zlen_nil; intros Hn; cbn [map].
    + split; [constructor|done].
    + pose proof (zlen_nonneg bins). lia.
    + pose proof (zlen_nonneg bs). lia.
    + assert (zlen bins = zlen bs) as Hn' by lia. specialize (IH bins Hn'). rewrite result_bind_ok. split.
      * intros ([] & Hv & Hr). apply validate_sub_ok in Hv. constructor; [exact Hv|]. by apply IH.
      * intros H. apply Forall2_cons in H as [Hv Hr]. exists tt. split; [by apply validate_sub_ok|]. by apply IH.
  - split; [done|]. intros (? & [= <-] & H). apply Forall2_length in H. rewrite length_map in H. unfold zlen in Hn. lia.
Qed.

(** ** Grids of the same nesting pass the same checks *)

Lemma nesting_discrete bins : nesting (GDiscrete bins) = GDiscrete (map (fun b => mkBin 0 (option_map nesting (sub_grid b))) bins).
Proof. cbn. f_equal. induction bins as [|[pdf sub] bins IH]; [done|]. cbn. by rewrite IH. Qed.

Lemma nesting_GDiscrete g bins : nesting g = nesting (GDiscrete bins) -> exists bins', g = GDiscrete bins' /\ map (option_map nesting) (map sub_grid bins') = map (option_map nesting) (map sub_grid bins).
Proof.
  destruct g as [| bins'|]; rewrite ?nesting_discrete; [done| |done]. intros [= H]. exists bins'. split; [done|].
  apply (f_equal (map sub_grid)) in H. by rewrite !map_map in *.
Qed.

Lemma sub_ok_nesting f (Hf : forall g g', nesting g = nesting g' -> f g = Ok tt -> f g' = Ok tt) sub sub' :
  option_map nesting sub = option_map nesting sub' -> sub_ok f sub -> sub_ok f sub'.
Proof.
  intros Hn (g & -> & Hg). destruct sub' as [g'|]; [|done]. injection Hn as Hn. exists g'. split; [done|]. by apply (Hf g).
Qed.

Lemma rectangular_nesting dims cards g g' :
  nesting g = nesting g' -> validate_rectangular_havana_grid g dims cards = Ok tt -> validate_rectangular_havana_grid g' dims cards = Ok tt.
Proof.
  revert g g'. induction cards as [|n cards IH]; intros g g' Hn.
  - rewrite !validate_rectangular_nil. intros (ps & -> & Hd). destruct g' as [ps'| |]; [|done..]. injection Hn as Hn.
    exists ps'. split; [done|]. apply (f_equal length) in Hn. rewrite !length_map in Hn. unfold zlen in *. lia.
  - rewrite !validate_rectangular_cons. intros (bins & -> & Hl & Hsub). symmetry in Hn. apply nesting_GDiscrete in Hn as (bins' & -> & Hn).
    exists bins'. split; [done|]. split.
    + apply (f_equal length) in Hn. rewrite !length_map in Hn. unfold zlen in *. lia.
    + clear Hl. revert Hsub Hn. generalize (map sub_grid bins), (map sub_grid bins'). intros l l' Hsub. revert l'.
      induction Hsub as [|sub l Hs _ IHl]; intros [|sub' l'] [=]; constructor; [|by apply IHl].
      by apply (sub_ok_nesting _ IH sub).
Qed.

Lemma domain_nesting d g g' :
  nesting g = nesting g' -> validate_havana_grid_domain g d = Ok tt -> validate_havana_grid_domain g' d = Ok tt.
Proof.
  revert g g'. induction d as [l role bs IH|strata cards dims] using Domain_ind'; intros g g' Hn; [|by apply rectangular_nesting].
  rewrite !validate_discrete. intros (bins & -> & Hsub). symmetry in Hn. apply nesting_GDiscrete in Hn as (bins' & -> & Hn).
  exists bins'. split; [done|]. revert Hsub Hn. generalize (map sub_grid bins), (map sub_grid bins'). intros k k' Hsub. revert k'.
  induction Hsub as [|b sub bs k Hs _ IHk]; intros [|sub' k'] [=]; constructor; apply Forall_cons in IH as [Hb IH].
  - by apply (sub_ok_nesting _ Hb sub).
  - by apply IHk.
Qed.

(** ** Construction *)

Section laws.
Context {R : McRng} {SG : SymbolicaGrid} {LM : Libm} {GF : GridFits SG}.

Lemma build_err_ok {A} (m : result string A) a : build_err m = Ok a -> m = Ok a.
Proof. unfold build_err. destruct m; [by intros [= <-]|done]. Qed.

Lemma build_rectangular_fits dims cards p g :
  Forall (fun n => 0 <= n) cards -> build_rectangular_havana_grid dims cards p = Ok g ->
  validate_rectangular_havana_grid (grid_shape g) dims cards = Ok tt.
Proof.
  intros Hcards. revert g. induction Hcards as [|n cards Hn _ IH]; intros g; cbn [build_rectangular_havana_grid].
  - destruct (dims =? 0); [done|]. intros H%build_err_ok%continuous_grid_shape. by apply validate_rectangular_nil.
  - destruct (n =? 0); [done|]. intros (bins & Hb & H)%result_bind_ok. apply build_err_ok, discrete_grid_shape in H as (bs & -> & Hs).
    apply try_map_Forall2 in Hb. apply validate_rectangular_cons. exists bs. split; [done|]. split.
    + apply Forall2_length in Hb. rewrite length_seqZ in Hb. apply (f_equal length) in Hs. rewrite !length_map in Hs. unfold zlen. lia.
    + rewrite Hs. apply Forall_map. eapply Forall2_Forall_r; [exact Hb|]. apply Forall_forall. intros _ _ sub (g' & Hg & [= <-])%result_bind_ok.
      exists (grid_shape g'). split; [done|]. by apply IH.
Qed.

Lemma build_discrete l role bs p g :
  build_havana_grid (Discrete l role bs) p = Ok g ->
  exists subs, Forall2 (fun b sub => exists g, build_havana_grid (branch_domain b) p = Ok g /\ sub = Some g) bs subs /\
    discrete_grid subs DEFAULT_DISCRETE_MAX_PROB_RATIO = Ok g.
Proof.
  cbn [build_havana_grid]. intros (? & _ & H)%result_bind_ok. destruct (list_is_nil bs); [done|].
  apply result_bind_ok in H as (subs & Hs & H%build_err_ok). exists subs. split; [|done]. clear H.
  revert subs Hs. induction bs as [|[i d] bs IH]; intros subs.
  - intros [= <-]. constructor.
  - intros (g' & Hg & (gs & Hgs & [= <-])%result_bind_ok)%result_bind_ok. constructor; [by exists g'|by apply IH].
Qed.

Lemma build_fits d p g :
  domain_sized d = true -> build_havana_grid d p = Ok g -> validate_havana_grid_domain (grid_shape g) d = Ok tt.
Proof.
  revert g. induction d as [l role bs IH|strata cards dims] using Domain_ind'; intros g Hsz Hg.
  - apply domain_sized_discrete in Hsz. apply build_discrete in Hg as (subs & Hsubs & Hg).
    apply discrete_grid_shape in Hg as (bins & -> & Hm). apply validate_discrete. exists bins. split; [done|]. rewrite Hm. clear Hm.
    induction Hsubs as [|b sub bs subs (g' & Hg' & ->) _ IHs]; constructor; apply Forall_cons in IH as [Hb IH], Hsz as [[_ Hszb] Hsz].
    + exists (grid_shape g'). split; [done|]. by apply Hb.
    + by apply IHs.
  - cbn [build_havana_grid] in Hg. apply result_bind_ok in Hg as (? & _ & Hg). cbn [domain_sized] in Hsz.
    apply andb_true_iff in Hsz as [[_ Hcards%forallb_True_iff]%andb_true_iff _]. cbn [validate_havana_grid_domain].
    apply (build_rectangular_fits _ _ p); [|done]. eapply Forall_impl; [exact Hcards|]. intros n [Hn0 _]%andb_true_iff. by apply Z.leb_le.
Qed.

(** ** Samples of a grid that fits *)

Lemma sample_path_app s acc :
  sample_path s acc = (let? r := sample_path s [] in Ok (acc ++ r.1, r.2)).
Proof.
  revert s acc. fix IH 1. intros [w xs|w i [child|]|w bins xs] acc; cbn [sample_path].
  - cbn. by rewrite app_nil_r.
  - destruct (discrete_index i) as [k|]; [|done]. cbn [result_bind].
    rewrite (IH child (acc ++ [k])), (IH child ([] ++ [k])). destruct (sample_path child []) as [[path ys]|]; [|done]. cbn. by rewrite <- app_assoc.
  - by destruct (discrete_index i).
  - by destruct (try_map discrete_index bins).
Qed.

(** The first step down the bins of a grid. *)
Lemma fits_discrete s bins :
  fits s (GDiscrete bins) -> exists w i child bin, s = SDiscrete w i child /\ zget bins i = Some bin /\
    forall g, sub_grid bin = Some g -> exists c, child = Some c /\ fits c g.
Proof.
  destruct s as [w xs|w i child|]; [done| |done]. intros (bin & Hb & Hc). exists w, i, child, bin. split_and!; [done|done|].
  intros g Hg. rewrite Hg in Hc. destruct child as [c|]; [by exists c|done].
Qed.

Lemma sample_path_discrete w i c :
  0 <= i <= i64_max -> sample_path (SDiscrete w i (Some c)) [] = (let? r := sample_path c [] in Ok (i :: r.1, r.2)).
Proof.
  intros Hi. cbn [sample_path]. unfold discrete_index. rewrite (proj2 (Z.leb_le _ _)) by lia. cbn [result_bind].
  rewrite sample_path_app. done.
Qed.

Lemma zget_range {A} (l : list A) i x : zget l i = Some x -> 0 <= i < zlen l.
Proof. unfold zget. destruct (Z.leb_spec 0 i); [|done]. intros ?%lookup_lt_Some. unfold zlen. lia. Qed.

Lemma rectangular_sample g dims cards s :
  Forall (fun n => n <= i64_max) cards -> validate_rectangular_havana_grid g dims cards = Ok tt -> fits s g ->
  exists path xs, sample_path s [] = Ok (path, xs) /\ Forall2 (fun i n => 0 <= i < n) path cards /\ zlen xs = dims /\ all_unit xs.
Proof.
  intros Hcards. revert g s. induction Hcards as [|n cards Hn _ IH]; intros g s.
  - rewrite validate_rectangular_nil. intros (ps & -> & Hd). destruct s as [w xs| |]; [|done..]. intros [Hl Hu].
    exists [], xs. split_and!; [done|constructor|lia|done].
  - rewrite validate_rectangular_cons. intros (bins & -> & Hl & Hsub). intros (w & i & child & bin & -> & Hb & Hc)%fits_discrete.
    pose proof (zget_range _ _ _ Hb). apply zget_elem in Hb. rewrite Forall_forall in Hsub.
    destruct (Hsub (sub_grid bin)) as (g & Hg & Hv); [apply list_elem_of_fmap; by exists bin|]. destruct (Hc g Hg) as (c & -> & Hfit).
    destruct (IH g c Hv Hfit) as (path & xs & Hp & Hf & Hxs). exists (i :: path), xs.
    rewrite sample_path_discrete, Hp by lia. split_and!; [done|constructor; [lia|done]|apply Hxs..].
Qed.

(** A branch is listed at most at its label. *)
Lemma label_bounds_position bs i b :
  increasing bs -> Forall (fun b => 0 <= branch_index b) bs -> zget bs i = Some b -> i <= branch_index b.
Proof.
  unfold increasing. intros Hinc Hpos Hb. pose proof (zget_range _ _ _ Hb) as Hr. unfold zget in Hb.
  rewrite (proj2 (Z.leb_le 0 i)) in Hb by lia. remember (Z.to_nat i) as k eqn:Ek.
  assert (Z.of_nat k <= branch_index b); [|lia]. clear Ek Hr i.
  revert bs b Hinc Hpos Hb. induction k as [|k IH] using nat_ind; intros bs b Hinc Hpos Hb.
  - rewrite Forall_forall in Hpos. by apply Hpos, list_elem_of_lookup_2 with O.
  - assert (exists b', bs !! k = Some b') as [b' Hb'] by (apply lookup_lt_is_Some; apply lookup_lt_Some in Hb; lia).
    specialize (IH bs b' Hinc Hpos Hb').
    assert (branch_index b' < branch_index b); [|lia].
    clear IH Hpos. revert k Hb Hb'. induction Hinc as [|a bs _ IHs Hf]; intros [|k] Hb Hb'; cbn in *; [done..| |].
    + simplify_eq. rewrite Forall_forall in Hf. by apply Hf, list_elem_of_lookup_2 with O.
    + by apply (IHs k).
Qed.

Lemma map_discrete_path_labels l role bs i path b :
  zget bs i = Some b -> map_discrete_path (Discrete l role bs) (i :: path) true =
  (let? tail := map_discrete_path (branch_domain b) path true in Ok (label_of b :: tail)).
Proof.
  intros Hb. pose proof (zget_range _ _ _ Hb). cbn [map_discrete_path]. unfold branch_position.
  rewrite (proj2 (Z.leb_le 0 i)), (proj2 (Z.ltb_lt i (zlen bs))) by lia. cbn [ok_or result_bind]. by rewrite Hb.
Qed.

Lemma domain_sample g d seen s :
  domain_sized d = true -> validate_visit d seen = Ok tt -> validate_havana_grid_domain g d = Ok tt -> fits s g ->
  exists path xs labels, sample_path s [] = Ok (path, xs) /\ map_discrete_path d path true = Ok labels /\
    validate_point_parts d labels xs = Ok tt /\ all_unit xs.
Proof.
  revert g seen s. induction d as [l role bs IH|strata cards dims] using Domain_ind'; intros g seen s Hsz Hd Hv Hfit.
  - apply validate_visit_discrete in Hd as ((_ & Hmax & Hinc)%branches_malformed_spec & _ & Hbs). apply domain_sized_discrete in Hsz.
    apply validate_discrete in Hv as (bins & -> & Hsub). apply fits_discrete in Hfit as (w & i & child & bin & -> & Hbin & Hc).
    pose proof (zget_range _ _ _ Hbin) as Hr. unfold zget in Hbin. rewrite (proj2 (Z.leb_le 0 i)) in Hbin by lia.
    assert (map sub_grid bins !! Z.to_nat i = Some (sub_grid bin)) as Hs by (rewrite list_lookup_fmap; by rewrite Hbin).
    destruct (Forall2_lookup_r _ _ _ _ _ Hsub Hs) as (b & Hb & g & Hg & Hvb). destruct (Hc g Hg) as (c & -> & Hfit).
    assert (zget bs i = Some b) as Hbz by (unfold zget; by rewrite (proj2 (Z.leb_le 0 i)) by lia).
    assert (Forall (fun b => 0 <= branch_index b) bs) as Hnn by (eapply Forall_impl; [exact Hsz|]; by intros ? []).
    pose proof (label_bounds_position bs i b Hinc Hnn Hbz) as Hib.
    pose proof (zget_elem _ _ _ Hbz) as Hin. rewrite Forall_forall in IH, Hmax, Hbs, Hsz. destruct (Hsz _ Hin) as [Hpos Hszb].
    destruct (IH _ Hin g _ c Hszb (Hbs _ Hin) Hvb Hfit) as (path & xs & labels & Hp & Hm & Hpt & Hu).
    exists (i :: path), xs, (branch_index b :: labels). pose proof (Hmax _ Hin) as Hb64.
    rewrite sample_path_discrete, Hp by lia. rewrite (map_discrete_path_labels _ _ _ _ _ b Hbz), Hm.
    rewrite label_of_id by lia. split_and!; [done|done| |done].
    unfold validate_point_parts in *. rewrite leaf_path_discrete, (proj2 (Z.ltb_ge _ _)), (find_increasing bs b Hinc Hin) by lia. exact Hpt.
  - cbn [domain_sized] in Hsz. apply andb_true_iff in Hsz as [[_ Hcards%forallb_True_iff]%andb_true_iff _].
    cbn [validate_havana_grid_domain] in Hv. apply (rectangular_sample _ _ _ s) in Hv as (path & xs & Hp & Hf & Hl & Hu); [|eapply Forall_impl; [exact Hcards|]|done].
    2:{ intros n [_ Hn]%andb_true_iff. by apply Z.leb_le. }
    exists path, xs, path. split_and!; [done| | |done].
    + pose proof (Forall2_length _ _ _ Hf) as Hpl. assert ((negb (zlen path =? zlen cards) ||
        existsb (fun '(v, n) => (v <? 0) || (v >=? n)) (zip path cards)) = false) as Hok; [|destruct path; cbn [map_discrete_path]; by rewrite Hok].
      rewrite (proj2 (Z.eqb_eq _ _)) by (unfold zlen; lia). cbn [negb orb]. apply existsb_false. clear -Hf.
      induction Hf as [|i n path cards Hi _ IH]; cbn; constructor; [|done].
      rewrite (proj2 (Z.ltb_ge i 0)), Z.geb_leb, (proj2 (Z.leb_gt n i)) by lia. done.
    + unfold validate_point_parts. rewrite (proj2 (leaf_path_rectangular strata cards dims path dims)) by done.
      cbn [result_bind]. by rewrite Hl, Z.eqb_refl.
Qed.

Lemma sample_row_ok g d s :
  domain_sized d = true -> domain_validate d = Ok tt -> validate_havana_grid_domain g d = Ok tt -> fits s g ->
  exists r, sample_row d s = Ok r /\ row_ok d r.
Proof.
  intros Hsz Hd Hv Hfit. destruct (domain_sample g d false s Hsz Hd Hv Hfit) as (path & xs & labels & Hp & Hm & Hpt & Hu).
  exists (labels, xs, get_weight s). unfold sample_row, sample_components. rewrite Hp. cbn [result_bind fst snd]. rewrite Hm. by split.
Qed.

Lemma draw_samples_valid buffers g d b rows rng :
  domain_sized d = true -> domain_validate d = Ok tt -> validate_havana_grid_domain (grid_shape g) d = Ok tt -> builds b rows ->
  exists rng' samples b' more, draw_samples buffers g d b rng = (rng', Ok (samples, b')) /\
    builds b' (rows ++ more) /\ length more = length buffers /\ Forall (row_ok d) more.
Proof.
  intros Hsz Hd Hv. revert b rows rng. induction buffers as [|s buffers IH]; intros b rows rng Hb; cbn [draw_samples].
  - exists rng, [], b, []. by rewrite app_nil_r.
  - pose proof (sample_fits g rng s) as Hfit. destruct (grid_sample g rng s) as [rng1 sample]. cbn [snd] in Hfit.
    destruct (sample_row_ok _ _ _ Hsz Hd Hv Hfit) as (r & Hr & Hok). rewrite Hr.
    destruct (IH _ _ rng1 (builds_push b rows r Hb)) as (rng2 & samples & b' & more & Hdraw & Hb' & Hl & Hall). rewrite Hdraw.
    exists rng2, (sample :: samples), b', (r :: more). rewrite cons_middle, app_assoc. split_and!; [done|done|cbn; by rewrite Hl|by constructor].
Qed.

(** ** Every grid of a training run is nested like the domain *)

Lemma train_loop_nesting pairs g : nesting (grid_shape (train_loop pairs g).1) = nesting (grid_shape g).
Proof.
  revert g. induction pairs as [|[v x] pairs IH]; intros g; [done|]. cbn [train_loop].
  pose proof (nesting_trained x (PrimFloat.div v (get_weight x)) g) as Hx. destruct (add_training_sample _ _ g) as [g1 [[]|e]]; [|done].
  by rewrite IH.
Qed.
Lemma updates_nesting k a b g : nesting (grid_shape (Nat.iter k (grid_update a b) g)) = nesting (grid_shape g).
Proof. induction k as [|k IH]; [done|]. cbn [Nat.iter nat_rect]. by rewrite nesting_updated. Qed.

Definition fits_domain (s : HavanaSampler) : Prop := validate_havana_grid_domain (grid_shape (hs_grid s)) (hs_domain s) = Ok tt.

Lemma feedback_fits f s : fits_domain s -> fits_domain (training_feedback f s).1.
Proof.
  unfold fits_domain, training_feedback. cbv zeta. intros H. destruct (pending_training_samples s) as [|front rest]; [done|].
  destruct (negb _); [done|]. set (pairs := ztake _ _). pose proof (train_loop_nesting pairs (hs_grid s)) as Hn.
  destruct (train_loop pairs (hs_grid s)) as [g [[]|e]]; cbn [fst] in *.
  - set (s1 := pop_trained _ _ _ _). unfold update_windows. destruct (_ && _).
    + cbn [set_hs_grid hs_grid hs_domain]. eapply domain_nesting; [|exact H]. rewrite updates_nesting. by symmetry.
    + eapply domain_nesting; [|exact H]. by symmetry.
  - eapply domain_nesting; [|exact H]. by symmetry.
Qed.

Lemma step_fits value p s s' : havana_step value p s s' -> fits_domain s -> fits_domain s'.
Proof.
  intros [x s1 n g Hn Hg|x s1 f front rest _ _ Hf|x s1 d Hr] H.
  - unfold training_generate in Hg. break; done.
  - apply (feedback_fits f) in H. by rewrite Hf in H.
  - unfold havana_from_snapshot in Hr. destruct (build_err _); [|done]. destruct (validate_havana_sampler_params p); [|done].
    cbn [result_bind] in Hr. destruct (negb _); [done|]. destruct (validate_havana_grid_domain _ _) as [[]|] eqn:Ev; [|done].
    injection Hr as <-. exact Ev.
Qed.

Lemma new_fits p d stop s : domain_sized d = true -> havana_from_params_and_domain p d stop = Ok s -> fits_domain s.
Proof.
  unfold havana_from_params_and_domain. destruct (validate_havana_sampler_params p); [|done]. cbn [result_bind].
  destruct (stop =? 0); [done|]. destruct (build_havana_grid d p) as [grid|] eqn:Eg; [|done]. intros Hsz [= <-]. by apply (build_fits d p).
Qed.

(** C30: training over a valid domain goes on until its budget is drawn. Whatever the
    sizes of the draws, the delay of the values and the restarts: a request for samples
    never fails; it gives a batch of points of the domain, at least one and at most as
    many as asked for and as the window still takes; it waits only when samples are drawn
    whose values are not back, and finishes only when all samples are drawn. *)
Theorem training_draws_until_its_budget {GL : GridLaws SG} value p d stop s0 s n :
  domain_sized d = true -> domain_validate d = Ok tt ->
  havana_from_params_and_domain p d stop = Ok s0 -> 0 < hp_samples_for_update p -> 0 <= stop <= usize_max ->
  steps (havana_step value p) s0 s -> 0 < n ->
  match (training_generate n s).2 with
  | Ok (GBatch batch remaining) =>
      exists rows r, latent_rows batch rows /\ Forall (row_ok d) rows /\ 0 < nr_samples batch <= n /\
        remaining = Some r /\ nr_samples batch <= r /\ hs_samples_produced s + nr_samples batch <= stop /\
        (zlen (concat (map row_continuous rows)) <= usize_max -> as_batch (payload batch) = Ok (map row_point rows))
  | Ok Waiting => exists front rest, pending_training_samples s = front :: rest /\ front <> []
  | Ok Finished => hs_samples_produced s = stop
  | Err _ => False
  end.
Proof.
  intros Hsz Hd H0 Hw Hstop Hsteps Hn.
  assert (follows value p stop (hs_grid s0) (mc_seed (hp_seed p)) d s /\ fits_domain s) as [H Hfit].
  { eapply (steps_invariant (havana_step value p) (fun s => follows value p stop (hs_grid s0) (mc_seed (hp_seed p)) d s /\ fits_domain s)); [| |exact Hsteps].
    - intros x y [Hx Hf] Hstep. split; [by eapply step_follows; [|lia|exact Hx|exact Hstep]|by eapply step_fits].
    - split; [apply new_follows; [done..|lia]|by eapply new_fits]. }
  destruct (window_remaining value p stop _ _ d Hw ltac:(lia) s H) as (Hr0 & Hrs & Hrw & Hr).
  pose proof (fw_produced _ _ _ _ _ _ _ H) as Hp. pose proof (fw_stop _ _ _ _ _ _ _ H) as Hst. pose proof (fw_budget _ _ _ _ _ _ _ H).
  pose proof (fw_ingested _ _ _ _ _ _ _ H). pose proof (fw_nonempty _ _ _ _ _ _ _ H) as Hne.
  unfold training_generate. rewrite (proj2 (Z.eqb_neq n 0)) by lia. rewrite Hst.
  destruct (Z.leb_spec stop (hs_samples_produced s)); [cbn [snd]; lia|]. cbv zeta.
  set (r := training_window_samples_remaining s) in *. destruct (Z.eqb_spec r 0) as [Hz|Hnz].
  - cbn [snd]. destruct (pending_training_samples s) as [|front rest] eqn:Epd.
    + exfalso. assert (pending_training_sample_count s = 0) as Hc by (unfold pending_training_sample_count; by rewrite Epd).
      pose proof (Z.mul_succ_div_gt (hs_samples_ingested s) _ Hw). specialize (Hr Hz). lia.
    + exists front, rest. apply Forall_cons in Hne as [? _]. done.
  - pose proof (fw_domain _ _ _ _ _ _ _ H) as Hdom. unfold fits_domain in Hfit. rewrite Hdom in *.
    destruct (draw_samples_valid (resize_samples (Z.min r n) (reusable_samples s)) (hs_grid s) d builder_new [] (hs_rng s) Hsz Hd Hfit builds_new)
      as (rng & samples & b & rows & -> & [_ Henc] & Hl & Hok). rewrite resize_samples_length in Hl by lia. cbn [snd].
    exists rows, r. split_and!; [|done|cbn; lia|cbn; lia|done|cbn; lia|cbn; lia|by apply as_batch_rows].
    split; [exact Henc|]. cbn. unfold zlen. lia.
Qed.
End laws.

(** ** A grid with the laws the proofs rely on, and a training run on it
    (src/sampling/sampler_aggregator/havana.rs). *)

(** Two bins per coordinate; the values it was trained with and the updates are counted,
    and the coordinates that are drawn move with the updates. *)
Inductive ToyTree : Type :=
| TLeaf (dims : nat)
| TNode (first : ToyTree) (others : list ToyTree).
Record ToyGrid := mkToy { toy_tree : ToyTree; toy_values : list f64; toy_updates : Z }.

Fixpoint tree_shape (t : ToyTree) : GridShape :=
  match t with
  | TLeaf dims => GContinuous (replicate dims [0; 0.5; 1]%float)
  | TNode first others =>
      GDiscrete (mkBin 1 (Some (tree_shape first)) :: map (fun t => mkBin 1 (Some (tree_shape t))) others)
  end.
Fixpoint tree_sample (x : f64) (r : Z) (t : ToyTree) : Sample :=
  match t with
  | TLeaf dims => SContinuous 1 (replicate dims x)
  | TNode first others =>
      let i := r mod (1 + zlen others) in
      SDiscrete (f64_of_Z (1 + zlen others)) i
        (Some (if i =? 0 then tree_sample x r first
               else nth (Z.to_nat (i - 1)) (map (tree_sample x r) others) (tree_sample x r first)))
  end.
Definition toy_coordinate (g : ToyGrid) : f64 := if Z.even (toy_updates g) then 0.5%float else 0.25%float.
Definition toy_weight (s : Sample) : f64 := match s with SContinuous w _ | SDiscrete w _ _ | SUniform w _ _ => w end.
Definition toy_node (bins : list (option ToyGrid)) : result string ToyGrid :=
  let? trees := try_map (fun g => ok_or "no grid"%string (option_map toy_tree g)) bins in
  match trees with
  | [] => Err "no bins"%string
  | first :: others => Ok (mkToy (TNode first others) [] 0)
  end.

#[export] Instance toy_grid : SymbolicaGrid := {
  sgrid := ToyGrid;
  grid_shape g := tree_shape (toy_tree g);
  grid_sample g r _ := (r + 1, tree_sample (toy_coordinate g) r (toy_tree g));
  sample_new := SContinuous 0 [];
  get_weight := toy_weight;
  add_training_sample _ v g := (mkToy (toy_tree g) (v :: toy_values g) (toy_updates g), Ok tt);
  grid_update _ _ g := mkToy (toy_tree g) (toy_values g) (toy_updates g + 1);
  continuous_grid dims _ _ := if 0 <=? dims then Ok (mkToy (TLeaf (Z.to_nat dims)) [] 0) else Err "dims"%string;
  discrete_grid bins _ := toy_node bins;
  activate_license := Ok tt
}.
#[export] Instance toy_laws : GridLaws toy_grid.
Proof. by split. Qed.

Lemma tree_sample_fits x r : unit_interval x = true -> forall t, fits (tree_sample x r t) (tree_shape t).
Proof.
  intros Hx. fix IH 1. intros [dims|first others].
  - cbn. split; [unfold zlen; by rewrite !length_replicate|]. by apply Forall_forall; intros y [-> _]%elem_of_replicate.
  - cbn [tree_sample tree_shape fits]. set (i := r mod (1 + zlen others)).
    assert (0 <= i < 1 + zlen others) as Hi by (apply Z.mod_pos_bound; pose proof (zlen_nonneg others); lia).
    destruct (Z.eqb_spec i 0) as [Hz|Hne]; [rewrite Hz; exists (mkBin 1 (Some (tree_shape first))); split; [done|apply IH]|].
    assert (forall k, (k < length others)%nat -> exists t, others !! k = Some t /\
      nth k (map (tree_sample x r) others) (tree_sample x r first) = tree_sample x r t /\ fits (tree_sample x r t) (tree_shape t)) as Hk.
    { clear Hi Hne i. induction others as [|t others IHo]; intros [|k] Hk; cbn in Hk; [lia..| |].
      - exists t. split_and!; [done|done|apply IH].
      - apply IHo. lia. }
    destruct (Hk (Z.to_nat (i - 1))) as (t & Ht & -> & Hf); [unfold zlen in Hi; lia|].
    exists (mkBin 1 (Some (tree_shape t))). split; [|exact Hf]. unfold zget. rewrite (proj2 (Z.leb_le 0 i)) by lia.
    replace (Z.to_nat i) with (S (Z.to_nat (i - 1))) by lia.
    transitivity (((fun t => mkBin 1 (Some (tree_shape t))) <$> others) !! Z.to_nat (i - 1)); [done|]. by rewrite list_lookup_fmap, Ht.
Qed.

#[export] Instance toy_fits : GridFits toy_grid.
Proof.
  split; cbn.
  - intros dims _ _ g. destruct (Z.leb_spec 0 dims); [|done]. intros [= <-]. eexists. split; [done|].
    unfold zlen. rewrite length_replicate. lia.
  - intros bins _ g. unfold toy_node. intros (trees & Ht%try_map_Forall2 & Hg)%result_bind_ok.
    assert (map (fun t => Some (tree_shape t)) trees = map (option_map (fun g => tree_shape (toy_tree g))) bins) as Hm.
    { clear Hg. induction Ht as [|o t bins trees Ho _ IH]; [done|]. cbn. rewrite IH. destruct o as [o|]; [|done]. by injection Ho as <-. }
    destruct trees as [|first others]; [done|]. injection Hg as <-. eexists. split; [done|]. rewrite <- Hm. cbn. f_equal.
    rewrite map_map. done.
  - done.
  - done.
  - intros g r _. apply tree_sample_fits. unfold toy_coordinate. by destruct (Z.even _).
Qed.

#[export] Instance flat_libm : Libm := { hypot x _ := x; powf x _ := x; powi x _ := x }.

(** Windows of three samples, a budget of five; the value of a sample is a coordinate. *)
Definition toy_params : HavanaSamplerParams := mkHavanaParams 5 2 3 0.5%float 0.5%float.
Definition toy_domain : Domain :=
  Discrete None Integrand [mkDomainBranch 4 (domain_continuous 1); mkDomainBranch 9 (domain_rectangular_with_cardinalities 2 [2])].
Definition toy_value (s : Sample) : f64 :=
  match sample_path s [] with Ok (_, x :: _) => x | _ => 0%float end.
Definition toy_start : HavanaSampler :=
  match havana_from_params_and_domain toy_params toy_domain 5 with
  | Ok s => s
  | Err _ => mkHavana toy_domain [] 0 0 0 0 0 0 0 0 (mkToy (TLeaf 0) [] 0) 0 []
  end.
Definition toy_feed (s : HavanaSampler) : HavanaSampler :=
  (training_feedback (feedback_new (map toy_value (default [] (head (pending_training_samples s))))) s).1.
Definition toy_draw (n : usize) (s : HavanaSampler) : HavanaSampler := (training_generate n s).1.

(** Two and one sample, their values, a restart in between, and the last two. *)
Definition toy_drawn : HavanaSampler := toy_draw 4 (toy_draw 2 toy_start).
Definition toy_restarted : HavanaSampler :=
  match havana_from_snapshot toy_params (to_snapshot (toy_feed toy_drawn)) toy_domain with Ok s => s | Err _ => toy_start end.
Definition toy_trained : HavanaSampler := toy_feed toy_restarted.

Example toy_run_windows :
  (training_generate 4 toy_drawn).2 = Ok Waiting /\ toy_updates (hs_grid toy_trained) = 1 /\
  hs_samples_produced (toy_draw 9 toy_trained) = 5 /\ (training_generate 9 (toy_draw 9 toy_trained)).2 = Ok Finished /\
  havana_pdf (grid_shape (hs_grid toy_trained)) toy_domain ([9; 1], [0.5; 0.75]%float) = Ok (Some 1%float) /\
  havana_pdf (grid_shape (hs_grid toy_trained)) toy_domain ([7], [0.5]%float) = Ok (Some 0%float).
Proof. vm_compute. done. Qed.

(** [reflexivity] by the virtual machine, which leaves the types alone. *)
Ltac vm_refl := match goal with |- ?a = ?b => exact (@eq_refl _ b <: a = b) end.

Notation toy_step := (havana_step toy_value toy_params).

Lemma draw_step n s : 0 <= n -> is_ok (training_generate n s).2 = true -> toy_step s (toy_draw n s).
Proof.
  unfold toy_draw. intros Hn Hok. destruct (training_generate n s) as [s' [g|e]] eqn:E; [|done].
  by apply (hstep_generate _ _ s s' n g).
Qed.
Lemma feed_step s : list_is_nil (pending_training_samples s) = false -> is_ok (training_feedback (feedback_new (map toy_value (default [] (head (pending_training_samples s))))) s).2 = true -> toy_step s (toy_feed s).
Proof.
  unfold toy_feed. intros Hne Hok. destruct (pending_training_samples s) as [|front rest] eqn:Ep; [done|]. cbn [head default] in *.
  destruct (training_feedback _ s) as [s' [[]|e]] eqn:E; [|done]. by eapply hstep_feedback; [exact Ep| |exact E].
Qed.

Lemma toy_run : steps toy_step toy_start toy_trained.
Proof.
  eapply steps_step; [eapply steps_step; [eapply steps_step; [eapply steps_step; [eapply steps_step; [apply steps_refl|]|]|]|]|].
  - apply (draw_step 2 toy_start); [lia|vm_refl].
  - apply (draw_step 4 (toy_draw 2 toy_start)); [lia|vm_refl].
  - apply (feed_step toy_drawn); [vm_refl|vm_refl].
  - apply (hstep_restart _ _ (toy_feed toy_drawn) toy_restarted toy_domain). vm_refl.
  - apply (feed_step toy_restarted); [vm_refl|vm_refl].
Qed.

Lemma training_ignores_the_schedule_witness :
  steps toy_step toy_start toy_trained /\ hs_samples_ingested toy_trained = 3 /\
  hs_grid toy_trained = (online toy_value toy_params 5 (hs_grid toy_start) 5 3).1.
Proof.
  split; [exact toy_run|]. split; [vm_refl|].
  apply (training_ignores_the_schedule toy_value toy_params toy_domain 5 toy_start toy_trained);
    [vm_refl|reflexivity|split; [lia|by vm_compute]|exact toy_run].
Defined.

(** What is left of the budget. *)
Lemma toy_last : exists batch remaining, (training_generate 9 toy_trained).2 = Ok (GBatch batch remaining) /\ nr_samples batch = 2.
Proof.
  destruct (training_generate 9 toy_trained).2 as [[batch remaining| |]|e] eqn:E.
  - exists batch, remaining. split; [done|].
    assert (match (training_generate 9 toy_trained).2 with Ok (GBatch batch _) => nr_samples batch | _ => 0 end = 2) as H by vm_refl.
    by rewrite E in H.
  - assert (match (training_generate 9 toy_trained).2 with Ok Waiting => false | _ => true end = true) as H by vm_refl. by rewrite E in H.
  - assert (match (training_generate 9 toy_trained).2 with Ok Finished => false | _ => true end = true) as H by vm_refl. by rewrite E in H.
  - assert (is_ok (training_generate 9 toy_trained).2 = true) as H by vm_refl. by rewrite E in H.
Qed.

Lemma training_draws_until_its_budget_witness :
  exists batch remaining rows, (training_generate 9 toy_trained).2 = Ok (GBatch batch remaining) /\
    latent_rows batch rows /\ Forall (row_ok toy_domain) rows /\ nr_samples batch = 2.
Proof.
  pose proof (training_draws_until_its_budget toy_value toy_params toy_domain 5 toy_start toy_trained 9) as H.
  assert (exists batch remaining, (training_generate 9 toy_trained).2 = Ok (GBatch batch remaining) /\ nr_samples batch = 2) as (batch & remaining & E & En).
  { apply toy_last. }
  rewrite E in H. destruct H as (rows & r & Hrows & Hok & _);
    [vm_refl|vm_refl|vm_refl|reflexivity|split; [lia|by vm_compute]|exact toy_run|lia|].
  exists batch, remaining, rows. exact (conj E (conj Hrows (conj Hok En))).
Defined.
